(* ===== verification/_CoqProject ===== *)
-Q . S2P
Prelude.v
JsString.v
JsRegex.v
JsNumber.v
JsValue.v
JsJson.v
WebStorage.v
NavModules.v
SidebarConfig.v
NavSettings.v
StatusCodeRules.v
ModelMapping.v
BillingVars.v
RequestRules.v
RequestRulesProofs.v
TierExpr.v
ChannelForm.v
PlaygroundMessages.v
PlaygroundStream.v
PlaygroundState.v
JsonText.v
ModelPricing.v
PricingSnapshots.v
PricingEditor.v
ParamOverride.v
ParamOverrideProofs.v
ParamOverrideEditor.v
ParamOverrideEditorProofs.v
JsSort.v
JsMap.v
FloatError.v
Currency.v
QuotaForms.v
DashboardCharts.v
TableUrlState.v
DebouncedFilter.v
SettingsForm.v
WebEncoding.v
ChatLinks.v
Passkey.v
UsageLogs.v
ChannelSubmit.v
ModelPrices.v
ModelSquare.v
TieredEditor.v
TieredEditorProofs.v
PricingPanel.v
SecureVerification.v
ChannelRows.v
ApiClient.v
ChannelActions.v
ChannelTest.v
RatioSync.v
MultiKeys.v
