(* ===== verification/Prelude.v ===== *)
(** * Verification of the core logic of the new-api web console

    [new-api] is a gateway in front of many AI providers.  Its back end, in Go, relays and
    bills requests; its web console, in TypeScript under [src/web/default/src], is where
    an administrator describes channels, prices and rules, and where a user tries models in
    a playground.  This development models the console's own logic: the code that reads,
    checks, transforms and writes what is stored, as pure functions and state machines, with
    theorems about them.  Paths below are relative to [src/web/default/src].

    ** The language

    The console is TypeScript, so the first files give the part of the language and of its
    standard library that the code uses:

    - [JsString]: a string is its list of 16-bit code units; the methods of
      [String.prototype] the code calls, each with the lemmas the components share.
    - [JsRegex]: the pattern language, parsed from the pattern text of the source, a
      backtracking matcher with captures, and a declarative meaning the matcher is proved
      sound and complete for.  A definition of a component quotes its pattern unchanged.
    - [JsNumber]: binary64 numbers on the Standard Library's [SpecFloat]: conversion from
      text ([Number] and [parseFloat]), comparison, arithmetic, rounding, and conversion to
      text ([String] and [toFixed]).
    - [JsValue]: JSON values with [undefined]; objects with the language's order of keys
      (array indices first), spread, assignment and deletion; equality of objects up to the
      order of their keys as a setoid.
    - [JsJson]: [JSON.parse] and [JSON.stringify].  The printer is given a layout, so that the
      compact and the indented text are two instances of one definition, and
      [json_parse (print L v) = Some v] holds of every layout and storable value; the class [JsonCodec] (in [PlaygroundState]) is the interface the
      components that store typed data use.
    - [WebStorage]: the local storage, a map that may refuse a write.
    - [JsSort]: [Array.prototype.sort], as a stable insertion sort by a comparison: its result
      is a sorted permutation when the comparison is an order.
    - [JsMap]: a [Map], the list of its entries in order of insertion.
    - [FloatError]: the rounding error of a product and a quotient of numbers, by which
      amounts of money are converted to quotas and back without a change.
    - [WebEncoding]: UTF-8, percent encoding and base64 as the browser has them, with their
      round trips.

    ** The components

    - [StatusCodeRules] is [lib/http-status-code-rules.ts]: the list of status codes on
      which a channel is switched off.  The parser is exact: what is accepted, which codes
      the canonical ranges cover, which tokens are reported, and that the normalised text
      is a normal form.
    - [ModelMapping] is [features/channels/lib/model-mapping-validation.ts]: which models a
      mapping redirects, and the warnings shown before it is saved.
    - [BillingVars], [RequestRules] and [RequestRulesProofs] are
      [features/pricing/lib/billing-expr.ts]: prices written as expressions.  A stored text
      is a price part times request rules; the rules are edited as groups of conditions.
      The reader undoes the printer on every supported group, the two parts of a text
      separate again, and the comparison of a parameter is proved not to be read back.
    - [TierExpr] is [features/pricing/lib/tier-expr.ts]: the visual editor of tiers, which
      takes an expression only when it can print it again, and the estimator.
    - [ChannelForm] is [features/channels/lib/channel-form.ts] with the tables of
      [features/channels/constants.ts]: the checks of the channel form, the reading of a
      stored channel, and the payloads written back, with the settings each channel type
      may hold.
    - [PlaygroundMessages], [PlaygroundStream] and [PlaygroundState] are the playground
      ([features/playground]): messages and their life cycle, the state machine of a
      streamed answer, and the state hook with the local storage.  The stream is a step
      relation on events; the state hook is related to a specification with no storage at
      all, and a reloaded page is proved to show the state of the old one.
    - [NavModules], [SidebarConfig] and [NavSettings] are the navigation
      ([lib/nav-modules.ts], [hooks/use-sidebar-config.ts] and
      [features/system-settings/maintenance/config.ts]): three readers of the same two
      stored settings.  They agree on everything the settings page has written, a shown
      link always passes the guard of its page, and they are proved to disagree on other
      values.

    - [JsonText] is [features/system-settings/utils/json-parser.ts] with
      [features/system-settings/models/utils.ts]: the settings kept as JSON text, how a text
      is read with a fallback, normalised, checked and compared before a save.
    - [ModelPricing] is [features/system-settings/models/pricing-format.ts] and
      [model-pricing-core.ts]: how a price is shown and the draft of a model's prices with
      its lanes, its checks and what it is turned into.
    - [PricingSnapshots] is [model-pricing-snapshots.ts] with the save and delete handlers of
      [model-ratio-visual-editor.tsx]: the table of models assembled from eleven maps, and
      the maps written back.
    - [PricingEditor] is [model-pricing-sheet.tsx]: the panel in which one model is
      edited, as a state with a transition per callback.  [PricingPanel] is the panel as it
      opens on a stored model: where it shows the tiered editor, the effects of that editor
      have run on the two texts of the panel ([open_panel] alone is the panel's own effect).

    - [ParamOverride] and [ParamOverrideProofs] are the functions of
      [features/channels/components/dialogs/param-override-editor-dialog.tsx]: the rules by
      which a channel changes the requests it relays, read from their stored text, checked,
      and printed.  What is saved is complete, and a saved text is a fixed point of opening
      and saving, but for strings that are themselves JSON.
    - [ParamOverrideEditor] and [ParamOverrideEditorProofs] are the dialog of that file, as a
      state machine with one action per handler.  The names of its rows are drawn from a
      counter and the clock (the monad [gen]); the invariant is that they stay apart.

    - [Currency] is [lib/currency.ts] with the amounts of [lib/format.ts] and the configuration of
      [stores/system-config-store.ts]: how quotas and prices are shown, and typed
      amounts read.
    - [QuotaForms] is the forms over these amounts: API keys, redemption codes,
      subscription plans, users and the quota dialog, a Module each.
    - [DashboardCharts] is [features/dashboard/lib/charts.ts] and [stats.ts]: usage records summed
      into bars, areas, trends, rankings and tooltips.

    - [ModelPrices] is [features/pricing/lib/price.ts] with [dynamic-price.ts]: what the public
      list of models shows as prices, and the prices of each group on a model's page.
      [ModelSquare] is the list itself ([model-display-name.ts], [filters.ts] and
      [hooks/use-filters.ts]): offers that are one model merged into a row, the rows
      filtered by the state of the page and sorted.

    - [TableUrlState] is [hooks/use-table-url-state.ts]: the page, the filters and the search
      text of a table, kept in the address.  [DebouncedFilter] is the text field over one of
      its filters ([components/data-table/hooks/use-debounced-column-filter.ts] with
      [hooks/use-debounce.ts]), a state machine whose steps run the effects until none is due.
    - [UsageLogs] is [features/usage-logs/lib/utils.ts], the tiered billing of its [format.ts], and
      the configuration of its table: the requests for logs, and the prices shown for one.
    - [SettingsForm] is [features/system-settings/hooks/use-settings-form.ts] with
      [use-update-option.ts] and the requests of three sections: options under dotted names
      edited as nested values, and a submission of one request after the other.
    - [ChatLinks] is [features/chat/lib/chat-links.ts], links to chat clients that carry a key;
      [Passkey] is [lib/passkey.ts], the options and results of a passkey ceremony.
    - [ChannelSubmit] is the save button of
      [features/channels/components/drawers/channel-mutate-drawer.tsx] with
      [features/channels/lib/status-code-risk-guard.ts] and
      [features/channels/hooks/use-channel-mutate-form.ts]: the checks before the payload of
      [ChannelForm], and the questions put to the user.
    - [TieredEditor] and [TieredEditorProofs] are
      [features/system-settings/models/tiered-pricing-editor.tsx]: the editor of a tiered
      price, its states, its effects and every handler.  A step changes a state or the
      properties and renders until no effect is due.
    - [SecureVerification] is [features/auth/secure-verification] with
      [lib/secure-verification.ts]: the dialog that asks for a second factor before a
      protected call.  Its functions may wait at the same time; a step resumes one of them.

    - [ApiClient] is [lib/api.ts]: every request of the console, the reads that share an
      answer while it is under way, and the interceptors that report what went wrong.  Any
      sequence of requests, answers and clean-ups is an execution.
    - [ChannelActions] is [features/channels/lib/channel-actions.ts] with its requests in
      [features/channels/api.ts]: what a click on a channel, a selection or a tag asks the
      server, and what is reported, as computations that log and may throw ([act]).
    - [ChannelRows] is [features/channels/lib/channel-utils.ts]: channels gathered into rows
      of tags, and the texts of their keys, models, amounts and times.
    - [ChannelTest] is [features/channels/components/dialogs/channel-test-dialog.tsx]: tests
      of models one at a time or in batches, whose answers come in any order.
      [MultiKeys] is [multi-key-manage-dialog.tsx] beside it: the keys of a channel by pages,
      with the lists and changes that wait for their answers.
    - [RatioSync] is [features/system-settings/models/upstream-ratio-sync.tsx] with its helpers
      and its table: prices of other instances compared, chosen source by source, and written
      into the ten options the price components read.

    The price components are a chain: the editor's submitted draft is what
    [PricingSnapshots.handleSave] writes for every target model, and the maps it writes are
    what the next snapshots, and the next editor, are read from.  The price and rule
    components meet in [RequestRules.combineBillingExpr]; the forms and charts of quotas in
    [Currency.getCurrencyDisplay]; [ModelSquare] sorts by the prices of [ModelPrices], which
    reads expressions with [BillingVars]; [DebouncedFilter] and [UsageLogs] drive the table of
    [TableUrlState], and a log's prices are read with [BillingVars.parseTiersFromExpr];
    [ChannelSubmit] composes [ModelMapping] with [ChannelForm]; [TieredEditor] is the panel
    [PricingEditor] shows for a model billed by an expression, and edits the tiers of
    [TierExpr] and the rules of [RequestRules]; [SecureVerification] takes the browser's
    assertions through [Passkey]; a test of [ChannelTest] is [ChannelActions.handleTestChannel],
    whose request is a read of [ApiClient]; [RatioSync] writes the maps [PricingSnapshots]
    reads; the navigation
    ones in the stored settings; the playground ones in the list of messages; and all of
    those that store data in [JsJson].

    ** What the theorems show

    - Round trips: [StatusCodeRules], [RequestRulesProofs], [TierExpr] and [ChannelForm] read
      back what they print; where the code does not, the theorem says on which inputs.
      API keys and plans reopen with their quota to the unit, options with dotted names
      survive nesting, and a chat client or a server decodes what a link or a passkey
      result encodes.
    - Invariants of state machines: the life cycle of messages and of the stream, the state
      of the playground against its storage, the ratios of the price panel against the
      prices shown beside them, the names, modes and selection of the override dialog, the
      notes a settings form keeps of the values last saved, the marks of the test dialog
      against the tests that wait, the rows of keys against the lists asked for, the
      verification that is shown as running.
    - Refinement: the playground behaves like one without storage, up to what a reload
      restores; a table behaves like a function of its address; the tiered editor behaves,
      from every state it reaches, like its handlers with one effect, the reading back of the
      first change of a text.
    - Interleavings: a protected call follows the answers, recorded as they arrive, by which
      the server accepted each request of its verification; a read is answered by the answer
      to a request equal to it; a batch of tests sends one request per model and ends the
      same in whatever order the answers come.
    - Contracts: each action on channels sends the request, shows the message and calls back
      with the value its table says, for every answer.
    - Termination and progress: the effects of the debounced field settle in two renders and
      those of the tiered editor in five, and a table beyond its last page is corrected once.
    - Types and bounds: the links and the currency configuration read from any value are
      well formed; a price whose value in the shown currency is not zero is formatted as at
      least one unit of its last digit.
    - Conservation: what the charts draw, gather or leave out, in quota units and calls,
      against the sums of the records.
      The rows of the model square partition the models offered, and the rows of tags are a
      grouping of the channels.
    - Prices: the price in the list of models is that of the cheapest group that has a ratio
      of its own (a group without one, which pays the plain price, is passed over), and what
      the page of models shows is exactly the rows its filters select, in
      the order chosen.
    - Safety: a form or a request that is sent has passed its checks; a user's request names no
      other user.
    - Frames: a save of prices touches the entries of its targets only, as does a save of
      prices taken over, which leaves no model saved with a price or a ratio with both; a delete
      exactly those of its model; the settings of a channel are pinned key by key, and what
      the form does not show is kept.
    - Agreement: readers of one stored setting compared with each other, and code compared
      with a declarative reference (codes accepted, models missing, JSON values equal).
    - Divergences: inputs on which an operation loses data or reads a value otherwise than
      its writer, each a theorem on a concrete or universally quantified input.

    ** How the code is translated

    A function of the source is a definition of the same name.  A loop over a list is a
    structural recursion or one of the list functions; a loop that is not structural has
    fuel, and a lemma shows the fuel given to be enough, or the definition is stated for
    every input so that a shortage would falsify its theorems: the JSON reader gets twice
    the length of its text plus two, the reader of think blocks and the remover of outer
    parentheses one more than the length, the printer of integers the number of bits,
    [split] by a text one more than the length, the renders of the debounced field two, which
    [DebouncedFilter.effects_settle] proves enough, and those of the tiered editor five
    ([TieredEditorProofs.editor_effects_settle]).  A
    function that may throw returns an [outcome] or an option.  A React hook is a state with
    one transition per callback.

    ** What is assumed

    Code outside the repository is a parameter of the definitions that use it: the status
    request ([getStatus]), the text of the error [JSON.parse] throws ([parse_message]), the
    order of [localeCompare] ([locale_le]), the translation function ([t]), the space left in the storage ([fits]), the names [nanoid]
    gives, the running of a compiled expression ([run_function]), and the events [sse.js]
    delivers, any sequence of which is an execution; the clock ([now]) and whether React runs
    an updater inside its handler ([eager]) in the override dialog.  So are the labels [dayjs]
    prints for dates ([dayjs_format]), the texts of [Intl.NumberFormat] ([intl]), the order
    and texts of the locale ([locale_after], [to_locale_string]), what the router makes of an
    object navigated to and whether it keeps the one it had ([route_search], [unchanged]),
    the marks of changed fields of the form library ([dirtyFields]), the schema of a settings
    form ([resolver]), the answers of the user to the questions of a dialog, the credentials
    of the browser ([has_credentials], [prepare_message]), the text the engine gives a
    property read from null ([null_message]), the answers of the server, and the positions
    the table library gives the rows a user selects.  What the
    theorems need of them is a hypothesis with a witness.

    ** Limits

    Names every object inherits ([toString] and the like, and [__proto__]) are read as ordinary
    keys.  A
    value is a tree: no modelled function compares objects by identity or changes one that
    another holds.  Icons and texts of menus, which are data for rendering, are left out.
    Translation functions are the identity on message keys, or parameters.

    ** Not modelled

    The Go back end and the older console are other languages or programs; React
    components render; the functions of the other features that call one address each add
    nothing to [ApiClient]; route trees and translations
    are generated or data.  The state of the price table that only selects what is shown
    (search, sorting, paging, the width of the panel) is left out.

    ** Plan

    Left for later: the editors of group ratios, the fields of [sync_fields] rules, the search
    and paging of the price table, and the [JSON.parse] of a text with white space at any
    place. *)

From stdpp Require Export base option list numbers sets relations.
From Stdlib Require Export NArith ZArith Lia.

(** ** Tactics shared by the development *)

(** Case analysis on every [match] and [if] of the goal, then clean up. *)
Ltac case_all :=
  repeat (case_match || case_bool_decide || case_decide); simplify_eq/=.

(** Split the conjunctions and existentials of the context. *)
Ltac break_hyps :=
  repeat match goal with
    | H : _ /\ _ |- _ => destruct H
    | H : exists _, _ |- _ => destruct H
    end; simplify_eq/=.

(** Turn a boolean equation of the context into the propositions it decides. *)
Ltac bool_hyps :=
  repeat match goal with
    | H : andb _ _ = true |- _ => apply andb_true_iff in H; destruct H
    | H : orb _ _ = false |- _ => apply orb_false_iff in H; destruct H
    | H : negb _ = true |- _ => apply negb_true_iff in H
    | H : negb _ = false |- _ => apply negb_false_iff in H
    | H : bool_decide _ = true |- _ => apply bool_decide_eq_true in H
    | H : bool_decide _ = false |- _ => apply bool_decide_eq_false in H
    | H : (_ <=? _)%N = true |- _ => apply N.leb_le in H
    | H : (_ <=? _)%N = false |- _ => apply N.leb_gt in H
    | H : (_ <? _)%N = true |- _ => apply N.ltb_lt in H
    | H : (_ <? _)%N = false |- _ => apply N.ltb_ge in H
    | H : (_ =? _)%N = true |- _ => apply N.eqb_eq in H
    | H : (_ =? _)%N = false |- _ => apply N.eqb_neq in H
    | H : (_ <=? _)%Z = true |- _ => apply Z.leb_le in H
    | H : (_ <=? _)%Z = false |- _ => apply Z.leb_gt in H
    | H : (_ <? _)%Z = true |- _ => apply Z.ltb_lt in H
    | H : (_ <? _)%Z = false |- _ => apply Z.ltb_ge in H
    | H : (_ =? _)%Z = true |- _ => apply Z.eqb_eq in H
    | H : (_ =? _)%Z = false |- _ => apply Z.eqb_neq in H
    end.

Create HintDb js.

(** ** Lists *)

Section Uniq.
Context {A : Type} `{EqDecision A}.
Implicit Types (l : list A) (x : A).

(** [Array.from(new Set(l))]: the first occurrence of each element, in
    insertion order. [seen] holds the elements already in the set. *)
Fixpoint uniq_acc (seen l : list A) : list A :=
  match l with
  | [] => []
  | x :: t => if bool_decide (x ∈ seen) then uniq_acc seen t
              else x :: uniq_acc (x :: seen) t
  end.

Definition uniq l : list A := uniq_acc [] l.

Lemma uniq_acc_elem seen l x : x ∈ uniq_acc seen l <-> x ∈ l /\ x ∉ seen.
Proof.
  revert seen; induction l as [|y l IH]; intros seen; simpl.
  - set_solver.
  - case_bool_decide; rewrite ?elem_of_cons, IH; [set_solver|].
    destruct (decide (x = y)); set_solver.
Qed.

Lemma uniq_acc_NoDup seen l : NoDup (uniq_acc seen l).
Proof.
  revert seen; induction l as [|y l IH]; intros seen; simpl; [constructor|].
  case_bool_decide; [done|]. constructor; [|done].
  rewrite uniq_acc_elem; set_solver.
Qed.

Lemma uniq_elem l x : x ∈ uniq l <-> x ∈ l.
Proof. unfold uniq. rewrite uniq_acc_elem. set_solver. Qed.

Lemma uniq_NoDup l : NoDup (uniq l).
Proof. apply uniq_acc_NoDup. Qed.

Lemma uniq_acc_id seen l :
  NoDup l -> (forall x, x ∈ l -> x ∉ seen) -> uniq_acc seen l = l.
Proof.
  revert seen; induction l as [|y l IH]; intros seen Hnd Hd; simpl; [done|].
  apply NoDup_cons in Hnd as [Hy Hnd].
  rewrite bool_decide_eq_false_2 by (apply Hd; set_solver).
  f_equal. apply IH; [done|]. set_solver.
Qed.

(** A list without duplicates is left as it is, so [uniq] is idempotent. *)
Lemma uniq_id l : NoDup l -> uniq l = l.
Proof. intros; apply uniq_acc_id; set_solver. Qed.

Lemma uniq_idemp l : uniq (uniq l) = uniq l.
Proof. apply uniq_id, uniq_NoDup. Qed.

Lemma uniq_acc_sublist seen l : uniq_acc seen l `sublist_of` l.
Proof.
  revert seen; induction l as [|y l IH]; intros seen; simpl; [constructor|].
  case_bool_decide; by constructor.
Qed.

Lemma uniq_sublist l : uniq l `sublist_of` l.
Proof. apply uniq_acc_sublist. Qed.

(** The elements of a second list come after those of the first. *)
Lemma uniq_acc_app seen l k :
  uniq_acc seen (l ++ k) = uniq_acc seen l ++ uniq_acc (reverse (uniq_acc seen l) ++ seen) k.
Proof.
  revert seen; induction l as [|x l IH]; intros seen; simpl; [done|].
  case_bool_decide; [apply IH|]. simpl. rewrite IH, reverse_cons, <- app_assoc. done.
Qed.

Lemma uniq_nil_inv l : uniq l = [] -> l = [].
Proof. destruct l as [|x t]; [done|]. intros H. assert (x ∈ uniq (x :: t)) by (apply uniq_elem; set_solver). rewrite H in *; set_solver. Qed.
End Uniq.

(** Sublists. *)

Lemma elem_of_drop_in {A} (l : list A) n x : x ∈ drop n l -> x ∈ l.
Proof. intros H. rewrite <- (take_drop n l), elem_of_app. by right. Qed.

Lemma sublist_in {A} (l k : list A) x : l `sublist_of` k -> x ∈ l -> x ∈ k.
Proof.
  induction 1 as [|y l k Hs IH|y l k Hs IH]; intros Hx; [done| |].
  - apply elem_of_cons in Hx as [->|Hx]; [apply list_elem_of_here|].
    apply list_elem_of_further; auto.
  - apply list_elem_of_further; auto.
Qed.

Lemma sublist_no_dup {A} (l k : list A) : l `sublist_of` k -> NoDup k -> NoDup l.
Proof.
  induction 1 as [|y l k Hs IH|y l k Hs IH]; intros Hk; [constructor| |].
  - apply NoDup_cons in Hk as [Hy Hk]. apply NoDup_cons; split; [|auto].
    intros Hin; apply Hy; by eapply sublist_in.
  - apply NoDup_cons in Hk as [_ Hk]. auto.
Qed.

Lemma sublist_map {A B} (f : A -> B) (l k : list A) :
  l `sublist_of` k -> (f <$> l) `sublist_of` (f <$> k).
Proof. induction 1; simpl; by constructor. Qed.

(** Boolean filtering, as [Array.prototype.filter] with a boolean callback. *)
Fixpoint filterb {A} (f : A -> bool) (l : list A) : list A :=
  match l with
  | [] => []
  | x :: t => if f x then x :: filterb f t else filterb f t
  end.

Lemma elem_of_filterb {A} (f : A -> bool) l x :
  x ∈ filterb f l <-> f x = true /\ x ∈ l.
Proof.
  induction l as [|y l IH]; simpl; [set_solver|].
  destruct (f y) eqn:E; rewrite ?elem_of_cons, IH; [|naive_solver congruence].
  split; [intros [->|[]]; auto|intros [? [->|?]]; auto].
Qed.

Lemma filterb_all {A} (f : A -> bool) l :
  (forall x, x ∈ l -> f x = true) -> filterb f l = l.
Proof.
  induction l as [|y l IH]; intros H; simpl; [done|].
  rewrite (H y) by set_solver. f_equal. apply IH. set_solver.
Qed.

Lemma filterb_none {A} (f : A -> bool) l :
  (forall x, x ∈ l -> f x = false) -> filterb f l = [].
Proof.
  induction l as [|y l IH]; intros H; simpl; [done|].
  rewrite (H y) by set_solver. apply IH. set_solver.
Qed.

Lemma filterb_sublist {A} (f : A -> bool) l : filterb f l `sublist_of` l.
Proof. induction l; simpl; [constructor|]. case_match; by constructor. Qed.

Lemma Forall_filterb {A} (P : A -> Prop) f l : Forall P l -> Forall P (filterb f l).
Proof.
  rewrite !Forall_forall. intros H x Hx%elem_of_filterb. apply H, Hx.
Qed.

Lemma Forall_sublist_of {A} (P : A -> Prop) l k : l `sublist_of` k -> Forall P k -> Forall P l.
Proof.
  induction 1 as [|x l k _ IH|x l k _ IH]; [done| |]; intros [Hx Hk]%Forall_cons; [constructor; [done|]|];
    by apply IH.
Qed.

Lemma filterb_app {A} (f : A -> bool) l k :
  filterb f (l ++ k) = filterb f l ++ filterb f k.
Proof. induction l; simpl; [done|]. case_match; simpl; by f_equal. Qed.

#[export] Instance filterb_perm {A} (f : A -> bool) : Proper ((≡ₚ) ==> (≡ₚ)) (filterb f).
Proof.
  intros l k H. induction H as [|x l k _ IH|x y l|l k m _ IH1 _ IH2]; cbn [filterb].
  - done.
  - by destruct (f x); [constructor|].
  - destruct (f x), (f y); try done. constructor.
  - by etrans.
Qed.

Lemma filterb_idemp {A} (f : A -> bool) l : filterb f (filterb f l) = filterb f l.
Proof. apply filterb_all. intros x [? _]%elem_of_filterb; done. Qed.

Lemma filterb_filterb {A} (f g : A -> bool) l : filterb f (filterb g l) = filterb (fun x => g x && f x) l.
Proof.
  induction l as [|x l IH]; simpl; [done|]. destruct (g x) eqn:E; simpl; [|done]. by rewrite IH.
Qed.

Lemma filterb_ext_in {A} (f g : A -> bool) l :
  (forall x, x ∈ l -> f x = g x) -> filterb f l = filterb g l.
Proof.
  induction l as [|x l IH]; intros H; simpl; [done|].
  rewrite (H x) by set_solver. rewrite IH by set_solver. done.
Qed.

Lemma filterb_ext {A} (f g : A -> bool) l :
  (forall x, f x = g x) -> filterb f l = filterb g l.
Proof. intros H. induction l as [|x l IH]; simpl; [done|]. by rewrite H, IH. Qed.

Lemma uniq_acc_filterb {A} `{EqDecision A} (seen l : list A) :
  NoDup l -> uniq_acc seen l = filterb (fun x => negb (bool_decide (x ∈ seen))) l.
Proof.
  revert seen; induction l as [|y l IH]; intros seen Hnd; simpl; [done|].
  apply NoDup_cons in Hnd as [Hy Hnd]. case_bool_decide; simpl; [by apply IH|].
  f_equal. rewrite IH by done. apply filterb_ext_in. intros x Hx. f_equal.
  apply bool_decide_ext. set_solver.
Qed.

(** Filtering commutes with removing repetitions. *)
Lemma uniq_acc_filterb_app {A} `{EqDecision A} (f : A -> bool) seen seen' l :
  (forall x, f x = true -> x ∈ seen <-> x ∈ seen') ->
  uniq_acc seen (filterb f l) = filterb f (uniq_acc seen' l).
Proof.
  revert seen seen'; induction l as [|y l IH]; intros seen seen' H; [done|]. cbn [filterb uniq_acc].
  destruct (f y) eqn:Ef.
  - cbn [uniq_acc]. rewrite (bool_decide_ext _ _ (H y Ef)). case_bool_decide; [by apply IH|].
    cbn [filterb]. rewrite Ef. f_equal. apply IH. intros x Hx. rewrite !elem_of_cons. by rewrite H.
  - case_bool_decide; [by apply IH|]. cbn [filterb]. rewrite Ef. apply IH.
    intros x Hx. rewrite elem_of_cons, H by done. naive_solver congruence.
Qed.

Lemma uniq_filterb {A} `{EqDecision A} (f : A -> bool) l : uniq (filterb f l) = filterb f (uniq l).
Proof. by apply uniq_acc_filterb_app. Qed.

Lemma filterb_concat {A B} (f : A -> bool) (g : B -> list A) l :
  filterb f (concat (g <$> l)) = concat ((fun x => filterb f (g x)) <$> l).
Proof. induction l as [|x l IH]; [done|]. cbn [fmap list_fmap concat]. by rewrite filterb_app, <- IH. Qed.

(** [Array.prototype.some] and [Array.prototype.every]. *)
Lemma existsb_elem {A} (f : A -> bool) l :
  existsb f l = true <-> exists x, x ∈ l /\ f x = true.
Proof. rewrite existsb_exists. by setoid_rewrite <- list_elem_of_In. Qed.

Lemma forallb_elem {A} (f : A -> bool) l :
  forallb f l = true <-> forall x, x ∈ l -> f x = true.
Proof. rewrite forallb_forall. by setoid_rewrite <- list_elem_of_In. Qed.

(** Split a list at its last element, as [l[l.length - 1]]. *)
Lemma last_snoc_inv {A} (l : list A) x :
  last l = Some x -> exists k, l = k ++ [x].
Proof. intros H. apply last_Some in H as [k ->]. by exists k. Qed.

(** A list is cut in one way only at the first, or at the last, occurrence of [k]. *)
Lemma cut_first_unique {A} (k : A) u v s t :
  k ∉ u -> k ∉ v -> u ++ k :: s = v ++ k :: t -> u = v /\ s = t.
Proof.
  revert v; induction u as [|x u IH]; intros [|y v] Hu Hv E; simplify_eq/=; [done| | |].
  - rewrite not_elem_of_cons in Hv. naive_solver.
  - rewrite not_elem_of_cons in Hu. naive_solver.
  - rewrite not_elem_of_cons in Hu, Hv. destruct (IH v) as [-> ->]; naive_solver.
Qed.

Lemma cut_last_unique {A} (k : A) u v s t :
  k ∉ s -> k ∉ t -> u ++ k :: s = v ++ k :: t -> u = v /\ s = t.
Proof.
  intros Hs Ht E. apply (f_equal reverse) in E. rewrite !reverse_app, !reverse_cons, <- !app_assoc in E.
  apply cut_first_unique in E as [E1 E2]; [|by rewrite elem_of_reverse..].
  split; by apply (inj reverse).
Qed.

#[export] Hint Resolve uniq_NoDup uniq_sublist filterb_sublist : js.
#[export] Hint Rewrite @uniq_elem @elem_of_filterb @uniq_idemp @filterb_idemp : js.

(** ** Exceptions *)

(** The outcome of code that may throw. *)
Inductive outcome (A : Type) :=
  | Return (a : A)
  | Throw.
Arguments Return {A} a.
Arguments Throw {A}.

Lemma Return_inj {A} (a b : A) : Return a = Return b -> a = b.
Proof. congruence. Qed.

Definition obind {A B} (o : outcome A) (f : A -> outcome B) : outcome B :=
  match o with Return a => f a | Throw => Throw end.

Definition omapr {A B} (f : A -> B) (o : outcome A) : outcome B :=
  match o with Return a => Return (f a) | Throw => Throw end.

Declare Scope outcome_scope.
Notation "'let!' x ':=' e 'in' k" := (obind e (fun x => k))
  (at level 200, x name, e at level 100, k at level 200) : outcome_scope.

(** [try { o } catch { d }] *)
Definition catch {A} (o : outcome A) (d : A) : A :=
  match o with Return a => a | Throw => d end.

(** A step whose failure is an exception. *)
Definition or_throw {A} (o : option A) : outcome A :=
  match o with Some a => Return a | None => Throw end.

(** The calls of a list, one after the other. *)
Fixpoint otraverse {A B} (f : A -> outcome B) (l : list A) : outcome (list B) :=
  match l with
  | [] => Return []
  | x :: t => obind (f x) (fun y => obind (otraverse f t) (fun ys => Return (y :: ys)))
  end.

(** A loop whose body may throw. *)
Fixpoint ofold {A S} (step : S -> A -> outcome S) (l : list A) (s : S) : outcome S :=
  match l with
  | [] => Return s
  | x :: t => obind (step s x) (ofold step t)
  end.

Lemma otraverse_Return {A B} (f : A -> outcome B) (g : A -> B) l :
  (forall x, x ∈ l -> f x = Return (g x)) -> otraverse f l = Return (g <$> l).
Proof.
  induction l as [|x l IH]; intros H; [done|]. cbn [otraverse].
  rewrite H by apply list_elem_of_here. cbn [obind].
  rewrite IH by (intros y Hy; apply H; by apply list_elem_of_further). done.
Qed.

(** Outcomes up to the equivalence of their values *)
#[export] Instance outcome_equiv `{Equiv A} : Equiv (outcome A) := fun x y =>
  match x, y with
  | Return a, Return b => a ≡ b
  | Throw, Throw => True
  | _, _ => False
  end.

#[export] Instance outcome_equivalence `{Equiv A} `{!Equivalence (≡@{A})} :
  Equivalence (≡@{outcome A}).
Proof.
  split.
  - intros [a|]; [|done]. change (a ≡ a). reflexivity.
  - intros [a|] [b|] Hab; try done. change (b ≡ a). by symmetry.
  - intros [a|] [b|] [c|] Hab Hbc; try done. change (a ≡ c). etransitivity; [exact Hab|exact Hbc].
Qed.

(** Leaving out calls leaves out their results. *)
Lemma otraverse_filterb `{Equiv B, !Equivalence (≡@{B})} {A} (f f' : A -> outcome B) p q l ys :
  otraverse f l = Return ys ->
  (forall x y, f x = Return y -> q y = p x) ->
  (forall x, p x = true -> f' x ≡ f x) ->
  exists ys', otraverse f' (filterb p l) = Return ys' /\ ys' ≡ filterb q ys.
Proof.
  intros E Hq Hf. revert ys E; induction l as [|x l IH]; intros ys E; cbn [otraverse filterb] in *.
  { injection E as <-. by exists []. }
  destruct (f x) as [y|] eqn:Ey; [|done]. cbn [obind] in E.
  destruct (otraverse f l) as [zs|]; [|done]. injection E as <-.
  destruct (IH zs eq_refl) as (ys' & E' & Hys). cbn [filterb]. rewrite (Hq x y Ey).
  destruct (p x) eqn:Ep; [|by exists ys']. cbn [otraverse]. specialize (Hf x Ep). rewrite Ey in Hf.
  destruct (f' x) as [y'|]; [|done]. cbn [obind]. rewrite E'. cbn [obind].
  eexists. split; [done|]. by constructor.
Qed.
