(* ===== verification/JsString.v ===== *)
(** * JavaScript strings

    A JavaScript string is a sequence of 16-bit code units; [jsstr] is the list of
    their values, so indices, [length] and slices mean what they mean in the source.
    [js] turns a Rocq literal (UTF-8 bytes) into code units.  The functions are the
    [String.prototype] methods the modelled files call. *)

From Stdlib Require String Ascii.
From S2P Require Import Prelude.

#[local] Open Scope N_scope.

Abbreviation jsstr := (list N).

(** ** Literals *)

Fixpoint bytes_of (s : String.string) : list N :=
  match s with
  | String.EmptyString => []
  | String.String c t => Ascii.N_of_ascii c :: bytes_of t
  end.

(** UTF-8 bytes to UTF-16 code units. *)
Fixpoint utf16_of_utf8 (bs : list N) : jsstr :=
  match bs with
  | [] => []
  | b0 :: t0 =>
      if b0 <? 128 then b0 :: utf16_of_utf8 t0
      else match t0 with
      | [] => []
      | b1 :: t1 =>
          if b0 <? 224 then ((b0 - 192) * 64 + (b1 - 128)) :: utf16_of_utf8 t1
          else match t1 with
          | [] => []
          | b2 :: t2 =>
              if b0 <? 240
              then ((b0 - 224) * 4096 + (b1 - 128) * 64 + (b2 - 128)) :: utf16_of_utf8 t2
              else match t2 with
              | [] => []
              | b3 :: t3 =>
                  let c := (b0 - 240) * 262144 + (b1 - 128) * 4096
                           + (b2 - 128) * 64 + (b3 - 128) - 65536 in
                  (55296 + c / 1024) :: (56320 + c mod 1024) :: utf16_of_utf8 t3
              end
          end
      end
  end.

Definition js (s : String.string) : jsstr := utf16_of_utf8 (bytes_of s).
Export String.StringSyntax.
Delimit Scope string_scope with string.
Arguments js s%_string.
Arguments js : simpl never.

(** The double quote, which the literals above cannot hold. *)
Definition dq : jsstr := [34].

(** ** Characters *)

(** The WhiteSpace and LineTerminator code points: what [trim] strips and what the
    regular expression class [\s] matches. *)
Definition is_ws (c : N) : bool :=
  (9 <=? c) && (c <=? 13) || (c =? 32) || (c =? 160) || (c =? 5760)
  || (8192 <=? c) && (c <=? 8202) || (c =? 8232) || (c =? 8233) || (c =? 8239)
  || (c =? 8287) || (c =? 12288) || (c =? 65279).

Definition is_digit (c : N) : bool := (48 <=? c) && (c <=? 57).

(** ** Trimming *)

Fixpoint drop_ws (s : jsstr) : jsstr :=
  match s with
  | [] => []
  | c :: t => if is_ws c then drop_ws t else s
  end.

Definition trim_start (s : jsstr) : jsstr := drop_ws s.
Definition trim_end (s : jsstr) : jsstr := reverse (drop_ws (reverse s)).
Definition trim (s : jsstr) : jsstr := trim_end (trim_start s).

(** A string with no white space at either end. *)
Definition trimmed (s : jsstr) : Prop :=
  (forall c t, s = c :: t -> is_ws c = false)
  /\ (forall c t, s = t ++ [c] -> is_ws c = false).

(** ** Searching *)

Fixpoint starts_with (p s : jsstr) : bool :=
  match p, s with
  | [], _ => true
  | a :: p', b :: s' => (a =? b) && starts_with p' s'
  | _ :: _, [] => false
  end.

Definition ends_with (p s : jsstr) : bool := starts_with (reverse p) (reverse s).

(** [s.indexOf(p)]: [None] for -1. *)
Fixpoint index_of (p s : jsstr) : option nat :=
  if starts_with p s then Some 0%nat
  else match s with
       | [] => None
       | _ :: t => S <$> index_of p t
       end.

Definition includes (p s : jsstr) : bool :=
  match index_of p s with Some _ => true | None => false end.

(** ** Splitting and joining *)

(** [s.split(c)] for a separator of one code unit. *)
Fixpoint split_char (c : N) (s : jsstr) : list jsstr :=
  match s with
  | [] => [[]]
  | x :: t =>
      if x =? c then [] :: split_char c t
      else match split_char c t with
           | [] => [[x]]
           | w :: ws => (x :: w) :: ws
           end
  end.

(** [l.join(sep)] *)
Fixpoint join (sep : jsstr) (l : list jsstr) : jsstr :=
  match l with
  | [] => []
  | [w] => w
  | w :: ws => w ++ sep ++ join sep ws
  end.

(** [s.slice(i, j)] for indices [0 <= i], [0 <= j]. *)
Definition slice (i j : nat) (s : jsstr) : jsstr := take (j - i) (drop i s).

(** JavaScript truthiness of a string. *)
Definition truthy_str (s : jsstr) : bool :=
  match s with [] => false | _ => true end.

(** [s || d] on strings. *)
Definition or_str (s d : jsstr) : jsstr := match s with [] => d | _ => s end.

(** [l.filter(Boolean)] on strings. *)
Definition filter_truthy (l : list jsstr) : list jsstr := filterb truthy_str l.

(** ** Case *)

(** The simple lower case mapping of the Basic Multilingual Plane:
    [(first, last, step, delta)]. *)
Definition lower_table : list (N * N * N * Z) :=
  [
    (65, 90, 1, 32%Z); (192, 214, 1, 32%Z); (216, 222, 1, 32%Z); (256, 302, 2, 1%Z);
    (306, 310, 2, 1%Z); (313, 327, 2, 1%Z); (330, 374, 2, 1%Z); (376, 376, 1, (-121)%Z);
    (377, 381, 2, 1%Z); (385, 385, 1, 210%Z); (386, 388, 2, 1%Z); (390, 390, 1, 206%Z);
    (391, 391, 1, 1%Z); (393, 394, 1, 205%Z); (395, 395, 1, 1%Z); (398, 398, 1, 79%Z);
    (399, 399, 1, 202%Z); (400, 400, 1, 203%Z); (401, 401, 1, 1%Z);
    (403, 403, 1, 205%Z); (404, 404, 1, 207%Z); (406, 406, 1, 211%Z);
    (407, 407, 1, 209%Z); (408, 408, 1, 1%Z); (412, 412, 1, 211%Z);
    (413, 413, 1, 213%Z); (415, 415, 1, 214%Z); (416, 420, 2, 1%Z);
    (422, 422, 1, 218%Z); (423, 423, 1, 1%Z); (425, 425, 1, 218%Z); (428, 428, 1, 1%Z);
    (430, 430, 1, 218%Z); (431, 431, 1, 1%Z); (433, 434, 1, 217%Z); (435, 437, 2, 1%Z);
    (439, 439, 1, 219%Z); (440, 440, 1, 1%Z); (444, 444, 1, 1%Z); (452, 452, 1, 2%Z);
    (453, 453, 1, 1%Z); (455, 455, 1, 2%Z); (456, 456, 1, 1%Z); (458, 458, 1, 2%Z);
    (459, 475, 2, 1%Z); (478, 494, 2, 1%Z); (497, 497, 1, 2%Z); (498, 500, 2, 1%Z);
    (502, 502, 1, (-97)%Z); (503, 503, 1, (-56)%Z); (504, 542, 2, 1%Z);
    (544, 544, 1, (-130)%Z); (546, 562, 2, 1%Z); (570, 570, 1, 10795%Z);
    (571, 571, 1, 1%Z); (573, 573, 1, (-163)%Z); (574, 574, 1, 10792%Z);
    (577, 577, 1, 1%Z); (579, 579, 1, (-195)%Z); (580, 580, 1, 69%Z);
    (581, 581, 1, 71%Z); (582, 590, 2, 1%Z); (880, 882, 2, 1%Z); (886, 886, 1, 1%Z);
    (895, 895, 1, 116%Z); (902, 902, 1, 38%Z); (904, 906, 1, 37%Z); (908, 908, 1, 64%Z);
    (910, 911, 1, 63%Z); (913, 929, 1, 32%Z); (931, 939, 1, 32%Z); (975, 975, 1, 8%Z);
    (984, 1006, 2, 1%Z); (1012, 1012, 1, (-60)%Z); (1015, 1015, 1, 1%Z);
    (1017, 1017, 1, (-7)%Z); (1018, 1018, 1, 1%Z); (1021, 1023, 1, (-130)%Z);
    (1024, 1039, 1, 80%Z); (1040, 1071, 1, 32%Z); (1120, 1152, 2, 1%Z);
    (1162, 1214, 2, 1%Z); (1216, 1216, 1, 15%Z); (1217, 1229, 2, 1%Z);
    (1232, 1326, 2, 1%Z); (1329, 1366, 1, 48%Z); (4256, 4293, 1, 7264%Z);
    (4295, 4295, 1, 7264%Z); (4301, 4301, 1, 7264%Z); (5024, 5103, 1, 38864%Z);
    (5104, 5109, 1, 8%Z); (7312, 7354, 1, (-3008)%Z); (7357, 7359, 1, (-3008)%Z);
    (7680, 7828, 2, 1%Z); (7838, 7838, 1, (-7615)%Z); (7840, 7934, 2, 1%Z);
    (7944, 7951, 1, (-8)%Z); (7960, 7965, 1, (-8)%Z); (7976, 7983, 1, (-8)%Z);
    (7992, 7999, 1, (-8)%Z); (8008, 8013, 1, (-8)%Z); (8025, 8031, 2, (-8)%Z);
    (8040, 8047, 1, (-8)%Z); (8072, 8079, 1, (-8)%Z); (8088, 8095, 1, (-8)%Z);
    (8104, 8111, 1, (-8)%Z); (8120, 8121, 1, (-8)%Z); (8122, 8123, 1, (-74)%Z);
    (8124, 8124, 1, (-9)%Z); (8136, 8139, 1, (-86)%Z); (8140, 8140, 1, (-9)%Z);
    (8152, 8153, 1, (-8)%Z); (8154, 8155, 1, (-100)%Z); (8168, 8169, 1, (-8)%Z);
    (8170, 8171, 1, (-112)%Z); (8172, 8172, 1, (-7)%Z); (8184, 8185, 1, (-128)%Z);
    (8186, 8187, 1, (-126)%Z); (8188, 8188, 1, (-9)%Z); (8486, 8486, 1, (-7517)%Z);
    (8490, 8490, 1, (-8383)%Z); (8491, 8491, 1, (-8262)%Z); (8498, 8498, 1, 28%Z);
    (8544, 8559, 1, 16%Z); (8579, 8579, 1, 1%Z); (9398, 9423, 1, 26%Z);
    (11264, 11311, 1, 48%Z); (11360, 11360, 1, 1%Z); (11362, 11362, 1, (-10743)%Z);
    (11363, 11363, 1, (-3814)%Z); (11364, 11364, 1, (-10727)%Z); (11367, 11371, 2, 1%Z);
    (11373, 11373, 1, (-10780)%Z); (11374, 11374, 1, (-10749)%Z);
    (11375, 11375, 1, (-10783)%Z); (11376, 11376, 1, (-10782)%Z);
    (11378, 11378, 1, 1%Z); (11381, 11381, 1, 1%Z); (11390, 11391, 1, (-10815)%Z);
    (11392, 11490, 2, 1%Z); (11499, 11501, 2, 1%Z); (11506, 11506, 1, 1%Z);
    (42560, 42604, 2, 1%Z); (42624, 42650, 2, 1%Z); (42786, 42798, 2, 1%Z);
    (42802, 42862, 2, 1%Z); (42873, 42875, 2, 1%Z); (42877, 42877, 1, (-35332)%Z);
    (42878, 42886, 2, 1%Z); (42891, 42891, 1, 1%Z); (42893, 42893, 1, (-42280)%Z);
    (42896, 42898, 2, 1%Z); (42902, 42920, 2, 1%Z); (42922, 42922, 1, (-42308)%Z);
    (42923, 42923, 1, (-42319)%Z); (42924, 42924, 1, (-42315)%Z);
    (42925, 42925, 1, (-42305)%Z); (42926, 42926, 1, (-42308)%Z);
    (42928, 42928, 1, (-42258)%Z); (42929, 42929, 1, (-42282)%Z);
    (42930, 42930, 1, (-42261)%Z); (42931, 42931, 1, 928%Z); (42932, 42946, 2, 1%Z);
    (42948, 42948, 1, (-48)%Z); (42949, 42949, 1, (-42307)%Z);
    (42950, 42950, 1, (-35384)%Z); (42951, 42953, 2, 1%Z); (42960, 42960, 1, 1%Z);
    (42966, 42968, 2, 1%Z); (42997, 42997, 1, 1%Z); (65313, 65338, 1, 32%Z)
  ].

Definition lower_unit (c : N) : jsstr :=
  if c =? 304 then [105; 775]
  else match find (fun '(a, b, st, _) => (a <=? c) && (c <=? b) && ((c - a) mod st =? 0))
                  lower_table with
       | Some (_, _, _, d) => [Z.to_N (Z.of_N c + d)]
       | None => [c]
       end.

(** [s.toLowerCase()] on the Basic Multilingual Plane; the contextual form of the final
    sigma is not modelled. *)
Definition to_lower (s : jsstr) : jsstr := s ≫= lower_unit.

(** ** Lemmas: case *)

(** The units an entry of the table maps. *)
Definition entry_units (e : N * N * N * Z) : list N :=
  let '(a, b, st, _) := e in (fun i => a + st * N.of_nat i) <$> seq 0 (S (N.to_nat ((b - a) / st))).

Lemma lower_unit_idemp c : lower_unit c ≫= lower_unit = lower_unit c.
Proof.
  destruct (decide (lower_unit c = [c])) as [E|E]; [by rewrite E; csimpl; rewrite E|].
  assert (H : c = 304 \/ Exists (fun e => c ∈ entry_units e) lower_table).
  { unfold lower_unit in E. destruct (N.eqb_spec c 304) as [|_]; [by left|]. right.
    destruct (find _ lower_table) as [[[[a b] st] d]|] eqn:F; [|done]. apply find_some in F as [F1 F2].
    apply Exists_exists. exists (a, b, st, d). split; [by apply list_elem_of_In|].
    apply andb_true_iff in F2 as [F2 F3]. apply andb_true_iff in F2 as [F2 F4].
    apply N.leb_le in F2, F4. apply N.eqb_eq in F3. unfold entry_units. apply list_elem_of_fmap.
    assert (Hst : st <> 0).
    { assert (T : forallb (fun '(_, _, st, _) => negb (st =? 0)) lower_table = true) by (vm_compute; reflexivity).
      rewrite forallb_forall in T. specialize (T _ F1). by apply N.eqb_neq, negb_true_iff. }
    exists (N.to_nat ((c - a) / st)). split.
    - rewrite N2Nat.id. pose proof (N.div_mod (c - a) st Hst). lia.
    - apply elem_of_seq. split; [apply Nat.le_0_l|]. apply Nat.lt_succ_r.
      assert (L : (c - a) / st <= (b - a) / st) by (apply N.Div0.div_le_mono; lia).
      revert L. generalize ((c - a) / st), ((b - a) / st). clear. lia. }
  assert (T : forallb (fun e => forallb (fun c => bool_decide (lower_unit c ≫= lower_unit = lower_unit c)) (entry_units e))
                lower_table = true) by (vm_compute; reflexivity).
  destruct H as [->|H]; [by vm_compute|]. apply Exists_exists in H as (e & He & Hc).
  rewrite forallb_forall in T. apply list_elem_of_In in He, Hc. specialize (T e He).
  rewrite forallb_forall in T. specialize (T c Hc). by apply bool_decide_eq_true in T.
Qed.

Lemma to_lower_idemp s : to_lower (to_lower s) = to_lower s.
Proof.
  unfold to_lower. induction s as [|c s IH]; [done|]. csimpl. by rewrite bind_app, IH, lower_unit_idemp.
Qed.

(** ** Lemmas: trimming *)

Lemma drop_ws_suffix s : exists w, s = w ++ drop_ws s /\ Forall (fun c => is_ws c = true) w.
Proof.
  induction s as [|c t (w & IH & Hw)]; simpl; [by exists []|].
  destruct (is_ws c) eqn:E; [|by exists []].
  exists (c :: w); split; [simpl; by f_equal|by constructor].
Qed.

Lemma drop_ws_head s c t : drop_ws s = c :: t -> is_ws c = false.
Proof. induction s as [|x s IH]; simpl; [done|]. destruct (is_ws x) eqn:E; naive_solver. Qed.

Lemma drop_ws_id s : (forall c t, s = c :: t -> is_ws c = false) -> drop_ws s = s.
Proof. destruct s as [|c t]; simpl; [done|]. intros H. by rewrite (H c t). Qed.

(** The result of [trim] has no white space at its ends. *)
Lemma trim_trimmed s : trimmed (trim s).
Proof.
  unfold trim, trim_end, trim_start.
  set (u := drop_ws s).
  destruct (drop_ws_suffix (reverse u)) as (w & Hw & Hws).
  assert (Hu : u = reverse (drop_ws (reverse u)) ++ reverse w).
  { rewrite <- reverse_app, <- Hw. by rewrite reverse_involutive. }
  split.
  - intros c t E. rewrite E in Hu. apply (drop_ws_head s c (t ++ reverse w)).
    unfold u in *. rewrite Hu at 1. done.
  - intros c t E. apply (f_equal reverse) in E.
    rewrite reverse_involutive, reverse_app in E; simpl in E.
    eapply drop_ws_head; exact E.
Qed.

Lemma trim_id s : trimmed s -> trim s = s.
Proof.
  intros [H1 H2]. unfold trim, trim_start, trim_end.
  rewrite (drop_ws_id s) by done.
  rewrite drop_ws_id; [apply reverse_involutive|].
  intros c t E. apply (H2 c (reverse t)).
  by rewrite <- (reverse_involutive s), E, reverse_cons.
Qed.

(** A text whose first and last units are not white space. *)
Lemma trim_ends s a z :
  head s = Some a -> last s = Some z -> is_ws a = false -> is_ws z = false -> trim s = s.
Proof.
  intros Ha Hz Hwa Hwz. apply trim_id. split; intros c t ->; [by simplify_eq/=|].
  rewrite last_snoc in Hz. by simplify_eq.
Qed.

Lemma trim_idemp s : trim (trim s) = trim s.
Proof. apply trim_id, trim_trimmed. Qed.

Lemma drop_ws_nil s : drop_ws s = [] -> Forall (fun c => is_ws c = true) s.
Proof.
  intros H. destruct (drop_ws_suffix s) as (w & E & Hw). rewrite H, app_nil_r in E. by subst.
Qed.

Lemma trim_nil s : trim s = [] -> Forall (fun c => is_ws c = true) s.
Proof.
  unfold trim, trim_end, trim_start. intros H. apply (f_equal reverse) in H.
  rewrite reverse_involutive in H. apply drop_ws_nil, Forall_reverse in H.
  apply drop_ws_nil. destruct (drop_ws s) as [|c t] eqn:E; [done|].
  apply drop_ws_head in E. rewrite reverse_involutive in H. apply Forall_cons in H as [H _].
  congruence.
Qed.

(** [trim] only removes code units: every unit of the result is one of the input. *)
Lemma trim_elem s c : c ∈ trim s -> c ∈ s.
Proof.
  unfold trim, trim_end, trim_start. rewrite elem_of_reverse.
  intros H. destruct (drop_ws_suffix s) as (w & Hw & _).
  destruct (drop_ws_suffix (reverse (drop_ws s))) as (v & Hv & _).
  assert (H' : c ∈ reverse (drop_ws s)) by (rewrite Hv; set_solver).
  rewrite elem_of_reverse in H'. rewrite Hw; set_solver.
Qed.

(** A string without white space is its own trim. *)
Lemma drop_ws_length s : (length (drop_ws s) <= length s)%nat.
Proof. induction s as [|c s IH]; simpl; [lia|]. case_match; simpl; lia. Qed.

Lemma trim_length s : (length (trim s) <= length s)%nat.
Proof.
  unfold trim, trim_end, trim_start. rewrite length_reverse.
  etrans; [apply drop_ws_length|]. rewrite length_reverse. apply drop_ws_length.
Qed.

Lemma trim_no_ws s : Forall (fun c => is_ws c = false) s -> trim s = s.
Proof.
  intros H. apply trim_id. split; intros c t ->.
  - by inversion H.
  - by apply Forall_app in H as [_ H]; inversion H.
Qed.

Lemma filter_truthy_id l : Forall (fun s : jsstr => s <> []) l -> filter_truthy l = l.
Proof.
  intros H. apply filterb_all. intros s Hs. eapply Forall_forall in H; [|exact Hs]. by destruct s.
Qed.

Lemma fmap_trim_id l : Forall (fun s => trim s = s) l -> trim <$> l = l.
Proof. induction 1 as [|s l Hs _ IH]; cbn; [done|]. rewrite Hs. f_equal. exact IH. Qed.

(** ** Lemmas: splitting and joining *)

Lemma split_char_not_nil c s : split_char c s <> [].
Proof. destruct s as [|x t]; simpl; [done|]. case_match; [done|]. by case_match. Qed.

Lemma split_char_elem c s w : w ∈ split_char c s -> c ∉ w.
Proof.
  revert w; induction s as [|x t IH]; intros w; simpl.
  { rewrite list_elem_of_singleton. intros ->. set_solver. }
  destruct (x =? c) eqn:E.
  { rewrite elem_of_cons; intros [->|]; [apply not_elem_of_nil|by apply IH]. }
  apply N.eqb_neq in E.
  destruct (split_char c t) as [|u us].
  { rewrite list_elem_of_singleton. intros ->. set_solver. }
  rewrite elem_of_cons. intros [->|Hw].
  - specialize (IH u (list_elem_of_here _ _)). apply not_elem_of_cons; auto.
  - apply IH. by right.
Qed.

(** A separator-free string splits into itself. *)
Lemma split_char_no_sep c s : c ∉ s -> split_char c s = [s].
Proof.
  induction s as [|x t IH]; intros H; simpl; [done|].
  rewrite (proj2 (N.eqb_neq x c)) by set_solver.
  rewrite IH by set_solver. done.
Qed.

Lemma split_char_app_sep c w s :
  c ∉ w -> split_char c (w ++ c :: s) = w :: split_char c s.
Proof.
  induction w as [|x t IH]; intros H; simpl; [by rewrite N.eqb_refl|].
  rewrite (proj2 (N.eqb_neq x c)) by set_solver.
  rewrite IH by set_solver. done.
Qed.

(** A unit that is not the separator is in one of the parts. *)
Lemma split_char_covers c s x : x ∈ s -> x <> c -> exists w, w ∈ split_char c s /\ x ∈ w.
Proof.
  induction s as [|y s IH]; intros Hx Hne; [by apply elem_of_nil in Hx|]. cbn [split_char].
  apply elem_of_cons in Hx as [->|Hx].
  - rewrite (proj2 (N.eqb_neq y c)) by done. destruct (split_char c s) as [|w ws].
    + exists [y]. split; apply list_elem_of_here.
    + exists (y :: w). split; apply list_elem_of_here.
  - destruct (IH Hx Hne) as (w & Hw & Hxw). destruct (y =? c).
    + exists w. split; [by apply list_elem_of_further|done].
    + destruct (split_char c s) as [|u us]; [by apply elem_of_nil in Hw|].
      apply elem_of_cons in Hw as [->|Hw].
      * exists (y :: u). split; [apply list_elem_of_here|by apply list_elem_of_further].
      * exists w. split; [by apply list_elem_of_further|done].
Qed.

(** Two texts joined by the separator are split one after the other. *)
Lemma split_char_app c u v : split_char c (u ++ c :: v) = split_char c u ++ split_char c v.
Proof.
  induction u as [|x u IH]; cbn [app split_char]; [by rewrite N.eqb_refl|].
  rewrite IH. destruct (x =? c); [done|]. pose proof (split_char_not_nil c u).
  by destruct (split_char c u).
Qed.

(** [l.join(c).split(c)] gives [l] back when no element holds the separator. *)
Lemma split_join c l :
  l <> [] -> Forall (fun w => c ∉ w) l -> split_char c (join [c] l) = l.
Proof.
  induction l as [|w l IH]; intros Hne Hl; [done|].
  apply Forall_cons in Hl as [Hw Hl].
  destruct l as [|w' l]; [by apply split_char_no_sep|].
  change (join [c] (w :: w' :: l)) with (w ++ c :: join [c] (w' :: l)).
  rewrite split_char_app_sep by done. f_equal. by apply IH.
Qed.

(** [s.split(c).join(c)] gives [s] back. *)
Lemma join_split c s : join [c] (split_char c s) = s.
Proof.
  induction s as [|x t IH]; simpl; [done|].
  destruct (x =? c) eqn:E.
  - apply N.eqb_eq in E as ->. destruct (split_char c t) eqn:Es.
    + by apply split_char_not_nil in Es.
    + simpl in *. by rewrite <- IH.
  - destruct (split_char c t) as [|w ws] eqn:Es.
    + by apply split_char_not_nil in Es.
    + destruct ws; simpl in *; by rewrite <- IH.
Qed.

Lemma truthy_str_spec s : truthy_str s = true <-> s <> [].
Proof. by destruct s. Qed.

Lemma join_not_nil sep l : Forall (fun w : jsstr => w <> []) l -> l <> [] -> join sep l <> [].
Proof. destruct l as [|w [|v l]]; [done|by inversion 1|]. inversion 1. by destruct w. Qed.

Lemma elem_of_filter_truthy l w : w ∈ filter_truthy l <-> w <> [] /\ w ∈ l.
Proof.
  unfold filter_truthy. rewrite elem_of_filterb.
  destruct w; simpl; naive_solver.
Qed.

(** ** Lemmas: searching *)

Lemma starts_with_spec p s : starts_with p s = true <-> exists t, s = p ++ t.
Proof.
  revert s; induction p as [|a p IH]; intros s; simpl; [naive_solver|].
  destruct s as [|b s]; [naive_solver|].
  rewrite andb_true_iff, N.eqb_eq, IH. naive_solver.
Qed.

Lemma starts_with_app p t : starts_with p (p ++ t) = true.
Proof. apply starts_with_spec. eauto. Qed.

(** [indexOf] finds the first occurrence. *)
Lemma index_of_Some p s i :
  index_of p s = Some i <->
  (exists t, drop i s = p ++ t)
  /\ (i <= length s)%nat
  /\ (forall j, (j < i)%nat -> starts_with p (drop j s) = false).
Proof.
  revert i; induction s as [|x s IH]; intros i; simpl.
  - destruct (starts_with p []) eqn:E.
    + apply starts_with_spec in E as [t Ht]. split.
      * intros [= <-]. split; [by exists t|]. split; [simpl; lia|]. lia.
      * intros (_ & Hl & _). f_equal. simpl in Hl. lia.
    + split; [done|]. intros ([t Ht] & Hl & _).
      assert (i = 0%nat) as -> by (simpl in Hl; lia). simpl in Ht.
      exfalso. assert (starts_with p [] = true) by (apply starts_with_spec; eauto). congruence.
  - destruct (starts_with p (x :: s)) eqn:E.
    + split.
      * intros [= <-]. split; [by apply starts_with_spec|]. split; lia.
      * intros (_ & _ & Hj). destruct i; [done|]. specialize (Hj 0%nat ltac:(lia)).
        simpl in Hj. congruence.
    + destruct i as [|i].
      { split; [by destruct (index_of p s)|]. intros ([t Ht] & _ & _). simpl in Ht.
        exfalso. assert (starts_with p (x :: s) = true) by (apply starts_with_spec; eauto).
        congruence. }
      transitivity (index_of p s = Some i).
      { destruct (index_of p s); simpl; split; congruence. }
      rewrite IH; simpl. split.
      * intros (? & ? & Hj). split; [done|]. split; [lia|].
        intros [|j] ?; [done|]. apply Hj; lia.
      * intros (? & ? & Hj). split; [done|]. split; [lia|].
        intros j ?. apply (Hj (S j)); lia.
Qed.

Lemma index_of_None p s :
  index_of p s = None <-> forall u v, s <> u ++ p ++ v.
Proof.
  induction s as [|x s IH]; simpl.
  - destruct (starts_with p []) eqn:E.
    + split; [done|]. apply starts_with_spec in E as [t Ht].
      intros H. exfalso. by apply (H [] t).
    + split; [|done]. intros _ u v Hs. symmetry in Hs.
      apply app_eq_nil in Hs as [_ Hs]. destruct p; simpl in *; [done|discriminate].
  - destruct (starts_with p (x :: s)) eqn:E.
    + split; [done|]. apply starts_with_spec in E as [t Ht].
      intros H. exfalso. by apply (H [] t).
    + transitivity (index_of p s = None); [by destruct (index_of p s)|].
      rewrite IH. split.
      * intros H [|y u] v Hs; simpl in Hs.
        -- assert (starts_with p (x :: s) = true) by (apply starts_with_spec; eauto). congruence.
        -- injection Hs as -> ->. by apply (H u v).
      * intros H u v ->. by apply (H (x :: u) v).
Qed.

Lemma includes_spec p s : includes p s = true <-> exists u v, s = u ++ p ++ v.
Proof.
  unfold includes. destruct (index_of p s) as [i|] eqn:E; split; try done.
  - intros _. apply index_of_Some in E as ([t Ht] & _).
    exists (take i s), t. by rewrite <- Ht, take_drop.
  - intros (u & v & ->). by rewrite index_of_None in E; destruct (E u v).
Qed.

Lemma includes_prefix p u v : includes p (u ++ v) = false -> includes p u = false.
Proof.
  intros H. destruct (includes p u) eqn:E; [|done]. apply includes_spec in E as (a & b & ->).
  assert (Ht : includes p ((a ++ p ++ b) ++ v) = true).
  { apply includes_spec. exists a, (b ++ v). by rewrite <- !app_assoc. }
  congruence.
Qed.

Lemma includes_suffix p u v : includes p (u ++ v) = false -> includes p v = false.
Proof.
  intros H. destruct (includes p v) eqn:E; [|done]. apply includes_spec in E as (a & b & ->).
  assert (Ht : includes p (u ++ a ++ p ++ b) = true).
  { apply includes_spec. exists (u ++ a), b. by rewrite <- app_assoc. }
  congruence.
Qed.

(** The first occurrence of [p] in [u ++ p ++ v] is after [u] when [p] does not occur in
    [u ++ p] before its end. *)
Lemma index_of_app p u v :
  (forall j, (j < length u)%nat -> starts_with p (drop j (u ++ p ++ v)) = false) ->
  index_of p (u ++ p ++ v) = Some (length u).
Proof.
  intros H. apply index_of_Some. split; [|split; [rewrite length_app; lia|done]].
  exists v. by rewrite drop_app_length.
Qed.

#[export] Hint Resolve trim_trimmed : js.
#[export] Hint Rewrite trim_idemp join_split elem_of_filter_truthy : js.
