(* ===== verification/JsRegex.v ===== *)
(** * JavaScript regular expressions

    The part of the ECMAScript pattern language the modelled files use: an abstract
    syntax, a parser from the pattern text (so that a definition holds the pattern of the
    source letter by letter), and the backtracking matcher of the standard in
    continuation-passing style.  [den] is a declarative meaning, and the matcher is
    proved sound and complete for it: proofs about a pattern reason with [den]. *)

From S2P Require Import Prelude JsString.

#[local] Open Scope N_scope.

(** ** Syntax *)

Inductive regex :=
| REmpty
| RLit (w : jsstr)                       (* a literal run of code units *)
| RClass (neg : bool) (rs : list (N * N)) (* a class: ranges, possibly negated *)
| RSeq (a b : regex)
| RAlt (a b : regex)
| RStar (greedy : bool) (a : regex)
| RGroup (i : nat) (a : regex)
| RBackref (i : nat)
| RBol
| REol
| RWordB.

Definition in_ranges (rs : list (N * N)) (c : N) : bool :=
  existsb (fun '(a, b) => (a <=? c) && (c <=? b)) rs.

Definition in_class (neg : bool) (rs : list (N * N)) (c : N) : bool :=
  xorb neg (in_ranges rs c).

Definition digit_ranges : list (N * N) := [(48, 57)].
Definition word_ranges : list (N * N) := [(48, 57); (65, 90); (95, 95); (97, 122)].
Definition ws_ranges : list (N * N) :=
  [(9, 13); (32, 32); (160, 160); (5760, 5760); (8192, 8202); (8232, 8233);
   (8239, 8239); (8287, 8287); (12288, 12288); (65279, 65279)].
Definition newline_ranges : list (N * N) := [(10, 10); (13, 13); (8232, 8233)].

(** The complement of sorted, disjoint ranges, from [lo] up to 65535. *)
Fixpoint compl_ranges (lo : N) (rs : list (N * N)) : list (N * N) :=
  match rs with
  | [] => if lo <=? 65535 then [(lo, 65535)] else []
  | (a, b) :: t =>
      if lo <? a then (lo, a - 1) :: compl_ranges (b + 1) t
      else compl_ranges (b + 1) t
  end.

(** ** Matching *)

(** A matcher state: the consumed units in reverse, the units left, the captures
    (the latest binding of a group first). *)
Record st := St { before : jsstr; rest : jsstr; caps : list (nat * jsstr) }.

Definition cap (i : nat) (c : list (nat * jsstr)) : option jsstr :=
  snd <$> find (fun '(j, _) => Nat.eqb i j) c.

Definition step_unit (s : st) : option (N * st) :=
  match rest s with
  | [] => None
  | c :: t => Some (c, St (c :: before s) t (caps s))
  end.

Fixpoint eat (w : jsstr) (s : st) : option st :=
  match w with
  | [] => Some s
  | a :: w' => match step_unit s with
               | Some (c, s') => if a =? c then eat w' s' else None
               | None => None
               end
  end.

Definition is_word (c : N) : bool := in_ranges word_ranges c.
Definition at_word_boundary (s : st) : bool :=
  let l := match before s with c :: _ => is_word c | [] => false end in
  let r := match rest s with c :: _ => is_word c | [] => false end in
  xorb l r.

Definition cont := st -> option st.

Definition or_else {A} (x : option A) (y : option A) : option A :=
  match x with Some _ => x | None => y end.

(** The loop of a quantifier: an iteration must consume, and the fuel is the number of
    units left, so it never runs out before the input does. *)
Fixpoint star_m (ma : cont -> cont) (greedy : bool) (fuel : nat) (k : cont) (s : st)
  : option st :=
  match fuel with
  | O => k s
  | S f =>
      let more := ma (fun s' => if (length (rest s') <? length (rest s))%nat
                                then star_m ma greedy f k s' else None) s in
      if greedy then or_else more (k s) else or_else (k s) more
  end.

Fixpoint m (r : regex) (k : cont) (s : st) : option st :=
  match r with
  | REmpty => k s
  | RLit w => match eat w s with Some s' => k s' | None => None end
  | RClass neg rs =>
      match step_unit s with
      | Some (c, s') => if in_class neg rs c then k s' else None
      | None => None
      end
  | RSeq a b => m a (m b k) s
  | RAlt a b => or_else (m a k s) (m b k s)
  | RStar g a => star_m (m a) g (length (rest s)) k s
  | RGroup i a =>
      m a (fun s' =>
        k (St (before s') (rest s')
              ((i, take (length (rest s) - length (rest s')) (rest s)) :: caps s'))) s
  | RBackref i =>
      match eat (default [] (cap i (caps s))) s with Some s' => k s' | None => None end
  | RBol => match before s with [] => k s | _ :: _ => None end
  | REol => match rest s with [] => k s | _ :: _ => None end
  | RWordB => if at_word_boundary s then k s else None
  end.

(** ** Using a pattern *)

(** A match: its text is not used by the source; the captures and the state after are. *)
Definition match_at (r : regex) (s : st) : option st := m r Some s.

(** [re.exec] from a position: the first position where the pattern matches, with the
    units skipped before the match. *)
Fixpoint find_from (r : regex) (bef rst : jsstr) : option (st * st) :=
  let s := St bef rst [] in
  match match_at r s with
  | Some s' => Some (s, s')
  | None => match rst with
            | [] => None
            | c :: t => find_from r (c :: bef) t
            end
  end.

(** [str.match(re)] / [re.exec(str)] without the [g] flag: the captures. *)
Definition exec (r : regex) (s : jsstr) : option (list (nat * jsstr)) :=
  (fun p => caps (snd p)) <$> find_from r [] s.

Definition test (r : regex) (s : jsstr) : bool :=
  match find_from r [] s with Some _ => true | None => false end.

(** [while ((m = re.exec(s)) !== null)] with the [g] flag: every match from left to right.
    The fuel is one more than the units left: a pattern that consumes cannot match more
    often. *)
Fixpoint exec_all_from (r : regex) (fuel : nat) (bef rst : jsstr)
  : list (list (nat * jsstr)) :=
  match fuel with
  | O => []
  | S f => match find_from r bef rst with
           | None => []
           | Some (_, s') => caps s' :: exec_all_from r f (before s') (rest s')
           end
  end.

Definition exec_all (r : regex) (s : jsstr) : list (list (nat * jsstr)) :=
  exec_all_from r (S (length s)) [] s.

(** [s.replace(re, rep)] with the [g] flag and a constant replacement. *)
Fixpoint replace_all_from (r : regex) (rep : jsstr) (fuel : nat) (bef rst : jsstr) : jsstr :=
  match fuel with
  | O => rst
  | S f => match find_from r bef rst with
           | None => rst
           | Some (s, s') =>
               take (length rst - length (rest s)) rst ++ rep
               ++ replace_all_from r rep f (before s') (rest s')
           end
  end.

Definition replace_all (r : regex) (rep s : jsstr) : jsstr :=
  replace_all_from r rep (S (length s)) [] s.

(** [s.replace(re, rep)] without the [g] flag. *)
Definition replace_first (r : regex) (rep s : jsstr) : jsstr :=
  match find_from r [] s with
  | None => s
  | Some (s0, s') => take (length s - length (rest s0)) s ++ rep ++ rest s'
  end.

(** [s.split(re)] for a pattern without groups that matches no empty string. *)
Fixpoint split_re_from (r : regex) (fuel : nat) (bef rst : jsstr) : list jsstr :=
  match fuel with
  | O => [rst]
  | S f => match find_from r bef rst with
           | None => [rst]
           | Some (s, s') =>
               take (length rst - length (rest s)) rst
               :: split_re_from r f (before s') (rest s')
           end
  end.

Definition split_re (r : regex) (s : jsstr) : list jsstr :=
  split_re_from r (S (length s)) [] s.

(** ** Parsing pattern texts *)

(** Sequencing, with runs of literal units merged. *)
Definition rseq (a b : regex) : regex :=
  match a, b with
  | REmpty, _ => b
  | _, REmpty => a
  | RLit u, RLit v => RLit (u ++ v)
  | RLit u, RSeq (RLit v) c => RSeq (RLit (u ++ v)) c
  | _, _ => RSeq a b
  end.

Definition hex_val (c : N) : N :=
  if c <=? 57 then c - 48 else if c <=? 70 then c - 55 else c - 87.

(** The class escapes [\d \s \S \w]. *)
Definition class_escape (c : N) : option (list (N * N)) :=
  if c =? 100 then Some digit_ranges
  else if c =? 115 then Some ws_ranges
  else if c =? 83 then Some (compl_ranges 0 ws_ranges)
  else if c =? 119 then Some word_ranges
  else None.

(** The inside of a bracket class, up to the closing bracket. *)
Fixpoint parse_class (fuel : nat) (p : jsstr) : list (N * N) * jsstr :=
  match fuel with
  | O => ([], p)
  | S f =>
      match p with
      | 93 :: t => ([], t)
      | 92 :: 120 :: h1 :: h2 :: t =>
          let '(rs, t') := parse_class f t in
          let c := 16 * hex_val h1 + hex_val h2 in ((c, c) :: rs, t')
      | 92 :: c :: t =>
          let '(rs, t') := parse_class f t in
          match class_escape c with
          | Some e => (e ++ rs, t')
          | None => ((c, c) :: rs, t')
          end
      | a :: 45 :: 93 :: t => ([(a, a); (45, 45)], t)
      | a :: 45 :: b :: t => let '(rs, t') := parse_class f t in ((a, b) :: rs, t')
      | a :: t => let '(rs, t') := parse_class f t in ((a, a) :: rs, t')
      | [] => ([], [])
      end
  end.

(** A quantifier after an atom. *)
Definition parse_quant (a : regex) (p : jsstr) : regex * jsstr :=
  match p with
  | 42 :: 63 :: t => (RStar false a, t)
  | 42 :: t => (RStar true a, t)
  | 43 :: 63 :: t => (RSeq a (RStar false a), t)
  | 43 :: t => (RSeq a (RStar true a), t)
  | 63 :: t => (RAlt a REmpty, t)
  | _ => (a, p)
  end.

(** Alternatives, then a sequence of quantified atoms, up to a closing parenthesis or the
    end: the pattern, the text left, and the next free group number.  [dotall] is the
    [s] flag. *)
Fixpoint parse_alt (dotall : bool) (fuel : nat) (g : nat) (p : jsstr)
  : regex * jsstr * nat :=
  match fuel with
  | O => (REmpty, p, g)
  | S f =>
      let '(a, t, g1) := parse_seq dotall f g p in
      match t with
      | 124 :: t1 => let '(b, t2, g2) := parse_alt dotall f g1 t1 in (RAlt a b, t2, g2)
      | _ => (a, t, g1)
      end
  end
with parse_seq (dotall : bool) (fuel : nat) (g : nat) (p : jsstr)
  : regex * jsstr * nat :=
  match fuel with
  | O => (REmpty, p, g)
  | S f =>
      let continue a t g1 :=
        let '(a', t1) := parse_quant a t in
        let '(r, t2, g2) := parse_seq dotall f g1 t1 in
        (rseq a' r, t2, g2) in
      match p with
      | [] | 41 :: _ | 124 :: _ => (REmpty, p, g)
      | 94 :: t => continue RBol t g
      | 36 :: t => continue REol t g
      | 46 :: t => continue (RClass true (if dotall then [] else newline_ranges)) t g
      | 91 :: 94 :: t => let '(rs, t') := parse_class f t in continue (RClass true rs) t' g
      | 91 :: t => let '(rs, t') := parse_class f t in continue (RClass false rs) t' g
      | 40 :: 63 :: 58 :: t =>
          let '(r, t', g') := parse_alt dotall f g t in continue r (drop 1 t') g'
      | 40 :: t =>
          let '(r, t', g') := parse_alt dotall f (S g) t in
          continue (RGroup g r) (drop 1 t') g'
      | 92 :: 98 :: t => continue RWordB t g
      | 92 :: 120 :: h1 :: h2 :: t => continue (RLit [16 * hex_val h1 + hex_val h2]) t g
      | 92 :: c :: t =>
          match class_escape c with
          | Some rs => continue (RClass false rs) t g
          | None => if is_digit c then continue (RBackref (N.to_nat (c - 48))) t g
                    else continue (RLit [c]) t g
          end
      | c :: t => continue (RLit [c]) t g
      end
  end.

Definition regex_of (dotall : bool) (p : jsstr) : regex :=
  let '(r, _, _) := parse_alt dotall (2 * length p + 2) 1 p in r.

(** [/p/] and [/p/s] *)
Definition re (p : String.string) : regex := regex_of false (js p).
Definition re_s (p : String.string) : regex := regex_of true (js p).
Arguments re p%_string.
Arguments re_s p%_string.

(** ** Declarative meaning *)

(** [den r s s']: [r] can match from state [s], leaving state [s']. *)
Fixpoint den (r : regex) (s s' : st) : Prop :=
  match r with
  | REmpty => s' = s
  | RLit w => eat w s = Some s'
  | RClass neg rs =>
      exists c t, rest s = c :: t /\ in_class neg rs c = true
                  /\ s' = St (c :: before s) t (caps s)
  | RSeq a b => exists x, den a s x /\ den b x s'
  | RAlt a b => den a s s' \/ den b s s'
  | RStar _ a => rtc (fun x y => den a x y /\ (length (rest y) < length (rest x))%nat) s s'
  | RGroup i a =>
      exists x, den a s x
        /\ s' = St (before x) (rest x)
                 ((i, take (length (rest s) - length (rest x)) (rest s)) :: caps x)
  | RBackref i => eat (default [] (cap i (caps s))) s = Some s'
  | RBol => before s = [] /\ s' = s
  | REol => rest s = [] /\ s' = s
  | RWordB => at_word_boundary s = true /\ s' = s
  end.

Lemma or_else_Some {A} (x y : option A) z :
  or_else x y = Some z -> x = Some z \/ (x = None /\ y = Some z).
Proof. destruct x; simpl; naive_solver. Qed.

Lemma or_else_None {A} (x y : option A) : or_else x y = None <-> x = None /\ y = None.
Proof. destruct x; simpl; naive_solver. Qed.

Lemma star_sound (ma : cont -> cont) (R : st -> st -> Prop) g fuel k s x :
  (forall k s x, ma k s = Some x -> exists s', R s s' /\ k s' = Some x) ->
  star_m ma g fuel k s = Some x ->
  exists s', rtc (fun a b => R a b /\ (length (rest b) < length (rest a))%nat) s s'
             /\ k s' = Some x.
Proof.
  intros Hma. revert s; induction fuel as [|f IH]; intros s; simpl.
  { intros; by exists s. }
  assert (Hstep : ma (fun s' => if (length (rest s') <? length (rest s))%nat
                       then star_m ma g f k s' else None) s = Some x ->
    exists s', rtc (fun a b => R a b /\ (length (rest b) < length (rest a))%nat) s s'
               /\ k s' = Some x).
  { intros (y & HR & Hy)%Hma. destruct (Nat.ltb_spec (length (rest y)) (length (rest s)));
      [|done]. apply IH in Hy as (z & Hz & Hk). exists z; split; [|done].
    by eapply rtc_l; [|exact Hz]. }
  destruct g; intros [H|[_ H]]%or_else_Some; eauto using rtc_refl.
Qed.

(** Soundness: a match found by backtracking is one the meaning allows. *)
Theorem m_sound r k s x : m r k s = Some x -> exists s', den r s s' /\ k s' = Some x.
Proof.
  revert k s x; induction r as [|w|neg rs|a IHa b IHb|a IHa b IHb|g a IHa|i a IHa|i| | |];
    intros k s x; simpl.
  - eauto.
  - destruct (eat w s) eqn:E; [eauto|done].
  - unfold step_unit. destruct (rest s) as [|c t] eqn:E; [done|].
    destruct (in_class neg rs c) eqn:Ec; [|done]. eauto 10.
  - intros (y & Hy & Hb)%IHa. apply IHb in Hb as (z & Hz & Hk). eauto 10.
  - intros [H|[_ H]]%or_else_Some; [apply IHa in H|apply IHb in H]; naive_solver.
  - by apply star_sound.
  - intros (y & Hy & Hk)%IHa. eauto 10.
  - destruct (eat _ s) eqn:E; [eauto|done].
  - destruct (before s) eqn:E; [eauto|done].
  - destruct (rest s) eqn:E; [eauto|done].
  - destruct (at_word_boundary s); [eauto|done].
Qed.

Lemma star_complete (ma : cont -> cont) (R : st -> st -> Prop) g fuel k s s' :
  (forall k s s', R s s' -> k s' <> None -> ma k s <> None) ->
  rtc (fun a b => R a b /\ (length (rest b) < length (rest a))%nat) s s' ->
  (length (rest s) <= fuel)%nat -> k s' <> None ->
  star_m ma g fuel k s <> None.
Proof.
  intros Hma Hrtc. revert fuel.
  induction Hrtc as [s|s y z [HR Hlt] _ IH]; intros fuel Hf Hk; destruct fuel as [|f]; simpl.
  - done.
  - destruct g; rewrite or_else_None; naive_solver.
  - lia.
  - assert (H : ma (fun s' => if (length (rest s') <? length (rest s))%nat
                       then star_m ma g f k s' else None) s <> None).
    { eapply Hma; [exact HR|]. rewrite (proj2 (Nat.ltb_lt _ _)) by done. apply IH; [lia|done]. }
    destruct g; rewrite or_else_None; naive_solver.
Qed.

(** Completeness: if the meaning allows a match the continuation accepts, backtracking
    does not fail. *)
Theorem m_complete r k s s' : den r s s' -> k s' <> None -> m r k s <> None.
Proof.
  revert k s s'; induction r as [|w|neg rs|a IHa b IHb|a IHa b IHb|g a IHa|i a IHa|i| | |];
    intros k s s'; simpl.
  - by intros ->.
  - by intros ->.
  - intros (c & t & E & Hc & ->). unfold step_unit. by rewrite E, Hc.
  - intros (y & Hy & Hz) Hk. eapply IHa; [exact Hy|]. by eapply IHb.
  - rewrite or_else_None. intros [H|H] Hk [? ?]; [by eapply IHa|by eapply IHb].
  - intros Hrtc Hk. by eapply star_complete.
  - intros (y & Hy & ->) Hk. by eapply IHa.
  - by intros ->.
  - intros [E ->]. by rewrite E.
  - intros [E ->]. by rewrite E.
  - intros [E ->]. by rewrite E.
Qed.

(** When every match the meaning allows leaves the same state, the matcher returns it. *)
Corollary match_at_unique r s s' :
  den r s s' -> (forall x, den r s x -> x = s') -> match_at r s = Some s'.
Proof.
  intros H Hu. unfold match_at. destruct (m r Some s) as [x|] eqn:E.
  - apply m_sound in E as (y & Hy & [= ->]). by rewrite (Hu x).
  - exfalso. by eapply m_complete in E.
Qed.

Corollary match_at_None r s : (forall x, ~ den r s x) -> match_at r s = None.
Proof.
  intros H. unfold match_at. destruct (m r Some s) eqn:E; [|done].
  apply m_sound in E as (y & Hy & _). by destruct (H y).
Qed.

Corollary match_at_den r s s' : match_at r s = Some s' -> den r s s'.
Proof. intros (y & Hy & [= ->])%m_sound. done. Qed.

(** ** Patterns without groups, references and anchors: their language *)

Fixpoint plain (r : regex) : bool :=
  match r with
  | REmpty | RLit _ | RClass _ _ => true
  | RSeq a b | RAlt a b => plain a && plain b
  | RStar _ a => plain a
  | _ => false
  end.

Fixpoint lang (r : regex) (w : jsstr) : Prop :=
  match r with
  | REmpty => w = []
  | RLit u => w = u
  | RClass neg rs => exists c, w = [c] /\ in_class neg rs c = true
  | RSeq a b => exists u v, w = u ++ v /\ lang a u /\ lang b v
  | RAlt a b => lang a w \/ lang b w
  | RStar _ a => exists ws, w = concat ws /\ Forall (fun u => lang a u /\ u <> []) ws
  | _ => False
  end.

(** [s'] is [s] after the units [w], with the units [t] left. *)
Definition after (w t : jsstr) (s : st) : st := St (reverse w ++ before s) t (caps s).

Definition eats (L : jsstr -> Prop) (s s' : st) : Prop :=
  exists w t, rest s = w ++ t /\ L w /\ s' = after w t s.

Lemma after_nil s : after [] (rest s) s = s.
Proof. by destruct s. Qed.

Lemma after_app u v t t' s : after v t (after u t' s) = after (u ++ v) t s.
Proof. unfold after; simpl. by rewrite reverse_app, app_assoc. Qed.

Lemma eat_Some w s s' :
  eat w s = Some s' <-> exists t, rest s = w ++ t /\ s' = after w t s.
Proof.
  revert s; induction w as [|a w IH]; intros s; simpl.
  - split; [intros [= ->]; exists (rest s'); by rewrite after_nil|].
    intros (t & E & ->). by rewrite <- E, after_nil.
  - unfold step_unit. destruct (rest s) as [|c u] eqn:E.
    { split; [done|]. intros (t & ? & _); done. }
    destruct (a =? c) eqn:Ea.
    + apply N.eqb_eq in Ea as <-. rewrite IH; simpl. unfold after; simpl.
      split; intros (t & Ht & ->); exists t; simplify_eq.
      * split; [done|]. by rewrite reverse_cons, <- app_assoc.
      * split; [done|]. by rewrite reverse_cons, <- app_assoc.
    + apply N.eqb_neq in Ea. split; [done|]. intros (t & ? & _); naive_solver.
Qed.

Lemma den_lit w s s' : den (RLit w) s s' <-> exists t, rest s = w ++ t /\ s' = after w t s.
Proof. apply eat_Some. Qed.

Lemma den_plain r s s' : plain r = true -> den r s s' <-> eats (lang r) s s'.
Proof.
  revert s s'; induction r as [|w|neg rs|a IHa b IHb|a IHa b IHb|g a IHa|i a IHa|i| | |];
    intros s s'; simpl; intros Hp; try done; unfold eats.
  - split.
    + intros ->. exists [], (rest s). by rewrite after_nil.
    + intros (w & t & E & -> & ->). simpl in E. by rewrite <- E, after_nil.
  - rewrite eat_Some. naive_solver.
  - split.
    + intros (c & t & E & Hc & ->). exists [c], t. naive_solver.
    + intros (w & t & E & (c & -> & Hc) & ->). exists c, t. naive_solver.
  - apply andb_true_iff in Hp as [Hpa Hpb]. split.
    + intros (x & Hx & Hy). apply IHa in Hx as (u & t & E & Hu & ->); [|done].
      apply IHb in Hy as (v & t' & E' & Hv & ->); [|done]. simpl in E'; subst.
      exists (u ++ v), t'. rewrite after_app, <- app_assoc. naive_solver.
    + intros (w & t & E & (u & v & -> & Hu & Hv) & ->).
      exists (after u (v ++ t) s). rewrite IHa, IHb by done.
      split; [exists u, (v ++ t); by rewrite app_assoc|].
      exists v, t. by rewrite after_app.
  - apply andb_true_iff in Hp as [Hpa Hpb]. rewrite IHa, IHb by done.
    unfold eats. naive_solver.
  - split.
    + induction 1 as [s|s y z [Hy Hlt] _ IH].
      { exists [], (rest s). rewrite after_nil. split; [done|]. split; [|done].
        exists []. by split. }
      apply IHa in Hy as (u & t & E & Hu & ->); [|done].
      destruct IH as (w & t' & E' & (ws & -> & Hws) & ->). simpl in E'; subst t.
      exists (concat (u :: ws)), t'. simpl. rewrite after_app, <- app_assoc.
      split; [done|]. split; [|done]. exists (u :: ws). split; [done|].
      constructor; [|done]. split; [done|]. intros ->.
      rewrite E in Hlt. simpl in Hlt. lia.
    + intros (w & t & E & (ws & -> & Hws) & ->). revert s E.
      induction Hws as [|u ws [Hu Hne] Hws IH]; intros s E; simpl in *.
      { subst. rewrite after_nil. constructor. }
      rewrite <- app_assoc in E.
      eapply rtc_l with (after u (concat ws ++ t) s).
      * split.
        -- apply IHa; [done|]. eexists _, _. split; [exact E|]. done.
        -- rewrite E; simpl. rewrite !length_app. destruct u; [done|simpl; lia].
      * specialize (IH (after u (concat ws ++ t) s) eq_refl).
        by rewrite after_app in IH.
Qed.

Lemma concat_units (P : N -> Prop) ws :
  Forall (fun u => (exists c, u = [c] /\ P c) /\ u <> []) ws -> Forall P (concat ws).
Proof.
  induction 1 as [|u ws [(c & -> & Hc) _] _ IH]; simpl; [constructor|]. by constructor.
Qed.

(** The language of [class*] and of [class+]. *)
Lemma lang_star_class g neg rs w :
  lang (RStar g (RClass neg rs)) w <-> Forall (fun c => in_class neg rs c = true) w.
Proof.
  simpl. split.
  - intros (ws & -> & H). by apply concat_units.
  - intros H. exists ((fun c => [c]) <$> w). split.
    + clear. induction w as [|c w IH]; simpl; by f_equal.
    + rewrite Forall_fmap. eapply Forall_impl; [exact H|]. simpl. naive_solver.
Qed.

Lemma lang_plus_class g neg rs w :
  lang (RSeq (RClass neg rs) (RStar g (RClass neg rs))) w
  <-> w <> [] /\ Forall (fun c => in_class neg rs c = true) w.
Proof.
  split.
  - intros (u & v & -> & (c & -> & Hc) & Hv). rewrite lang_star_class in Hv.
    split; [done|]. by constructor.
  - intros [Hne H]. destruct w as [|c w]; [done|]. apply Forall_cons in H as [Hc H].
    exists [c], w. split; [done|]. split; [by exists c|]. by apply lang_star_class.
Qed.

(** A group around a plain pattern records what the pattern matched. *)
Lemma den_group_plain i r s s' :
  plain r = true ->
  den (RGroup i r) s s' <->
  exists w t, rest s = w ++ t /\ lang r w
              /\ s' = St (reverse w ++ before s) t ((i, w) :: caps s).
Proof.
  intros Hp. simpl. setoid_rewrite den_plain; [|done]. split.
  - intros (x & (w & t & E & Hw & ->) & ->). exists w, t. split; [done|]. split; [done|].
    simpl. repeat f_equal. rewrite E, length_app.
    replace (length w + length t - length t)%nat with (length w) by lia.
    by rewrite take_app_length.
  - intros (w & t & E & Hw & ->). exists (after w t s).
    split; [by exists w, t|]. simpl. repeat f_equal. rewrite E, length_app.
    replace (length w + length t - length t)%nat with (length w) by lia.
    by rewrite take_app_length.
Qed.

Lemma find_from_bol r bef rst :
  bef <> [] -> find_from (RSeq RBol r) bef rst = None.
Proof.
  revert bef; induction rst as [|c t IH]; intros [|b bef] H; try done; simpl.
  unfold match_at; simpl. by apply IH.
Qed.

(** A pattern anchored at the start is tried at the start only. *)
Lemma exec_anchored r s :
  exec (RSeq RBol r) s = caps <$> match_at r (St [] s []).
Proof.
  unfold exec. destruct s as [|c t]; simpl; unfold match_at; simpl.
  - by destruct (m r Some _).
  - destruct (m r Some _); simpl; [done|]. by rewrite find_from_bol.
Qed.

Lemma test_anchored r s :
  test (RSeq RBol r) s = match match_at r (St [] s []) with Some _ => true | None => false end.
Proof.
  unfold test. destruct s as [|c t]; simpl; unfold match_at; simpl.
  - by destruct (m r Some _).
  - destruct (m r Some _); simpl; [done|]. by rewrite find_from_bol.
Qed.

(** [/^r$/.test(s)]: the whole string is in the language of [r]. *)
Lemma test_full r s :
  plain r = true -> test (RSeq RBol (RSeq r REol)) s = true <-> lang r s.
Proof.
  intros Hp. rewrite test_anchored. split.
  - destruct (match_at _ _) as [x|] eqn:E; [|done]. intros _.
    apply match_at_den in E as (y & Hy & [Hr ->]).
    apply den_plain in Hy as (w & t & Hw & HL & ->); [|done].
    cbn in Hw, Hr. subst t. by rewrite app_nil_r in Hw; subst w.
  - intros HL. destruct (match_at _ _) as [x|] eqn:E; [done|]. exfalso.
    revert E. eapply (m_complete _ _ _ (after s [] (St [] s []))); [|done].
    exists (after s [] (St [] s [])). split; [|done].
    apply den_plain; [done|]. exists s, []. by rewrite app_nil_r.
Qed.

(** Without a match anywhere, [exec] gives null. *)
Lemma find_from_None r bef rst :
  (forall u v x, rst = u ++ v -> ~ den r (St (reverse u ++ bef) v []) x) ->
  find_from r bef rst = None.
Proof.
  revert bef; induction rst as [|c t IH]; intros bef H; simpl.
  - rewrite match_at_None; [done|]. intros x. by apply (H [] []).
  - rewrite match_at_None; [|intros x; by apply (H [] (c :: t))].
    apply IH. intros u v x ->. specialize (H (c :: u) v x eq_refl).
    by rewrite reverse_cons, <- app_assoc in H.
Qed.

(** ** Running a greedy loop over a run of units *)

Section StarRun.
Context (a : regex) (P : N -> Prop).
Hypothesis Hstep : forall k s c t, rest s = c :: t -> P c -> m a k s = k (after [c] t s).

Lemma star_success w t k s x fuel :
  Forall P w -> rest s = w ++ t -> (forall k', m a k' (after w t s) = None) ->
  (length w <= fuel)%nat -> k (after w t s) = Some x -> star_m (m a) true fuel k s = Some x.
Proof.
  revert s fuel; induction w as [|c w IH]; intros s fuel Hw Hr Hstop Hf Hk.
  - simpl in Hr. assert (Hs : after [] t s = s) by (rewrite <- Hr; apply after_nil).
    rewrite Hs in *. destruct fuel; simpl; [done|]. by rewrite Hstop.
  - apply Forall_cons in Hw as [Hc Hw]. destruct fuel as [|f]; [simpl in Hf; lia|]. simpl.
    rewrite (Hstep _ s c (w ++ t)) by done. simpl. rewrite Hr. simpl.
    rewrite (proj2 (Nat.ltb_lt _ _)) by lia.
    rewrite (IH (after [c] (w ++ t) s) f); [done|done|done| |simpl in Hf; lia|];
      by rewrite after_app.
Qed.

Lemma star_failure w t k s fuel :
  Forall P w -> rest s = w ++ t -> (forall k', m a k' (after w t s) = None) ->
  (forall u v, w = u ++ v -> k (after u (v ++ t) s) = None) ->
  star_m (m a) true fuel k s = None.
Proof.
  revert s fuel; induction w as [|c w IH]; intros s fuel Hw Hr Hstop Hk.
  - simpl in Hr. assert (Hs : after [] t s = s) by (rewrite <- Hr; apply after_nil).
    specialize (Hk [] [] eq_refl). simpl in Hk.
    rewrite Hs in *. destruct fuel; simpl; [done|]. by rewrite Hstop.
  - apply Forall_cons in Hw as [Hc Hw].
    assert (Hks : k s = None).
    { specialize (Hk [] (c :: w) eq_refl). by rewrite <- Hr, after_nil in Hk. }
    destruct fuel as [|f]; [done|]. simpl.
    rewrite (Hstep _ s c (w ++ t)) by done. simpl. rewrite Hr. simpl.
    rewrite (proj2 (Nat.ltb_lt _ _)) by lia. rewrite IH; [done|done|done| |].
    + intros k'. by rewrite after_app.
    + intros u v ->. rewrite after_app. by apply (Hk (c :: u) v).
Qed.
End StarRun.

(** The units of a class: one step each, and none on a text that starts otherwise. *)
Definition class_stops (neg : bool) (rs : list (N * N)) (t : jsstr) : Prop :=
  match t with [] => True | c :: _ => in_class neg rs c = false end.

Lemma m_class_step neg rs k s c t :
  rest s = c :: t -> in_class neg rs c = true -> m (RClass neg rs) k s = k (after [c] t s).
Proof. intros Hr Hc. simpl. unfold step_unit. by rewrite Hr, Hc. Qed.

Lemma m_class_stop neg rs k s : class_stops neg rs (rest s) -> m (RClass neg rs) k s = None.
Proof. simpl. unfold step_unit. destruct (rest s); simpl; [done|]. by intros ->. Qed.

(** [+] of a class. *)
Definition plus (neg : bool) (rs : list (N * N)) : regex :=
  RSeq (RClass neg rs) (RStar true (RClass neg rs)).

Lemma m_plus_success neg rs w t k s x :
  w <> [] -> Forall (fun c => in_class neg rs c = true) w -> rest s = w ++ t ->
  class_stops neg rs t -> k (after w t s) = Some x -> m (plus neg rs) k s = Some x.
Proof.
  intros Hne Hw Hr Ht Hk. destruct w as [|c w]; [done|]. apply Forall_cons in Hw as [Hc Hw].
  unfold plus. change (m (RSeq ?a ?b) ?k ?s) with (m a (m b k) s).
  rewrite (m_class_step _ _ _ s c (w ++ t)) by done. simpl.
  eapply (star_success (RClass neg rs)); [apply m_class_step|exact Hw|done| | |].
  - intros k'. by apply m_class_stop.
  - rewrite length_app. lia.
  - by rewrite after_app.
Qed.

Lemma m_plus_failure neg rs w t k s :
  Forall (fun c => in_class neg rs c = true) w -> rest s = w ++ t -> class_stops neg rs t ->
  (forall u v, u <> [] -> w = u ++ v -> k (after u (v ++ t) s) = None) ->
  m (plus neg rs) k s = None.
Proof.
  intros Hw Hr Ht Hk. unfold plus. change (m (RSeq ?a ?b) ?k ?s) with (m a (m b k) s).
  destruct w as [|c w].
  - apply m_class_stop. by rewrite Hr.
  - apply Forall_cons in Hw as [Hc Hw]. rewrite (m_class_step _ _ _ s c (w ++ t)) by done. simpl.
    eapply (star_failure (RClass neg rs)); [apply m_class_step|exact Hw|done| |].
    + intros k'. by apply m_class_stop.
    + intros u v ->. rewrite after_app. by apply (Hk (c :: u) v).
Qed.

(** A literal, from the state it is tried in. *)
Lemma m_lit w k s s' : eat w s = Some s' -> m (RLit w) k s = k s'.
Proof. simpl. by intros ->. Qed.

Lemma m_lit_None w k s : eat w s = None -> m (RLit w) k s = None.
Proof. simpl. by intros ->. Qed.

(** The state after a group that ate [w]. *)
Definition captured (i : nat) (w t : jsstr) (s : st) : st :=
  St (reverse w ++ before s) t ((i, w) :: caps s).

Lemma group_state i w t s :
  rest s = w ++ t ->
  St (before (after w t s)) (rest (after w t s))
     ((i, take (length (rest s) - length (rest (after w t s))) (rest s)) :: caps (after w t s))
  = captured i w t s.
Proof.
  intros Hr. unfold captured, after; simpl. rewrite Hr, length_app.
  replace (length w + length t - length t)%nat with (length w) by lia. by rewrite take_app_length.
Qed.

Lemma m_group_success i neg rs w t k s x :
  w <> [] -> Forall (fun c => in_class neg rs c = true) w -> rest s = w ++ t ->
  class_stops neg rs t -> k (captured i w t s) = Some x -> m (RGroup i (plus neg rs)) k s = Some x.
Proof.
  intros Hne Hw Hr Ht Hk.
  change (m (RGroup i ?a) k s) with (m a (fun s' => k (St (before s') (rest s')
    ((i, take (length (rest s) - length (rest s')) (rest s)) :: caps s'))) s).
  eapply m_plus_success; [done|done|done|done|]. by rewrite group_state.
Qed.

(** A group of one run, when what follows cannot match inside the run. *)
Lemma m_group_run i neg rs w t k s :
  w <> [] -> Forall (fun c => in_class neg rs c = true) w -> rest s = w ++ t ->
  class_stops neg rs t ->
  (forall u c v, w = u ++ c :: v -> k (captured i u (c :: v ++ t) s) = None) ->
  m (RGroup i (plus neg rs)) k s = k (captured i w t s).
Proof.
  intros Hne Hw Hr Ht Hk. destruct (k (captured i w t s)) as [x|] eqn:E.
  { by eapply m_group_success. }
  change (m (RGroup i ?a) ?k ?s) with (m a (fun s' => k (St (before s') (rest s')
    ((i, take (length (rest s) - length (rest s')) (rest s)) :: caps s'))) s).
  eapply m_plus_failure; [done|done|done|]. intros u v Hu Hw'. destruct v as [|c v].
  - rewrite app_nil_r in Hw'; subst u. simpl app. by rewrite group_state.
  - simpl app. rewrite group_state; [by apply Hk|]. by rewrite Hr, Hw', <- app_assoc.
Qed.

(** Then a literal that starts outside the class. *)
Lemma m_group_lit i neg rs q l r w t k s :
  w <> [] -> Forall (fun c => in_class neg rs c = true) w -> rest s = w ++ t ->
  class_stops neg rs t -> in_class neg rs q = false ->
  m (RSeq (RGroup i (plus neg rs)) (RSeq (RLit (q :: l)) r)) k s
  = m (RSeq (RLit (q :: l)) r) k (captured i w t s).
Proof.
  intros Hne Hw Hr Ht Hq. change (m (RSeq ?a ?b) k s) with (m a (m b k) s).
  rewrite (m_group_run i neg rs w t); [done|done|done|done|done|].
  intros u c v Hw'. apply m_lit_None. cbn. destruct (N.eqb_spec q c) as [->|?]; [|done].
  rewrite Hw', Forall_app, Forall_cons in Hw. destruct Hw as (_ & Hc & _). congruence.
Qed.

(** Then the end. *)
Lemma m_group_eol i neg rs w k s :
  w <> [] -> Forall (fun c => in_class neg rs c = true) w -> rest s = w ->
  m (RSeq (RGroup i (plus neg rs)) REol) k s = k (captured i w [] s).
Proof.
  intros Hne Hw Hr. change (m (RSeq ?a ?b) k s) with (m a (m b k) s).
  by rewrite (m_group_run i neg rs w []) by (rewrite ?app_nil_r; done).
Qed.

(** A literal against a text that starts with it. *)
Lemma m_lit_app w r t k s :
  rest s = w ++ t -> m (RSeq (RLit w) r) k s = m r k (after w t s).
Proof.
  intros Hr. change (m (RSeq ?a ?b) k s) with (m a (m b k) s). apply m_lit.
  apply eat_Some. by exists t.
Qed.

Lemma m_backref i w r t k s :
  cap i (caps s) = Some w -> rest s = w ++ t ->
  m (RSeq (RBackref i) r) k s = m r k (after w t s).
Proof.
  intros Hc Hr. change (m (RSeq ?a ?b) k s) with (m a (m b k) s). simpl. rewrite Hc. simpl.
  by rewrite (proj2 (eat_Some w s _)) by (by exists t).
Qed.

(** Every unit of a match of a plain pattern satisfies what all its literals and classes do. *)
Fixpoint units_ok (P : N -> Prop) (r : regex) : Prop :=
  match r with
  | RLit w => Forall P w
  | RClass neg rs => forall c, in_class neg rs c = true -> P c
  | RSeq a b | RAlt a b => units_ok P a /\ units_ok P b
  | RStar _ a | RGroup _ a => units_ok P a
  | _ => True
  end.

Lemma lang_units P r w : units_ok P r -> lang r w -> Forall P w.
Proof.
  revert w; induction r as [|u|neg rs|a IHa b IHb|a IHa b IHb|g a IHa|i a IHa|i| | |];
    intros w Hok; simpl in *; try done.
  - by intros ->.
  - by intros ->.
  - intros (c & -> & Hc). auto.
  - intros (u & v & -> & Hu & Hv). apply Forall_app. naive_solver.
  - naive_solver.
  - intros (ws & -> & Hws). induction Hws as [|u ws [Hu _] _ IH]; simpl; [done|].
    apply Forall_app. auto.
Qed.

(** A group of alternative literals. *)
Lemma m_group_alt i a b r k s :
  m (RSeq (RGroup i (RAlt a b)) r) k s
  = or_else (m (RSeq (RGroup i a) r) k s) (m (RSeq (RGroup i b) r) k s).
Proof. reflexivity. Qed.

Lemma m_group_word i w r t k s :
  rest s = w ++ t -> m (RSeq (RGroup i (RLit w)) r) k s = m r k (captured i w t s).
Proof.
  intros Hr. change (m (RSeq (RGroup i (RLit w)) r) k s) with
    (m (RLit w) (fun s' => m r k (St (before s') (rest s')
       ((i, take (length (rest s) - length (rest s')) (rest s)) :: caps s'))) s).
  rewrite (m_lit _ _ _ (after w t s)) by (apply eat_Some; by exists t). by rewrite group_state.
Qed.

Lemma m_group_word_None i w r k s :
  eat w s = None -> m (RSeq (RGroup i (RLit w)) r) k s = None.
Proof. intros H. simpl. by rewrite H. Qed.

Lemma or_else_None_r {A} (x : option A) : or_else x None = x.
Proof. by destruct x. Qed.

(** Resolve a group of alternative words against a concrete text. *)
Ltac words :=
  rewrite ?m_group_alt;
  repeat first [rewrite m_group_word_None by reflexivity|erewrite m_group_word by reflexivity];
  cbn [or_else]; rewrite ?or_else_None_r.

(** ** The first match *)

Lemma find_from_first r bef s s0 s1 :
  find_from r bef s = Some (s0, s1) ->
  exists u v, s = u ++ v /\ s0 = St (reverse u ++ bef) v []
    /\ match_at r s0 = Some s1
    /\ (forall u1 u2, u = u1 ++ u2 -> u2 <> [] ->
          match_at r (St (reverse u1 ++ bef) (u2 ++ v) []) = None).
Proof.
  revert bef; induction s as [|c s IH]; intros bef; cbn [find_from].
  - destruct (match_at r (St bef [] [])) eqn:E; [|done]. intros [= <- <-].
    exists [], []. split; [done|]. split; [done|]. split; [done|]. by intros [|] [|].
  - destruct (match_at r (St bef (c :: s) [])) eqn:E.
    + intros [= <- <-]. exists [], (c :: s). split; [done|]. split; [done|]. split; [done|].
      by intros [|] [|].
    + intros H. destruct (IH _ H) as (u & v & -> & -> & Hm & Hf). exists (c :: u), v.
      split; [done|]. rewrite reverse_cons, <- app_assoc. split; [done|]. split; [done|].
      intros [|c1 u1] u2 Hu Hne; simplify_eq/=; [done|].
      rewrite reverse_cons, <- app_assoc. by apply Hf.
Qed.

Lemma find_from_fails r bef s :
  find_from r bef s = None -> match_at r (St bef s []) = None.
Proof. destruct s; cbn [find_from]; by destruct (match_at r _). Qed.

Lemma find_from_fails_at r bef u v :
  find_from r bef (u ++ v) = None -> match_at r (St (reverse u ++ bef) v []) = None.
Proof.
  revert bef; induction u as [|c u IH]; intros bef; [apply find_from_fails|].
  cbn [app find_from]. destruct (match_at r _); [done|]. intros H. apply IH in H.
  by rewrite reverse_cons, <- app_assoc.
Qed.

(** A plain pattern up to the end. *)
Lemma match_at_eol p b s :
  plain p = true -> match_at (RSeq p REol) (St b s []) <> None <-> lang p s.
Proof.
  intros Hp. split.
  - destruct (match_at _ _) as [x|] eqn:E; [|done]. intros _.
    apply match_at_den in E as (y & Hy & [Hr ->]).
    apply den_plain in Hy as (w & t & Hw & HL & ->); [|done].
    cbn in Hw, Hr. subst t. by rewrite app_nil_r in Hw; subst w.
  - intros HL. eapply (m_complete _ _ _ (after s [] (St b s []))); [|done].
    exists (after s [] (St b s [])). split; [|done].
    apply den_plain; [done|]. exists s, []. by rewrite app_nil_r.
Qed.

Lemma match_at_eol_rest p s s1 : match_at (RSeq p REol) s = Some s1 -> rest s1 = [].
Proof. intros (y & _ & [Hr ->])%match_at_den. done. Qed.

(** Runs of one literal unit. *)
Lemma lang_plus_unit c w :
  lang (RSeq (RLit [c]) (RStar true (RLit [c]))) w <-> w <> [] /\ Forall (fun x => x = c) w.
Proof.
  cbn. split.
  - intros (u & v & -> & -> & ws & -> & Hws). split; [done|]. constructor; [done|].
    induction Hws as [|x ws [-> _] _ IH]; simpl; [constructor|]. by constructor.
  - intros [Hne H]. destruct w as [|x w]; [done|]. apply Forall_cons in H as [-> H].
    exists [c], w. split; [done|]. split; [done|]. exists ((fun x => [x]) <$> w).
    clear Hne. induction H as [|x w -> _ [IH1 IH2]]; [by split|]. cbn. split; [by f_equal|].
    by constructor.
Qed.
