(* ===== verification/JsNumber.v ===== *)
(** * JavaScript numbers

    A number is an IEEE 754 binary64 value, [spec_float] with 53 bits of precision and
    maximal exponent 1024; arithmetic and comparison are the correctly rounded operations
    of the Standard Library's [SpecFloat].  Conversion from text rounds the exact decimal
    value once, and conversion to text searches the shortest digits that read back, as
    the language standard says. *)

From Stdlib Require Export SpecFloat.
From S2P Require Import Prelude JsString.

#[local] Open Scope Z_scope.

Abbreviation num := spec_float.

Definition prec : Z := 53.
Definition emax : Z := 1024.

#[export] Instance num_eq_dec : EqDecision num.
Proof. solve_decision. Defined.

Definition num_of_Z (z : Z) : num := binary_normalize prec emax z 0 false.
Definition NaN : num := S754_nan.
Definition zero : num := S754_zero false.

Definition nltb : num -> num -> bool := SFltb.
Definition nleb : num -> num -> bool := SFleb.

(** [x === y] on numbers: NaN differs from itself, the zeros are equal. *)
Definition neqb : num -> num -> bool := SFeqb.
Definition is_nan (x : num) : bool := match x with S754_nan => true | _ => false end.
Definition is_finite (x : num) : bool :=
  match x with S754_zero _ | S754_finite _ _ _ => true | _ => false end.

(** [Number.isInteger(x)] *)
Definition is_integer (x : num) : bool :=
  match x with
  | S754_zero _ => true
  | S754_finite _ m e => if (0 <=? e)%Z then true else (Z.pos m mod 2 ^ (- e) =? 0)%Z
  | _ => false
  end.

(** [Boolean(x)] *)
Definition truthy_num (x : num) : bool :=
  match x with S754_nan | S754_zero _ => false | _ => true end.

(** [x || 0] *)
Definition or_zero (x : num) : num := if truthy_num x then x else zero.

Lemma or_zero_idemp x : or_zero (or_zero x) = or_zero x.
Proof. unfold or_zero. by destruct (truthy_num x) eqn:E; [rewrite E|]. Qed.

(** ** Digits *)

Fixpoint digits_acc (fuel : nat) (n : N) (acc : jsstr) : jsstr :=
  match fuel with
  | O => acc
  | S f => let acc' := (48 + n mod 10)%N :: acc in
           if (n <? 10)%N then acc' else digits_acc f (n / 10)%N acc'
  end.

(** The decimal digits of [n]; the fuel is its bit length plus one. *)
Definition digits_of (n : N) : jsstr := digits_acc (S (N.to_nat (N.size n))) n [].

Definition digits_val (s : jsstr) : N := fold_left (fun a c => 10 * a + (c - 48))%N s 0%N.

Fixpoint scan_digits (s : jsstr) : jsstr * jsstr :=
  match s with
  | c :: t => if is_digit c then let '(d, r) := scan_digits t in (c :: d, r) else ([], s)
  | [] => ([], [])
  end.

(** ** Text to number *)

(** The exact value [m * 10^e], rounded once.  Beyond 400 decimal places the result is
    known (infinity or zero) and the power is not computed. *)
Definition dec_to_num (neg : bool) (m : N) (e : Z) : num :=
  match m with
  | N0 => S754_zero neg
  | Npos p =>
      let size := Z.of_nat (length (digits_of m)) + e in
      if 400 <? size then S754_infinity neg
      else if size <? -400 then S754_zero neg
      else match e with
           | Zneg q => SFdiv prec emax (S754_finite neg p 0)
                             (S754_finite false (10 ^ q) 0)
           | _ => binary_normalize prec emax (cond_Zopp neg (Zpos p * 10 ^ e)) 0 neg
           end
  end.

Definition exponent_sign (s : jsstr) : Z * jsstr :=
  match s with
  | 43%N :: u => (1, u)
  | 45%N :: u => (-1, u)
  | _ => (1, s)
  end.

(** An exponent part, if one is there: its value and the rest. *)
Definition scan_exponent (s : jsstr) : Z * jsstr :=
  match s with
  | c :: t =>
      if ((c =? 101) || (c =? 69))%N then
        let '(sg, u) := exponent_sign t in
        match scan_digits u with
        | ([], _) => (0, s)
        | (d, r) => (sg * Z.of_N (digits_val d), r)
        end
      else (0, s)
  | [] => (0, [])
  end.

(** An unsigned decimal literal at the start of [s]: mantissa, exponent, rest. *)
Definition scan_decimal (s : jsstr) : option (N * Z * jsstr) :=
  let '(i, r) := scan_digits s in
  let '(f, r') := match r with
                  | 46%N :: t => scan_digits t
                  | _ => ([], r)
                  end in
  match i ++ f with
  | [] => None
  | d => let '(x, r'') := scan_exponent r' in
         Some (digits_val d, x - Z.of_nat (length f), r'')
  end.

Definition scan_sign (s : jsstr) : bool * jsstr :=
  match s with
  | 43%N :: t => (false, t)
  | 45%N :: t => (true, t)
  | _ => (false, s)
  end.

(** The value of a digit of base at most 16. *)
Definition base_digit (base c : N) : option N :=
  let v := if is_digit c then Some (c - 48)%N
           else if ((97 <=? c) && (c <=? 102))%N then Some (c - 87)%N
           else if ((65 <=? c) && (c <=? 70))%N then Some (c - 55)%N
           else None in
  match v with Some d => if (d <? base)%N then v else None | None => None end.

Fixpoint based_val (base : N) (s : jsstr) (acc : N) : option N :=
  match s with
  | [] => Some acc
  | c :: t => match base_digit base c with
              | Some d => based_val base t (base * acc + d)%N
              | None => None
              end
  end.

(** [Number(s)] *)
Definition number_of_string (s : jsstr) : num :=
  match trim s with
  | [] => zero
  | 48%N :: x :: d :: t =>
      let base := if ((x =? 120) || (x =? 88))%N then 16%N
                  else if ((x =? 111) || (x =? 79))%N then 8%N
                  else if ((x =? 98) || (x =? 66))%N then 2%N else 0%N in
      if (base =? 0)%N then
        match scan_decimal (48%N :: x :: d :: t) with
        | Some (m, e, []) => dec_to_num false m e
        | _ => NaN
        end
      else match based_val base (d :: t) 0 with
           | Some v => num_of_Z (Z.of_N v)
           | None => NaN
           end
  | u =>
      let '(neg, v) := scan_sign u in
      if bool_decide (v = js "Infinity") then S754_infinity neg
      else match scan_decimal v with
           | Some (m, e, []) => dec_to_num neg m e
           | _ => NaN
           end
  end.

(** ** Number to text *)

(** [x] as a fraction of positive integers. *)
Definition num_frac (m : positive) (e : Z) : Z * Z :=
  match e with
  | Zneg q => (Zpos m, Z.pow 2 (Zpos q))
  | _ => (Zpos m * Z.pow 2 e, 1)
  end.

(** [p/q * 10^e] as a fraction. *)
Definition scale10 (p q e : Z) : Z * Z :=
  if 0 <=? e then (p * 10 ^ e, q) else (p, q * 10 ^ (- e)).

(** The least [n >= lo] with [p/q < 10^n], within the fuel. *)
Fixpoint decimal_places (fuel : nat) (p q lo : Z) : Z :=
  match fuel with
  | O => lo
  | S f => let '(a, b) := scale10 p q (- lo) in
           if a <? b then lo else decimal_places f p q (lo + 1)
  end.

(** [k] digits for [p/q], whose decimal point is after [n] digits: the closest, then the
    other neighbour, when it reads back as [x]. *)
Definition try_digits (x : num) (p q n k : Z) : option (N * Z) :=
  let '(a, b) := scale10 p q (k - n) in
  let s0 := a / b in
  let s1 := s0 + 1 in
  let up := (2 * a >? (2 * s0 + 1) * b) || ((2 * a =? (2 * s0 + 1) * b) && Z.odd s0) in
  let '(c1, c2) := if up then (s1, s0) else (s0, s1) in
  let ok s := bool_decide (dec_to_num false (Z.to_N s) (n - k) = x) in
  let norm s := if s =? 10 ^ k then (Z.to_N (10 ^ (k - 1)), n + 1) else (Z.to_N s, n) in
  if ok c1 then Some (norm c1) else if ok c2 then Some (norm c2) else None.

(** The least number of digits that reads back; 17 always suffice for binary64. *)
Fixpoint shortest_digits (fuel : nat) (x : num) (p q n k : Z) : N * Z :=
  match fuel with
  | O => (0%N, 0)
  | S f => match try_digits x p q n k with
           | Some r => r
           | None => shortest_digits f x p q n (k + 1)
           end
  end.

Definition zeros (n : Z) : jsstr := replicate (Z.to_nat n) 48%N.

Definition signed_exponent (e : Z) : jsstr :=
  if 0 <=? e then js "+" ++ digits_of (Z.to_N e) else js "-" ++ digits_of (Z.to_N (- e)).

(** The layout of [k] digits [ds] with the decimal point after [n] of them. *)
Definition layout (ds : jsstr) (n : Z) : jsstr :=
  let k := Z.of_nat (length ds) in
  if (k <=? n) && (n <=? 21) then ds ++ zeros (n - k)
  else if (0 <? n) && (n <=? 21)
       then take (Z.to_nat n) ds ++ js "." ++ drop (Z.to_nat n) ds
  else if (-6 <? n) && (n <=? 0) then js "0." ++ zeros (- n) ++ ds
  else match ds with
       | d :: [] => d :: js "e" ++ signed_exponent (n - 1)
       | d :: t => d :: js "." ++ t ++ js "e" ++ signed_exponent (n - 1)
       | [] => []
       end.

(** [String(x)] *)
Definition num_to_string (x : num) : jsstr :=
  match x with
  | S754_nan => js "NaN"
  | S754_zero _ => js "0"
  | S754_infinity neg => (if neg then js "-" else []) ++ js "Infinity"
  | S754_finite neg mant e =>
      let '(p, q) := num_frac mant e in
      let lo := (Zdigits2 (Zpos mant) + e) * 30103 / 100000 - 2 in
      let n := decimal_places 6 p q lo in
      let '(s, n') := shortest_digits 17 (S754_finite false mant e) p q n 1 in
      (if neg then js "-" else []) ++ layout (digits_of s) n'
  end.

(** ** Number functions of the language *)

(** [parseFloat(s)]: the number at the start of the text. *)
Definition parse_float (s : jsstr) : num :=
  let '(neg, u) := scan_sign (trim_start s) in
  if starts_with (js "Infinity") u then S754_infinity neg
  else match scan_decimal u with
       | Some (m, e, _) => dec_to_num neg m e
       | None => NaN
       end.

Definition nadd : num -> num -> num := SFadd prec emax.
Definition nsub : num -> num -> num := SFsub prec emax.
Definition nmul : num -> num -> num := SFmul prec emax.
Definition ndiv : num -> num -> num := SFdiv prec emax.
Definition math_abs : num -> num := SFabs.
Definition nneg : num -> num := SFopp.

(** [Math.max(x, y)] of numbers that are not NaN and not both zero. *)
Definition math_max (x y : num) : num := if nltb x y then y else x.

(** [Math.round(x)]: the closest integer, the greater one of two. *)
Definition math_round (x : num) : num :=
  match x with
  | S754_finite neg m e =>
      let v := cond_Zopp neg (Zpos m) in
      let z := match e with
               | Zneg q => (2 * v + 2 ^ Zpos q) / (2 * 2 ^ Zpos q)
               | _ => v * 2 ^ e
               end in
      if z =? 0 then S754_zero neg else num_of_Z z
  | _ => x
  end.

(** [x % y] for finite numbers, [y] not zero: exact, with the sign of [x]. *)
Definition nrem (x y : num) : num :=
  match x, y with
  | S754_finite s m1 e1, S754_finite _ m2 e2 =>
      let e := Z.min e1 e2 in
      let r := (Zpos m1 * 2 ^ (e1 - e)) mod (Zpos m2 * 2 ^ (e2 - e)) in
      binary_normalize prec emax (cond_Zopp s r) e s
  | S754_zero _, S754_finite _ _ _ => x
  | S754_finite _ _ _, S754_infinity _ | S754_zero _, S754_infinity _ => x
  | _, _ => NaN
  end.

(** [Math.floor(x)] *)
Definition math_floor (x : num) : num :=
  match x with
  | S754_finite neg m e =>
      let v := cond_Zopp neg (Zpos m) in
      num_of_Z (match e with Zneg q => v / 2 ^ Zpos q | _ => v * 2 ^ e end)
  | _ => x
  end.

(** [x.toFixed(d)] *)
Definition to_fixed (d : nat) (x : num) : jsstr :=
  match x with
  | S754_finite neg m e =>
      let '(p, q) := num_frac m e in
      if 10 ^ 21 * q <=? p then num_to_string x
      else
        let n := (2 * p * 10 ^ Z.of_nat d + q) / (2 * q) in
        let ds := digits_of (Z.to_N n) in
        let ds' := replicate (S d - length ds) 48%N ++ ds in
        let k := (length ds' - d)%nat in
        (if neg then js "-" else [])
        ++ match d with O => ds | _ => take k ds' ++ js "." ++ drop k ds' end
  | S754_zero _ => match d with O => js "0" | _ => js "0." ++ replicate d 48%N end
  | _ => num_to_string x
  end.

(** ** Lemmas: decimal digits of integers *)

Lemma digits_acc_app fuel n acc : digits_acc fuel n acc = digits_acc fuel n [] ++ acc.
Proof.
  revert n acc; induction fuel as [|f IH]; intros n acc; simpl; [done|].
  destruct (n <? 10)%N; [done|]. rewrite IH, (IH _ [_]), <- app_assoc. done.
Qed.

Lemma digits_val_app s t :
  digits_val (s ++ t) = fold_left (fun a c => 10 * a + (c - 48))%N t (digits_val s).
Proof. apply fold_left_app. Qed.

Lemma digits_acc_spec fuel n :
  (n < 2 ^ N.of_nat fuel)%N ->
  digits_val (digits_acc (S fuel) n []) = n
  /\ Forall (fun c => is_digit c = true) (digits_acc (S fuel) n []).
Proof.
  revert n; induction fuel as [|f IH]; intros n Hn.
  { assert (n = 0%N) as -> by (simpl in Hn; lia). by repeat constructor. }
  assert (Hm : (n mod 10 < 10)%N) by (apply N.mod_lt; lia).
  assert (Hd : is_digit (48 + n mod 10) = true).
  { unfold is_digit. revert Hm; generalize (n mod 10)%N; intros x Hm.
    apply andb_true_iff; split; apply N.leb_le; lia. }
  remember (S f) as g eqn:Hg. cbn [digits_acc]. subst g.
  destruct (n <? 10)%N eqn:E.
  { apply N.ltb_lt in E. rewrite N.mod_small in * by done.
    split; [unfold digits_val; simpl; lia|by repeat constructor]. }
  apply N.ltb_ge in E. rewrite digits_acc_app.
  assert (Hq : (n / 10 < 2 ^ N.of_nat f)%N).
  { apply N.Div0.div_lt_upper_bound.
    rewrite Nat2N.inj_succ, N.pow_succ_r in Hn by lia. lia. }
  destruct (IH _ Hq) as [IH1 IH2]. split.
  - rewrite digits_val_app, IH1. cbn [fold_left].
    pose proof (N.div_mod n 10 ltac:(lia)) as Hdm. revert Hm Hdm.
    generalize (n mod 10)%N (n / 10)%N; intros; lia.
  - apply Forall_app; split; [done|]. by repeat constructor.
Qed.

Lemma digits_fuel n : (n < 2 ^ N.of_nat (N.to_nat (N.size n)))%N.
Proof. rewrite N2Nat.id. apply N.size_gt. Qed.

Lemma digits_val_of n : digits_val (digits_of n) = n.
Proof. apply digits_acc_spec, digits_fuel. Qed.

Lemma digits_of_digits n : Forall (fun c => is_digit c = true) (digits_of n).
Proof. apply digits_acc_spec, digits_fuel. Qed.

Lemma digits_of_not_nil n : digits_of n <> [].
Proof.
  unfold digits_of; simpl. case_match; [done|]. rewrite digits_acc_app.
  intros [_ ?]%app_eq_nil; done.
Qed.

Lemma digit_not_ws c : is_digit c = true -> is_ws c = false.
Proof.
  unfold is_digit, is_ws. intros; bool_hyps.
  repeat (apply orb_false_iff; split); try (apply N.eqb_neq; lia);
    apply andb_false_iff; rewrite !N.leb_gt; lia.
Qed.

#[export] Hint Resolve digits_of_digits digits_of_not_nil digit_not_ws : js.
#[export] Hint Rewrite digits_val_of : js.
