(* ===== verification/JsValue.v ===== *)
(** * JavaScript values and objects used as records

    [jsval] is the value a JSON text denotes, with [undefined].  An object is the list of
    its own properties in the order the language enumerates them: canonical array indices
    in ascending order, then the other keys in insertion order.  Properties inherited from
    [Object.prototype] are not represented. *)

From stdpp Require Import sorting.
From S2P Require Import Prelude JsString JsNumber.

#[local] Open Scope N_scope.

Inductive jsval :=
| VUndef
| VNull
| VBool (b : bool)
| VNum (n : num)
| VStr (s : jsstr)
| VArr (l : list jsval)
| VObj (o : list (jsstr * jsval)).

Abbreviation obj := (list (jsstr * jsval)).

Section JsvalInd.
Variable P : jsval -> Prop.
Hypothesis Hundef : P VUndef.
Hypothesis Hnull : P VNull.
Hypothesis Hbool : forall b, P (VBool b).
Hypothesis Hnum : forall n, P (VNum n).
Hypothesis Hstr : forall s, P (VStr s).
Hypothesis Harr : forall l, Forall P l -> P (VArr l).
Hypothesis Hobj : forall o, Forall (fun kv => P (snd kv)) o -> P (VObj o).

Fixpoint jsval_ind' (v : jsval) : P v :=
  match v with
  | VUndef => Hundef
  | VNull => Hnull
  | VBool b => Hbool b
  | VNum n => Hnum n
  | VStr s => Hstr s
  | VArr l =>
      Harr l ((fix go (l : list jsval) : Forall P l :=
                 match l with
                 | [] => Forall_nil_2 _
                 | x :: t => Forall_cons_2 _ _ _ (jsval_ind' x) (go t)
                 end) l)
  | VObj o =>
      Hobj o ((fix go (o : obj) : Forall (fun kv => P (snd kv)) o :=
                 match o with
                 | [] => Forall_nil_2 _
                 | kv :: t => Forall_cons_2 _ _ _ (jsval_ind' (snd kv)) (go t)
                 end) o)
  end.
End JsvalInd.

(** ** Objects *)

(** The array index a property key denotes, if it is one. *)
Definition index_key (k : jsstr) : option N :=
  match k with
  | [] => None
  | c :: t =>
      if forallb is_digit k && (negb (c =? 48) || match t with [] => true | _ => false end)
         && (digits_val k <? 4294967295)
      then Some (digits_val k) else None
  end.

(** [o[k]] on own properties. *)
Fixpoint oget (k : jsstr) (o : obj) : option jsval :=
  match o with
  | [] => None
  | (j, v) :: t => if bool_decide (j = k) then Some v else oget k t
  end.

(** A new property takes its place in the enumeration order. *)
Fixpoint oinsert (k : jsstr) (v : jsval) (o : obj) : obj :=
  match o with
  | [] => [(k, v)]
  | (j, w) :: t =>
      let before := match index_key k, index_key j with
                    | Some a, Some b => a <? b
                    | Some _, None => true
                    | None, _ => false
                    end in
      if before then (k, v) :: o else (j, w) :: oinsert k v t
  end.

Fixpoint oreplace (k : jsstr) (v : jsval) (o : obj) : obj :=
  match o with
  | [] => []
  | (j, w) :: t => if bool_decide (j = k) then (k, v) :: t else (j, w) :: oreplace k v t
  end.

(** [o[k] = v] for a key other than [__proto__]. *)
Definition oset (k : jsstr) (v : jsval) (o : obj) : obj :=
  match oget k o with Some _ => oreplace k v o | None => oinsert k v o end.

(** [delete o[k]] *)
Definition odel (k : jsstr) (o : obj) : obj :=
  filterb (fun kv => negb (bool_decide (fst kv = k))) o.

(** [k in o] on own properties. *)
Definition ohas (k : jsstr) (o : obj) : bool :=
  match oget k o with Some _ => true | None => false end.

(** [{...o, ...p}] *)
Definition ospread (o p : obj) : obj := fold_left (fun a kv => oset (fst kv) (snd kv) a) p o.

(** The object with the given properties, defined one after the other. *)
Definition obj_of (p : obj) : obj := ospread [] p.

Definition okeys (o : obj) : list jsstr := fst <$> o.
Definition ovalues (o : obj) : list jsval := snd <$> o.

(** The own enumerable properties of a value, as [Object.entries] and a spread see them. *)
Definition entries_of (v : jsval) : obj :=
  match v with
  | VObj o => o
  | VArr l => imap (fun i x => (digits_of (N.of_nat i), x)) l
  | VStr s => imap (fun i c => (digits_of (N.of_nat i), VStr [c])) s
  | _ => []
  end.

(** [v.k] where [v] is known not to be null or undefined. *)
Definition prop (k : jsstr) (v : jsval) : jsval :=
  match v with VObj o => default VUndef (oget k o) | _ => VUndef end.

(** ** Conversions and tests *)

(** A property of an object. *)
Definition at_ (k : jsstr) (o : obj) : jsval := default VUndef (oget k o).

Definition truthy (v : jsval) : bool :=
  match v with
  | VUndef | VNull => false
  | VBool b => b
  | VNum n => truthy_num n
  | VStr s => truthy_str s
  | VArr _ | VObj _ => true
  end.

(** [v == null] *)
Definition nullish (v : jsval) : bool :=
  match v with VUndef | VNull => true | _ => false end.

(** [a || b] and [a ?? b] *)
Definition vor (a b : jsval) : jsval := if truthy a then a else b.
Definition vnullish (a b : jsval) : jsval := if nullish a then b else a.

(** [v === s] for a string [s], [v === true], [v === false]. *)
Definition is_str (s : jsstr) (v : jsval) : bool :=
  match v with VStr t => bool_decide (t = s) | _ => false end.
Definition is_true (v : jsval) : bool := match v with VBool true => true | _ => false end.
Definition is_false (v : jsval) : bool := match v with VBool false => true | _ => false end.
Definition is_string (v : jsval) : bool := match v with VStr _ => true | _ => false end.
Definition is_number (v : jsval) : bool := match v with VNum _ => true | _ => false end.
Definition is_boolean (v : jsval) : bool := match v with VBool _ => true | _ => false end.
Definition is_array (v : jsval) : bool := match v with VArr _ => true | _ => false end.
Definition is_undef (v : jsval) : bool := match v with VUndef => true | _ => false end.

(** [typeof v === 'object' && v !== null && !Array.isArray(v)] *)
Definition is_record (v : jsval) : bool := match v with VObj _ => true | _ => false end.

(** [String(v)] *)
Fixpoint to_string (v : jsval) : jsstr :=
  match v with
  | VUndef => js "undefined"
  | VNull => js "null"
  | VBool true => js "true"
  | VBool false => js "false"
  | VNum n => num_to_string n
  | VStr s => s
  | VArr l => join (js ",")
                (List.map (fun x => if nullish x then [] else to_string x) l)
  | VObj _ => js "[object Object]"
  end.

(** [Number(v)] *)
Definition to_number (v : jsval) : num :=
  match v with
  | VUndef => NaN
  | VNull => zero
  | VBool b => num_of_Z (if b then 1 else 0)%Z
  | VNum n => n
  | VStr s => number_of_string s
  | VArr _ | VObj _ => number_of_string (to_string v)
  end.

(** ** Lemmas: objects *)

Lemma oget_oreplace k j v o :
  oget k (oreplace j v o)
  = if bool_decide (k = j) then (if ohas j o then Some v else None) else oget k o.
Proof.
  unfold ohas. induction o as [|[i w] o IH]; simpl; [by case_bool_decide|].
  destruct (bool_decide (i = j)) eqn:E; bool_hyps; simpl.
  - subst. repeat case_bool_decide; by simplify_eq.
  - rewrite IH. destruct (bool_decide (k = j)) eqn:E2; bool_hyps; [|done].
    subst. by rewrite bool_decide_eq_false_2.
Qed.

Lemma oget_oinsert k j v o :
  oget j o = None ->
  oget k (oinsert j v o) = if bool_decide (k = j) then Some v else oget k o.
Proof.
  induction o as [|[i w] o IH]; simpl.
  { intros _. do 2 case_bool_decide; by simplify_eq. }
  destruct (bool_decide (i = j)) eqn:E; bool_hyps; [done|]. intros Ho.
  specialize (IH Ho). set (lt := match index_key j with Some _ => _ | None => _ end).
  destruct lt; simpl.
  - destruct (bool_decide (j = k)) eqn:E1; bool_hyps; subst;
      [by rewrite bool_decide_eq_true_2|by rewrite (bool_decide_eq_false_2 (k = j)) by done].
  - rewrite IH. destruct (bool_decide (i = k)) eqn:E1; bool_hyps; subst; [|done].
    by rewrite bool_decide_eq_false_2.
Qed.

(** Reading after writing. *)
Lemma oget_oset k j v o :
  oget k (oset j v o) = if bool_decide (k = j) then Some v else oget k o.
Proof.
  unfold oset. destruct (oget j o) eqn:E.
  - rewrite oget_oreplace. unfold ohas. by rewrite E.
  - by apply oget_oinsert.
Qed.

Lemma oget_oset_eq k v o : oget k (oset k v o) = Some v.
Proof. by rewrite oget_oset, bool_decide_eq_true_2. Qed.

Lemma oget_oset_ne k j v o : k <> j -> oget k (oset j v o) = oget k o.
Proof. intros. by rewrite oget_oset, bool_decide_eq_false_2. Qed.

Lemma oget_odel k j o :
  oget k (odel j o) = if bool_decide (k = j) then None else oget k o.
Proof.
  unfold odel. induction o as [|[i w] o IH]; simpl; [by case_bool_decide|].
  destruct (bool_decide (i = j)) eqn:E; bool_hyps; simpl; rewrite IH.
  - subst. repeat case_bool_decide; by simplify_eq.
  - repeat case_bool_decide; by simplify_eq.
Qed.

Lemma oget_Some_elem k v o : oget k o = Some v -> (k, v) ∈ o.
Proof.
  induction o as [|[j w] o IH]; simpl; [done|].
  case_bool_decide; intros; simplify_eq; [apply list_elem_of_here|].
  apply list_elem_of_further. auto.
Qed.

Lemma ohas_okeys k o : ohas k o = true <-> k ∈ okeys o.
Proof.
  unfold ohas, okeys. induction o as [|[j w] o IH]; simpl.
  - split; [done|]. intros []%not_elem_of_nil.
  - rewrite elem_of_cons. case_bool_decide; subst; [naive_solver|].
    rewrite IH. naive_solver.
Qed.

(** Reading a property of a spread: the right object wins. *)
Lemma oget_ospread k o p :
  oget k (ospread o p) = match oget k (reverse p) with Some v => Some v | None => oget k o end.
Proof.
  unfold ospread. revert o; induction p as [|[j w] p IH]; intros o; simpl; [done|].
  rewrite IH, reverse_cons.
  assert (H : forall q, oget k (q ++ [(j, w)])
              = match oget k q with Some v => Some v
                | None => if bool_decide (j = k) then Some w else None end).
  { clear IH. induction q as [|[i x] q IHq]; simpl; [done|].
    rewrite IHq. by destruct (bool_decide (i = k)). }
  rewrite H, oget_oset. destruct (oget k (reverse p)); [done|].
  repeat case_bool_decide; by simplify_eq.
Qed.

Lemma ohas_oset k j v o : ohas k (oset j v o) = bool_decide (k = j) || ohas k o.
Proof. unfold ohas. rewrite oget_oset. by case_bool_decide. Qed.

Lemma ohas_odel k j o : ohas k (odel j o) = negb (bool_decide (k = j)) && ohas k o.
Proof. unfold ohas. rewrite oget_odel. by case_bool_decide. Qed.

#[export] Hint Rewrite oget_oset oget_odel ohas_oset ohas_odel : obj.

(** ** Canonical objects

    Every object the language builds has distinct keys in enumeration order. *)

Definition key_before (k j : jsstr) : bool :=
  match index_key k, index_key j with
  | Some a, Some b => a <? b
  | Some _, None => true
  | None, _ => false
  end.

Definition canonical (o : obj) : Prop :=
  NoDup (okeys o) /\ StronglySorted (fun a b => key_before b a = false) (okeys o).

Lemma oget_None_okeys k o : oget k o = None <-> k ∉ okeys o.
Proof.
  rewrite <- ohas_okeys. unfold ohas. destruct (oget k o); split; congruence.
Qed.

Lemma okeys_oreplace k v o : okeys (oreplace k v o) = okeys o.
Proof.
  unfold okeys. induction o as [|[j w] o IH]; simpl; [done|].
  case_bool_decide; simpl; subst; by f_equal.
Qed.

Lemma elem_of_okeys_oinsert x k v o : x ∈ okeys (oinsert k v o) <-> x = k \/ x ∈ okeys o.
Proof.
  unfold okeys. induction o as [|[j w] o IH]; simpl.
  { rewrite list_elem_of_singleton. set_solver. }
  fold (key_before k j). destruct (key_before k j); simpl; rewrite !elem_of_cons;
    [naive_solver|]. rewrite IH. naive_solver.
Qed.

Lemma key_before_trans k j x :
  key_before k j = true -> key_before x j = false -> key_before x k = false.
Proof.
  unfold key_before. destruct (index_key k), (index_key j), (index_key x);
    try done; intros; bool_hyps; rewrite ?N.ltb_ge; lia.
Qed.

Lemma canonical_oinsert k v o :
  oget k o = None -> canonical o -> canonical (oinsert k v o).
Proof.
  rewrite oget_None_okeys. intros Hk [Hnd Hs]. split.
  - revert Hk Hnd. clear. unfold okeys. induction o as [|[j w] o IH]; simpl.
    { intros. apply NoDup_singleton. }
    intros Hk Hnd. fold (key_before k j). destruct (key_before k j); simpl.
    + apply NoDup_cons; split; [done|done].
    + apply NoDup_cons in Hnd as [Hj Hnd]. apply not_elem_of_cons in Hk as [? Hk].
      apply NoDup_cons; split; [|by apply IH].
      rewrite (elem_of_okeys_oinsert j k v o). naive_solver.
  - clear Hk Hnd. unfold okeys in *. induction o as [|[j w] o IH]; simpl.
    { repeat constructor. }
    simpl in Hs. inversion Hs as [|? ? Hs' Hall]; subst.
    fold (key_before k j). destruct (key_before k j) eqn:E; simpl.
    + constructor; [done|]. constructor.
      * unfold key_before in *. destruct (index_key k), (index_key j); try done.
        bool_hyps. apply N.ltb_ge. lia.
      * eapply Forall_impl; [exact Hall|]. intros x Hx. by eapply key_before_trans.
    + constructor; [by apply IH|]. apply Forall_forall. intros x Hx.
      apply (elem_of_okeys_oinsert x k v o) in Hx as [->|Hx]; [done|].
      by eapply Forall_forall in Hall.
Qed.

Lemma canonical_nil : canonical [].
Proof. split; constructor. Qed.

Lemma canonical_oset k v o : canonical o -> canonical (oset k v o).
Proof.
  intros H. unfold oset. destruct (oget k o) eqn:E.
  - unfold canonical. by rewrite okeys_oreplace.
  - by apply canonical_oinsert.
Qed.

Lemma canonical_ospread o p : canonical o -> canonical (ospread o p).
Proof.
  unfold ospread. revert o; induction p as [|[k v] p IH]; intros o H; simpl; [done|].
  apply IH. by apply canonical_oset.
Qed.

Lemma canonical_obj_of p : canonical (obj_of p).
Proof. apply canonical_ospread, canonical_nil. Qed.

Lemma StronglySorted_sublist {A} (R : A -> A -> Prop) l k :
  l `sublist_of` k -> StronglySorted R k -> StronglySorted R l.
Proof.
  induction 1 as [|x l k Hs IH|x l k Hs IH]; intros Hk; [constructor| |].
  - inversion Hk; subst. constructor; [by apply IH|].
    rewrite Forall_forall in *. intros y Hy. eapply H2. by eapply sublist_in.
  - inversion Hk; subst. by apply IH.
Qed.

Lemma okeys_odel k o : okeys (odel k o) `sublist_of` okeys o.
Proof. apply (sublist_map fst), filterb_sublist. Qed.

Lemma okeys_odel_eq k o : okeys (odel k o) = filterb (fun j => negb (bool_decide (j = k))) (okeys o).
Proof.
  unfold odel, okeys. induction o as [|[j w] o IH]; [done|].
  cbn [filterb fmap list_fmap fst]. case_bool_decide; cbn [negb fmap list_fmap fst]; by rewrite IH.
Qed.

Lemma canonical_odel k o : canonical o -> canonical (odel k o).
Proof.
  intros [H1 H2]. split.
  - by eapply sublist_no_dup; [apply okeys_odel|].
  - eapply StronglySorted_sublist; [apply okeys_odel|done].
Qed.

Lemma oinsert_last k v o :
  (forall j, j ∈ okeys o -> key_before k j = false) -> oinsert k v o = o ++ [(k, v)].
Proof.
  unfold okeys. induction o as [|[j w] o IH]; simpl; intros H; [done|].
  fold (key_before k j). rewrite (H j) by set_solver. f_equal. apply IH. set_solver.
Qed.

(** Rebuilding a canonical object property by property gives it back. *)
Lemma obj_of_canonical o : canonical o -> obj_of o = o.
Proof.
  unfold obj_of, ospread. intros [Hnd Hs].
  enough (H : forall done todo, done ++ todo = o ->
            fold_left (fun a kv => oset (fst kv) (snd kv) a) todo done = o).
  { by apply (H [] o). }
  intros d t; revert d; induction t as [|[k v] t IH]; intros d E; simpl.
  { by rewrite app_nil_r in E. }
  assert (Hd : oset k v d = d ++ [(k, v)]).
  { unfold oset. subst o. unfold okeys in *. rewrite fmap_app in *; simpl in *.
    assert (Hk : k ∉ okeys d).
    { apply NoDup_app in Hnd as (_ & Hnd & _). intros Hin. by eapply Hnd; [|apply list_elem_of_here]. }
    rewrite (proj2 (oget_None_okeys k d) Hk). apply oinsert_last.
    intros j Hj. apply StronglySorted_app_1_elem_of with (x1 := j) (x2 := k) in Hs; [done|done|].
    apply list_elem_of_here. }
  rewrite Hd. apply IH. by rewrite <- app_assoc.
Qed.

#[export] Hint Resolve canonical_nil canonical_oset canonical_ospread canonical_obj_of
  canonical_odel : js.

Lemma at_oget k o : at_ k o = default VUndef (oget k o).
Proof. reflexivity. Qed.

(** ** Reading an object whose keys are distinct *)

Lemma oget_app k o p :
  oget k (o ++ p) = match oget k o with Some v => Some v | None => oget k p end.
Proof. induction o as [|[j w] o IH]; simpl; [done|]. by case_bool_decide. Qed.

Lemma oget_reverse k o : NoDup (okeys o) -> oget k (reverse o) = oget k o.
Proof.
  induction o as [|[j w] o IH]; intros Hnd; [done|].
  cbn [okeys fmap list_fmap fst] in Hnd. apply NoDup_cons in Hnd as [Hj Hnd].
  rewrite reverse_cons, oget_app, IH by done. simpl. case_bool_decide; subst.
  - apply oget_None_okeys in Hj. by rewrite Hj.
  - by destruct (oget k o).
Qed.

Lemma oget_elem k v o : NoDup (okeys o) -> (k, v) ∈ o -> oget k o = Some v.
Proof.
  intros Hnd Hin. induction o as [|[j w] o IH]; [by apply not_elem_of_nil in Hin|].
  cbn [okeys fmap list_fmap fst] in Hnd. apply NoDup_cons in Hnd as [Hj Hnd]. cbn [oget].
  apply elem_of_cons in Hin as [[= -> ->]|Hin]; [by rewrite bool_decide_eq_true_2|].
  rewrite bool_decide_eq_false_2; [by apply IH|]. intros ->. apply Hj.
  apply list_elem_of_fmap. by exists (k, v).
Qed.

Lemma oget_canonical_elem k v o : canonical o -> (k, v) ∈ o -> oget k o = Some v.
Proof. intros [Hnd _]. by apply oget_elem. Qed.

(** A spread of an object of the language. *)
Lemma oget_spread k o p :
  canonical p -> oget k (ospread o p) = match oget k p with Some v => Some v | None => oget k o end.
Proof. intros [Hnd _]. by rewrite oget_ospread, oget_reverse. Qed.

Lemma oget_obj_of k p : NoDup (okeys p) -> oget k (obj_of p) = oget k p.
Proof. intros H. unfold obj_of. rewrite oget_ospread, oget_reverse by done. by destruct (oget k p). Qed.

(** Entries computed from their keys. *)
Lemma oget_map k (g : jsstr -> jsval) ks :
  oget k ((fun j => (j, g j)) <$> ks) = if bool_decide (k ∈ ks) then Some (g k) else None.
Proof.
  induction ks as [|j ks IH]; [done|]. cbn [fmap list_fmap oget].
  destruct (decide (j = k)) as [->|Hne].
  - rewrite bool_decide_eq_true_2 by done. by rewrite bool_decide_eq_true_2 by set_solver.
  - rewrite bool_decide_eq_false_2 by done. etransitivity; [exact IH|].
    erewrite bool_decide_ext; [reflexivity|]. set_solver.
Qed.

(** Decide the comparisons of constant keys. *)
Ltac key_calc :=
  repeat match goal with
  | |- context [bool_decide (js ?a = js ?b)] =>
      let r := eval vm_compute in (bool_decide (js a = js b)) in
      let H := fresh in
      assert (H : bool_decide (js a = js b) = r) by (vm_cast_no_check (eq_refl r));
      rewrite H; clear H
  end; cbn match.

(** Solve [k <> j] for constant keys, and for a key outside a list that has [j]. *)
Ltac key_ne := first [ done | by vm_compute | (intros ->; set_solver) ].

(** ** Objects with the same properties *)

(** Their order is only seen in a text made from them. *)
Definition obj_eq (o p : obj) : Prop := forall k, oget k o = oget k p.

#[export] Instance obj_eq_equivalence : Equivalence obj_eq.
Proof.
  split.
  - by intros o k.
  - intros o p H k. by rewrite H.
  - intros o p q H1 H2 k. by rewrite H1, H2.
Qed.

#[export] Instance at_proper k : Proper (obj_eq ==> eq) (at_ k).
Proof. intros o p H. by rewrite !at_oget, H. Qed.

#[export] Instance oset_proper k v : Proper (obj_eq ==> obj_eq) (oset k v).
Proof. intros o p H j. by rewrite !oget_oset, H. Qed.

(** A stored object that has the default keys hides the defaults. *)
Lemma spread_over_defaults d o :
  canonical o -> (forall k, ohas k d = true -> ohas k o = true) -> obj_eq (ospread d o) o.
Proof.
  intros Ho Hd k. rewrite oget_spread by done. destruct (oget k o) eqn:E; [done|].
  specialize (Hd k). unfold ohas in Hd. rewrite E in Hd.
  destruct (oget k d); [by specialize (Hd eq_refl)|done].
Qed.

Lemma has_defaults d o k : ohas k d = true -> ohas k (ospread d o) = true.
Proof.
  unfold ohas. rewrite oget_ospread. by destruct (oget k (reverse o)).
Qed.

Lemma Forall_oset (P : jsstr * jsval -> Prop) k v o :
  P (k, v) -> Forall P o -> Forall P (oset k v o).
Proof.
  intros Hv Ho. unfold oset. destruct (oget k o) as [u|].
  - induction Ho as [|[j w] o Hw Ho IH]; [constructor|]. cbn [oreplace].
    case_bool_decide; subst; by constructor.
  - induction Ho as [|[j w] o Hw Ho IH]; [by constructor|]. cbn [oinsert].
    fold (key_before k j). destruct (key_before k j); by repeat constructor.
Qed.

Lemma Forall_ospread (P : jsstr * jsval -> Prop) o p :
  Forall P o -> Forall P p -> Forall P (ospread o p).
Proof.
  intros Ho Hp. unfold ospread. revert o Ho; induction Hp as [|[k v] p Hv Hp IH]; intros o Ho;
    [done|]. apply IH. by apply Forall_oset.
Qed.

(** ** Building an object from the entries of another

    A loop over entries with distinct keys, each turn of which changes the property of its
    own key only, is known property by property. *)
Lemma oget_fold (step : obj -> jsstr * jsval -> obj)
    (g : jsstr -> jsval -> option jsval -> option jsval) es r :
  (forall r k v j, oget j (step r (k, v)) = if bool_decide (j = k) then g k v (oget k r) else oget j r) ->
  NoDup (okeys es) ->
  forall j, oget j (fold_left step es r)
            = match oget j es with Some v => g j v (oget j r) | None => oget j r end.
Proof.
  intros Hstep. revert r; induction es as [|[k v] es IH]; intros r Hnd j; [done|].
  cbn [okeys fmap list_fmap fst] in Hnd. apply NoDup_cons in Hnd as [Hk Hnd].
  cbn [fold_left oget]. rewrite IH by done. rewrite Hstep. destruct (decide (k = j)) as [->|Hne].
  - apply oget_None_okeys in Hk. rewrite Hk. by rewrite !bool_decide_eq_true_2.
  - by rewrite !bool_decide_eq_false_2 by congruence.
Qed.

(** An invariant of such a loop. *)
Lemma fold_invariant {A B} (P : A -> Prop) (step : A -> B -> A) es r :
  P r -> (forall r e, e ∈ es -> P r -> P (step r e)) -> P (fold_left step es r).
Proof.
  revert r; induction es as [|e es IH]; intros r Hr H; [done|]. cbn [fold_left].
  apply IH; [apply H; [apply list_elem_of_here|done]|].
  intros r' e' He. apply H. by apply list_elem_of_further.
Qed.
