(* ===== verification/JsJson.v ===== *)
(** * JSON.parse and JSON.stringify

    Both functions of the language, on the values of [JsValue], with the round trip
    theorem the modelled files rely on when they store and reload data. *)

From S2P Require Import Prelude JsString JsNumber JsValue.

#[local] Open Scope N_scope.

(** ** Printing *)

Definition hex_digit (n : N) : N := if n <? 10 then 48 + n else 87 + n.

Definition unicode_escape (c : N) : jsstr :=
  [92; 117; hex_digit (c / 4096 mod 16); hex_digit (c / 256 mod 16);
   hex_digit (c / 16 mod 16); hex_digit (c mod 16)].

Definition is_high (c : N) : bool := (55296 <=? c) && (c <=? 56319).
Definition is_low (c : N) : bool := (56320 <=? c) && (c <=? 57343).

(** One unit that is not part of a surrogate pair. *)
Definition quote_unit (c : N) : jsstr :=
  if c =? 34 then [92; 34]
  else if c =? 92 then [92; 92]
  else if c =? 8 then [92; 98]
  else if c =? 9 then [92; 116]
  else if c =? 10 then [92; 110]
  else if c =? 12 then [92; 102]
  else if c =? 13 then [92; 114]
  else if (c <? 32) || is_high c || is_low c then unicode_escape c
  else [c].

Fixpoint quote_units (s : jsstr) : jsstr :=
  match s with
  | [] => []
  | c :: t =>
      match t with
      | d :: t' => if is_high c && is_low d then c :: d :: quote_units t'
                   else quote_unit c ++ quote_units t
      | [] => quote_unit c
      end
  end.

(** [JSON.stringify] of a string *)
Definition quote (s : jsstr) : jsstr := 34 :: quote_units s ++ [34].

(** [JSON.stringify] of a value that is not undefined. *)
Fixpoint ser (v : jsval) : jsstr :=
  match v with
  | VUndef | VNull => js "null"
  | VBool b => if b then js "true" else js "false"
  | VNum n => if is_finite n then num_to_string n else js "null"
  | VStr s => quote s
  | VArr l => js "[" ++ join (js ",") (List.map ser l) ++ js "]"
  | VObj o =>
      js "{" ++ join (js ",")
        (omap id (List.map (fun '(k, x) => if is_undef x then None
                                           else Some (quote k ++ js ":" ++ ser x)) o))
      ++ js "}"
  end.

(** ** Layouts

    [JSON.stringify(v, null, 2)] breaks lines and indents; the compact text is the layout
    without breaks.  [brk d] is what separates the items of an array or object at depth [d],
    [mid] what follows the colon of a member. *)
Record layout := Layout { brk : nat -> jsstr; mid : jsstr }.

Definition compact : layout := Layout (fun _ => []) [].
Definition indented : layout := Layout (fun d => 10 :: replicate (2 * d) 32) [32].

Definition bracket (L : layout) (d : nat) (l r : N) (items : list jsstr) : jsstr :=
  match items with
  | [] => [l; r]
  | _ => l :: brk L (S d) ++ join (44 :: brk L (S d)) items ++ brk L d ++ [r]
  end.

Fixpoint print (L : layout) (d : nat) (v : jsval) : jsstr :=
  match v with
  | VArr l => bracket L d 91 93 (List.map (print L (S d)) l)
  | VObj o =>
      bracket L d 123 125
        (omap id (List.map (fun '(k, x) => if is_undef x then None
                                           else Some (quote k ++ 58 :: mid L ++ print L (S d) x)) o))
  | _ => ser v
  end.

(** [JSON.stringify(v, null, 2)] of a value that is not undefined. *)
Definition pretty (v : jsval) : jsstr := print indented 0 v.

(** [JSON.stringify(v)]; undefined gives undefined. *)
Definition stringify (v : jsval) : option jsstr :=
  match v with VUndef => None | _ => Some (ser v) end.

(** ** Parsing *)

Definition json_ws (c : N) : bool := (c =? 32) || (c =? 9) || (c =? 10) || (c =? 13).

Fixpoint skip_ws (s : jsstr) : jsstr :=
  match s with
  | c :: t => if json_ws c then skip_ws t else s
  | [] => []
  end.

Definition hex_value (c : N) : option N := base_digit 16 c.

Definition hex4 (a b c d : N) : option N :=
  match hex_value a, hex_value b, hex_value c, hex_value d with
  | Some x, Some y, Some z, Some w => Some (4096 * x + 256 * y + 16 * z + w)
  | _, _, _, _ => None
  end.

Definition simple_escape (c : N) : option N :=
  if c =? 34 then Some 34 else if c =? 92 then Some 92 else if c =? 47 then Some 47
  else if c =? 98 then Some 8 else if c =? 102 then Some 12 else if c =? 110 then Some 10
  else if c =? 114 then Some 13 else if c =? 116 then Some 9 else None.

(** The units of a string literal up to its closing quote, and the rest. *)
Fixpoint parse_units (s : jsstr) : option (jsstr * jsstr) :=
  match s with
  | [] => None
  | c :: t =>
      if c =? 34 then Some ([], t)
      else if c =? 92 then
        match t with
        | [] => None
        | e :: t1 =>
            if e =? 117 then
              match t1 with
              | a :: b :: x :: d :: t2 =>
                  match hex4 a b x d with
                  | Some u => '(w, r) ← parse_units t2; Some (u :: w, r)
                  | None => None
                  end
              | _ => None
              end
            else match simple_escape e with
                 | Some u => '(w, r) ← parse_units t1; Some (u :: w, r)
                 | None => None
                 end
        end
      else if c <? 32 then None
      else '(w, r) ← parse_units t; Some (c :: w, r)
  end.

Definition json_sign (s : jsstr) : bool * jsstr :=
  match s with 45 :: u => (true, u) | _ => (false, s) end.

Definition json_int_ok (i : jsstr) : bool :=
  match i with [] => false | 48 :: _ :: _ => false | _ => true end.

Definition json_frac (s : jsstr) : option (jsstr * jsstr) :=
  match s with
  | 46 :: t => match scan_digits t with ([], _) => None | p => Some p end
  | _ => Some ([], s)
  end.

Definition json_exp (s : jsstr) : option (Z * jsstr) :=
  match s with
  | c :: _ => if (c =? 101) || (c =? 69)
              then let '(x, r) := scan_exponent s in
                   if (length r =? length s)%nat then None else Some (x, r)
              else Some (0%Z, s)
  | [] => Some (0%Z, [])
  end.

(** A JSON number: the literal is stricter than [Number] accepts. *)
Definition parse_number (s : jsstr) : option (num * jsstr) :=
  let '(neg, u) := json_sign s in
  let '(i, r) := scan_digits u in
  if negb (json_int_ok i) then None
  else
    '(f, r') ← json_frac r;
    '(x, r'') ← json_exp r';
    Some (dec_to_num neg (digits_val (i ++ f)) (x - Z.of_nat (length f)), r'').

Definition expect (w s : jsstr) (v : jsval) : option (jsval * jsstr) :=
  if starts_with w s then Some (v, drop (length w) s) else None.

(** Values, the elements of an array after its bracket, and the members of an object
    after its brace.  Each call has less text or is the first on its text, so twice the
    length of the text is enough fuel. *)
Fixpoint parse_value (fuel : nat) (s0 : jsstr) : option (jsval * jsstr) :=
  match fuel with
  | O => None
  | S f =>
      let s := skip_ws s0 in
      match s with
      | [] => None
      | c :: t =>
          if c =? 123 then
            match skip_ws t with
            | e :: r => if e =? 125 then Some (VObj [], r)
                        else '(ms, r) ← parse_members f t; Some (VObj (obj_of ms), r)
            | [] => None
            end
          else if c =? 91 then
            match skip_ws t with
            | e :: r => if e =? 93 then Some (VArr [], r)
                        else '(l, r) ← parse_elems f t; Some (VArr l, r)
            | [] => None
            end
          else if c =? 34 then '(w, r) ← parse_units t; Some (VStr w, r)
          else if c =? 116 then expect (js "true") s (VBool true)
          else if c =? 102 then expect (js "false") s (VBool false)
          else if c =? 110 then expect (js "null") s VNull
          else '(n, r) ← parse_number s; Some (VNum n, r)
      end
  end
with parse_elems (fuel : nat) (s : jsstr) : option (list jsval * jsstr) :=
  match fuel with
  | O => None
  | S f =>
      '(v, r) ← parse_value f s;
      match skip_ws r with
      | c :: r' => if c =? 44 then '(l, r'') ← parse_elems f r'; Some (v :: l, r'')
                   else if c =? 93 then Some ([v], r') else None
      | [] => None
      end
  end
with parse_members (fuel : nat) (s : jsstr) : option (obj * jsstr) :=
  match fuel with
  | O => None
  | S f =>
      match skip_ws s with
      | q :: t =>
          if negb (q =? 34) then None
          else
            '(k, r) ← parse_units t;
            match skip_ws r with
            | e :: r1 =>
                if negb (e =? 58) then None
                else
                  '(v, r2) ← parse_value f r1;
                  match skip_ws r2 with
                  | c :: r' =>
                      if c =? 44
                      then '(ms, r'') ← parse_members f r'; Some ((k, v) :: ms, r'')
                      else if c =? 125 then Some ([(k, v)], r') else None
                  | [] => None
                  end
            | [] => None
            end
      | [] => None
      end
  end.

(** [JSON.parse(s)]; [None] where it throws. *)
Definition json_parse (s : jsstr) : option jsval :=
  match parse_value (2 * length s + 2) s with
  | Some (v, r) => match skip_ws r with [] => Some v | _ :: _ => None end
  | None => None
  end.

(** ** Round trip: strings *)

Lemma hex_digit_value n : n < 16 -> hex_value (hex_digit n) = Some n.
Proof.
  intros H. destruct n as [|p]; [reflexivity|].
  do 4 (destruct p as [p|p|]; try reflexivity); lia.
Qed.

Lemma hex4_escape c :
  c < 65536 ->
  hex4 (hex_digit (c / 4096 mod 16)) (hex_digit (c / 256 mod 16))
       (hex_digit (c / 16 mod 16)) (hex_digit (c mod 16)) = Some c.
Proof.
  intros Hc. unfold hex4.
  rewrite !hex_digit_value by (apply N.mod_lt; lia). f_equal.
  assert (H1 := N.div_mod c 16 ltac:(lia)).
  assert (H2 := N.div_mod (c / 16) 16 ltac:(lia)).
  assert (H3 := N.div_mod (c / 16 / 16) 16 ltac:(lia)).
  rewrite N.Div0.div_div in H2, H3; rewrite N.Div0.div_div in H3.
  change (16 * 16) with 256 in *. change (256 * 16) with 4096 in *.
  assert (c / 4096 < 16) by (apply N.Div0.div_lt_upper_bound; lia).
  rewrite (N.mod_small (c / 4096)) in * by done. lia.
Qed.

Lemma parse_quote_unit c u :
  parse_units (quote_unit c ++ u) = ('(w, r) ← parse_units u; Some (c :: w, r)).
Proof.
  unfold quote_unit.
  destruct (c =? 34) eqn:E34; [apply N.eqb_eq in E34 as ->; reflexivity|].
  destruct (c =? 92) eqn:E92; [apply N.eqb_eq in E92 as ->; reflexivity|].
  destruct (c =? 8) eqn:E8; [apply N.eqb_eq in E8 as ->; reflexivity|].
  destruct (c =? 9) eqn:E9; [apply N.eqb_eq in E9 as ->; reflexivity|].
  destruct (c =? 10) eqn:E10; [apply N.eqb_eq in E10 as ->; reflexivity|].
  destruct (c =? 12) eqn:E12; [apply N.eqb_eq in E12 as ->; reflexivity|].
  destruct (c =? 13) eqn:E13; [apply N.eqb_eq in E13 as ->; reflexivity|].
  destruct ((c <? 32) || is_high c || is_low c) eqn:E.
  - unfold unicode_escape; simpl app; cbn [parse_units].
    change (92 =? 34) with false; change (92 =? 92) with true; change (117 =? 117) with true.
    cbv iota. rewrite hex4_escape; [done|].
    unfold is_high, is_low in E. rewrite !orb_true_iff, !andb_true_iff in E.
    destruct E as [[E|[_ E]]|[_ E]]; bool_hyps; lia.
  - apply orb_false_iff in E as [E _]. apply orb_false_iff in E as [E _].
    simpl. by rewrite E34, E92, E.
Qed.

Lemma parse_plain_unit c u :
  256 <= c -> parse_units (c :: u) = ('(w, r) ← parse_units u; Some (c :: w, r)).
Proof.
  intros H. simpl.
  rewrite (proj2 (N.eqb_neq c 34)), (proj2 (N.eqb_neq c 92)) by lia.
  by rewrite (proj2 (N.ltb_ge c 32)) by lia.
Qed.

(** Reading a quoted string gives the string, whatever follows it. *)
Lemma parse_quote_units s r : parse_units (quote_units s ++ 34 :: r) = Some (s, r).
Proof.
  enough (H : forall n s, (length s <= n)%nat ->
            parse_units (quote_units s ++ 34 :: r) = Some (s, r)) by eauto.
  clear s. induction n as [|n IH]; intros [|c [|d s]] Hn; simpl in Hn; try lia; try done.
  - cbn [quote_units]. rewrite parse_quote_unit. done.
  - cbn [quote_units]. destruct (is_high c && is_low d) eqn:E.
    + apply andb_true_iff in E as [Ec Ed]. unfold is_high, is_low in *.
      apply andb_true_iff in Ec as [Ec _], Ed as [Ed _]. apply N.leb_le in Ec, Ed.
      simpl app. rewrite !parse_plain_unit by lia. rewrite IH by lia. done.
    + rewrite <- app_assoc, parse_quote_unit.
      change (match s with [] => quote_unit d
              | e :: t' => if is_high d && is_low e then d :: e :: quote_units t'
                           else quote_unit d ++ quote_units s end)
        with (quote_units (d :: s)).
      rewrite IH by (simpl; lia). done.
Qed.

(** ** Round trip: numbers *)

(** What follows a value inside an array or object. *)
Definition terminator (r : jsstr) : Prop :=
  match r with [] => True | c :: _ => c = 44 \/ c = 93 \/ c = 125 \/ json_ws c = true end.

Lemma terminator_cases c r :
  terminator (c :: r) -> c = 44 \/ c = 93 \/ c = 125 \/ c = 32 \/ c = 9 \/ c = 10 \/ c = 13.
Proof. unfold terminator, json_ws. rewrite !orb_true_iff, !N.eqb_eq. naive_solver. Qed.

Ltac on_terminator H := apply terminator_cases in H; destruct_or! H; subst; done.

(** A number whose text reads back as the number. *)
Definition num_ok (x : num) : Prop :=
  is_finite x = true /\ parse_number (num_to_string x) = Some (x, []).

Lemma terminator_not_digit r : terminator r -> scan_digits r = ([], r).
Proof. destruct r as [|c r]; [done|]. intros H. on_terminator H. Qed.

Lemma scan_digits_app s d t r :
  terminator r -> scan_digits s = (d, t) -> scan_digits (s ++ r) = (d, t ++ r).
Proof.
  intros Hr. revert d t; induction s as [|c s IH]; intros d t; simpl.
  - intros [= <- <-]. by apply terminator_not_digit.
  - destruct (is_digit c).
    + destruct (scan_digits s) as [d' t'] eqn:E. intros [= <- <-].
      by rewrite (IH d' t').
    + by intros [= <- <-].
Qed.

Lemma scan_exponent_app s x t r :
  terminator r -> scan_exponent s = (x, t) -> s <> [] ->
  scan_exponent (s ++ r) = (x, t ++ r).
Proof.
  intros Hr. destruct s as [|c s]; [done|]. unfold scan_exponent; simpl.
  destruct ((c =? 101) || (c =? 69)); [|by intros [= <- <-]].
  intros H _.
  assert (Hs : forall sg u, exponent_sign s = (sg, u) -> exponent_sign (s ++ r) = (sg, u ++ r)).
  { intros sg u. unfold exponent_sign. destruct s as [|e s].
    - intros [= <- <-]. simpl. destruct r as [|e r]; [done|]. on_terminator Hr.
    - simpl. destruct e as [|e]; [by intros [= <- <-]|].
      do 6 (destruct e as [e|e|]; try by intros [= <- <-]). }
  destruct (exponent_sign s) as [sg u] eqn:Es. rewrite (Hs _ _ eq_refl).
  destruct (scan_digits u) as [d v] eqn:Ed.
  rewrite (scan_digits_app _ _ _ _ Hr Ed).
  destruct d; by injection H as <- <-.
Qed.

Lemma json_frac_app s f t r :
  terminator r -> json_frac s = Some (f, t) -> json_frac (s ++ r) = Some (f, t ++ r).
Proof.
  intros Hr. destruct s as [|c s]; simpl.
  - intros [= <- <-]. destruct r as [|c r]; [done|]. on_terminator Hr.
  - unfold json_frac. destruct (N.eq_dec c 46) as [->|Hc].
    + destruct (scan_digits s) as [d u] eqn:Ed.
      rewrite (scan_digits_app _ _ _ _ Hr Ed). destruct d; [done|]. by intros [= <- <-].
    + intros H. assert (H' : Some ([], c :: s) = Some (f, t)).
      { rewrite <- H. destruct c as [|p]; [done|]. do 6 (destruct p as [p|p|]; try done). }
      injection H' as <- <-. destruct c as [|p]; [done|]. do 6 (destruct p as [p|p|]; try done).
Qed.

Lemma json_exp_app s x t r :
  terminator r -> json_exp s = Some (x, t) -> json_exp (s ++ r) = Some (x, t ++ r).
Proof.
  intros Hr. destruct s as [|c s].
  - intros [= <- <-]. destruct r as [|c r]; [done|]. on_terminator Hr.
  - change ((c :: s) ++ r) with (c :: (s ++ r)). unfold json_exp.
    destruct ((c =? 101) || (c =? 69)); [|by intros [= <- <-]].
    destruct (scan_exponent (c :: s)) as [y u] eqn:E.
    pose proof (scan_exponent_app (c :: s) y u r Hr E ltac:(done)) as E'.
    change ((c :: s) ++ r) with (c :: (s ++ r)) in E'. rewrite E'.
    destruct (length u =? length (c :: s))%nat eqn:El; [done|]. apply Nat.eqb_neq in El.
    change (c :: (s ++ r)) with ((c :: s) ++ r). rewrite !length_app.
    rewrite (proj2 (Nat.eqb_neq _ _)) by lia. by intros [= <- <-].
Qed.

Lemma parse_number_app s x r :
  terminator r -> parse_number s = Some (x, []) -> parse_number (s ++ r) = Some (x, r).
Proof.
  intros Hr. unfold parse_number.
  assert (Hs : s <> [] -> json_sign (s ++ r) = (fst (json_sign s), snd (json_sign s) ++ r)).
  { destruct s as [|c s]; [done|]. intros _. simpl.
    destruct c as [|p]; [done|]. do 6 (destruct p as [p|p|]; try done). }
  destruct s as [|c s]; [done|]. rewrite Hs by done.
  destruct (json_sign (c :: s)) as [neg u]; simpl.
  destruct (scan_digits u) as [i v] eqn:Ed. rewrite (scan_digits_app _ _ _ _ Hr Ed).
  destruct (negb (json_int_ok i)); [done|].
  destruct (json_frac v) as [[f w]|] eqn:Ef; [|done]. rewrite (json_frac_app _ _ _ _ Hr Ef).
  simpl. destruct (json_exp w) as [[y z]|] eqn:Ee; [|done].
  rewrite (json_exp_app _ _ _ _ Hr Ee). simpl. by intros [= <- ->].
Qed.

(** A number literal starts with a minus sign or a digit. *)
Lemma parse_number_head s x r :
  parse_number s = Some (x, r) ->
  exists c t, s = c :: t /\ (c = 45 \/ is_digit c = true).
Proof.
  destruct s as [|c t]; [done|]. intros H. exists c, t. split; [done|].
  unfold parse_number in H. destruct (json_sign (c :: t)) as [neg u] eqn:E.
  destruct (decide (c = 45)) as [->|Hc]; [by left|]. right.
  assert (u = c :: t) as ->.
  { simpl in E. destruct c as [|p]; [by injection E|].
    do 6 (destruct p as [p|p|]; try by injection E). }
  simpl in H. destruct (is_digit c); done.
Qed.

(** [parseFloat] reads a number literal of JSON as [JSON.parse] does. *)
Lemma parse_number_float s x : parse_number s = Some (x, []) -> parse_float s = x.
Proof.
  intros H. destruct (parse_number_head _ _ _ H) as (c & t & -> & Hc).
  assert (Hws : trim_start (c :: t) = c :: t).
  { apply drop_ws_id. intros ? ? [= <- <-]. destruct Hc as [->|Hc]; [done|by apply digit_not_ws]. }
  assert (Hs : scan_sign (c :: t) = json_sign (c :: t)).
  { destruct Hc as [->|Hc]; [done|]. unfold is_digit in Hc. bool_hyps. simpl.
    destruct c as [|c]; [done|]. do 6 (destruct c as [c|c|]; try done). }
  unfold parse_float. rewrite Hws, Hs. unfold parse_number in H.
  destruct (json_sign (c :: t)) as [neg u].
  assert (Hi : starts_with (js "Infinity") u = false).
  { destruct u as [|d u]; [done|]. destruct (N.eq_dec d 73) as [->|Hd]; [by simpl in H|].
    change (js "Infinity") with (73 :: js "nfinity"). cbn [starts_with].
    by rewrite (proj2 (N.eqb_neq 73 d)) by congruence. }
  rewrite Hi. unfold scan_decimal. destruct (scan_digits u) as [i r].
  destruct i as [|d i]; [done|]. destruct (negb (json_int_ok (d :: i))); [done|].
  destruct (json_frac r) as [[f r']|] eqn:Ef; [|done]. simpl in H.
  assert (Hf : match r with 46 :: t0 => scan_digits t0 | _ => ([], r) end = (f, r')).
  { unfold json_frac in Ef. destruct r as [|e r]; [by injection Ef as <- <-|].
    destruct (N.eq_dec e 46) as [->|He].
    - destruct (scan_digits r) as [[|? ?] ?]; [done|]. by injection Ef as <- <-.
    - assert (E : Some ([], e :: r) = Some (f, r')).
      { rewrite <- Ef. destruct e as [|e]; [done|]. do 6 (destruct e as [e|e|]; try done). }
      injection E as <- <-. destruct e as [|e]; [done|]. do 6 (destruct e as [e|e|]; try done). }
  rewrite Hf. simpl app. destruct (json_exp r') as [[y z]|] eqn:Ee; [|done].
  simpl in H. injection H as <- ->.
  assert (He : scan_exponent r' = (y, [])).
  { unfold json_exp in Ee. destruct r' as [|e r'']; [by injection Ee as <-|].
    destruct ((e =? 101) || (e =? 69)) eqn:E2; [|by injection Ee].
    destruct (scan_exponent (e :: r'')) as [y' z']. destruct (length z' =? _)%nat; [done|].
    by injection Ee as <- <-. }
  by rewrite He.
Qed.

Lemma num_ok_float x : num_ok x -> parse_float (num_to_string x) = x.
Proof. intros [_ H]. by apply parse_number_float. Qed.

(** ** Round trip: values *)

(** A value that JSON can carry: no undefined, finite numbers that read back, objects
    with distinct keys in enumeration order. *)
Fixpoint json_ok (v : jsval) : Prop :=
  match v with
  | VUndef => False
  | VNull | VBool _ | VStr _ => True
  | VNum n => num_ok n
  | VArr l => fold_right (fun x P => json_ok x /\ P) True l
  | VObj o => canonical o /\ fold_right (fun kv P => json_ok (snd kv) /\ P) True o
  end.

Lemma json_ok_arr l : json_ok (VArr l) <-> Forall json_ok l.
Proof.
  simpl. induction l as [|x l IH]; simpl; [split; constructor|].
  by rewrite IH, Forall_cons.
Qed.

Lemma json_ok_obj o :
  json_ok (VObj o) <-> canonical o /\ Forall (fun kv => json_ok (snd kv)) o.
Proof.
  simpl. apply and_iff_compat_l. induction o as [|x o IH]; simpl; [split; constructor|].
  by rewrite IH, Forall_cons.
Qed.

(** A bound on the calls that reading a text of [v] makes one inside the other. *)
Fixpoint vsize (v : jsval) : nat :=
  match v with
  | VArr l => S (list_sum (List.map (fun x => S (vsize x)) l))
  | VObj o => S (list_sum (List.map (fun '(_, x) => S (vsize x)) o))
  | _ => 1
  end.

(** A text that starts with a unit that is not white space. *)
Lemma skip_ws_id c t : json_ws c = false -> skip_ws (c :: t) = c :: t.
Proof. simpl. by intros ->. Qed.

Definition blank (w : jsstr) : Prop := Forall (fun c => json_ws c = true) w.

Lemma skip_ws_app w s : blank w -> skip_ws (w ++ s) = skip_ws s.
Proof. induction 1 as [|c w Hc _ IH]; simpl; [done|]. by rewrite Hc. Qed.

Lemma parse_value_ws f w s : blank w -> parse_value f (w ++ s) = parse_value f s.
Proof. intros H. destruct f as [|f]; [done|]. cbn [parse_value]. by rewrite skip_ws_app. Qed.

Lemma parse_elems_ws f w s : blank w -> parse_elems f (w ++ s) = parse_elems f s.
Proof. intros H. destruct f as [|f]; [done|]. cbn [parse_elems]. by rewrite parse_value_ws. Qed.

Lemma parse_members_ws f w s : blank w -> parse_members f (w ++ s) = parse_members f s.
Proof. intros H. destruct f as [|f]; [done|]. cbn [parse_members]. by rewrite skip_ws_app. Qed.

Lemma parse_number_value f n r :
  num_ok n -> terminator r -> parse_value (S f) (num_to_string n ++ r) = Some (VNum n, r).
Proof.
  intros [Hfin Hp] Hr. pose proof (parse_number_app _ _ _ Hr Hp) as Ha.
  destruct (parse_number_head _ _ _ Hp) as (c & t & Ht & Hc). rewrite Ht in *.
  cbn [parse_value]. change ((c :: t) ++ r) with (c :: (t ++ r)) in *.
  rewrite skip_ws_id.
  2:{ destruct Hc as [->|Hc]; [done|]. unfold is_digit in Hc. bool_hyps. unfold json_ws.
      by rewrite !(proj2 (N.eqb_neq _ _)) by lia. }
  assert (H : (c =? 123) = false /\ (c =? 91) = false /\ (c =? 34) = false
              /\ (c =? 116) = false /\ (c =? 102) = false /\ (c =? 110) = false).
  { destruct Hc as [->|Hc]; [done|]. unfold is_digit in Hc. bool_hyps.
    rewrite !N.eqb_neq. lia. }
  destruct H as (-> & -> & -> & -> & -> & ->). by rewrite Ha.
Qed.

Lemma join_cons sep w ws : ws <> [] -> join sep (w :: ws) = w ++ sep ++ join sep ws.
Proof. by destruct ws. Qed.

Lemma join_head sep w ws c t : w = c :: t -> exists t', join sep (w :: ws) = c :: t'.
Proof. intros ->. destruct ws; eexists; reflexivity. Qed.

Section Printed.
Context (L : layout) (Hbrk : forall d, blank (brk L d)) (Hmid : blank (mid L)).

Definition member (d : nat) (kv : jsstr * jsval) : jsstr :=
  quote (fst kv) ++ 58 :: mid L ++ print L (S d) (snd kv).

Lemma print_obj d o :
  Forall (fun kv => json_ok (snd kv)) o ->
  print L d (VObj o) = bracket L d 123 125 (List.map (member d) o).
Proof.
  intros H. cbn [print]. f_equal. induction H as [|[k v] o Hv H IH]; [done|].
  assert (Hu : is_undef v = false) by by destruct v. cbn [List.map]. rewrite <- IH, Hu. done.
Qed.

Lemma print_head d v :
  json_ok v -> exists c t, print L d v = c :: t /\ is_ws c = false /\ c <> 93 /\ c <> 125.
Proof.
  destruct v as [| |b|n|s|l|o]; intros H; [done| |destruct b| | | |]; cbn [print];
    try (by eexists _, _; split; [reflexivity|]);
    try (by unfold bracket; case_match; eexists _, _; split; [reflexivity| |reflexivity|]).
  destruct H as [Hf H]. apply parse_number_head in H as (c & t & Ht & Hc).
  exists c, t. simpl. rewrite Hf, Ht. split; [done|].
  destruct Hc as [->|Hc]; [done|]. split; [by apply digit_not_ws|].
  unfold is_digit in Hc. bool_hyps. lia.
Qed.

Lemma is_ws_json c : is_ws c = false -> json_ws c = false.
Proof.
  unfold is_ws, json_ws. intros H. repeat (apply orb_false_iff in H as [H ?]). bool_hyps.
  apply andb_false_iff in H. rewrite !orb_false_iff, !N.eqb_neq.
  rewrite !N.leb_gt in H. repeat split; first [by apply N.eqb_neq | lia].
Qed.

Lemma terminator_blank w c r : blank w -> terminator (c :: r) -> terminator (w ++ c :: r).
Proof. destruct 1 as [|x w Hx _]; [done|]. intros _. simpl. auto. Qed.

Lemma parse_elems_print f d l r :
  (forall g v r, (g < f)%nat -> json_ok v -> terminator r -> (vsize v <= g)%nat ->
     parse_value g (print L (S d) v ++ r) = Some (v, r)) ->
  l <> [] -> Forall json_ok l -> (list_sum (List.map (fun x => S (vsize x)) l) <= f)%nat ->
  parse_elems f (join (44 :: brk L (S d)) (List.map (print L (S d)) l) ++ brk L d ++ 93 :: r)
  = Some (l, r).
Proof.
  revert f; induction l as [|v l IHl]; intros f IH Hne Hok Hf; [done|].
  apply Forall_cons in Hok as [Hv Hl]. simpl in Hf. destruct f as [|f]; [lia|].
  cbn [parse_elems]. destruct l as [|v' l].
  - simpl join. rewrite IH; [|lia|done| |simpl in *; lia].
    + cbn [mbind option_bind]. by rewrite skip_ws_app.
    + apply terminator_blank; [done|]. right. by left.
  - change (List.map (print L (S d)) (v :: v' :: l))
      with (print L (S d) v :: List.map (print L (S d)) (v' :: l)).
    rewrite (join_cons _ (print L (S d) v)) by done. rewrite <- !app_assoc.
    rewrite IH; [|lia|done|by left|lia]. cbn [mbind option_bind].
    rewrite <- app_comm_cons, skip_ws_id by done. simpl (44 =? 44).
    cbv iota. rewrite parse_elems_ws, IHl; [done| |done|done|simpl in *; lia|done].
    intros; apply IH; try done; lia.
Qed.

Lemma parse_members_print f d o r :
  (forall g v r, (g < f)%nat -> json_ok v -> terminator r -> (vsize v <= g)%nat ->
     parse_value g (print L (S d) v ++ r) = Some (v, r)) ->
  o <> [] -> Forall (fun kv => json_ok (snd kv)) o ->
  (list_sum (List.map (fun '(_, x) => S (vsize x)) o) <= f)%nat ->
  parse_members f (join (44 :: brk L (S d)) (List.map (member d) o) ++ brk L d ++ 125 :: r)
  = Some (o, r).
Proof.
  revert f; induction o as [|[k v] o IHo]; intros f IH Hne Hok Hf; [done|].
  apply Forall_cons in Hok as [Hv Ho]. simpl in Hf, Hv. destruct f as [|f]; [lia|].
  set (text := join (44 :: brk L (S d)) (List.map (member d) o) ++ brk L d ++ 125 :: r) in *.
  assert (Hstep : forall u, (u = brk L d ++ 125 :: r /\ o = []) \/
            (u = 44 :: brk L (S d) ++ text /\ o <> []) ->
            parse_members (S f) (member d (k, v) ++ u) = Some ((k, v) :: o, r)).
  { intros u Hu. unfold member, quote. simpl fst; simpl snd.
    rewrite <- !app_comm_cons. cbn [parse_members].
    rewrite skip_ws_id by done. simpl (negb (34 =? 34)). cbv iota.
    rewrite <- !app_assoc. simpl ([34] ++ _).
    rewrite parse_quote_units. cbn [mbind option_bind].
    rewrite skip_ws_id by done. simpl (negb (58 =? 58)). cbv iota.
    rewrite <- app_assoc, parse_value_ws, IH; [|lia|done| |lia|done]; cycle 1.
    { destruct Hu as [ [-> _]|[-> _] ]; [apply terminator_blank; [done|]; right; right|]; by left. }
    cbn [mbind option_bind]. destruct Hu as [ [-> ->]|[-> Hne'] ].
    - by rewrite skip_ws_app.
    - rewrite skip_ws_id by done. simpl (44 =? 44). cbv iota.
      rewrite parse_members_ws, IHo; [done| |done|done|simpl in *; lia|done].
      intros; apply IH; try done; lia. }
  destruct o as [|kv o].
  - apply Hstep. by left.
  - change (List.map (member d) ((k, v) :: kv :: o))
      with (member d (k, v) :: List.map (member d) (kv :: o)).
    rewrite join_cons by done. rewrite <- !app_assoc. apply Hstep. by right.
Qed.

(** The text of a bracket whose items are not empty, opened by the reader. *)
Lemma bracket_open d lb rb w ws c t r :
  w = c :: t -> json_ws c = false ->
  let u := brk L (S d) ++ join (44 :: brk L (S d)) (w :: ws) ++ brk L d ++ rb :: r in
  bracket L d lb rb (w :: ws) ++ r = lb :: u /\ exists t', skip_ws u = c :: t'.
Proof.
  intros Hw Hc u. split.
  - unfold bracket, u. by rewrite <- app_comm_cons, <- !app_assoc.
  - unfold u. rewrite skip_ws_app by done. destruct (join_head (44 :: brk L (S d)) w ws c t Hw) as [t' ->].
    eexists. by apply skip_ws_id.
Qed.

Lemma parse_value_print f d v r :
  json_ok v -> terminator r -> (vsize v <= f)%nat ->
  parse_value f (print L d v ++ r) = Some (v, r).
Proof.
  revert d v r; induction f as [f IH] using lt_wf_ind. intros d v r Hv Hr Hf.
  destruct f as [|f]; [destruct v; simpl in Hf; lia|].
  destruct v as [| |b|n|s|l|o]; [done|done|by destruct b| | | |].
  - simpl print. rewrite (proj1 Hv). by apply parse_number_value.
  - change (print L d (VStr s) ++ r) with (34 :: ((quote_units s ++ [34]) ++ r)).
    rewrite <- app_assoc. change ([34] ++ r) with (34 :: r).
    cbn [parse_value]. rewrite skip_ws_id by done. simpl. by rewrite parse_quote_units.
  - rewrite json_ok_arr in Hv. destruct l as [|x l]; [done|].
    destruct (print_head (S d) x ltac:(by inversion Hv)) as (c & t & Hc & Hws & H93 & _).
    apply is_ws_json in Hws. cbn [print List.map].
    destruct (bracket_open d 91 93 _ (List.map (print L (S d)) l) c t r Hc Hws) as [-> [t' Ht'] ].
    cbn [parse_value]. rewrite skip_ws_id by done.
    change (91 =? 123) with false. change (91 =? 91) with true. cbv iota.
    rewrite Ht', (proj2 (N.eqb_neq _ _)), parse_elems_ws by done.
    rewrite (parse_elems_print f d (x :: l)); [done| |done|done|simpl in *; lia].
    intros g w u Hg. apply IH. lia.
  - rewrite json_ok_obj in Hv. destruct Hv as [Hcan Hv]. rewrite print_obj by done.
    destruct o as [|kv o]; [done|]. cbn [List.map].
    destruct (bracket_open d 123 125 (member d kv) (List.map (member d) o) 34 _ r eq_refl eq_refl)
      as [-> [t' Ht'] ].
    cbn [parse_value]. rewrite skip_ws_id by done. change (123 =? 123) with true. cbv iota.
    rewrite Ht'. change (34 =? 125) with false. cbv iota. rewrite parse_members_ws by done.
    rewrite (parse_members_print f d (kv :: o));
      [|intros g w u Hg; apply IH; lia|done|done|simpl in *; lia].
    cbn [mbind option_bind]. by rewrite obj_of_canonical.
Qed.

Lemma join_comma_length {A} sep (f : A -> jsstr) (g : A -> nat) l :
  (forall x, x ∈ l -> (g x <= 2 * length (f x))%nat) ->
  (list_sum (List.map (fun x => S (g x)) l) <= 2 * length (join (44%N :: sep) (List.map f l)) + 1)%nat.
Proof.
  induction l as [|x l IH]; intros H; [simpl; lia|].
  assert (Hx := H x (list_elem_of_here _ _)).
  assert (Hl : forall y, y ∈ l -> (g y <= 2 * length (f y))%nat).
  { intros y Hy. apply H. by right. }
  specialize (IH Hl). destruct l as [|y l]; [simpl in *; lia|].
  change (List.map f (x :: y :: l)) with (f x :: List.map f (y :: l)).
  rewrite join_cons by done. rewrite !length_app. cbn [length].
  change (list_sum (List.map (fun x => S (g x)) (x :: y :: l)))
    with (S (g x) + list_sum (List.map (fun x => S (g x)) (y :: l)))%nat. lia.
Qed.

Lemma bracket_length d lb rb items :
  (length (join (44%N :: brk L (S d)) items) + 2 <= length (bracket L d lb rb items))%nat.
Proof. destruct items; simpl length; rewrite ?length_app; cbn [length]; lia. Qed.

Lemma vsize_print d v : json_ok v -> (vsize v <= 2 * length (print L d v))%nat.
Proof.
  revert d; induction v as [| |b|n|s|l IH|o IH] using jsval_ind'; intros d Hv;
    try (destruct (print_head d _ Hv) as (c & t & -> & _); simpl; lia).
  - rewrite json_ok_arr in Hv. cbn [print].
    pose proof (bracket_length d 91 93 (List.map (print L (S d)) l)).
    pose proof (join_comma_length (brk L (S d)) (print L (S d)) vsize l) as H'. simpl vsize.
    rewrite Forall_forall in IH, Hv. specialize (H' ltac:(auto)). lia.
  - rewrite json_ok_obj in Hv. destruct Hv as [_ Hv]. rewrite print_obj by done.
    pose proof (bracket_length d 123 125 (List.map (member d) o)).
    pose proof (join_comma_length (brk L (S d)) (member d) (fun kv => vsize (snd kv)) o) as H'.
    rewrite Forall_forall in IH, Hv.
    assert (Hk : forall x, x ∈ o -> (vsize (snd x) <= 2 * length (member d x))%nat).
    { intros x Hx. specialize (IH x Hx (S d) (Hv x Hx)). unfold member.
      rewrite length_app. cbn [length]. rewrite length_app. lia. }
    specialize (H' Hk). simpl vsize.
    replace (List.map (fun '(_, x) => S (vsize x)) o)
      with (List.map (fun x => S (vsize (snd x))) o); [lia|].
    apply List.map_ext. by intros [? ?].
Qed.

(** Reading a printed value gives the value, in every layout. *)
Theorem json_parse_print d v : json_ok v -> json_parse (print L d v) = Some v.
Proof.
  intros Hv. unfold json_parse.
  pose proof (parse_value_print (2 * length (print L d v) + 2) d v [] Hv I) as H.
  rewrite app_nil_r in H. rewrite H; [done|]. pose proof (vsize_print d v Hv). lia.
Qed.
End Printed.

Lemma blank_compact d : blank (brk compact d). Proof. constructor. Qed.

Lemma blank_indented d : blank (brk indented d).
Proof. constructor; [done|]. by apply Forall_replicate. Qed.

Lemma ser_print d v : ser v = print compact d v.
Proof.
  revert d; induction v as [| |b|n|s|l IH|o IH] using jsval_ind'; intros d; try done.
  - assert (Hl : List.map ser l = List.map (print compact (S d)) l).
    { induction IH as [|x l Hx _ IHl]; [done|]. cbn [List.map]. by rewrite (Hx (S d)), IHl. }
    cbn [ser print]. rewrite Hl. by destruct (List.map (print compact (S d)) l).
  - cbn [ser print]. match goal with |- _ = bracket _ _ _ _ ?b => set (items := b) end.
    assert (Ho : omap id (List.map (fun '(k, x) => if is_undef x then None
                   else Some (quote k ++ js ":" ++ ser x)) o) = items).
    { unfold items. f_equal. clear items. induction IH as [|[k x] o Hx _ IHo]; [done|].
      cbn [List.map]. rewrite IHo. cbn [snd] in Hx. by rewrite (Hx (S d)). }
    rewrite Ho. by destruct items.
Qed.

Lemma bracket_ends L d lb rb items :
  head (bracket L d lb rb items) = Some lb /\ last (bracket L d lb rb items) = Some rb.
Proof.
  destruct items as [|i items]; [done|]. split; [done|]. unfold bracket.
  rewrite app_comm_cons, !app_assoc, last_app. done.
Qed.

Lemma print_obj_trim L d o : trim (print L d (VObj o)) = print L d (VObj o).
Proof.
  cbn [print]. eapply trim_ends; [apply bracket_ends|apply bracket_ends|done|done].
Qed.

(** [JSON.parse(JSON.stringify(v))] is [v] for every value JSON can carry. *)
Theorem json_parse_ser v : json_ok v -> json_parse (ser v) = Some v.
Proof.
  rewrite (ser_print 0). apply json_parse_print; [apply blank_compact|constructor].
Qed.

Theorem json_parse_pretty v : json_ok v -> json_parse (pretty v) = Some v.
Proof.
  apply json_parse_print; [apply blank_indented|by repeat constructor].
Qed.

Lemma stringify_ser v : json_ok v -> stringify v = Some (ser v).
Proof. by destruct v. Qed.

(** ** Blank texts *)

Lemma skip_ws_suffix s : exists w, s = w ++ skip_ws s.
Proof.
  induction s as [|c t [w IH]]; simpl; [by exists []|].
  destruct (json_ws c); [|by exists []]. exists (c :: w). simpl. by rewrite <- IH.
Qed.

Lemma is_ws_cases c :
  is_ws c = true ->
  9 <= c <= 13 \/ c = 32 \/ c = 160 \/ c = 5760 \/ 8192 <= c <= 8202 \/ c = 8232 \/ c = 8233
  \/ c = 8239 \/ c = 8287 \/ c = 12288 \/ c = 65279.
Proof. unfold is_ws. rewrite !orb_true_iff, !andb_true_iff, !N.leb_le, !N.eqb_eq. lia. Qed.

(** White space alone is no JSON text. *)
Lemma json_parse_blank s : Forall (fun c => is_ws c = true) s -> json_parse s = None.
Proof.
  intros H. unfold json_parse. replace (2 * length s + 2)%nat with (S (2 * length s + 1)) by lia.
  cbn [parse_value]. destruct (skip_ws_suffix s) as [w Hw].
  destruct (skip_ws s) as [|c t]; [done|]. rewrite Hw, Forall_app, Forall_cons in H.
  destruct H as (_ & Hc & _). apply is_ws_cases in Hc.
  rewrite !(proj2 (N.eqb_neq c _)) by lia.
  assert (Hd : is_digit c = false).
  { unfold is_digit. apply andb_false_iff. rewrite !N.leb_gt. lia. }
  assert (Hs : json_sign (c :: t) = (false, c :: t)).
  { unfold json_sign. assert (Hc45 : c <> 45) by lia. clear -Hc45.
    do 7 (try (destruct c as [|c]; [done|]); try done; destruct c; try done). }
  unfold parse_number. rewrite Hs. simpl scan_digits. by rewrite Hd.
Qed.

(** ** Values JSON can carry *)

Lemma json_ok_obj_of p : Forall (fun kv => json_ok (snd kv)) p -> json_ok (VObj (obj_of p)).
Proof.
  intros H. apply json_ok_obj. split; [apply canonical_obj_of|].
  by apply Forall_ospread; [constructor|].
Qed.

Lemma json_ok_oset k v o : json_ok v -> json_ok (VObj o) -> json_ok (VObj (oset k v o)).
Proof.
  rewrite !json_ok_obj. intros Hv [Hc Ho]. split; [by apply canonical_oset|by apply Forall_oset].
Qed.

Lemma json_ok_ospread o p :
  json_ok (VObj o) -> Forall (fun kv => json_ok (snd kv)) p -> json_ok (VObj (ospread o p)).
Proof.
  rewrite !json_ok_obj. intros [Hc Ho] Hp.
  split; [by apply canonical_ospread|by apply Forall_ospread].
Qed.

Lemma ser_truthy v : json_ok v -> truthy_str (ser v) = true.
Proof.
  intros H. rewrite (ser_print 0). by destruct (print_head compact 0 v H) as (c & t & -> & _).
Qed.

(** ** What reading gives

    Every value read from a text is tidy: no undefined in it, and its objects have distinct
    keys in enumeration order, at every depth. *)
Fixpoint tidy (v : jsval) : Prop :=
  match v with
  | VUndef => False
  | VArr l => fold_right (fun x P => tidy x /\ P) True l
  | VObj o => canonical o /\ fold_right (fun kv P => tidy (snd kv) /\ P) True o
  | _ => True
  end.

Lemma tidy_arr l : tidy (VArr l) <-> Forall tidy l.
Proof.
  cbn [tidy]. induction l as [|x l IH]; cbn; [split; constructor|]. by rewrite IH, Forall_cons.
Qed.

Lemma tidy_obj o : tidy (VObj o) <-> canonical o /\ Forall (fun kv => tidy (snd kv)) o.
Proof.
  cbn [tidy]. apply and_iff_compat_l. induction o as [|x o IH]; cbn; [split; constructor|].
  by rewrite IH, Forall_cons.
Qed.

Lemma tidy_obj_of p : Forall (fun kv => tidy (snd kv)) p -> tidy (VObj (obj_of p)).
Proof.
  intros H. apply tidy_obj. split; [apply canonical_obj_of|]. by apply Forall_ospread; [constructor|].
Qed.

Lemma parse_tidy f :
  (forall s v r, parse_value f s = Some (v, r) -> tidy v)
  /\ (forall s l r, parse_elems f s = Some (l, r) -> Forall tidy l)
  /\ (forall s o r, parse_members f s = Some (o, r) -> Forall (fun kv => tidy (snd kv)) o).
Proof.
  induction f as [|f (IHv & IHe & IHm)]; [by repeat split|]. split; [|split].
  - intros s v r. cbn [parse_value]. unfold expect. repeat case_match; try done;
      try (intros [= <- _]; first [done|apply (tidy_obj_of []); constructor]).
    + destruct (parse_members f _) as [[o u]|] eqn:E; [|done]. intros [= <- _].
      by eapply tidy_obj_of, IHm.
    + destruct (parse_elems f _) as [[l' u]|] eqn:E; [|done]. intros [= <- _].
      by eapply tidy_arr, IHe.
    + destruct (parse_units _) as [[w u]|]; [|done]. by intros [= <- _].
    + destruct (parse_number _) as [[w u]|]; [|done]. by intros [= <- _].
  - intros s l r. cbn [parse_elems]. destruct (parse_value f s) as [[v u]|] eqn:Ev; [|done].
    cbn [mbind option_bind]. repeat case_match; try done.
    + destruct (parse_elems f _) as [[l' u']|] eqn:E; [|done]. intros [= <- _].
      constructor; [by eapply IHv|by eapply IHe].
    + intros [= <- _]. constructor; [by eapply IHv|constructor].
  - intros s o r. cbn [parse_members]. repeat case_match; try done.
    destruct (parse_units _) as [[k u]|]; [|done]. cbn [mbind option_bind].
    repeat case_match; try done. destruct (parse_value f _) as [[v u']|] eqn:Ev; [|done].
    cbn [mbind option_bind]. repeat case_match; try done.
    + destruct (parse_members f _) as [[ms u'']|] eqn:E; [|done]. intros [= <- _].
      constructor; [by eapply IHv|by eapply IHm].
    + intros [= <- _]. constructor; [by eapply IHv|constructor].
Qed.

Lemma json_parse_tidy s v : json_parse s = Some v -> tidy v.
Proof.
  unfold json_parse. destruct (parse_value _ s) as [[w r]|] eqn:E; [|done].
  destruct (skip_ws r); [|done]. intros [= ->]. by eapply parse_tidy.
Qed.

(** [JSON.parse] never gives undefined. *)
Lemma json_parse_defined s v : json_parse s = Some v -> v <> VUndef.
Proof. intros H%json_parse_tidy ->. done. Qed.

Lemma json_parse_canonical s o : json_parse s = Some (VObj o) -> canonical o.
Proof. by intros [? _]%json_parse_tidy%tidy_obj. Qed.

(** Reading a property of a value through its entries: only the indices of texts and arrays,
    which are digits, are entries that are not properties of an object. *)
Lemma oget_indexed {A} (f : A -> jsval) k l :
  forallb is_digit k = false ->
  oget k (reverse (imap (fun i x => (digits_of (N.of_nat i), f x)) l)) = None.
Proof.
  intros Hk. apply oget_None_okeys. intros Hin. apply list_elem_of_fmap in Hin as ([j v] & -> & Hin).
  cbn [fst] in Hk. rewrite elem_of_reverse in Hin. apply elem_of_lookup_imap in Hin as (i & x & Hin & _).
  injection Hin as -> _. apply not_true_iff_false in Hk. apply Hk, forallb_elem.
  apply Forall_forall, digits_of_digits.
Qed.

Lemma oget_entries k v :
  forallb is_digit k = false -> tidy v ->
  default VUndef (oget k (reverse (entries_of v))) = prop k v.
Proof.
  intros Hk Hv. destruct v as [| | | |s|l|o]; cbn [entries_of]; try done.
  - by rewrite oget_indexed.
  - rewrite (oget_indexed (fun x => x)) by done. done.
  - apply tidy_obj in Hv as [[Hnd _] _]. by rewrite oget_reverse.
Qed.

Lemma tidy_prop k v : tidy v -> prop k v = VUndef \/ tidy (prop k v).
Proof.
  intros Hv. destruct v as [| | | | | |o]; try by left. cbn [prop].
  apply tidy_obj in Hv as [_ Hv]. destruct (oget k o) as [x|] eqn:E; [|by left]. right.
  apply oget_Some_elem in E. by eapply Forall_forall in Hv; [|exact E].
Qed.
