(* ===== verification/WebStorage.v ===== *)
(** * The local storage of the browser

    [localStorage] is the map from keys to texts that the Web Storage standard defines.
    [setItem] throws when the new content does not fit, which the parameter [fits] of the
    definitions decides. *)

From S2P Require Import Prelude JsString.

#[local] Open Scope outcome_scope.

Definition storage := list (jsstr * jsstr).

Fixpoint getItem (s : storage) (k : jsstr) : option jsstr :=
  match s with
  | [] => None
  | (j, v) :: t => if bool_decide (k = j) then Some v else getItem t k
  end.

Definition removeItem (k : jsstr) (s : storage) : storage :=
  filterb (fun kv => negb (bool_decide (fst kv = k))) s.

Definition setItem (fits : storage -> bool) (k v : jsstr) (s : storage) : outcome storage :=
  let s' := (k, v) :: removeItem k s in if fits s' then Return s' else Throw.

Lemma getItem_setItem fits k v s s' :
  setItem fits k v s = Return s' -> forall j, getItem s' j = if bool_decide (j = k) then Some v else getItem s j.
Proof.
  unfold setItem. destruct (fits _); [|done]. intros <-%Return_inj j. cbn [getItem].
  case_bool_decide as Hj; [done|]. unfold removeItem. induction s as [|[i w] s IH]; [done|].
  cbn [filterb fst negb]. destruct (decide (i = k)) as [->|Hi].
  - rewrite bool_decide_eq_true_2 by done. cbn [getItem negb].
    by rewrite bool_decide_eq_false_2.
  - rewrite (bool_decide_eq_false_2 (i = k)) by done. cbn [negb getItem]. by case_bool_decide.
Qed.

Lemma setItem_fits fits (Hfits : forall s, fits s = true) k v s :
  exists s', setItem fits k v s = Return s'
             /\ forall j, getItem s' j = if bool_decide (j = k) then Some v else getItem s j.
Proof.
  destruct (setItem fits k v s) as [s'|] eqn:E.
  - exists s'. split; [done|]. by eapply getItem_setItem.
  - exfalso. unfold setItem in E. by rewrite Hfits in E.
Qed.
