(* ===== verification/NavModules.v ===== *)
(** * Navigation modules ([lib/nav-modules.ts])

    Which entries of the top navigation are shown and which need a login: the setting
    [HeaderNavModules] that the server sends with its status, read with defaults, the cached
    copy of the status in the local storage, and the guard that decides whether a page of
    the side bar may be opened.

    [getStatus], the request for the status, is a parameter of the definitions that use it:
    the value it gives, or its failure. *)

From S2P Require Import Prelude JsString JsNumber JsValue JsJson WebStorage.

#[local] Open Scope N_scope.
#[local] Open Scope outcome_scope.

(** ** Data *)

Record ModuleAccess := { enabled : bool; requireAuth : bool }.

#[export] Instance access_eq_dec : EqDecision ModuleAccess.
Proof. solve_decision. Defined.

Inductive HeaderNavModule := rankings | pricing.

Definition module_key (m : HeaderNavModule) : jsstr :=
  match m with rankings => js "rankings" | pricing => js "pricing" end.

Definition access_val (a : ModuleAccess) : jsval :=
  VObj [(js "enabled", VBool (enabled a)); (js "requireAuth", VBool (requireAuth a))].

(** A property of the result that holds a [ModuleAccess], read as one. *)
Definition access_of (v : jsval) : ModuleAccess :=
  {| enabled := is_true (prop (js "enabled") v); requireAuth := is_true (prop (js "requireAuth") v) |}.

Definition DEFAULT_ACCESS : ModuleAccess := {| enabled := true; requireAuth := false |}.

Definition DEFAULT_HEADER_NAV_MODULES : obj :=
  [ (js "home", VBool true); (js "console", VBool true); (js "pricing", access_val DEFAULT_ACCESS);
    (js "rankings", access_val DEFAULT_ACCESS); (js "docs", VBool true); (js "about", VBool true) ].

Definition DEFAULTS (m : HeaderNavModule) : ModuleAccess :=
  access_of (at_ (module_key m) DEFAULT_HEADER_NAV_MODULES).

(** A fresh copy; values are not shared in the model. *)
Definition cloneHeaderNavDefaults : obj := DEFAULT_HEADER_NAV_MODULES.

(** ** Reading the setting *)

Definition parseHeaderNavBoolean (raw : jsval) (fallback : bool) : bool :=
  match raw with
  | VBool b => b
  | VNum n => if neqb n (num_of_Z 1) then true else if neqb n zero then false else fallback
  | VStr s =>
      let normalized := to_lower (trim s) in
      if bool_decide (normalized = js "true") || bool_decide (normalized = js "1") then true
      else if bool_decide (normalized = js "false") || bool_decide (normalized = js "0") then false
      else fallback
  | _ => fallback
  end.

Definition parseAccess (raw : jsval) (fallback : ModuleAccess) : ModuleAccess :=
  match raw with
  | VBool _ | VNum _ | VStr _ =>
      {| enabled := parseHeaderNavBoolean raw (enabled fallback); requireAuth := requireAuth fallback |}
  | VArr _ | VObj _ =>
      {| enabled := parseHeaderNavBoolean (prop (js "enabled") raw) (enabled fallback);
         requireAuth := parseHeaderNavBoolean (prop (js "requireAuth") raw) (requireAuth fallback) |}
  | VUndef | VNull => fallback
  end.

(** null for no setting and for a text that is no JSON. *)
Definition parseHeaderNavRecord (raw : jsval) : jsval :=
  if negb (truthy raw) || bool_decide (trim (to_string raw) = []) then VNull
  else match raw with
       | VArr _ | VObj _ => raw
       | _ => default VNull (json_parse (to_string raw))
       end.

(** [result[k] = b] for a boolean: on [__proto__] it does nothing. *)
Definition assign_flag (k : jsstr) (b : bool) (o : obj) : obj :=
  if bool_decide (k = js "__proto__") then o else oset k (VBool b) o.

(** The callback of [forEach]. *)
Definition header_entry (result : obj) (entry : jsstr * jsval) : obj :=
  let '(key, value) := entry in
  if bool_decide (key = js "pricing")
  then oset (js "pricing") (access_val (parseAccess value (access_of (at_ (js "pricing") result)))) result
  else if bool_decide (key = js "rankings")
  then oset (js "rankings") (access_val (parseAccess value (access_of (at_ (js "rankings") result)))) result
  else
    let fallback := at_ key result in
    if is_boolean fallback || is_boolean value || is_number value || is_string value
    then assign_flag key
           (parseHeaderNavBoolean value (match fallback with VBool b => b | _ => true end)) result
    else result.

Definition parseHeaderNavModules (raw : jsval) : obj :=
  let parsed := parseHeaderNavRecord raw in
  if truthy parsed then fold_left header_entry (entries_of parsed) cloneHeaderNavDefaults
  else cloneHeaderNavDefaults.

Definition parseHeaderNavModulesFromStatus (status : jsval) : obj :=
  parseHeaderNavModules (prop (js "HeaderNavModules") status).

Definition getModuleAccessFromStatus (status : jsval) (module : HeaderNavModule) : ModuleAccess :=
  match at_ (module_key module) (parseHeaderNavModulesFromStatus status) with
  | VUndef | VNull => DEFAULTS module
  | v => access_of v
  end.

(** ** The cached status *)

Definition STATUS : jsstr := js "status".

Definition getCachedStatus (s : storage) : jsval :=
  match getItem s STATUS with
  | Some raw => if truthy_str raw then default VNull (json_parse raw) else VNull
  | None => VNull
  end.

Section Cache.
Variable fits : storage -> bool.

(** A status that does not fit is not cached. *)
Definition cacheStatus (status : jsval) (s : storage) : storage :=
  if truthy status then catch (setItem fits STATUS (ser status) s) s else s.

Definition getModuleAccess (module : HeaderNavModule) (s : storage) : ModuleAccess :=
  getModuleAccessFromStatus (getCachedStatus s) module.

Definition getFreshModuleAccess (getStatus : outcome jsval) (module : HeaderNavModule) (s : storage)
  : ModuleAccess * storage :=
  match getStatus with
  | Return status => (getModuleAccessFromStatus status module, cacheStatus status s)
  | Throw => ({| enabled := false; requireAuth := true |}, s)
  end.
End Cache.

(** ** The guard of a side bar page *)

(** [v[k]]; on null and undefined it throws. *)
Definition prop_of (k : jsstr) (v : jsval) : outcome jsval :=
  if nullish v then Throw else Return (prop k v).

Definition isSidebarModuleEnabled (section module : jsstr) (s : storage) : bool :=
  let status := getCachedStatus s in
  if negb (truthy status) then true
  else
    let raw := prop (js "SidebarModulesAdmin") status in
    if negb (truthy raw) || bool_decide (trim (to_string raw) = []) then true
    else
      catch
        (let! parsed := or_throw (json_parse (to_string raw)) in
         let! sectionConfig := prop_of section parsed in
         Return (if negb (truthy sectionConfig) then true
                 else if is_false (prop (js "enabled") sectionConfig) then false
                 else if is_false (prop module sectionConfig) then false
                 else true)) true.

(** ** Theorems: the modules property by property *)

Definition header_value (k : jsstr) (v : jsval) (old : option jsval) : option jsval :=
  if bool_decide (k = js "pricing") || bool_decide (k = js "rankings")
  then Some (access_val (parseAccess v (access_of (default VUndef old))))
  else
    let fallback := default VUndef old in
    if is_boolean fallback || is_boolean v || is_number v || is_string v
    then if bool_decide (k = js "__proto__") then old
         else Some (VBool (parseHeaderNavBoolean v (match fallback with VBool b => b | _ => true end)))
    else old.

Lemma oget_header_entry r k v j :
  oget j (header_entry r (k, v))
  = if bool_decide (j = k) then header_value k v (oget k r) else oget j r.
Proof.
  unfold header_entry, header_value, assign_flag, at_.
  destruct (decide (k = js "pricing")) as [->|H1];
    [rewrite (bool_decide_eq_true_2 (js "pricing" = _)) by done; apply oget_oset|].
  destruct (decide (k = js "rankings")) as [->|H2].
  { rewrite (bool_decide_eq_false_2 (js "rankings" = js "pricing")) by done.
    rewrite (bool_decide_eq_true_2 (js "rankings" = js "rankings")) by done. apply oget_oset. }
  rewrite (bool_decide_eq_false_2 (k = js "pricing")), (bool_decide_eq_false_2 (k = js "rankings"))
    by done.
  cbn [orb]. destruct (_ || _ || _ || _).
  - destruct (bool_decide (k = js "__proto__")); [|apply oget_oset].
    case_bool_decide; by subst.
  - case_bool_decide; by subst.
Qed.

(** The setting as a JSON object, given as a value or as a text. *)
Definition setting_object (raw : jsval) (o : obj) : Prop :=
  canonical o
  /\ (raw = VObj o \/ exists s, raw = VStr s /\ trim s <> [] /\ json_parse s = Some (VObj o)).

Lemma setting_record raw o : setting_object raw o -> parseHeaderNavRecord raw = VObj o.
Proof.
  intros [_ [->|(s & -> & Hs & Hp)] ]; unfold parseHeaderNavRecord; [by vm_compute|].
  cbn [truthy to_string]. rewrite bool_decide_eq_false_2 by done.
  assert (Ht : truthy_str s = true) by (by destruct s). by rewrite Ht, Hp.
Qed.

Lemma header_lookup raw o k :
  setting_object raw o ->
  oget k (parseHeaderNavModules raw)
  = match oget k o with
    | Some v => header_value k v (oget k DEFAULT_HEADER_NAV_MODULES)
    | None => oget k DEFAULT_HEADER_NAV_MODULES
    end.
Proof.
  intros H. unfold parseHeaderNavModules. rewrite (setting_record _ _ H). cbn [truthy entries_of].
  apply (oget_fold _ header_value); [intros; apply oget_header_entry|]. by destruct H as [[Hnd _] _].
Qed.

Lemma header_blank raw :
  truthy (parseHeaderNavRecord raw) = false ->
  parseHeaderNavModules raw = DEFAULT_HEADER_NAV_MODULES.
Proof. intros H. unfold parseHeaderNavModules. by rewrite H. Qed.

(** ** Theorems: the type of the result *)

Definition is_access_key (k : jsstr) : bool :=
  bool_decide (k = js "pricing") || bool_decide (k = js "rankings").

Definition header_typed (kv : jsstr * jsval) : Prop :=
  fst kv <> js "__proto__"
  /\ if is_access_key (fst kv) then exists a, snd kv = access_val a else exists b, snd kv = VBool b.

(** What [HeaderNavModules] promises: the six default entries are there, the two access
    entries hold an access and every other entry a boolean. *)
Record header_ok (r : obj) : Prop := {
  header_canonical : canonical r;
  header_entries : Forall header_typed r;
  header_defaults k : ohas k DEFAULT_HEADER_NAV_MODULES = true -> ohas k r = true
}.

Lemma header_ok_default : header_ok DEFAULT_HEADER_NAV_MODULES.
Proof.
  split; [| |done].
  - apply (canonical_obj_of DEFAULT_HEADER_NAV_MODULES).
  - repeat constructor; first [done | by eexists].
Qed.

Lemma header_ok_set k v r : header_typed (k, v) -> header_ok r -> header_ok (oset k v r).
Proof.
  intros Hv [Hc He Hd]. split; [by apply canonical_oset|by apply Forall_oset|].
  intros j Hj. rewrite ohas_oset, (Hd j Hj). apply orb_true_r.
Qed.

Lemma header_ok_entry r e : header_ok r -> header_ok (header_entry r e).
Proof.
  destruct e as [k v]. intros Hr. unfold header_entry, assign_flag.
  destruct (bool_decide (k = js "pricing")) eqn:E1; [|destruct (bool_decide (k = js "rankings")) eqn:E2].
  - apply header_ok_set; [|done]. split; [done|by eexists].
  - apply header_ok_set; [|done]. split; [done|by eexists].
  - destruct (_ || _ || _ || _); [|done].
    destruct (bool_decide_reflect (k = js "__proto__")) as [Hp|Hp]; [done|].
    apply header_ok_set; [|done]. split; [done|]. unfold is_access_key. cbn [fst snd].
    rewrite E1, E2. by eexists.
Qed.

(** Whatever the server sends, the modules have the type the navigation relies on. *)
Lemma header_modules_typed raw : header_ok (parseHeaderNavModules raw).
Proof.
  unfold parseHeaderNavModules. destruct (truthy _); [|apply header_ok_default].
  apply fold_invariant; [apply header_ok_default|]. intros r e _. apply header_ok_entry.
Qed.

Lemma header_default_value k :
  oget k DEFAULT_HEADER_NAV_MODULES
  = if is_access_key k then Some (access_val DEFAULT_ACCESS)
    else if ohas k DEFAULT_HEADER_NAV_MODULES then Some (VBool true) else None.
Proof.
  unfold ohas, is_access_key, DEFAULT_HEADER_NAV_MODULES. cbn [oget].
  repeat (case_bool_decide; subst; [by vm_compute|]). done.
Qed.

(** The modules of a setting, entry by entry: the access of pricing and rankings is read with
    the default access as fallback; another default entry, when it is set to something that
    reads as a boolean, is that boolean and otherwise shown; an entry the console does not
    know is kept when its value is a boolean, a number or a text. *)
Theorem header_modules_exact raw o k :
  setting_object raw o -> k <> js "__proto__" ->
  at_ k (parseHeaderNavModules raw)
  = if is_access_key k then access_val (parseAccess (at_ k o) DEFAULT_ACCESS)
    else if ohas k DEFAULT_HEADER_NAV_MODULES then VBool (parseHeaderNavBoolean (at_ k o) true)
    else match at_ k o with
         | VBool _ | VNum _ | VStr _ => VBool (parseHeaderNavBoolean (at_ k o) true)
         | _ => VUndef
         end.
Proof.
  intros H Hp. rewrite !at_oget, (header_lookup _ _ _ H), header_default_value.
  unfold header_value, is_access_key. destruct (oget k o) as [v|].
  - destruct (_ || _); [done|]. rewrite bool_decide_eq_false_2 by done.
    destruct (ohas k _); [done|]. by destruct v.
  - destruct (_ || _); [done|]. by destruct (ohas k _).
Qed.

Lemma header_modules_exact_witness :
  at_ (js "rankings") (parseHeaderNavModules (VObj [(js "rankings", VObj [(js "enabled", VStr (js " FALSE "))])]))
  = access_val {| enabled := false; requireAuth := false |}.
Proof.
  rewrite (header_modules_exact _ [(js "rankings", VObj [(js "enabled", VStr (js " FALSE "))])]).
  - vm_compute. reflexivity.
  - split; [|by left].
    apply (canonical_obj_of [(js "rankings", VObj [(js "enabled", VStr (js " FALSE "))])]).
  - by apply (bool_decide_unpack (js "rankings" <> js "__proto__")).
Defined.

(** ** Theorems: the cached status *)

Lemma cached_status fits (Hfits : forall s, fits s = true) status s :
  truthy status = true -> json_ok status -> getCachedStatus (cacheStatus fits status s) = status.
Proof.
  intros Ht Hj. unfold cacheStatus. rewrite Ht.
  destruct (setItem_fits fits Hfits STATUS (ser status) s) as (s' & -> & H).
  cbn [catch]. unfold getCachedStatus. rewrite H, bool_decide_eq_true_2 by done.
  by rewrite ser_truthy, json_parse_ser.
Qed.

(** A fresh look at the status fails closed: when the request fails the module is disabled and
    needs a login, and nothing is cached.  When it succeeds and the status fits the storage,
    the cached access is from then on the one just read, for every module. *)
Theorem fresh_access_cached fits getStatus m s :
  (forall x, fits x = true) ->
  match getStatus with
  | Throw => getFreshModuleAccess fits getStatus m s = ({| enabled := false; requireAuth := true |}, s)
  | Return status =>
      truthy status = true -> json_ok status ->
      let '(access, s') := getFreshModuleAccess fits getStatus m s in
      access = getModuleAccess m s'
      /\ (forall m', getModuleAccess m' s' = getModuleAccessFromStatus status m')
      /\ forall k, k <> STATUS -> getItem s' k = getItem s k
  end.
Proof.
  intros Hfits. destruct getStatus as [status|]; [|done]. intros Ht Hj.
  cbn [getFreshModuleAccess]. unfold getModuleAccess. rewrite cached_status by done.
  split; [done|]. split; [done|]. intros k Hk. unfold cacheStatus. rewrite Ht.
  destruct (setItem_fits fits Hfits STATUS (ser status) s) as (s' & -> & H).
  cbn [catch]. by rewrite H, bool_decide_eq_false_2.
Qed.

Lemma fresh_access_cached_witness :
  getModuleAccess pricing
    (snd (getFreshModuleAccess (fun _ => true)
            (Return (VObj [(js "HeaderNavModules", VObj [(js "pricing", VBool false)])])) pricing []))
  = {| enabled := false; requireAuth := false |}.
Proof.
  pose proof (fresh_access_cached (fun _ => true)
    (Return (VObj [(js "HeaderNavModules", VObj [(js "pricing", VBool false)])])) pricing []
    (fun _ => eq_refl)) as H.
  destruct H as (_ & H & _); [reflexivity| |rewrite H; vm_compute; reflexivity].
  apply (json_ok_obj_of [(js "HeaderNavModules", VObj [(js "pricing", VBool false)])]).
  apply Forall_cons. split; [|constructor].
  apply (json_ok_obj_of [(js "pricing", VBool false)]). repeat constructor.
Defined.

(** ** Theorems: the guard *)

(** The guard of a side bar page closes it exactly when the cached status carries a setting
    that is a JSON text in which the section is switched off or the module is. *)
Lemma guard_closed section module s :
  isSidebarModuleEnabled section module s = false
  <-> exists raw parsed sec,
        prop (js "SidebarModulesAdmin") (getCachedStatus s) = raw
        /\ truthy raw = true /\ trim (to_string raw) <> []
        /\ json_parse (to_string raw) = Some parsed
        /\ prop section parsed = sec
        /\ (prop (js "enabled") sec = VBool false \/ prop module sec = VBool false).
Proof.
  assert (Hf : forall v, is_false v = true <-> v = VBool false).
  { intros v. by destruct v as [| |[]| | | |]. }
  unfold isSidebarModuleEnabled, prop_of. set (st := getCachedStatus s). split.
  - destruct (truthy st); [|done]. cbn [negb].
    destruct (truthy (prop (js "SidebarModulesAdmin") st)) eqn:Er; [|done]. cbn [negb orb].
    case_bool_decide as Hb; [done|]. destruct (json_parse _) as [parsed|] eqn:Ep; [|done].
    cbn [or_throw obind]. destruct (nullish parsed); [done|]. cbn [obind catch].
    destruct (truthy (prop section parsed)) eqn:Es; [|done]. cbn [negb]. intros H.
    eexists _, parsed, _. repeat split; try done. rewrite <- !Hf.
    destruct (is_false (prop (js "enabled") _)); [by left|].
    destruct (is_false (prop module _)); [by right|done].
  - intros (raw & parsed & sec & <- & Ht & Hb & Hp & <- & H).
    assert (Hst : truthy st = true) by (by destruct st).
    rewrite Hst, Ht, bool_decide_eq_false_2, Hp by done. cbn [negb orb or_throw obind].
    assert (Hparsed : nullish parsed = false) by (by destruct parsed; destruct H).
    rewrite Hparsed. cbn [obind catch].
    assert (Hsec : truthy (prop section parsed) = true).
    { destruct (prop section parsed); try (by destruct H); done. }
    rewrite Hsec. cbn [negb]. rewrite <- !Hf in H.
    destruct (is_false (prop (js "enabled") _)); [done|].
    destruct H as [H|H]; [done|by rewrite H].
Qed.
