(* ===== verification/SidebarConfig.v ===== *)
(** * The side bar ([hooks/use-sidebar-config.ts])

    Which entries of the side bar are shown: the setting of the administrator, completed with
    the defaults, decides first; the setting of the user can only hide more.

    The addresses of the entries start with a slash, so that looking one up never meets a
    property every object inherits.  The icon of an entry, a component, is left out. *)

From S2P Require Import Prelude JsString JsNumber JsValue JsJson WebStorage NavModules.

#[local] Open Scope N_scope.
#[local] Open Scope outcome_scope.

(** ** The defaults and the addresses *)

Definition flags_on (ks : list jsstr) : obj := (fun k => (k, VBool true)) <$> ks.

Definition chat_section : obj := flags_on [js "enabled"; js "playground"; js "chat"].
Definition console_section : obj :=
  flags_on [js "enabled"; js "detail"; js "token"; js "log"; js "midjourney"; js "task"].
Definition personal_section : obj := flags_on [js "enabled"; js "topup"; js "personal"].
Definition admin_section : obj :=
  flags_on [js "enabled"; js "channel"; js "models"; js "redemption"; js "user"; js "setting";
            js "subscription"].

Definition DEFAULT_SECTIONS : list (jsstr * obj) :=
  [ (js "chat", chat_section); (js "console", console_section);
    (js "personal", personal_section); (js "admin", admin_section) ].

Definition DEFAULT_SIDEBAR_MODULES : obj := (fun '(k, s) => (k, VObj s)) <$> DEFAULT_SECTIONS.

Record ConfigKey := { section : jsstr; module : jsstr }.

Definition to (s m : jsstr) : ConfigKey := {| section := s; module := m |}.

Definition URL_TO_CONFIG_MAP : list (jsstr * ConfigKey) :=
  [ (js "/playground", to (js "chat") (js "playground"));
    (js "/dashboard", to (js "console") (js "detail"));
    (js "/dashboard/overview", to (js "console") (js "detail"));
    (js "/dashboard/models", to (js "console") (js "detail"));
    (js "/dashboard/users", to (js "console") (js "detail"));
    (js "/keys", to (js "console") (js "token"));
    (js "/usage-logs", to (js "console") (js "log"));
    (js "/usage-logs/common", to (js "console") (js "log"));
    (js "/usage-logs/drawing", to (js "console") (js "midjourney"));
    (js "/usage-logs/task", to (js "console") (js "task"));
    (js "/wallet", to (js "personal") (js "topup"));
    (js "/profile", to (js "personal") (js "personal"));
    (js "/channels", to (js "admin") (js "channel"));
    (js "/models", to (js "admin") (js "models"));
    (js "/models/metadata", to (js "admin") (js "models"));
    (js "/models/deployments", to (js "admin") (js "models"));
    (js "/models/naming", to (js "admin") (js "models"));
    (js "/users", to (js "admin") (js "user"));
    (js "/redemption-codes", to (js "admin") (js "redemption"));
    (js "/subscriptions", to (js "admin") (js "subscription"));
    (js "/system-settings", to (js "admin") (js "setting"));
    (js "/system-settings/site", to (js "admin") (js "setting")) ].

Fixpoint config_of (url : jsstr) (l : list (jsstr * ConfigKey)) : option ConfigKey :=
  match l with
  | [] => None
  | (u, c) :: t => if bool_decide (u = url) then Some c else config_of url t
  end.

(** ** Reading the settings *)

(** The inner loop: a module the merged section leaves undefined gets its default. *)
Definition complete_section (defaultSection merged : obj) : obj :=
  fold_left (fun m k => if is_undef (at_ k m) then oset k (at_ k defaultSection) m else m)
    (okeys defaultSection) merged.

(** The callback of the outer [forEach]. *)
Definition merge_section (merged : obj) (entry : jsstr * obj) : obj :=
  let '(sectionKey, defaultSection) := entry in
  let existingSection := at_ sectionKey merged in
  if negb (truthy existingSection) then oset sectionKey (VObj defaultSection) merged
  else oset sectionKey
         (VObj (complete_section defaultSection
                  (ospread defaultSection (entries_of existingSection)))) merged.

Definition mergeWithDefaultSidebarModules (config : jsval) : obj :=
  fold_left merge_section DEFAULT_SECTIONS (obj_of (entries_of config)).

(** A setting that is no text, and not empty, has no [trim]. *)
Definition parseSidebarConfig (value : jsval) : outcome obj :=
  if negb (truthy value) then Return DEFAULT_SIDEBAR_MODULES
  else match value with
       | VStr s =>
           if bool_decide (trim s = []) then Return DEFAULT_SIDEBAR_MODULES
           else match json_parse s with
                | Some parsed => Return (mergeWithDefaultSidebarModules parsed)
                | None => Return DEFAULT_SIDEBAR_MODULES
                end
       | _ => Throw
       end.

(** [None] is the null that stands for no narrowing. *)
Definition parseUserSidebarConfig (value : jsval) : outcome (option jsval) :=
  if negb (truthy value) then Return None
  else match value with
       | VStr s =>
           if bool_decide (trim s = []) then Return None
           else match json_parse s with
                | Some ((VObj _ | VArr _) as parsed) => Return (Some parsed)
                | _ => Return None
                end
       | _ => Throw
       end.

(** ** Visibility *)

Definition admin_allows (k : ConfigKey) (adminConfig : obj) : bool :=
  let adminSection := at_ (section k) adminConfig in
  truthy adminSection && truthy (prop (js "enabled") adminSection)
  && is_true (prop (module k) adminSection).

Definition user_allows (k : ConfigKey) (userConfig : option jsval) : bool :=
  match userConfig with
  | None => true
  | Some u =>
      let userSection := prop (section k) u in
      if negb (truthy userSection) then true
      else if is_false (prop (js "enabled") userSection) then false
      else negb (is_false (prop (module k) userSection))
  end.

Definition isModuleEnabled (url : jsstr) (adminConfig : obj) (userConfig : option jsval) : bool :=
  match config_of url URL_TO_CONFIG_MAP with
  | None => true
  | Some mapping =>
      if negb (admin_allows mapping adminConfig) then false else user_allows mapping userConfig
  end.

Record BaseNavItem := {
  title : jsstr;
  badge : option jsstr;
  activeUrls : option (list jsstr);
  configUrls : option (list jsstr)
}.

Inductive NavItem :=
  | NavLink (base : BaseNavItem) (url : jsstr)
  | NavCollapsible (base : BaseNavItem) (items : list (BaseNavItem * jsstr))
  | NavChatPresets (base : BaseNavItem).

Record NavGroup := { group_id : option jsstr; group_title : jsstr; group_items : list NavItem }.

Definition chat_key : ConfigKey := {| section := js "chat"; module := js "chat" |}.

Section Visible.
Context (adminConfig : obj) (userConfig : option jsval).

Definition isNavItemVisible (item : NavItem) : bool :=
  match item with
  | NavChatPresets _ =>
      if negb (admin_allows chat_key adminConfig) then false else user_allows chat_key userConfig
  | NavLink base url =>
      if truthy_str url
      then existsb (fun u => isModuleEnabled u adminConfig userConfig)
             (default [url] (configUrls base))
      else true
  | NavCollapsible _ items =>
      existsb (fun sub => isModuleEnabled (snd sub) adminConfig userConfig) items
  end.

(** The callback of [map]: a collapsible item keeps its enabled sub-items. *)
Definition filter_sub_items (item : NavItem) : NavItem :=
  match item with
  | NavCollapsible base items =>
      NavCollapsible base (filterb (fun sub => isModuleEnabled (snd sub) adminConfig userConfig) items)
  | _ => item
  end.

Definition filterNavItems (items : list NavItem) : list NavItem :=
  filterb isNavItemVisible (filter_sub_items <$> items).

Definition filter_group (group : NavGroup) : NavGroup :=
  {| group_id := group_id group; group_title := group_title group;
     group_items := filterNavItems (group_items group) |}.

Definition filter_groups (navGroups : list NavGroup) : list NavGroup :=
  filterb (fun group => (0 <? length (group_items group))%nat) (filter_group <$> navGroups).
End Visible.

(** [sidebar_settings] is the permission of the user, [sidebar_modules] the setting. *)
Definition useSidebarConfig (SidebarModulesAdmin sidebar_settings sidebar_modules : jsval)
    (navGroups : list NavGroup) : outcome (list NavGroup) :=
  let! adminConfig := parseSidebarConfig SidebarModulesAdmin in
  let! userConfig := (if is_false sidebar_settings then Return None
                      else parseUserSidebarConfig sidebar_modules) in
  Return (filter_groups adminConfig userConfig navGroups).

(** ** Theorems: merging with the defaults *)

Lemma at_complete d m k :
  at_ k (complete_section d m)
  = if bool_decide (k ∈ okeys d) && is_undef (at_ k m) then at_ k d else at_ k m.
Proof.
  unfold complete_section. generalize (okeys d) as ks. intros ks. revert m.
  induction ks as [|j ks IH]; intros m; [done|]. cbn [fold_left]. rewrite IH. clear IH.
  destruct (decide (k = j)) as [->|Hkj].
  - rewrite (bool_decide_eq_true_2 (j ∈ j :: ks)) by apply list_elem_of_here. cbn [andb].
    destruct (is_undef (at_ j m)) eqn:E; [|by rewrite E, andb_false_r].
    rewrite at_oget, oget_oset_eq. cbn. by destruct (bool_decide (j ∈ ks)), (is_undef (at_ j d)).
  - rewrite (bool_decide_ext (k ∈ j :: ks) (k ∈ ks)) by set_solver.
    assert (Hm : at_ k (if is_undef (at_ j m) then oset j (at_ j d) m else m) = at_ k m).
    { destruct (is_undef (at_ j m)); [|done]. by rewrite at_oget, oget_oset_ne. }
    by rewrite !Hm.
Qed.

(** A module of a merged section: what the setting has, else the default. *)
Lemma at_merged_section d e k :
  forallb is_digit k = false -> tidy e -> k ∈ okeys d ->
  at_ k (complete_section d (ospread d (entries_of e)))
  = if is_undef (prop k e) then at_ k d else prop k e.
Proof.
  intros Hk He Hin. rewrite at_complete, bool_decide_eq_true_2 by done. cbn [andb].
  rewrite <- (oget_entries k e) by done. rewrite (at_oget k (ospread _ _)), oget_ospread.
  destruct (oget k (reverse (entries_of e))) as [v|]; [done|].
  change (default VUndef (oget k d)) with (at_ k d). cbn [default is_undef].
  by destruct (is_undef (at_ k d)).
Qed.

Definition merged_section (d : obj) (e : jsval) : jsval :=
  if negb (truthy e) then VObj d else VObj (complete_section d (ospread d (entries_of e))).

Lemma oget_merge_section r k d j :
  oget j (merge_section r (k, d))
  = if bool_decide (j = k) then Some (merged_section d (at_ k r)) else oget j r.
Proof.
  unfold merge_section, merged_section. cbv zeta.
  destruct (truthy (at_ k r)); cbn [negb]; apply oget_oset.
Qed.

Lemma oget_merge_fold ds r k :
  NoDup (ds.*1) ->
  oget k (fold_left merge_section ds r)
  = match list_find (fun kd => fst kd = k) ds with
    | Some (_, (_, d)) => Some (merged_section d (at_ k r))
    | None => oget k r
    end.
Proof.
  revert r; induction ds as [|[j d] ds IH]; intros r Hnd; [done|].
  cbn [fmap list_fmap fst] in Hnd. apply NoDup_cons in Hnd as [Hj Hnd].
  cbn [fold_left list_find fst]. rewrite IH by done. rewrite !at_oget, oget_merge_section.
  destruct (decide (j = k)) as [->|Hne].
  - rewrite bool_decide_eq_true_2 by done.
    assert (Hf : list_find (fun kd : jsstr * obj => fst kd = k) ds = None).
    { apply list_find_None, Forall_forall. intros [i x] Hx <-. apply Hj, list_elem_of_fmap.
      by exists (i, x). }
    by rewrite Hf.
  - rewrite (bool_decide_eq_false_2 (k = j)) by congruence.
    by destruct (list_find _ ds) as [[? [? ?]]|].
Qed.

(** The sections and modules the console knows. *)
Definition known (k : ConfigKey) : bool :=
  match list_find (fun kd => fst kd = section k) DEFAULT_SECTIONS with
  | Some (_, (_, d)) => bool_decide (module k ∈ okeys d) && negb (forallb is_digit (module k))
  | None => false
  end.

Lemma mapped_known url k : config_of url URL_TO_CONFIG_MAP = Some k -> known k = true.
Proof.
  assert (H : forallb (fun uk => known (snd uk)) URL_TO_CONFIG_MAP = true) by (by vm_compute).
  rewrite forallb_elem, Forall_forall in H || rewrite forallb_elem in H.
  intros Hk. apply (H (url, k)). clear H. revert Hk.
  generalize URL_TO_CONFIG_MAP as l. induction l as [|[u c] l IH]; cbn [config_of]; [done|].
  case_bool_decide; subst.
  - intros [= ->]. apply list_elem_of_here.
  - intros H'. apply list_elem_of_further. auto.
Qed.

(** What the defaults are about: every module is on. *)
Lemma default_section_on d k :
  (exists j, (j, d) ∈ DEFAULT_SECTIONS) -> k ∈ okeys d -> at_ k d = VBool true.
Proof.
  intros [j Hj] Hk. assert (H : exists ks, d = flags_on ks).
  { unfold DEFAULT_SECTIONS in Hj. repeat (apply elem_of_cons in Hj as [[= _ ->]|Hj]; [by eexists|]).
    by apply not_elem_of_nil in Hj. }
  destruct H as [ks ->]. unfold flags_on, okeys in *. rewrite <- list_fmap_compose in Hk.
  unfold compose in Hk. cbn in Hk. rewrite list_fmap_id in Hk.
  rewrite at_oget, (oget_map k (fun _ => VBool true)). by rewrite bool_decide_eq_true_2.
Qed.

(** The value a setting stands for: undefined when it is empty or no JSON. *)
Definition setting_value (value : jsval) : jsval :=
  match value with VStr s => default VUndef (json_parse s) | _ => VUndef end.

Lemma defaults_merged : mergeWithDefaultSidebarModules VUndef = DEFAULT_SIDEBAR_MODULES.
Proof. by vm_compute. Qed.

Lemma parsed_config value cfg :
  parseSidebarConfig value = Return cfg -> cfg = mergeWithDefaultSidebarModules (setting_value value).
Proof.
  unfold parseSidebarConfig. destruct (truthy value) eqn:Ht; cbn [negb].
  - destruct value as [| | | |s| |]; try done. cbn [setting_value].
    case_bool_decide as Hb.
    + intros <-%Return_inj. rewrite json_parse_blank by (by apply trim_nil).
      symmetry. apply defaults_merged.
    + destruct (json_parse s); intros <-%Return_inj; [done|]. symmetry. apply defaults_merged.
  - intros <-%Return_inj. destruct value as [| | | |[|c s]| |]; try done; symmetry; apply defaults_merged.
Qed.

Lemma setting_tidy value : setting_value value = VUndef \/ tidy (setting_value value).
Proof.
  destruct value as [| | | |s| |]; try by left. cbn [setting_value].
  destruct (json_parse s) eqn:E; [right|by left]. by eapply json_parse_tidy.
Qed.

(** What the section of a setting says about a module it may leave out. *)
Definition section_allows (m : jsstr) (e : jsval) : bool :=
  negb (truthy e)
  || (is_undef (prop (js "enabled") e) || truthy (prop (js "enabled") e))
     && (is_undef (prop m e) || is_true (prop m e)).

Lemma merged_allows d m e :
  (exists j, (j, d) ∈ DEFAULT_SECTIONS) -> m ∈ okeys d -> forallb is_digit m = false ->
  (e = VUndef \/ tidy e) ->
  truthy (prop (js "enabled") (merged_section d e)) && is_true (prop m (merged_section d e))
  = section_allows m e.
Proof.
  intros Hd Hm Hn He. unfold merged_section, section_allows.
  assert (Hen : js "enabled" ∈ okeys d).
  { destruct Hd as [j Hj]. clear -Hj. unfold DEFAULT_SECTIONS in Hj.
    repeat (apply elem_of_cons in Hj as [[= _ ->]|Hj]; [apply list_elem_of_here|]).
    by apply not_elem_of_nil in Hj. }
  destruct (truthy e) eqn:Ht; cbn [negb orb].
  - destruct He as [->|He]; [done|].
    change (prop ?k (VObj ?o)) with (at_ k o). rewrite !at_merged_section by done.
    rewrite !(default_section_on d) by done.
    by destruct (is_undef (prop (js "enabled") e)), (is_undef (prop m e)).
  - change (prop ?k (VObj ?o)) with (at_ k o). by rewrite !(default_section_on d).
Qed.

Lemma known_section k :
  known k = true ->
  exists d, (exists i, list_find (fun kd => fst kd = section k) DEFAULT_SECTIONS = Some (i, (section k, d)))
    /\ (exists j, (j, d) ∈ DEFAULT_SECTIONS) /\ module k ∈ okeys d
    /\ forallb is_digit (module k) = false.
Proof.
  unfold known. destruct (list_find _ DEFAULT_SECTIONS) as [[i [j d]]|] eqn:E; [|done].
  intros H. bool_hyps. apply list_find_Some in E as (El & Ej & _). cbn [fst] in Ej. subst j.
  exists d. split; [by eexists|]. split; [|done]. eexists. by eapply list_elem_of_lookup_2.
Qed.

(** The setting of the administrator, module by module: a module is shown exactly when the
    section is missing, or when it is switched on or leaves that out, and the module is true
    or left out; a setting that is empty or no JSON shows everything. *)
Lemma admin_allows_setting value cfg k :
  parseSidebarConfig value = Return cfg -> known k = true ->
  admin_allows k cfg = section_allows (module k) (prop (section k) (setting_value value)).
Proof.
  intros ->%parsed_config Hk. destruct (known_section k Hk) as (d & [i Hd] & Hj & Hm & Hn).
  unfold admin_allows, mergeWithDefaultSidebarModules.
  rewrite (at_oget (section k) (fold_left _ _ _)), oget_merge_fold
    by (apply (bool_decide_unpack (NoDup _)); by vm_compute).
  rewrite Hd. cbn [default from_option].
  assert (Hs : at_ (section k) (obj_of (entries_of (setting_value value)))
               = prop (section k) (setting_value value)).
  { unfold obj_of. rewrite at_oget, oget_ospread. cbn [oget].
    destruct (setting_tidy value) as [->|Ht]; [done|].
    rewrite <- oget_entries; [|clear -Hd|done].
    - by destruct (oget _ (reverse _)).
    - apply list_find_Some in Hd as (Hd & _). apply list_elem_of_lookup_2 in Hd.
      unfold DEFAULT_SECTIONS in Hd.
      repeat (apply elem_of_cons in Hd as [[= -> _]|Hd]; [done|]).
      by apply not_elem_of_nil in Hd. }
  rewrite Hs. change (from_option id VUndef (Some ?x)) with x. cbn [default].
  rewrite <- (merged_allows d); [|done|done|done|].
  - unfold id, merged_section. by destruct (negb _).
  - destruct (setting_tidy value) as [->|Ht]; [by left|by apply tidy_prop].
Qed.

(** The link of a mapped address is shown exactly when the setting of the administrator shows
    its module (the section is missing, or it is switched on or leaves that out and the module
    is true or left out; a setting that is empty or no JSON shows everything) and the user did
    not hide it. *)
Theorem sidebar_setting_exact value cfg url k u :
  parseSidebarConfig value = Return cfg -> config_of url URL_TO_CONFIG_MAP = Some k ->
  isModuleEnabled url cfg u
  = section_allows (module k) (prop (section k) (setting_value value)) && user_allows k u.
Proof.
  intros Hcfg Hk. unfold isModuleEnabled. rewrite Hk.
  rewrite (admin_allows_setting _ _ _ Hcfg (mapped_known _ _ Hk)). by destruct (section_allows _ _).
Qed.

Lemma sidebar_setting_exact_witness :
  isModuleEnabled (js "/usage-logs")
    (mergeWithDefaultSidebarModules (VObj [(js "console", VObj [(js "log", VNum zero)])])) None = false.
Proof.
  rewrite (sidebar_setting_exact
    (VStr (ser (VObj [(js "console", VObj [(js "log", VNum zero)])]))) _ _
    (to (js "console") (js "log"))); vm_compute; reflexivity.
Defined.

(** ** Theorems: the entries that are shown *)

(** The links of a list of groups, in order: the title of the group, the title of the entry
    and its address; an entry of chat presets has none. *)
Definition item_links (item : NavItem) : list (jsstr * option jsstr) :=
  match item with
  | NavLink base url => [(title base, Some url)]
  | NavCollapsible base items => (fun sub => (title (fst sub), Some (snd sub))) <$> items
  | NavChatPresets base => [(title base, None)]
  end.

Definition group_links (g : NavGroup) : list (jsstr * (jsstr * option jsstr)) :=
  (fun l => (group_title g, l)) <$> (group_items g ≫= item_links).

Definition nav_links (gs : list NavGroup) : list (jsstr * (jsstr * option jsstr)) :=
  gs ≫= group_links.

Lemma user_narrows k u : user_allows k u = true -> user_allows k None = true.
Proof. done. Qed.

Lemma enabled_narrows url a u : isModuleEnabled url a u = true -> isModuleEnabled url a None = true.
Proof.
  unfold isModuleEnabled. destruct (config_of url _) as [k|]; [|done].
  by destruct (negb (admin_allows k a)).
Qed.

Lemma existsb_impl {A} (f g : A -> bool) l :
  (forall x, f x = true -> g x = true) -> existsb f l = true -> existsb g l = true.
Proof. rewrite !existsb_elem. intros H (x & Hx & Hf). exists x. auto. Qed.

Lemma filterb_impl {A} (f g : A -> bool) l :
  (forall x, f x = true -> g x = true) -> filterb f l `sublist_of` filterb g l.
Proof.
  intros H. induction l as [|x l IH]; [done|]. cbn [filterb]. specialize (H x).
  destruct (f x); [rewrite H by done; by constructor|]. destruct (g x); [by constructor|done].
Qed.

Lemma bind_sublist {A B} (f g : A -> list B) l :
  (forall x, f x `sublist_of` g x) -> (l ≫= f) `sublist_of` (l ≫= g).
Proof. intros H. induction l as [|x l IH]; [done|]. cbn. by apply sublist_app. Qed.

(** One entry: what is shown of it, as links. *)
Definition shown_links (a : obj) (u : option jsval) (item : NavItem) : list (jsstr * option jsstr) :=
  if isNavItemVisible a u (filter_sub_items a u item) then item_links (filter_sub_items a u item) else [].

Lemma links_of_items a u items :
  filterNavItems a u items ≫= item_links = items ≫= shown_links a u.
Proof.
  unfold filterNavItems, shown_links. induction items as [|x l IH]; [done|].
  cbn [fmap list_fmap filterb mbind list_bind].
  destruct (isNavItemVisible a u (filter_sub_items a u x)); cbn [mbind list_bind];
    rewrite <- IH; done.
Qed.

Lemma shown_links_narrow a u item : shown_links a u item `sublist_of` shown_links a None item.
Proof.
  unfold shown_links. destruct item as [base url|base items|base].
  - cbn [filter_sub_items isNavItemVisible item_links]. destruct (truthy_str url); [|done].
    destruct (existsb (fun x => isModuleEnabled x a u) _) eqn:E; [|apply sublist_nil_l].
    rewrite (existsb_impl _ (fun x => isModuleEnabled x a None) _ (fun x => enabled_narrows x a u) E).
    done.
  - cbn [filter_sub_items isNavItemVisible item_links].
    destruct (existsb _ _) eqn:E; [|apply sublist_nil_l].
    assert (Hs : filterb (fun sub => isModuleEnabled (snd sub) a u) items
                 `sublist_of` filterb (fun sub : BaseNavItem * jsstr => isModuleEnabled (snd sub) a None) items).
    { apply filterb_impl. intros x. apply enabled_narrows. }
    destruct (existsb (fun sub => isModuleEnabled (snd sub) a None) _) eqn:E2.
    + by apply sublist_map.
    + exfalso. apply not_true_iff_false in E2. apply E2. apply existsb_elem in E as (x & Hx & E).
      apply existsb_elem. exists x. split; [by eapply sublist_in|by apply (enabled_narrows _ _ u)].
  - cbn [filter_sub_items isNavItemVisible item_links].
    destruct (negb (admin_allows chat_key a)); [done|]. cbn [user_allows].
    destruct (user_allows chat_key u); [done|apply sublist_nil_l].
Qed.

Lemma shown_links_item a u item : shown_links a u item `sublist_of` item_links item.
Proof.
  unfold shown_links. destruct (isNavItemVisible a u _); [|apply sublist_nil_l].
  destruct item as [base url|base items|base]; cbn [filter_sub_items item_links]; [done| |done].
  apply sublist_map, filterb_sublist.
Qed.

Lemma links_of_groups a u gs :
  nav_links (filter_groups a u gs)
  = gs ≫= (fun g => (fun l => (group_title g, l)) <$> (group_items g ≫= shown_links a u)).
Proof.
  unfold nav_links, filter_groups. induction gs as [|g gs IH]; [done|].
  cbn [fmap list_fmap filterb mbind list_bind]. rewrite <- links_of_items, <- IH. clear IH.
  unfold filter_group at 1 2. cbn [group_items].
  destruct (filterNavItems a u (group_items g)) as [|i l] eqn:E; cbn [length Nat.ltb Nat.leb]; [done|].
  reflexivity.
Qed.

(** C23. The setting of the user only narrows: the links shown with it are, in the same order, some
    of those the administrator allows, which are some of the links of the menu. *)
Theorem sidebar_user_narrows admin u gs :
  nav_links (filter_groups admin u gs) `sublist_of` nav_links (filter_groups admin None gs)
  /\ nav_links (filter_groups admin None gs) `sublist_of` nav_links gs.
Proof.
  rewrite !links_of_groups. split.
  - apply bind_sublist. intros g. apply sublist_map, bind_sublist. intros i. apply shown_links_narrow.
  - unfold nav_links, group_links. apply bind_sublist. intros g. apply sublist_map, bind_sublist.
    intros i. apply shown_links_item.
Qed.

(** Nothing empty is shown: every group of the side bar has an entry, every collapsible entry
    has a sub-entry, and every sub-entry is one whose module is enabled. *)
Theorem sidebar_nothing_empty a u gs g :
  g ∈ filter_groups a u gs ->
  group_items g <> []
  /\ forall item, item ∈ group_items g ->
      isNavItemVisible a u item = true
      /\ match item with
         | NavCollapsible _ items =>
             items <> [] /\ Forall (fun sub => isModuleEnabled (snd sub) a u = true) items
         | _ => True
         end.
Proof.
  unfold filter_groups. rewrite elem_of_filterb. intros [Hlen Hg].
  apply list_elem_of_fmap in Hg as (g0 & -> & _). split.
  { by destruct (group_items (filter_group a u g0)). }
  unfold filter_group, filterNavItems. cbn [group_items]. intros item.
  rewrite elem_of_filterb. intros [Hv Hi]. split; [done|].
  apply list_elem_of_fmap in Hi as (item0 & -> & _). destruct item0 as [|base items|]; try done.
  cbn [filter_sub_items isNavItemVisible] in *. split.
  - by destruct (filterb _ items).
  - apply Forall_forall. intros sub [Hs _]%elem_of_filterb. exact Hs.
Qed.

Definition sample_menu : list NavGroup :=
  let base t := {| title := t; badge := None; activeUrls := None; configUrls := None |} in
  [ {| group_id := None; group_title := js "Logs";
       group_items := [NavCollapsible (base (js "Usage"))
                         [(base (js "Common"), js "/usage-logs/common"); (base (js "Task"), js "/usage-logs/task")]] |};
    {| group_id := None; group_title := js "Admin"; group_items := [NavLink (base (js "Users")) (js "/users")] |} ].

Definition sample_admin : obj :=
  mergeWithDefaultSidebarModules
    (VObj [(js "console", VObj [(js "task", VBool false)]); (js "admin", VObj [(js "enabled", VBool false)])]).

Lemma sidebar_nothing_empty_witness :
  exists g, filter_groups sample_admin None sample_menu = [g] /\ group_items g <> [].
Proof.
  eexists. split; [vm_compute; reflexivity|].
  refine (proj1 (sidebar_nothing_empty sample_admin None sample_menu _ _)).
  assert (H : forall g, filter_groups sample_admin None sample_menu = [g] ->
                g ∈ filter_groups sample_admin None sample_menu).
  { intros g ->. apply list_elem_of_here. }
  apply H. vm_compute. reflexivity.
Defined.

(** A link that is shown can be opened: when the side bar shows the link of a mapped address,
    the guard of its page, which reads the same setting from the cached status, lets the user
    in. *)
Theorem shown_link_passes_guard s cfg u url k :
  config_of url URL_TO_CONFIG_MAP = Some k ->
  parseSidebarConfig (prop (js "SidebarModulesAdmin") (getCachedStatus s)) = Return cfg ->
  isModuleEnabled url cfg u = true ->
  isSidebarModuleEnabled (section k) (module k) s = true.
Proof.
  intros Hurl Hcfg Hen. apply not_false_iff_true. intros Hg.
  unfold isModuleEnabled in Hen. rewrite Hurl in Hen.
  pose proof (admin_allows_setting _ _ _ Hcfg (mapped_known _ _ Hurl)) as Ha.
  destruct (admin_allows k cfg); [|done]. clear Hen. symmetry in Ha.
  apply guard_closed in Hg as (raw & parsed & sec & Er & Ht & Hb & Hp & Es & Hoff).
  rewrite Er in *. destruct raw as [| | | |t| |]; try done; cbn [setting_value to_string] in *;
    try (unfold parseSidebarConfig in Hcfg; by rewrite Ht in Hcfg).
  rewrite Hp in Ha. cbn [default] in Ha. change (from_option id VUndef (Some parsed)) with parsed in Ha.
  unfold id in Ha. rewrite Es in Ha. unfold section_allows in Ha.
  assert (Hsec : truthy sec = true) by (destruct sec; try (by destruct Hoff); done).
  rewrite Hsec in Ha. cbn [negb orb] in Ha. apply andb_true_iff in Ha as [H1 H2].
  destruct Hoff as [Ho|Ho]; rewrite Ho in *; done.
Qed.

Lemma shown_link_passes_guard_witness :
  isSidebarModuleEnabled (js "chat") (js "playground")
    [(js "status", ser (VObj [(js "SidebarModulesAdmin", VStr (js "{}"))]))] = true.
Proof.
  apply (shown_link_passes_guard _ DEFAULT_SIDEBAR_MODULES None (js "/playground")
           (to (js "chat") (js "playground"))); vm_compute; reflexivity.
Defined.
