(* ===== verification/NavSettings.v ===== *)
(** * The navigation settings ([features/system-settings/maintenance/config.ts])

    What the settings page reads from, and writes to, the two stored settings of the
    navigation: [HeaderNavModules] and [SidebarModulesAdmin].  The module [Settings] has the
    functions of the file, whose names the readers of the navigation ([NavModules],
    [SidebarConfig]) also use; the theorems compare the three readers of each setting.

    Section and module names that every object inherits ([toString] and the like) are read
    as ordinary names. *)

From S2P Require Import Prelude JsString JsNumber JsValue JsJson WebStorage NavModules SidebarConfig.

#[local] Open Scope N_scope.
#[local] Open Scope outcome_scope.

Module Settings.

Definition HEADER_NAV_DEFAULT : obj :=
  [ (js "home", VBool true); (js "console", VBool true);
    (js "pricing", VObj [(js "enabled", VBool true); (js "requireAuth", VBool false)]);
    (js "rankings", VObj [(js "enabled", VBool true); (js "requireAuth", VBool false)]);
    (js "docs", VBool true); (js "about", VBool true) ].

Definition SIDEBAR_MODULES_DEFAULT : obj :=
  [ (js "chat", VObj (flags_on [js "enabled"; js "playground"; js "chat"]));
    (js "console", VObj (flags_on [js "enabled"; js "detail"; js "token"; js "log"; js "midjourney";
                                   js "task"]));
    (js "personal", VObj (flags_on [js "enabled"; js "topup"; js "personal"]));
    (js "admin", VObj (flags_on [js "enabled"; js "channel"; js "models"; js "redemption"; js "user";
                                 js "setting"; js "subscription"])) ].

Definition toBoolean (value : jsval) (fallback : bool) : bool :=
  match value with
  | VBool b => b
  | VNum n => neqb n (num_of_Z 1)
  | VStr s =>
      let normalized := to_lower (trim s) in
      if bool_decide (normalized = js "true") || bool_decide (normalized = js "1") then true
      else if bool_decide (normalized = js "false") || bool_decide (normalized = js "0") then false
      else fallback
  | _ => fallback
  end.

Definition cloneHeaderNavDefault : obj := HEADER_NAV_DEFAULT.

Definition parseAccessModule (raw : jsval) (fallback : ModuleAccess) : ModuleAccess :=
  match raw with
  | VBool _ | VStr _ | VNum _ =>
      {| enabled := toBoolean raw (enabled fallback); requireAuth := requireAuth fallback |}
  | VArr _ | VObj _ =>
      {| enabled := toBoolean (prop (js "enabled") raw) (enabled fallback);
         requireAuth := toBoolean (prop (js "requireAuth") raw) (requireAuth fallback) |}
  | VUndef | VNull => fallback
  end.

Definition cloneSidebarDefault : obj := obj_of SIDEBAR_MODULES_DEFAULT.

(** The names every object inherits; what they name is truthy. *)
Definition inherited (k : jsstr) : bool :=
  existsb (fun n => bool_decide (k = n))
    [ js "constructor"; js "__defineGetter__"; js "__defineSetter__"; js "hasOwnProperty";
      js "__lookupGetter__"; js "__lookupSetter__"; js "isPrototypeOf"; js "propertyIsEnumerable";
      js "toString"; js "valueOf"; js "__proto__"; js "toLocaleString" ].

(** The callback of [forEach] over the entries of the header setting. *)
Definition header_entry (base result : obj) (entry : jsstr * jsval) : obj :=
  let '(key, raw) := entry in
  if bool_decide (key = js "pricing")
  then oset (js "pricing") (access_val (parseAccessModule raw (access_of (at_ (js "pricing") base)))) result
  else if bool_decide (key = js "rankings")
  then oset (js "rankings") (access_val (parseAccessModule raw (access_of (at_ (js "rankings") base)))) result
  else match raw with
       | VBool b => assign_flag key b result
       | VStr _ | VNum _ =>
           assign_flag key (toBoolean raw (truthy (at_ key base) || inherited key)) result
       | _ => result
       end.

Definition parseHeaderNavModules (value : jsval) : obj :=
  let base := cloneHeaderNavDefault in
  if negb (truthy value) then base
  else match json_parse (to_string value) with
       | Some VNull | None => base
       | Some parsed => fold_left (header_entry base) (entries_of parsed) base
       end.

Definition serializeHeaderNavModules (config : obj) : jsstr := ser (VObj config).

(** [v ?? true] for a flag. *)
Definition or_true (v : jsval) : bool := match v with VBool b => b | _ => true end.

(** A module of a section: [enabled] was read before the others. *)
Definition module_entry (defaultSection sectionConfig : obj) (entry : jsstr * jsval) : obj :=
  let '(moduleKey, moduleValue) := entry in
  if bool_decide (moduleKey = js "enabled") then sectionConfig
  else assign_flag moduleKey (toBoolean moduleValue (or_true (at_ moduleKey defaultSection)))
         sectionConfig.

Definition read_section (defaultSection : obj) (raw : jsval) : obj :=
  fold_left (module_entry defaultSection) (entries_of raw)
    [(js "enabled", VBool (toBoolean (prop (js "enabled") raw)
                             (or_true (at_ (js "enabled") defaultSection))))].

(** A section of the setting.  Assigning an object to [__proto__] adds no property. *)
Definition section_entry (defaults result : obj) (entry : jsstr * jsval) : obj :=
  let '(sectionKey, raw) := entry in
  match raw with
  | VObj _ | VArr _ =>
      let defaultSection := match at_ sectionKey defaults with
                            | VObj d => d
                            | _ => [(js "enabled", VBool true)]
                            end in
      if bool_decide (sectionKey = js "__proto__") then result
      else oset sectionKey (VObj (read_section defaultSection raw)) result
  | _ => result
  end.

(** The defaults fill in the sections and the modules that are missing. *)
Definition complete_with (config : obj) (section : obj) : obj :=
  fold_left (fun s '(moduleKey, moduleValue) =>
               if negb (ohas moduleKey s) then oset moduleKey moduleValue s else s) config section.

Definition default_entry (result : obj) (entry : jsstr * jsval) : obj :=
  let '(sectionKey, config) := entry in
  match at_ sectionKey result with
  | VObj section => oset sectionKey (VObj (complete_with (entries_of config) section)) result
  | _ => oset sectionKey config result
  end.

Definition parseSidebarModulesAdmin (value : jsval) : outcome obj :=
  let defaults := cloneSidebarDefault in
  if negb (truthy value) then Return defaults
  else match value with
       | VStr s =>
           if bool_decide (trim s = []) then Return defaults
           else match json_parse s with
                | Some VNull | None => Return defaults
                | Some parsed =>
                    Return (fold_left default_entry defaults
                              (fold_left (section_entry defaults) (entries_of parsed) []))
                end
       | _ => Throw
       end.

Definition serializeSidebarModulesAdmin (config : obj) : jsstr := ser (VObj config).

End Settings.

(** ** Theorems: the header setting *)

Lemma assign_flag_ok k b r : is_access_key k = false -> header_ok r -> header_ok (assign_flag k b r).
Proof.
  intros Hk Hr. unfold assign_flag. destruct (bool_decide_reflect (k = js "__proto__")) as [Hp|Hp]; [done|].
  apply header_ok_set; [|done]. split; [done|]. cbn [fst snd]. rewrite Hk. by eexists.
Qed.

Lemma settings_entry_ok base r e : header_ok r -> header_ok (Settings.header_entry base r e).
Proof.
  destruct e as [k v]. intros Hr. unfold Settings.header_entry.
  destruct (bool_decide (k = js "pricing")) eqn:E1; [|destruct (bool_decide (k = js "rankings")) eqn:E2].
  - apply header_ok_set; [|done]. split; [done|by eexists].
  - apply header_ok_set; [|done]. split; [done|by eexists].
  - assert (Hk : is_access_key k = false) by (unfold is_access_key; by rewrite E1, E2).
    destruct v; try done; by apply assign_flag_ok.
Qed.

Lemma header_settings_ok value : header_ok (Settings.parseHeaderNavModules value).
Proof.
  unfold Settings.parseHeaderNavModules.
  destruct (truthy value); cbn [negb]; [|apply header_ok_default].
  destruct (json_parse _) as [parsed|]; [|apply header_ok_default].
  destruct parsed; try apply header_ok_default;
    (apply fold_invariant; [apply header_ok_default|]; intros r e _; apply settings_entry_ok).
Qed.

Lemma header_json_ok c : header_ok c -> json_ok (VObj c).
Proof.
  intros [Hc He _]. apply json_ok_obj. split; [done|]. eapply Forall_impl; [exact He|].
  intros [k v] [_ Hv]. cbn [fst snd] in *. destruct (is_access_key k); destruct Hv as [x ->]; [|done].
  apply (json_ok_obj_of [(js "enabled", VBool (enabled x)); (js "requireAuth", VBool (requireAuth x))]).
  repeat constructor.
Qed.

Lemma header_value_of c k v :
  header_ok c -> oget k c = Some v ->
  k <> js "__proto__"
  /\ if is_access_key k then exists a, v = access_val a else exists b, v = VBool b.
Proof. intros [_ He _] Hv%oget_Some_elem. by eapply Forall_forall in He; [|exact Hv]. Qed.

Lemma header_missing c k :
  header_ok c -> oget k c = None -> oget k DEFAULT_HEADER_NAV_MODULES = None.
Proof.
  intros [_ _ Hd] Hk. specialize (Hd k). unfold ohas in Hd. rewrite Hk in Hd.
  destruct (oget k DEFAULT_HEADER_NAV_MODULES); [by specialize (Hd eq_refl)|done].
Qed.

Lemma ser_obj_nonblank o : json_ok (VObj o) -> trim (ser (VObj o)) <> [].
Proof.
  intros Ho Ht. apply trim_nil in Ht. pose proof (json_parse_blank _ Ht) as Hp.
  by rewrite json_parse_ser in Hp.
Qed.

Lemma setting_of_config c : header_ok c -> setting_object (VStr (ser (VObj c))) c.
Proof.
  intros Hc. pose proof (header_json_ok c Hc) as Hj. split; [by destruct Hc|]. right.
  exists (ser (VObj c)). split; [done|]. split; [by apply ser_obj_nonblank|by apply json_parse_ser].
Qed.

Lemma access_of_val a : access_of (access_val a) = a.
Proof.
  destruct a as [e r]. unfold access_of, access_val. cbn [enabled requireAuth].
  assert (H1 : prop (js "enabled") (VObj [(js "enabled", VBool e); (js "requireAuth", VBool r)]) = VBool e)
    by reflexivity.
  assert (H2 : prop (js "requireAuth") (VObj [(js "enabled", VBool e); (js "requireAuth", VBool r)]) = VBool r)
    by reflexivity.
  rewrite H1, H2. by destruct e, r.
Qed.

(** Both readers read the two flags of a stored access back. *)
Lemma parse_access_val a d : parseAccess (access_val a) d = a.
Proof. by destruct a. Qed.

Lemma parse_access_module_val a d : Settings.parseAccessModule (access_val a) d = a.
Proof. by destruct a. Qed.

Lemma nav_reads_config c :
  header_ok c -> obj_eq (parseHeaderNavModules (VStr (ser (VObj c)))) c.
Proof.
  intros Hc k. rewrite (header_lookup _ _ k (setting_of_config c Hc)).
  destruct (oget k c) as [v|] eqn:E; [|by apply (header_missing c)].
  destruct (header_value_of c k v Hc E) as [Hp Hv]. unfold header_value. fold (is_access_key k).
  destruct (is_access_key k); destruct Hv as [x ->].
  - by rewrite parse_access_val.
  - cbn [is_boolean]. rewrite orb_true_r. cbn [orb]. by rewrite bool_decide_eq_false_2.
Qed.

Definition settings_value (base : obj) (k : jsstr) (v : jsval) (old : option jsval) : option jsval :=
  if is_access_key k then Some (access_val (Settings.parseAccessModule v (access_of (at_ k base))))
  else match v with
       | VBool b => if bool_decide (k = js "__proto__") then old else Some (VBool b)
       | VStr _ | VNum _ =>
           if bool_decide (k = js "__proto__") then old
           else Some (VBool (Settings.toBoolean v (truthy (at_ k base) || Settings.inherited k)))
       | _ => old
       end.

Lemma oget_assign_flag j k b r :
  oget j (assign_flag k b r)
  = if bool_decide (j = k)
    then if bool_decide (k = js "__proto__") then oget k r else Some (VBool b) else oget j r.
Proof.
  unfold assign_flag. destruct (bool_decide (k = js "__proto__")); [|apply oget_oset].
  case_bool_decide; by subst.
Qed.

Lemma oget_settings_entry base r k v j :
  oget j (Settings.header_entry base r (k, v))
  = if bool_decide (j = k) then settings_value base k v (oget k r) else oget j r.
Proof.
  unfold Settings.header_entry, settings_value, is_access_key.
  destruct (bool_decide_reflect (k = js "pricing")) as [->|H1]; [apply oget_oset|].
  destruct (bool_decide_reflect (k = js "rankings")) as [->|H2]; [apply oget_oset|]. cbn [orb].
  destruct v; try apply oget_assign_flag; case_bool_decide; by subst.
Qed.

Lemma settings_read_config c :
  header_ok c -> obj_eq (Settings.parseHeaderNavModules (VStr (ser (VObj c)))) c.
Proof.
  intros Hc k. pose proof (header_json_ok c Hc) as Hj. unfold Settings.parseHeaderNavModules.
  cbn [truthy to_string]. rewrite ser_truthy, json_parse_ser by done. cbn [negb entries_of].
  rewrite (oget_fold _ (settings_value Settings.cloneHeaderNavDefault))
    by (intros; first [apply oget_settings_entry|by destruct Hc as [[? _] _ _] ]).
  destruct (oget k c) as [v|] eqn:E; [|by apply (header_missing c)].
  destruct (header_value_of c k v Hc E) as [Hp Hv]. unfold settings_value.
  destruct (is_access_key k); destruct Hv as [x ->].
  - by rewrite parse_access_module_val.
  - by rewrite bool_decide_eq_false_2.
Qed.

(** Saving the header setting settles it: whatever was stored, once the settings page has
    written back what it read, the page reads the same configuration again, and the navigation
    shows exactly what the page shows. *)
Theorem header_settings_effective value :
  let config := Settings.parseHeaderNavModules value in
  let stored := VStr (Settings.serializeHeaderNavModules config) in
  obj_eq (Settings.parseHeaderNavModules stored) config
  /\ obj_eq (parseHeaderNavModules stored) config
  /\ forall m, getModuleAccessFromStatus (VObj [(js "HeaderNavModules", stored)]) m
              = access_of (at_ (module_key m) config).
Proof.
  cbv zeta. pose proof (header_settings_ok value) as Hc. unfold Settings.serializeHeaderNavModules.
  set (config := Settings.parseHeaderNavModules value) in *.
  split; [by apply settings_read_config|]. split; [by apply nav_reads_config|]. intros m.
  unfold getModuleAccessFromStatus, parseHeaderNavModulesFromStatus.
  change (prop (js "HeaderNavModules") (VObj [(js "HeaderNavModules", ?x)])) with x.
  rewrite (at_proper (module_key m) _ _ (nav_reads_config config Hc)).
  assert (Hm : ohas (module_key m) config = true) by (apply Hc; by destruct m).
  unfold ohas in Hm. rewrite at_oget. destruct (oget (module_key m) config) as [v|] eqn:E; [|done].
  destruct (header_value_of _ _ _ Hc E) as [_ Hv].
  assert (Ha : is_access_key (module_key m) = true) by (by destruct m).
  rewrite Ha in Hv. by destruct Hv as [a ->].
Qed.

(** ** Theorems: the side bar setting *)

(** A section the settings page made: flags under distinct keys, [enabled] among them. *)
Definition section_ok (s : obj) : Prop :=
  canonical s /\ Forall (fun kv => is_boolean (snd kv) = true) s /\ ohas (js "enabled") s = true.

Definition section_typed (kv : jsstr * jsval) : Prop := exists s, snd kv = VObj s /\ section_ok s.

Definition sections_ok (c : obj) : Prop := canonical c /\ Forall section_typed c.

Lemma section_ok_set k b s : section_ok s -> section_ok (oset k (VBool b) s).
Proof.
  intros (Hc & Hb & He). split; [by apply canonical_oset|]. split; [by apply Forall_oset|].
  rewrite ohas_oset, He. apply orb_true_r.
Qed.

Lemma section_ok_read d raw : section_ok (Settings.read_section d raw).
Proof.
  unfold Settings.read_section. apply fold_invariant.
  - split; [|split; [by repeat constructor|done] ].
    apply (canonical_obj_of [(js "enabled", VBool (Settings.toBoolean (prop (js "enabled") raw)
                             (Settings.or_true (at_ (js "enabled") d))))]).
  - intros r [k v] _ Hr. unfold Settings.module_entry, assign_flag.
    destruct (bool_decide (k = js "enabled")); [done|].
    destruct (bool_decide (k = js "__proto__")); [done|]. by apply section_ok_set.
Qed.

Lemma sections_ok_set k s c : section_ok s -> sections_ok c -> sections_ok (oset k (VObj s) c).
Proof.
  intros Hs [Hc Hf]. split; [by apply canonical_oset|]. apply Forall_oset; [|done]. by exists s.
Qed.

Lemma sections_ok_read defaults es : sections_ok (fold_left (Settings.section_entry defaults) es []).
Proof.
  apply fold_invariant; [split; [apply canonical_nil|constructor]|].
  intros r [k v] _ Hr. unfold Settings.section_entry.
  destruct v; try done; (destruct (bool_decide (k = js "__proto__")); [done|]);
    apply sections_ok_set; try done; apply section_ok_read.
Qed.

Lemma flags_boolean ks : Forall (fun kv => is_boolean (snd kv) = true) (flags_on ks).
Proof. apply Forall_fmap, Forall_true. done. Qed.

Lemma section_ok_complete d s :
  Forall (fun kv => is_boolean (snd kv) = true) d -> section_ok s -> section_ok (Settings.complete_with d s).
Proof.
  intros Hd Hs. unfold Settings.complete_with. apply fold_invariant; [done|].
  intros r [k v] Hin Hr. destruct (negb (ohas k r)); [|done].
  eapply Forall_forall in Hd; [|exact Hin]. cbn [snd] in Hd.
  destruct v; try done. by apply section_ok_set.
Qed.

Lemma ohas_complete d s k :
  ohas k (Settings.complete_with d s) = ohas k s || bool_decide (k ∈ okeys d).
Proof.
  unfold Settings.complete_with. revert s; induction d as [|[j v] d IH]; intros s.
  { by rewrite orb_false_r. }
  cbn [fold_left]. rewrite IH. clear IH. cbn [okeys fmap list_fmap fst].
  destruct (decide (k = j)) as [->|Hkj].
  - rewrite (bool_decide_eq_true_2 (j ∈ _ :: _)) by apply list_elem_of_here. rewrite orb_true_r.
    destruct (ohas j s) eqn:E; cbn [negb]; [by rewrite E|].
    by rewrite ohas_oset, bool_decide_eq_true_2.
  - rewrite (bool_decide_ext (k ∈ j :: d.*1) (k ∈ d.*1)) by set_solver. f_equal.
    destruct (negb (ohas j s)); [|done]. by rewrite ohas_oset, bool_decide_eq_false_2.
Qed.

Definition default_value (v : jsval) (old : option jsval) : jsval :=
  match old with
  | Some (VObj s) => VObj (Settings.complete_with (entries_of v) s)
  | _ => v
  end.

Lemma oget_default_entry r k v j :
  oget j (Settings.default_entry r (k, v))
  = if bool_decide (j = k) then Some (default_value v (oget k r)) else oget j r.
Proof.
  unfold Settings.default_entry, default_value, at_.
  destruct (oget k r) as [[]|]; cbn [default from_option id]; apply oget_oset.
Qed.

Lemma default_sections :
  Forall (fun kv => exists ks, snd kv = VObj (flags_on ks) /\ section_ok (flags_on ks))
    Settings.cloneSidebarDefault.
Proof.
  assert (H : forall ks, flags_on (js "enabled" :: ks) = obj_of (flags_on (js "enabled" :: ks)) ->
                section_ok (flags_on (js "enabled" :: ks))).
  { intros ks Hk. split; [rewrite Hk; apply canonical_obj_of|]. split; [apply flags_boolean|].
    unfold ohas, flags_on. cbn [fmap list_fmap oget]. by rewrite bool_decide_eq_true_2. }
  repeat constructor; (eexists; split; [reflexivity|]; apply H; by vm_compute).
Qed.

Lemma sections_ok_defaults : sections_ok Settings.cloneSidebarDefault.
Proof.
  split; [apply canonical_obj_of|]. eapply Forall_impl; [apply default_sections|].
  intros kv (ks & Hv & Hk). by exists (flags_on ks).
Qed.

Lemma sections_ok_default_entry r e :
  e ∈ Settings.cloneSidebarDefault -> sections_ok r -> sections_ok (Settings.default_entry r e).
Proof.
  intros He Hr. pose proof default_sections as Hd. eapply Forall_forall in Hd; [|exact He].
  destruct e as [k v], Hd as (ks & Hv & Hk). cbn [snd] in Hv. subst v.
  unfold Settings.default_entry, at_. destruct (oget k r) as [v|] eqn:E.
  - pose proof (proj2 Hr) as Hf. apply oget_Some_elem in E. eapply Forall_forall in Hf; [|exact E].
    destruct Hf as (s & Hs & Hok). cbn [snd] in Hs. subst v. cbn [default from_option id].
    apply sections_ok_set; [|done]. apply section_ok_complete; [apply flags_boolean|done].
  - cbn [default from_option]. by apply sections_ok_set.
Qed.

Lemma settings_sections value c :
  Settings.parseSidebarModulesAdmin value = Return c ->
  sections_ok c
  /\ forall k d, oget k Settings.cloneSidebarDefault = Some (VObj d) ->
      exists s, oget k c = Some (VObj s) /\ forall m, m ∈ okeys d -> ohas m s = true.
Proof.
  assert (Hdef : sections_ok Settings.cloneSidebarDefault
    /\ forall k d, oget k Settings.cloneSidebarDefault = Some (VObj d) ->
        exists s, oget k Settings.cloneSidebarDefault = Some (VObj s)
                  /\ forall m, m ∈ okeys d -> ohas m s = true).
  { split; [apply sections_ok_defaults|]. intros k d Hk. exists d. split; [done|].
    intros m. apply ohas_okeys. }
  unfold Settings.parseSidebarModulesAdmin.
  destruct (truthy value); cbn [negb]; [|by intros <-%Return_inj].
  destruct value as [| | | |t| |]; try done. case_bool_decide; [by intros <-%Return_inj|].
  assert (Hmerge : forall es c',
    fold_left Settings.default_entry Settings.cloneSidebarDefault
      (fold_left (Settings.section_entry Settings.cloneSidebarDefault) es []) = c' ->
    sections_ok c' /\ forall k d, oget k Settings.cloneSidebarDefault = Some (VObj d) ->
      exists s, oget k c' = Some (VObj s) /\ forall m, m ∈ okeys d -> ohas m s = true).
  { intros es c' <-. split.
    - apply fold_invariant; [apply sections_ok_read|]. intros r e. apply sections_ok_default_entry.
    - intros k d Hk. rewrite (oget_fold _ (fun _ v old => Some (default_value v old)));
        [|apply oget_default_entry|apply canonical_obj_of].
      rewrite Hk. pose proof (sections_ok_read Settings.cloneSidebarDefault es) as [_ Hf].
      destruct (oget k (fold_left _ es [])) as [v|] eqn:E.
      + apply oget_Some_elem in E. eapply Forall_forall in Hf; [|exact E].
        destruct Hf as (s & Hs & _). cbn [snd] in Hs. subst v. cbn [default_value entries_of].
        eexists. split; [reflexivity|]. intros m Hm. rewrite ohas_complete.
        rewrite bool_decide_eq_true_2 by done. apply orb_true_r.
      + exists d. split; [done|]. intros m. apply ohas_okeys. }
  destruct (json_parse t) as [parsed|]; [|by intros <-%Return_inj].
  destruct parsed; intros Hc%Return_inj; try (by subst); by eapply Hmerge.
Qed.

Lemma sections_json_ok c : sections_ok c -> json_ok (VObj c).
Proof.
  intros [Hc Hf]. apply json_ok_obj. split; [done|]. eapply Forall_impl; [exact Hf|].
  intros [k v] (s & Hs & Hcan & Hb & _). cbn [snd] in *. subst v. apply json_ok_obj. split; [done|].
  eapply Forall_impl; [exact Hb|]. intros [j w] Hw. cbn [snd] in *. by destruct w.
Qed.

(** The switch of a module on the settings page: the section's and its own. *)
Definition switched_on (k : ConfigKey) (c : obj) : bool :=
  let s := at_ (section k) c in
  is_true (prop (js "enabled") s) && is_true (prop (module k) s).

Lemma section_flag s m :
  section_ok s -> ohas m s = true -> exists b, at_ m s = VBool b.
Proof.
  intros (_ & Hb & _) Hm. unfold ohas in Hm. rewrite at_oget.
  destruct (oget m s) as [v|] eqn:E; [|done]. apply oget_Some_elem in E.
  eapply Forall_forall in Hb; [|exact E]. cbn in *. destruct v; try done. by eexists.
Qed.

Lemma known_flags value c k :
  Settings.parseSidebarModulesAdmin value = Return c -> known k = true ->
  exists s e b, oget (section k) c = Some (VObj s) /\ at_ (js "enabled") s = VBool e
                /\ at_ (module k) s = VBool b.
Proof.
  intros Hc Hk. destruct (settings_sections _ _ Hc) as [[_ Hf] Hs].
  destruct (known_section k Hk) as (d & [i Hd] & Hj & Hm & _).
  assert (Hdef : oget (section k) Settings.cloneSidebarDefault = Some (VObj d)).
  { apply list_find_Some in Hd as (Hd & _). apply list_elem_of_lookup_2 in Hd.
    unfold DEFAULT_SECTIONS in Hd.
    repeat (apply elem_of_cons in Hd as [[= -> ->]|Hd]; [by vm_compute|]).
    by apply not_elem_of_nil in Hd. }
  destruct (Hs _ _ Hdef) as (s & Es & Hin). pose proof Es as Hel. apply oget_Some_elem in Hel.
  eapply Forall_forall in Hf; [|exact Hel]. destruct Hf as (s' & [= <-] & Hok).
  destruct (section_flag s (module k) Hok (Hin _ Hm)) as [b Hb].
  destruct (section_flag s (js "enabled") Hok) as [e He]; [by destruct Hok as (_ & _ & ?)|].
  by exists s, e, b.
Qed.

(** C33. Saving the side bar setting settles it: once the settings page has written back what it
    read, the side bar shows a module, and the guard lets a user into it, exactly when its
    switch and that of its section are on. *)
Theorem sidebar_settings_effective value c s k :
  Settings.parseSidebarModulesAdmin value = Return c -> known k = true ->
  prop (js "SidebarModulesAdmin") (getCachedStatus s) = VStr (Settings.serializeSidebarModulesAdmin c) ->
  (exists cfg, parseSidebarConfig (VStr (Settings.serializeSidebarModulesAdmin c)) = Return cfg
               /\ admin_allows k cfg = switched_on k c)
  /\ isSidebarModuleEnabled (section k) (module k) s = switched_on k c.
Proof.
  intros Hc Hk Hst. unfold Settings.serializeSidebarModulesAdmin in *.
  pose proof (sections_json_ok _ (proj1 (settings_sections _ _ Hc))) as Hj.
  destruct (known_flags _ _ _ Hc Hk) as (sec & e & b & Es & He & Hb).
  assert (Hsw : switched_on k c = e && b).
  { unfold switched_on. rewrite at_oget, Es. cbn [default from_option id].
    change (prop ?j (VObj sec)) with (at_ j sec). rewrite He, Hb. by destruct e, b. }
  assert (Hp : prop (section k) (VObj c) = VObj sec).
  { change (prop (section k) (VObj c)) with (at_ (section k) c). by rewrite at_oget, Es. }
  split.
  - exists (mergeWithDefaultSidebarModules (VObj c)).
    assert (Hcfg : parseSidebarConfig (VStr (ser (VObj c))) = Return (mergeWithDefaultSidebarModules (VObj c))).
    { unfold parseSidebarConfig. cbn [truthy]. rewrite ser_truthy by done. cbn [negb].
      rewrite bool_decide_eq_false_2 by (by apply ser_obj_nonblank). by rewrite json_parse_ser. }
    split; [done|]. rewrite (admin_allows_setting _ _ _ Hcfg Hk), Hsw. cbn [setting_value].
    rewrite json_parse_ser by done. cbn [default from_option id]. rewrite Hp.
    unfold section_allows. cbn [truthy negb orb].
    change (prop ?j (VObj sec)) with (at_ j sec). rewrite He, Hb. by destruct e, b.
  - rewrite Hsw. unfold isSidebarModuleEnabled. rewrite Hst.
    assert (Hstat : truthy (getCachedStatus s) = true) by (by destruct (getCachedStatus s)).
    rewrite Hstat. cbn [negb truthy to_string]. rewrite ser_truthy by done. cbn [negb orb].
    rewrite bool_decide_eq_false_2 by (by apply ser_obj_nonblank).
    rewrite json_parse_ser by done. cbn [or_throw obind]. unfold prop_of. cbn [nullish obind catch].
    rewrite Hp. cbn [truthy negb]. change (prop ?j (VObj sec)) with (at_ j sec).
    rewrite He, Hb. by destruct e, b.
Qed.

Lemma sidebar_settings_effective_witness :
  isSidebarModuleEnabled (js "admin") (js "user")
    [(js "status", ser (VObj [(js "SidebarModulesAdmin",
        VStr (Settings.serializeSidebarModulesAdmin Settings.cloneSidebarDefault))]))] = true.
Proof.
  etransitivity; [apply (sidebar_settings_effective VUndef Settings.cloneSidebarDefault _
                           (to (js "admin") (js "user")))|]; vm_compute; reflexivity.
Defined.

(** Before that the three readers may disagree.  With the text ["true"] for a module the
    settings page shows it switched on, the side bar hides it, and the guard lets users in;
    with the number 2 for an entry of the top navigation the page shows it off and the
    navigation shows the entry. *)
Theorem readers_disagree :
  let sidebar := ser (VObj [(js "chat", VObj [(js "playground", VStr (js "true"))])]) in
  let key := to (js "chat") (js "playground") in
  let header := ser (VObj [(js "docs", VNum (num_of_Z 2))]) in
  switched_on key (catch (Settings.parseSidebarModulesAdmin (VStr sidebar)) []) = true
  /\ admin_allows key (catch (parseSidebarConfig (VStr sidebar)) []) = false
  /\ isSidebarModuleEnabled (section key) (module key)
       [(js "status", ser (VObj [(js "SidebarModulesAdmin", VStr sidebar)]))] = true
  /\ at_ (js "docs") (Settings.parseHeaderNavModules (VStr header)) = VBool false
  /\ at_ (js "docs") (parseHeaderNavModules (VStr header)) = VBool true.
Proof. vm_compute. repeat split; reflexivity. Qed.
