(* ===== verification/StatusCodeRules.v ===== *)
(** * HTTP status code rules ([lib/http-status-code-rules.ts])

    The parser of the status code lists an administrator types, such as
    [401,403,500-599]: tokens, ranges, the merge into a canonical list and the
    normalised text.

    [Number.parseInt] is applied to digit strings only.  The value is kept exact: a code
    from 100 to 599 is represented exactly by a number, and a longer digit string is out
    of range whether it is rounded, infinite or exact. *)

From stdpp Require Import sorting.
From S2P Require Import Prelude JsString JsRegex JsNumber JsValue.

#[local] Open Scope N_scope.

Record StatusCodeRange := Range { start : N; end_ : N }.

#[export] Instance range_eq_dec : EqDecision StatusCodeRange.
Proof. solve_decision. Defined.

Record ParsedHttpStatusCodeRules := Parsed {
  ok : bool;
  ranges : list StatusCodeRange;
  tokens : list jsstr;
  normalized : jsstr;
  invalidTokens : list jsstr
}.

(** ** Tokens *)

Definition re_number : regex := Eval vm_compute in re "^\d+$".
Definition re_space : regex := Eval vm_compute in re "\s".

Definition isNumber (s : jsstr) : bool := test re_number s.

Definition isValidCode (code : N) : bool := (100 <=? code) && (code <=? 599).

Definition parseToken (token : jsstr) : option StatusCodeRange :=
  let cleaned := replace_all re_space [] (trim token) in
  if negb (truthy_str cleaned) then None
  else if includes (js "-") cleaned then
    match split_char 45 cleaned with
    | a :: b :: _ =>
        if negb (isNumber a) || negb (isNumber b) then None
        else
          let s := digits_val a in
          let e := digits_val b in
          if negb (isValidCode s) || negb (isValidCode e) || (e <? s) then None
          else Some (Range s e)
    | _ => None
    end
  else if negb (isNumber cleaned) then None
  else
    let code := digits_val cleaned in
    if negb (isValidCode code) then None else Some (Range code code).

(** ** Merging *)

(** The comparator [a.start !== b.start ? a.start - b.start : a.end - b.end] is at most 0. *)
Definition range_le (a b : StatusCodeRange) : bool :=
  if start a =? start b then end_ a <=? end_ b else start a <? start b.

(** [Array.prototype.sort] is stable; insertion sort is a stable sort. *)
Fixpoint insert_range (r : StatusCodeRange) (l : list StatusCodeRange)
  : list StatusCodeRange :=
  match l with
  | [] => [r]
  | x :: t => if range_le r x then r :: l else x :: insert_range r t
  end.

Definition sort_ranges (l : list StatusCodeRange) : list StatusCodeRange :=
  foldr insert_range [] l.

(** The reducer: [last] is the object at the end of [merged], a copy, updated in place. *)
Definition merge_step (merged : list StatusCodeRange) (current : StatusCodeRange)
  : list StatusCodeRange :=
  match reverse merged with
  | [] => merged ++ [current]
  | l :: before =>
      if end_ l + 1 <? start current then merged ++ [current]
      else reverse before ++ [Range (start l) (N.max (end_ l) (end_ current))]
  end.

Definition mergeRanges (rs : list StatusCodeRange) : list StatusCodeRange :=
  match rs with
  | [] => []
  | _ => fold_left merge_step (sort_ranges rs) []
  end.

(** ** The parser *)

Definition range_token (r : StatusCodeRange) : jsstr :=
  if start r =? end_ r then digits_of (start r)
  else digits_of (start r) ++ js "-" ++ digits_of (end_ r).

(** [raw.replace(/[，]/g, ',').split(',').map(trim).filter(Boolean)] *)
Definition segments (raw : jsstr) : list jsstr :=
  let sanitized := (fun c => if c =? 65292 then 44 else c) <$> raw in
  filter_truthy (trim <$> split_char 44 sanitized).

(** [(input ?? '').toString().trim()] *)
Definition raw_text (input : jsval) : jsstr :=
  trim (if nullish input then [] else to_string input).

Definition parseHttpStatusCodeRules (input : jsval) : ParsedHttpStatusCodeRules :=
  let raw := raw_text input in
  match raw with
  | [] => Parsed true [] [] [] []
  | _ =>
      let segs := segments raw in
      let rs := omap parseToken segs in
      let bad := filterb (fun s => match parseToken s with None => true | _ => false end) segs in
      match bad with
      | _ :: _ => Parsed false [] [] raw bad
      | [] =>
          let merged := mergeRanges rs in
          let toks := range_token <$> merged in
          Parsed true merged toks (join (js ",") toks) []
      end
  end.

(** ** Meaning: the codes a list of ranges covers *)

Definition covers (rs : list StatusCodeRange) (c : N) : Prop :=
  exists r, r ∈ rs /\ start r <= c <= end_ r.

(** A canonical list: valid, in ascending order, with a gap between neighbours. *)
Definition gap (a b : StatusCodeRange) : Prop := end_ a + 1 < start b.
Definition valid_range (r : StatusCodeRange) : Prop :=
  100 <= start r /\ start r <= end_ r /\ end_ r <= 599.
Definition canonical_ranges (rs : list StatusCodeRange) : Prop :=
  Forall valid_range rs /\ StronglySorted gap rs.

(** ** Sorting *)

Definition start_le (a b : StatusCodeRange) : Prop := start a <= start b.

Lemma insert_range_elem r l x : x ∈ insert_range r l <-> x = r \/ x ∈ l.
Proof.
  induction l as [|y l IH]; simpl; [rewrite list_elem_of_singleton, elem_of_nil; tauto|].
  destruct (range_le r y); rewrite !elem_of_cons; [done|]. rewrite IH. naive_solver.
Qed.

Lemma sort_ranges_elem l x : x ∈ sort_ranges l <-> x ∈ l.
Proof.
  induction l as [|y l IH]; simpl; [done|].
  by rewrite insert_range_elem, IH, elem_of_cons.
Qed.

Lemma range_le_start a b : range_le a b = true -> start a <= start b.
Proof. unfold range_le. case_match; intros; bool_hyps; lia. Qed.

Lemma range_le_false_start a b : range_le a b = false -> start b <= start a.
Proof. unfold range_le. case_match; intros; bool_hyps; lia. Qed.

Lemma insert_range_sorted r l :
  StronglySorted start_le l -> StronglySorted start_le (insert_range r l).
Proof.
  induction 1 as [|x l Hl IH Hx]; simpl; [by repeat constructor|].
  destruct (range_le r x) eqn:E.
  - apply range_le_start in E. constructor; [by constructor|]. constructor; [done|].
    eapply Forall_impl; [exact Hx|]. unfold start_le. intros; lia.
  - apply range_le_false_start in E. constructor; [done|].
    apply Forall_forall. intros y [->|Hy]%insert_range_elem; [done|].
    by eapply Forall_forall in Hx.
Qed.

Lemma sort_ranges_sorted l : StronglySorted start_le (sort_ranges l).
Proof. induction l; simpl; [constructor|]. by apply insert_range_sorted. Qed.

(** ** Merging *)

Lemma covers_app l k c : covers (l ++ k) c <-> covers l c \/ covers k c.
Proof. unfold covers. setoid_rewrite elem_of_app. naive_solver. Qed.

Lemma covers_cons r l c : covers (r :: l) c <-> start r <= c <= end_ r \/ covers l c.
Proof. unfold covers. setoid_rewrite elem_of_cons. naive_solver. Qed.

Lemma covers_nil c : ~ covers [] c.
Proof. intros (r & Hr & _). by apply not_elem_of_nil in Hr. Qed.

Lemma canonical_snoc l r :
  canonical_ranges (l ++ [r]) <->
  canonical_ranges l /\ valid_range r /\ (forall a, a ∈ l -> gap a r).
Proof.
  unfold canonical_ranges. rewrite Forall_app, StronglySorted_app, Forall_singleton.
  setoid_rewrite list_elem_of_singleton. split.
  - intros ([? ?] & Hg & ? & _). split; [done|]. split; [done|]. intros; by apply Hg.
  - intros ([? ?] & ? & Hg). split; [done|]. split; [|split; [done|repeat constructor]].
    intros x y Hx ->. by apply Hg.
Qed.

(** One step of the reducer keeps the list canonical and adds the codes of [cur]. *)
Lemma merge_step_spec acc cur :
  canonical_ranges acc -> valid_range cur -> (forall a, a ∈ acc -> start a <= start cur) ->
  canonical_ranges (merge_step acc cur)
  /\ (forall c, covers (merge_step acc cur) c <-> covers acc c \/ start cur <= c <= end_ cur)
  /\ (forall a, a ∈ merge_step acc cur -> start a <= start cur).
Proof.
  intros Hc Hv Hs. unfold merge_step.
  destruct (reverse acc) as [|l before] eqn:E.
  - apply (f_equal reverse) in E. rewrite reverse_involutive in E. subst acc; simpl.
    split; [split; repeat constructor; apply Hv|]. split.
    + intros c. rewrite covers_cons. pose proof (covers_nil c). naive_solver.
    + intros a ->%list_elem_of_singleton. done.
  - apply (f_equal reverse) in E. rewrite reverse_involutive, reverse_cons in E.
    set (b := reverse before) in *. clearbody b. subst acc.
    apply canonical_snoc in Hc as (Hb & Hl & Hg).
    assert (Hsl : start l <= start cur) by (apply Hs; rewrite elem_of_app, list_elem_of_singleton; by right).
    assert (Hsb : forall a, a ∈ b -> start a <= start cur) by (intros; apply Hs; rewrite elem_of_app; by left).
    unfold valid_range, gap in *.
    destruct (end_ l + 1 <? start cur) eqn:Egap; bool_hyps.
    + split; [|split].
      * apply canonical_snoc. split; [by apply canonical_snoc|]. split; [done|].
        intros a [Ha|Ha]%elem_of_app; unfold gap; [specialize (Hg a Ha); lia|].
        apply list_elem_of_singleton in Ha as ->. done.
      * intros c. rewrite covers_app, covers_cons. pose proof (covers_nil c). naive_solver.
      * intros a [Ha|Ha]%elem_of_app; [by apply Hs|].
        apply list_elem_of_singleton in Ha as ->. done.
    + split; [|split].
      * apply canonical_snoc. split; [done|]. unfold valid_range; simpl. split; [lia|].
        intros a Ha. unfold gap; simpl. by apply Hg.
      * intros c. rewrite !covers_app, !covers_cons. simpl. pose proof (covers_nil c).
        split.
        -- intros [Hx|[Hx|Hx]]; [naive_solver| |naive_solver].
           destruct (N.le_gt_cases c (end_ l)); [left; right; left; lia|right; lia].
        -- intros [[Hx|[Hx|Hx]]|Hx]; [naive_solver|right; left; lia|naive_solver|right; left; lia].
      * intros a [Ha|Ha]%elem_of_app; [by apply Hsb|].
        apply list_elem_of_singleton in Ha as ->. done.
Qed.

Lemma merge_fold_spec l acc :
  canonical_ranges acc -> Forall valid_range l -> StronglySorted start_le l ->
  (forall a r, a ∈ acc -> r ∈ l -> start a <= start r) ->
  canonical_ranges (fold_left merge_step l acc)
  /\ (forall c, covers (fold_left merge_step l acc) c <-> covers acc c \/ covers l c).
Proof.
  revert acc; induction l as [|r l IH]; intros acc Hc Hv Hs Ha; simpl.
  - split; [done|]. intros c. pose proof (covers_nil c). naive_solver.
  - apply Forall_cons in Hv as [Hr Hv]. inversion Hs as [|? ? Hs' Hrs]; subst.
    destruct (merge_step_spec acc r) as (H1 & H2 & H3); [done|done| |].
    { intros a Hin. apply Ha; [done|apply list_elem_of_here]. }
    destruct (IH (merge_step acc r)) as [H4 H5]; [done|done|done| |].
    { intros a x Hin Hx. specialize (H3 a Hin). eapply Forall_forall in Hrs; [|exact Hx].
      unfold start_le in Hrs. lia. }
    split; [done|]. intros c. rewrite H5, H2, covers_cons. naive_solver.
Qed.

Lemma covers_sort l c : covers (sort_ranges l) c <-> covers l c.
Proof. unfold covers. by setoid_rewrite sort_ranges_elem. Qed.

Lemma mergeRanges_fold rs : mergeRanges rs = fold_left merge_step (sort_ranges rs) [].
Proof. by destruct rs. Qed.

Lemma mergeRanges_spec rs :
  Forall valid_range rs ->
  canonical_ranges (mergeRanges rs) /\ forall c, covers (mergeRanges rs) c <-> covers rs c.
Proof.
  intros Hv. rewrite mergeRanges_fold.
  destruct (merge_fold_spec (sort_ranges rs) []) as [H1 H2].
  - split; constructor.
  - apply Forall_forall. intros x Hx. eapply Forall_forall; [exact Hv|].
    exact (proj1 (sort_ranges_elem rs x) Hx).
  - apply sort_ranges_sorted.
  - intros a r Ha. by apply not_elem_of_nil in Ha.
  - split; [done|]. intros c. rewrite H2, (covers_sort rs c).
    pose proof (covers_nil c). tauto.
Qed.

(** ** A canonical list is determined by the codes it covers *)

Lemma canonical_cons r l :
  canonical_ranges (r :: l) -> valid_range r /\ canonical_ranges l
  /\ (forall c, covers l c -> end_ r + 1 < c).
Proof.
  intros [Hv Hs]. apply Forall_cons in Hv as [Hr Hv]. inversion Hs as [|? ? Hs' Hg]; subst.
  split; [done|]. split; [done|]. intros c (x & Hx & Hc).
  eapply Forall_forall in Hg; [|exact Hx]. unfold gap in Hg. lia.
Qed.

Lemma canonical_unique l k :
  canonical_ranges l -> canonical_ranges k -> (forall c, covers l c <-> covers k c) -> l = k.
Proof.
  revert k; induction l as [|r l IH]; intros [|q k] Hl Hk Hc; [done| | |].
  - exfalso. apply canonical_cons in Hk as ((?&?&?) & _). apply (covers_nil (start q)).
    apply Hc, covers_cons. left; lia.
  - exfalso. apply canonical_cons in Hl as ((?&?&?) & _). apply (covers_nil (start r)).
    apply Hc, covers_cons. left; lia.
  - apply canonical_cons in Hl as ((?&?&?) & Hl & Hgl).
    apply canonical_cons in Hk as ((?&?&?) & Hk & Hgk).
    setoid_rewrite covers_cons in Hc.
    assert (Hs : start r = start q).
    { destruct (proj1 (Hc (start r))) as [?|?%Hgk]; [left; lia| |];
      destruct (proj2 (Hc (start q))) as [?|?%Hgl]; try (left; lia); lia. }
    assert (He : end_ r = end_ q).
    { destruct (N.lt_trichotomy (end_ r) (end_ q)) as [Hlt|[?|Hlt]]; [|done|].
      - destruct (proj2 (Hc (end_ r + 1))) as [?|?%Hgl]; [left; lia|lia|lia].
      - destruct (proj1 (Hc (end_ q + 1))) as [?|?%Hgk]; [left; lia|lia|lia]. }
    destruct r as [s e], q as [s' e']; simpl in *; subst. f_equal. apply IH; [done|done|].
    intros c. split; intros Hin.
    + destruct (proj1 (Hc c)) as [?|?]; [by right|apply Hgl in Hin; lia|done].
    + destruct (proj2 (Hc c)) as [?|?]; [by right|apply Hgk in Hin; lia|done].
Qed.

(** ** Tokens *)

Lemma isNumber_spec s : isNumber s = true <-> s <> [] /\ Forall (fun c => is_digit c = true) s.
Proof.
  unfold isNumber. change re_number with
    (RSeq RBol (RSeq (RSeq (RClass false digit_ranges) (RStar true (RClass false digit_ranges))) REol)).
  rewrite test_full, lang_plus_class by done.
  assert (Hd : forall c, in_class false digit_ranges c = is_digit c).
  { intros c. unfold in_class, in_ranges, is_digit; simpl. by rewrite orb_false_r. }
  by setoid_rewrite Hd.
Qed.

Lemma no_space_replace s :
  Forall (fun c => is_ws c = false) s -> replace_all re_space [] s = s.
Proof.
  intros H. unfold replace_all; simpl. rewrite find_from_None; [done|].
  intros u v x Hs (c & t & Hr & Hc & _). simpl in Hr.
  assert (Hin : c ∈ s) by (rewrite Hs, Hr; set_solver).
  eapply Forall_forall in H; [|exact Hin]. revert Hc H.
  unfold in_class, in_ranges, is_ws; simpl. clear. intros Hc H.
  rewrite !orb_false_iff, !andb_false_iff in H. rewrite !orb_true_iff, !andb_true_iff in Hc.
  rewrite ?N.leb_le, ?N.leb_gt, ?N.eqb_neq in *. naive_solver lia.
Qed.

Lemma digits_no_char n c : is_digit c = false -> c ∉ digits_of n.
Proof.
  intros Hc Hin. pose proof (digits_of_digits n) as H.
  eapply Forall_forall in H; [|exact Hin]. congruence.
Qed.

Lemma digits_of_isNumber n : isNumber (digits_of n) = true.
Proof. apply isNumber_spec. auto with js. Qed.

Lemma range_token_units r c :
  c ∈ range_token r -> is_digit c = true \/ c = 45.
Proof.
  pose proof (digits_of_digits (start r)) as H1. pose proof (digits_of_digits (end_ r)) as H2.
  rewrite Forall_forall in H1, H2. unfold range_token. case_match.
  - intros ?. left. auto.
  - rewrite !elem_of_app. intros [?|[Hc|?]]; [left; auto| |left; auto].
    right. by apply list_elem_of_singleton in Hc.
Qed.

Lemma range_token_no_ws r : Forall (fun c => is_ws c = false) (range_token r).
Proof.
  apply Forall_forall. intros c [H| ->]%range_token_units; [by apply digit_not_ws|done].
Qed.

Lemma isValidCode_spec c : isValidCode c = true <-> 100 <= c <= 599.
Proof. unfold isValidCode. by rewrite andb_true_iff, !N.leb_le. Qed.

Lemma includes_dash_digits n : includes (js "-") (digits_of n) = false.
Proof.
  destruct (includes _ _) eqn:E; [|done].
  apply includes_spec in E as (u & v & E).
  exfalso. apply (digits_no_char n 45); [done|]. rewrite E. set_solver.
Qed.

(** The text of a valid range reads back as the range. *)
Lemma parseToken_range_token r : valid_range r -> parseToken (range_token r) = Some r.
Proof.
  intros (H1 & H2 & H3). unfold parseToken.
  rewrite trim_no_ws by apply range_token_no_ws.
  rewrite no_space_replace by apply range_token_no_ws.
  unfold range_token. destruct (start r =? end_ r) eqn:E.
  - apply N.eqb_eq in E. rewrite includes_dash_digits.
    destruct (digits_of (start r)) eqn:Ed; [by apply digits_of_not_nil in Ed|].
    rewrite <- Ed, digits_of_isNumber, digits_val_of. simpl.
    rewrite (proj2 (isValidCode_spec _)) by lia. simpl.
    rewrite Ed; simpl. destruct r; simpl in *; by subst.
  - change (js "-" ++ digits_of (end_ r)) with (45 :: digits_of (end_ r)).
    rewrite split_char_app_sep, split_char_no_sep by (by apply digits_no_char).
    rewrite !digits_of_isNumber, !digits_val_of.
    rewrite !(proj2 (isValidCode_spec _)) by lia.
    rewrite (proj2 (N.ltb_ge _ _)) by lia.
    rewrite (proj2 (includes_spec _ _)) by (exists (digits_of (start r)), (digits_of (end_ r)); done).
    destruct (digits_of (start r)) eqn:Ed; [by apply digits_of_not_nil in Ed|].
    simpl. by destruct r.
Qed.

Lemma parseToken_valid t r : parseToken t = Some r -> valid_range r.
Proof.
  unfold parseToken, valid_range. repeat case_match; try done; intros [= <-]; simpl;
    repeat match goal with
    | H : _ || _ = false |- _ => apply orb_false_iff in H as [? ?]
    | H : negb _ = false |- _ => apply negb_false_iff in H
    | H : isValidCode _ = true |- _ => apply isValidCode_spec in H
    end; bool_hyps; lia.
Qed.

(** ** The parser *)

Definition is_bad (s : jsstr) : bool :=
  match parseToken s with None => true | _ => false end.

(** The two branches of the parser, the empty text included in the first. *)
Lemma parse_cases input :
  let segs := segments (raw_text input) in
  (filterb is_bad segs = []
   /\ parseHttpStatusCodeRules input
      = let rs := mergeRanges (omap parseToken segs) in
        Parsed true rs (range_token <$> rs) (join (js ",") (range_token <$> rs)) [])
  \/ (filterb is_bad segs <> []
      /\ parseHttpStatusCodeRules input
         = Parsed false [] [] (raw_text input) (filterb is_bad segs)).
Proof.
  simpl. unfold parseHttpStatusCodeRules.
  change (fun s : jsstr => match parseToken s with Some _ => false | None => true end) with is_bad.
  destruct (raw_text input) eqn:E; [by left|].
  destruct (filterb is_bad _); [by left|by right].
Qed.

Lemma tokens_valid segs : Forall valid_range (omap parseToken segs).
Proof. apply Forall_forall. intros r (t & _ & Ht)%list_elem_of_omap. by eapply parseToken_valid. Qed.

Lemma no_bad segs t : filterb is_bad segs = [] -> t ∈ segs -> is_Some (parseToken t).
Proof.
  intros H Ht. destruct (parseToken t) eqn:E; [done|]. exfalso.
  assert (Hin : t ∈ filterb is_bad segs) by (apply elem_of_filterb; unfold is_bad; by rewrite E).
  rewrite H in Hin. by apply not_elem_of_nil in Hin.
Qed.

(** C36. When the parser accepts a text, its ranges are canonical (valid codes, ascending,
    never adjacent or overlapping), every token of the text is a code or a range, and the
    codes covered are exactly those some token denotes; the tokens and the normalised text
    print these ranges. *)
Theorem parse_ok_exact input :
  let res := parseHttpStatusCodeRules input in
  ok res = true ->
  canonical_ranges (ranges res)
  /\ (forall t, t ∈ segments (raw_text input) -> is_Some (parseToken t))
  /\ (forall c, covers (ranges res) c <->
        exists t r, t ∈ segments (raw_text input) /\ parseToken t = Some r /\ start r <= c <= end_ r)
  /\ tokens res = range_token <$> ranges res
  /\ normalized res = join (js ",") (tokens res) /\ invalidTokens res = [].
Proof.
  simpl. destruct (parse_cases input) as [[Hb ->]|[_ ->]]; [|done]. intros _; simpl.
  destruct (mergeRanges_spec _ (tokens_valid (segments (raw_text input)))) as [Hc Hcov].
  split; [done|]. split; [intros; by eapply no_bad|]. split; [|done].
  intros c. rewrite Hcov. unfold covers. setoid_rewrite list_elem_of_omap. naive_solver.
Qed.

Lemma parse_ok_exact_witness :
  covers (ranges (parseHttpStatusCodeRules (VStr (js " 500-503, 401,502 - 510")))) 505.
Proof.
  pose proof (parse_ok_exact (VStr (js " 500-503, 401,502 - 510"))) as H.
  destruct H as (_ & _ & H & _); [reflexivity|]. apply H.
  exists (js "502 - 510"), (Range 502 510). split; [|vm_compute; by split].
  change (segments _) with [js "500-503"; js "401"; js "502 - 510"].
  do 2 apply list_elem_of_further. apply list_elem_of_here.
Defined.

(** The parser rejects a text exactly when some token is neither a code nor a range;
    it then lists exactly the bad tokens, in their order, gives no range, and returns the
    trimmed text as it was typed. *)
Theorem parse_error_exact input :
  let res := parseHttpStatusCodeRules input in
  (ok res = false <-> exists t, t ∈ segments (raw_text input) /\ parseToken t = None)
  /\ invalidTokens res `sublist_of` segments (raw_text input)
  /\ (forall t, t ∈ invalidTokens res <->
        t ∈ segments (raw_text input) /\ parseToken t = None)
  /\ (ok res = false -> ranges res = [] /\ tokens res = [] /\ normalized res = raw_text input).
Proof.
  simpl.
  assert (Hin : forall t, t ∈ filterb is_bad (segments (raw_text input)) <->
                t ∈ segments (raw_text input) /\ parseToken t = None).
  { intros t. rewrite elem_of_filterb. unfold is_bad. destruct (parseToken t); naive_solver. }
  destruct (parse_cases input) as [[Hb ->]|[Hb ->]]; simpl.
  - rewrite Hb in Hin. split; [split; [done|]|].
    + intros (t & Ht%Hin). by apply not_elem_of_nil in Ht.
    + split; [apply sublist_nil_l|]. split; [done|done].
  - split; [split; [intros _|done]|].
    + destruct (filterb _ _) as [|t l]; [done|]. exists t. apply Hin, list_elem_of_here.
    + split; [apply filterb_sublist|]. split; [done|done].
Qed.

(** Two accepted texts that mean the same codes have the same normalised text. *)
Theorem normalized_determined i j :
  let ri := parseHttpStatusCodeRules i in let rj := parseHttpStatusCodeRules j in
  ok ri = true -> ok rj = true ->
  (forall c, covers (ranges ri) c <-> covers (ranges rj) c) -> ri = rj.
Proof.
  simpl. destruct (parse_cases i) as [[_ ->]|[_ ->]]; [|done].
  destruct (parse_cases j) as [[_ ->]|[_ ->]]; [|done]. simpl. intros _ _ H.
  rewrite (canonical_unique _ _ (proj1 (mergeRanges_spec _ (tokens_valid _)))
            (proj1 (mergeRanges_spec _ (tokens_valid _))) H). done.
Qed.

Lemma normalized_determined_witness :
  parseHttpStatusCodeRules (VStr (js "401,400,402"))
  = parseHttpStatusCodeRules (VStr (js "400-402")).
Proof.
  apply (normalized_determined (VStr (js "401,400,402")) (VStr (js "400-402")));
    [reflexivity|reflexivity|]. intros c. reflexivity.
Defined.

(** ** Reading the normalised text again *)

Lemma range_token_clean r : trim (range_token r) = range_token r.
Proof. apply trim_no_ws, range_token_no_ws. Qed.

Lemma range_token_no_comma r c : c = 44 \/ c = 65292 -> c ∉ range_token r.
Proof. intros Hc [H|H]%range_token_units; destruct Hc; by subst. Qed.

Lemma join_comma_elem l c : c ∈ join [44] l -> c = 44 \/ exists w, w ∈ l /\ c ∈ w.
Proof.
  induction l as [|w [|v l] IH]; [by intros ?%not_elem_of_nil| |].
  - intros Hc. right. exists w. set_solver.
  - change (join [44] (w :: v :: l)) with (w ++ 44 :: join [44] (v :: l)).
    rewrite elem_of_app, elem_of_cons. intros [Hc|[->|Hc]]; [set_solver|by left|].
    destruct (IH Hc) as [?|(x & ? & ?)]; [by left|set_solver].
Qed.

Lemma range_token_not_nil r : range_token r <> [].
Proof.
  unfold range_token. pose proof (digits_of_not_nil (start r)).
  case_match; [done|]. by destruct (digits_of (start r)).
Qed.

Lemma ascii_commas rs :
  (fun c => if c =? 65292 then 44 else c) <$> join [44] (range_token <$> rs)
  = join [44] (range_token <$> rs).
Proof.
  rewrite <- (list_fmap_id (join _ _)) at 2. apply list_fmap_ext.
  intros i c Hi%list_elem_of_lookup_2. destruct (N.eqb_spec c 65292) as [->|?]; [|done].
  apply join_comma_elem in Hi as [?|(w & Hw & Hi)]; [done|].
  apply list_elem_of_fmap in Hw as (r & -> & _).
  by destruct (range_token_no_comma r 65292 (or_intror eq_refl)).
Qed.

Lemma segments_join rs :
  segments (join (js ",") (range_token <$> rs)) = range_token <$> rs.
Proof.
  unfold segments. change (js ",") with [44]. rewrite ascii_commas.
  destruct rs as [|r rs]; [reflexivity|].
  rewrite split_join; [|done|].
  - rewrite <- list_fmap_compose, (list_fmap_ext _ range_token) by (intros; apply range_token_clean).
    apply filterb_all. intros w (q & -> & _)%list_elem_of_fmap.
    pose proof (range_token_not_nil q). by destruct (range_token q).
  - apply Forall_fmap, Forall_true. intros q. apply range_token_no_comma. by left.
Qed.

Lemma omap_range_token rs :
  Forall valid_range rs -> omap parseToken (range_token <$> rs) = rs.
Proof.
  induction 1 as [|r rs Hr _ IH]; [done|]. cbn. rewrite parseToken_range_token by done. f_equal. exact IH.
Qed.

Lemma normalized_trim rs :
  trim (join (js ",") (range_token <$> rs)) = join (js ",") (range_token <$> rs).
Proof.
  apply trim_no_ws, Forall_forall. intros c [->|(w & Hw & Hc)]%join_comma_elem; [done|].
  apply list_elem_of_fmap in Hw as (r & -> & _).
  exact (proj1 (Forall_forall _ _) (range_token_no_ws r) c Hc).
Qed.

(** The normalised text is a fixed point: reading it again gives the same result. *)
Theorem normalized_roundtrip input :
  ok (parseHttpStatusCodeRules input) = true ->
  parseHttpStatusCodeRules (VStr (normalized (parseHttpStatusCodeRules input)))
  = parseHttpStatusCodeRules input.
Proof.
  destruct (parse_cases input) as [[_ ->]|[_ ->]]; [|done]. intros _; simpl.
  set (rs := mergeRanges _).
  destruct (mergeRanges_spec _ (tokens_valid (segments (raw_text input)))) as [Hc _].
  fold rs in Hc. set (i := VStr _).
  assert (Hs : segments (raw_text i) = range_token <$> rs).
  { unfold raw_text, i. cbn [nullish to_string]. by rewrite normalized_trim, segments_join. }
  assert (Hr : omap parseToken (range_token <$> rs) = rs) by apply omap_range_token, Hc.
  destruct (parse_cases i) as [[_ ->]|[Hb _]].
  - rewrite Hs, Hr. rewrite (canonical_unique (mergeRanges rs) rs); [done| |done|];
      by apply mergeRanges_spec, Hc.
  - destruct Hb. rewrite Hs. apply filterb_none. intros w (r & -> & Hin)%list_elem_of_fmap.
    unfold is_bad. rewrite parseToken_range_token; [done|].
    destruct Hc as [Hv _]. by eapply Forall_forall in Hv.
Qed.

Lemma normalized_roundtrip_witness :
  parseHttpStatusCodeRules (VStr (js "401,500-510"))
  = parseHttpStatusCodeRules (VStr (js " 500-503, 401,502 - 510")).
Proof. apply (normalized_roundtrip (VStr (js " 500-503, 401,502 - 510"))). reflexivity. Defined.
