(* ===== verification/ModelMapping.v ===== *)
(** * Model mapping validation ([features/channels/lib/model-mapping-validation.ts])

    A channel has a list of models and a [model_mapping], the text of a JSON object from
    requested model names to upstream names.  The functions read that text, check it, and
    compare its keys and values with the list.  A [Set] built from a list is the list of
    its distinct elements in insertion order ([uniq]). *)

From S2P Require Import Prelude JsString JsNumber JsValue JsJson.

#[local] Open Scope N_scope.

(** ** The models field *)

Definition parseModelsString (modelsStr : jsstr) : list jsstr :=
  if truthy_str modelsStr then filter_truthy (trim <$> split_char 44 modelsStr) else [].

Definition formatModelsArray (models : list jsstr) : jsstr := join (js ",") (uniq models).

Definition normalizeModelName (model : jsval) : jsstr :=
  match model with VStr s => trim s | _ => [] end.

(** ** Reading the mapping *)

(** [JSON.parse] and the guard
    [!parsed || typeof parsed !== 'object' || Array.isArray(parsed)]: the object, or
    nothing, also when [JSON.parse] throws. *)
Definition parsed_object (text : jsstr) : option obj :=
  match json_parse text with
  | Some (VObj o) => Some o
  | _ => None
  end.

Definition extractMappingSourceModels (modelMapping : jsval) : list jsstr :=
  match modelMapping with
  | VStr s =>
      let trimmed := trim s in
      if negb (truthy_str trimmed) then []
      else match parsed_object trimmed with
           | Some parsed => uniq (filter_truthy (trim <$> okeys parsed))
           | None => []
           end
  | _ => []
  end.

Definition extractRedirectModels (modelMapping : jsval) : list jsstr :=
  match modelMapping with
  | VStr s =>
      let trimmed := trim s in
      if negb (truthy_str trimmed) then []
      else match parsed_object trimmed with
           | Some parsed =>
               let values := (fun value => match value with
                                           | VStr v => Some (trim v)
                                           | _ => None
                                           end) <$> ovalues parsed in
               uniq (filter_truthy (omap id values))
           | None => []
           end
  | _ => []
  end.

(** ** Change detection *)

(** The loop over the indices of the current models, of the length of the initial ones. *)
Fixpoint models_differ (current initial : list jsstr) : bool :=
  match current, initial with
  | c :: cs, i :: ks => if negb (bool_decide (c = i)) then true else models_differ cs ks
  | _, _ => false
  end.

Definition hasModelConfigChanged (currentModels : list jsstr) (currentModelMapping : jsstr)
    (initialModels : list jsstr) (initialModelMapping : jsstr) : bool :=
  if (length initialModels =? 0)%nat && negb (truthy_str initialModelMapping) then true
  else if negb (length currentModels =? length initialModels)%nat then true
  else if models_differ currentModels initialModels then true
  else
    let normalizedCurrent := trim (or_str currentModelMapping []) in
    let normalizedInitial := trim (or_str initialModelMapping []) in
    negb (bool_decide (normalizedCurrent = normalizedInitial)).

(** ** Comparison with the models of the channel *)

Definition blank (s : jsstr) : bool := negb (truthy_str s) || bool_decide (trim s = []).

Definition findMissingModelsInMapping (modelMapping : jsstr) (currentModels : list jsstr)
  : list jsstr :=
  if blank modelMapping then []
  else match parsed_object modelMapping with
       | None => []
       | Some parsedMapping =>
           let modelSet := uniq ((fun m => normalizeModelName (VStr m)) <$> currentModels) in
           let missingModels :=
             filterb (fun key => truthy_str key && negb (bool_decide (key ∈ modelSet)))
               ((fun key => normalizeModelName (VStr key)) <$> okeys parsedMapping) in
           uniq missingModels
       end.

Definition findExposedTargetModels (modelMapping : jsstr) (currentModels : list jsstr)
  : list jsstr :=
  let redirectModels := extractRedirectModels (VStr modelMapping) in
  match redirectModels with
  | [] => []
  | _ =>
      let normalizedModels := (fun m => normalizeModelName (VStr m)) <$> currentModels in
      let modelSet := uniq normalizedModels in
      filterb (fun model => bool_decide (normalizeModelName (VStr model) ∈ modelSet)) redirectModels
  end.

Record Categories := {
  normalizedCurrentModels : list jsstr;
  normalizedRedirectModels : list jsstr;
  classificationSet : list jsstr;
  redirectOnlySet : list jsstr
}.

Definition categorizeModelsWithRedirect (currentModels redirectModels : list jsstr)
  : Categories :=
  let current := uniq (filter_truthy ((fun m => normalizeModelName (VStr m)) <$> currentModels)) in
  let redirect := uniq (filter_truthy ((fun m => normalizeModelName (VStr m)) <$> redirectModels)) in
  {| normalizedCurrentModels := current;
     normalizedRedirectModels := redirect;
     classificationSet := uniq (current ++ redirect);
     redirectOnlySet := uniq (filterb (fun m => negb (bool_decide (m ∈ current))) redirect) |}.

(** ** Validation *)

Record Validation := { valid : bool; error : option jsstr }.

Definition msg_object : jsstr := js "Model mapping must be a valid JSON object".
Definition msg_values : jsstr := js "Model mapping values must be strings".
Definition msg_format : jsstr := js "Model mapping must be valid JSON format".

Definition validateModelMappingJson (modelMapping : jsstr) : Validation :=
  if blank modelMapping then {| valid := true; error := None |}
  else match json_parse modelMapping with
       | Some (VObj parsed) =>
           if existsb (fun value => negb (is_string value)) (ovalues parsed)
           then {| valid := false; error := Some msg_values |}
           else {| valid := true; error := None |}
       | Some _ =>
           {| valid := false; error := Some msg_object |}
       | None =>
           {| valid := false; error := Some msg_format |}
       end.

(** ** The models field: theorems *)

(** A model name as the field holds it: not empty, trimmed, without a comma. *)
Definition clean_name (m : jsstr) : Prop := m <> [] /\ trimmed m /\ 44 ∉ m.

#[export] Instance clean_name_dec m : Decision (clean_name m).
Proof.
  refine (cast_if (decide (m <> [] /\ trim m = m /\ 44 ∉ m))); unfold clean_name.
  - destruct a as (? & E & ?). rewrite <- E at 2. by auto using trim_trimmed.
  - intros (? & ?%trim_id & ?). auto.
Defined.

Lemma parseModelsString_clean s : Forall clean_name (parseModelsString s).
Proof.
  unfold parseModelsString. destruct (truthy_str s); [|constructor].
  apply Forall_forall. intros m [Hne Hm]%elem_of_filter_truthy.
  apply list_elem_of_fmap in Hm as (w & -> & Hw). split; [done|]. split; [apply trim_trimmed|].
  intros Hc%trim_elem. by apply split_char_elem in Hw.
Qed.

(** Writing a list of clean names and reading the text back gives the distinct names,
    each once, in order of first appearance. *)
Theorem models_field_roundtrip models :
  Forall clean_name models -> parseModelsString (formatModelsArray models) = uniq models.
Proof.
  intros H. assert (Hu : Forall clean_name (uniq models)).
  { apply Forall_forall. intros m Hm. apply (proj1 (Forall_forall _ _) H m). by apply uniq_elem. }
  unfold formatModelsArray, parseModelsString. change (js ",") with [44].
  destruct (uniq models) as [|m l] eqn:E; [done|]. rewrite <- E in *.
  assert (Hne : uniq models <> []) by (by rewrite E).
  destruct (join [44] (uniq models)) eqn:Ej.
  { exfalso. revert Ej. apply join_not_nil; [|done].
    eapply Forall_impl; [exact Hu|]. by intros ? []. }
  cbn [truthy_str]. rewrite <- Ej. clear Ej E. rewrite split_join; [|done|].
  - rewrite (list_fmap_ext _ id), list_fmap_id.
    + apply filterb_all. intros w Hw. eapply Forall_forall in Hu as [Hn _]; [|exact Hw].
      by destruct w.
    + intros i w Hw%list_elem_of_lookup_2. eapply Forall_forall in Hu as (_ & Ht & _); [|exact Hw].
      by apply trim_id.
  - eapply Forall_impl; [exact Hu|]. by intros ? (_ & _ & ?).
Qed.

Lemma models_field_roundtrip_witness :
  parseModelsString (formatModelsArray [js "gpt-4o"; js "o1"; js "gpt-4o"])
  = [js "gpt-4o"; js "o1"].
Proof.
  rewrite (models_field_roundtrip [js "gpt-4o"; js "o1"; js "gpt-4o"]); [reflexivity|].
  by apply (bool_decide_unpack (Forall clean_name _)).
Defined.

(** ** Comparison: theorems *)

(** The names a list of models stands for. *)
Definition names (models : list jsstr) : list jsstr := trim <$> models.

(** The trimmed, non-empty keys of the mapping. *)
Definition mapping_key (mapping m : jsstr) : Prop :=
  exists o k, json_parse mapping = Some (VObj o) /\ k ∈ okeys o /\ trim k = m /\ m <> [].

Lemma elem_of_fmap_trim (l : list jsstr) m : m ∈ trim <$> l <-> exists k, k ∈ l /\ trim k = m.
Proof. rewrite list_elem_of_fmap. naive_solver. Qed.

Lemma parsed_object_Some text o : parsed_object text = Some o <-> json_parse text = Some (VObj o).
Proof. unfold parsed_object. repeat case_match; naive_solver. Qed.

Lemma missing_spec mapping current m :
  m ∈ findMissingModelsInMapping mapping current <->
  blank mapping = false /\ mapping_key mapping m /\ m ∉ names current.
Proof.
  unfold findMissingModelsInMapping, mapping_key.
  destruct (blank mapping); [split; [by intros ?%not_elem_of_nil|naive_solver]|].
  destruct (parsed_object mapping) as [o|] eqn:E.
  - apply parsed_object_Some in E as ->.
    rewrite uniq_elem, elem_of_filterb, andb_true_iff, negb_true_iff, bool_decide_eq_false,
      uniq_elem, truthy_str_spec.
    change (_ <$> okeys o) with (trim <$> okeys o). rewrite elem_of_fmap_trim.
    change (_ <$> current) with (names current). naive_solver.
  - split; [by intros ?%not_elem_of_nil|]. intros (_ & (o & k & Ho & _) & _).
    apply parsed_object_Some in Ho. congruence.
Qed.

(** The missing models are exactly the non-empty trimmed keys of the mapping that are
    not among the trimmed models, each listed once; and after they are added to the list
    nothing is missing. *)
Theorem missing_models_exact mapping current :
  let missing := findMissingModelsInMapping mapping current in
  NoDup missing
  /\ (forall m, m ∈ missing <->
        blank mapping = false /\ mapping_key mapping m /\ m ∉ names current)
  /\ findMissingModelsInMapping mapping (current ++ missing) = [].
Proof.
  simpl. split; [|split; [apply missing_spec|]].
  - unfold findMissingModelsInMapping. repeat case_match; auto using NoDup_nil_2 with js.
  - destruct (findMissingModelsInMapping mapping (current ++ _)) as [|m l] eqn:E; [done|]. exfalso.
    assert (Hm : m ∈ m :: l) by apply list_elem_of_here. rewrite <- E in Hm.
    apply missing_spec in Hm as (Hb & Hk & Hn). apply Hn. unfold names.
    rewrite fmap_app, elem_of_app. right. apply elem_of_fmap_trim. exists m. split.
    + apply missing_spec. split; [done|]. split; [done|]. intros Hc. apply Hn.
      unfold names. rewrite fmap_app, elem_of_app. by left.
    + destruct Hk as (o & k & _ & _ & <- & _). apply trim_idemp.
Qed.

(** The trimmed, non-empty string values of the mapping. *)
Definition mapping_target (mapping m : jsstr) : Prop :=
  exists o v, json_parse (trim mapping) = Some (VObj o) /\ VStr v ∈ ovalues o
              /\ trim v = m /\ m <> [].

Lemma redirect_spec mapping m :
  m ∈ extractRedirectModels (VStr mapping) <->
  trim mapping <> [] /\ mapping_target mapping m.
Proof.
  unfold extractRedirectModels, mapping_target. rewrite <- truthy_str_spec.
  destruct (truthy_str (trim mapping)); simpl;
    [|split; [by intros ?%not_elem_of_nil|naive_solver]].
  destruct (parsed_object (trim mapping)) as [o|] eqn:E.
  - apply parsed_object_Some in E as ->.
    rewrite uniq_elem, elem_of_filter_truthy, list_elem_of_omap. split.
    + intros (Hne & y & (v & -> & Hv)%list_elem_of_fmap & Hy). split; [done|].
      destruct v as [| | | |v| |]; try done. cbn in Hy. injection Hy as <-. exists o, v. auto.
    + intros (_ & o' & v & [= ->] & Hv & Ht & Hne). split; [done|]. exists (Some m).
      split; [|done]. apply list_elem_of_fmap. exists (VStr v). by rewrite Ht.
  - split; [by intros ?%not_elem_of_nil|]. intros (_ & o & v & Ho & _).
    apply parsed_object_Some in Ho. congruence.
Qed.

(** The exposed targets are exactly the targets of the mapping that the models list
    also offers; and taking every model with such a name out of the list leaves none. *)
Theorem exposed_targets_exact mapping current :
  let exposed := findExposedTargetModels mapping current in
  NoDup exposed
  /\ (forall m, m ∈ exposed <->
        (trim mapping <> [] /\ mapping_target mapping m) /\ m ∈ names current)
  /\ findExposedTargetModels mapping
       (filterb (fun m => negb (bool_decide (trim m ∈ exposed))) current) = [].
Proof.
  assert (Hspec : forall cur m, m ∈ findExposedTargetModels mapping cur <->
            (trim mapping <> [] /\ mapping_target mapping m) /\ m ∈ names cur).
  { intros cur m. rewrite <- redirect_spec. unfold findExposedTargetModels.
    assert (Ht : m ∈ extractRedirectModels (VStr mapping) -> trim m = m).
    { intros (_ & o & v & _ & _ & <- & _)%redirect_spec. apply trim_idemp. }
    destruct (extractRedirectModels (VStr mapping)) as [|x l].
    - split; [by intros ?%not_elem_of_nil|]. by intros [?%not_elem_of_nil _].
    - rewrite elem_of_filterb, bool_decide_eq_true, uniq_elem. cbn [normalizeModelName].
      change (_ <$> cur) with (names cur). split; [|].
      + intros [Hi Hin]. rewrite Ht in Hi; done.
      + intros [Hin Hi]. rewrite Ht; done. }
  simpl. split; [|split; [apply Hspec|]].
  - unfold findExposedTargetModels. destruct (extractRedirectModels _) eqn:E; [constructor|].
    eapply sublist_no_dup; [apply filterb_sublist|]. rewrite <- E. unfold extractRedirectModels.
    repeat case_match; auto using NoDup_nil_2 with js.
  - destruct (findExposedTargetModels mapping (filterb _ _)) as [|m l] eqn:E; [done|]. exfalso.
    assert (Hm : m ∈ m :: l) by apply list_elem_of_here. rewrite <- E in Hm.
    apply Hspec in Hm as [Ht Hn]. unfold names in Hn.
    apply elem_of_fmap_trim in Hn as (k & [Hk Hin]%elem_of_filterb & <-).
    apply negb_true_iff, bool_decide_eq_false in Hk. apply Hk, Hspec. split; [done|].
    apply elem_of_fmap_trim. by exists k.
Qed.

(** ** Validation: theorem *)

Definition string_values (o : obj) : Prop := forall v, v ∈ ovalues o -> exists s, v = VStr s.

(** A mapping is valid exactly when its text is blank or is a JSON object whose values
    are all strings; otherwise the message tells which of the three conditions failed. *)
Theorem validate_mapping_exact mapping :
  let res := validateModelMappingJson mapping in
  (valid res = true <->
     blank mapping = true \/ exists o, json_parse mapping = Some (VObj o) /\ string_values o)
  /\ (valid res = true <-> error res = None)
  /\ (error res = Some msg_format <->
        blank mapping = false /\ json_parse mapping = None)
  /\ (error res = Some msg_object <->
        blank mapping = false /\ exists v, json_parse mapping = Some v /\ is_record v = false)
  /\ (error res = Some msg_values <->
        blank mapping = false /\ exists o, json_parse mapping = Some (VObj o) /\ ~ string_values o).
Proof.
  assert (Hs : forall o, existsb (fun v => negb (is_string v)) (ovalues o) = false <-> string_values o).
  { intros o. rewrite <- not_true_iff_false, existsb_elem. unfold string_values. split.
    - intros H v Hv. destruct v; try (exfalso; apply H; eexists; split; [exact Hv|done]). eauto.
    - intros H (v & Hv & Hf). by destruct (H v Hv) as [s ->]. }
  assert (Hd : msg_format <> msg_object /\ msg_format <> msg_values /\ msg_object <> msg_values)
    by (split; [|split]; discriminate).
  unfold validateModelMappingJson. generalize dependent msg_values.
  generalize msg_format, msg_object. intros e1 e2 e3 (H12 & H13 & H23).
  destruct (blank mapping); simpl; [clear -H12; intuition congruence|].
  destruct (json_parse mapping) as [v|]; simpl; [|clear -H12 H13 H23; naive_solver].
  destruct (is_record v) eqn:Er.
  - destruct v as [| | | | | |o]; try done. clear Er. specialize (Hs o).
    destruct (existsb _ _); simpl; [assert (~ string_values o) by (intros ?%Hs; done)|
      assert (string_values o) by by apply Hs]; clear Hs; naive_solver congruence.
  - destruct v; try done; simpl; clear Hs; naive_solver.
Qed.

(** ** Change detection and categories: theorems *)

Lemma models_differ_false current initial :
  length current = length initial -> models_differ current initial = false <-> current = initial.
Proof.
  revert initial; induction current as [|c cs IH]; intros [|i ks]; simpl; try done.
  intros [= Hl]. destruct (decide (c = i)) as [->|Hc].
  - rewrite bool_decide_eq_true_2 by done; simpl. rewrite IH by done. naive_solver.
  - rewrite bool_decide_eq_false_2 by done; simpl. naive_solver.
Qed.

(** Nothing is reported as changed exactly when a channel is being edited, its models
    are the same list and the mapping texts are equal up to surrounding white space. *)
Theorem config_unchanged_exact models mapping models0 mapping0 :
  hasModelConfigChanged models mapping models0 mapping0 = false <->
  (models0 <> [] \/ mapping0 <> []) /\ models = models0 /\ trim mapping = trim mapping0.
Proof.
  unfold hasModelConfigChanged, or_str.
  replace (match mapping with [] => [] | _ => mapping end) with mapping by by destruct mapping.
  replace (match mapping0 with [] => [] | _ => mapping0 end) with mapping0 by by destruct mapping0.
  assert (Hn : (length models0 =? 0)%nat && negb (truthy_str mapping0) = false
               <-> models0 <> [] \/ mapping0 <> []).
  { destruct models0, mapping0; simpl; naive_solver. }
  destruct (_ && _); [split; [done|]; intros [?%Hn _]; done|].
  destruct (Nat.eqb_spec (length models) (length models0)) as [Hl|Hl]; simpl;
    [|split; [done|]; intros (_ & -> & _); done].
  pose proof (models_differ_false models models0 Hl) as Hd.
  destruct (models_differ _ _); [split; [done|]; intros (_ & ?%Hd & _); done|].
  rewrite negb_false_iff, bool_decide_eq_true. intuition.
Qed.

(** The classification set is the current names followed by the redirect-only names:
    it holds each trimmed, non-empty name of either list once, and the redirect-only names
    are those of the redirects that no current model has. *)
Theorem categorize_exact current redirect :
  let c := categorizeModelsWithRedirect current redirect in
  classificationSet c = normalizedCurrentModels c ++ redirectOnlySet c
  /\ NoDup (classificationSet c)
  /\ (forall m, m ∈ normalizedCurrentModels c <-> m ∈ names current /\ m <> [])
  /\ (forall m, m ∈ redirectOnlySet c <-> (m ∈ names redirect /\ m <> []) /\ m ∉ names current).
Proof.
  assert (Hin : forall l m, m ∈ uniq (filter_truthy (trim <$> l)) <-> m ∈ names l /\ m <> []).
  { intros l m. rewrite uniq_elem, elem_of_filter_truthy. unfold names. tauto. }
  cbn -[uniq filter_truthy]. change (fun m : jsstr => trim m) with trim.
  set (cur := uniq (filter_truthy (trim <$> current))).
  set (red := uniq (filter_truthy (trim <$> redirect))).
  assert (Hnc : NoDup cur) by apply uniq_NoDup. assert (Hnr : NoDup red) by apply uniq_NoDup.
  split; [|split; [apply uniq_NoDup|]; split; [apply Hin|]].
  - rewrite (uniq_id (filterb _ red)) by (eapply sublist_no_dup; [apply filterb_sublist|done]).
    unfold uniq. rewrite uniq_acc_app. f_equal; [by apply uniq_id|].
    rewrite uniq_acc_filterb by done. apply filterb_ext. intros m. f_equal.
    apply bool_decide_ext. rewrite elem_of_app, elem_of_reverse, uniq_acc_elem. set_solver.
  - intros m. rewrite uniq_elem, elem_of_filterb, negb_true_iff, bool_decide_eq_false.
    unfold cur, red. rewrite !Hin. naive_solver.
Qed.
