(* ===== verification/BillingVars.v ===== *)
(** * Billing variables and tiers ([features/pricing/lib/billing-expr.ts], first part)

    The registry of the variables a billing expression may use, the reader of the tiers
    of an expression, and the comparison key of tier labels. *)

From S2P Require Import Prelude JsString JsRegex JsNumber JsValue.

#[local] Open Scope N_scope.

(** ** The variable registry *)

Inductive Side := input_side | output_side | condition_side.

Record BillingVar := {
  key : jsstr;
  field : option jsstr;
  tierField : option jsstr;
  label : jsstr;
  shortLabel : jsstr;
  side : Side;
  isBase : bool;
  isConditionOnly : bool;
  group : option jsstr
}.

Definition BILLING_VARS : list BillingVar :=
  [ {| key := js "p"; field := Some (js "inputPrice"); tierField := Some (js "input_unit_cost");
       label := js "Input price"; shortLabel := js "Input"; side := input_side;
       isBase := true; isConditionOnly := false; group := None |};
    {| key := js "c"; field := Some (js "outputPrice"); tierField := Some (js "output_unit_cost");
       label := js "Completion price"; shortLabel := js "Output"; side := output_side;
       isBase := true; isConditionOnly := false; group := None |};
    {| key := js "len"; field := None; tierField := None;
       label := js "Input length"; shortLabel := js "Length"; side := condition_side;
       isBase := false; isConditionOnly := true; group := None |};
    {| key := js "cr"; field := Some (js "cacheReadPrice");
       tierField := Some (js "cache_read_unit_cost");
       label := js "Cache read price"; shortLabel := js "Cache Read"; side := input_side;
       isBase := false; isConditionOnly := false; group := Some (js "cache") |};
    {| key := js "cc"; field := Some (js "cacheCreatePrice");
       tierField := Some (js "cache_create_unit_cost");
       label := js "Cache create price"; shortLabel := js "Cache Write"; side := input_side;
       isBase := false; isConditionOnly := false; group := Some (js "cache") |};
    {| key := js "cc1h"; field := Some (js "cacheCreate1hPrice");
       tierField := Some (js "cache_create_1h_unit_cost");
       label := js "Cache create (1h) price"; shortLabel := js "Cache Write (1h)";
       side := input_side;
       isBase := false; isConditionOnly := false; group := Some (js "cache") |};
    {| key := js "img"; field := Some (js "imagePrice"); tierField := Some (js "image_unit_cost");
       label := js "Image input price"; shortLabel := js "Image In"; side := input_side;
       isBase := false; isConditionOnly := false; group := Some (js "media") |};
    {| key := js "img_o"; field := Some (js "imageOutputPrice");
       tierField := Some (js "image_output_unit_cost");
       label := js "Image output price"; shortLabel := js "Image Out"; side := output_side;
       isBase := false; isConditionOnly := false; group := Some (js "media") |};
    {| key := js "ai"; field := Some (js "audioInputPrice");
       tierField := Some (js "audio_input_unit_cost");
       label := js "Audio input price"; shortLabel := js "Audio In"; side := input_side;
       isBase := false; isConditionOnly := false; group := Some (js "media") |};
    {| key := js "ao"; field := Some (js "audioOutputPrice");
       tierField := Some (js "audio_output_unit_cost");
       label := js "Audio output price"; shortLabel := js "Audio Out"; side := output_side;
       isBase := false; isConditionOnly := false; group := Some (js "media") |} ].

Definition BILLING_PRICING_VARS : list BillingVar :=
  filterb (fun v => negb (isConditionOnly v)) BILLING_VARS.

Definition BILLING_CONDITION_VARS : list jsstr :=
  key <$> filterb (fun v => isBase v || isConditionOnly v) BILLING_VARS.

Definition BILLING_VAR_KEY_TO_FIELD : list (jsstr * jsstr) :=
  (fun v => (key v, default [] (field v))) <$> BILLING_PRICING_VARS.

Definition BILLING_EXTRA_VARS : list BillingVar :=
  filterb (fun v => negb (isBase v) && negb (isConditionOnly v)) BILLING_VARS.

Record CacheVar := { cv_field : jsstr; exprVar : jsstr }.

Definition BILLING_CACHE_VAR_MAP : list CacheVar :=
  (fun v => {| cv_field := default [] (tierField v); exprVar := key v |}) <$> BILLING_EXTRA_VARS.

Definition BILLING_VAR_REGEX : regex := Eval vm_compute in
  regex_of false (js "\b(" ++ join (js "|") (key <$> BILLING_PRICING_VARS)
                  ++ js ")\s*\*\s*([\d.eE+-]+)").

(** ** Reading tiers *)

Record TierCondition := { tc_var : jsstr; tc_op : jsstr; tc_value : num }.

(** The index signature of [ParsedTier] holds the price fields. *)
Record ParsedTier := {
  pt_fields : list (jsstr * num);
  pt_label : jsstr;
  pt_conditions : list TierCondition
}.

Definition re_version : regex := Eval vm_compute in re "^v(\d+):([\s\S]*)$".

(** [m[i]], for a group that took part in the match. *)
Definition grp (i : nat) (c : list (nat * jsstr)) : jsstr := default [] (cap i c).

Record Versioned := { version : num; body : jsstr }.

Definition stripExprVersion (exprStr : jsstr) : Versioned :=
  if negb (truthy_str exprStr) then {| version := num_of_Z 1; body := [] |}
  else match exec re_version exprStr with
       | Some m => {| version := number_of_string (grp 1 m); body := grp 2 m |}
       | None => {| version := num_of_Z 1; body := exprStr |}
       end.

Fixpoint assoc {A} (k : jsstr) (l : list (jsstr * A)) : option A :=
  match l with
  | [] => None
  | (j, x) :: t => if bool_decide (k = j) then Some x else assoc k t
  end.

(** One turn of the loop: the first coefficient of a variable is kept. *)
Definition coeff_step (coeffs : list (jsstr * num)) (m : list (nat * jsstr))
  : list (jsstr * num) :=
  match assoc (grp 1 m) coeffs with
  | Some _ => coeffs
  | None => coeffs ++ [(grp 1 m, number_of_string (grp 2 m))]
  end.

Definition parseTierBody (bodyStr : jsstr) : list (jsstr * num) :=
  let coeffs := fold_left coeff_step (exec_all BILLING_VAR_REGEX bodyStr) [] in
  (fun '(varName, fld) => (fld, or_zero (default NaN (assoc varName coeffs))))
    <$> BILLING_VAR_KEY_TO_FIELD.

Definition condGroup : jsstr :=
  js "((?:(?:p|c|len)\s*(?:<|<=|>|>=)\s*[\d.eE+]+)(?:\s*&&\s*(?:p|c|len)\s*(?:<|<=|>|>=)\s*[\d.eE+]+)*)".

Definition tierRe : regex := Eval vm_compute in
  regex_of false (js "(?:" ++ condGroup ++
                  js "\s*\?\s*)?tier\(\x22([^\x22]*)\x22,\s*([^)]+)\)").

Definition re_and : regex := Eval vm_compute in re "\s*&&\s*".
Definition re_cond : regex := Eval vm_compute in re "^(p|c|len)\s*(<|<=|>|>=)\s*([\d.eE+]+)$".

(** The conditions of a tier: each conjunct that reads as a comparison. *)
Definition parse_tier_conditions (condStr : jsstr) : list TierCondition :=
  if negb (truthy_str condStr) then []
  else omap (fun cp =>
         match exec re_cond (trim cp) with
         | Some cm => Some {| tc_var := grp 1 cm; tc_op := grp 2 cm;
                              tc_value := number_of_string (grp 3 cm) |}
         | None => None
         end) (split_re re_and condStr).

Definition parse_tier (m : list (nat * jsstr)) : ParsedTier :=
  {| pt_fields := parseTierBody (grp 3 m);
     pt_label := grp 2 m;
     pt_conditions := parse_tier_conditions (grp 1 m) |}.

Definition parseTiersFromExpr (exprStr : jsstr) : list ParsedTier :=
  if negb (truthy_str exprStr) then []
  else parse_tier <$> exec_all tierRe (body (stripExprVersion exprStr)).

(** ** Labels *)

Definition re_lt : regex := Eval vm_compute in re "<[=＝]?|≤|＜[=＝]?".
Definition re_gt : regex := Eval vm_compute in re ">[=＝]?|≥|＞[=＝]?".
Definition re_spaces : regex := Eval vm_compute in re "\s+".

Definition normalizeTierLabel (lbl : option jsstr) : jsstr :=
  match lbl with
  | None | Some [] => []
  | Some l => to_lower (replace_all re_spaces []
                (replace_all re_gt (js ">") (replace_all re_lt (js "<") l)))
  end.
