(* ===== verification/RequestRules.v ===== *)
(** * Request rules ([features/pricing/lib/billing-expr.ts], second part)

    A request rule multiplies the price of a request when its conditions hold.  The rules
    are edited as groups and stored as text, factors of the billing expression.  This file
    has the reader of that text ([tryParseRequestRuleExpr]), its printer
    ([buildRequestRuleExpr]), and the functions that join and separate the price part and
    the rule part of an expression.

    [JSON.parse] of a captured literal may throw; the functions that reach it return an
    [outcome]. *)

From S2P Require Import Prelude JsString JsRegex JsNumber JsValue JsJson BillingVars.

#[local] Open Scope N_scope.
#[local] Open Scope outcome_scope.

(** ** Data *)

Definition MATCH_EQ : jsstr := js "eq".
Definition MATCH_CONTAINS : jsstr := js "contains".
Definition MATCH_GT : jsstr := js "gt".
Definition MATCH_GTE : jsstr := js "gte".
Definition MATCH_LT : jsstr := js "lt".
Definition MATCH_LTE : jsstr := js "lte".
Definition MATCH_EXISTS : jsstr := js "exists".
Definition MATCH_RANGE : jsstr := js "range".

Inductive TimeFunc := hour | minute | weekday | month | day.

Definition TIME_FUNCS : list TimeFunc := [hour; minute; weekday; month; day].

Definition timeFunc_str (f : TimeFunc) : jsstr :=
  match f with
  | hour => js "hour"
  | minute => js "minute"
  | weekday => js "weekday"
  | month => js "month"
  | day => js "day"
  end.

(** The member of the union a string is; [isTimeFunc] holds when there is one. *)
Definition timeFunc_of (s : jsstr) : option TimeFunc :=
  find (fun f => bool_decide (timeFunc_str f = s)) TIME_FUNCS.

Inductive PHSource := param | header.

Definition source_str (s : PHSource) : jsstr :=
  match s with param => js "param" | header => js "header" end.

Definition source_of (s : jsstr) : PHSource :=
  if bool_decide (s = js "header") then header else param.

Record ParamHeaderCondition := {
  ph_source : PHSource;
  path : jsstr;
  ph_mode : jsstr;
  ph_value : jsstr
}.

Record TimeCondition := {
  timeFunc : TimeFunc;
  timezone : jsstr;
  t_mode : jsstr;
  t_value : jsstr;
  rangeStart : jsstr;
  rangeEnd : jsstr
}.

Inductive RequestCondition :=
  | CTime (c : TimeCondition)
  | CPH (c : ParamHeaderCondition).

Record RequestRuleGroup := { conditions : list RequestCondition; multiplier : jsstr }.

(** ** Splitting at top level *)

(** The loops of [splitTopLevelMultiply] and [splitTopLevelAnd] differ in the separator
    only.  [acc] holds the units from [start] to the index, in reverse; [skip] the units of
    a separator still to be passed over ([index += 2]), whose parentheses are not counted. *)
Fixpoint split_top (sep : jsstr) (skip : nat) (depth : Z) (acc s : jsstr) : list jsstr :=
  match s with
  | [] => [trim (reverse acc)]
  | c :: t =>
      match skip with
      | S k => split_top sep k depth acc t
      | O =>
          let d1 := if c =? 40 then (depth + 1)%Z else depth in
          let d := if c =? 41 then (d1 - 1)%Z else d1 in
          if (d =? 0)%Z && starts_with sep s
          then trim (reverse acc) :: split_top sep (length sep - 1) d [] t
          else split_top sep 0 d (c :: acc) t
      end
  end.

Definition splitTopLevelMultiply (expr : jsstr) : list jsstr :=
  filter_truthy (split_top (js " * ") 0 0 [] expr).

Definition splitTopLevelAnd (expr : jsstr) : list jsstr :=
  filter_truthy (split_top (js " && ") 0 0 [] expr).

(** ** Reading conditions *)

Definition NUMERIC_LITERAL_REGEX : regex := Eval vm_compute in
  re "^-?(?:\d+\.?\d*|\.\d+)(?:[eE][+-]?\d+)?$".

(** The literal as the value [String()] is applied to by the caller; [null] and a parse
    error both give nothing. *)
Definition parseExprLiteral (raw : jsstr) : option jsval :=
  let text := trim raw in
  if bool_decide (text = js "true") || bool_decide (text = js "false") then Some (VStr text)
  else if test NUMERIC_LITERAL_REGEX text then Some (VStr text)
  else match json_parse text with
       | Some VNull => None
       | r => r
       end.

Definition re_time_range : regex := Eval vm_compute in
  re "^(hour|minute|weekday|month|day)\(\x22([^\x22]+)\x22\) >= ([\d.eE+-]+) \|\| \1\(\x22\2\x22\) < ([\d.eE+-]+)$".
Definition re_time_range_paren : regex := Eval vm_compute in
  re "^\((hour|minute|weekday|month|day)\(\x22([^\x22]+)\x22\) >= ([\d.eE+-]+) \|\| \1\(\x22\2\x22\) < ([\d.eE+-]+)\)$".
Definition re_time : regex := Eval vm_compute in
  re "^(hour|minute|weekday|month|day)\(\x22([^\x22]+)\x22\) (==|>=|<) ([\d.eE+-]+)$".

Definition time_range (m : list (nat * jsstr)) : TimeCondition :=
  {| timeFunc := default hour (timeFunc_of (grp 1 m)); timezone := grp 2 m;
     t_mode := MATCH_RANGE; t_value := []; rangeStart := grp 3 m; rangeEnd := grp 4 m |}.

Definition time_op (op : jsstr) : jsstr :=
  if bool_decide (op = js "==") then MATCH_EQ
  else if bool_decide (op = js ">=") then MATCH_GTE
  else if bool_decide (op = js "<") then MATCH_LT
  else MATCH_EQ.

Definition tryParseTimeCondition (expr : jsstr) : option RequestCondition :=
  match exec re_time_range expr with
  | Some m => Some (CTime (time_range m))
  | None =>
      match exec re_time_range_paren expr with
      | Some m => Some (CTime (time_range m))
      | None =>
          match exec re_time expr with
          | Some m =>
              Some (CTime {| timeFunc := default hour (timeFunc_of (grp 1 m));
                             timezone := grp 2 m; t_mode := time_op (grp 3 m);
                             t_value := grp 4 m; rangeStart := []; rangeEnd := [] |})
          | None => None
          end
      end
  end.

Definition re_header_exists : regex := Eval vm_compute in
  re "^header\(\x22([^\x22]+)\x22\) != \x22\x22$".
Definition re_param_exists : regex := Eval vm_compute in
  re "^param\(\x22([^\x22]+)\x22\) != nil$".
Definition re_header_has : regex := Eval vm_compute in
  re "^has\(header\(\x22([^\x22]+)\x22\), ((?:\x22(?:[^\x22\\]|\\.)*\x22))\)$".
Definition re_param_has : regex := Eval vm_compute in
  re "^param\(\x22([^\x22]+)\x22\) != nil && has\(param\(\x22([^\x22]+)\x22\), ((?:\x22(?:[^\x22\\]|\\.)*\x22))\)$".
Definition re_param_cmp : regex := Eval vm_compute in
  re "^param\(\x22([^\x22]+)\x22\) != nil && param\(\x22([^\x22]+)\x22\) (>|>=|<|<=) ([\d.eE+-]+)$".
Definition re_eq : regex := Eval vm_compute in
  re "^(param|header)\(\x22([^\x22]+)\x22\) == (.+)$".

Definition cmp_mode (op : jsstr) : jsstr :=
  if bool_decide (op = js ">") then MATCH_GT
  else if bool_decide (op = js ">=") then MATCH_GTE
  else if bool_decide (op = js "<") then MATCH_LT
  else MATCH_LTE.

Definition ph (s : PHSource) (p md v : jsstr) : RequestCondition :=
  CPH {| ph_source := s; path := p; ph_mode := md; ph_value := v |}.

(** [JSON.parse(m[i]) as string], of a literal in quotes: a string when it does not throw. *)
Definition parse_literal (t : jsstr) : outcome jsstr :=
  omapr to_string (or_throw (json_parse t)).

(** A match whose two paths, groups 1 and 2, agree. *)
Definition exec_same (r : regex) (expr : jsstr) : option (list (nat * jsstr)) :=
  match exec r expr with
  | Some m => if bool_decide (grp 1 m = grp 2 m) then Some m else None
  | None => None
  end.

(** The last alternative: an equality with a literal. *)
Definition tryParseEq (expr : jsstr) : option RequestCondition :=
  match exec re_eq expr with
  | Some m =>
      match parseExprLiteral (grp 3 m) with
      | None => None
      | Some parsedValue => Some (ph (source_of (grp 1 m)) (grp 2 m) MATCH_EQ (to_string parsedValue))
      end
  | None => None
  end.

Definition tryParseRequestCondition (expr : jsstr) : outcome (option RequestCondition) :=
  match tryParseTimeCondition expr with Some tc => Return (Some tc) | None =>
  match exec re_header_exists expr with
  | Some m => Return (Some (ph header (grp 1 m) MATCH_EXISTS [])) | None =>
  match exec re_param_exists expr with
  | Some m => Return (Some (ph param (grp 1 m) MATCH_EXISTS [])) | None =>
  match exec re_header_has expr with
  | Some m => omapr (fun v => Some (ph header (grp 1 m) MATCH_CONTAINS v)) (parse_literal (grp 2 m))
  | None =>
  match exec_same re_param_has expr with
  | Some m => omapr (fun v => Some (ph param (grp 1 m) MATCH_CONTAINS v)) (parse_literal (grp 3 m))
  | None =>
  match exec_same re_param_cmp expr with
  | Some m => Return (Some (ph param (grp 1 m) (cmp_mode (grp 3 m)) (grp 4 m)))
  | None => Return (tryParseEq expr)
  end end end end end end.

(** ** Reading rules *)

Definition re_factor : regex := Eval vm_compute in re_s "^\((.+) \? ([\d.eE+-]+) : 1\)$".

(** [for (x of l) { y = f(x); if (!y) return null; ys.push(y) }] *)
Fixpoint collect {A B} (f : A -> outcome (option B)) (l : list A) : outcome (option (list B)) :=
  match l with
  | [] => Return (Some [])
  | x :: t => let! r := f x in
              match r with
              | None => Return None
              | Some y => let! rs := collect f t in Return (cons y <$> rs)
              end
  end.

Definition tryParseRuleGroupFactor (part : jsstr) : outcome (option RequestRuleGroup) :=
  match exec re_factor part with
  | None => Return None
  | Some m =>
      let! cs := collect (fun ap => tryParseRequestCondition (trim ap)) (splitTopLevelAnd (grp 1 m)) in
      Return (match cs with
              | None | Some [] => None
              | Some cs => Some {| conditions := cs; multiplier := grp 2 m |}
              end)
  end.

Definition tryParseRequestRuleExpr (expr : jsstr) : outcome (option (list RequestRuleGroup)) :=
  let trimmed := trim (or_str expr []) in
  if negb (truthy_str trimmed) then Return (Some [])
  else collect tryParseRuleGroupFactor (splitTopLevelMultiply trimmed).

(** ** The price part and the rule part *)

(** The loop of [hasFullOuterParens]: [None] is its early [return false]. *)
Fixpoint paren_depth (depth : Z) (s : jsstr) : option Z :=
  match s with
  | [] => Some depth
  | c :: t =>
      let d1 := if c =? 40 then (depth + 1)%Z else depth in
      let d := if c =? 41 then (d1 - 1)%Z else d1 in
      match t with
      | [] => Some d
      | _ => if (d =? 0)%Z then None else paren_depth d t
      end
  end.

Definition hasFullOuterParens (expr : jsstr) : bool :=
  if negb (starts_with (js "(") expr) || negb (ends_with (js ")") expr) then false
  else match paren_depth 0 expr with
       | None => false
       | Some d => (d =? 0)%Z
       end.

(** [current.slice(1, -1)] *)
Definition inner (s : jsstr) : jsstr := slice 1 (length s - 1) s.

(** Each turn drops at least the first unit: the length is fuel enough. *)
Fixpoint unwrap (fuel : nat) (current : jsstr) : jsstr :=
  match fuel with
  | O => current
  | S f => if hasFullOuterParens current then unwrap f (trim (inner current)) else current
  end.

Definition unwrapOuterParens (expr : jsstr) : jsstr :=
  let current := trim (or_str expr []) in unwrap (length current) current.

Record SplitExpr := { billingExpr : jsstr; requestRuleExpr : jsstr }.

(** Whether a factor reads as rules: [parsed && parsed.length > 0]. *)
Definition is_rule_part (part : jsstr) : outcome bool :=
  let! parsed := tryParseRequestRuleExpr part in
  Return (match parsed with Some (_ :: _) => true | _ => false end).

Fixpoint partition_parts (parts : list jsstr) : outcome (list jsstr * list jsstr) :=
  match parts with
  | [] => Return ([], [])
  | part :: t =>
      let! b := is_rule_part part in
      let! p := partition_parts t in
      Return (if (b : bool) then (part :: fst p, snd p) else (fst p, part :: snd p))
  end.

Definition splitBillingExprAndRequestRules (expr : jsstr) : outcome SplitExpr :=
  let trimmed := trim (or_str expr []) in
  if negb (truthy_str trimmed) then Return {| billingExpr := []; requestRuleExpr := [] |}
  else
    let parts := splitTopLevelMultiply trimmed in
    if (length parts <=? 1)%nat then Return {| billingExpr := trimmed; requestRuleExpr := [] |}
    else
      let! p := partition_parts parts in
      let '(ruleParts, baseParts) := p in
      Return (match ruleParts, baseParts with
              | _ :: _, [b] => {| billingExpr := unwrapOuterParens b;
                                  requestRuleExpr := join (js " * ") ruleParts |}
              | _, _ => {| billingExpr := trimmed; requestRuleExpr := [] |}
              end).

Definition combineBillingExpr (baseExpr rulesExpr : jsstr) : jsstr :=
  let base := trim (or_str baseExpr []) in
  let rules := trim (or_str rulesExpr []) in
  if negb (truthy_str base) then []
  else if negb (truthy_str rules) then base
  else js "(" ++ base ++ js ") * " ++ rules.

(** ** Editor: empty values and options *)

Definition createEmptyCondition : ParamHeaderCondition :=
  {| ph_source := param; path := []; ph_mode := MATCH_EQ; ph_value := [] |}.

Definition createEmptyTimeCondition : TimeCondition :=
  {| timeFunc := hour; timezone := js "Asia/Shanghai"; t_mode := MATCH_GTE; t_value := [];
     rangeStart := []; rangeEnd := [] |}.

Definition createEmptyRuleGroup : RequestRuleGroup :=
  {| conditions := [CPH createEmptyCondition]; multiplier := [] |}.

Definition createEmptyTimeRuleGroup : RequestRuleGroup :=
  {| conditions := [CTime createEmptyTimeCondition]; multiplier := [] |}.

Record MatchOption := { value : jsstr; labelKey : jsstr }.

Definition opt (v l : jsstr) : MatchOption := {| value := v; labelKey := l |}.

Definition getRequestRuleMatchOptions (source : jsstr) : list MatchOption :=
  if bool_decide (source = js "time") then
    [ opt MATCH_EQ (js "Equals"); opt MATCH_GTE (js "Greater than or equal");
      opt MATCH_LT (js "Less than"); opt MATCH_RANGE (js "Overnight range") ]
  else
    let base := [ opt MATCH_EQ (js "Equals"); opt MATCH_CONTAINS (js "Contains");
                  opt MATCH_EXISTS (js "Exists") ] in
    if bool_decide (source = js "header") then base
    else base ++ [ opt MATCH_GT (js "Greater than"); opt MATCH_GTE (js "Greater than or equal");
                   opt MATCH_LT (js "Less than"); opt MATCH_LTE (js "Less than or equal") ].

(** ** Editor: normalising a condition *)

(** [Partial<RequestCondition> | null | undefined]: the fields it may have. *)
Record PartialCondition := {
  p_source : option jsstr;
  p_path : option jsstr;
  p_mode : option jsstr;
  p_value : option jsstr;
  p_timeFunc : option jsstr;
  p_timezone : option jsstr;
  p_rangeStart : option jsstr;
  p_rangeEnd : option jsstr
}.

Definition partial (c : RequestCondition) : PartialCondition :=
  match c with
  | CTime t => {| p_source := Some (js "time"); p_path := None; p_mode := Some (t_mode t);
                  p_value := Some (t_value t); p_timeFunc := Some (timeFunc_str (timeFunc t));
                  p_timezone := Some (timezone t); p_rangeStart := Some (rangeStart t);
                  p_rangeEnd := Some (rangeEnd t) |}
  | CPH c => {| p_source := Some (source_str (ph_source c)); p_path := Some (path c);
                p_mode := Some (ph_mode c); p_value := Some (ph_value c); p_timeFunc := None;
                p_timezone := None; p_rangeStart := None; p_rangeEnd := None |}
  end.

(** [x || d] for an optional string. *)
Definition or_default (x : option jsstr) (d : jsstr) : jsstr :=
  match x with Some ((_ :: _) as s) => s | _ => d end.

Definition valid_mode (source : jsstr) (md : option jsstr) : bool :=
  existsb (fun item => bool_decide (Some (value item) = md)) (getRequestRuleMatchOptions source).

(** [cond?.f]: nothing on a null or undefined condition. *)
Definition field_of (f : PartialCondition -> option jsstr) (cond : option PartialCondition)
  : option jsstr := cond ≫= f.

Definition normalizeCondition (cond : option PartialCondition) : RequestCondition :=
  let source :=
    if bool_decide (field_of p_source cond = Some (js "time")) then js "time"
    else if bool_decide (field_of p_source cond = Some (js "header")) then js "header"
    else js "param" in
  if bool_decide (source = js "time") then
    CTime {| timeFunc := default hour (field_of p_timeFunc cond ≫= timeFunc_of);
             timezone := or_default (field_of p_timezone cond) (js "Asia/Shanghai");
             t_mode := if valid_mode (js "time") (field_of p_mode cond)
                       then default [] (field_of p_mode cond) else MATCH_GTE;
             t_value := default [] (field_of p_value cond);
             rangeStart := default [] (field_of p_rangeStart cond);
             rangeEnd := default [] (field_of p_rangeEnd cond) |}
  else
    CPH {| ph_source := source_of source;
           path := or_default (field_of p_path cond) [];
           ph_mode := if valid_mode source (field_of p_mode cond)
                      then default [] (field_of p_mode cond) else MATCH_EQ;
           ph_value := default [] (field_of p_value cond) |}.

(** ** Editor: printing rules *)

Definition is_numeric (s : jsstr) : bool := test NUMERIC_LITERAL_REGEX s.

Definition buildExprLiteral (md v : jsstr) : jsstr :=
  let text := trim v in
  if bool_decide (md = MATCH_CONTAINS) then quote text
  else if bool_decide (text = js "true") || bool_decide (text = js "false") then text
  else if is_numeric text then text
  else quote text.

Definition time_op_str (md : jsstr) : jsstr :=
  if bool_decide (md = MATCH_EQ) then js "=="
  else if bool_decide (md = MATCH_GTE) then js ">="
  else if bool_decide (md = MATCH_LT) then js "<"
  else js "==".

(** The condition after [normalizeCondition]. *)
Definition time_expr (n : TimeCondition) : jsstr :=
  let fn := timeFunc_str (timeFunc n) ++ js "(" ++ quote (timezone n) ++ js ")" in
  if bool_decide (t_mode n = MATCH_RANGE) then
    let s := trim (rangeStart n) in
    let e := trim (rangeEnd n) in
    if negb (is_numeric s) || negb (is_numeric e) then []
    else fn ++ js " >= " ++ s ++ js " || " ++ fn ++ js " < " ++ e
  else
    let v := trim (t_value n) in
    if negb (is_numeric v) then []
    else fn ++ js " " ++ time_op_str (t_mode n) ++ js " " ++ v.

Definition buildTimeConditionExpr (cond : TimeCondition) : jsstr :=
  match normalizeCondition (Some (partial (CTime cond))) with
  | CTime n => time_expr n
  | CPH _ => []
  end.

Definition cmp_op_str (md : jsstr) : option jsstr :=
  if bool_decide (md = MATCH_GT) then Some (js ">")
  else if bool_decide (md = MATCH_GTE) then Some (js ">=")
  else if bool_decide (md = MATCH_LT) then Some (js "<")
  else if bool_decide (md = MATCH_LTE) then Some (js "<=")
  else None.

(** The [switch] on the mode of a normalised condition. *)
Definition ph_expr (n : ParamHeaderCondition) : jsstr :=
  let p := trim (path n) in
  if negb (truthy_str p) then []
  else
    let sourceExpr := source_str (ph_source n) ++ js "(" ++ quote p ++ js ")" in
    let is_header := match ph_source n with header => true | param => false end in
    let lit := buildExprLiteral (ph_mode n) (ph_value n) in
    if bool_decide (ph_mode n = MATCH_EXISTS) then
      if is_header then sourceExpr ++ js " != " ++ dq ++ dq else sourceExpr ++ js " != nil"
    else if bool_decide (ph_mode n = MATCH_CONTAINS) then
      if is_header then js "has(" ++ sourceExpr ++ js ", " ++ lit ++ js ")"
      else sourceExpr ++ js " != nil && has(" ++ sourceExpr ++ js ", " ++ lit ++ js ")"
    else match cmp_op_str (ph_mode n) with
         | Some op =>
             let numText := trim (ph_value n) in
             if negb (is_numeric numText) then []
             else sourceExpr ++ js " != nil && " ++ sourceExpr ++ js " " ++ op ++ js " " ++ numText
         | None => sourceExpr ++ js " == " ++ lit
         end.

Definition buildRequestConditionExpr (cond : RequestCondition) : jsstr :=
  match cond with
  | CTime t => buildTimeConditionExpr t
  | CPH _ => match normalizeCondition (Some (partial cond)) with
             | CPH n => ph_expr n
             | CTime _ => []
             end
  end.

Definition wrap_or (e : jsstr) : jsstr :=
  if includes (js " || ") e then js "(" ++ e ++ js ")" else e.

Definition buildRuleGroupFactor (g : RequestRuleGroup) : jsstr :=
  let mult := trim (multiplier g) in
  if negb (is_numeric mult) then []
  else
    let condExprs := filter_truthy (buildRequestConditionExpr <$> conditions g) in
    match condExprs with
    | [] => []
    | _ =>
        let combined := match condExprs with
                        | [e] => e
                        | _ => join (js " && ") (wrap_or <$> condExprs)
                        end in
        js "(" ++ combined ++ js " ? " ++ mult ++ js " : 1)"
    end.

Definition buildRequestRuleExpr (groups : list RequestRuleGroup) : jsstr :=
  join (js " * ") (filter_truthy (buildRuleGroupFactor <$> groups)).
