(* ===== verification/RequestRulesProofs.v ===== *)
(** * Request rules: theorems

    The printer and the reader of [RequestRules]: texts without special units, the
    conditions the printer and the reader agree on, the round trip of rule groups, and
    the separation of the price part from the rule part. *)

From S2P Require Import Prelude JsString JsRegex JsNumber JsValue JsJson BillingVars RequestRules.

#[local] Open Scope N_scope.
#[local] Open Scope outcome_scope.

(** ** Texts without special units *)

(** A unit that JSON leaves as it is in a string, that [.] matches, and that is none of the
    units the expression syntax uses: parentheses, [&] and [|]. *)
Definition safe_unit (c : N) : bool :=
  (32 <=? c) && negb (is_high c) && negb (is_low c)
  && negb (bool_decide (c ∈ [34; 38; 40; 41; 92; 124; 8232; 8233])).

Definition safe (s : jsstr) : Prop := Forall (fun c => safe_unit c = true) s.

#[export] Instance safe_dec s : Decision (safe s).
Proof. unfold safe. apply _. Defined.

(** A trimmed text that is not empty. *)
Definition name_ok (s : jsstr) : Prop := s <> [] /\ safe s /\ trim s = s.

#[export] Instance name_ok_dec s : Decision (name_ok s).
Proof. unfold name_ok. apply _. Defined.

Lemma safe_unit_spec c :
  safe_unit c = true ->
  32 <= c /\ is_high c = false /\ is_low c = false
  /\ c <> 34 /\ c <> 38 /\ c <> 40 /\ c <> 41 /\ c <> 92 /\ c <> 124 /\ c <> 8232 /\ c <> 8233.
Proof.
  unfold safe_unit. rewrite !andb_true_iff, !negb_true_iff, bool_decide_eq_false, N.leb_le.
  intros (((? & ?) & ?) & Hn). repeat rewrite not_elem_of_cons in Hn. tauto.
Qed.

Lemma quote_units_safe s : safe s -> quote_units s = s.
Proof.
  induction 1 as [|c t Hc Ht IH]; [done|]. apply safe_unit_spec in Hc as (H1 & Hh & Hl & Hc).
  assert (Hq : quote_unit c = [c]).
  { unfold quote_unit.
    rewrite !(proj2 (N.eqb_neq _ _)) by lia. rewrite (proj2 (N.ltb_ge _ _)) by lia.
    by rewrite Hh, Hl. }
  simpl. rewrite Hh. destruct t; [done|]. by rewrite Hq, IH.
Qed.

Lemma quote_safe s : safe s -> quote s = dq ++ s ++ dq.
Proof. intros H. unfold quote. by rewrite quote_units_safe. Qed.

(** ** Numeric literals *)

Definition num_class : list (N * N) :=
  [(48, 57); (46, 46); (101, 101); (69, 69); (43, 43); (45, 45)].

Definition num_unit (c : N) : Prop := in_class false num_class c = true.

Lemma num_unit_safe c : num_unit c -> safe_unit c = true /\ is_ws c = false.
Proof.
  unfold num_unit, in_class, in_ranges; simpl. intros H.
  assert (Hc : 43 <= c <= 57 \/ c = 69 \/ c = 101).
  { rewrite !orb_true_iff, !andb_true_iff, !N.leb_le in H. lia. }
  split.
  - unfold safe_unit, is_high, is_low. rewrite (proj2 (N.leb_le _ _)) by lia.
    rewrite (proj2 (N.leb_gt 55296 c)), (proj2 (N.leb_gt 56320 c)) by lia. simpl.
    rewrite bool_decide_eq_false_2; [done|]. rewrite !not_elem_of_cons.
    repeat split; try lia. apply not_elem_of_nil.
  - unfold is_ws. destruct Hc as [Hc|[-> | ->]]; [|done|done].
    rewrite !orb_false_iff, !andb_false_iff, !N.leb_gt, !N.eqb_neq. lia.
Qed.

Lemma is_numeric_units s : is_numeric s = true -> s <> [] /\ Forall num_unit s.
Proof.
  unfold is_numeric, NUMERIC_LITERAL_REGEX.
  match goal with |- test (RSeq RBol (RSeq ?a (RSeq ?b (RSeq ?c REol)))) s = true -> _ =>
    set (r := RSeq a (RSeq b c)); assert (H : test (RSeq RBol (RSeq a (RSeq b (RSeq c REol)))) s
      = test (RSeq RBol (RSeq r REol)) s) by by rewrite !test_anchored end.
  rewrite H, test_full by done. intros HL. split.
  - intros ->. subst r. destruct HL as (u & v & Hs & _ & (x & y & -> & Hx & _)).
    symmetry in Hs. apply app_nil in Hs as [_ [-> _]%app_nil].
    destruct Hx as [(p & q & E & (p1 & p2 & -> & (c & -> & _) & _) & _)|(p & q & E & -> & _)]; done.
  - eapply lang_units; [|exact HL]. subst r. simpl. unfold num_unit, num_class, in_class, in_ranges; simpl.
    repeat split; repeat constructor; intros c Hc;
      rewrite ?orb_true_iff, ?andb_true_iff, ?N.leb_le in *; lia.
Qed.

Lemma class_neg_true rs c :
  Forall (fun '(a, b) => c < a \/ b < c) rs -> in_class true rs c = true.
Proof.
  unfold in_class, in_ranges. induction 1 as [|[a b] rs Hc _ IH]; [done|]. simpl in *.
  destruct ((a <=? c) && (c <=? b)) eqn:E; [bool_hyps; lia|done].
Qed.

Ltac outside_ranges := repeat (apply Forall_cons_2; [lia|]); apply Forall_nil_2.

Lemma safe_not_quote s : safe s -> Forall (fun c => in_class true [(34, 34)] c = true) s.
Proof.
  intros H. eapply Forall_impl; [exact H|]. intros c Hc%safe_unit_spec.
  apply class_neg_true. outside_ranges.
Qed.

Lemma safe_dot s :
  safe s -> Forall (fun c => in_class true newline_ranges c = true) s.
Proof.
  intros H. eapply Forall_impl; [exact H|]. intros c Hc%safe_unit_spec.
  apply class_neg_true. outside_ranges.
Qed.

(** ** Reading one condition *)

(** A pattern that the first units of the text already exclude. *)
Ltac no_match r :=
  replace (exec r _) with (@None (list (nat * jsstr)))
    by (unfold r; rewrite exec_anchored; reflexivity).

(** The literals of [has]: a quoted text without escapes. *)
Definition lit_unit : regex :=
  RAlt (RClass true [(34, 34); (92, 92)]) (RSeq (RLit [92]) (RClass true newline_ranges)).

Definition quoted : regex := RSeq (RLit [34]) (RSeq (RStar true lit_unit) (RLit [34])).

Lemma m_quoted i v t k s x :
  safe v -> rest s = dq ++ v ++ dq ++ t -> k (captured i (dq ++ v ++ dq) t s) = Some x ->
  m (RGroup i quoted) k s = Some x.
Proof.
  intros Hv Hr Hk.
  change (m (RGroup i ?a) k s) with (m a (fun s' => k (St (before s') (rest s')
    ((i, take (length (rest s) - length (rest s')) (rest s)) :: caps s'))) s).
  unfold quoted. rewrite (m_lit_app _ _ (v ++ dq ++ t)) by done.
  set (k1 := fun s' => _). set (s1 := after _ _ _).
  change (m (RSeq ?a ?b) k1 s1) with (star_m (m lit_unit) true (length (rest s1)) (m b k1) s1).
  apply (star_success lit_unit (fun c => safe_unit c = true)) with (w := v) (t := dq ++ t);
    [|done|done| |unfold s1; simpl; rewrite length_app; lia|].
  - intros k2 s2 c u Hc Hs%safe_unit_spec. unfold lit_unit.
    change (m (RAlt ?a ?b) k2 s2) with (or_else (m a k2 s2) (m b k2 s2)).
    rewrite (m_class_step _ _ _ _ c u); [|done|apply class_neg_true; outside_ranges].
    change (m (RSeq (RLit [92]) ?b) k2 s2) with (m (RLit [92]) (m b k2) s2).
    rewrite m_lit_None; [by rewrite or_else_None_r|].
    cbn [eat]. unfold step_unit. rewrite Hc. by rewrite (proj2 (N.eqb_neq 92 c)) by lia.
  - done.
  - rewrite (m_lit [34] k1 _ (after (dq ++ v ++ dq) t s)).
    + unfold k1. rewrite group_state; [done|]. by rewrite Hr, <- !app_assoc.
    + apply eat_Some. exists t. unfold s1. rewrite !after_app, <- app_assoc. done.
Qed.

Section Condition.
Variable p : jsstr.
Hypothesis Hne : p <> [].
Hypothesis Hsafe : safe p.
Let Hq := safe_not_quote p Hsafe.

(** [pre "p" post], where [pre] ends with a quote, against [pre ([^"]+) " l r]. *)
Lemma exec_arg i pre l r T :
  exec (RSeq RBol (RSeq (RLit pre)
         (RSeq (RGroup i (plus true [(34, 34)])) (RSeq (RLit (34 :: l)) r))))
       (pre ++ p ++ 34 :: T)
  = caps <$> m (RSeq (RLit (34 :: l)) r) Some
               (captured i p (34 :: T) (after pre (p ++ 34 :: T) (St [] (pre ++ p ++ 34 :: T) []))).
Proof.
  rewrite exec_anchored. unfold match_at. rewrite (m_lit_app _ _ (p ++ 34 :: T)) by done.
  by rewrite (m_group_lit i true [(34, 34)] 34 l r p (34 :: T)).
Qed.

Lemma parse_header_exists :
  tryParseRequestCondition (js "header(" ++ dq ++ p ++ dq ++ js ") != " ++ dq ++ dq)
  = Return (Some (ph header p MATCH_EXISTS [])).
Proof.
  unfold tryParseRequestCondition, tryParseTimeCondition.
  change (js "header(" ++ dq ++ p ++ dq ++ js ") != " ++ dq ++ dq)
    with ((js "header(" ++ dq) ++ p ++ 34 :: js ") != " ++ dq ++ dq).
  no_match re_time_range. no_match re_time_range_paren. no_match re_time.
  unfold re_header_exists. cbn match.
  rewrite (exec_arg 1 (js "header(" ++ dq)). reflexivity.
Qed.

Lemma parse_param_exists :
  tryParseRequestCondition (js "param(" ++ dq ++ p ++ dq ++ js ") != nil")
  = Return (Some (ph param p MATCH_EXISTS [])).
Proof.
  unfold tryParseRequestCondition, tryParseTimeCondition.
  change (js "param(" ++ dq ++ p ++ dq ++ js ") != nil")
    with ((js "param(" ++ dq) ++ p ++ 34 :: js ") != nil").
  no_match re_time_range. no_match re_time_range_paren. no_match re_time.
  no_match re_header_exists. unfold re_param_exists. cbn match.
  rewrite (exec_arg 1 (js "param(" ++ dq)). reflexivity.
Qed.

(** The equality with a literal text. *)
Lemma exec_eq src lit :
  lit <> [] -> Forall (fun c => in_class true newline_ranges c = true) lit ->
  exec re_eq (source_str src ++ js "(" ++ dq ++ p ++ 34 :: js ") == " ++ lit)
  = Some [(3%nat, lit); (2%nat, p); (1%nat, source_str src)].
Proof.
  intros Hl Hd. unfold re_eq. rewrite exec_anchored. unfold match_at.
  set (T := p ++ 34 :: js ") == " ++ lit).
  assert (H : forall b,
    m (RSeq (RLit [40; 34]) (RSeq (RGroup 2 (plus true [(34, 34)]))
        (RSeq (RLit (34 :: js ") == ")) (RSeq (RGroup 3 (plus true newline_ranges)) REol))))
      Some (St b (js "(" ++ dq ++ T) [(1%nat, source_str src)])
    = Some (St (reverse lit ++ reverse (34 :: js ") == ") ++ reverse p ++ reverse [40; 34] ++ b) []
              [(3%nat, lit); (2%nat, p); (1%nat, source_str src)])).
  { intros b. rewrite (m_lit_app _ _ T) by done.
    rewrite (m_group_lit 2 true [(34, 34)] 34 _ _ p (34 :: js ") == " ++ lit)) by done.
    rewrite (m_lit_app _ _ lit) by done. by rewrite (m_group_eol 3 true newline_ranges lit). }
  specialize (H (reverse (source_str src))).
  destruct src; words; (etransitivity; [apply (f_equal (fmap caps)); exact H|reflexivity]).
Qed.

Lemma parse_eq src lit :
  lit <> [] -> Forall (fun c => in_class true newline_ranges c = true) lit ->
  tryParseRequestCondition (source_str src ++ js "(" ++ dq ++ p ++ 34 :: js ") == " ++ lit)
  = Return (match parseExprLiteral lit with
            | None => None
            | Some v => Some (ph src p MATCH_EQ (to_string v))
            end).
Proof.
  intros Hl Hd. unfold tryParseRequestCondition, tryParseTimeCondition, exec_same, tryParseEq.
  rewrite exec_eq by done. destruct src.
  - no_match re_time_range. no_match re_time_range_paren. no_match re_time.
    no_match re_header_exists. no_match re_header_has.
    unfold re_param_exists, re_param_has, re_param_cmp.
    change (source_str param ++ js "(" ++ dq ++ p ++ ?T) with ((js "param(" ++ dq) ++ p ++ T).
    by rewrite !(exec_arg 1 (js "param(" ++ dq)).
  - no_match re_time_range. no_match re_time_range_paren. no_match re_time.
    no_match re_param_exists. no_match re_header_has. no_match re_param_has.
    no_match re_param_cmp. unfold re_header_exists.
    change (source_str header ++ js "(" ++ dq ++ p ++ ?T) with ((js "header(" ++ dq) ++ p ++ T).
    by rewrite !(exec_arg 1 (js "header(" ++ dq)).
Qed.

(** The quoted literal of a [has] condition. *)
Lemma parse_header_has v :
  safe v ->
  tryParseRequestCondition
    (js "has(header(" ++ dq ++ p ++ 34 :: js "), " ++ dq ++ v ++ dq ++ js ")")
  = Return (Some (ph header p MATCH_CONTAINS v)).
Proof.
  intros Hv. unfold tryParseRequestCondition, tryParseTimeCondition.
  no_match re_time_range. no_match re_time_range_paren. no_match re_time.
  no_match re_header_exists. no_match re_param_exists. unfold re_header_has. cbn match.
  change (js "has(header(" ++ dq ++ p ++ ?T) with ((js "has(header(" ++ dq) ++ p ++ T).
  rewrite (exec_arg 1 (js "has(header(" ++ dq)).
  rewrite (m_lit_app _ _ (dq ++ v ++ dq ++ js ")")) by done.
  change (m (RSeq ?g ?r) Some ?s) with (m g (m r Some) s).
  erewrite (m_quoted 2 v (js ")")); [|done|done|reflexivity].
  cbn [fmap option_fmap option_map caps captured]. unfold parse_literal.
  change (grp 2 _) with (dq ++ v ++ dq). rewrite <- quote_safe by done.
  change (quote v) with (ser (VStr v)). by rewrite json_parse_ser.
Qed.
End Condition.

(** ** Reading time conditions *)

Definition time_words : regex :=
  RAlt (RLit (js "hour")) (RAlt (RLit (js "minute")) (RAlt (RLit (js "weekday"))
    (RAlt (RLit (js "month")) (RLit (js "day"))))).

Lemma m_time_word f T r k s :
  rest s = timeFunc_str f ++ T ->
  m (RSeq (RGroup 1 time_words) r) k s = m r k (captured 1 (timeFunc_str f) T s).
Proof.
  intros Hr. destruct s as [b t c]. simpl in Hr. subst t. unfold time_words.
  destruct f; rewrite ?m_group_alt;
    repeat first [rewrite m_group_word_None by reflexivity
                 |erewrite m_group_word by reflexivity];
    cbn [or_else]; by rewrite ?or_else_None_r.
Qed.

Lemma num_units_class v : is_numeric v = true -> Forall (fun c => in_class false num_class c = true) v.
Proof. by intros [_ ?]%is_numeric_units. Qed.

Lemma num_not_nil v : is_numeric v = true -> v <> [].
Proof. by intros [? _]%is_numeric_units. Qed.

#[local] Hint Resolve num_units_class num_not_nil safe_not_quote : js.

Definition time_range_tail (r : regex) : regex :=
  RSeq (RGroup 1 time_words) (RSeq (RLit [40; 34]) (RSeq (RGroup 2 (plus true [(34, 34)]))
    (RSeq (RLit (34 :: js ") >= ")) (RSeq (RGroup 3 (plus false num_class))
      (RSeq (RLit (js " || ")) (RSeq (RBackref 1) (RSeq (RLit [40; 34]) (RSeq (RBackref 2)
        (RSeq (RLit (34 :: js ") < ")) (RSeq (RGroup 4 (plus false num_class)) r)))))))))).

Section TimeCondition.
Variables (f : TimeFunc) (tz : jsstr).
Hypothesis Hne : tz <> [].
Hypothesis Hsafe : safe tz.

Definition call : jsstr := timeFunc_str f ++ js "(" ++ dq ++ tz ++ dq.

Definition range_text (v w : jsstr) : jsstr :=
  call ++ js ") >= " ++ v ++ js " || " ++ call ++ js ") < " ++ w.

(** The two range patterns share everything up to the end of the last number. *)
Lemma m_range_tail v w t k r b :
  is_numeric v = true -> is_numeric w = true ->
  m (time_range_tail r) k (St b (range_text v w ++ t) [])
  = m (RSeq (RGroup 4 (plus false num_class)) r) k
      (St (reverse (call ++ js ") >= " ++ v ++ js " || " ++ call ++ js ") < ") ++ b) (w ++ t)
          [(3%nat, v); (2%nat, tz); (1%nat, timeFunc_str f)]).
Proof.
  intros Hv Hw. unfold time_range_tail.
  set (B := St (reverse (call ++ js ") >= " ++ v ++ _) ++ b) _ _).
  set (t4 := w ++ t). set (t3 := dq ++ js ") < " ++ t4).
  set (t2 := timeFunc_str f ++ js "(" ++ dq ++ tz ++ t3). set (t1 := v ++ js " || " ++ t2).
  assert (Ht : range_text v w ++ t
               = timeFunc_str f ++ [40; 34] ++ tz ++ (34 :: js ") >= ") ++ t1).
  { unfold range_text, call, t1, t2, t3, t4. by rewrite <- !app_assoc. }
  rewrite Ht. clear Ht.
  rewrite (m_time_word f ([40; 34] ++ tz ++ (34 :: js ") >= ") ++ t1)) by done.
  rewrite (m_lit_app _ _ (tz ++ (34 :: js ") >= ") ++ t1)) by done.
  rewrite (m_group_lit 2 true [(34, 34)] 34 _ _ tz ((34 :: js ") >= ") ++ t1)) by (try done; auto with js).
  rewrite (m_lit_app (34 :: js ") >= ") _ t1) by done.
  change (js " || ") with (32 :: js "|| ") at 1.
  rewrite (m_group_lit 3 false num_class 32 _ _ v (js " || " ++ t2)) by (try done; auto with js).
  rewrite (m_lit_app _ _ t2) by done.
  rewrite (m_backref 1 (timeFunc_str f) _ (js "(" ++ dq ++ tz ++ t3)) by done.
  rewrite (m_lit_app _ _ (tz ++ t3)) by done.
  rewrite (m_backref 2 tz _ t3) by done. rewrite (m_lit_app _ _ t4) by done.
  f_equal. unfold B, captured, after, call. cbn [before rest caps]. f_equal.
  rewrite !app_assoc, <- !reverse_app. f_equal. f_equal. by rewrite <- !app_assoc.
Qed.

Lemma timeFunc_of_str : timeFunc_of (timeFunc_str f) = Some f.
Proof. by destruct f. Qed.

Definition range_cond (v w : jsstr) : RequestCondition :=
  CTime {| timeFunc := f; timezone := tz; t_mode := MATCH_RANGE; t_value := [];
           rangeStart := v; rangeEnd := w |}.

Lemma parse_range v w :
  is_numeric v = true -> is_numeric w = true ->
  tryParseTimeCondition (range_text v w) = Some (range_cond v w).
Proof.
  intros Hv Hw. unfold tryParseTimeCondition.
  change re_time_range with (RSeq RBol (time_range_tail REol)). rewrite exec_anchored.
  unfold match_at. change (m (RSeq RBol ?r) Some (St [] ?s [])) with (m r Some (St [] s [])).
  rewrite <- (app_nil_r (range_text v w)), m_range_tail by done.
  rewrite (m_group_eol 4 false num_class w) by (rewrite ?app_nil_r; try done; auto with js).
  cbn [fmap option_fmap option_map caps captured]. unfold time_range.
  change (grp 1 _) with (timeFunc_str f). by rewrite timeFunc_of_str.
Qed.

Lemma parse_range_paren v w :
  is_numeric v = true -> is_numeric w = true ->
  tryParseTimeCondition (js "(" ++ range_text v w ++ js ")") = Some (range_cond v w).
Proof.
  intros Hv Hw. unfold tryParseTimeCondition. no_match re_time_range.
  change re_time_range_paren
    with (RSeq RBol (RSeq (RLit (js "(")) (time_range_tail (RSeq (RLit [41]) REol)))).
  rewrite exec_anchored. unfold match_at.
  rewrite (m_lit_app _ _ (range_text v w ++ js ")")) by done. unfold after. cbn [before caps].
  rewrite m_range_tail by done.
  rewrite (m_group_lit 4 false num_class 41 [] _ w (js ")")) by (try done; auto with js).
  rewrite (m_lit_app _ _ []) by done. change (m REol Some ?s) with (Some s).
  cbn [fmap option_fmap option_map caps captured]. unfold time_range.
  change (grp 1 _) with (timeFunc_str f). by rewrite timeFunc_of_str.
Qed.

Definition cmp_text (op v : jsstr) : jsstr := call ++ js ") " ++ op ++ js " " ++ v.

Definition cmp_cond (op v : jsstr) : RequestCondition :=
  CTime {| timeFunc := f; timezone := tz; t_mode := time_op op; t_value := v;
           rangeStart := []; rangeEnd := [] |}.

(** A comparison is no range: there is no number, or no [||] after it. *)
Lemma cmp_no_range op v :
  op ∈ [js "=="; js ">="; js "<"] -> is_numeric v = true ->
  exec re_time_range (cmp_text op v) = None.
Proof.
  intros Hop Hv. change re_time_range with (RSeq RBol (time_range_tail REol)).
  rewrite exec_anchored. unfold match_at.
  unfold time_range_tail, cmp_text, call.
  set (T := js ") " ++ op ++ js " " ++ v).
  replace ((_ ++ _) ++ T) with (timeFunc_str f ++ [40; 34] ++ tz ++ 34 :: T)
    by by rewrite <- !app_assoc.
  rewrite (m_time_word f ([40; 34] ++ tz ++ 34 :: T)) by done.
  rewrite (m_lit_app _ _ (tz ++ 34 :: T)) by done.
  rewrite (m_group_lit 2 true [(34, 34)] 34 _ _ tz (34 :: T)) by (try done; auto with js).
  rewrite !elem_of_cons in Hop. destruct Hop as [-> |[-> |[-> |[]%elem_of_nil] ] ]; [done| |done].
  rewrite (m_lit_app _ _ v) by done. change (js " || ") with (32 :: js "|| ").
  by rewrite (m_group_lit 3 false num_class 32 _ _ v []) by
    (rewrite ?app_nil_r; try done; auto with js).
Qed.

Lemma parse_cmp op v :
  op ∈ [js "=="; js ">="; js "<"] -> is_numeric v = true ->
  tryParseTimeCondition (cmp_text op v) = Some (cmp_cond op v).
Proof.
  intros Hop Hv. unfold tryParseTimeCondition. rewrite cmp_no_range by done.
  replace (exec re_time_range_paren _) with (@None (list (nat * jsstr)))
    by (unfold re_time_range_paren; rewrite exec_anchored; unfold cmp_text, call; by destruct f).
  set (words := RAlt (RLit (js "==")) (RAlt (RLit (js ">=")) (RLit (js "<")))).
  change re_time with (RSeq RBol (RSeq (RGroup 1 time_words) (RSeq (RLit [40; 34])
    (RSeq (RGroup 2 (plus true [(34, 34)])) (RSeq (RLit (34 :: js ") ")) (RSeq (RGroup 3 words)
    (RSeq (RLit (js " ")) (RSeq (RGroup 4 (plus false num_class)) REol)))))))).
  rewrite exec_anchored. unfold match_at.
  unfold cmp_text, call. set (T := op ++ js " " ++ v).
  replace ((_ ++ _) ++ _ ++ T) with (timeFunc_str f ++ [40; 34] ++ tz ++ (34 :: js ") ") ++ T)
    by by rewrite <- !app_assoc.
  rewrite (m_time_word f ([40; 34] ++ tz ++ (34 :: js ") ") ++ T)) by done.
  rewrite (m_lit_app _ _ (tz ++ (34 :: js ") ") ++ T)) by done.
  rewrite (m_group_lit 2 true [(34, 34)] 34 _ _ tz ((34 :: js ") ") ++ T)) by (try done; auto with js).
  rewrite (m_lit_app (34 :: js ") ") _ T) by done. unfold words, T.
  set (s1 := after _ _ _).
  assert (Hs : forall b, m (RSeq (RLit (js " ")) (RSeq (RGroup 4 (plus false num_class)) REol)) Some
                 (St b (js " " ++ v) ((3%nat, op) :: caps s1))
               = Some (St (reverse v ++ 32 :: b) [] ((4%nat, v) :: (3%nat, op) :: caps s1))).
  { intros b. rewrite (m_lit_app _ _ v) by done.
    by rewrite (m_group_eol 4 false num_class v) by (try done; auto with js). }
  assert (E : m (RSeq (RGroup 3 words) (RSeq (RLit (js " "))
                (RSeq (RGroup 4 (plus false num_class)) REol))) Some s1
              = Some (St (reverse v ++ 32 :: reverse op ++ before s1) []
                        ((4%nat, v) :: (3%nat, op) :: caps s1))).
  { unfold words. rewrite ?m_group_alt. rewrite !elem_of_cons in Hop.
    destruct Hop as [-> |[-> |[-> |[]%elem_of_nil] ] ];
      repeat first [rewrite m_group_word_None by reflexivity
                   |rewrite (m_group_word 3 _ _ (js " " ++ v)) by reflexivity];
      unfold captured; cbn [or_else]; rewrite Hs; done. }
  unfold words in E. rewrite E. cbn [fmap option_fmap option_map caps].
  change (grp 1 _) with (timeFunc_str f). by rewrite timeFunc_of_str.
Qed.
End TimeCondition.

(** ** Normalising a condition *)

(** The mode is one of the options the editor offers for the source, and a time condition
    has a time zone. *)
Definition mode_ok (c : RequestCondition) : Prop :=
  match c with
  | CTime t => valid_mode (js "time") (Some (t_mode t)) = true /\ timezone t <> []
  | CPH n => valid_mode (source_str (ph_source n)) (Some (ph_mode n)) = true
  end.

Lemma or_default_not_nil x d : d <> [] -> or_default x d <> [].
Proof. by destruct x as [[|? ?]|]. Qed.

Lemma valid_mode_Some src md : valid_mode src md = true -> exists s, md = Some s.
Proof.
  unfold valid_mode. intros (o & _ & Ho)%existsb_elem. apply bool_decide_eq_true in Ho as <-. eauto.
Qed.

Lemma normalize_mode_ok cond : mode_ok (normalizeCondition cond).
Proof.
  unfold normalizeCondition.
  destruct (bool_decide (field_of p_source cond = Some (js "time"))) eqn:Et.
  - rewrite bool_decide_eq_true_2 by done. split; cbn [t_mode timezone].
    + destruct (valid_mode _ (field_of p_mode cond)) eqn:Ev; [|reflexivity].
      destruct (valid_mode_Some _ _ Ev) as [s Hs]. rewrite Hs in *. exact Ev.
    + by apply or_default_not_nil.
  - destruct (bool_decide (field_of p_source cond = Some (js "header"))) eqn:Eh;
      rewrite bool_decide_eq_false_2 by done; cbn -[valid_mode field_of];
      (destruct (valid_mode _ (field_of p_mode cond)) eqn:Ev; [|reflexivity]);
      destruct (valid_mode_Some _ _ Ev) as [s Hs]; rewrite Hs in *; exact Ev.
Qed.

Lemma normalize_partial c : mode_ok c -> normalizeCondition (Some (partial c)) = c.
Proof.
  destruct c as [[f tz md v rs re]|[src p md v]].
  - intros [Hm Htz]. cbn [t_mode timezone] in *.
    change (CTime {| timeFunc := default hour (timeFunc_of (timeFunc_str f));
        timezone := or_default (Some tz) (js "Asia/Shanghai");
        t_mode := if valid_mode (js "time") (Some md) then md else MATCH_GTE;
        t_value := v; rangeStart := rs; rangeEnd := re |} = CTime (Build_TimeCondition f tz md v rs re)).
    rewrite Hm, timeFunc_of_str. by destruct tz.
  - intros Hm. cbn [ph_source ph_mode mode_ok] in *.
    assert (H : normalizeCondition (Some (partial (CPH (Build_ParamHeaderCondition src p md v))))
      = CPH {| ph_source := src; path := or_default (Some p) [];
               ph_mode := if valid_mode (source_str src) (Some md) then md else MATCH_EQ;
               ph_value := v |}) by by destruct src.
    rewrite H, Hm. by destruct p.
Qed.

(** Normalising a condition the editor holds gives a mode its source offers, and doing
    it again changes nothing. *)
Theorem normalize_idempotent cond :
  mode_ok (normalizeCondition cond)
  /\ normalizeCondition (Some (partial (normalizeCondition cond))) = normalizeCondition cond.
Proof. split; [apply normalize_mode_ok|]. apply normalize_partial, normalize_mode_ok. Qed.

(** ** Parentheses *)

(** The depth after a text read from depth [d]; nothing when it goes below zero. *)
Fixpoint bal (d : nat) (s : jsstr) : option nat :=
  match s with
  | [] => Some d
  | c :: t => if c =? 40 then bal (S d) t
              else if c =? 41 then match d with O => None | S k => bal k t end
              else bal d t
  end.

Definition balanced (s : jsstr) : Prop := bal 0 s = Some O.

Lemma bal_app d s t : bal d (s ++ t) = bal d s ≫= fun e => bal e t.
Proof.
  revert d; induction s as [|c s IH]; intros d; simpl; [done|].
  destruct (c =? 40); [apply IH|]. destruct (c =? 41); [|apply IH]. destruct d; [done|apply IH].
Qed.

Lemma bal_shift n d s e : bal d s = Some e -> bal (n + d) s = Some (n + e)%nat.
Proof.
  revert d; induction s as [|c s IH]; intros d; simpl; [congruence|].
  destruct (c =? 40); [rewrite plus_n_Sm; apply IH|]. destruct (c =? 41); [|apply IH].
  destruct d as [|d]; [done|]. rewrite <- plus_n_Sm. apply IH.
Qed.

Lemma bal_balanced d s : balanced s -> bal d s = Some d.
Proof. intros H. apply (bal_shift d) in H. by rewrite !Nat.add_0_r in H. Qed.

Lemma bal_plain d s : Forall (fun c => c <> 40 /\ c <> 41) s -> bal d s = Some d.
Proof.
  induction 1 as [|c t [H1 H2] _ IH]; simpl; [done|].
  by rewrite (proj2 (N.eqb_neq c 40)), (proj2 (N.eqb_neq c 41)).
Qed.

Lemma bal_safe d s : safe s -> bal d s = Some d.
Proof.
  intros H. apply bal_plain. eapply Forall_impl; [exact H|]. intros c Hc%safe_unit_spec. lia.
Qed.

Lemma bal_num d v : is_numeric v = true -> bal d v = Some d.
Proof.
  intros [_ H]%is_numeric_units. apply bal_safe. eapply Forall_impl; [exact H|].
  intros c Hc. by apply num_unit_safe.
Qed.

(** ** Trimmed texts and texts without [&] *)

Lemma trim_solid a x v :
  is_ws a = false -> v <> [] -> Forall (fun c => is_ws c = false) v ->
  trim (a :: x ++ v) = a :: x ++ v.
Proof.
  intros Ha Hne Hv. apply trim_id. split; intros c t E; [by simplify_eq/=|].
  destruct v as [|z v _] using rev_ind; [done|]. apply Forall_app in Hv as [_ Hz].
  rewrite app_comm_cons, app_assoc in E. apply app_inj_tail in E as [_ <-]. by inversion Hz.
Qed.

Lemma trim_num v : is_numeric v = true -> trim v = v.
Proof.
  intros [_ H]%is_numeric_units. apply trim_no_ws. eapply Forall_impl; [exact H|].
  intros c Hc. by apply num_unit_safe.
Qed.

Lemma safe_no_amp s : safe s -> 38 ∉ s.
Proof. intros H Hin. by eapply Forall_forall in H as Hc; [|exact Hin]. Qed.

Lemma num_safe v : is_numeric v = true -> safe v.
Proof.
  intros [_ H]%is_numeric_units. eapply Forall_impl; [exact H|].
  intros c Hc. by apply num_unit_safe.
Qed.

Lemma num_no_ws v : is_numeric v = true -> Forall (fun c => is_ws c = false) v.
Proof.
  intros [_ H]%is_numeric_units. eapply Forall_impl; [exact H|].
  intros c Hc. by apply num_unit_safe.
Qed.

(** No unit of the text is [k]. *)
Definition no_unit (k : N) (s : jsstr) : Prop := forallb (fun c => negb (c =? k)) s = true.

Lemma no_unit_elem k s : no_unit k s -> k ∉ s.
Proof.
  unfold no_unit. rewrite forallb_elem. intros H Hk. specialize (H k Hk).
  by rewrite N.eqb_refl in H.
Qed.

Lemma no_unit_safe k s : k = 38 \/ k = 124 -> safe s -> no_unit k s.
Proof.
  intros Hk H. apply forallb_elem. intros c Hc. eapply Forall_forall in H; [|exact Hc].
  apply safe_unit_spec in H. apply negb_true_iff, N.eqb_neq. lia.
Qed.

(** ** The conditions whose text reads back *)

Definition ph_supported (n : ParamHeaderCondition) : Prop :=
  name_ok (path n) /\ (safe (ph_value n) /\ trim (ph_value n) = ph_value n)
  /\ (ph_mode n = MATCH_EQ
      \/ (ph_mode n = MATCH_EXISTS /\ ph_value n = [])
      \/ (ph_mode n = MATCH_CONTAINS /\ source_str (ph_source n) = js "header")).

Definition time_supported (t : TimeCondition) : Prop :=
  (timezone t <> [] /\ safe (timezone t))
  /\ ((t_mode t = MATCH_RANGE /\ t_value t = []
       /\ is_numeric (rangeStart t) = true /\ is_numeric (rangeEnd t) = true)
      \/ (t_mode t ∈ [MATCH_EQ; MATCH_GTE; MATCH_LT] /\ is_numeric (t_value t) = true
          /\ rangeStart t = [] /\ rangeEnd t = [])).

Definition supported (c : RequestCondition) : Prop :=
  match c with CTime t => time_supported t | CPH n => ph_supported n end.

#[export] Instance supported_dec c : Decision (supported c).
Proof. destruct c; simpl; [unfold time_supported|unfold ph_supported]; apply _. Defined.

Lemma supported_mode_ok c : supported c -> mode_ok c.
Proof.
  destruct c as [t|n]; simpl.
  - intros [[Hne _] H]. split; [|done].
    destruct H as [(-> & _)|(H & _)]; [done|].
    rewrite !elem_of_cons in H. by destruct H as [-> |[-> |[-> |[]%elem_of_nil] ] ].
  - intros (_ & _ & [-> |[ [-> _] |[-> _] ] ]); by destruct (ph_source n).
Qed.

(** What the printed text of a condition is like. *)
Definition expr_ok (e : jsstr) : Prop :=
  e <> [] /\ trim e = e /\ balanced e /\ no_unit 38 e.

Definition reads (e : jsstr) (c : RequestCondition) : Prop :=
  expr_ok e /\ tryParseRequestCondition e = Return (Some c).

#[export] Instance expr_ok_dec e : Decision (expr_ok e).
Proof. unfold expr_ok, balanced, no_unit. apply _. Defined.

Ltac bal_calc :=
  unfold balanced; rewrite ?bal_app;
  repeat (cbn [mbind option_bind]; rewrite ?bal_app;
    first [rewrite bal_safe by done | rewrite bal_num by done |
      match goal with H : bal ?d ?s = Some _ |- context [bal ?d ?s] => rewrite H end |
      match goal with |- context [bal ?d ?s] =>
        match eval vm_compute in (bal d s) with Some ?r => change (bal d s) with (Some r) end end]);
  try reflexivity.

Ltac no_unit_calc :=
  unfold no_unit; rewrite ?forallb_app, ?andb_true_iff; repeat split;
  first [reflexivity | apply no_unit_safe; [by (left + right)|auto using num_safe] ].

Lemma expr_ok_intro s a z :
  head s = Some a -> last s = Some z -> is_ws a = false -> is_ws z = false ->
  balanced s -> no_unit 38 s -> expr_ok s.
Proof. intros Ha Hz Hwa Hwz Hb Hn. split; [by intros ->|]. split; [by eapply trim_ends|done]. Qed.

Lemma last_solid u v :
  v <> [] -> Forall (fun c => is_ws c = false) v ->
  exists z, last (u ++ v) = Some z /\ is_ws z = false.
Proof.
  intros Hne Hv. destruct v as [|z v _] using rev_ind; [done|].
  exists z. rewrite app_assoc, last_snoc. apply Forall_app in Hv as [_ Hz]. by inversion Hz.
Qed.

Ltac expr_calc :=
  eapply expr_ok_intro;
  [reflexivity|by rewrite !last_app|done|done|bal_calc|no_unit_calc].

Lemma header_exists_reads p :
  p <> [] -> safe p ->
  reads (js "header(" ++ dq ++ p ++ dq ++ js ") != " ++ dq ++ dq) (ph header p MATCH_EXISTS []).
Proof. intros Hne Hs. split; [expr_calc|by apply parse_header_exists]. Qed.

Lemma param_exists_reads p :
  p <> [] -> safe p ->
  reads (js "param(" ++ dq ++ p ++ dq ++ js ") != nil") (ph param p MATCH_EXISTS []).
Proof. intros Hne Hs. split; [expr_calc|by apply parse_param_exists]. Qed.

Lemma header_has_reads p v :
  p <> [] -> safe p -> safe v ->
  reads (js "has(header(" ++ dq ++ p ++ dq ++ js "), " ++ dq ++ v ++ dq ++ js ")")
        (ph header p MATCH_CONTAINS v).
Proof. intros Hne Hs Hv. split; [expr_calc|by apply parse_header_has]. Qed.

(** The literal of an equality: a number or a truth value as it is, any other text quoted. *)
Lemma literal_reads v :
  safe v -> trim v = v ->
  let lit := buildExprLiteral MATCH_EQ v in
  lit <> [] /\ Forall (fun c => in_class true newline_ranges c = true) lit
  /\ (exists w, parseExprLiteral lit = Some w /\ to_string w = v)
  /\ bal 0 lit = Some O /\ no_unit 38 lit /\ no_unit 124 lit
  /\ (forall u, exists z, last (u ++ lit) = Some z /\ is_ws z = false).
Proof.
  intros Hs Ht. simpl. unfold buildExprLiteral. rewrite Ht.
  rewrite bool_decide_eq_false_2 by done.
  destruct (bool_decide (v = js "true") || bool_decide (v = js "false")) eqn:Eb.
  - apply orb_true_iff in Eb as [Eb|Eb]; apply bool_decide_eq_true in Eb as ->;
      (split; [done|]; split; [by repeat constructor|]; split; [by eexists|]; split; [done|];
       split; [done|]; split; [done|]; intros u; apply last_solid; [done|by repeat constructor]).
  - destruct (is_numeric v) eqn:En.
    + pose proof (num_not_nil v En) as Hne. split; [done|].
      split; [by apply safe_dot|]. split; [exists (VStr v); split; [|done]|].
      { unfold parseExprLiteral. rewrite Ht, Eb. unfold is_numeric in En. by rewrite En. }
      split; [by apply bal_num|]. split; [no_unit_calc|]. split; [no_unit_calc|].
      intros u. apply last_solid; [done|by apply num_no_ws].
    + rewrite quote_safe by done. split; [done|]. split.
      { apply Forall_app; split; [by repeat constructor|]. apply Forall_app; split;
        [by apply safe_dot|by repeat constructor]. }
      split; [exists (VStr v); split; [|done]|].
      { unfold parseExprLiteral.
        rewrite (trim_ends (dq ++ v ++ dq) 34 34) by (try done; by rewrite !last_app).
        rewrite bool_decide_eq_false_2, bool_decide_eq_false_2 by done. cbn [orb].
        replace (test NUMERIC_LITERAL_REGEX _) with false
          by (unfold NUMERIC_LITERAL_REGEX; by rewrite test_anchored).
        rewrite <- quote_safe by done. change (quote v) with (ser (VStr v)).
        by rewrite json_parse_ser. }
      split; [bal_calc|]. split; [no_unit_calc|]. split; [no_unit_calc|].
      intros u. exists 34. split; [by rewrite !last_app|done].
Qed.

Lemma eq_reads src p v :
  p <> [] -> safe p -> safe v -> trim v = v ->
  reads (source_str src ++ js "(" ++ dq ++ p ++ dq ++ js ") == " ++ buildExprLiteral MATCH_EQ v)
        (ph src p MATCH_EQ v).
Proof.
  intros Hne Hs Hv Ht.
  pose proof (literal_reads v Hv Ht) as HL. cbv zeta in HL.
  remember (buildExprLiteral MATCH_EQ v) as lit eqn:El. clear El.
  destruct HL as (Hl & Hd & (w & Hw & Hwv) & Hb & Hn & _ & Hlast).
  split.
  - destruct (Hlast (source_str src ++ js "(" ++ dq ++ p ++ dq ++ js ") == ")) as (z & Hz & Hws).
    apply (expr_ok_intro _ (if src then 112 else 104) z); [by destruct src| |by destruct src|done| |].
    + rewrite <- Hz, <- !app_assoc. done.
    + apply (bal_balanced 0) in Hb. destruct src; bal_calc.
    + unfold no_unit in *. rewrite !forallb_app, Hn, (no_unit_safe 38 p) by auto. by destruct src.
  - pose proof (parse_eq p Hne Hs src _ Hl Hd) as E. rewrite Hw, Hwv in E. exact E.
Qed.

Lemma time_reads e c :
  expr_ok e -> tryParseTimeCondition e = Some c -> reads e c.
Proof. intros He Ht. split; [done|]. unfold tryParseRequestCondition. by rewrite Ht. Qed.

Definition first_unit (f : TimeFunc) : N :=
  match f with hour => 104 | minute => 109 | weekday => 119 | month => 109 | day => 100 end.

Lemma cmp_reads f tz op v :
  tz <> [] -> safe tz -> op ∈ [js "=="; js ">="; js "<"] -> is_numeric v = true ->
  reads (cmp_text f tz op v) (cmp_cond f tz op v) /\ no_unit 124 (cmp_text f tz op v).
Proof.
  intros Hne Hs Hop Hv. pose proof (num_safe v Hv) as Hvs.
  assert (Hb : bal 0 op = Some O /\ no_unit 38 op /\ no_unit 124 op).
  { rewrite !elem_of_cons in Hop. by destruct Hop as [-> |[-> |[-> |[]%elem_of_nil] ] ]. }
  destruct Hb as (Hb & Hn & Hn'). split; [apply time_reads; [|by apply parse_cmp]|].
  - destruct (last_solid (call f tz ++ js ") " ++ op ++ js " ") v) as (z & Hz & Hw);
      [by apply num_not_nil|by apply num_no_ws|].
    unfold cmp_text, call in *.
    apply (expr_ok_intro _ (first_unit f) z); [by destruct f| |by destruct f|done| |].
    + by rewrite <- Hz, <- !app_assoc.
    + destruct f; bal_calc.
    + unfold no_unit in *.
      rewrite !forallb_app, Hn, (no_unit_safe 38 tz), (no_unit_safe 38 v) by auto. by destruct f.
  - unfold cmp_text, call, no_unit in *.
    rewrite !forallb_app, Hn', (no_unit_safe 124 tz), (no_unit_safe 124 v) by auto. by destruct f.
Qed.

Lemma range_text_ok f tz v w :
  safe tz -> is_numeric v = true -> is_numeric w = true ->
  balanced (range_text f tz v w) /\ no_unit 38 (range_text f tz v w).
Proof.
  intros Hs Hv Hw. pose proof (num_safe v Hv). pose proof (num_safe w Hw).
  unfold range_text, call. split.
  - destruct f; bal_calc.
  - unfold no_unit. rewrite !forallb_app, (no_unit_safe 38 tz), (no_unit_safe 38 v),
      (no_unit_safe 38 w) by auto. by destruct f.
Qed.

Lemma range_reads f tz v w :
  tz <> [] -> safe tz -> is_numeric v = true -> is_numeric w = true ->
  reads (range_text f tz v w) (range_cond f tz v w)
  /\ reads (js "(" ++ range_text f tz v w ++ js ")") (range_cond f tz v w).
Proof.
  intros Hne Hs Hv Hw. destruct (range_text_ok f tz v w Hs Hv Hw) as [Hb Hn]. split.
  - apply time_reads; [|by apply parse_range].
    destruct (last_solid (call f tz ++ js ") >= " ++ v ++ js " || " ++ call f tz ++ js ") < ") w)
      as (z & Hz & Hwz); [by apply num_not_nil|by apply num_no_ws|].
    apply (expr_ok_intro _ (first_unit f) z); [by destruct f| |by destruct f|done|done|done].
    unfold range_text. by rewrite <- Hz, <- !app_assoc.
  - apply time_reads; [|by apply parse_range_paren].
    apply (expr_ok_intro _ 40 41); [done|by rewrite !last_app|done|done| |].
    + unfold balanced. rewrite !bal_app. change (bal 0 (js "(")) with (Some 1%nat).
      cbn [mbind option_bind]. by rewrite bal_app, (bal_balanced 1 _ Hb).
    + unfold no_unit in *. by rewrite !forallb_app, Hn.
Qed.

Lemma wrap_or_no_bar e : no_unit 124 e -> wrap_or e = e.
Proof.
  intros H%no_unit_elem. unfold wrap_or. destruct (includes (js " || ") e) eqn:E; [|done].
  exfalso. apply includes_spec in E as (u & v & ->). apply H.
  rewrite !elem_of_app. right; left. change (js " || ") with [32; 124; 124; 32]. set_solver.
Qed.

Lemma wrap_or_range f tz v w :
  wrap_or (range_text f tz v w) = js "(" ++ range_text f tz v w ++ js ")".
Proof.
  unfold wrap_or. rewrite (proj2 (includes_spec _ _)); [done|].
  exists (call f tz ++ js ") >= " ++ v), (call f tz ++ js ") < " ++ w).
  unfold range_text. by rewrite <- !app_assoc.
Qed.

Lemma time_expr_reads t :
  time_supported t -> reads (time_expr t) (CTime t) /\ reads (wrap_or (time_expr t)) (CTime t).
Proof.
  destruct t as [f tz md v rs re]. unfold time_supported, time_expr.
  cbn [timeFunc timezone t_mode t_value rangeStart rangeEnd]. intros [[Hne Hs] H].
  rewrite quote_safe by done. destruct H as [(-> & -> & H1 & H2)|(Hm & Hv & -> & ->)].
  - rewrite bool_decide_eq_true_2, !trim_num, H1, H2 by done. cbn [negb orb].
    match goal with |- reads ?e _ /\ _ => replace e with (range_text f tz rs re)
      by (unfold range_text, call; by rewrite <- !app_assoc) end.
    rewrite wrap_or_range. by apply range_reads.
  - rewrite bool_decide_eq_false_2.
    2:{ rewrite !elem_of_cons in Hm. by destruct Hm as [-> |[-> |[-> |[]%elem_of_nil] ] ]. }
    rewrite trim_num, Hv by done. cbn [negb].
    match goal with |- reads ?e _ /\ _ => replace e with (cmp_text f tz (time_op_str md) v)
      by (unfold cmp_text, call; by rewrite <- !app_assoc) end.
    assert (Hop : time_op_str md ∈ [js "=="; js ">="; js "<"] /\ time_op (time_op_str md) = md).
    { rewrite !elem_of_cons in Hm. destruct Hm as [-> |[-> |[-> |[]%elem_of_nil] ] ];
        (split; [|reflexivity]); by apply (bool_decide_unpack (_ ∈ _)). }
    destruct Hop as [Hop Hmd].
    destruct (cmp_reads f tz (time_op_str md) v Hne Hs Hop Hv) as [Hr Hn].
    rewrite wrap_or_no_bar by done. unfold cmp_cond in Hr. by rewrite Hmd in Hr.
Qed.

Lemma ph_expr_reads n :
  ph_supported n -> reads (ph_expr n) (CPH n) /\ no_unit 124 (ph_expr n).
Proof.
  destruct n as [src p md v]. unfold ph_supported, ph_expr.
  cbn [ph_source path ph_mode ph_value]. intros ((Hne & Hs & Htp) & (Hv & Htv) & Hm).
  rewrite Htp, Htv, quote_safe by done.
  replace (negb (truthy_str p)) with false by by destruct p. cbn match.
  destruct Hm as [-> |[ [-> ->] |[-> Hsrc] ] ].
  - rewrite bool_decide_eq_false_2, bool_decide_eq_false_2 by done.
    change (cmp_op_str MATCH_EQ) with (@None jsstr). cbn match. pose proof (eq_reads src p v Hne Hs Hv Htv) as Hr.
    destruct (literal_reads v Hv Htv) as (_ & _ & _ & _ & _ & Hn & _).
    remember (buildExprLiteral MATCH_EQ v) as lit eqn:El. clear El.
    rewrite <- !app_assoc. split; [exact Hr|].
    unfold no_unit in *. rewrite !forallb_app, Hn, (no_unit_safe 124 p) by auto. by destruct src.
  - rewrite bool_decide_eq_true_2 by done. rewrite <- !app_assoc. destruct src; cbn match.
    + split; [by apply param_exists_reads|no_unit_calc].
    + split; [by apply header_exists_reads|no_unit_calc].
  - destruct src; [done|]. rewrite bool_decide_eq_false_2, bool_decide_eq_true_2 by done.
    unfold buildExprLiteral. rewrite bool_decide_eq_true_2, Htv, quote_safe by done. cbn match.
    rewrite <- !app_assoc. split; [by apply header_has_reads|no_unit_calc].
Qed.

(** The text of a supported condition, alone or among others, reads back as the condition. *)
Lemma supported_reads c :
  supported c ->
  reads (buildRequestConditionExpr c) c /\ reads (wrap_or (buildRequestConditionExpr c)) c.
Proof.
  intros Hc. unfold buildRequestConditionExpr, buildTimeConditionExpr.
  destruct c as [t|n]; rewrite normalize_partial by by apply supported_mode_ok.
  - by apply time_expr_reads.
  - destruct (ph_expr_reads n Hc) as [Hr Hn]. by rewrite wrap_or_no_bar.
Qed.

(** ** Splitting what was joined *)

(** A separator: a space, a unit [k] that no part has at depth zero, a space. *)
Section SplitTop.
Variables (k : N) (tl : jsstr).
Let sep : jsstr := 32 :: k :: tl.

Lemma split_top_skip n d acc u t :
  length u = n -> split_top sep n d acc (u ++ t) = split_top sep 0 d acc t.
Proof. revert u; induction n as [|n IH]; intros [|c u] Hu; simpl in *; auto with lia. Qed.

(** Inside parentheses nothing is split. *)
Lemma split_top_deep d e s acc t :
  bal d s = Some e ->
  split_top sep 0 (Z.of_nat (S d)) acc (s ++ t)
  = split_top sep 0 (Z.of_nat (S e)) (reverse s ++ acc) t.
Proof.
  revert d acc; induction s as [|c s IH]; intros d acc Hb; [by injection Hb as ->|].
  cbn [bal] in Hb. cbn [split_top app]. rewrite reverse_cons, <- app_assoc. cbn [app].
  destruct (N.eqb_spec c 40) as [->|Hc].
  - change (40 =? 41) with false. cbn match.
    rewrite (proj2 (Z.eqb_neq _ _)) by lia. cbn [andb].
    rewrite <- (IH (S d)) by done. f_equal. lia.
  - destruct (N.eqb_spec c 41) as [->|Hc']; [destruct d as [|d]; [done|]|];
      rewrite (proj2 (Z.eqb_neq _ _)) by lia; cbn [andb].
    + rewrite <- (IH d) by done. f_equal. lia.
    + by rewrite <- (IH d).
Qed.

(** A text in parentheses is passed over as a whole. *)
Lemma split_top_paren s acc t :
  balanced s ->
  split_top sep 0 0 acc (js "(" ++ s ++ js ")" ++ t)
  = split_top sep 0 0 (reverse (js "(" ++ s ++ js ")") ++ acc) t.
Proof.
  intros Hs. change (js "(") with [40]. change (js ")") with [41].
  change ([40] ++ s ++ [41] ++ t) with (40 :: (s ++ 41 :: t)).
  cbn [split_top]. change (40 =? 40) with true. change (40 =? 41) with false. cbn match.
  change ((0 + 1 =? 0)%Z) with false. cbn [andb].
  change (0 + 1)%Z with (Z.of_nat 1). rewrite (split_top_deep 0 0) by done.
  cbn [split_top]. change (41 =? 40) with false. change (41 =? 41) with true. cbn match.
  change (Z.of_nat 1 - 1 =? 0)%Z with true. change (starts_with sep (41 :: t)) with false.
  cbn [andb]. change (Z.of_nat 1 - 1)%Z with 0%Z.
  rewrite !reverse_app, <- !app_assoc. done.
Qed.

(** A text without the unit [k], as long as it does not end with the first unit of the
    separator. *)
Lemma split_top_flat d e s z acc t :
  no_unit k s -> bal d s = Some e -> (s <> [] -> last s = Some z) -> z <> 32 ->
  split_top sep 0 (Z.of_nat d) acc (s ++ t)
  = split_top sep 0 (Z.of_nat e) (reverse s ++ acc) t.
Proof.
  intros Hk Hb Hz Hz32. revert d acc Hk Hb Hz.
  induction s as [|c s IH]; intros d acc Hk Hb Hz; [by injection Hb as ->|].
  unfold no_unit in Hk. simpl in Hk. apply andb_true_iff in Hk as [Hck Hk].
  assert (Hst : starts_with sep (c :: s ++ t) = false).
  { change (starts_with sep (c :: s ++ t)) with ((32 =? c) && starts_with (k :: tl) (s ++ t)).
    destruct (N.eqb_spec 32 c) as [<-|Hc]; [|done].
    destruct s as [|c2 s]; [specialize (Hz ltac:(done)); simpl in Hz; congruence|].
    simpl in Hk. apply andb_true_iff in Hk as [Hc2 _]. apply negb_true_iff in Hc2.
    change (starts_with (k :: tl) ((c2 :: s) ++ t)) with ((k =? c2) && starts_with tl (s ++ t)).
    by rewrite N.eqb_sym, Hc2. }
  assert (Hz' : s <> [] -> last s = Some z).
  { intros Hne. rewrite <- Hz by done. by destruct s. }
  cbn [bal] in Hb. cbn [split_top app]. rewrite Hst, andb_false_r, reverse_cons, <- app_assoc.
  cbn [app]. destruct (N.eqb_spec c 40) as [->|Hc].
  - change (40 =? 41) with false. cbn match. rewrite <- (IH (S d)) by done. f_equal. lia.
  - destruct (N.eqb_spec c 41) as [->|Hc']; [destruct d as [|d]; [done|]|].
    + rewrite <- (IH d) by done. f_equal. lia.
    + by rewrite <- (IH d).
Qed.

Lemma split_top_sep acc t :
  split_top sep 0 0 acc (sep ++ t) = trim (reverse acc) :: split_top sep 0 0 [] t.
Proof.
  change (split_top sep 0 0 acc (sep ++ t)) with
    (if starts_with sep (sep ++ t) then trim (reverse acc) :: split_top sep (length (k :: tl)) 0 [] ((k :: tl) ++ t)
     else split_top sep 0 0 (32 :: acc) ((k :: tl) ++ t)).
  by rewrite starts_with_app, split_top_skip.
Qed.

(** A part: read from depth zero it is passed over, whatever follows. *)
Definition passes (s : jsstr) : Prop :=
  forall acc t, split_top sep 0 0 acc (s ++ t) = split_top sep 0 0 (reverse s ++ acc) t.

Lemma split_top_join parts :
  parts <> [] -> Forall passes parts ->
  split_top sep 0 0 [] (join sep parts) = trim <$> parts.
Proof.
  induction parts as [|s parts IH]; intros Hne Hp; [done|]. apply Forall_cons in Hp as [Hs Hp].
  destruct parts as [|s' parts].
  - cbn [join fmap list_fmap]. rewrite <- (app_nil_r s) at 1. rewrite Hs. cbn [split_top].
    by rewrite app_nil_r, reverse_involutive.
  - change (join sep (s :: s' :: parts)) with (s ++ sep ++ join sep (s' :: parts)).
    rewrite Hs, split_top_sep, app_nil_r, reverse_involutive, IH by done. done.
Qed.

Lemma passes_paren s : balanced s -> passes (js "(" ++ s ++ js ")").
Proof. intros Hs acc t. rewrite <- !app_assoc. by apply split_top_paren. Qed.

Lemma passes_flat s :
  no_unit k s -> balanced s -> trim s = s -> s <> [] -> passes s.
Proof.
  intros Hk Hb Ht Hne acc t. destruct s as [|z s _] using rev_ind; [done|].
  assert (Hz : z <> 32).
  { intros ->. destruct (trim_trimmed (s ++ [32])) as [_ H]. rewrite Ht in H.
    by specialize (H 32 s eq_refl). }
  apply (split_top_flat 0 0 _ z); [done|done| |done]. intros _. apply last_snoc.
Qed.
End SplitTop.

(** A factor: a text in parentheses. *)
Definition factor (f : jsstr) : Prop := exists s, balanced s /\ f = js "(" ++ s ++ js ")".

Lemma factor_trim f : factor f -> trim f = f /\ f <> [].
Proof.
  intros (s & _ & ->). split; [|done].
  apply (trim_ends _ 40 41); [done|by rewrite !last_app|done|done].
Qed.

Lemma split_and es : Forall expr_ok es -> splitTopLevelAnd (join (js " && ") es) = es.
Proof.
  intros He. unfold splitTopLevelAnd. destruct es as [|e es]; [done|].
  change (js " && ") with (32 :: 38 :: [38; 32]).
  rewrite split_top_join, fmap_trim_id, filter_truthy_id; [done| | |done|];
    eapply Forall_impl; try exact He; intros s (? & ? & ? & ?); try done. by apply passes_flat.
Qed.

Lemma split_multiply fs :
  Forall factor fs -> splitTopLevelMultiply (join (js " * ") fs) = fs.
Proof.
  intros Hf. unfold splitTopLevelMultiply. destruct fs as [|f fs]; [done|].
  change (js " * ") with (32 :: 42 :: [32]).
  rewrite split_top_join, fmap_trim_id, filter_truthy_id; [done| | |done|];
    eapply Forall_impl; try exact Hf; intros s Hs; try (by apply factor_trim).
  destruct Hs as (u & Hu & ->). by apply passes_paren.
Qed.

(** Splitting at top level undoes joining: conjuncts without [&] and with balanced
    parentheses joined by [&&], and parenthesised factors joined by [*], come back as they
    were, whatever separators stand inside the parentheses. *)
Theorem split_top_level_join es fs :
  Forall expr_ok es -> Forall factor fs ->
  splitTopLevelAnd (join (js " && ") es) = es /\ splitTopLevelMultiply (join (js " * ") fs) = fs.
Proof. split; [by apply split_and|by apply split_multiply]. Qed.

Lemma split_top_level_join_witness :
  splitTopLevelAnd (join (js " && ") [js "a == 1"; js "(b * c)"]) = [js "a == 1"; js "(b * c)"]
  /\ splitTopLevelMultiply (join (js " * ") [js "(a * b)"; js "(c)"]) = [js "(a * b)"; js "(c)"].
Proof.
  apply (split_top_level_join [js "a == 1"; js "(b * c)"] [js "(a * b)"; js "(c)"]).
  - by apply (bool_decide_unpack (Forall expr_ok _)).
  - repeat constructor; [exists (js "a * b")|exists (js "c")]; by split.
Defined.

(** ** Reading one group *)

(** [u " ? " v " : 1)"] determines its parts when [v] is a number. *)
Lemma factor_parts u v c mult :
  Forall (fun x => in_class false num_class x = true) v ->
  Forall (fun x => in_class false num_class x = true) mult ->
  u ++ js " ? " ++ v ++ js " : 1)" = c ++ js " ? " ++ mult ++ js " : 1)" -> u = c /\ v = mult.
Proof.
  intros Hv Hm E. change (js " ? ") with [32; 63; 32] in E.
  assert (Hn : forall w, Forall (fun x => in_class false num_class x = true) w -> 32 ∉ w).
  { intros w Hw Hin. by eapply Forall_forall in Hw; [|exact Hin]. }
  rewrite !app_assoc in E. apply app_inv_tail in E. rewrite <- !app_assoc in E. cbn [app] in E.
  change (32 :: 63 :: 32 :: v) with ([32; 63] ++ 32 :: v) in E.
  change (32 :: 63 :: 32 :: mult) with ([32; 63] ++ 32 :: mult) in E.
  rewrite !app_assoc in E. apply cut_last_unique in E as [E ->]; [|by apply Hn..].
  by apply app_inv_tail in E.
Qed.

Lemma exec_factor c mult :
  c <> [] -> is_numeric mult = true ->
  exec re_factor (js "(" ++ c ++ js " ? " ++ mult ++ js " : 1)")
  = Some [(2%nat, mult); (1%nat, c)].
Proof.
  intros Hc Hm. apply is_numeric_units in Hm as [Hne Hm].
  change re_factor with (RSeq RBol (RSeq (RLit (js "("))
    (RSeq (RGroup 1 (plus true [])) (RSeq (RLit (js " ? "))
      (RSeq (RGroup 2 (plus false num_class)) (RSeq (RLit (js " : 1)")) REol)))))).
  rewrite exec_anchored. set (s := js "(" ++ _).
  set (fin := St (reverse (js " : 1)") ++ reverse mult ++ reverse (js " ? ") ++ reverse c
                  ++ reverse (js "(")) [] [(2%nat, mult); (1%nat, c)]).
  rewrite (match_at_unique _ _ fin); [reflexivity| |].
  - exists (after (js "(") (c ++ js " ? " ++ mult ++ js " : 1)") (St [] s [])).
    split; [apply den_lit; by eexists|].
    eexists. split.
    { apply den_group_plain; [done|]. exists c. eexists. split; [reflexivity|].
      split; [|reflexivity]. apply lang_plus_class. split; [done|]. by apply Forall_true. }
    eexists. split; [apply den_lit; eexists; split; reflexivity|].
    eexists. split.
    { apply den_group_plain; [done|]. exists mult. eexists. split; [reflexivity|].
      split; [|reflexivity]. by apply lang_plus_class. }
    eexists. split; [apply den_lit; exists []; split; reflexivity|]. by split.
  - intros x (s1 & (t1 & E1 & ->)%den_lit & s2 & H2 & s3 & (t3 & E3 & ->)%den_lit
      & s4 & H4 & s5 & (t5 & E5 & ->)%den_lit & [E6 ->]).
    apply den_group_plain in H2 as (w1 & t2 & E2 & _ & ->); [|done].
    apply den_group_plain in H4 as (w2 & t4 & E4 & [_ Hw2]%lang_plus_class & ->); [|done].
    cbn [rest after] in *. subst t5 t4 t3 t2 t1. unfold s in E1. apply app_inv_head in E1.
    rewrite app_nil_r in E1. apply factor_parts in E1 as [-> ->]; done.
Qed.

Lemma collect_ok {A B} (f : A -> outcome (option B)) l ys :
  Forall2 (fun x y => f x = Return (Some y)) l ys -> collect f l = Return (Some ys).
Proof. induction 1 as [|x y l ys Hx _ IH]; simpl; [done|]. by rewrite Hx; simpl; rewrite IH. Qed.

Lemma balanced_app s t : balanced s -> balanced t -> balanced (s ++ t).
Proof. unfold balanced. intros Hs Ht. by rewrite bal_app, Hs. Qed.

Lemma balanced_join sep l : balanced sep -> Forall balanced l -> balanced (join sep l).
Proof.
  intros Hsep H. induction H as [|s l Hs Hl IH]; [done|]. destruct l as [|s' l]; [done|].
  change (join sep (s :: s' :: l)) with (s ++ sep ++ join sep (s' :: l)).
  by repeat apply balanced_app.
Qed.

Lemma join_ends sep l a z :
  l <> [] -> Forall (fun s => head s = Some a /\ last s = Some z) l ->
  head (join sep l) = Some a /\ last (join sep l) = Some z.
Proof.
  intros Hne H. induction H as [|s l [Ha Hz] Hl IH]; [done|]. destruct l as [|s' l]; [done|].
  change (join sep (s :: s' :: l)) with (s ++ sep ++ join sep (s' :: l)).
  destruct IH as [_ IH]; [done|]. split; [by destruct s|]. by rewrite !last_app, IH.
Qed.

(** The groups the editor can store: some condition, all of them supported, and a number
    as multiplier. *)
Definition group_ok (g : RequestRuleGroup) : Prop :=
  conditions g <> [] /\ Forall supported (conditions g) /\ is_numeric (multiplier g) = true.

#[export] Instance group_ok_dec g : Decision (group_ok g).
Proof.
  unfold group_ok. apply and_dec; [|apply _].
  destruct (conditions g); [right; intros H; by apply H|by left].
Defined.

(** The text between the parentheses, before the multiplier. *)
Definition combined_ok (g : RequestRuleGroup) (c : jsstr) : Prop :=
  c <> [] /\ balanced c
  /\ collect (fun ap => tryParseRequestCondition (trim ap)) (splitTopLevelAnd c)
     = Return (Some (conditions g)).

Lemma reads_collect es cs :
  Forall2 reads es cs ->
  collect (fun ap => tryParseRequestCondition (trim ap)) es = Return (Some cs).
Proof.
  intros H. apply collect_ok. eapply Forall2_impl; [exact H|].
  by intros e c [(_ & -> & _) Hr].
Qed.

Lemma combined_ok_intro g es :
  Forall2 reads es (conditions g) -> es <> [] -> combined_ok g (join (js " && ") es).
Proof.
  intros H Hne. assert (He : Forall expr_ok es).
  { clear Hne. induction H as [|e c es cs [He _] _ IH]; by constructor. }
  split; [|split].
  - apply join_not_nil; [|done]. eapply Forall_impl; [exact He|]. by intros e (? & _).
  - apply balanced_join; [done|]. eapply Forall_impl; [exact He|]. by intros e (_ & _ & ? & _).
  - rewrite split_and by done. by apply reads_collect.
Qed.

Lemma build_group_text g :
  group_ok g ->
  exists c, combined_ok g c
    /\ buildRuleGroupFactor g = js "(" ++ c ++ js " ? " ++ multiplier g ++ js " : 1)".
Proof.
  intros (Hne & Hs & Hm). unfold buildRuleGroupFactor. rewrite trim_num, Hm by done.
  cbn [negb]. set (es := buildRequestConditionExpr <$> conditions g).
  assert (Hr : Forall2 reads es (conditions g) /\ Forall2 reads (wrap_or <$> es) (conditions g)).
  { unfold es. clear Hne. induction Hs as [|c cs Hc _ [IH1 IH2]]; cbn; [by split|].
    destruct (supported_reads c Hc). split; constructor; done. }
  destruct Hr as [Hr Hw].
  assert (Hes : es <> []) by (unfold es; by destruct (conditions g)).
  rewrite filter_truthy_id.
  2:{ clear -Hr. induction Hr as [|e c es cs [(? & _) _] _ IH]; by constructor. }
  destruct es as [|e [|e' es]]; [done| |].
  - exists e. split; [|done]. by apply (combined_ok_intro g [e]).
  - eexists. split; [|done]. by apply combined_ok_intro.
Qed.

(** ** The round trip of rule groups *)

Lemma group_factor g : group_ok g -> factor (buildRuleGroupFactor g).
Proof.
  intros Hg. destruct (build_group_text g Hg) as (c & (_ & Hb & _) & ->).
  destruct Hg as (_ & _ & Hm).
  exists (c ++ js " ? " ++ multiplier g ++ js " : 1"). split; [|by rewrite <- !app_assoc].
  apply balanced_app; [done|]. bal_calc.
Qed.

Lemma group_reads g :
  group_ok g -> tryParseRuleGroupFactor (buildRuleGroupFactor g) = Return (Some g).
Proof.
  intros Hg. destruct (build_group_text g Hg) as (c & (Hc & _ & Hp) & ->).
  destruct Hg as (Hne & _ & Hm). unfold tryParseRuleGroupFactor. rewrite exec_factor by done.
  change (grp 1 _) with c. rewrite Hp. cbn [obind]. change (grp 2 _) with (multiplier g).
  destruct g as [[|x cs] mult]; [done|done].
Qed.

Lemma build_rules_join gs :
  Forall group_ok gs ->
  buildRequestRuleExpr gs = join (js " * ") (buildRuleGroupFactor <$> gs)
  /\ Forall factor (buildRuleGroupFactor <$> gs)
  /\ trim (buildRequestRuleExpr gs) = buildRequestRuleExpr gs
  /\ (gs <> [] -> buildRequestRuleExpr gs <> []).
Proof.
  intros H. assert (Hf : Forall factor (buildRuleGroupFactor <$> gs)).
  { apply Forall_fmap. eapply Forall_impl; [exact H|]. apply group_factor. }
  assert (Hne : Forall (fun s => s <> []) (buildRuleGroupFactor <$> gs)).
  { eapply Forall_impl; [exact Hf|]. intros f Hx. by apply factor_trim. }
  unfold buildRequestRuleExpr. rewrite filter_truthy_id by done. split; [done|]. split; [done|].
  split.
  - destruct gs as [|g gs]; [done|].
    destruct (join_ends (js " * ") (buildRuleGroupFactor <$> g :: gs) 40 41) as [Ha Hz]; [done| |].
    + eapply Forall_impl; [exact Hf|]. intros f (s & _ & ->). split; [done|]. by rewrite !last_app.
    + by apply (trim_ends _ 40 41).
  - intros Hg. apply join_not_nil; [done|]. by destruct gs.
Qed.

Lemma rules_read gs :
  Forall group_ok gs -> tryParseRequestRuleExpr (buildRequestRuleExpr gs) = Return (Some gs).
Proof.
  intros H. destruct (build_rules_join gs H) as (E & Hf & Ht & Hne).
  unfold tryParseRequestRuleExpr.
  replace (or_str (buildRequestRuleExpr gs) []) with (buildRequestRuleExpr gs)
    by by destruct (buildRequestRuleExpr gs).
  rewrite Ht. destruct gs as [|g gs]; [done|].
  destruct (buildRequestRuleExpr (g :: gs)) eqn:Eb; [by destruct Hne|]. cbn [truthy_str negb].
  rewrite E, split_multiply by done. apply collect_ok. clear -H.
  induction H as [|x l Hx _ IH]; constructor; [by apply group_reads|done].
Qed.

(** C1. Rules survive storage: the text printed for groups whose conditions are supported
    reads back as exactly those groups. *)
Theorem rules_roundtrip gs :
  Forall group_ok gs -> tryParseRequestRuleExpr (buildRequestRuleExpr gs) = Return (Some gs).
Proof. apply rules_read. Qed.

Definition sample_groups : list RequestRuleGroup :=
  [ {| conditions :=
         [ ph header (js "X-Tier") MATCH_EQ (js "gold");
           ph param (js "model.kind") MATCH_EXISTS [];
           ph header (js "a") MATCH_CONTAINS (js "x y");
           CTime {| timeFunc := hour; timezone := js "UTC"; t_mode := MATCH_RANGE; t_value := [];
                    rangeStart := js "22"; rangeEnd := js "6" |} ];
       multiplier := js "1.5" |};
    {| conditions :=
         [ CTime {| timeFunc := weekday; timezone := js "Asia/Tokyo"; t_mode := MATCH_GTE;
                    t_value := js "5"; rangeStart := []; rangeEnd := [] |} ];
       multiplier := js "0.5" |} ].

Lemma rules_roundtrip_witness :
  tryParseRequestRuleExpr (buildRequestRuleExpr sample_groups) = Return (Some sample_groups).
Proof. apply rules_roundtrip. by apply (bool_decide_unpack (Forall group_ok sample_groups)). Defined.

(** ** What does not read back *)

(** A comparison of a parameter is printed with a null check, [param(p) != nil && ...];
    the reader splits the conjunction before it looks for that shape, so the second half
    is read alone and refused. *)
Section Comparison.
Variables (p op num : jsstr).
Hypothesis Hne : p <> [].
Hypothesis Hsafe : safe p.
Hypothesis Hop : op ∈ [js ">"; js ">="; js "<"; js "<="].
Hypothesis Hnum : is_numeric num = true.

Let text : jsstr := js "param(" ++ dq ++ p ++ dq ++ js ") " ++ op ++ js " " ++ num.

Lemma comparison_no_eq : exec re_eq text = None.
Proof.
  unfold re_eq. rewrite exec_anchored. unfold match_at, text.
  set (T := js ") " ++ op ++ js " " ++ num).
  rewrite m_group_alt, (m_group_word 1 _ _ (js "(" ++ dq ++ p ++ dq ++ T)) by done.
  rewrite m_group_word_None, or_else_None_r by done.
  rewrite (m_lit_app _ _ (p ++ dq ++ T)) by done.
  change (RSeq (RClass true [(34, 34)]) (RStar true (RClass true [(34, 34)])))
    with (plus true [(34, 34)]).
  rewrite (m_group_lit 2 true [(34, 34)] 34 _ _ p (dq ++ T)) by (try done; auto with js).
  unfold T. rewrite !elem_of_cons in Hop.
  by destruct Hop as [-> |[-> |[-> |[-> |[]%elem_of_nil] ] ] ].
Qed.

Lemma comparison_not_read : tryParseRequestCondition text = Return None.
Proof.
  unfold tryParseRequestCondition, tryParseTimeCondition, exec_same, tryParseEq.
  rewrite comparison_no_eq. unfold text.
  no_match re_time_range. no_match re_time_range_paren. no_match re_time.
  no_match re_header_exists. no_match re_header_has.
  unfold re_param_exists, re_param_has, re_param_cmp.
  change (js "param(" ++ dq ++ p ++ dq ++ ?T) with ((js "param(" ++ dq) ++ p ++ 34 :: T).
  rewrite !(exec_arg p Hne Hsafe 1 (js "param(" ++ dq)).
  rewrite !elem_of_cons in Hop.
  by destruct Hop as [-> |[-> |[-> |[-> |[]%elem_of_nil] ] ] ].
Qed.

Lemma comparison_expr_ok : expr_ok text.
Proof.
  destruct (last_solid (js "param(" ++ dq ++ p ++ dq ++ js ") " ++ op ++ js " ") num) as (z & Hz & Hw);
    [by apply num_not_nil|by apply num_no_ws|].
  assert (Hb : bal 0 op = Some O /\ no_unit 38 op).
  { rewrite !elem_of_cons in Hop. by destruct Hop as [-> |[-> |[-> |[-> |[]%elem_of_nil] ] ] ]. }
  destruct Hb as [Hb Hn]. apply (expr_ok_intro _ 112 z); [done| |done|done| |]; unfold text.
  - by rewrite <- Hz, <- !app_assoc.
  - bal_calc.
  - pose proof (num_safe num Hnum). unfold no_unit in *.
    by rewrite !forallb_app, Hn, (no_unit_safe 38 p), (no_unit_safe 38 num) by auto.
Qed.
End Comparison.

Lemma cmp_op_str_range md op : cmp_op_str md = Some op -> op ∈ [js ">"; js ">="; js "<"; js "<="].
Proof.
  unfold cmp_op_str. repeat case_match; intros [= <-]; by apply (bool_decide_unpack (_ ∈ _)).
Qed.

(** A rule text of one factor with an unreadable conjunct is refused. *)
Lemma single_factor_fails es mult :
  Forall expr_ok es -> es <> [] -> is_numeric mult = true ->
  collect (fun ap => tryParseRequestCondition (trim ap)) es = Return None ->
  tryParseRequestRuleExpr (js "(" ++ join (js " && ") es ++ js " ? " ++ mult ++ js " : 1)")
  = Return None.
Proof.
  intros He Hne Hm Hc. set (c := join (js " && ") es).
  assert (Hb : balanced c).
  { apply balanced_join; [done|]. eapply Forall_impl; [exact He|]. by intros e (_ & _ & ? & _). }
  assert (Hcne : c <> []).
  { apply join_not_nil; [|done]. eapply Forall_impl; [exact He|]. by intros e (? & _). }
  set (f := js "(" ++ c ++ js " ? " ++ mult ++ js " : 1)").
  assert (Hf : factor f).
  { exists (c ++ js " ? " ++ mult ++ js " : 1"). split; [|unfold f; by rewrite <- !app_assoc].
    apply balanced_app; [done|]. bal_calc. }
  unfold tryParseRequestRuleExpr. change (or_str f []) with f. rewrite (proj1 (factor_trim f Hf)).
  change (negb (truthy_str f)) with false. cbn match.
  change (splitTopLevelMultiply f) with (splitTopLevelMultiply (join (js " * ") [f])).
  rewrite split_multiply by by constructor. cbn [collect]. unfold tryParseRuleGroupFactor at 1.
  unfold f. rewrite exec_factor by done. change (grp 1 _) with c. unfold c.
  by rewrite split_and, Hc by done.
Qed.

(** A comparison of a request parameter is lost: it is printed with a null check,
    [param(p) != nil && param(p) > n], and the reader, which splits the conjunction before
    it looks for that shape, refuses the text the printer has just written. *)
Theorem param_comparison_lost p md op num mult :
  name_ok p -> cmp_op_str md = Some op -> is_numeric num = true -> is_numeric mult = true ->
  let g := {| conditions := [ph param p md num]; multiplier := mult |} in
  buildRequestRuleExpr [g] <> [] /\ tryParseRequestRuleExpr (buildRequestRuleExpr [g]) = Return None.
Proof.
  intros (Hne & Hs & Ht) Hop Hn Hm.
  set (e1 := js "param(" ++ dq ++ p ++ dq ++ js ") != nil").
  set (e2 := js "param(" ++ dq ++ p ++ dq ++ js ") " ++ op ++ js " " ++ num).
  apply cmp_op_str_range in Hop as Hin.
  assert (He : Forall expr_ok [e1; e2]).
  { constructor; [by apply param_exists_reads|]. constructor; [|constructor].
    by apply comparison_expr_ok. }
  assert (Eb : buildRequestConditionExpr (ph param p md num) = join (js " && ") [e1; e2]).
  { unfold buildRequestConditionExpr, ph. rewrite normalize_partial.
    2:{ cbn. revert Hop. unfold cmp_op_str. repeat case_bool_decide; subst; done. }
    unfold ph_expr. cbn [path ph_source ph_mode ph_value]. rewrite Ht, Hop, trim_num, Hn, quote_safe by done.
    replace (negb (truthy_str p)) with false by by destruct p. cbn match.
    rewrite bool_decide_eq_false_2, bool_decide_eq_false_2
      by (intros ->; by cbv in Hop). cbn [negb]. unfold e1, e2. cbn [join]. by rewrite <- !app_assoc. }
  set (f := js "(" ++ join (js " && ") [e1; e2] ++ js " ? " ++ mult ++ js " : 1)").
  assert (Ef : buildRequestRuleExpr [{| conditions := [ph param p md num]; multiplier := mult |}] = f).
  { unfold buildRequestRuleExpr, buildRuleGroupFactor. cbn [fmap list_fmap conditions multiplier].
    rewrite trim_num, Hm, Eb by done. cbn [negb]. rewrite filter_truthy_id by by repeat constructor.
    by rewrite filter_truthy_id by by repeat constructor. }
  cbv zeta. rewrite Ef. split; [done|]. apply (single_factor_fails [e1; e2]); try done.
  destruct (param_exists_reads p Hne Hs) as [(_ & T1 & _) R1].
  destruct (comparison_expr_ok p op num Hs Hin Hn) as (_ & T2 & _).
  fold e1 in T1, R1. fold e2 in T2. cbn [collect]. rewrite T1, R1, T2. cbn [obind].
  unfold e2. by rewrite comparison_not_read.
Qed.

Lemma param_comparison_lost_witness :
  tryParseRequestRuleExpr (buildRequestRuleExpr
    [{| conditions := [ph param (js "max_tokens") MATCH_GT (js "4000")]; multiplier := js "2" |}])
  = Return None.
Proof.
  apply (param_comparison_lost (js "max_tokens") MATCH_GT (js ">") (js "4000") (js "2"));
    try reflexivity. by apply (bool_decide_unpack (name_ok _)).
Defined.

(** ** Outer parentheses *)

Lemma inner_paren s : inner (js "(" ++ s ++ js ")") = s.
Proof.
  unfold inner, slice. rewrite !length_app. change (js "(") with [40]. change (js ")") with [41].
  cbn [length app]. replace (1 + (length s + 1) - 1 - 1)%nat with (length s) by lia.
  exact (take_app_length s [41]).
Qed.

Lemma full_parens_shape e :
  hasFullOuterParens e = true -> exists s, e = js "(" ++ s ++ js ")".
Proof.
  unfold hasFullOuterParens.
  destruct (starts_with (js "(") e) eqn:E1; [|done].
  destruct (ends_with (js ")") e) eqn:E2; [|by cbn]. intros _.
  apply starts_with_spec in E1 as [t ->]. unfold ends_with in E2.
  apply starts_with_spec in E2 as [u E2]. rewrite reverse_app in E2.
  change (reverse (js ")")) with [41] in E2. change (reverse (js "(")) with [40] in E2.
  destruct t as [|z t _] using rev_ind; [done|]. rewrite reverse_snoc in E2. injection E2 as -> _.
  by exists t.
Qed.

Lemma paren_depth_deep d s :
  bal d s = Some O -> paren_depth (Z.of_nat (S d)) (s ++ [41]) = Some 0%Z.
Proof.
  revert d; induction s as [|c s IH]; intros d Hb; [by injection Hb as ->|].
  cbn [bal] in Hb. cbn [paren_depth app].
  destruct (s ++ [41]) as [|c' s'] eqn:E; [by destruct s|]. rewrite <- E in *.
  destruct (N.eqb_spec c 40) as [->|Hc].
  - change (40 =? 41) with false. cbn match. rewrite (proj2 (Z.eqb_neq _ _)) by lia.
    rewrite <- (IH (S d)) by done. f_equal. lia.
  - destruct (N.eqb_spec c 41) as [->|Hc']; [destruct d as [|d]; [done|]|];
      rewrite (proj2 (Z.eqb_neq _ _)) by lia.
    + rewrite <- (IH d) by done. f_equal. lia.
    + by rewrite <- (IH d).
Qed.

Lemma full_parens_balanced s : balanced s -> hasFullOuterParens (js "(" ++ s ++ js ")") = true.
Proof.
  intros Hs. unfold hasFullOuterParens. rewrite starts_with_app.
  replace (ends_with (js ")") (js "(" ++ s ++ js ")")) with true.
  2:{ unfold ends_with. rewrite app_assoc, reverse_app. symmetry. apply starts_with_app. }
  cbn [negb orb]. change (js "(") with [40]. change (js ")") with [41].
  cbn [app paren_depth]. destruct (s ++ [41]) as [|c t] eqn:E; [by destruct s|].
  change (0 + 1)%Z with (Z.of_nat 1). change (40 =? 40) with true. change (40 =? 41) with false.
  cbn match. rewrite <- E, (paren_depth_deep 0) by done. done.
Qed.

(** One turn of the loop shortens the text by two units at least. *)
Lemma unwrap_turn e :
  hasFullOuterParens e = true -> (length (trim (inner e)) + 2 <= length e)%nat.
Proof.
  intros [s ->]%full_parens_shape. rewrite inner_paren, !length_app.
  change (length (js "(")) with 1%nat. change (length (js ")")) with 1%nat.
  pose proof (trim_length s). lia.
Qed.

Lemma unwrap_fuel f g e :
  (length e <= f)%nat -> (length e <= g)%nat -> unwrap f e = unwrap g e.
Proof.
  revert g e; induction f as [|f IH]; intros g e Hf Hg.
  - destruct e; [|simpl in Hf; lia]. by destruct g.
  - destruct g as [|g]; [destruct e; [done|simpl in Hg; lia]|]. simpl.
    destruct (hasFullOuterParens e) eqn:E; [|done]. apply unwrap_turn in E. apply IH; lia.
Qed.

Lemma unwrap_done f e : (length e <= f)%nat -> hasFullOuterParens (unwrap f e) = false.
Proof.
  revert e; induction f as [|f IH]; intros e Hf; simpl.
  - by destruct e; [|simpl in Hf; lia].
  - destruct (hasFullOuterParens e) eqn:E; [|done]. apply unwrap_turn in E. apply IH. lia.
Qed.

Lemma or_str_nil s : or_str s [] = s.
Proof. by destruct s. Qed.

Lemma unwrap_paren s :
  balanced s -> unwrapOuterParens (js "(" ++ s ++ js ")") = unwrapOuterParens s.
Proof.
  intros Hs. unfold unwrapOuterParens. rewrite !or_str_nil.
  set (e := js "(" ++ s ++ js ")").
  rewrite (proj1 (factor_trim e (ex_intro _ s (conj Hs eq_refl)))).
  assert (Hf : hasFullOuterParens e = true) by by apply full_parens_balanced.
  pose proof (unwrap_turn e Hf) as Hl. destruct (length e) as [|n]; [lia|]. simpl.
  rewrite Hf. unfold e in *. rewrite inner_paren in *. apply unwrap_fuel; lia.
Qed.

(** Unwrapping ends with a text that has no outer pair of parentheses, and takes off
    every pair put around a balanced text. *)
Theorem unwrap_outer_parens e :
  hasFullOuterParens (unwrapOuterParens e) = false
  /\ (forall s, balanced s -> unwrapOuterParens (js "(" ++ s ++ js ")") = unwrapOuterParens s).
Proof. split; [apply unwrap_done; lia|apply unwrap_paren]. Qed.

(** ** Joining and separating the price part and the rule part *)

Lemma partition_rules gs :
  Forall group_ok gs ->
  partition_parts (buildRuleGroupFactor <$> gs) = Return (buildRuleGroupFactor <$> gs, []).
Proof.
  induction 1 as [|g gs Hg _ IH]; [done|]. cbn [fmap list_fmap partition_parts].
  assert (Hr : is_rule_part (buildRuleGroupFactor g) = Return true).
  { unfold is_rule_part. destruct (factor_trim _ (group_factor g Hg)) as [_ Hne].
    replace (buildRuleGroupFactor g) with (buildRequestRuleExpr [g]).
    - by rewrite (rules_read [g]) by by constructor.
    - unfold buildRequestRuleExpr. cbn [fmap list_fmap]. rewrite filter_truthy_id; [done|].
      by constructor. }
  rewrite Hr. cbn [obind]. change (list_fmap _ _ buildRuleGroupFactor gs) with (buildRuleGroupFactor <$> gs).
  by rewrite IH.
Qed.

Lemma combine_split base gs :
  trim base = base -> base <> [] -> balanced base ->
  is_rule_part (js "(" ++ base ++ js ")") = Return false ->
  Forall group_ok gs -> gs <> [] ->
  splitBillingExprAndRequestRules (combineBillingExpr base (buildRequestRuleExpr gs))
  = Return {| billingExpr := unwrapOuterParens base; requestRuleExpr := buildRequestRuleExpr gs |}.
Proof.
  intros Ht Hne Hb Hr Hgs Hg. destruct (build_rules_join gs Hgs) as (E & Hf & Htr & Hrne).
  specialize (Hrne Hg). set (b := js "(" ++ base ++ js ")").
  assert (Hfb : factor b) by by exists base.
  assert (Hall : Forall factor (b :: (buildRuleGroupFactor <$> gs))) by by constructor.
  assert (Ec : combineBillingExpr base (buildRequestRuleExpr gs)
               = join (js " * ") (b :: (buildRuleGroupFactor <$> gs))).
  { unfold combineBillingExpr. rewrite !or_str_nil, Ht, Htr.
    rewrite !(proj2 (truthy_str_spec _)) by done. cbn [negb]. rewrite E.
    destruct gs as [|g gs]; [done|]. unfold b. cbn [fmap list_fmap join].
    rewrite <- !app_assoc. done. }
  rewrite Ec. set (text := join _ _).
  assert (Htt : trim text = text /\ text <> []).
  { destruct (join_ends (js " * ") (b :: (buildRuleGroupFactor <$> gs)) 40 41) as [Ha Hz]; [done| |].
    - eapply Forall_impl; [exact Hall|]. intros f (s & _ & ->). split; [done|]. by rewrite !last_app.
    - split; [by apply (trim_ends _ 40 41)|]. intros Et. fold text in Ha. by rewrite Et in Ha. }
  destruct Htt as [Htt Htn]. unfold splitBillingExprAndRequestRules.
  rewrite or_str_nil, Htt, (proj2 (truthy_str_spec _)) by done. cbn [negb].
  unfold text. rewrite split_multiply by done. destruct gs as [|g gs]; [done|].
  cbn [length Nat.leb fmap list_fmap]. change (buildRuleGroupFactor g :: ?l) with (buildRuleGroupFactor <$> g :: gs).
  cbn [partition_parts]. fold b in Hr. rewrite Hr. cbn [obind].
  rewrite partition_rules by done. cbn [obind fst snd]. rewrite E. unfold b.
  by rewrite unwrap_paren.
Qed.

(** Joining a price expression with stored rules and separating them again gives back
    the two parts, up to the outer parentheses of the price expression, provided the price
    expression in parentheses does not itself read as a rule. *)
Theorem combine_split_roundtrip base gs :
  trim base = base -> base <> [] -> balanced base ->
  is_rule_part (js "(" ++ base ++ js ")") = Return false ->
  Forall group_ok gs -> gs <> [] ->
  splitBillingExprAndRequestRules (combineBillingExpr base (buildRequestRuleExpr gs))
  = Return {| billingExpr := unwrapOuterParens base; requestRuleExpr := buildRequestRuleExpr gs |}.
Proof. apply combine_split. Qed.

Lemma combine_split_roundtrip_witness :
  splitBillingExprAndRequestRules
    (combineBillingExpr (js "p * 3 + c * 15") (buildRequestRuleExpr sample_groups))
  = Return {| billingExpr := js "p * 3 + c * 15";
              requestRuleExpr := buildRequestRuleExpr sample_groups |}.
Proof.
  apply (combine_split_roundtrip (js "p * 3 + c * 15") sample_groups); try reflexivity; try done.
  by apply (bool_decide_unpack (Forall group_ok sample_groups)).
Defined.
