(* ===== verification/TierExpr.v ===== *)
(** * Tier expressions ([features/pricing/lib/tier-expr.ts])

    The visual editor of tiered prices: normalising a tier, printing a configuration as a
    billing expression, reading one back, and the estimator that runs an expression.

    A tier is an object with open fields, so it is a JavaScript object ([obj]); a
    configuration has the one field its type declares.  [new Function] is the JavaScript
    engine at run time: it is the parameter [run_function] of the estimator. *)

From Stdlib Require Import SpecFloat.
From S2P Require Import Prelude JsString JsRegex JsNumber JsValue BillingVars.

#[local] Open Scope N_scope.

Definition CACHE_MODE_TIMED : jsstr := js "timed".
Definition CACHE_MODE_GENERIC : jsstr := js "generic".

Record VisualConfig := { tiers : list obj }.

(** [Number(x) || 0] *)
Definition num_or_zero (v : jsval) : num := or_zero (to_number v).

(** ** Normalising *)

Definition getTierCacheMode (tier : obj) : jsstr :=
  if is_str CACHE_MODE_TIMED (at_ (js "cache_mode") tier) then CACHE_MODE_TIMED
  else if is_str CACHE_MODE_GENERIC (at_ (js "cache_mode") tier) then CACHE_MODE_GENERIC
  else if nltb zero (to_number (at_ (js "cache_create_1h_unit_cost") tier))
       then CACHE_MODE_TIMED else CACHE_MODE_GENERIC.

Definition cost_of (tier : obj) (k : jsstr) : jsstr * jsval := (k, VNum (num_or_zero (at_ k tier))).

(** The fields written before [...tier]. *)
Definition tier_defaults (tier : obj) : obj :=
  [ (js "label", vnullish (at_ (js "label") tier) (VStr []));
    cost_of tier (js "input_unit_cost");
    cost_of tier (js "output_unit_cost");
    (js "cache_mode", VStr (getTierCacheMode tier));
    (js "conditions", if is_array (at_ (js "conditions") tier)
                      then at_ (js "conditions") tier else VArr []) ].

Definition extra_cost_fields : list jsstr :=
  [ js "cache_read_unit_cost"; js "cache_create_unit_cost"; js "cache_create_1h_unit_cost";
    js "image_unit_cost"; js "image_output_unit_cost"; js "audio_input_unit_cost";
    js "audio_output_unit_cost" ].

Definition normalizeVisualTier (tier : obj) : obj :=
  ospread (ospread (obj_of (tier_defaults tier)) tier) (cost_of tier <$> extra_cost_fields).

Definition createDefaultVisualConfig : VisualConfig :=
  {| tiers := [ normalizeVisualTier
       (obj_of [ (js "conditions", VArr []); (js "input_unit_cost", VNum zero);
                 (js "output_unit_cost", VNum zero); (js "label", VStr (js "base"));
                 (js "cache_mode", VStr CACHE_MODE_GENERIC) ]) ] |}.

Definition normalizeVisualConfig (config : option VisualConfig) : VisualConfig :=
  match config with
  | None | Some {| tiers := [] |} => createDefaultVisualConfig
  | Some c => {| tiers := normalizeVisualTier <$> tiers c |}
  end.

(** ** Printing *)

(** The conditions of a tier, an array by its type; a missing one prints as nothing. *)
Definition items (v : jsval) : list jsval := match v with VArr l => l | _ => [] end.

Definition condition_complete (c : jsval) : bool :=
  truthy (prop (js "var") c) && truthy (prop (js "op") c)
  && negb (nullish (prop (js "value") c)) && negb (is_str [] (prop (js "value") c)).

Definition condition_text (c : jsval) : jsstr :=
  to_string (prop (js "var") c) ++ js " " ++ to_string (prop (js "op") c) ++ js " "
  ++ to_string (prop (js "value") c).

Definition buildConditionStr (conditions : jsval) : jsstr :=
  join (js " && ") (condition_text <$> filterb condition_complete (items conditions)).

Definition extra_part (tier : obj) (cv : CacheVar) : option jsstr :=
  let v := num_or_zero (at_ (cv_field cv) tier) in
  if negb (neqb v zero) then Some (exprVar cv ++ js " * " ++ num_to_string v) else None.

Definition buildTierBodyExpr (tier : obj) : jsstr :=
  let ic := num_or_zero (at_ (js "input_unit_cost") tier) in
  let oc := num_or_zero (at_ (js "output_unit_cost") tier) in
  join (js " + ")
    ((js "p * " ++ num_to_string ic) :: (js "c * " ++ num_to_string oc)
     :: omap (extra_part tier) BILLING_CACHE_VAR_MAP).

Definition tier_call (label : jsval) (tier : obj) : jsstr :=
  js "tier(" ++ dq ++ to_string label ++ dq ++ js ", " ++ buildTierBodyExpr tier ++ js ")".

(** The parts of two tiers or more: the index counts from [i], [n] tiers in all. *)
Fixpoint tier_parts (i n : nat) (ts : list obj) : list jsstr :=
  match ts with
  | [] => []
  | tier :: rest =>
      let label := vor (at_ (js "label") tier) (VStr (js "tier_" ++ digits_of (N.of_nat (i + 1)))) in
      let body := tier_call label tier in
      let cond := buildConditionStr (at_ (js "conditions") tier) in
      (if (i <? n - 1)%nat && truthy_str cond then cond ++ js " ? " ++ body else body)
        :: tier_parts (S i) n rest
  end.

Definition generateExprFromVisualConfig (config : option VisualConfig) : jsstr :=
  match config with
  | None | Some {| tiers := [] |} => js "p * 0 + c * 0"
  | Some {| tiers := [tier] |} =>
      let body := tier_call (vor (at_ (js "label") tier) (VStr (js "default"))) tier in
      let cond := buildConditionStr (at_ (js "conditions") tier) in
      if truthy_str cond then cond ++ js " ? " ++ body ++ js " : p * 0 + c * 0" else body
  | Some {| tiers := ts |} => join (js " : ") (tier_parts 0 (length ts) ts)
  end.

(** ** Reading *)

Definition optCacheStr : jsstr :=
  concat ((fun cv => js "(?:\s*\+\s*" ++ exprVar cv ++ js "\s*\*\s*([\d.eE+-]+))?")
            <$> BILLING_CACHE_VAR_MAP).

Definition bodyPat : jsstr :=
  js "p\s*\*\s*([\d.eE+-]+)\s*\+\s*c\s*\*\s*([\d.eE+-]+)" ++ optCacheStr.

Definition re_body_version : regex := Eval vm_compute in re "^v\d+:([\s\S]*)$".

Definition singleRe : regex := Eval vm_compute in
  regex_of false (js "^tier\(\x22([^\x22]*)\x22,\s*" ++ bodyPat ++ js "\)$").

Definition visualTierRe : regex := Eval vm_compute in
  regex_of false (js "(?:" ++ condGroup ++ js "\s*\?\s*)?tier\(\x22([^\x22]*)\x22,\s*"
                  ++ bodyPat ++ js "\)").

(** The extra costs that took part in the match, captured from group [i] on. *)
Fixpoint extra_costs (i : nat) (cvs : list CacheVar) (m : list (nat * jsstr)) : obj :=
  match cvs with
  | [] => []
  | cv :: t =>
      match cap i m with
      | Some v => (cv_field cv, VNum (number_of_string v)) :: extra_costs (S i) t m
      | None => extra_costs (S i) t m
      end
  end.

(** The tier of a match, whose groups [i], [i + 1] and [i + 2] are the label and the costs. *)
Definition read_tier (i : nat) (conditions : jsval) (m : list (nat * jsstr)) : obj :=
  normalizeVisualTier (ospread (obj_of
    [ (js "conditions", conditions);
      (js "input_unit_cost", VNum (number_of_string (grp (i + 1) m)));
      (js "output_unit_cost", VNum (number_of_string (grp (i + 2) m)));
      (js "label", VStr (grp i m)) ])
    (extra_costs (i + 3) BILLING_CACHE_VAR_MAP m)).

Definition condition_value (c : TierCondition) : jsval :=
  VObj (obj_of [ (js "var", VStr (tc_var c)); (js "op", VStr (tc_op c)); (js "value", VNum (tc_value c)) ]).

Definition stripWs (s : jsstr) : jsstr := replace_all re_spaces [] s.

(** [body] after the version prefix is taken off. *)
Definition visual_body (exprStr : jsstr) : jsstr :=
  match exec re_body_version exprStr with Some m => grp 1 m | None => exprStr end.

Definition read_single (body : jsstr) : option VisualConfig :=
  match exec singleRe body with
  | Some m => Some (normalizeVisualConfig (Some {| tiers := [read_tier 1 (VArr []) m] |}))
  | None => None
  end.

Definition read_tiers (body : jsstr) : list obj :=
  (fun m => read_tier 2 (VArr (condition_value <$> parse_tier_conditions (grp 1 m))) m)
    <$> exec_all visualTierRe body.

Definition tryParseVisualConfig (exprStr : option jsstr) : option VisualConfig :=
  match exprStr with
  | None | Some [] => None
  | Some e =>
      let body := visual_body e in
      match read_single body with
      | Some cfg => Some cfg
      | None =>
          match read_tiers body with
          | [] => None
          | ts =>
              let cfg := normalizeVisualConfig (Some {| tiers := ts |}) in
              let regenerated := generateExprFromVisualConfig (Some cfg) in
              if negb (bool_decide (stripWs regenerated = stripWs body)) then None else Some cfg
          end
      end
  end.

(** ** The estimator *)

Record EstimatorVar := { ev_var : jsstr; stateKey : jsstr }.

Definition ESTIMATOR_VARS : list EstimatorVar :=
  [ {| ev_var := js "cr"; stateKey := js "cacheReadTokens" |};
    {| ev_var := js "cc"; stateKey := js "cacheCreateTokens" |};
    {| ev_var := js "cc1h"; stateKey := js "cacheCreate1hTokens" |};
    {| ev_var := js "img"; stateKey := js "imageTokens" |};
    {| ev_var := js "img_o"; stateKey := js "imageOutputTokens" |};
    {| ev_var := js "ai"; stateKey := js "audioInputTokens" |};
    {| ev_var := js "ao"; stateKey := js "audioOutputTokens" |} ].

Record EvalResult := { cost : num; matchedTier : jsstr; eval_error : option jsstr }.

(** What the environment of an expression binds: numbers, [tier], and [Math] functions. *)
Inductive EnvValue := EnvNum (n : num) | EnvTier | EnvMath (name : jsstr).

Section Estimator.
(** [new Function(...params, body)(...args)]: the error message, or the value of the
    expression and the names [tier] was called with, in order. *)
Variable run_function : list jsstr -> jsstr -> list EnvValue -> jsstr + (jsval * list jsstr).

Definition tokens_of (extra : obj) (k : jsstr) : num := or_zero (to_number (at_ k extra)).

Definition eval_env (promptTokens completionTokens : num) (extra : obj)
  : list (jsstr * EnvValue) :=
  let len := nadd (nadd (nadd promptTokens (tokens_of extra (js "cacheReadTokens")))
                     (tokens_of extra (js "cacheCreateTokens")))
                  (tokens_of extra (js "cacheCreate1hTokens")) in
  [ (js "p", EnvNum promptTokens); (js "c", EnvNum completionTokens); (js "len", EnvNum len);
    (js "tier", EnvTier); (js "max", EnvMath (js "max")); (js "min", EnvMath (js "min"));
    (js "abs", EnvMath (js "abs")); (js "ceil", EnvMath (js "ceil"));
    (js "floor", EnvMath (js "floor")) ]
  ++ ((fun f => (ev_var f, EnvNum (tokens_of extra (stateKey f)))) <$> ESTIMATOR_VARS).

Definition function_body (exprStr : jsstr) : jsstr :=
  dq ++ js "use strict" ++ dq ++ js "; return (" ++ exprStr ++ js ");".

Definition evalExprLocally (exprStr : jsstr) (promptTokens completionTokens : num)
    (extraTokenValues : obj) : EvalResult :=
  if negb (truthy_str exprStr) || negb (truthy_str (trim exprStr))
  then {| cost := zero; matchedTier := []; eval_error := None |}
  else
    let env := eval_env promptTokens completionTokens extraTokenValues in
    match run_function (fst <$> env) (function_body exprStr) (snd <$> env) with
    | inl message => {| cost := zero; matchedTier := []; eval_error := Some message |}
    | inr (v, calls) =>
        {| cost := num_or_zero v; matchedTier := default [] (last calls); eval_error := None |}
    end.
End Estimator.

Definition re_extra_vars : regex := Eval vm_compute in
  regex_of false (js "\b(" ++ join (js "|") (ev_var <$> ESTIMATOR_VARS) ++ js ")\b").

Definition exprUsesExtraVars (exprStr : jsstr) : bool :=
  if negb (truthy_str exprStr) then false else test re_extra_vars exprStr.

(** ** Theorems: normalising *)

Lemma extra_fields_NoDup : NoDup extra_cost_fields.
Proof. by apply (bool_decide_unpack (NoDup _)). Qed.

Lemma tier_defaults_NoDup tier : NoDup (okeys (tier_defaults tier)).
Proof. by apply (bool_decide_unpack (NoDup _)). Qed.

Lemma normalize_field k tier :
  canonical tier ->
  oget k (normalizeVisualTier tier)
  = if bool_decide (k ∈ extra_cost_fields) then Some (VNum (num_or_zero (at_ k tier)))
    else match oget k tier with Some v => Some v | None => oget k (tier_defaults tier) end.
Proof.
  intros Hc. unfold normalizeVisualTier. rewrite oget_ospread.
  change (cost_of tier <$> extra_cost_fields)
    with ((fun j => (j, VNum (num_or_zero (at_ j tier)))) <$> extra_cost_fields).
  rewrite oget_reverse by (by apply (bool_decide_unpack (NoDup _))).
  rewrite (oget_map k (fun j => VNum (num_or_zero (at_ j tier)))).
  case_bool_decide; [done|]. by rewrite oget_spread, oget_obj_of by auto using tier_defaults_NoDup.
Qed.

Lemma canonical_normalize tier : canonical tier -> canonical (normalizeVisualTier tier).
Proof. intros. by do 2 apply canonical_ospread; apply canonical_obj_of. Qed.

Lemma or_zero_not_nan x : is_nan (or_zero x) = false.
Proof. unfold or_zero. by destruct x. Qed.

(** Normalising a tier makes every extra cost a number that is not NaN, fills in the
    other declared fields only where the tier lacks them - a field the tier has is kept as
    it is, even an input cost that is NaN or conditions that are null - and doing it again
    changes no field. *)
Theorem normalize_tier_spec tier :
  canonical tier ->
  (forall k, k ∈ extra_cost_fields ->
     exists x, oget k (normalizeVisualTier tier) = Some (VNum x) /\ is_nan x = false)
  /\ (forall k v, k ∉ extra_cost_fields -> oget k tier = Some v ->
        oget k (normalizeVisualTier tier) = Some v)
  /\ (forall k, k ∈ okeys (tier_defaults tier) ->
        exists v, oget k (normalizeVisualTier tier) = Some v)
  /\ (forall k, oget k (normalizeVisualTier (normalizeVisualTier tier))
                = oget k (normalizeVisualTier tier)).
Proof.
  intros Hc. split; [|split; [|split]].
  - intros k Hk. rewrite normalize_field, bool_decide_eq_true_2 by done.
    eexists. split; [done|]. apply or_zero_not_nan.
  - intros k v Hk Hv. by rewrite normalize_field, bool_decide_eq_false_2, Hv by done.
  - intros k Hk. rewrite normalize_field by done. case_bool_decide; [eauto|].
    destruct (oget k tier); [eauto|]. destruct (oget k (tier_defaults tier)) eqn:E; [eauto|].
    by apply oget_None_okeys in E.
  - intros k. rewrite normalize_field by by apply canonical_normalize.
    destruct (bool_decide (k ∈ extra_cost_fields)) eqn:E.
    + rewrite at_oget, normalize_field, E by done. simpl. unfold num_or_zero at 1. simpl.
      unfold num_or_zero. by rewrite or_zero_idemp.
    + rewrite normalize_field, E by done. destruct (oget k tier) eqn:Et; [done|].
      destruct (oget k (tier_defaults tier)) eqn:Ed; [done|].
      apply oget_None_okeys. by apply oget_None_okeys in Ed.
Qed.

Definition sample_tier : obj :=
  obj_of [ (js "label", VStr (js "base")); (js "input_unit_cost", VNum NaN);
           (js "conditions", VNull) ].

Lemma normalize_tier_spec_witness :
  oget (js "input_unit_cost") (normalizeVisualTier sample_tier) = Some (VNum NaN)
  /\ oget (js "conditions") (normalizeVisualTier sample_tier) = Some VNull.
Proof.
  pose proof (normalize_tier_spec sample_tier (canonical_obj_of _)) as (_ & H & _).
  split; apply H; try reflexivity; by apply (bool_decide_unpack (_ ∉ _)).
Defined.

(** ** Theorems: reading *)

(** A configuration of several tiers or with conditions is only given to the visual
    editor when printing it gives the expression back, white space aside; the exception is
    the form of one tier without conditions, which is read without that check. *)
Theorem parsed_config_regenerates e cfg :
  tryParseVisualConfig (Some e) = Some cfg ->
  read_single (visual_body e) = Some cfg
  \/ (stripWs (generateExprFromVisualConfig (Some cfg)) = stripWs (visual_body e)
      /\ length (tiers cfg) = length (read_tiers (visual_body e)) /\ tiers cfg <> []).
Proof.
  unfold tryParseVisualConfig. destruct e as [|c e]; [done|]. remember (c :: e) as s.
  destruct (read_single (visual_body s)) as [cfg1|]; [by left|].
  destruct (read_tiers (visual_body s)) as [|t ts]; [done|].
  destruct (bool_decide _) eqn:E; cbn [negb]; [|done]. intros [= <-]. right.
  apply bool_decide_eq_true in E. split; [exact E|].
  change (tiers _) with (normalizeVisualTier <$> t :: ts). by rewrite length_fmap.
Qed.

Definition sample_expr : jsstr :=
  js "len <= 200000 ? tier(" ++ dq ++ js "a" ++ dq ++ js ", p * 3 + c * 15) : tier(" ++ dq
  ++ js "b" ++ dq ++ js ", p * 6 + c * 22.5 + cr * 0.5)".

Lemma parsed_config_regenerates_witness :
  exists cfg, tryParseVisualConfig (Some sample_expr) = Some cfg
  /\ (read_single (visual_body sample_expr) = Some cfg
      \/ (stripWs (generateExprFromVisualConfig (Some cfg)) = stripWs (visual_body sample_expr)
          /\ length (tiers cfg) = length (read_tiers (visual_body sample_expr)) /\ tiers cfg <> [])).
Proof.
  destruct (tryParseVisualConfig (Some sample_expr)) as [cfg|] eqn:E; [|by vm_compute in E].
  exists cfg. split; [done|]. exact (parsed_config_regenerates sample_expr cfg E).
Defined.

(** The unchecked form loses a price: a cost written as a difference is captured as
    one number text, which is no number, and the configuration read prints the cost as 0. *)
Theorem single_tier_loses_cost :
  let e := js "tier(" ++ dq ++ js "base" ++ dq ++ js ", p * 3-1 + c * 2)" in
  exists cfg, tryParseVisualConfig (Some e) = Some cfg
  /\ generateExprFromVisualConfig (Some cfg)
     = js "tier(" ++ dq ++ js "base" ++ dq ++ js ", p * 0 + c * 2)".
Proof. eexists. split; [vm_compute; reflexivity|vm_compute; reflexivity]. Qed.
