(* ===== verification/ChannelForm.v ===== *)
(** * The channel form ([features/channels/lib/channel-form.ts])

    A channel is edited in a form and stored with two JSON texts, [setting] and [settings].
    This file has the checks of the form, the reading of a stored channel into form values,
    and the payloads sent to create or update a channel.

    Form values and channels are JavaScript objects ([obj]).  The schema library [zod] is
    not modelled: [field_issues] and [super_issues] are the checks the source passes to it,
    with the messages it attaches. *)

From S2P Require Import Prelude JsString JsRegex JsNumber JsValue JsJson.

#[local] Open Scope N_scope.
#[local] Open Scope outcome_scope.

(** ** Constants ([features/channels/constants.ts]) *)

Definition ENABLED : Z := 1.

Definition MODEL_FETCHABLE_TYPES : list Z :=
  [1; 4; 14; 17; 20; 23; 24; 25; 26; 27; 31; 34; 35; 40; 42; 43; 47; 48]%Z.

(** [x === n] for a number [n] of the source. *)
Definition is_num (n : Z) (v : jsval) : bool :=
  match v with VNum x => neqb x (num_of_Z n) | _ => false end.

(** [[...].includes(x)] and [Set.has(x)] *)
Definition is_one_of (ns : list Z) (v : jsval) : bool := existsb (fun n => is_num n v) ns.

(** ** Checks of single fields *)

(** [value?.trim()], of a string or undefined. *)
Definition trim_opt (value : jsval) : jsstr := match value with VStr s => trim s | _ => [] end.

Definition parseOptionalJson (value : jsval) : outcome jsval :=
  if negb (truthy_str (trim_opt value)) then Return VUndef
  else or_throw (json_parse (to_string value)).

Definition isJsonObjectValue (value : jsval) : bool := is_record value.

Definition isOptionalJsonObject (value : jsval) : bool :=
  catch (let! parsed := parseOptionalJson value in
         Return (is_undef parsed || isJsonObjectValue parsed)) false.

(** [Object.values] of a value known to be an object. *)
Definition values_of (v : jsval) : list jsval := match v with VObj o => ovalues o | _ => [] end.

Definition isOptionalModelMapping (value : jsval) : bool :=
  catch (let! parsed := parseOptionalJson value in
         Return (if is_undef parsed then true
                 else if negb (isJsonObjectValue parsed) then false
                 else forallb is_string (values_of parsed))) false.

Definition http_code (x : num) : bool :=
  is_integer x && nleb (num_of_Z 100) x && nleb x (num_of_Z 599).

Definition isOptionalStatusCodeMapping (value : jsval) : bool :=
  catch (let! parsed := parseOptionalJson value in
         Return (if is_undef parsed then true
                 else if negb (isJsonObjectValue parsed) then false
                 else forallb (fun '(from, to) =>
                        http_code (number_of_string from) && http_code (to_number to))
                        (entries_of parsed))) false.

Definition filled_string (v : jsval) : bool :=
  match v with VStr s => truthy_str (trim s) | _ => false end.

Definition isCodexCredential (value : jsval) : bool :=
  catch (let! parsed := parseOptionalJson value in
         Return (if is_undef parsed then true
                 else isJsonObjectValue parsed
                      && filled_string (prop (js "access_token") parsed)
                      && filled_string (prop (js "account_id") parsed))) false.

Definition isVertexJsonKey (value : jsval) : bool :=
  catch (let! parsed := parseOptionalJson value in
         Return (match parsed with
                 | VUndef => true
                 | VArr l => forallb isJsonObjectValue l
                 | v => isJsonObjectValue v
                 end)) false.

(** ** The schema *)

Record Issue := { issue_path : jsstr; issue_message : jsstr }.

Definition issue (p msg : jsstr) : Issue := {| issue_path := p; issue_message := msg |}.

Definition check (ok : bool) (p msg : jsstr) : list Issue := if ok then [] else [issue p msg].

Definition msg_json : jsstr := js "Invalid JSON format".

Definition str_length (v : jsval) : nat := match v with VStr s => length s | _ => 0%nat end.

(** The refinements of the fields of [z.object], in order; types are checked by [zod]. *)
Definition field_issues (data : obj) : list Issue :=
  check (negb (str_length (at_ (js "name") data) =? 0)%nat) (js "name")
    (js "Channel name is required")
  ++ check (nleb zero (to_number (at_ (js "type") data))) (js "type")
       (js "Channel type is required")
  ++ check (negb (str_length (at_ (js "models") data) =? 0)%nat) (js "models")
       (js "Models are required")
  ++ check (match at_ (js "group") data with VArr [] => false | _ => true end) (js "group")
       (js "Group is required")
  ++ check (isOptionalModelMapping (at_ (js "model_mapping") data)) (js "model_mapping")
       (js "Model mapping must be a JSON object with string values")
  ++ check (isOptionalStatusCodeMapping (at_ (js "status_code_mapping") data))
       (js "status_code_mapping") (js "Status code mapping must use valid HTTP status codes")
  ++ check (str_length (at_ (js "remark") data) <=? 255)%nat (js "remark")
       (js "Remark must be less than 255 characters")
  ++ check (isOptionalJsonObject (at_ (js "setting") data)) (js "setting") msg_json
  ++ check (isOptionalJsonObject (at_ (js "param_override") data)) (js "param_override") msg_json
  ++ check (isOptionalJsonObject (at_ (js "header_override") data)) (js "header_override") msg_json
  ++ check (isOptionalJsonObject (at_ (js "settings") data)) (js "settings") msg_json.

(** [data.multi_key_mode && data.multi_key_mode !== 'single'] *)
Definition batch_mode (data : obj) : bool :=
  let md := at_ (js "multi_key_mode") data in truthy md && negb (is_str (js "single") md).

Definition blank_opt (v : jsval) : bool := negb (truthy_str (trim_opt v)).

(** The callback of [superRefine]. *)
Definition super_issues (data : obj) : list Issue :=
  let type := at_ (js "type") data in
  let key := at_ (js "key") data in
  (if is_one_of [3; 8; 36; 45]%Z type && blank_opt (at_ (js "base_url") data)
   then [issue (js "base_url") (js "Base URL is required for this channel type")] else [])
  ++ (if is_one_of [3; 18; 21; 39; 41; 49]%Z type && blank_opt (at_ (js "other") data)
      then [issue (js "other") (js "This channel type requires additional configuration")] else [])
  ++ (if is_num 57 type then
        (if batch_mode data
         then [issue (js "multi_key_mode") (js "Codex channels do not support batch creation")]
         else [])
        ++ (if negb (blank_opt key) && negb (isCodexCredential key)
            then [issue (js "key")
                    (js "Codex credential must be a JSON object with access_token and account_id")]
            else [])
      else [])
  ++ (if is_num 41 type && is_str (js "json") (at_ (js "vertex_key_type") data)
         && negb (blank_opt key) && negb (isVertexJsonKey key)
      then [issue (js "key") (js "Vertex AI service account key must be valid JSON")] else [])
  ++ (if is_num 41 type && is_str (js "api_key") (at_ (js "vertex_key_type") data)
         && batch_mode data
      then [issue (js "multi_key_mode")
              (js "Vertex AI API Key mode does not support batch creation")] else []).

(** ** Default values *)

Definition str (s : String.string) : jsval := VStr (js s).
Arguments str s%_string.
Definition int (n : Z) : jsval := VNum (num_of_Z n).

Definition CHANNEL_FORM_DEFAULT_VALUES : obj := obj_of
  [ (js "name", str ""); (js "type", int 1); (js "base_url", str ""); (js "key", str "");
    (js "openai_organization", str ""); (js "models", str ""); (js "group", VArr [str "default"]);
    (js "model_mapping", str ""); (js "priority", int 0); (js "weight", int 0);
    (js "test_model", str ""); (js "auto_ban", int 1); (js "status", int ENABLED);
    (js "status_code_mapping", str ""); (js "tag", str ""); (js "remark", str "");
    (js "setting", str ""); (js "param_override", str ""); (js "header_override", str "");
    (js "settings", str "{}"); (js "other", str ""); (js "multi_key_mode", str "single");
    (js "multi_key_type", str "random"); (js "batch_add_set_key_prefix_2_name", VBool false);
    (js "key_mode", str "append"); (js "force_format", VBool false);
    (js "thinking_to_content", VBool false); (js "proxy", str "");
    (js "pass_through_body_enabled", VBool false); (js "system_prompt", str "");
    (js "system_prompt_override", VBool false); (js "is_enterprise_account", VBool false);
    (js "vertex_key_type", str "json"); (js "aws_key_type", str "ak_sk");
    (js "azure_responses_version", str ""); (js "allow_service_tier", VBool false);
    (js "disable_store", VBool false); (js "allow_safety_identifier", VBool false);
    (js "allow_include_obfuscation", VBool false); (js "allow_inference_geo", VBool false);
    (js "allow_speed", VBool false); (js "claude_beta_query", VBool false);
    (js "upstream_model_update_check_enabled", VBool false);
    (js "upstream_model_update_auto_sync_enabled", VBool false);
    (js "upstream_model_update_ignored_models", str "") ].

(** ** Lists in text fields *)

(** [s.split(',').map(trim).filter((m) => m.length > 0)] *)
Definition comma_list (s : jsstr) : list jsstr :=
  if negb (truthy_str s) then [] else filter_truthy (trim <$> split_char 44 s).

Definition parseModels (models : jsstr) : list jsstr := comma_list models.
Definition parseGroups (groups : jsstr) : list jsstr := comma_list groups.
Definition formatModels (models : list jsstr) : jsstr := join (js ",") models.
Definition formatGroups (groups : jsval) : jsstr :=
  match groups with VArr l => join (js ",") (to_string <$> l) | _ => [] end.

Definition validateJSON (value : jsstr) : bool :=
  if negb (truthy_str value) || bool_decide (trim value = []) then true
  else match json_parse value with Some _ => true | None => false end.

Definition validateModelMapping (value : jsstr) : bool :=
  if negb (truthy_str value) || bool_decide (trim value = []) then true else validateJSON value.

(** ** From a stored channel to the form *)

(** [JSON.parse(text)] inside a [try] whose body then reads properties of the result: a
    text that is no JSON, or the text of null, throws before anything is assigned. *)
Definition parsed_settings (text : jsval) : option jsval :=
  if negb (truthy text) then None
  else match json_parse (to_string text) with
       | None | Some VNull => None
       | Some v => Some v
       end.

Definition extra_keys : list (jsstr * jsval) :=
  [ (js "force_format", VBool false); (js "thinking_to_content", VBool false);
    (js "proxy", str ""); (js "pass_through_body_enabled", VBool false);
    (js "system_prompt", str ""); (js "system_prompt_override", VBool false) ].

(** [extraSettings]: each key of the parsed object, [|| default]. *)
Definition extra_settings (parsed : option jsval) : obj :=
  (fun '(k, d) => (k, match parsed with Some v => vor (prop k v) d | None => d end)) <$> extra_keys.

(** [parsed.k === true], false when nothing was parsed. *)
Definition flag (k : jsstr) (parsed : option jsval) : jsval :=
  VBool (match parsed with Some v => is_true (prop k v) | None => false end).

(** [parsed.k || d] *)
Definition text_or (k d : jsstr) (parsed : option jsval) : jsval :=
  match parsed with Some v => vor (prop k v) (VStr d) | None => VStr d end.

Definition ignored_models (parsed : option jsval) : jsval :=
  match parsed with
  | Some v => match prop (js "upstream_model_update_ignored_models") v with
              | VArr l => VStr (to_string (VArr l))
              | _ => str ""
              end
  | None => str ""
  end.

Definition or_text (k : jsstr) (d : jsstr) (o : obj) : jsval := vor (at_ k o) (VStr d).

Definition transformChannelToFormDefaults (channel : obj) : obj :=
  let setting := parsed_settings (at_ (js "setting") channel) in
  let settings := parsed_settings (at_ (js "settings") channel) in
  let text k := (k, or_text k [] channel) in
  obj_of
  ([ text (js "name"); (js "type", at_ (js "type") channel); text (js "base_url");
     (js "key", str ""); text (js "openai_organization"); text (js "models");
     (js "group", VArr (VStr <$> parseGroups (to_string (or_text (js "group") (js "default") channel))));
     text (js "model_mapping"); (js "priority", vor (at_ (js "priority") channel) (int 0));
     (js "weight", vor (at_ (js "weight") channel) (int 0)); text (js "test_model");
     (js "auto_ban", vnullish (at_ (js "auto_ban") channel) (int 1));
     (js "status", at_ (js "status") channel); text (js "status_code_mapping"); text (js "tag");
     text (js "remark"); text (js "setting"); text (js "param_override");
     text (js "header_override"); (js "settings", or_text (js "settings") (js "{}") channel);
     text (js "other"); (js "multi_key_mode", str "single");
     (js "multi_key_type",
        vor (prop (js "multi_key_mode") (at_ (js "channel_info") channel)) (str "random"));
     (js "batch_add_set_key_prefix_2_name", VBool false); (js "key_mode", str "append") ]
   ++ extra_settings setting
   ++ [ (js "is_enterprise_account", flag (js "openrouter_enterprise") settings);
        (js "vertex_key_type", text_or (js "vertex_key_type") (js "json") settings);
        (js "azure_responses_version", text_or (js "azure_responses_version") [] settings);
        (js "aws_key_type", text_or (js "aws_key_type") (js "ak_sk") settings);
        (js "allow_service_tier", flag (js "allow_service_tier") settings);
        (js "disable_store", flag (js "disable_store") settings);
        (js "allow_include_obfuscation", flag (js "allow_include_obfuscation") settings);
        (js "allow_inference_geo", flag (js "allow_inference_geo") settings);
        (js "allow_speed", flag (js "allow_speed") settings);
        (js "claude_beta_query", flag (js "claude_beta_query") settings);
        (js "allow_safety_identifier", flag (js "allow_safety_identifier") settings);
        (js "upstream_model_update_check_enabled",
           flag (js "upstream_model_update_check_enabled") settings);
        (js "upstream_model_update_auto_sync_enabled",
           flag (js "upstream_model_update_auto_sync_enabled") settings);
        (js "upstream_model_update_ignored_models", ignored_models settings) ]).

(** ** From the form to the stored texts *)

Definition setting_obj (formData : obj) : obj :=
  (fun '(k, d) => (k, vor (at_ k formData) d)) <$> extra_keys.

Definition buildSettingJSON (formData : obj) : jsstr := ser (VObj (obj_of (setting_obj formData))).

(** [if (c) o.k = v else if ('k' in o) delete o.k] *)
Definition gate (c : bool) (k : jsstr) (v : jsval) (o : obj) : obj :=
  if c then oset k v o else if ohas k o then odel k o else o.

Definition drop (k : jsstr) (o : obj) : obj := if ohas k o then odel k o else o.

(** [form.k === true] *)
Definition checked (k : jsstr) (formData : obj) : jsval := VBool (is_true (at_ k formData)).

(** The existing settings; a text that does not parse leaves the empty object. *)
Definition existing_settings (formData : obj) : jsval :=
  let s := at_ (js "settings") formData in
  if truthy s && negb (is_str (js "{}") s)
  then match json_parse (to_string s) with Some v => v | None => VObj [] end
  else VObj [].

(** The keys of one channel type: Vertex AI, Azure, OpenRouter, AWS. *)
Definition type_keys (formData : obj) (o : obj) : obj :=
  let type := at_ (js "type") formData in
  gate (is_num 33 type) (js "aws_key_type") (or_text (js "aws_key_type") (js "ak_sk") formData)
  (gate (is_num 20 type) (js "openrouter_enterprise") (checked (js "is_enterprise_account") formData)
  (gate (is_num 3 type && truthy (at_ (js "azure_responses_version") formData))
     (js "azure_responses_version") (at_ (js "azure_responses_version") formData)
  (gate (is_num 41 type) (js "vertex_key_type")
     (or_text (js "vertex_key_type") (js "json") formData) o))).

(** The field passthrough controls, of OpenAI (1) and Anthropic (14). *)
Definition passthrough_keys (formData : obj) (o : obj) : obj :=
  let type := at_ (js "type") formData in
  let o1 := gate (is_num 1 type || is_num 14 type) (js "allow_service_tier")
              (checked (js "allow_service_tier") formData) o in
  let o2 :=
    if is_num 1 type then
      oset (js "allow_inference_geo") (checked (js "allow_inference_geo") formData)
      (oset (js "allow_include_obfuscation") (checked (js "allow_include_obfuscation") formData)
      (oset (js "allow_safety_identifier") (checked (js "allow_safety_identifier") formData)
      (oset (js "disable_store") (checked (js "disable_store") formData) o1)))
    else
      let o' := drop (js "allow_include_obfuscation")
                  (drop (js "allow_safety_identifier") (drop (js "disable_store") o1)) in
      if negb (is_num 14 type) && ohas (js "allow_inference_geo") o'
      then odel (js "allow_inference_geo") o' else o' in
  if is_num 14 type then
    oset (js "claude_beta_query") (checked (js "claude_beta_query") formData)
    (oset (js "allow_speed") (checked (js "allow_speed") formData)
    (oset (js "allow_inference_geo") (checked (js "allow_inference_geo") formData) o2))
  else drop (js "claude_beta_query") (drop (js "allow_speed") o2).

(** The upstream model update settings, of the types whose models can be fetched. *)
Definition upstream_keys (formData : obj) (o : obj) : obj :=
  if is_one_of MODEL_FETCHABLE_TYPES (at_ (js "type") formData) then
    let enabled := checked (js "upstream_model_update_check_enabled") formData in
    let o1 := oset (js "upstream_model_update_check_enabled") enabled o in
    let o2 := oset (js "upstream_model_update_auto_sync_enabled")
      (VBool (is_true (at_ (js "upstream_model_update_check_enabled") o1)
              && is_true (at_ (js "upstream_model_update_auto_sync_enabled") formData))) o1 in
    let ignored := uniq (filter_truthy (trim <$> split_char 44
      (to_string (or_text (js "upstream_model_update_ignored_models") [] formData)))) in
    let o3 := oset (js "upstream_model_update_ignored_models") (VArr (VStr <$> ignored)) o2 in
    let o4 :=
      if negb (is_array (at_ (js "upstream_model_update_last_detected_models") o3))
         || negb (is_true (at_ (js "upstream_model_update_check_enabled") o3))
      then oset (js "upstream_model_update_last_detected_models") (VArr []) o3 else o3 in
    if negb (is_number (at_ (js "upstream_model_update_last_check_time") o4))
    then oset (js "upstream_model_update_last_check_time") (int 0) o4 else o4
  else o.

Definition settings_obj (formData : obj) (existing : obj) : obj :=
  upstream_keys formData (passthrough_keys formData (type_keys formData existing)).

(** Existing settings that are an array keep no added property in the text; those that are
    null or a primitive make the first assignment or [in] throw. *)
Definition buildSettingsJSON (formData : obj) : outcome jsstr :=
  match existing_settings formData with
  | VObj o => Return (ser (VObj (settings_obj formData o)))
  | VArr l => Return (ser (VArr l))
  | _ => Throw
  end.

(** ** Payloads *)

Definition re_trailing_slashes : regex := Eval vm_compute in re "\/+$".

Definition normalizeBaseUrl (value : jsval) : jsstr :=
  replace_first re_trailing_slashes [] (trim (to_string (vor value (str "")))).

Definition or_null (k : jsstr) (o : obj) : jsstr * jsval := (k, vor (at_ k o) VNull).
Definition or_empty (k : jsstr) (o : obj) : jsstr * jsval := (k, or_text k [] o).

(** [Object.keys(o).forEach((k) => { if (o[k] === '') o[k] = null })] *)
Definition empties_to_null (o : obj) : obj :=
  (fun '(k, v) => (k, if is_str [] v then VNull else v)) <$> o.

Definition base_url_or (d : jsval) (formData : obj) : jsval :=
  vor (VStr (normalizeBaseUrl (at_ (js "base_url") formData))) d.

Record CreatePayload := {
  mode : jsval;
  multi_key_mode : jsval;
  batch_add_set_key_prefix_2_name : jsval;
  channel : obj
}.

Definition create_channel (formData : obj) (settings : jsstr) : obj :=
  let same k := (k, at_ k formData) in
  let nul k := or_null k formData in
  obj_of
  [ same (js "name"); same (js "type"); (js "base_url", base_url_or VNull formData);
    same (js "key"); nul (js "openai_organization"); same (js "models");
    (js "group", VStr (formatGroups (at_ (js "group") formData))); nul (js "model_mapping");
    nul (js "priority"); nul (js "weight"); nul (js "test_model");
    (js "auto_ban", vnullish (at_ (js "auto_ban") formData) (int 1)); same (js "status");
    nul (js "status_code_mapping"); nul (js "tag"); or_empty (js "remark") formData;
    (js "setting", VStr (buildSettingJSON formData)); nul (js "param_override");
    nul (js "header_override"); (js "settings", VStr settings); or_empty (js "other") formData ].

Definition transformFormDataToCreatePayload (formData : obj) : outcome CreatePayload :=
  let md := or_text (js "multi_key_mode") (js "single") formData in
  let! settings := buildSettingsJSON formData in
  Return {| mode := md;
            multi_key_mode := if is_str (js "multi_to_single") md
                              then at_ (js "multi_key_type") formData else VUndef;
            batch_add_set_key_prefix_2_name :=
              if is_str (js "batch") md
              then at_ (js "batch_add_set_key_prefix_2_name") formData else VUndef;
            channel := empties_to_null (create_channel formData settings) |}.

Definition update_base (formData : obj) (channelId : num) (settings : jsstr) : obj :=
  let same k := (k, at_ k formData) in
  let nul k := or_null k formData in
  obj_of
  [ (js "id", VNum channelId); same (js "name"); same (js "type");
    (js "base_url", base_url_or VNull formData); nul (js "openai_organization");
    same (js "models"); (js "group", VStr (formatGroups (at_ (js "group") formData)));
    nul (js "model_mapping"); (js "priority", vnullish (at_ (js "priority") formData) (int 0));
    (js "weight", vnullish (at_ (js "weight") formData) (int 0)); nul (js "test_model");
    (js "auto_ban", vnullish (at_ (js "auto_ban") formData) (int 1)); same (js "status");
    nul (js "status_code_mapping"); nul (js "tag"); or_empty (js "remark") formData;
    (js "setting", VStr (buildSettingJSON formData)); nul (js "param_override");
    nul (js "header_override"); (js "settings", VStr settings); or_empty (js "other") formData ].

(** The nullable fields, sent as empty strings so that the update can clear them. *)
Definition clearable : list jsstr :=
  [ js "openai_organization"; js "test_model"; js "tag"; js "remark"; js "model_mapping";
    js "status_code_mapping"; js "param_override"; js "header_override" ].

Definition transformFormDataToUpdatePayload (formData : obj) (channelId : num) : outcome obj :=
  let! settings := buildSettingsJSON formData in
  let payload := update_base formData channelId settings in
  let key := at_ (js "key") formData in
  let with_key :=
    if truthy key && truthy_str (trim (to_string key)) then oset (js "key") key payload
    else payload in
  let cleaned := empties_to_null with_key in
  let p1 := oset (js "base_url") (base_url_or (str "") formData) cleaned in
  Return (fold_left (fun p k => oset k (or_text k [] formData) p) clearable p1).

(** ** Theorems: the stored settings *)

Lemma oget_gate k c j v o :
  oget k (gate c j v o) = if bool_decide (k = j) then (if c then Some v else None) else oget k o.
Proof.
  unfold gate. destruct c; [apply oget_oset|].
  destruct (ohas j o) eqn:E; [apply oget_odel|]. case_bool_decide; subst; [|done].
  unfold ohas in E. by destruct (oget j o).
Qed.

Lemma oget_drop k j o :
  oget k (drop j o) = if bool_decide (k = j) then None else oget k o.
Proof.
  unfold drop. destruct (ohas j o) eqn:E; [apply oget_odel|]. case_bool_decide; subst; [|done].
  unfold ohas in E. by destruct (oget j o).
Qed.

Lemma is_num_spec n v : is_num n v = true -> exists x, v = VNum x /\ neqb x (num_of_Z n) = true.
Proof. destruct v; try done. eauto. Qed.

(** Whether the settings of a channel type have a key, and its value. *)
Definition type_rule (formData : obj) (k : jsstr) : option jsval :=
  let type := at_ (js "type") formData in
  let rule (c : bool) (v : jsval) := if c then Some v else None in
  if bool_decide (k = js "vertex_key_type")
  then rule (is_num 41 type) (or_text (js "vertex_key_type") (js "json") formData)
  else if bool_decide (k = js "azure_responses_version")
  then rule (is_num 3 type && truthy (at_ (js "azure_responses_version") formData))
         (at_ (js "azure_responses_version") formData)
  else if bool_decide (k = js "openrouter_enterprise")
  then rule (is_num 20 type) (checked (js "is_enterprise_account") formData)
  else if bool_decide (k = js "aws_key_type")
  then rule (is_num 33 type) (or_text (js "aws_key_type") (js "ak_sk") formData)
  else if bool_decide (k ∈ [js "allow_service_tier"; js "allow_inference_geo"])
  then rule (is_num 1 type || is_num 14 type) (checked k formData)
  else if bool_decide (k ∈ [js "disable_store"; js "allow_safety_identifier";
                            js "allow_include_obfuscation"])
  then rule (is_num 1 type) (checked k formData)
  else rule (is_num 14 type) (checked k formData).

Definition type_list : list jsstr :=
  [ js "vertex_key_type"; js "azure_responses_version"; js "openrouter_enterprise";
    js "aws_key_type" ].

Definition passthrough_list : list jsstr :=
  [ js "allow_service_tier"; js "allow_inference_geo"; js "disable_store";
    js "allow_safety_identifier"; js "allow_include_obfuscation"; js "allow_speed";
    js "claude_beta_query" ].

Definition gated_keys : list jsstr := type_list ++ passthrough_list.

Definition upstream_key_list : list jsstr :=
  [ js "upstream_model_update_check_enabled"; js "upstream_model_update_auto_sync_enabled";
    js "upstream_model_update_ignored_models"; js "upstream_model_update_last_detected_models";
    js "upstream_model_update_last_check_time" ].

Lemma oget_upstream k formData o :
  k ∉ upstream_key_list -> oget k (upstream_keys formData o) = oget k o.
Proof.
  unfold upstream_key_list. rewrite !not_elem_of_cons. intros (H1 & H2 & H3 & H4 & H5 & _).
  unfold upstream_keys. destruct (is_one_of _ _); [|done].
  cbv zeta. destruct (negb (is_array _) || _), (negb (is_number _));
    rewrite !oget_oset_ne by assumption; reflexivity.
Qed.

(** For a key of the table, every comparison is between constants. *)
Ltac settings_calc :=
  rewrite ?oget_oset, ?oget_drop, ?oget_gate; key_calc; try reflexivity.

Lemma oget_type_keys k formData o :
  oget k (type_keys formData o)
  = if bool_decide (k ∈ type_list) then type_rule formData k else oget k o.
Proof.
  unfold type_list. case_bool_decide as Hk.
  - rewrite !elem_of_cons in Hk. unfold type_keys, type_rule.
    destruct Hk as [-> |[-> |[-> |[-> |[]%elem_of_nil] ] ] ]; settings_calc.
  - rewrite !not_elem_of_cons in Hk. destruct Hk as (H1 & H2 & H3 & H4 & _).
    unfold type_keys. by rewrite !oget_gate, !bool_decide_eq_false_2 by assumption.
Qed.

(** A conditional deletion is a deletion: an absent key stays absent. *)
Lemma oget_if_del k c j o :
  oget k (if negb c && ohas j o then odel j o else o)
  = if bool_decide (k = j) && negb c then None else oget k o.
Proof.
  destruct c; cbn [negb andb]; [by rewrite andb_false_r|]. rewrite andb_true_r.
  destruct (ohas j o) eqn:E; [apply oget_odel|]. case_bool_decide; subst; [|done].
  unfold ohas in E. by destruct (oget j o).
Qed.

Lemma oget_passthrough k formData o :
  oget k (passthrough_keys formData o)
  = if bool_decide (k ∈ passthrough_list) then type_rule formData k else oget k o.
Proof.
  unfold passthrough_keys, passthrough_list. case_bool_decide as Hk.
  - rewrite !elem_of_cons in Hk. unfold type_rule.
    destruct (is_num 1 (at_ (js "type") formData)), (is_num 14 (at_ (js "type") formData));
      cbn [orb];
      destruct Hk as [-> |[-> |[-> |[-> |[-> |[-> |[-> |[]%elem_of_nil] ] ] ] ] ] ];
      rewrite ?oget_oset, ?oget_drop, ?oget_if_del, ?oget_oset, ?oget_drop, ?oget_gate; key_calc;
      try reflexivity.
  - rewrite !not_elem_of_cons in Hk. destruct Hk as (H1 & H2 & H3 & H4 & H5 & H6 & H7 & _).
    destruct (is_num 1 (at_ (js "type") formData)), (is_num 14 (at_ (js "type") formData));
      rewrite ?oget_oset, ?oget_drop, ?oget_if_del, ?oget_oset, ?oget_drop, ?oget_gate;
      rewrite !bool_decide_eq_false_2 by assumption; reflexivity.
Qed.

Lemma gated_not_upstream k : k ∈ gated_keys -> k ∉ upstream_key_list.
Proof.
  intros Hk.
  assert (Hd : forallb (fun x => negb (bool_decide (x ∈ upstream_key_list))) gated_keys = true)
    by vm_cast_no_check (eq_refl true).
  rewrite forallb_elem in Hd. specialize (Hd k Hk).
  by rewrite negb_true_iff, bool_decide_eq_false in Hd.
Qed.

Lemma oget_settings k formData o :
  k ∉ upstream_key_list ->
  oget k (settings_obj formData o)
  = if bool_decide (k ∈ gated_keys) then type_rule formData k else oget k o.
Proof.
  intros Hu. unfold settings_obj. rewrite oget_upstream, oget_passthrough, oget_type_keys by done.
  unfold gated_keys. repeat case_bool_decide; rewrite elem_of_app in *; tauto.
Qed.

(** The models never to be offered: the distinct names of the field, without the blank ones. *)
Definition ignored_names (formData : obj) : list jsstr :=
  uniq (filter_truthy (trim <$> split_char 44
    (to_string (or_text (js "upstream_model_update_ignored_models") [] formData)))).

(** The five keys of the upstream model update, of a channel whose models can be fetched: the
    two switches and the ignored models are the form's, the models last detected stay while
    the check is on, and the time of the last check stays. *)
Definition upstream_rule (formData o : obj) (k : jsstr) : option jsval :=
  let check := is_true (at_ (js "upstream_model_update_check_enabled") formData) in
  if bool_decide (k = js "upstream_model_update_check_enabled") then Some (VBool check)
  else if bool_decide (k = js "upstream_model_update_auto_sync_enabled")
  then Some (VBool (check && is_true (at_ (js "upstream_model_update_auto_sync_enabled") formData)))
  else if bool_decide (k = js "upstream_model_update_ignored_models")
  then Some (VArr (VStr <$> ignored_names formData))
  else if bool_decide (k = js "upstream_model_update_last_detected_models")
  then let stored := at_ (js "upstream_model_update_last_detected_models") o in
       Some (if check && is_array stored then stored else VArr [])
  else let stored := at_ (js "upstream_model_update_last_check_time") o in
       Some (if is_number stored then stored else int 0).

(** The value of every key of the settings. *)
Definition settings_rule (formData o : obj) (k : jsstr) : option jsval :=
  if bool_decide (k ∈ gated_keys) then type_rule formData k
  else if bool_decide (k ∈ upstream_key_list) && is_one_of MODEL_FETCHABLE_TYPES (at_ (js "type") formData)
  then upstream_rule formData o k
  else oget k o.

Lemma is_true_bool b : is_true (VBool b) = b.
Proof. by destruct b. Qed.

Lemma oget_if_set k (c : bool) j d o :
  oget k (if c then oset j d o else o) = if bool_decide (k = j) && c then Some d else oget k o.
Proof. destruct c; [by rewrite oget_oset, andb_true_r|by rewrite andb_false_r]. Qed.

Lemma oget_upstream_key k formData o :
  k ∈ upstream_key_list -> is_one_of MODEL_FETCHABLE_TYPES (at_ (js "type") formData) = true ->
  oget k (upstream_keys formData o) = upstream_rule formData o k.
Proof.
  unfold upstream_key_list. rewrite !elem_of_cons. intros Hk Ht. unfold upstream_keys, upstream_rule. rewrite Ht.
  cbv zeta. rewrite !at_oget. unfold checked, ignored_names.
  destruct Hk as [-> |[-> |[-> |[-> |[-> |[]%elem_of_nil] ] ] ] ];
    repeat (rewrite ?oget_if_set, ?oget_oset; key_calc; cbn [andb from_option id]); rewrite ?is_true_bool;
    unfold id; try reflexivity.
  - rewrite at_oget. unfold id.
    destruct (oget (js "upstream_model_update_last_detected_models") o) as [v|]; cbn [from_option];
      [destruct (is_array v)|]; by destruct (is_true _).
  - destruct (oget (js "upstream_model_update_last_check_time") o) as [v|]; cbn [from_option]; [|done].
    by destruct (is_number v).
Qed.

(** The keys of the update are no keys of a type, and keep their values until they are set. *)
Lemma oget_before_upstream k formData o :
  k ∈ upstream_key_list -> oget k (passthrough_keys formData (type_keys formData o)) = oget k o.
Proof.
  intros Hk. assert (Hg : k ∉ gated_keys) by (intros H; by apply gated_not_upstream in H).
  unfold gated_keys in Hg. rewrite elem_of_app in Hg.
  rewrite oget_passthrough, oget_type_keys, !bool_decide_eq_false_2 by tauto. done.
Qed.

Lemma upstream_rule_before formData o k :
  upstream_rule formData (passthrough_keys formData (type_keys formData o)) k = upstream_rule formData o k.
Proof.
  unfold upstream_rule. set (o' := passthrough_keys _ _).
  assert (H1 : oget (js "upstream_model_update_last_detected_models") o'
               = oget (js "upstream_model_update_last_detected_models") o).
  { apply oget_before_upstream. do 3 apply list_elem_of_further. apply list_elem_of_here. }
  assert (H2 : oget (js "upstream_model_update_last_check_time") o'
               = oget (js "upstream_model_update_last_check_time") o).
  { apply oget_before_upstream. do 4 apply list_elem_of_further. apply list_elem_of_here. }
  clearbody o'. rewrite !at_oget, H1, H2. reflexivity.
Qed.

Lemma oget_settings_rule k formData o : oget k (settings_obj formData o) = settings_rule formData o k.
Proof.
  unfold settings_rule. case_bool_decide as Hg.
  { rewrite oget_settings by by apply gated_not_upstream. by rewrite bool_decide_eq_true_2. }
  case_bool_decide as Hu; cbn [andb]; [|by rewrite oget_settings, bool_decide_eq_false_2].
  unfold settings_obj. destruct (is_one_of _ _) eqn:Ht.
  - by rewrite oget_upstream_key, upstream_rule_before.
  - unfold upstream_keys. rewrite Ht. by apply oget_before_upstream.
Qed.

(** C14. The settings written for a channel, key by key: the type-specific keys are exactly
    those its type allows, with the values of the form ([type_rule]); of a channel whose models
    can be fetched the five keys of the upstream update are those of [upstream_rule], with
    automatic sync on only together with the check and nothing detected kept while it is off;
    every other key is as it was stored, the update keys of the other types too.  Settings
    stored as an array are written unchanged, and null or a primitive value throws. *)
Theorem settings_gated formData :
  match existing_settings formData with
  | VObj o => exists o', buildSettingsJSON formData = Return (ser (VObj o'))
      /\ forall k, oget k o' = settings_rule formData o k
  | VArr l => buildSettingsJSON formData = Return (ser (VArr l))
  | _ => buildSettingsJSON formData = Throw
  end.
Proof.
  unfold buildSettingsJSON. destruct (existing_settings formData) as [| | | | |l|o]; try done.
  exists (settings_obj formData o). split; [done|]. intros k. apply oget_settings_rule.
Qed.

(** ** Theorems: checked settings never throw *)

Lemma checked_object s :
  isOptionalJsonObject (VStr s) = true ->
  json_parse s = None \/ exists o, json_parse s = Some (VObj o).
Proof.
  unfold isOptionalJsonObject, parseOptionalJson. cbn [to_string trim_opt].
  destruct (truthy_str (trim s)) eqn:Et; cbn [negb].
  - destruct (json_parse s) as [v|] eqn:Ep; [|by left]. cbn [or_throw obind catch].
    pose proof (json_parse_defined s v Ep). destruct v; try done. right. by eexists.
  - intros _. left. apply json_parse_blank, trim_nil.
    destruct (trim s) as [|c t]; [reflexivity|discriminate Et].
Qed.

Lemma existing_settings_checked formData s :
  at_ (js "settings") formData = VStr s -> isOptionalJsonObject (VStr s) = true ->
  exists o, existing_settings formData = VObj o.
Proof.
  intros Hs H. unfold existing_settings. rewrite Hs.
  destruct (truthy (VStr s) && negb (is_str (js "{}") (VStr s))); [|by eexists].
  cbn [to_string]. destruct (checked_object s H) as [-> |[o ->] ]; by eexists.
Qed.

(** A form that passed the check of its settings text can be saved: neither payload
    throws.  Without the check they can: the text of null makes both throw. *)
Theorem checked_form_saves formData s id :
  at_ (js "settings") formData = VStr s -> isOptionalJsonObject (VStr s) = true ->
  (exists p, transformFormDataToCreatePayload formData = Return p)
  /\ (exists p, transformFormDataToUpdatePayload formData id = Return p).
Proof.
  intros Hs H. destruct (existing_settings_checked formData s Hs H) as [o Ho].
  unfold transformFormDataToCreatePayload, transformFormDataToUpdatePayload, buildSettingsJSON.
  rewrite Ho. split; eexists; reflexivity.
Qed.

Lemma checked_form_saves_witness :
  exists p, transformFormDataToUpdatePayload CHANNEL_FORM_DEFAULT_VALUES (num_of_Z 7) = Return p.
Proof.
  apply (checked_form_saves CHANNEL_FORM_DEFAULT_VALUES (js "{}") (num_of_Z 7));
    vm_compute; reflexivity.
Defined.

Lemma unchecked_null_throws :
  transformFormDataToCreatePayload
    (oset (js "settings") (str "null") CHANNEL_FORM_DEFAULT_VALUES) = Throw.
Proof. vm_compute. reflexivity. Qed.

(** ** Theorems: the extra settings *)

(** A value of the type of its default: a boolean, or a string, or not there. *)
Definition same_kind (v d : jsval) : bool :=
  match v, d with
  | VUndef, _ => true
  | VBool _, VBool _ => true
  | VStr _, VStr _ => true
  | _, _ => false
  end.

Definition typed_extras (formData : obj) : bool :=
  forallb (fun '(k, d) => same_kind (at_ k formData) d) extra_keys.

(** A default: false or the empty string. *)
Definition is_default (d : jsval) : Prop := d = VBool false \/ d = VStr [].

Lemma vor_kind v d :
  same_kind v d = true -> is_default d ->
  json_ok (vor v d) /\ vor (vor v d) d = vor v d.
Proof.
  intros Hk [-> | ->]; destruct v as [| |b| |s| |]; try discriminate; try (by split).
  - by destruct b.
  - by destruct s.
Qed.

Lemma extra_keys_default : Forall (fun kd => is_default (snd kd)) extra_keys.
Proof. unfold extra_keys, is_default. repeat (constructor; [cbn; auto|]). constructor. Qed.

Lemma extra_keys_NoDup : NoDup (okeys extra_keys).
Proof. by apply (bool_decide_unpack (NoDup _)). Qed.

Lemma okeys_pairs (f : jsstr -> jsval -> jsval) (l : list (jsstr * jsval)) :
  okeys ((fun '(k, d) => (k, f k d)) <$> l) = okeys l.
Proof. unfold okeys. rewrite <- list_fmap_compose. apply list_fmap_ext. by intros i [k d] _. Qed.

Lemma oget_pairs (f : jsstr -> jsval -> jsval) (l : list (jsstr * jsval)) k d :
  NoDup (okeys l) -> (k, d) ∈ l -> oget k ((fun '(k, d) => (k, f k d)) <$> l) = Some (f k d).
Proof.
  induction l as [|[j e] l IH]; intros Hnd Hin; [by apply not_elem_of_nil in Hin|].
  cbn [okeys fmap list_fmap fst] in Hnd. apply NoDup_cons in Hnd as [Hj Hnd].
  cbn [fmap list_fmap oget]. apply elem_of_cons in Hin as [[= -> ->]|Hin].
  - by rewrite bool_decide_eq_true_2.
  - rewrite bool_decide_eq_false_2; [by apply IH|]. intros ->. apply Hj.
    apply list_elem_of_fmap. by exists (k, d).
Qed.

Lemma setting_text_parses formData :
  typed_extras formData = true ->
  parsed_settings (VStr (buildSettingJSON formData)) = Some (VObj (obj_of (setting_obj formData))).
Proof.
  intros Ht. unfold parsed_settings, buildSettingJSON.
  assert (Hok : json_ok (VObj (obj_of (setting_obj formData)))).
  { apply json_ok_obj. split; [apply canonical_obj_of|]. apply Forall_forall. intros [k v] Hkv.
    assert (Hg : oget k (obj_of (setting_obj formData)) = Some v).
    { apply oget_canonical_elem; [apply canonical_obj_of|done]. }
    rewrite oget_obj_of in Hg by (unfold setting_obj; rewrite okeys_pairs; apply extra_keys_NoDup).
    apply oget_Some_elem in Hg. unfold setting_obj in Hg.
    apply list_elem_of_fmap in Hg as ([k' d] & [= -> ->] & Hin).
    unfold typed_extras in Ht. rewrite forallb_elem in Ht. specialize (Ht _ Hin). cbn in Ht.
    pose proof extra_keys_default as Hd. rewrite Forall_forall in Hd. specialize (Hd _ Hin).
    by apply (vor_kind _ _ Ht Hd). }
  replace (truthy (VStr (ser (VObj (obj_of (setting_obj formData)))))) with true.
  - cbn [negb to_string]. by rewrite json_parse_ser.
  - symmetry. cbn [truthy]. apply truthy_str_spec. by cbn [ser].
Qed.

Lemma form_entry channel k v :
  (k, v) ∈ extra_settings (parsed_settings (at_ (js "setting") channel)) ->
  at_ k (transformChannelToFormDefaults channel) = v.
Proof.
  intros Hin. unfold transformChannelToFormDefaults. cbv zeta.
  match goal with |- at_ k (obj_of ?l) = _ =>
    assert (Hl : NoDup (okeys l)) by
      (apply (bool_decide_unpack (NoDup _)); vm_cast_no_check I) end.
  rewrite at_oget, oget_obj_of by done. erewrite oget_elem; [reflexivity|done|].
  rewrite !elem_of_app. right. left. exact Hin.
Qed.

(** The extra settings of a channel survive storage: a channel whose [setting] is the
    text written for a form shows in its form the values of that form, an absent one as
    its default. *)
Theorem extra_settings_roundtrip formData channel :
  typed_extras formData = true ->
  at_ (js "setting") channel = VStr (buildSettingJSON formData) ->
  forall k d, (k, d) ∈ extra_keys ->
  at_ k (transformChannelToFormDefaults channel) = vor (at_ k formData) d.
Proof.
  intros Ht Hs k d Hin. apply form_entry. rewrite Hs, setting_text_parses by done.
  unfold extra_settings. apply list_elem_of_fmap. exists (k, d). split; [|done]. f_equal.
  unfold prop. rewrite oget_obj_of by (unfold setting_obj; rewrite okeys_pairs; apply extra_keys_NoDup).
  unfold setting_obj. rewrite (oget_pairs (fun k d => vor (at_ k formData) d)) with (d := d)
    by auto using extra_keys_NoDup.
  cbn [from_option id]. symmetry. apply vor_kind.
  - unfold typed_extras in Ht. rewrite forallb_elem in Ht. exact (Ht _ Hin).
  - pose proof extra_keys_default as Hd. rewrite Forall_forall in Hd. exact (Hd _ Hin).
Qed.

Definition sample_form : obj :=
  oset (js "proxy") (str "socks5://127.0.0.1:1080")
    (oset (js "force_format") (VBool true) CHANNEL_FORM_DEFAULT_VALUES).

Lemma extra_settings_roundtrip_witness :
  at_ (js "proxy")
    (transformChannelToFormDefaults [(js "setting", VStr (buildSettingJSON sample_form))])
  = str "socks5://127.0.0.1:1080".
Proof.
  rewrite (extra_settings_roundtrip sample_form
    [(js "setting", VStr (buildSettingJSON sample_form))]) with (d := str "");
    [vm_compute; reflexivity|vm_compute; reflexivity|reflexivity|].
  unfold extra_keys. do 2 apply list_elem_of_further. apply list_elem_of_here.
Defined.

(** ** Theorems: payloads *)

Lemma oget_empties k o :
  oget k (empties_to_null o) = (fun v => if is_str [] v then VNull else v) <$> oget k o.
Proof.
  unfold empties_to_null. induction o as [|[j w] o IH]; [done|]. cbn [fmap list_fmap oget].
  case_bool_decide; [done|exact IH].
Qed.

Lemma is_str_spec s v : is_str s v = true <-> v = VStr s.
Proof.
  destruct v; simpl; try (split; done). rewrite bool_decide_eq_true. split; congruence.
Qed.

Lemma empties_no_empty k v o : oget k (empties_to_null o) = Some v -> v <> VStr [].
Proof.
  rewrite oget_empties. destruct (oget k o) as [w|]; [|done]. cbn. intros [= <-].
  destruct (is_str [] w) eqn:E; [done|]. intros ->. discriminate E.
Qed.

Lemma oget_fold_oset k (g : jsstr -> jsval) ks o :
  oget k (fold_left (fun p j => oset j (g j) p) ks o)
  = if bool_decide (k ∈ ks) then Some (g k) else oget k o.
Proof.
  revert o; induction ks as [|j ks IH]; intros o; [done|]. cbn [fold_left]. rewrite IH, oget_oset.
  destruct (decide (k = j)) as [->|Hne].
  - rewrite (bool_decide_eq_true_2 (j = j)) by done.
    rewrite (bool_decide_eq_true_2 (j ∈ j :: ks)) by set_solver. by case_bool_decide.
  - rewrite (bool_decide_eq_false_2 (k = j)) by done.
    by rewrite (bool_decide_ext (k ∈ j :: ks) (k ∈ ks)) by set_solver.
Qed.

Lemma update_base_no_key formData id settings : oget (js "key") (update_base formData id settings) = None.
Proof.
  unfold update_base. cbv zeta.
  match goal with |- oget _ (obj_of ?l) = _ =>
    assert (Hl : NoDup (okeys l)) by (apply (bool_decide_unpack (NoDup _)); vm_cast_no_check I);
    assert (Hk : js "key" ∉ okeys l) by (apply (bool_decide_unpack (_ ∉ _)); vm_cast_no_check I)
  end.
  rewrite oget_obj_of by done. by apply oget_None_okeys.
Qed.

Lemma clearable_facts :
  js "base_url" ∉ clearable /\ js "key" ∉ clearable /\ js "key" <> js "base_url".
Proof.
  split; [|split]; [apply (bool_decide_unpack (_ ∉ _))..|apply (bool_decide_unpack (_ <> _))];
    vm_cast_no_check I.
Qed.

(** [key && key.trim()] *)
Definition key_given (formData : obj) : bool :=
  truthy (at_ (js "key") formData) && truthy_str (trim (to_string (at_ (js "key") formData))).

(** The update payload can clear what the form left empty: each nullable field is sent,
    as the text of the form or the empty string; the key is sent only when a new one was
    typed; and no other field is sent as an empty string. *)
Theorem update_payload_clears formData id p :
  transformFormDataToUpdatePayload formData id = Return p ->
  (forall k, k ∈ clearable -> oget k p = Some (or_text k [] formData))
  /\ oget (js "base_url") p = Some (base_url_or (str "") formData)
  /\ oget (js "key") p = (if key_given formData then Some (at_ (js "key") formData) else None)
  /\ (forall k v, k ∉ js "base_url" :: clearable -> oget k p = Some v -> v <> VStr []).
Proof.
  unfold transformFormDataToUpdatePayload. destruct (buildSettingsJSON formData) as [settings|]; [|done].
  cbn [obind]. fold (key_given formData). intros E%Return_inj. rewrite <- E. clear E p.
  destruct clearable_facts as (Hb & Hk & Hkb).
  rewrite !(oget_fold_oset _ (fun k => or_text k [] formData)).
  split; [|split; [|split]].
  - intros k Hin. by rewrite (oget_fold_oset _ (fun k => or_text k [] formData)), bool_decide_eq_true_2.
  - by rewrite bool_decide_eq_false_2, oget_oset_eq.
  - rewrite bool_decide_eq_false_2, oget_oset_ne, oget_empties by done.
    destruct (key_given formData) eqn:E.
    + rewrite oget_oset_eq. cbn [fmap option_fmap option_map].
      destruct (is_str [] (at_ (js "key") formData)) eqn:Es; [|done].
      apply is_str_spec in Es. unfold key_given in E. by rewrite Es in E.
    + by rewrite update_base_no_key.
  - intros k v Hin. apply not_elem_of_cons in Hin as [Hne Hin].
    rewrite (oget_fold_oset _ (fun k => or_text k [] formData)), bool_decide_eq_false_2 by done.
    rewrite oget_oset_ne by done. apply empties_no_empty.
Qed.

Definition sample_update : obj := Eval vm_compute in
  match transformFormDataToUpdatePayload sample_form (num_of_Z 7) with
  | Return p => p
  | Throw => []
  end.

Lemma update_payload_clears_witness :
  oget (js "tag") sample_update = Some (or_text (js "tag") [] sample_form)
  /\ oget (js "key") sample_update = None.
Proof.
  destruct (update_payload_clears sample_form (num_of_Z 7) sample_update) as (H & _ & Hk & _);
    [vm_compute; reflexivity|]. split; [|rewrite Hk; vm_compute; reflexivity].
  apply H. apply (bool_decide_unpack (_ ∈ _)). vm_compute. exact I.
Defined.

(** The create payload never holds an empty string, and offers the multi-key type and
    the name prefix only in the mode that uses them. *)
Theorem create_payload_spec formData p :
  transformFormDataToCreatePayload formData = Return p ->
  (forall k v, oget k (channel p) = Some v -> v <> VStr [])
  /\ (is_str (js "multi_to_single") (mode p) = false -> multi_key_mode p = VUndef)
  /\ (is_str (js "batch") (mode p) = false -> batch_add_set_key_prefix_2_name p = VUndef)
  /\ truthy (mode p) = true.
Proof.
  unfold transformFormDataToCreatePayload. destruct (buildSettingsJSON formData) as [settings|]; [|done].
  cbn [obind]. intros E%Return_inj. rewrite <- E. clear E p. cbn [channel mode multi_key_mode batch_add_set_key_prefix_2_name].
  split; [intros k v; apply empties_no_empty|]. split; [by intros ->|]. split; [by intros ->|].
  unfold or_text, vor. destruct (truthy (at_ _ _)) eqn:E; [exact E|by vm_compute].
Qed.

Definition sample_create : CreatePayload := Eval vm_compute in
  match transformFormDataToCreatePayload sample_form with
  | Return p => p
  | Throw => {| mode := VUndef; multi_key_mode := VUndef;
                batch_add_set_key_prefix_2_name := VUndef; channel := [] |}
  end.

Lemma create_payload_spec_witness :
  multi_key_mode sample_create = VUndef /\ truthy (mode sample_create) = true.
Proof.
  destruct (create_payload_spec sample_form sample_create) as (_ & H & _ & Ht);
    [vm_compute; reflexivity|]. split; [apply H; vm_compute; reflexivity|exact Ht].
Defined.

(** ** Theorems: base addresses *)

(** A base address is sent without white space around it and without a slash at its
    end: what is removed from the trimmed text is all of its last run of slashes. *)
Theorem base_url_normalized value :
  exists slashes,
    trim (to_string (vor value (str ""))) = normalizeBaseUrl value ++ slashes
    /\ Forall (fun c => c = 47) slashes
    /\ last (normalizeBaseUrl value) <> Some 47.
Proof.
  unfold normalizeBaseUrl, replace_first. set (s := trim _).
  change re_trailing_slashes with (RSeq (RSeq (RLit [47]) (RStar true (RLit [47]))) REol).
  set (P := RSeq (RLit [47]) _). destruct (find_from (RSeq P REol) [] s) as [[s0 s1]|] eqn:E.
  - apply find_from_first in E as (u & v & Hs & -> & Hm & Hf). rewrite Hs.
    rewrite (match_at_eol_rest _ _ _ Hm), app_nil_r, app_nil_r. cbn [rest].
    rewrite length_app. replace (length u + length v - length v)%nat with (length u) by lia.
    rewrite take_app_length. exists v. split; [done|].
    assert (Hv : lang P v) by (by apply (match_at_eol P (reverse u ++ [])); [|rewrite Hm]).
    apply lang_plus_unit in Hv as [Hvne Hv]. split; [done|]. intros Hl.
    apply last_snoc_inv in Hl as [k ->].
    pose proof (Hf k [47] eq_refl ltac:(done)) as Hn.
    assert (Hc : lang P ([47] ++ v)) by (apply lang_plus_unit; split; [done|]; by constructor).
    apply (match_at_eol P (reverse k ++ [])) in Hc; [|done]. by rewrite Hn in Hc.
  - exists []. rewrite app_nil_r. split; [done|]. split; [done|]. intros Hl.
    apply last_snoc_inv in Hl as [k Hk]. rewrite Hk in E. apply find_from_fails_at in E.
    assert (Hc : lang P [47]) by (apply lang_plus_unit; split; [done|]; by constructor).
    apply (match_at_eol P (reverse k ++ [])) in Hc; [|done]. by rewrite E in Hc.
Qed.

(** ** Theorems: the checks of the schema *)

Lemma flagged (c : bool) (i : Issue) : (if c then [i] else []) = [] <-> c = false.
Proof. by destruct c. Qed.

Lemma guarded (c : bool) (l : list Issue) : (if c then l else []) = [] <-> (c = true -> l = []).
Proof. destruct c; naive_solver. Qed.

Lemma andb_guard a b : a && b = false <-> (a = true -> b = false).
Proof. destruct a; naive_solver. Qed.

(** The cross-field checks find nothing wrong exactly when the types that need a base
    address or additional configuration have it, a Codex channel has one credential of the
    right form and is not a batch, and a Vertex AI channel has a JSON key or is no batch. *)
Theorem super_issues_none data :
  let type := at_ (js "type") data in
  let key := at_ (js "key") data in
  let vertex := at_ (js "vertex_key_type") data in
  super_issues data = [] <->
  (is_one_of [3; 8; 36; 45]%Z type = true -> blank_opt (at_ (js "base_url") data) = false)
  /\ (is_one_of [3; 18; 21; 39; 41; 49]%Z type = true -> blank_opt (at_ (js "other") data) = false)
  /\ (is_num 57 type = true ->
        batch_mode data = false /\ (blank_opt key = true \/ isCodexCredential key = true))
  /\ (is_num 41 type = true -> is_str (js "json") vertex = true ->
        blank_opt key = true \/ isVertexJsonKey key = true)
  /\ (is_num 41 type = true -> is_str (js "api_key") vertex = true -> batch_mode data = false).
Proof.
  cbv zeta. unfold super_issues. rewrite !app_nil, !flagged, guarded, app_nil, !flagged.
  rewrite <- !andb_assoc, !andb_guard, !negb_false_iff. split.
  - intros (H1 & H2 & H3 & H4 & H5). split; [done|]. split; [done|]. split; [|split; [|done]].
    + intros H. destruct (H3 H) as [Hb Hk]. split; [done|].
      destruct (blank_opt (at_ (js "key") data)) eqn:Ek; [by left|]. right. by apply Hk.
    + intros H Hj. destruct (blank_opt (at_ (js "key") data)) eqn:Ek; [by left|]. right. by apply H4.
  - intros (H1 & H2 & H3 & H4 & H5). split; [done|]. split; [done|]. split; [|split; [|done]].
    + intros H. destruct (H3 H) as [Hb Hk]. split; [done|]. intros Hn. destruct Hk as [E|E]; [by rewrite E in Hn|done].
    + intros H Hj Hn. destruct (H4 H Hj) as [E|E]; [by rewrite E in Hn|done].
Qed.
