(* ===== verification/PlaygroundMessages.v ===== *)
(** * Playground messages ([features/playground/lib/message-utils.ts], [types.ts],
      [constants.ts])

    The messages of the chat playground and the functions that build them, read the
    [<think>] blocks of a model's answer, and move a message from loading through
    streaming to complete or error.

    [nanoid] is a library that gives a new name at each call; the functions that create
    messages take the names as arguments. *)

From S2P Require Import Prelude JsString JsNumber JsValue.

#[local] Open Scope N_scope.

(** ** Data *)

Inductive MessageRole := user | assistant | system.
Inductive MessageStatus := loading | streaming | complete | error.

#[export] Instance role_eq_dec : EqDecision MessageRole.
Proof. solve_decision. Defined.
#[export] Instance status_eq_dec : EqDecision MessageStatus.
Proof. solve_decision. Defined.

Record MessageVersion := { version_id : option jsstr; content : jsstr }.

Record Reasoning := { reasoning_content : jsstr; duration : num }.

Record Message := {
  message_key : jsstr;
  from : MessageRole;
  versions : list MessageVersion;
  sources : option (list (jsstr * jsstr));
  reasoning : option Reasoning;
  isReasoningStreaming : option bool;
  isReasoningComplete : option bool;
  isContentComplete : option bool;
  status : option MessageStatus;
  errorCode : jsval
}.

(** [{ ...m, versions: v }] and the like. *)
Definition with_versions (v : list MessageVersion) (m : Message) : Message :=
  {| message_key := message_key m; from := from m; versions := v; sources := sources m;
     reasoning := reasoning m; isReasoningStreaming := isReasoningStreaming m;
     isReasoningComplete := isReasoningComplete m; isContentComplete := isContentComplete m;
     status := status m; errorCode := errorCode m |}.

Definition with_reasoning (r : option Reasoning) (streaming : bool) (m : Message) : Message :=
  {| message_key := message_key m; from := from m; versions := versions m; sources := sources m;
     reasoning := r; isReasoningStreaming := Some streaming;
     isReasoningComplete := isReasoningComplete m; isContentComplete := isContentComplete m;
     status := status m; errorCode := errorCode m |}.

Definition with_status (s : MessageStatus) (m : Message) : Message :=
  {| message_key := message_key m; from := from m; versions := versions m; sources := sources m;
     reasoning := reasoning m; isReasoningStreaming := isReasoningStreaming m;
     isReasoningComplete := isReasoningComplete m; isContentComplete := isContentComplete m;
     status := Some s; errorCode := errorCode m |}.

Definition with_error (code : jsval) (m : Message) : Message :=
  {| message_key := message_key m; from := from m; versions := versions m; sources := sources m;
     reasoning := reasoning m; isReasoningStreaming := Some false;
     isReasoningComplete := isReasoningComplete m; isContentComplete := isContentComplete m;
     status := Some error; errorCode := code |}.

Definition API_REQUEST_ERROR : jsstr := js "Request error occurred".
Definition PARSE_ERROR : jsstr := js "Error parsing response data".
Definition STREAM_START_ERROR : jsstr := js "Error establishing connection".
Definition CONNECTION_CLOSED : jsstr := js "Connection closed".
Definition INTERRUPTED : jsstr := js "Generation was interrupted".

(** ** Building messages *)

Definition createMessageVersion (nanoid text : jsstr) : MessageVersion :=
  {| version_id := Some nanoid; content := text |}.

Definition getCurrentVersion (message : Message) : MessageVersion :=
  match versions message with
  | v :: _ => v
  | [] => {| version_id := Some (js "default"); content := [] |}
  end.

Definition updateCurrentVersionContent (message : Message) (text : jsstr) : Message :=
  with_versions [{| version_id := version_id (getCurrentVersion message); content := text |}]
    message.

Definition createUserMessage (key_id version_nanoid text : jsstr) : Message :=
  {| message_key := key_id; from := user; versions := [createMessageVersion version_nanoid text];
     sources := None; reasoning := None; isReasoningStreaming := None;
     isReasoningComplete := None; isContentComplete := None; status := None;
     errorCode := VUndef |}.

Definition createLoadingAssistantMessage (key_id version_nanoid : jsstr) : Message :=
  {| message_key := key_id; from := assistant;
     versions := [createMessageVersion version_nanoid []];
     sources := None; reasoning := None; isReasoningStreaming := Some false;
     isReasoningComplete := Some false; isContentComplete := Some false;
     status := Some loading; errorCode := VUndef |}.

Inductive ContentPart :=
  | TextPart (text : option jsstr)
  | ImagePart (url : jsstr).

Inductive ApiContent := Plain (text : jsstr) | Parts (l : list ContentPart).

Definition buildMessageContent (text : jsstr) (imageUrls : list jsstr) : ApiContent :=
  let validImages := filterb (fun url => negb (bool_decide (trim url = []))) imageUrls in
  match validImages with
  | [] => Plain text
  | _ => Parts (TextPart (Some (or_str text [])) :: ((fun url => ImagePart (trim url)) <$> validImages))
  end.

Definition getTextContent (c : ApiContent) : jsstr :=
  match c with
  | Plain text => text
  | Parts l =>
      match find (fun part => match part with TextPart _ => true | ImagePart _ => false end) l with
      | Some (TextPart (Some t)) => t
      | _ => []
      end
  end.

Record ChatCompletionMessage := { role : MessageRole; api_content : ApiContent }.

Definition formatMessageForAPI (message : Message) : ChatCompletionMessage :=
  {| role := from message; api_content := Plain (content (getCurrentVersion message)) |}.

Definition isValidMessage (message : Message) : bool :=
  match versions message with
  | [] => false
  | v :: _ =>
      if bool_decide (from message = assistant) && negb (truthy_str (trim (content v)))
      then false else true
  end.

(** ** Think tags *)

Definition open_tag : jsstr := js "<think>".
Definition close_tag : jsstr := js "</think>".

Record Think := { visibleContent : jsstr; think_reasoning : jsstr; hasUnclosedTag : bool }.

Record ThinkParts := { visible_parts : list jsstr; reasoning_parts : list jsstr; unclosed : bool }.

(** The loop, on the text from [currentPos] on.  Each turn passes over a tag, so the
    length is fuel enough. *)
Fixpoint think_loop (fuel : nat) (s : jsstr) : ThinkParts :=
  match fuel with
  | O => {| visible_parts := []; reasoning_parts := []; unclosed := false |}
  | S f =>
      match index_of open_tag s with
      | None => {| visible_parts := if truthy_str s then [s] else []; reasoning_parts := [];
                   unclosed := false |}
      | Some openPos =>
          let vis := if (0 <? openPos)%nat then [take openPos s] else [] in
          let rest := drop (openPos + 7) s in
          match index_of close_tag rest with
          | None => {| visible_parts := vis; reasoning_parts := [rest]; unclosed := true |}
          | Some closePos =>
              let p := think_loop f (drop (closePos + 8) rest) in
              {| visible_parts := vis ++ visible_parts p;
                 reasoning_parts := take closePos rest :: reasoning_parts p;
                 unclosed := unclosed p |}
          end
      end
  end.

Definition blank_line : jsstr := [10; 10].

Definition parseThinkTags (text : jsstr) : Think :=
  if negb (includes open_tag text)
  then {| visibleContent := text; think_reasoning := []; hasUnclosedTag := false |}
  else
    let p := think_loop (S (length text)) text in
    {| visibleContent := trim (join [] (visible_parts p));
       think_reasoning := trim (join blank_line (reasoning_parts p));
       hasUnclosedTag := unclosed p |}.

(** ** Updates *)

Definition updateLastAssistantMessage (messages : list Message) (updater : Message -> Message)
  : list Message :=
  match reverse messages with
  | [] => messages
  | l :: before =>
      if negb (bool_decide (from l = assistant)) then messages
      else reverse before ++ [updater l]
  end.

Definition error_text (message : jsval) : jsstr := API_REQUEST_ERROR ++ js ": " ++ to_string message.

Definition updateAssistantMessageWithError (messages : list Message) (errorMessage code : jsval)
  : list Message :=
  updateLastAssistantMessage messages (fun message =>
    with_error (vor code VNull)
      (updateCurrentVersionContent message (error_text errorMessage))).

Definition processStreamingContent (message : Message) (contentChunk : option jsstr) : Message :=
  let currentVersion := getCurrentVersion message in
  let fullContent := match contentChunk with
                     | Some ((_ :: _) as c) => content currentVersion ++ c
                     | _ => content currentVersion
                     end in
  let t := parseThinkTags fullContent in
  let finalReasoning :=
    if truthy_str (think_reasoning t)
    then Some {| reasoning_content := think_reasoning t; duration := zero |}
    else reasoning message in
  with_reasoning finalReasoning (hasUnclosedTag t) (updateCurrentVersionContent message fullContent).

Definition reasoning_text (m : Message) : jsstr :=
  match reasoning m with Some r => reasoning_content r | None => [] end.

Definition finalizeMessage (message : Message) (apiReasoningContent : option jsstr) : Message :=
  let t := parseThinkTags (content (getCurrentVersion message)) in
  let finalReasoning :=
    or_str (default [] apiReasoningContent) (or_str (reasoning_text message) (think_reasoning t)) in
  let d := match reasoning message with Some r => or_zero (duration r) | None => zero end in
  with_reasoning
    (if truthy_str finalReasoning
     then Some {| reasoning_content := finalReasoning; duration := d |} else None)
    false (updateCurrentVersionContent message (visibleContent t)).

(** ** Loading *)

(** A message of the assistant that was left loading or streaming. *)
Definition stuck (m : Message) : bool :=
  bool_decide (from m = assistant)
  && (bool_decide (status m = Some loading) || bool_decide (status m = Some streaming)).

(** The loop from the end: the index of the last stuck message. *)
Fixpoint last_stuck (ms : list Message) : option nat :=
  match ms with
  | [] => None
  | m :: t => match last_stuck t with
              | Some i => Some (S i)
              | None => if stuck m then Some O else None
              end
  end.

Definition sanitizeMessage (m : Message) : Message :=
  let finalized := finalizeMessage m None in
  let hasContent := truthy_str (trim (content (getCurrentVersion finalized))) in
  let hasReasoning := truthy_str (trim (reasoning_text finalized)) in
  if hasContent || hasReasoning
  then with_status complete (with_reasoning (reasoning finalized) false finalized)
  else with_status error (with_reasoning (reasoning finalized) false
         (updateCurrentVersionContent finalized (API_REQUEST_ERROR ++ js ": " ++ INTERRUPTED))).

Definition sanitizeMessagesOnLoad (messages : list Message) : list Message :=
  match last_stuck messages with
  | None => messages
  | Some i => match messages !! i with
              | Some m => <[i := sanitizeMessage m]> messages
              | None => messages
              end
  end.

(** ** Theorems: think tags *)

(** No tag starts in a text without [<]. *)
Definition no_angle (s : jsstr) : Prop := 60 ∉ s.

Lemma no_tag_index tag s : no_angle s -> index_of (60 :: tag) s = None.
Proof.
  intros Hs. destruct (index_of (60 :: tag) s) as [i|] eqn:E; [|done]. exfalso.
  apply index_of_Some in E as [(v & Hv) _]. apply Hs, (elem_of_drop_in _ i).
  rewrite Hv. apply list_elem_of_here.
Qed.

Lemma tag_index tag u v :
  no_angle u -> index_of (60 :: tag) (u ++ (60 :: tag) ++ v) = Some (length u).
Proof.
  intros Hu. apply index_of_app. intros j Hj. rewrite drop_app_le by lia.
  destruct (drop j u) as [|c t] eqn:E.
  - apply (f_equal length) in E. rewrite length_drop in E. simpl in E. lia.
  - change (starts_with (60 :: tag) ((c :: t) ++ ?x)) with ((60 =? c) && starts_with tag (t ++ x)).
    destruct (N.eqb_spec 60 c) as [<-|Hc]; [|done]. exfalso. apply Hu.
    apply (elem_of_drop_in _ j). rewrite E. apply list_elem_of_here.
Qed.

(** A text of closed blocks, each after some visible text, and what follows the last. *)
Inductive Ending := visible_end (t : jsstr) | open_end (t r : jsstr).

Definition ending_text (e : Ending) : jsstr :=
  match e with visible_end t => t | open_end t r => t ++ open_tag ++ r end.

Definition ending_ok (e : Ending) : Prop :=
  match e with visible_end t => no_angle t | open_end t r => no_angle t /\ no_angle r end.

Fixpoint blocks_text (bs : list (jsstr * jsstr)) (e : Ending) : jsstr :=
  match bs with
  | [] => ending_text e
  | (v, r) :: t => v ++ open_tag ++ r ++ close_tag ++ blocks_text t e
  end.

Definition visible_of (bs : list (jsstr * jsstr)) (e : Ending) : jsstr :=
  concat (fst <$> bs) ++ match e with visible_end t | open_end t _ => t end.

Definition reasons_of (bs : list (jsstr * jsstr)) (e : Ending) : list jsstr :=
  (snd <$> bs) ++ match e with visible_end _ => [] | open_end _ r => [r] end.

Definition blocks_ok (bs : list (jsstr * jsstr)) (e : Ending) : Prop :=
  Forall (fun '(v, r) => no_angle v /\ no_angle r) bs /\ ending_ok e.

Lemma join_nil_app l k : join [] (l ++ k) = join [] l ++ join [] k.
Proof.
  induction l as [|w [|w' l] IH]; [done| |].
  - cbn [app join]. destruct k; [by rewrite app_nil_r|done].
  - change (join [] ((w :: w' :: l) ++ k)) with (w ++ join [] ((w' :: l) ++ k)).
    rewrite IH, app_assoc. done.
Qed.

Lemma join_optional (s : jsstr) : join [] (if truthy_str s then [s] else []) = s.
Proof. by destruct s. Qed.

Lemma vis_join u v : join [] (if (0 <? length u)%nat then [take (length u) (u ++ v)] else []) = u.
Proof. rewrite take_app_length. by destruct u. Qed.

Lemma after_open u v : drop (length u + 7) (u ++ open_tag ++ v) = v.
Proof. by rewrite drop_app_add. Qed.

Lemma after_close u v : drop (length u + 8) (u ++ close_tag ++ v) = v.
Proof. by rewrite drop_app_add. Qed.

Lemma open_index u v : no_angle u -> index_of open_tag (u ++ open_tag ++ v) = Some (length u).
Proof. apply (tag_index (js "think>")). Qed.

Lemma close_index u v : no_angle u -> index_of close_tag (u ++ close_tag ++ v) = Some (length u).
Proof. apply (tag_index (js "/think>")). Qed.

Lemma think_loop_blocks bs e f :
  blocks_ok bs e -> (length bs < f)%nat ->
  let p := think_loop f (blocks_text bs e) in
  join [] (visible_parts p) = visible_of bs e /\ reasoning_parts p = reasons_of bs e
  /\ unclosed p = (match e with visible_end _ => false | open_end _ _ => true end).
Proof.
  revert f; induction bs as [|[v r] bs IH]; intros f [Hb He] Hf;
    (destruct f as [|f]; [simpl in Hf; lia|]); cbv zeta.
  - cbn [blocks_text think_loop]. unfold visible_of, reasons_of. cbn [fmap list_fmap concat app].
    destruct e as [t|t r]; cbn [ending_text ending_ok] in *.
    + rewrite (no_tag_index (js "think>") _ He : index_of open_tag _ = _).
      split; [apply join_optional|done].
    + destruct He as [Ht Hr]. rewrite open_index, after_open by done.
      rewrite (no_tag_index (js "/think>") _ Hr : index_of close_tag _ = _).
      split; [apply vis_join|done].
  - apply Forall_cons in Hb as [[Hv Hr] Hb]. cbn [blocks_text think_loop].
    set (rest := blocks_text bs e) in *.
    rewrite open_index, after_open, close_index, after_close by done.
    destruct (IH f) as (H1 & H2 & H3); [done|simpl in Hf; lia|]. fold rest in H1, H2, H3.
    cbn [visible_parts reasoning_parts unclosed]. rewrite join_nil_app, vis_join, H1, H2, H3.
    rewrite take_app_length. unfold visible_of, reasons_of. cbn [fmap list_fmap fst snd concat].
    rewrite <- app_assoc. done.
Qed.

Lemma blocks_text_length bs e : (length bs <= length (blocks_text bs e))%nat.
Proof.
  induction bs as [|[v r] bs IH]; [simpl; lia|]. cbn [blocks_text].
  rewrite !length_app. change (length open_tag) with 7%nat. simpl. lia.
Qed.

Lemma blocks_text_includes bs e :
  bs <> [] \/ (exists t r, e = open_end t r) -> includes open_tag (blocks_text bs e) = true.
Proof.
  intros H. apply includes_spec. destruct bs as [|[v r] bs].
  - destruct H as [?|(t & r & ->)]; [done|]. by exists t, r.
  - exists v, (r ++ close_tag ++ blocks_text bs e). done.
Qed.

(** The think tags of an answer are read as written: from a text made of closed blocks,
    each after some visible text, and possibly one block that is still open, the visible
    texts and the reasonings come out in order, the former joined and the latter separated
    by a blank line, both trimmed. *)
Theorem think_tags_read bs e :
  blocks_ok bs e -> (bs <> [] \/ exists t r, e = open_end t r) ->
  parseThinkTags (blocks_text bs e)
  = {| visibleContent := trim (visible_of bs e);
       think_reasoning := trim (join blank_line (reasons_of bs e));
       hasUnclosedTag := match e with visible_end _ => false | open_end _ _ => true end |}.
Proof.
  intros Hok Hne. unfold parseThinkTags. rewrite blocks_text_includes by done. cbn [negb].
  destruct (think_loop_blocks bs e (S (length (blocks_text bs e)))) as (H1 & H2 & H3); [done| |].
  { pose proof (blocks_text_length bs e). lia. }
  by rewrite H1, H2, H3.
Qed.

Lemma think_tags_read_witness :
  parseThinkTags (js "Hi <think>let me see</think>there<think>more")
  = {| visibleContent := js "Hi there"; think_reasoning := js "let me see" ++ blank_line ++ js "more";
       hasUnclosedTag := true |}.
Proof.
  apply (think_tags_read [(js "Hi ", js "let me see")] (open_end (js "there") (js "more"))).
  - split; [constructor; [split|constructor]|split]; by apply (bool_decide_unpack (60 ∉ _)).
  - by left.
Defined.

(** ** Theorems: updating the last message *)

Lemma update_last_snoc ms m f :
  updateLastAssistantMessage (ms ++ [m]) f
  = if bool_decide (from m = assistant) then ms ++ [f m] else ms ++ [m].
Proof.
  unfold updateLastAssistantMessage. rewrite reverse_snoc, reverse_involutive.
  by case_bool_decide.
Qed.

Lemma update_last_nil f : updateLastAssistantMessage [] f = [].
Proof. reflexivity. Qed.

Lemma update_last_length ms f : length (updateLastAssistantMessage ms f) = length ms.
Proof.
  destruct ms as [|m ms _] using rev_ind; [done|].
  rewrite update_last_snoc. case_bool_decide; by rewrite !length_app.
Qed.

Lemma content_update m t : content (getCurrentVersion (updateCurrentVersionContent m t)) = t.
Proof. reflexivity. Qed.

Lemma content_process m c :
  content (getCurrentVersion (processStreamingContent m (Some c)))
  = content (getCurrentVersion m) ++ c.
Proof. destruct c; [|done]. by rewrite app_nil_r. Qed.

Lemma content_finalize m r :
  content (getCurrentVersion (finalizeMessage m r))
  = visibleContent (parseThinkTags (content (getCurrentVersion m))).
Proof. reflexivity. Qed.

Lemma from_finalize m r : from (finalizeMessage m r) = from m.
Proof. reflexivity. Qed.

(** ** Theorems: loading *)

Lemma last_stuck_spec ms :
  match last_stuck ms with
  | None => Forall (fun m => stuck m = false) ms
  | Some i => exists a m b, ms = a ++ m :: b /\ length a = i /\ stuck m = true
                            /\ Forall (fun m => stuck m = false) b
  end.
Proof.
  induction ms as [|m ms IH]; simpl; [constructor|]. destruct (last_stuck ms) as [i|].
  - destruct IH as (a & x & b & -> & <- & Hx & Hb). by exists (m :: a), x, b.
  - destruct (stuck m) eqn:E; [|by constructor]. by exists [], m, ms.
Qed.

Lemma sanitize_not_stuck ms : Forall (fun m => stuck m = false) ms -> sanitizeMessagesOnLoad ms = ms.
Proof.
  unfold sanitizeMessagesOnLoad. pose proof (last_stuck_spec ms) as H. intros Hall.
  destruct (last_stuck ms) as [i|]; [|done]. destruct H as (a & m & b & -> & _ & Hm & _). exfalso.
  apply Forall_app in Hall as [_ [Hx _]%Forall_cons]. congruence.
Qed.

(** A message in a final state: complete with something to show, or the interruption error. *)
Definition settled (m : Message) : Prop :=
  (status m = Some complete
   /\ (trim (content (getCurrentVersion m)) <> [] \/ trim (reasoning_text m) <> []))
  \/ (status m = Some error
      /\ content (getCurrentVersion m) = API_REQUEST_ERROR ++ js ": " ++ INTERRUPTED).

Lemma sanitize_settled m : settled (sanitizeMessage m) /\ from (sanitizeMessage m) = from m.
Proof.
  unfold sanitizeMessage. cbv zeta.
  destruct (truthy_str (trim (content _))) eqn:E1, (truthy_str (trim (reasoning_text _))) eqn:E2;
    cbn [orb]; rewrite ?truthy_str_spec in *; (split; [|done]);
    first [left; split; [done|]; by (left + right)|right; by split].
Qed.

Lemma settled_not_stuck m : settled m -> stuck m = false.
Proof.
  unfold stuck. intros [[-> _]|[-> _]]; rewrite andb_false_iff; right;
    by rewrite !bool_decide_eq_false_2.
Qed.

(** Loading stored messages repairs the last message left loading or streaming and no
    other: it becomes complete, with text or reasoning to show, or the interruption error;
    when no message was stuck nothing changes, and when one was none is afterwards. *)
Theorem sanitize_repairs_last ms :
  (Forall (fun m => stuck m = false) ms -> sanitizeMessagesOnLoad ms = ms)
  /\ (forall a m b, ms = a ++ m :: b -> stuck m = true -> Forall (fun m => stuck m = false) b ->
        sanitizeMessagesOnLoad ms = a ++ sanitizeMessage m :: b
        /\ settled (sanitizeMessage m) /\ from (sanitizeMessage m) = assistant
        /\ (Forall (fun m => stuck m = false) a ->
            Forall (fun m => stuck m = false) (sanitizeMessagesOnLoad ms))).
Proof.
  split; [apply sanitize_not_stuck|].
  unfold sanitizeMessagesOnLoad. pose proof (last_stuck_spec ms) as H.
  intros a m b Ems Hm Hb. assert (Hi : last_stuck ms = Some (length a)).
  { destruct (last_stuck ms) as [i|].
    - destruct H as (a' & m' & b' & E & <- & Hm' & Hb'). f_equal. rewrite Ems in E.
      destruct (Nat.lt_trichotomy (length a) (length a')) as [Hl|[?|Hl]]; [|done|].
      + exfalso. apply (f_equal (fun l => l !! length a')) in E.
        rewrite (list_lookup_middle a' b' m') in E by done.
        rewrite lookup_app_r, lookup_cons_ne_0 in E by lia.
        apply list_elem_of_lookup_2 in E. eapply Forall_forall in Hb; [|exact E]. congruence.
      + exfalso. apply (f_equal (fun l => l !! length a)) in E.
        rewrite (list_lookup_middle a b m) in E by done. symmetry in E.
        rewrite lookup_app_r, lookup_cons_ne_0 in E by lia.
        apply list_elem_of_lookup_2 in E. eapply Forall_forall in Hb'; [|exact E]. congruence.
    - rewrite Ems, Forall_app, Forall_cons in H. destruct H as (_ & Hx & _). congruence. }
  rewrite Hi, Ems, list_lookup_middle by done.
  rewrite <- (Nat.add_0_r (length a)), insert_app_r. cbn [insert list_insert].
  destruct (sanitize_settled m) as [Hs Hf]. split; [done|]. split; [done|]. split.
  + rewrite Hf. unfold stuck in Hm. apply andb_true_iff in Hm as [Hm _].
    by apply bool_decide_eq_true in Hm.
  + intros Ha. apply Forall_app. split; [done|]. constructor; [by apply settled_not_stuck|done].
Qed.

Definition sample_loading : Message := createLoadingAssistantMessage (js "k1") (js "v1").

Lemma sanitize_repairs_last_witness :
  sanitizeMessagesOnLoad [createUserMessage (js "k0") (js "v0") (js "hi"); sample_loading]
  = [createUserMessage (js "k0") (js "v0") (js "hi"); sanitizeMessage sample_loading].
Proof.
  destruct (sanitize_repairs_last
    [createUserMessage (js "k0") (js "v0") (js "hi"); sample_loading]) as [_ H].
  refine (proj1 (H [createUserMessage (js "k0") (js "v0") (js "hi")] sample_loading [] eq_refl _ _));
    [reflexivity|constructor].
Defined.

(** One load repairs one message: of two messages left loading the first is still
    loading after the load, and only a second load repairs it. *)
Theorem sanitize_leaves_earlier_stuck :
  let ms := [sample_loading; createUserMessage (js "k2") (js "v2") (js "again"); sample_loading] in
  existsb stuck (sanitizeMessagesOnLoad ms) = true
  /\ existsb stuck (sanitizeMessagesOnLoad (sanitizeMessagesOnLoad ms)) = false
  /\ length (filterb stuck (sanitizeMessagesOnLoad ms)) = 1%nat.
Proof. cbv zeta. split; [|split]; vm_compute; reflexivity. Qed.
