(* ===== verification/PlaygroundStream.v ===== *)
(** * Streaming an answer ([features/playground/hooks/use-stream-request.ts],
      [hooks/use-chat-handler.ts])

    The request hook turns the events of an event source into callbacks; the chat handler
    turns the callbacks into updates of the messages.  Which events arrive, and in which
    order, is up to the [sse.js] library and the network: an execution is any sequence of
    events.  The two refs of the hook are the state of the machine. *)

From S2P Require Import Prelude JsString JsNumber JsValue JsJson PlaygroundMessages.

#[local] Open Scope N_scope.

(** ** The request hook *)

(** [sseSourceRef.current !== null] and [isStreamCompleteRef.current]. *)
Record StreamState := { source_open : bool; isStreamComplete : bool }.

(** The events its listeners receive: the data of a message; the data of an error, undefined
    or a text, with the ready state of the source; a change of the ready state, with the HTTP
    status when it is known. *)
Inductive StreamEvent :=
  | EvMessage (data : jsstr)
  | EvError (data : option jsstr) (readyState : Z)
  | EvReadyState (readyState : option Z) (http_status : option Z).

(** What the hook calls. *)
Inductive StreamCall :=
  | OnReasoning (chunk : jsstr)
  | OnContent (chunk : jsstr)
  | OnComplete
  | OnError (message code : jsval)
  | CloseSource.

(** [sendStreamRequest], up to the first event. *)
Definition stream_start : StreamState := {| source_open := true; isStreamComplete := false |}.

(** [source.stream()] throws: the error is reported and the source forgotten. *)
Definition stream_start_failed : StreamState * list StreamCall :=
  ({| source_open := false; isStreamComplete := false |}, [OnError (VStr STREAM_START_ERROR) VUndef]).

Definition closeSource (s : StreamState) : StreamState :=
  {| source_open := false; isStreamComplete := isStreamComplete s |}.

Definition handleError (msg code : jsval) (s : StreamState) : StreamState * list StreamCall :=
  if negb (isStreamComplete s) then (closeSource s, [OnError msg code; CloseSource]) else (s, []).

(** [v?.[0]] *)
Definition first_of (v : jsval) : jsval :=
  match v with
  | VArr (x :: _) => x
  | VObj o => at_ (js "0") o
  | VStr (c :: _) => VStr [c]
  | _ => VUndef
  end.

(** [chunk.choices?.[0]?.delta], of a parsed value; reading [choices] of null throws. *)
Definition delta_of (chunk : jsval) : outcome jsval :=
  if nullish chunk then Throw else Return (prop (js "delta") (first_of (prop (js "choices") chunk))).

(** The calls for a delta: reasoning first, then content. *)
Definition delta_calls (delta : jsval) : list StreamCall :=
  if truthy delta then
    (if truthy (prop (js "reasoning_content") delta)
     then [OnReasoning (to_string (prop (js "reasoning_content") delta))] else [])
    ++ (if truthy (prop (js "content") delta)
        then [OnContent (to_string (prop (js "content") delta))] else [])
  else [].

Definition on_message (data : jsstr) (s : StreamState) : StreamState * list StreamCall :=
  if bool_decide (data = js "[DONE]")
  then ({| source_open := false; isStreamComplete := true |}, [CloseSource; OnComplete])
  else match obind (or_throw (json_parse data)) delta_of with
       | Return delta => (s, delta_calls delta)
       | Throw => handleError (VStr PARSE_ERROR) VUndef s
       end.

(** The message and the code of an error event: those of a JSON body with an [error], else
    the raw data, else the generic text. *)
Definition error_info (data : option jsstr) : jsval * jsval :=
  match data with
  | Some ((_ :: _) as d) =>
      match json_parse d with
      | Some parsed =>
          let err := if nullish parsed then VUndef else prop (js "error") parsed in
          if truthy err
          then (vor (prop (js "message") err) (VStr d), vor (prop (js "code") err) VUndef)
          else (VStr d, VUndef)
      | None => (VStr d, VUndef)
      end
  | _ => (VStr API_REQUEST_ERROR, VUndef)
  end.

Definition on_error (data : option jsstr) (readyState : Z) (s : StreamState)
  : StreamState * list StreamCall :=
  if negb (readyState =? 2)%Z
  then handleError (fst (error_info data)) (snd (error_info data)) s else (s, []).

Definition http_text (st : Z) : jsstr :=
  js "HTTP " ++ num_to_string (num_of_Z st) ++ js ": " ++ CONNECTION_CLOSED.

Definition on_readystate (readyState http_status : option Z) (s : StreamState)
  : StreamState * list StreamCall :=
  match readyState, http_status with
  | Some r, Some st =>
      if (2 <=? r)%Z && negb (st =? 200)%Z
      then handleError (VStr (http_text st)) VUndef s else (s, [])
  | _, _ => (s, [])
  end.

Definition stream_step (s : StreamState) (e : StreamEvent) : StreamState * list StreamCall :=
  match e with
  | EvMessage d => on_message d s
  | EvError d r => on_error d r s
  | EvReadyState r st => on_readystate r st s
  end.

Fixpoint stream_run (s : StreamState) (es : list StreamEvent) : StreamState * list StreamCall :=
  match es with
  | [] => (s, [])
  | e :: t => let '(s1, c1) := stream_step s e in
              let '(s2, c2) := stream_run s1 t in (s2, c1 ++ c2)
  end.

(** [stopStream]: closes the source; the event listeners and the ref stay. *)
Definition stopStream (s : StreamState) : StreamState * list StreamCall :=
  if source_open s then (closeSource s, [CloseSource]) else (s, []).

(** ** The chat handler *)

Definition is_status (st : MessageStatus) (m : Message) : bool := bool_decide (status m = Some st).

Definition update_reasoning (chunk : jsstr) (m : Message) : Message :=
  if is_status error m then m
  else with_status streaming
         (with_reasoning (Some {| reasoning_content := reasoning_text m ++ chunk; duration := zero |})
            true m).

Definition update_content (chunk : jsstr) (m : Message) : Message :=
  if is_status error m then m else with_status streaming (processStreamingContent m (Some chunk)).

Definition complete_message (m : Message) : Message :=
  if is_status complete m || is_status error m then m
  else with_status complete (finalizeMessage m None).

(** One callback, on the messages. *)
Definition handle_call (ms : list Message) (c : StreamCall) : list Message :=
  match c with
  | OnReasoning chunk => updateLastAssistantMessage ms (update_reasoning chunk)
  | OnContent chunk => updateLastAssistantMessage ms (update_content chunk)
  | OnComplete => updateLastAssistantMessage ms complete_message
  | OnError msg code => updateAssistantMessageWithError ms msg code
  | CloseSource => ms
  end.

Definition handle_calls (ms : list Message) (cs : list StreamCall) : list Message :=
  fold_left handle_call cs ms.

(** The answer to a request that does not stream: the message and the reasoning of its first
    choice, nothing when it has no choice. *)
Definition handle_response (response : jsval) (ms : list Message) : list Message :=
  let choice := first_of (prop (js "choices") response) in
  if negb (truthy choice) then ms
  else
    let msg := prop (js "message") choice in
    updateLastAssistantMessage ms (fun message =>
      with_status complete
        (finalizeMessage
           (with_versions [{| version_id := match versions message with
                                            | v :: _ => version_id v
                                            | [] => None
                                            end;
                              content := to_string (vor (prop (js "content") msg) (VStr [])) |}]
              message)
           (if truthy (prop (js "reasoning_content") msg)
            then Some (to_string (prop (js "reasoning_content") msg)) else None))).

(** Its failure: the message of the response, of the error, or the generic one. *)
Definition handle_failure (err : jsval) (ms : list Message) : list Message :=
  let data := prop (js "data") (prop (js "response") err) in
  updateAssistantMessageWithError ms
    (vor (prop (js "message") data) (vor (prop (js "message") err) (VStr API_REQUEST_ERROR)))
    (vor (prop (js "code") (prop (js "error") data)) VUndef).

Definition stop_message (m : Message) : Message :=
  if is_status loading m || is_status streaming m
  then with_status complete (finalizeMessage m None) else m.

Definition stopGeneration (s : StreamState) (ms : list Message) : StreamState * list Message :=
  (fst (stopStream s), updateLastAssistantMessage ms stop_message).

(** A whole streamed answer: the events from the start of the request, and the messages. *)
Definition stream_answer (ms : list Message) (es : list StreamEvent) : list Message :=
  handle_calls ms (snd (stream_run stream_start es)).

(** ** Theorems: runs *)

Lemma handle_calls_app ms cs ds : handle_calls ms (cs ++ ds) = handle_calls (handle_calls ms cs) ds.
Proof. apply fold_left_app. Qed.

Lemma stream_run_app s es fs :
  stream_run s (es ++ fs)
  = (let '(s1, c1) := stream_run s es in let '(s2, c2) := stream_run s1 fs in (s2, c1 ++ c2)).
Proof.
  revert s; induction es as [|e es IH]; intros s; cbn [stream_run app].
  - by destruct (stream_run s fs).
  - destruct (stream_step s e) as [s0 c0]. rewrite IH. destruct (stream_run s0 es) as [s1 c1].
    destruct (stream_run s1 fs) as [s2 c2]. by rewrite app_assoc.
Qed.

Definition is_error_call (c : StreamCall) : bool := match c with OnError _ _ => true | _ => false end.
Definition is_chunk (c : StreamCall) : bool :=
  match c with OnReasoning _ | OnContent _ => true | _ => false end.

Lemma delta_calls_chunks d : Forall (fun c => is_chunk c = true) (delta_calls d).
Proof. unfold delta_calls. repeat case_match; repeat constructor. Qed.

Lemma complete_step s e :
  isStreamComplete s = true ->
  isStreamComplete (fst (stream_step s e)) = true
  /\ Forall (fun c => is_error_call c = false) (snd (stream_step s e)).
Proof.
  intros Hs. assert (Hh : forall m c, handleError m c s = (s, [])) by (intros; unfold handleError; by rewrite Hs).
  assert (Hd : forall d, Forall (fun c => is_error_call c = false) (delta_calls d)).
  { intros d. eapply Forall_impl; [apply delta_calls_chunks|]. by intros []. }
  destruct e as [d|d r|r st]; cbn [stream_step].
  - unfold on_message. case_bool_decide; [split; [done|repeat constructor]|].
    destruct (obind _ _); [split; [done|apply Hd]|]. rewrite Hh. by split.
  - unfold on_error. destruct (negb _); [rewrite Hh|]; by split.
  - unfold on_readystate. repeat case_match; try rewrite Hh; by split.
Qed.

Lemma complete_run s es :
  isStreamComplete s = true -> Forall (fun c => is_error_call c = false) (snd (stream_run s es)).
Proof.
  revert s; induction es as [|e es IH]; intros s Hs; cbn [stream_run]; [constructor|].
  pose proof (complete_step s e Hs) as [H1 H2]. destruct (stream_step s e) as [s1 c1]. cbn in *.
  specialize (IH s1 H1). destruct (stream_run s1 es) as [s2 c2]. by apply Forall_app.
Qed.

(** ** Theorems: errors *)

Lemma error_absorbs ms m cs :
  from m = assistant -> status m = Some error -> Forall (fun c => is_error_call c = false) cs ->
  handle_calls (ms ++ [m]) cs = ms ++ [m].
Proof.
  intros Hf Hs. induction 1 as [|c cs Hc _ IH]; [done|]. cbn [handle_calls fold_left].
  assert (He : is_status error m = true) by by apply bool_decide_eq_true.
  assert (E : handle_call (ms ++ [m]) c = ms ++ [m]).
  { destruct c as [k|k| |a b|]; cbn [handle_call]; try done;
      rewrite update_last_snoc, bool_decide_eq_true_2 by done;
      unfold update_reasoning, update_content, complete_message; by rewrite He, ?orb_true_r. }
  rewrite E. exact IH.
Qed.

(** C25. A failed answer keeps its error: after an error was shown, no reasoning, no content
    and no end of the stream changes any message; and once the end of the stream was seen
    no later event reports an error. *)
Theorem errors_are_final ms m msg code cs es fs :
  from m = assistant -> Forall (fun c => is_error_call c = false) cs ->
  handle_calls (updateAssistantMessageWithError (ms ++ [m]) msg code) cs
  = ms ++ [with_error (vor code VNull) (updateCurrentVersionContent m (error_text msg))]
  /\ (isStreamComplete (fst (stream_run stream_start es)) = true ->
      Forall (fun c => is_error_call c = false)
        (snd (stream_run (fst (stream_run stream_start es)) fs))).
Proof.
  intros Hf Hcs. split; [|apply complete_run].
  unfold updateAssistantMessageWithError. rewrite update_last_snoc, bool_decide_eq_true_2 by done.
  by apply error_absorbs.
Qed.

Lemma errors_are_final_witness :
  handle_calls (updateAssistantMessageWithError [sample_loading] (VStr (js "quota")) VUndef)
    [OnContent (js "late"); CloseSource; OnComplete]
  = [with_error VNull (updateCurrentVersionContent sample_loading (error_text (VStr (js "quota"))))].
Proof.
  apply (errors_are_final [] sample_loading (VStr (js "quota")) VUndef
    [OnContent (js "late"); CloseSource; OnComplete] [] []); [reflexivity|repeat constructor].
Defined.

(** An error event followed by the HTTP status of the closing connection reports two
    errors, and the second one replaces the first: the message and the code the server sent
    are overwritten by the generic text of the status. *)
Theorem http_status_overwrites_error ms m d st :
  from m = assistant -> (st =? 200)%Z = false ->
  let es := [EvError (Some d) 1; EvReadyState (Some 2%Z) (Some st)] in
  length (filterb is_error_call (snd (stream_run stream_start es))) = 2%nat
  /\ stream_answer (ms ++ [m]) es
     = ms ++ [with_error VNull (updateCurrentVersionContent m (error_text (VStr (http_text st))))].
Proof.
  intros Hf Hst. unfold stream_answer. cbn [stream_run stream_step].
  unfold on_error. change (negb (1 =? 2)%Z) with true. cbn match.
  unfold handleError at 1. cbn [isStreamComplete stream_start negb].
  unfold on_readystate. rewrite Hst. change ((2 <=? 2)%Z && negb false) with true. cbn match.
  unfold handleError. cbn [isStreamComplete closeSource stream_start negb app snd].
  split; [reflexivity|]. cbn [handle_calls fold_left handle_call].
  unfold updateAssistantMessageWithError.
  rewrite update_last_snoc, bool_decide_eq_true_2 by done.
  rewrite update_last_snoc, bool_decide_eq_true_2 by done. done.
Qed.

Lemma http_status_overwrites_error_witness :
  stream_answer [sample_loading]
    [EvError (Some (js "no such model")) 1; EvReadyState (Some 2%Z) (Some 404%Z)]
  = [with_error VNull
      (updateCurrentVersionContent sample_loading (error_text (VStr (http_text 404))))].
Proof.
  apply (http_status_overwrites_error [] sample_loading (js "no such model") 404); reflexivity.
Defined.

(** ** Theorems: a complete answer *)

Definition contents (cs : list StreamCall) : jsstr :=
  cs ≫= fun c => match c with OnContent k => k | _ => [] end.

Definition reasonings (cs : list StreamCall) : jsstr :=
  cs ≫= fun c => match c with OnReasoning k => k | _ => [] end.

Lemma process_keeps_reasoning m k st :
  includes open_tag (content (getCurrentVersion m) ++ k) = false ->
  reasoning_text (with_status st (processStreamingContent m (Some k))) = reasoning_text m.
Proof.
  intros H. unfold processStreamingContent.
  replace (match k with [] => content (getCurrentVersion m) | _ => _ end)
    with (content (getCurrentVersion m) ++ k) by (destruct k; [by rewrite app_nil_r|done]).
  unfold parseThinkTags. rewrite H. done.
Qed.

Lemma reasoning_finalize m st :
  reasoning_text (with_status st (finalizeMessage m None))
  = or_str (reasoning_text m) (think_reasoning (parseThinkTags (content (getCurrentVersion m)))).
Proof.
  unfold finalizeMessage. cbn [default]. unfold reasoning_text at 1.
  cbn [reasoning with_status with_reasoning]. set (x := or_str (reasoning_text m) _).
  change (or_str [] x) with x. by destruct x.
Qed.

Lemma chunks_run ms m cs :
  from m = assistant -> status m <> Some error -> Forall (fun c => is_chunk c = true) cs ->
  exists m', handle_calls (ms ++ [m]) cs = ms ++ [m'] /\ from m' = assistant
    /\ content (getCurrentVersion m') = content (getCurrentVersion m) ++ contents cs
    /\ (status m' = Some streaming \/ status m' = status m)
    /\ (includes open_tag (content (getCurrentVersion m) ++ contents cs) = false ->
        reasoning_text m' = reasoning_text m ++ reasonings cs).
Proof.
  revert m; induction cs as [|c cs IH]; intros m Hf Hs Hcs.
  - exists m. cbn. rewrite !app_nil_r. split_and!; auto.
  - apply Forall_cons in Hcs as [Hc Hcs].
    assert (He : is_status error m = false) by by apply bool_decide_eq_false.
    destruct c as [k|k| |a b|]; try done; cbn [handle_calls fold_left handle_call];
      rewrite update_last_snoc, bool_decide_eq_true_2 by done.
    + unfold update_reasoning. rewrite He. set (m1 := with_status _ _).
      destruct (IH m1) as (m' & E & Hf' & Hc' & Hst & Hr); [done|done|done|].
      exists m'. split; [exact E|]. split; [done|]. split; [exact Hc'|].
      split; [left; by destruct Hst as [->| ->]|]. intros Hi. rewrite (Hr Hi). cbn.
      by rewrite <- app_assoc.
    + unfold update_content. rewrite He. set (m1 := with_status _ _).
      destruct (IH m1) as (m' & E & Hf' & Hc' & Hst & Hr); [done|done|done|].
      assert (Hm1 : content (getCurrentVersion m1) = content (getCurrentVersion m) ++ k)
        by apply content_process.
      exists m'. split; [exact E|]. split; [done|].
      rewrite Hm1 in *. change (contents (OnContent k :: cs)) with (k ++ contents cs).
      rewrite app_assoc. split; [exact Hc'|].
      split; [left; by destruct Hst as [->| ->]|]. intros Hi. rewrite (Hr Hi).
      change (reasonings (OnContent k :: cs)) with (reasonings cs). f_equal.
      apply process_keeps_reasoning. by apply includes_prefix with (v := contents cs).
Qed.

(** The data of one message event that is a chunk, with its delta. *)
Definition chunk_data (d : jsstr) (delta : jsval) : Prop :=
  d <> js "[DONE]" /\ obind (or_throw (json_parse d)) delta_of = Return delta.

Lemma chunks_events ds deltas es :
  Forall2 chunk_data ds deltas ->
  stream_run stream_start ((EvMessage <$> ds) ++ es)
  = (let '(s, c) := stream_run stream_start es in (s, (deltas ≫= delta_calls) ++ c)).
Proof.
  induction 1 as [|d dl ds dls [Hd Hp] _ IH]; cbn [fmap list_fmap app mbind list_bind].
  - by destruct (stream_run stream_start es).
  - cbn [stream_run stream_step]. unfold on_message.
    rewrite bool_decide_eq_false_2, Hp by done.
    change (list_fmap _ _ EvMessage ds) with (EvMessage <$> ds). rewrite IH.
    destruct (stream_run stream_start es). by rewrite <- app_assoc.
Qed.

Lemma all_chunks deltas : Forall (fun c => is_chunk c = true) (deltas ≫= delta_calls).
Proof. apply Forall_bind, Forall_true. intros d. apply delta_calls_chunks. Qed.

(** C27. A streamed answer ends complete with what was sent, however it was cut into chunks: for a
    message that was empty and loading, its content is the visible part of the concatenated
    contents, which is all of them where they hold no think tag and else what is outside the
    think blocks, trimmed; and without a think tag its reasoning is the concatenated
    reasonings.  (With think tags the reasoning depends on the chunks:
    [reasoning_depends_on_chunks].) *)
Theorem streamed_answer ms m ds deltas :
  from m = assistant -> status m = Some loading -> content (getCurrentVersion m) = [] ->
  reasoning m = None -> Forall2 chunk_data ds deltas ->
  let calls := deltas ≫= delta_calls in
  exists m', stream_answer (ms ++ [m]) ((EvMessage <$> ds) ++ [EvMessage (js "[DONE]")]) = ms ++ [m']
    /\ status m' = Some complete
    /\ content (getCurrentVersion m') = visibleContent (parseThinkTags (contents calls))
    /\ (includes open_tag (contents calls) = false -> reasoning_text m' = reasonings calls).
Proof.
  intros Hf Hs Hc Hr Hds calls. unfold stream_answer. rewrite (chunks_events ds deltas) by done.
  cbn [stream_run stream_step]. unfold on_message at 1. rewrite bool_decide_eq_true_2 by done.
  cbn [snd app]. rewrite handle_calls_app.
  destruct (chunks_run ms m calls) as (m1 & E & Hf1 & Hc1 & Hst & Hr1);
    [done|by rewrite Hs|apply all_chunks|].
  unfold calls in E. rewrite E. cbn [handle_calls fold_left handle_call].
  rewrite update_last_snoc, bool_decide_eq_true_2 by done.
  assert (Hdone : is_status complete m1 || is_status error m1 = false).
  { unfold is_status. rewrite Hs in Hst. destruct Hst as [->| ->];
      by rewrite !bool_decide_eq_false_2. }
  exists (complete_message m1). split; [done|]. unfold complete_message. rewrite Hdone.
  split; [done|]. rewrite Hc in Hc1. simpl in Hc1. split.
  - change (visibleContent (parseThinkTags (content (getCurrentVersion m1))) = visibleContent (parseThinkTags (contents calls))).
    by rewrite Hc1.
  - intros Hi. rewrite Hc in Hr1. specialize (Hr1 Hi).
    assert (Hm : reasoning_text m = []) by (unfold reasoning_text; by rewrite Hr).
    rewrite Hm in Hr1. etransitivity; [apply reasoning_finalize|].
    rewrite Hc1. unfold parseThinkTags. unfold calls in Hi |- *. rewrite Hi. cbn [negb think_reasoning].
    rewrite Hr1. cbn [default]. unfold or_str. by destruct (reasonings _).
Qed.

Definition chunk (k : jsstr) : jsstr :=
  js "{" ++ quote (js "choices") ++ js ":[{" ++ quote (js "delta") ++ js ":{" ++ quote (js "content")
  ++ js ":" ++ quote k ++ js "}}]}".

Definition delta (k : jsstr) : jsval := VObj [(js "content", VStr k)].

Lemma streamed_answer_witness :
  exists m', stream_answer [sample_loading]
      [EvMessage (chunk (js "<think>hm</think>Hel")); EvMessage (chunk (js "lo")); EvMessage (js "[DONE]")]
    = [m'] /\ status m' = Some complete /\ content (getCurrentVersion m') = js "Hello".
Proof.
  destruct (streamed_answer [] sample_loading
    [chunk (js "<think>hm</think>Hel"); chunk (js "lo")]
    [delta (js "<think>hm</think>Hel"); delta (js "lo")]) as (m' & H1 & H2 & H3 & _);
    try reflexivity.
  - constructor; [|constructor; [|constructor]];
      (split; [by apply (bool_decide_unpack (_ <> _))|by vm_compute]).
  - exists m'. split; [exact H1|]. split; [exact H2|]. rewrite H3. by vm_compute.
Defined.

(** With think tags the reasoning depends on how the answer was cut: a chunk that ends
    inside a closing tag leaves its pieces in the reasoning of an empty block. *)
Theorem reasoning_depends_on_chunks :
  let run cs := handle_calls [sample_loading] ((OnContent <$> cs) ++ [OnComplete]) in
  reasoning_text <$> run [js "<think></thi"; js "nk>done"] = [js "</thi"]
  /\ reasoning_text <$> run [js "<think></think>done"] = [[]].
Proof. split; vm_compute; reflexivity. Qed.
