(* ===== verification/PlaygroundState.v ===== *)
(** * Playground state and storage ([features/playground/lib/storage.ts],
      [lib/payload-builder.ts], [hooks/use-playground-state.ts])

    What the playground keeps in the local storage of the browser, the state hook that saves
    it at every change, and the request built from it.

    [localStorage] is the map from keys to texts the Web Storage standard defines: [setItem]
    throws when the new content does not fit, which the parameter [fits] decides. *)

From S2P Require Import Prelude JsString JsNumber JsValue JsJson WebStorage PlaygroundMessages.

#[local] Open Scope N_scope.
#[local] Open Scope outcome_scope.

(** ** Constants *)

Definition CONFIG : jsstr := js "playground_config".
Definition MESSAGES : jsstr := js "playground_messages".
Definition PARAMETER_ENABLED : jsstr := js "playground_parameter_enabled".

Definition DEFAULT_CONFIG : obj := Eval vm_compute in obj_of
  [ (js "model", VStr (js "gpt-4o")); (js "group", VStr (js "default"));
    (js "temperature", VNum (number_of_string (js "0.7"))); (js "top_p", VNum (num_of_Z 1));
    (js "max_tokens", VNum (num_of_Z 4096)); (js "frequency_penalty", VNum zero);
    (js "presence_penalty", VNum zero); (js "seed", VNull); (js "stream", VBool true) ].

Definition DEFAULT_PARAMETER_ENABLED : obj := Eval vm_compute in obj_of
  [ (js "temperature", VBool true); (js "top_p", VBool true); (js "max_tokens", VBool false);
    (js "frequency_penalty", VBool true); (js "presence_penalty", VBool true);
    (js "seed", VBool false) ].

(** ** Messages as JSON

    The fields of a message that are undefined are left out by [JSON.stringify].  The order
    of the fields is that of the type. *)

Definition role_str (r : MessageRole) : jsstr :=
  match r with user => js "user" | assistant => js "assistant" | system => js "system" end.

Definition status_str (s : MessageStatus) : jsstr :=
  match s with
  | loading => js "loading" | streaming => js "streaming"
  | complete => js "complete" | error => js "error"
  end.

Definition field (k : jsstr) (v : option jsval) : obj :=
  match v with Some x => [(k, x)] | None => [] end.

Definition version_json (v : MessageVersion) : jsval :=
  VObj (obj_of (field (js "id") (VStr <$> version_id v) ++ [(js "content", VStr (content v))])).

Definition reasoning_json (r : Reasoning) : jsval :=
  VObj (obj_of [(js "content", VStr (reasoning_content r)); (js "duration", VNum (duration r))]).

Definition source_json (s : jsstr * jsstr) : jsval :=
  VObj (obj_of [(js "href", VStr (fst s)); (js "title", VStr (snd s))]).

Definition message_json (m : Message) : jsval :=
  VObj (obj_of
    ([ (js "key", VStr (message_key m)); (js "from", VStr (role_str (from m)));
       (js "versions", VArr (version_json <$> versions m)) ]
     ++ field (js "sources") ((fun l => VArr (source_json <$> l)) <$> sources m)
     ++ field (js "reasoning") (reasoning_json <$> reasoning m)
     ++ field (js "isReasoningStreaming") (VBool <$> isReasoningStreaming m)
     ++ field (js "isReasoningComplete") (VBool <$> isReasoningComplete m)
     ++ field (js "isContentComplete") (VBool <$> isContentComplete m)
     ++ field (js "status") ((fun s => VStr (status_str s)) <$> status m)
     ++ field (js "errorCode") (if is_undef (errorCode m) then None else Some (errorCode m)))).

(** A stored value of the shape of a message. *)
Definition role_of (v : jsval) : option MessageRole :=
  if is_str (js "user") v then Some user
  else if is_str (js "assistant") v then Some assistant
  else if is_str (js "system") v then Some system else None.

Definition status_of (v : jsval) : option MessageStatus :=
  if is_str (js "loading") v then Some loading
  else if is_str (js "streaming") v then Some streaming
  else if is_str (js "complete") v then Some complete
  else if is_str (js "error") v then Some error else None.

Definition str_of (v : jsval) : option jsstr := match v with VStr s => Some s | _ => None end.
Definition bool_of (v : jsval) : option bool := match v with VBool b => Some b | _ => None end.
Definition arr_of (v : jsval) : option (list jsval) := match v with VArr l => Some l | _ => None end.

(** A field that may be missing. *)
Definition optional {A} (f : jsval -> option A) (v : jsval) : option (option A) :=
  if is_undef v then Some None else Some <$> f v.

(** An object with no fields but these. *)
Definition shaped (ks : list jsstr) (v : jsval) : option obj :=
  match v with
  | VObj o => if forallb (fun k => bool_decide (k ∈ ks)) (okeys o) then Some o else None
  | _ => None
  end.

Definition version_keys : list jsstr := [js "id"; js "content"].
Definition reasoning_keys : list jsstr := [js "content"; js "duration"].
Definition source_keys : list jsstr := [js "href"; js "title"].
Definition message_keys : list jsstr :=
  [ js "key"; js "from"; js "versions"; js "sources"; js "reasoning";
    js "isReasoningStreaming"; js "isReasoningComplete"; js "isContentComplete";
    js "status"; js "errorCode" ].

Definition version_of (v : jsval) : option MessageVersion :=
  o ← shaped version_keys v;
  i ← optional str_of (at_ (js "id") o);
  c ← str_of (at_ (js "content") o);
  Some {| version_id := i; content := c |}.

Definition num_of (v : jsval) : option num := match v with VNum n => Some n | _ => None end.

Definition reasoning_of (v : jsval) : option Reasoning :=
  o ← shaped reasoning_keys v;
  c ← str_of (at_ (js "content") o);
  d ← num_of (at_ (js "duration") o);
  Some {| reasoning_content := c; duration := d |}.

Definition source_of (v : jsval) : option (jsstr * jsstr) :=
  o ← shaped source_keys v;
  a ← str_of (at_ (js "href") o);
  b ← str_of (at_ (js "title") o);
  Some (a, b).

Definition message_of (v : jsval) : option Message :=
  o ← shaped message_keys v;
  k ← str_of (at_ (js "key") o);
  r ← role_of (at_ (js "from") o);
  vs ← (arr_of (at_ (js "versions") o) ≫= mapM version_of);
  ss ← optional (fun v => arr_of v ≫= mapM source_of) (at_ (js "sources") o);
  rs ← optional reasoning_of (at_ (js "reasoning") o);
  a ← optional bool_of (at_ (js "isReasoningStreaming") o);
  b ← optional bool_of (at_ (js "isReasoningComplete") o);
  c ← optional bool_of (at_ (js "isContentComplete") o);
  st ← optional status_of (at_ (js "status") o);
  Some {| message_key := k; from := r; versions := vs; sources := ss; reasoning := rs;
          isReasoningStreaming := a; isReasoningComplete := b; isContentComplete := c;
          status := st; errorCode := at_ (js "errorCode") o |}.

(** ** Storage *)

Section Storage.
Variable fits : storage -> bool.

(** The object saved under a key; nothing when there is none or it is no JSON. *)
Definition load_object (k : jsstr) (s : storage) : jsval :=
  match getItem s k with
  | Some saved => if truthy_str saved then default (VObj []) (json_parse saved) else VObj []
  | None => VObj []
  end.

(** A failed save leaves the storage as it was. *)
Definition save_object (k : jsstr) (o : obj) (s : storage) : storage :=
  catch (setItem fits k (ser (VObj o)) s) s.

Definition loadConfig (s : storage) : jsval := load_object CONFIG s.
Definition saveConfig (config : obj) (s : storage) : storage := save_object CONFIG config s.

Definition loadParameterEnabled (s : storage) : jsval := load_object PARAMETER_ENABLED s.
Definition saveParameterEnabled (p : obj) (s : storage) : storage :=
  save_object PARAMETER_ENABLED p s.

Definition saveMessages (messages : list Message) (s : storage) : storage :=
  catch (setItem fits MESSAGES (ser (VArr (message_json <$> messages))) s) s.

(** Stored messages: none, the messages, or an array that holds values of another shape,
    which the source uses without a check and the model does not follow. *)
Inductive Loaded := NoMessages | Messages (ms : list Message) | IllTyped (l : list jsval).

(** [sanitized !== parsed]: sanitising gives a new array exactly when a message was stuck. *)
Definition loadMessages (s : storage) : Loaded * storage :=
  match getItem s MESSAGES with
  | Some saved =>
      if truthy_str saved then
        match json_parse saved with
        | Some (VArr l) =>
            match mapM message_of l with
            | Some parsed =>
                let sanitized := sanitizeMessagesOnLoad parsed in
                (Messages sanitized,
                 if existsb stuck parsed then saveMessages sanitized s else s)
            | None => (IllTyped l, s)
            end
        | _ => (NoMessages, s)
        end
      else (NoMessages, s)
  | None => (NoMessages, s)
  end.

Definition clearPlaygroundData (s : storage) : storage :=
  removeItem MESSAGES (removeItem PARAMETER_ENABLED (removeItem CONFIG s)).

(** ** The state hook *)

Record PlaygroundState := {
  config : obj;
  parameterEnabled : obj;
  messages : list Message
}.

Definition init_state (s : storage) : PlaygroundState * storage :=
  let '(loaded, s') := loadMessages s in
  ({| config := ospread DEFAULT_CONFIG (entries_of (loadConfig s));
      parameterEnabled := ospread DEFAULT_PARAMETER_ENABLED (entries_of (loadParameterEnabled s));
      messages := match loaded with Messages ms => ms | _ => [] end |}, s').

Definition updateConfig (k : jsstr) (v : jsval) (st : PlaygroundState) (s : storage)
  : PlaygroundState * storage :=
  let updated := oset k v (config st) in
  ({| config := updated; parameterEnabled := parameterEnabled st; messages := messages st |},
   saveConfig updated s).

Definition updateParameterEnabled (k : jsstr) (v : bool) (st : PlaygroundState) (s : storage)
  : PlaygroundState * storage :=
  let updated := oset k (VBool v) (parameterEnabled st) in
  ({| config := config st; parameterEnabled := updated; messages := messages st |},
   saveParameterEnabled updated s).

Definition updateMessages (f : list Message -> list Message) (st : PlaygroundState) (s : storage)
  : PlaygroundState * storage :=
  let newMessages := f (messages st) in
  ({| config := config st; parameterEnabled := parameterEnabled st; messages := newMessages |},
   saveMessages newMessages s).

Definition clearMessages (st : PlaygroundState) (s : storage) : PlaygroundState * storage :=
  updateMessages (fun _ => []) st s.

Definition resetConfig (st : PlaygroundState) (s : storage) : PlaygroundState * storage :=
  ({| config := DEFAULT_CONFIG; parameterEnabled := DEFAULT_PARAMETER_ENABLED;
      messages := messages st |},
   saveParameterEnabled DEFAULT_PARAMETER_ENABLED (saveConfig DEFAULT_CONFIG s)).
End Storage.

(** ** The request *)

Record ChatCompletionRequest := {
  req_model : jsval;
  req_group : jsval;
  req_messages : list ChatCompletionMessage;
  req_stream : jsval;
  req_params : obj
}.

Definition parameterKeys : list jsstr :=
  [ js "temperature"; js "top_p"; js "max_tokens"; js "frequency_penalty";
    js "presence_penalty"; js "seed" ].

Definition buildChatCompletionPayload (ms : list Message) (cfg enabled : obj)
  : ChatCompletionRequest :=
  {| req_model := at_ (js "model") cfg;
     req_group := at_ (js "group") cfg;
     req_messages := formatMessageForAPI <$> filterb isValidMessage ms;
     req_stream := at_ (js "stream") cfg;
     req_params :=
       fold_left (fun payload k =>
         if truthy (at_ k enabled) then
           let value := at_ k cfg in
           if negb (is_undef value) && negb (nullish value) then oset k value payload else payload
         else payload) parameterKeys [] |}.

(** ** Theorems: a message as JSON *)

(** What a message must hold for JSON to carry it: a finite duration that reads back and an
    error code that JSON can write. *)
Definition storable (m : Message) : Prop :=
  (match reasoning m with Some r => num_ok (duration r) | None => True end)
  /\ (errorCode m = VUndef \/ json_ok (errorCode m)).

Lemma Forall_field (P : jsstr * jsval -> Prop) k v :
  (forall x, v = Some x -> P (k, x)) -> Forall P (field k v).
Proof. destruct v; intros H; constructor; [by apply H|constructor]. Qed.

Lemma json_ok_fmap {A} (f : A -> jsval) l : (forall x, json_ok (f x)) -> json_ok (VArr (f <$> l)).
Proof. intros H. apply json_ok_arr, Forall_fmap, Forall_true. exact H. Qed.

Lemma json_ok_message m : storable m -> json_ok (message_json m).
Proof.
  intros [Hr He]. apply json_ok_obj_of. rewrite !Forall_app.
  repeat split; try (apply Forall_field; intros x Hx; cbn [snd]); repeat constructor.
  - cbn [snd]. apply json_ok_fmap. intros v. apply json_ok_obj_of.
    apply Forall_app. split; [apply Forall_field|repeat constructor].
    intros x Hx. by apply fmap_Some in Hx as (? & _ & ->).
  - apply fmap_Some in Hx as (l & _ & ->). apply json_ok_fmap. intros [a b].
    apply json_ok_obj_of. repeat constructor.
  - apply fmap_Some in Hx as (r & Er & ->). rewrite Er in Hr. apply json_ok_obj_of.
    repeat constructor; apply Hr.
  - by apply fmap_Some in Hx as (? & _ & ->).
  - by apply fmap_Some in Hx as (? & _ & ->).
  - by apply fmap_Some in Hx as (? & _ & ->).
  - by apply fmap_Some in Hx as (? & _ & ->).
  - destruct (is_undef (errorCode m)) eqn:E; [done|]. injection Hx as <-.
    destruct He as [He|He]; [by rewrite He in E|done].
Qed.

Lemma oget_field k j v : oget k (field j v) = if bool_decide (j = k) then v else None.
Proof. destruct v; cbn [field oget]; by destruct (bool_decide (j = k)). Qed.

Lemma shaped_obj_of ks p : okeys p ⊆ ks -> shaped ks (VObj (obj_of p)) = Some (obj_of p).
Proof.
  intros H. unfold shaped. rewrite (proj2 (forallb_elem _ _)); [done|]. intros k Hk.
  apply bool_decide_eq_true, H. apply ohas_okeys. apply ohas_okeys in Hk. revert Hk.
  unfold ohas, obj_of. rewrite oget_ospread. cbn [oget].
  destruct (oget k (reverse p)) as [v|] eqn:E; [|done]. intros _.
  apply oget_Some_elem in E. rewrite elem_of_reverse in E.
  destruct (oget k p) eqn:E2; [done|]. apply oget_None_okeys in E2. exfalso. apply E2.
  apply list_elem_of_fmap. by exists (k, v).
Qed.

Lemma okeys_field k v : okeys (field k v) `sublist_of` [k].
Proof. destruct v; cbn; [done|apply sublist_nil_l]. Qed.

Lemma okeys_app o p : okeys (o ++ p) = okeys o ++ okeys p.
Proof. apply fmap_app. Qed.

(** The fields of an object built from a list of some of the keys [ks]. *)
Lemma read_fields ks p :
  okeys p `sublist_of` ks -> NoDup ks ->
  shaped ks (VObj (obj_of p)) = Some (obj_of p)
  /\ forall k, at_ k (obj_of p) = default VUndef (oget k p).
Proof.
  intros Hs Hnd. split.
  - apply shaped_obj_of. intros k. by apply sublist_in.
  - intros k. rewrite at_oget, oget_obj_of; [done|]. by eapply sublist_no_dup.
Qed.

Lemma mapM_read {A} (f : A -> jsval) (g : jsval -> option A) l :
  (forall x, g (f x) = Some x) -> mapM g (f <$> l) = Some l.
Proof.
  intros H. apply mapM_Some. induction l as [|x l IH]; cbn; constructor; auto.
Qed.

Lemma optional_read {A} (f : A -> jsval) (g : jsval -> option A) v :
  (forall x, g (f x) = Some x) -> (forall x, is_undef (f x) = false) ->
  optional g (default VUndef (f <$> v)) = Some v.
Proof.
  intros H Hu. unfold optional. destruct v as [x|]; [|done].
  change (default VUndef (f <$> Some x)) with (f x). by rewrite Hu, H.
Qed.

Ltac no_dup_keys := apply (bool_decide_unpack (NoDup _)); vm_compute; exact I.

Lemma option_eta {A} (v : option A) : match v with Some x => Some x | None => None end = v.
Proof. by destruct v. Qed.

Lemma default_Some {A} (d x : A) : default d (Some x) = x.
Proof. reflexivity. Qed.

Ltac read_object H :=
  cbn [mbind option_bind]; rewrite !H; clear H; cbn [app]; rewrite ?oget_app; cbn [oget]; key_calc;
  rewrite ?oget_app, ?oget_field; key_calc; rewrite ?option_eta, ?default_Some.

Lemma version_read v : version_of (version_json v) = Some v.
Proof.
  destruct v as [i c]. unfold version_of, version_json. cbn [version_id content].
  destruct (read_fields version_keys
              (field (js "id") (VStr <$> i) ++ [(js "content", VStr c)])) as [-> Hat].
  { rewrite okeys_app. apply (sublist_app _ [js "id"] _ [js "content"]); [apply okeys_field|done]. }
  { no_dup_keys. }
  read_object Hat. rewrite (optional_read VStr) by done. done.
Qed.

Lemma reasoning_read r : reasoning_of (reasoning_json r) = Some r.
Proof.
  destruct r as [c d]. unfold reasoning_of, reasoning_json. cbn [reasoning_content duration].
  destruct (read_fields reasoning_keys [(js "content", VStr c); (js "duration", VNum d)])
    as [-> Hat]; [done|no_dup_keys|]. by read_object Hat.
Qed.

Lemma source_read s : source_of (source_json s) = Some s.
Proof.
  destruct s as [a b]. unfold source_of, source_json. cbn [fst snd].
  destruct (read_fields source_keys [(js "href", VStr a); (js "title", VStr b)])
    as [-> Hat]; [done|no_dup_keys|]. by read_object Hat.
Qed.

Lemma role_read r : role_of (VStr (role_str r)) = Some r.
Proof. by destruct r. Qed.

Lemma status_read s : status_of (VStr (status_str s)) = Some s.
Proof. by destruct s. Qed.

Lemma message_fields_keys m p :
  p = [ (js "key", VStr (message_key m)); (js "from", VStr (role_str (from m)));
        (js "versions", VArr (version_json <$> versions m)) ] ->
  forall a b c d e f,
  okeys (p ++ field (js "sources") a ++ field (js "reasoning") b
           ++ field (js "isReasoningStreaming") c ++ field (js "isReasoningComplete") d
           ++ field (js "isContentComplete") e ++ field (js "status") f
           ++ field (js "errorCode") (if is_undef (errorCode m) then None else Some (errorCode m)))
  `sublist_of` message_keys.
Proof.
  intros -> a b c d e f. rewrite !okeys_app.
  change message_keys with ([js "key"; js "from"; js "versions"] ++ [js "sources"] ++ [js "reasoning"]
    ++ [js "isReasoningStreaming"] ++ [js "isReasoningComplete"] ++ [js "isContentComplete"]
    ++ [js "status"] ++ [js "errorCode"]).
  repeat (apply sublist_app; [apply okeys_field || done|]). apply okeys_field.
Qed.

Lemma message_read m : message_of (message_json m) = Some m.
Proof.
  destruct m as [k r vs ss rs a b c st e]. unfold message_of, message_json.
  cbn [message_key from versions sources reasoning isReasoningStreaming isReasoningComplete
       isContentComplete status errorCode].
  edestruct (read_fields message_keys) as [-> Hat];
    [apply (message_fields_keys (Build_Message k r vs ss rs a b c st e) _ eq_refl)|no_dup_keys|].
  cbn [errorCode] in Hat. read_object Hat.
  cbn [arr_of str_of mbind option_bind]. rewrite role_read. cbn [mbind option_bind].
  rewrite (mapM_read version_json version_of) by apply version_read.
  rewrite (optional_read (fun l => VArr (source_json <$> l))), (optional_read reasoning_json),
    !(optional_read VBool), (optional_read (fun s => VStr (status_str s)));
    try done; auto using reasoning_read, status_read.
  - cbn [mbind option_bind]. by destruct e.
  - intros x. apply (mapM_read source_json), source_read.
Qed.

(** What a type kept in the storage promises: its values are written as JSON and read back. *)
Class JsonCodec {A} (enc : A -> jsval) (dec : jsval -> option A) (ok : A -> Prop) := {
  codec_json x : ok x -> json_ok (enc x);
  codec_read x : dec (enc x) = Some x
}.

#[export] Instance message_codec : JsonCodec message_json message_of storable.
Proof. split; [apply json_ok_message|apply message_read]. Qed.

#[export] Instance list_codec {A} (enc : A -> jsval) dec ok :
  JsonCodec enc dec ok -> JsonCodec (fun l => VArr (enc <$> l)) (fun v => arr_of v ≫= mapM dec) (Forall ok).
Proof.
  intros H. split.
  - intros l Hl. apply json_ok_arr, Forall_fmap. eapply Forall_impl; [exact Hl|].
    intros x. apply codec_json.
  - intros l. cbn [arr_of mbind option_bind]. apply mapM_read, codec_read.
Qed.

(** ** Theorems: the storage *)

#[export] Instance payload_proper ms : Proper (obj_eq ==> obj_eq ==> eq) (buildChatCompletionPayload ms).
Proof.
  intros c c' Hc e e' He. unfold buildChatCompletionPayload. f_equal; try by rewrite Hc.
  generalize (@nil (jsstr * jsval)); induction parameterKeys as [|k ks IH]; intros p; [done|].
  cbn [fold_left]. by rewrite IH, (at_proper k _ _ Hc), (at_proper k _ _ He).
Qed.

Lemma storable_finalize m r : storable m -> storable (finalizeMessage m r).
Proof.
  intros [Hd He]. split; [|exact He]. unfold finalizeMessage. cbv zeta. cbn [reasoning with_reasoning].
  destruct (truthy_str _); [|done]. cbn [duration]. destruct (reasoning m) as [x|]; [|by vm_compute].
  unfold or_zero. destruct (truthy_num _); [done|by vm_compute].
Qed.

Lemma storable_sanitize m : storable m -> storable (sanitizeMessage m).
Proof.
  intros H. apply (storable_finalize m None) in H. unfold sanitizeMessage. cbv zeta.
  by destruct (_ || _).
Qed.

Lemma storable_sanitize_all ms : Forall storable ms -> Forall storable (sanitizeMessagesOnLoad ms).
Proof.
  intros H. unfold sanitizeMessagesOnLoad. destruct (last_stuck ms) as [i|]; [|done].
  destruct (ms !! i) as [m|] eqn:E; [|done]. apply Forall_insert; [done|].
  apply storable_sanitize. by eapply Forall_lookup_1.
Qed.

Lemma sanitize_nothing_stuck ms : existsb stuck ms = false -> sanitizeMessagesOnLoad ms = ms.
Proof.
  intros H. apply sanitize_not_stuck, Forall_forall. intros m Hm.
  destruct (stuck m) eqn:E; [|done]. rewrite (proj2 (existsb_elem _ _)) in H; [done|].
  by exists m.
Qed.

Section Storage_theorems.
Context (fits : storage -> bool) (Hfits : forall s, fits s = true).

Lemma save_object_get k o s j :
  getItem (save_object fits k o s) j
  = if bool_decide (j = k) then Some (ser (VObj o)) else getItem s j.
Proof.
  unfold save_object. destruct (setItem_fits fits Hfits k (ser (VObj o)) s) as (s' & -> & H). apply H.
Qed.

Lemma load_saved k o s :
  getItem s k = Some (ser (VObj o)) -> json_ok (VObj o) -> load_object k s = VObj o.
Proof.
  intros Hs Ho. unfold load_object. rewrite Hs, ser_truthy by done.
  by rewrite json_parse_ser.
Qed.

Lemma load_messages_saved ms s :
  Forall storable ms ->
  getItem s MESSAGES = Some (ser (VArr (message_json <$> ms))) ->
  loadMessages fits s = (Messages (sanitizeMessagesOnLoad ms),
    if existsb stuck ms then saveMessages fits (sanitizeMessagesOnLoad ms) s else s).
Proof.
  intros Hms Hs. assert (Hj := codec_json ms Hms). assert (Hr := codec_read ms).
  cbn [arr_of mbind option_bind] in Hr. unfold loadMessages.
  rewrite Hs, ser_truthy, json_parse_ser by done. by rewrite Hr.
Qed.

Lemma save_messages_get ms s j :
  getItem (saveMessages fits ms s) j
  = if bool_decide (j = MESSAGES) then Some (ser (VArr (message_json <$> ms))) else getItem s j.
Proof.
  unfold saveMessages.
  destruct (setItem_fits fits Hfits MESSAGES (ser (VArr (message_json <$> ms))) s) as (s' & -> & H).
  apply H.
Qed.

(** *** What the user does, one action after the other *)

Inductive action :=
  | SetConfig (k : jsstr) (v : jsval)
  | SetParameter (k : jsstr) (b : bool)
  | SetMessages (f : list Message -> list Message)
  | Clear
  | ResetConfig.

Definition act (x : PlaygroundState * storage) (a : action) : PlaygroundState * storage :=
  let '(st, s) := x in
  match a with
  | SetConfig k v => updateConfig fits k v st s
  | SetParameter k b => updateParameterEnabled fits k b st s
  | SetMessages f => updateMessages fits f st s
  | Clear => clearMessages fits st s
  | ResetConfig => resetConfig fits st s
  end.

Definition action_ok (a : action) : Prop :=
  match a with
  | SetConfig _ v => json_ok v
  | SetMessages f => forall ms, Forall storable ms -> Forall storable (f ms)
  | _ => True
  end.

(** Storage that only the console wrote: nothing under a key, or what it saves there. *)
Definition kept_object (k : jsstr) (s : storage) : Prop :=
  getItem s k = None \/ exists o, getItem s k = Some (ser (VObj o)) /\ json_ok (VObj o).

Definition kept_messages (ms : list Message) (s : storage) : Prop :=
  (getItem s MESSAGES = None /\ ms = [])
  \/ (getItem s MESSAGES = Some (ser (VArr (message_json <$> ms))) /\ Forall storable ms).

(** What a reload would make of the objects. *)
Definition reloaded (d : obj) (k : jsstr) (s : storage) : obj :=
  ospread d (entries_of (load_object k s)).

Definition in_step (d : obj) (k : jsstr) (o : obj) (s : storage) : Prop :=
  json_ok (VObj o) /\ (forall j, ohas j d = true -> ohas j o = true)
  /\ obj_eq (reloaded d k s) o.

Definition synced (x : PlaygroundState * storage) : Prop :=
  in_step DEFAULT_CONFIG CONFIG (config (fst x)) (snd x)
  /\ in_step DEFAULT_PARAMETER_ENABLED PARAMETER_ENABLED (parameterEnabled (fst x)) (snd x)
  /\ kept_messages (messages (fst x)) (snd x).

Lemma in_step_saved d k o s :
  json_ok (VObj o) -> (forall j, ohas j d = true -> ohas j o = true) ->
  getItem s k = Some (ser (VObj o)) -> in_step d k o s.
Proof.
  intros Ho Hd Hs. split; [done|]. split; [done|]. unfold reloaded.
  rewrite (load_saved k o s) by done. apply spread_over_defaults; [|done].
  by apply json_ok_obj in Ho as [? _].
Qed.

Lemma in_step_other d k o s s' :
  getItem s' k = getItem s k -> in_step d k o s -> in_step d k o s'.
Proof. unfold in_step, reloaded, load_object. by intros ->. Qed.

Lemma in_step_loaded d k s :
  json_ok (VObj d) -> kept_object k s -> in_step d k (reloaded d k s) s.
Proof.
  intros Hd Hk. split; [|split; [|done] ].
  - apply json_ok_ospread; [done|]. destruct Hk as [Hk|(o & Hk & Ho)].
    + unfold load_object. rewrite Hk. constructor.
    + rewrite (load_saved _ o) by done. by apply json_ok_obj in Ho as [_ ?].
  - intros j. apply has_defaults.
Qed.

Lemma kept_messages_other ms s s' :
  getItem s' MESSAGES = getItem s MESSAGES -> kept_messages ms s -> kept_messages ms s'.
Proof. unfold kept_messages. by intros ->. Qed.

Lemma load_kept ms s :
  kept_messages ms s ->
  exists l s', loadMessages fits s = (l, s')
    /\ match l with Messages x => x | _ => [] end = sanitizeMessagesOnLoad ms
    /\ kept_messages (sanitizeMessagesOnLoad ms) s'
    /\ (forall j, j <> MESSAGES -> getItem s' j = getItem s j).
Proof.
  intros [[Hs ->]|[Hs Hms]].
  - exists NoMessages, s. unfold loadMessages. rewrite Hs. split; [done|]. split; [done|].
    split; [by left|done].
  - rewrite (load_messages_saved ms s) by done. eexists _, _. split; [reflexivity|].
    split; [done|]. pose proof (storable_sanitize_all ms Hms) as Hsan.
    destruct (existsb stuck ms) eqn:E.
    + split; [right; split; [|done]|].
      * by rewrite save_messages_get, bool_decide_eq_true_2.
      * intros j Hj. by rewrite save_messages_get, bool_decide_eq_false_2.
    + rewrite sanitize_nothing_stuck in * by done. split; [by right|done].
Qed.

Lemma synced_init s :
  kept_object CONFIG s -> kept_object PARAMETER_ENABLED s -> (exists ms, kept_messages ms s) ->
  synced (init_state fits s).
Proof.
  intros Hc Hp [ms Hm]. destruct (load_kept ms s Hm) as (l & s' & Hl & El & Hk & Ho).
  unfold init_state. rewrite Hl. split; [|split].
  - apply (in_step_other _ _ _ s); [by apply Ho|]. apply in_step_loaded; [|done].
    apply json_ok_obj. split; [|repeat constructor; by vm_compute].
    apply (canonical_obj_of DEFAULT_CONFIG).
  - apply (in_step_other _ _ _ s); [by apply Ho|]. apply in_step_loaded; [|done].
    apply json_ok_obj. split; [|repeat constructor; by vm_compute].
    apply (canonical_obj_of DEFAULT_PARAMETER_ENABLED).
  - cbn [fst snd messages]. rewrite El. done.
Qed.

Lemma in_step_set d k o s j v :
  json_ok v -> in_step d k o s -> in_step d k (oset j v o) (save_object fits k (oset j v o) s).
Proof.
  intros Hv (Hj & Hd & _). apply in_step_saved; [by apply json_ok_oset| |].
  - intros i Hi. rewrite ohas_oset, (Hd i Hi). apply orb_true_r.
  - by rewrite save_object_get, bool_decide_eq_true_2.
Qed.

Lemma in_step_default d k s :
  json_ok (VObj d) -> in_step d k d (save_object fits k d s).
Proof.
  intros H. apply in_step_saved; [done|done|]. by rewrite save_object_get, bool_decide_eq_true_2.
Qed.

Lemma save_object_other k j o s :
  j <> k -> getItem (save_object fits k o s) j = getItem s j.
Proof. intros H. by rewrite save_object_get, bool_decide_eq_false_2. Qed.

Lemma save_messages_other ms j s :
  j <> MESSAGES -> getItem (saveMessages fits ms s) j = getItem s j.
Proof. intros H. by rewrite save_messages_get, bool_decide_eq_false_2. Qed.

Lemma kept_saved ms s : Forall storable ms -> kept_messages ms (saveMessages fits ms s).
Proof. intros H. right. split; [|done]. by rewrite save_messages_get, bool_decide_eq_true_2. Qed.

Lemma kept_storable ms s : kept_messages ms s -> Forall storable ms.
Proof. intros [[_ ->]|[_ H]]; [constructor|done]. Qed.

Lemma json_ok_defaults : json_ok (VObj DEFAULT_CONFIG) /\ json_ok (VObj DEFAULT_PARAMETER_ENABLED).
Proof.
  split; apply json_ok_obj; (split; [|repeat constructor; by vm_compute]).
  - apply (canonical_obj_of DEFAULT_CONFIG).
  - apply (canonical_obj_of DEFAULT_PARAMETER_ENABLED).
Qed.

Lemma keys_distinct :
  CONFIG <> PARAMETER_ENABLED /\ CONFIG <> MESSAGES /\ PARAMETER_ENABLED <> MESSAGES.
Proof. done. Qed.

Lemma synced_act x a : action_ok a -> synced x -> synced (act x a).
Proof.
  destruct keys_distinct as (H1 & H2 & H3), json_ok_defaults as [D1 D2].
  destruct x as [st s]. intros Ha (Hc & Hp & Hm). pose proof (kept_storable _ _ Hm) as Hst.
  unfold synced in *. cbn [fst snd] in *.
  destruct a as [k v|k b|f| |]; cbn [act updateConfig updateParameterEnabled updateMessages
    clearMessages resetConfig fst snd config parameterEnabled messages].
  - split; [exact (in_step_set _ _ _ _ _ _ Ha Hc)|]. split.
    + exact (in_step_other _ _ _ s _ (save_object_other _ _ _ _ (not_eq_sym H1)) Hp).
    + exact (kept_messages_other _ s _ (save_object_other _ _ _ _ (not_eq_sym H2)) Hm).
  - split; [exact (in_step_other _ _ _ s _ (save_object_other _ _ _ _ H1) Hc)|]. split.
    + exact (in_step_set _ _ _ _ _ (VBool b) I Hp).
    + exact (kept_messages_other _ s _ (save_object_other _ _ _ _ (not_eq_sym H3)) Hm).
  - split; [exact (in_step_other _ _ _ s _ (save_messages_other _ _ _ H2) Hc)|]. split.
    + exact (in_step_other _ _ _ s _ (save_messages_other _ _ _ H3) Hp).
    + exact (kept_saved _ _ (Ha _ Hst)).
  - split; [exact (in_step_other _ _ _ s _ (save_messages_other _ _ _ H2) Hc)|]. split.
    + exact (in_step_other _ _ _ s _ (save_messages_other _ _ _ H3) Hp).
    + exact (kept_saved [] _ (Forall_nil_2 _)).
  - split; [|split].
    + exact (in_step_other _ _ _ _ _ (save_object_other _ _ _ _ H1) (in_step_default _ _ s D1)).
    + exact (in_step_default _ _ _ D2).
    + refine (kept_messages_other _ s _ _ Hm).
      etransitivity; apply save_object_other; by apply not_eq_sym.
Qed.

Lemma synced_run l x : Forall action_ok l -> synced x -> synced (fold_left act l x).
Proof.
  intros Hl. revert x. induction Hl as [|a l Ha Hl IH]; intros x Hx; [done|].
  apply IH. by apply synced_act.
Qed.

(** C2. What the user set up survives a reload.  From a storage that only the console wrote,
    whatever the user changes, a page that starts again from the storage has the same
    configuration and the same enabled parameters, it sends the same request for the same
    messages, and it shows the messages of the old page, the interrupted one repaired. *)
Theorem playground_survives_reload s0 l :
  kept_object CONFIG s0 -> kept_object PARAMETER_ENABLED s0 ->
  (exists ms, kept_messages ms s0) -> Forall action_ok l ->
  let '(st, s) := fold_left act l (init_state fits s0) in
  let '(st', _) := init_state fits s in
  obj_eq (config st') (config st)
  /\ obj_eq (parameterEnabled st') (parameterEnabled st)
  /\ messages st' = sanitizeMessagesOnLoad (messages st)
  /\ forall ms, buildChatCompletionPayload ms (config st') (parameterEnabled st')
                = buildChatCompletionPayload ms (config st) (parameterEnabled st).
Proof.
  intros Hc Hp Hm Hl. pose proof (synced_run l _ Hl (synced_init s0 Hc Hp Hm)) as H.
  destruct (fold_left act l (init_state fits s0)) as [st s].
  destruct H as ((_ & _ & H1) & (_ & _ & H2) & H3). cbn [fst snd] in *.
  destruct (load_kept _ _ H3) as (ld & s' & Hld & El & _ & _).
  unfold init_state. rewrite Hld. split; [exact H1|]. split; [exact H2|]. split; [exact El|].
  intros ms. by apply payload_proper.
Qed.
End Storage_theorems.

Lemma playground_survives_reload_witness :
  let '(st, s) := fold_left (act (fun _ => true))
      [SetConfig (js "model") (VStr (js "gpt-5")); SetParameter (js "top_p") false;
       SetMessages (fun ms => ms ++ [sample_loading]); SetConfig (js "model") (VStr (js "o3"))]
      (init_state (fun _ => true) []) in
  let '(st', _) := init_state (fun _ => true) s in
  obj_eq (config st') (config st)
  /\ obj_eq (parameterEnabled st') (parameterEnabled st)
  /\ messages st' = sanitizeMessagesOnLoad (messages st)
  /\ forall ms, buildChatCompletionPayload ms (config st') (parameterEnabled st')
                = buildChatCompletionPayload ms (config st) (parameterEnabled st).
Proof.
  apply (playground_survives_reload (fun _ => true) (fun _ => eq_refl) []).
  - by left.
  - by left.
  - exists []. by left.
  - do 2 (apply Forall_cons; split; [exact I|]). apply Forall_cons. split.
    + intros ms Hms. apply Forall_app. split; [exact Hms|].
      repeat constructor.
    + repeat constructor.
Defined.

(** ** Theorems: the request *)

Lemma payload_params_oget ks cfg enabled p k :
  oget k (fold_left (fun payload j =>
            if truthy (at_ j enabled) then
              let value := at_ j cfg in
              if negb (is_undef value) && negb (nullish value) then oset j value payload else payload
            else payload) ks p)
  = if bool_decide (k ∈ ks) && truthy (at_ k enabled) && negb (nullish (at_ k cfg))
    then Some (at_ k cfg) else oget k p.
Proof.
  revert p; induction ks as [|j ks IH]; intros p; [done|]. cbn [fold_left]. rewrite IH. clear IH.
  assert (Hu : negb (is_undef (at_ j cfg)) && negb (nullish (at_ j cfg)) = negb (nullish (at_ j cfg)))
    by (by destruct (at_ j cfg)).
  cbv zeta. rewrite Hu. destruct (decide (k = j)) as [->|Hkj].
  - rewrite (bool_decide_eq_true_2 (j ∈ j :: ks)) by apply list_elem_of_here.
    destruct (truthy (at_ j enabled)), (nullish (at_ j cfg)), (bool_decide (j ∈ ks)); try done.
    cbn. by rewrite oget_oset_eq.
  - rewrite (bool_decide_ext (k ∈ j :: ks) (k ∈ ks)) by set_solver.
    by destruct (truthy (at_ j enabled)), (negb (nullish (at_ j cfg))); rewrite ?oget_oset_ne by done.
Qed.

(** The request carries the model, the group and the stream flag of the configuration;
    of the other parameters exactly those that are enabled and set, with their values; and the
    text of every message in order, the messages without a version and the blank answers of
    the assistant left out. *)
Theorem payload_spec ms cfg enabled :
  let p := buildChatCompletionPayload ms cfg enabled in
  (forall k, oget k (req_params p)
     = if bool_decide (k ∈ parameterKeys) && truthy (at_ k enabled) && negb (nullish (at_ k cfg))
       then Some (at_ k cfg) else None)
  /\ req_model p = at_ (js "model") cfg /\ req_group p = at_ (js "group") cfg
  /\ req_stream p = at_ (js "stream") cfg
  /\ (exists kept, kept `sublist_of` ms
       /\ req_messages p
          = (fun m => {| role := from m; api_content := Plain (content (getCurrentVersion m)) |}) <$> kept
       /\ forall m, m ∈ kept <-> m ∈ ms /\ versions m <> []
            /\ (from m = assistant -> trim (content (getCurrentVersion m)) <> [])).
Proof.
  cbv zeta. split; [intros k; apply payload_params_oget|]. do 3 (split; [done|]).
  exists (filterb isValidMessage ms). split; [apply filterb_sublist|]. split; [done|].
  intros m. rewrite elem_of_filterb.
  enough (H : isValidMessage m = true
              <-> versions m <> []
                  /\ (from m = assistant -> trim (content (getCurrentVersion m)) <> []))
    by (rewrite H; tauto).
  unfold isValidMessage, getCurrentVersion. destruct (versions m) as [|v vs]; [naive_solver|].
  destruct (truthy_str (trim (content v))) eqn:E.
  - rewrite andb_false_r. apply truthy_str_spec in E. naive_solver.
  - rewrite andb_true_r. assert (Ht : trim (content v) = []).
    { destruct (trim (content v)); done. }
    rewrite Ht. case_bool_decide; naive_solver.
Qed.
