(* ===== verification/JsonText.v ===== *)
(** * Settings that are JSON texts ([features/system-settings/utils/json-parser.ts],
      [features/system-settings/models/utils.ts])

    Many settings are texts the administrator edits: they are shown indented, compared in a
    normal form, and checked before they are saved.

    The message of the exception [JSON.parse] throws is the engine's: [parse_message] of the
    text is a parameter.  What the source only logs in development is left out. *)

From S2P Require Import Prelude JsString JsRegex JsNumber JsValue JsJson.

#[local] Open Scope N_scope.

(** ** Reading ([json-parser.ts]) *)

Definition safeJsonParse (value : option jsstr) (fallback : jsval) : jsval :=
  let fallback_or_null := vnullish fallback VNull in
  match value with
  | None => fallback_or_null
  | Some s =>
      if negb (truthy_str s) || bool_decide (trim s = []) then fallback_or_null
      else match json_parse (trim s) with Some v => v | None => fallback_or_null end
  end.

Definition safeJsonParseWithValidation (validator : jsval -> bool) (value : option jsstr)
    (fallback : jsval) : jsval :=
  let parsed := safeJsonParse value fallback in
  if negb (validator parsed) then fallback else parsed.

(** [JsonParseResult]: the data, or the error *)
Definition tryJsonParse (parse_message : jsstr -> jsstr) (value : option jsstr) : jsval + jsstr :=
  match value with
  | None => inr (js "Empty value")
  | Some s =>
      if negb (truthy_str s) || bool_decide (trim s = []) then inr (js "Empty value")
      else match json_parse (trim s) with
           | Some data => inl data
           | None => inr (parse_message (trim s))
           end
  end.

(** ** Showing and comparing ([utils.ts]) *)

Definition formatJsonForTextarea (value : option jsstr) : jsstr :=
  match value with
  | None => []
  | Some s =>
      if negb (truthy_str s) || negb (truthy_str (trim s)) then []
      else match json_parse s with Some parsed => pretty parsed | None => s end
  end.

Definition normalizeJsonString (value : option jsstr) : jsstr :=
  let trimmed := trim (default [] value) in
  if negb (truthy_str trimmed) then []
  else match json_parse trimmed with Some parsed => ser parsed | None => trimmed end.

(** ** Checking *)

Inductive ErrorType := required | structure | syntax.

Record ErrorPosition := { line : option N; column : option N; position : option N }.

Record JsonValidationError := {
  err_type : ErrorType; err_position : ErrorPosition; missingCommaLine : option N }.

Definition no_position : ErrorPosition := {| line := None; column := None; position := None |}.

(** The patterns [/at position (\d+)/i] and [/at line (\d+) column (\d+)/i]; under [i] a letter
    of either case matches. *)
Definition re_position : regex := Eval vm_compute in
  re "[aA][tT] [pP][oO][sS][iI][tT][iI][oO][nN] (\d+)".
Definition re_line_column : regex := Eval vm_compute in
  re "[aA][tT] [lL][iI][nN][eE] (\d+) [cC][oO][lL][uU][mM][nN] (\d+)".

Definition group (i : nat) (m : list (nat * jsstr)) : jsstr := default [] (cap i m).

Definition extractErrorPosition (message jsonString : jsstr) : ErrorPosition :=
  match exec re_position message with
  | Some m =>
      let position := digits_val (group 1 m) in
      let lines := split_char 10 (take (N.to_nat position) jsonString) in
      {| line := Some (N.of_nat (length lines));
         column := Some (N.of_nat (length (default [] (last lines))) + 1);
         position := Some position |}
  | None =>
      match exec re_line_column message with
      | Some m => {| line := Some (digits_val (group 1 m)); column := Some (digits_val (group 2 m));
                     position := None |}
      | None => no_position
      end
  end.

(** [n && ...] for a number that may be undefined *)
Definition truthy_N (n : option N) : bool := match n with Some (Npos _) => true | _ => false end.

Definition buildSyntaxError (message jsonString : jsstr) : JsonValidationError :=
  let pos := extractErrorPosition message jsonString in
  let isMissingCommaError :=
    includes (js "Expected ','") message || includes (js "Expected property name") message
    || includes (js "Unexpected string") message in
  {| err_type := syntax; err_position := pos;
     missingCommaLine :=
       match line pos with
       | Some l => if isMissingCommaError && (1 <? l) then Some (l - 1) else None
       | None => None
       end |}.

Definition formatErrorMessage (message jsonString : jsstr) : jsstr :=
  let pos := extractErrorPosition message jsonString in
  let syntaxError := buildSyntaxError message jsonString in
  let show n := digits_of (default 0 n) in
  if truthy_N (line pos) && truthy_N (column pos) then
    let hint := if truthy_N (missingCommaLine syntaxError)
                then js " (check line " ++ show (missingCommaLine syntaxError) ++ js " for missing comma)"
                else [] in
    js "Error at line " ++ show (line pos) ++ js ", column " ++ show (column pos) ++ js ": "
    ++ message ++ hint
  else match position pos with
       | Some p => js "Error at position " ++ digits_of p ++ js ": " ++ message
       | None => message
       end.

(** [predicate] is a check of the caller. *)
Record ValidationOptions := {
  allowEmpty : bool;
  predicate : option (jsval -> bool);
  predicateMessage : option jsstr }.

Record ValidationResult := {
  valid : bool; message : option jsstr; error : option JsonValidationError }.

Definition bare (t : ErrorType) : JsonValidationError :=
  {| err_type := t; err_position := no_position; missingCommaLine := None |}.

Definition validateJsonString (parse_message : jsstr -> jsstr) (value : option jsstr)
    (options : ValidationOptions) : ValidationResult :=
  let trimmed := trim (default [] value) in
  if negb (truthy_str trimmed) then
    {| valid := allowEmpty options;
       message := if allowEmpty options then None else Some (js "Value is required");
       error := if allowEmpty options then None else Some (bare required) |}
  else match json_parse trimmed with
       | Some parsed =>
           if match predicate options with Some p => negb (p parsed) | None => false end then
             {| valid := false;
                message := Some (or_str (default [] (predicateMessage options))
                                        (js "JSON structure is invalid"));
                error := Some (bare structure) |}
           else {| valid := true; message := None; error := None |}
       | None =>
           {| valid := false; message := Some (formatErrorMessage (parse_message trimmed) trimmed);
              error := Some (buildSyntaxError (parse_message trimmed) trimmed) |}
       end.

(** ** Lemmas: printed values have no white space at their ends *)

Lemma scan_digits_split s d r :
  scan_digits s = (d, r) -> s = d ++ r /\ Forall (fun c => is_digit c = true) d.
Proof.
  revert d r; induction s as [|c s IH]; intros d r; cbn [scan_digits]; [by intros [= <- <-]|].
  destruct (is_digit c) eqn:Ec; [|by intros [= <- <-]].
  destruct (scan_digits s) as [d' r'] eqn:E. intros [= <- <-].
  destruct (IH d' r' eq_refl) as [-> Hd]. split; [done|by constructor].
Qed.

Definition solid (s : jsstr) : Prop := Forall (fun c => is_ws c = false) s.

Lemma digits_solid d : Forall (fun c => is_digit c = true) d -> solid d.
Proof. intros H. eapply Forall_impl; [exact H|]. intros c Hc. by apply digit_not_ws. Qed.

Lemma parse_number_solid s x : parse_number s = Some (x, []) -> solid s.
Proof.
  unfold parse_number. destruct (json_sign s) as [neg u] eqn:Es.
  destruct (scan_digits u) as [i r] eqn:Ei. destruct (negb (json_int_ok i)); [done|].
  destruct (json_frac r) as [[f r']|] eqn:Ef; [|done]. cbn [mbind option_bind].
  destruct (json_exp r') as [[y z]|] eqn:Ee; [|done]. cbn [mbind option_bind]. intros [= _ ->].
  assert (Hu : solid u -> solid s).
  { unfold json_sign in Es. destruct s as [|c s]; [constructor|].
    destruct (N.eq_dec c 45) as [->|Hc]; [injection Es as _ <-; by constructor|].
    assert (E : (false, c :: s) = (neg, u)).
    { rewrite <- Es. destruct c as [|c]; [done|]. do 6 (destruct c as [c|c|]; try done). }
    by injection E as _ <-. }
  apply Hu. apply scan_digits_split in Ei as [-> Hi]. apply Forall_app. split; [by apply digits_solid|].
  assert (Hr : solid r' -> solid r).
  { unfold json_frac in Ef. destruct r as [|c r]; [constructor|].
    destruct (N.eq_dec c 46) as [->|Hc].
    - destruct (scan_digits r) as [d t] eqn:Ed. destruct d; [done|]. injection Ef as <- <-.
      apply scan_digits_split in Ed as [-> Hd]. intros Ht. constructor; [done|].
      apply Forall_app. split; [by apply digits_solid|done].
    - assert (E : Some ([], c :: r) = Some (f, r')).
      { rewrite <- Ef. destruct c as [|c]; [done|]. do 6 (destruct c as [c|c|]; try done). }
      by injection E as _ <-. }
  apply Hr. unfold json_exp in Ee. destruct r' as [|c r']; [constructor|].
  destruct ((c =? 101) || (c =? 69)) eqn:Ec; [|done].
  destruct (scan_exponent (c :: r')) as [y' z'] eqn:Ex. destruct (length z' =? _)%nat eqn:El; [done|].
  injection Ee as _ ->. unfold scan_exponent in Ex. rewrite Ec in Ex.
  destruct (exponent_sign r') as [sg u'] eqn:Esg. destruct (scan_digits u') as [d t] eqn:Ed.
  destruct d as [|d0 d]; [by injection Ex|]. injection Ex as _ ->.
  apply scan_digits_split in Ed as [-> Hd]. rewrite app_nil_r in *.
  constructor; [apply orb_true_iff in Ec as [->%N.eqb_eq| ->%N.eqb_eq]; done|].
  apply digits_solid in Hd. unfold exponent_sign in Esg. destruct r' as [|e r']; [constructor|].
  destruct (N.eq_dec e 43) as [->|H1]; [injection Esg as _ ->; by constructor|].
  destruct (N.eq_dec e 45) as [->|H2]; [injection Esg as _ ->; by constructor|].
  assert (E : (1%Z, e :: r') = (sg, d0 :: d)).
  { rewrite <- Esg. destruct e as [|e]; [done|]. do 6 (destruct e as [e|e|]; try done). }
  by injection E as _ -> ->.
Qed.

Lemma print_trim L d v : json_ok v -> trim (print L d v) = print L d v.
Proof.
  destruct v as [| |b|n|s|l|o]; intros Hv; cbn [print]; try done.
  - by destruct b.
  - cbn [ser]. destruct Hv as [Hf Hp]. rewrite Hf. apply trim_no_ws. by eapply parse_number_solid.
  - cbn [ser]. unfold quote. eapply (trim_ends _ 34 34); [done| |done|done].
    by rewrite app_comm_cons, last_snoc.
  - eapply trim_ends; [apply bracket_ends|apply bracket_ends|done|done].
  - eapply trim_ends; [apply bracket_ends|apply bracket_ends|done|done].
Qed.

(** ** Comparing settings *)

(** A text whose value, if it has one, JSON can carry: its numbers print and read back. *)
Definition carried (s : jsstr) : Prop := forall v, json_parse s = Some v -> json_ok v.

Lemma normalize_parsed s v :
  trim s = s -> json_parse s = Some v -> normalizeJsonString (Some s) = ser v.
Proof.
  intros Ht Hp. unfold normalizeJsonString. change (default [] (Some s)) with s.
  rewrite Ht, Hp. destruct s; [by vm_compute in Hp|done].
Qed.

(** Showing a setting indented never makes it look changed: the shown text normalises as
    the stored one, also when it is no JSON.  And two JSON texts normalise alike exactly when
    they hold the same value, so that the comparison of normal forms misses no change. *)
Theorem normalized_comparison s :
  trim s = s -> carried s ->
  normalizeJsonString (Some (formatJsonForTextarea (Some s))) = normalizeJsonString (Some s)
  /\ forall t v w, trim t = t -> json_parse s = Some v -> json_parse t = Some w -> json_ok w ->
       normalizeJsonString (Some s) = normalizeJsonString (Some t) <-> v = w.
Proof.
  intros Hs Hc. split.
  - unfold formatJsonForTextarea. rewrite Hs. destruct s as [|c s]; [done|]. cbn [truthy_str negb orb].
    destruct (json_parse (c :: s)) as [v|] eqn:Hp; [|done]. rewrite (normalize_parsed _ v Hs Hp).
    apply normalize_parsed; [by apply print_trim, Hc|]. by apply json_parse_pretty, Hc.
  - intros t v w Ht Hv Hw Hok. rewrite (normalize_parsed s v), (normalize_parsed t w) by done.
    split; [|by intros ->]. intros E. apply (f_equal json_parse) in E.
    rewrite !json_parse_ser in E by auto. by injection E.
Qed.

(** [{"a": 1}] with white space inside *)
Definition sample_setting : jsstr :=
  js "{ " ++ dq ++ js "a" ++ dq ++ js " :1}".

Lemma normalized_comparison_witness :
  formatJsonForTextarea (Some sample_setting) <> sample_setting
  /\ normalizeJsonString (Some (formatJsonForTextarea (Some sample_setting)))
     = normalizeJsonString (Some sample_setting).
Proof.
  split; [by vm_compute|]. apply (normalized_comparison sample_setting); [by vm_compute|].
  intros v Hv. vm_compute in Hv. injection Hv as <-. apply json_ok_obj. split; [|by repeat constructor].
  apply (json_parse_canonical sample_setting). by vm_compute.
Defined.
