(* ===== verification/ModelPricing.v ===== *)
(** * Model prices ([features/system-settings/models/model-pricing-core.ts],
      [features/system-settings/models/pricing-format.ts])

    The price of a model as the settings page edits it: its mode, its numbers as texts, and
    the prices per million tokens ("lanes") that the page derives from the stored ratios.

    The eight numeric fields of a model and the six lanes are enumerated types; a record of
    the source with one text per field is a function from the field.  The translation
    function [t] is a parameter. *)

From S2P Require Import Prelude JsString JsRegex JsNumber JsValue JsJson RequestRules.

#[local] Open Scope Z_scope.

(** ** Formatting a price ([pricing-format.ts]) *)

Module PricingFormat.

Definition DISPLAY_DECIMALS : nat := 12.
Definition SNAP_DECIMALS : nat := 8.
Definition SNAP_EPSILON : num := Eval vm_compute in dec_to_num false 1 (-12).

(** [Number.EPSILON] *)
Definition EPSILON : num := Eval vm_compute in dec_to_num false 2220446049250313 (-31).

Definition toNumberOrNull (value : jsval) : option num :=
  if is_str [] value || nullish value || is_false value then None
  else let num := to_number value in if is_finite num then Some num else None.

Definition roundToDecimals (value : num) (decimals : nat) : num :=
  let factor := num_of_Z (10 ^ Z.of_nat decimals) in
  ndiv (math_round (nmul value factor)) factor.

(** The loop of [snapFloatDrift]: [n] decimals are left to try. *)
Fixpoint snap_from (n decimals : nat) (tolerance value : num) : num :=
  match n with
  | O => value
  | S n' =>
      let rounded := roundToDecimals value decimals in
      if nleb (math_abs (nsub value rounded)) tolerance then rounded
      else snap_from n' (S decimals) tolerance value
  end.

Definition snapFloatDrift (value : num) : num :=
  let tolerance := math_max SNAP_EPSILON (nmul (nmul (math_abs value) EPSILON) (num_of_Z 8)) in
  snap_from (S SNAP_DECIMALS) 0 tolerance value.

Definition formatPricingNumber (value : jsval) : jsstr :=
  match toNumberOrNull value with
  | None => []
  | Some num =>
      let normalized := snapFloatDrift num in
      num_to_string (parse_float (to_fixed DISPLAY_DECIMALS normalized))
  end.

End PricingFormat.
Export PricingFormat (formatPricingNumber).

(** ** Modes and units *)

Inductive PricingMode := per_token | per_request | per_second | tiered_expr.

#[export] Instance PricingMode_eq_dec : EqDecision PricingMode.
Proof. solve_decision. Defined.

Definition mode_str (m : PricingMode) : jsstr :=
  match m with
  | per_token => js "per-token"
  | per_request => js "per-request"
  | per_second => js "per-second"
  | tiered_expr => js "tiered_expr"
  end.

(** [REQUEST_UNIT_OPTIONS]: value and label key *)
Definition REQUEST_UNIT_OPTIONS : list (jsstr * jsstr) :=
  [ (js "request", js "billingUnit.request"); (js "call", js "billingUnit.call");
    (js "image", js "billingUnit.image"); (js "task", js "billingUnit.task");
    (js "generation", js "billingUnit.generation") ].

(** The unit is a text or undefined; [trim] of any other value throws. *)
Definition formatRequestUnitLabel (unit : jsval) (t : jsstr -> jsstr) : outcome jsstr :=
  let label normalized :=
    match find (fun item => bool_decide (fst item = normalized)) REQUEST_UNIT_OPTIONS with
    | Some item => t (snd item)
    | None => t (js "billingUnit.request")
    end in
  match unit with
  | VUndef | VNull => Return (label (js "request"))
  | VStr u => Return (label (or_str (trim u) (js "request")))
  | _ => Throw
  end.

Definition toBackendBillingMode (mode : PricingMode) : jsstr :=
  match mode with
  | tiered_expr => js "tiered_expr"
  | per_second => js "per_second"
  | per_request => js "per_request"
  | per_token => js "ratio"
  end.

Definition fromBackendBillingMode (mode : jsval) : option PricingMode :=
  if is_str (js "tiered_expr") mode then Some tiered_expr
  else if is_str (js "per_second") mode then Some per_second
  else if is_str (js "per_request") mode then Some per_request
  else None.

(** ** The data of a model *)

Inductive PriceField :=
  | price | ratio | cacheRatio | createCacheRatio | completionRatio | imageRatio
  | audioRatio | audioCompletionRatio.

#[export] Instance PriceField_eq_dec : EqDecision PriceField.
Proof. solve_decision. Defined.

Definition ratio_fields : list PriceField :=
  [ratio; cacheRatio; createCacheRatio; completionRatio; imageRatio; audioRatio; audioCompletionRatio].

Record ModelRatioData := {
  name : jsstr;
  field_of : PriceField -> option jsstr;
  billingMode : option jsstr;
  billingExpr : option jsstr;
  requestRuleExpr : option jsstr;
  requestUnit : jsval }.

(** [x || ''] for a field that may be undefined *)
Definition or_empty (x : option jsstr) : jsstr := default [] x.

Definition ostr (x : option jsstr) : jsval := match x with Some s => VStr s | None => VUndef end.

Definition resolvePricingModeFromData (data : option ModelRatioData) : PricingMode :=
  match data with
  | None => per_token
  | Some d =>
      let mode := ostr (billingMode d) in
      if is_str (js "tiered_expr") mode then tiered_expr
      else if is_str (js "per-second") mode then per_second
      else if is_str (js "per-request") mode then per_request
      else match fromBackendBillingMode mode with
           | Some mapped => mapped
           | None => if truthy_str (or_empty (field_of d price)) then per_request else per_token
           end
  end.

(** ** Texts and numbers *)

Definition hasValue (value : jsval) : bool :=
  negb (is_str [] value || nullish value || is_false value).

Definition formatOptionalNumericField (value : jsval) : jsstr :=
  match value with
  | VNum n => if is_finite n then num_to_string n else []
  | VStr s => s
  | _ => []
  end.

Definition parseOptionalNumericField (value : jsval) : option num :=
  if nullish value || is_str [] value then None
  else
    let num := match value with VNum n => n | _ => parse_float (to_string value) end in
    if is_finite num then Some num else None.

Definition is_zero (value : jsval) : bool :=
  match value with VNum n => neqb n zero | _ => false end.

Definition toNumberOrNull (value : jsval) : option num :=
  if negb (hasValue value) && negb (is_zero value) then None
  else let num := to_number value in if is_finite num then Some num else None.

(** ** Lanes *)

Inductive LaneKey := completion | cache | createCache | image | audioInput | audioOutput.

#[export] Instance LaneKey_eq_dec : EqDecision LaneKey.
Proof. solve_decision. Defined.

Definition EMPTY_LANE_PRICES : LaneKey -> jsstr := fun _ => [].
Definition EMPTY_LANE_ENABLED : LaneKey -> bool := fun _ => false.

Definition ratioFieldByLane (l : LaneKey) : PriceField :=
  match l with
  | completion => completionRatio
  | cache => cacheRatio
  | createCache => createCacheRatio
  | image => imageRatio
  | audioInput => audioRatio
  | audioOutput => audioCompletionRatio
  end.

(** The keys of [laneConfigs], in order *)
Definition laneConfigs : list LaneKey :=
  [completion; cache; createCache; image; audioInput; audioOutput].

(** What may be typed as a number *)
Definition numericDraftRegex : regex := Eval vm_compute in re "^(\d+(\.\d*)?|\.\d*)?$".

Definition ratioToBasePrice (ratio : jsval) : jsstr :=
  match toNumberOrNull ratio with
  | None => []
  | Some num => formatPricingNumber (VNum (nmul num (num_of_Z 2)))
  end.

Definition deriveLanePrice (ratio denominator : jsval) (fallback : jsstr) : jsstr :=
  match toNumberOrNull ratio, toNumberOrNull denominator with
  | Some r, Some d => formatPricingNumber (VNum (nmul r d))
  | _, _ => fallback
  end.

Record LaneState := {
  promptPrice : jsstr;
  prices : LaneKey -> jsstr;
  enabled : LaneKey -> bool }.

Definition createInitialLaneState (data : option ModelRatioData) : LaneState :=
  match data with
  | None => {| promptPrice := []; prices := EMPTY_LANE_PRICES; enabled := EMPTY_LANE_ENABLED |}
  | Some d =>
      let of_field f := ostr (field_of d f) in
      let prompt := ratioToBasePrice (of_field ratio) in
      let audioInputPrice := deriveLanePrice (of_field audioRatio) (VStr prompt) [] in
      {| promptPrice := prompt;
         prices := fun l =>
           match l with
           | audioInput => audioInputPrice
           | audioOutput => deriveLanePrice (of_field audioCompletionRatio) (VStr audioInputPrice) []
           | _ => deriveLanePrice (of_field (ratioFieldByLane l)) (VStr prompt) []
           end;
         enabled := fun l => hasValue (of_field (ratioFieldByLane l)) |}
  end.

(** ** The preview *)

Record PreviewRow := { row_key : jsstr; label : jsstr; row_value : jsstr; multiline : bool }.

Definition preview (k l v : jsstr) : PreviewRow :=
  {| row_key := k; label := l; row_value := v; multiline := false |}.

(** ['$' + v] *)
Definition dollars (v : jsstr) : jsstr := js "$" ++ v.

Section Preview.
Variable t : jsstr -> jsstr.

(** The cell of a lane: its price when the lane is enabled and has one. *)
Definition lane_cell (lanePrices : LaneKey -> jsstr) (laneEnabled : LaneKey -> bool) (l : LaneKey)
  : jsstr :=
  if laneEnabled l && truthy_str (lanePrices l) then dollars (lanePrices l) else t (js "Empty").

(** [price_text] is [values.price] of the form. *)
Definition buildPreviewRows (price_text : jsstr) (mode : PricingMode)
    (billingExpr requestRuleExpr : jsstr) (requestUnit : jsval) (promptPrice : jsstr)
    (lanePrices : LaneKey -> jsstr) (laneEnabled : LaneKey -> bool) : outcome (list PreviewRow) :=
  match mode with
  | tiered_expr =>
      let effectiveExpr := combineBillingExpr billingExpr requestRuleExpr in
      Return [ preview (js "mode") (js "BillingMode") (js "tiered_expr");
               {| row_key := js "expr"; label := t (js "Expression");
                  row_value := or_str effectiveExpr (t (js "Empty")); multiline := true |} ]
  | per_request =>
      obind (formatRequestUnitLabel requestUnit t) (fun unit_label =>
      Return [ preview (js "price") (js "ModelPrice") (or_str price_text (t (js "Empty")));
               preview (js "unit") (t (js "Billing unit")) unit_label ])
  | per_second =>
      Return [ preview (js "price") (js "ModelPrice")
                 (if truthy_str price_text then dollars price_text else t (js "Empty"));
               preview (js "unit") (t (js "Billing unit")) (t (js "billingUnit.second"));
               preview (js "formula") (t (js "Formula")) (t (js "Unit price × upstream seconds")) ]
  | per_token =>
      let cell := lane_cell lanePrices laneEnabled in
      Return [ preview (js "inputPrice") (t (js "Input price"))
                 (if truthy_str promptPrice then dollars promptPrice else t (js "Empty"));
               preview (js "completion") (t (js "Completion price")) (cell completion);
               preview (js "cache") (t (js "Cache read price")) (cell cache);
               preview (js "createCache") (t (js "Cache write price")) (cell createCache);
               preview (js "image") (t (js "Image input price")) (cell image);
               preview (js "audio") (t (js "Audio input price")) (cell audioInput);
               preview (js "audioCompletion") (t (js "Audio output price")) (cell audioOutput) ]
  end.
End Preview.
