(* ===== verification/PricingSnapshots.v ===== *)
(** * Stored model prices ([features/system-settings/models/model-pricing-snapshots.ts],
      and the handlers of [features/system-settings/models/model-ratio-visual-editor.tsx])

    The server keeps the prices in eleven settings, each the text of a JSON object from model
    names: eight numbers, the billing mode, the expression and the unit.  The snapshot of a
    model is its row of the eleven objects; saving and deleting rewrite all eleven texts.

    A setting that holds something else than an object is treated as the language does:
    [null] has no keys, so that reading it throws; writing to a text or number throws. *)

From S2P Require Import Prelude JsString JsRegex JsNumber.
From S2P Require Import JsValue JsJson JsonText RequestRules ModelPricing.

#[local] Open Scope outcome_scope.

(** ** Reading a setting *)

(** [Object.keys(v)] *)
Definition object_keys (v : jsval) : outcome (list jsstr) :=
  if nullish v then Throw else Return (okeys (entries_of v)).

Definition LENGTH : jsstr := js "length".

(** [v[k]], own properties, where [v] is not null *)
Definition own (k : jsstr) (v : jsval) : jsval :=
  match v with
  | VObj o => at_ k o
  | VArr l => if bool_decide (k = LENGTH) then VNum (num_of_Z (Z.of_nat (length l)))
              else at_ k (entries_of v)
  | VStr s => if bool_decide (k = LENGTH) then VNum (num_of_Z (Z.of_nat (length s)))
              else at_ k (entries_of v)
  | _ => VUndef
  end.

(** [delete v[k]] in a module: the keys of a text are fixed, a hole of an array reads as
    undefined. *)
Definition delete_key (k : jsstr) (v : jsval) : outcome jsval :=
  match v with
  | VUndef | VNull => Throw
  | VObj o => Return (VObj (odel k o))
  | VArr l =>
      if bool_decide (k = LENGTH) then Throw
      else match index_key k with
           | Some i => Return (VArr (<[N.to_nat i := VUndef]> l))
           | None => Return v
           end
  | VStr s =>
      if bool_decide (k = LENGTH) || ohas k (entries_of v) then Throw else Return v
  | VBool _ | VNum _ => Return v
  end.

(** [l.length = x] *)
Definition set_length (l : list jsval) (x : jsval) : outcome jsval :=
  let n := to_number x in
  match n with
  | S754_zero _ => Return (VArr [])
  | S754_finite false m e =>
      if is_integer n && nltb n (num_of_Z (2 ^ 32))
      then let len := Z.to_nat (fst (num_frac m e) / snd (num_frac m e)) in
           Return (VArr (take len l ++ replicate (len - length l) VUndef))
      else Throw
  | _ => Throw
  end.

(** [v[k] = x] in a module; a key of an array that is no index is not seen in its JSON text. *)
Definition set_key (k : jsstr) (x v : jsval) : outcome jsval :=
  match v with
  | VObj o => Return (VObj (oset k x o))
  | VArr l =>
      if bool_decide (k = LENGTH) then set_length l x
      else match index_key k with
           | Some i => let n := N.to_nat i in
                       Return (VArr (<[n := x]> (l ++ replicate (S n - length l) VUndef)))
           | None => Return v
           end
  | _ => Throw
  end.

(** ** The eleven settings *)

Inductive StoreField := Prices (f : PriceField) | Modes | Exprs | Units.

#[export] Instance StoreField_eq_dec : EqDecision StoreField.
Proof. solve_decision. Defined.

Definition store_fields : list StoreField :=
  [ Prices price; Prices ratio; Prices cacheRatio; Prices createCacheRatio; Prices completionRatio;
    Prices imageRatio; Prices audioRatio; Prices audioCompletionRatio; Modes; Exprs; Units ].

(** The option key each setting is stored under *)
Definition option_key (f : StoreField) : jsstr :=
  match f with
  | Prices price => js "ModelPrice"
  | Prices ratio => js "ModelRatio"
  | Prices cacheRatio => js "CacheRatio"
  | Prices createCacheRatio => js "CreateCacheRatio"
  | Prices completionRatio => js "CompletionRatio"
  | Prices imageRatio => js "ImageRatio"
  | Prices audioRatio => js "AudioRatio"
  | Prices audioCompletionRatio => js "AudioCompletionRatio"
  | Modes => js "billing_setting.billing_mode"
  | Exprs => js "billing_setting.billing_expr"
  | Units => js "billing_setting.request_unit"
  end.

(** [ModelPricingSnapshotInput]: the text of each setting *)
Definition texts := StoreField -> jsstr.
Definition maps := StoreField -> jsval.

Definition read_maps (t : texts) : maps := fun f => safeJsonParse (Some (t f)) (VObj []).

Definition upd (f : StoreField) (v : jsval) (m : maps) : maps :=
  fun g => if decide (g = f) then v else m g.

(** ** Snapshots *)

Record ModelPricingSnapshot := {
  s_name : jsstr;
  s_field : PriceField -> option jsstr;
  s_mode : PricingMode;
  s_expr : option jsstr;
  s_rules : option jsstr;
  s_unit : jsval;
  hasConflict : bool }.

(** [v?.toString() || ''] *)
Definition text_of (v : jsval) : jsstr := if nullish v then [] else to_string v.

(** [splitBillingExprAndRequestRules(v)]; a value that is no text has no [trim]. *)
Definition split_value (v : jsval) : outcome SplitExpr :=
  match v with VStr s => splitBillingExprAndRequestRules s | _ => Throw end.

(** The row of the model [n] *)
Definition snapshot_of (m : maps) (n : jsstr) : outcome ModelPricingSnapshot :=
  let field f := text_of (own n (m (Prices f))) in
  let mappedMode := fromBackendBillingMode (own n (m Modes)) in
  match mappedMode with
  | Some tiered_expr =>
      let fullExpr := vor (own n (m Exprs)) (VStr []) in
      let! parts := split_value fullExpr in
      Return {| s_name := n; s_field := fun f => Some (field f); s_mode := tiered_expr;
                s_expr := Some (RequestRules.billingExpr parts);
                s_rules := Some (RequestRules.requestRuleExpr parts);
                s_unit := VUndef; hasConflict := false |}
  | Some per_second =>
      Return {| s_name := n; s_field := fun f => if decide (f = price) then Some (field price) else None;
                s_mode := per_second; s_expr := None; s_rules := None; s_unit := VUndef;
                hasConflict := false |}
  | _ =>
      if bool_decide (mappedMode = Some per_request) || truthy_str (field price) then
        Return {| s_name := n;
                  s_field := fun f => if decide (f = price) then Some (field price) else None;
                  s_mode := per_request; s_expr := None; s_rules := None;
                  s_unit := vor (own n (m Units)) (VStr (js "request"));
                  hasConflict :=
                    negb (bool_decide (mappedMode = Some per_request)) && truthy_str (field price)
                    && existsb (fun f => truthy_str (field f)) ratio_fields |}
      else
        Return {| s_name := n; s_field := fun f => Some (field f); s_mode := per_token;
                  s_expr := None; s_rules := None; s_unit := VUndef; hasConflict := false |}
  end.

Definition model_names (m : maps) : outcome (list jsstr) :=
  let! keys := otraverse (fun f => object_keys (m f)) store_fields in Return (uniq (concat keys)).

Definition buildModelSnapshots (t : texts) : outcome (list ModelPricingSnapshot) :=
  let m := read_maps t in
  let! modelNames := model_names m in
  otraverse (snapshot_of m) modelNames.

Definition hasPricingValue (value : option jsstr) : bool :=
  match value with None => false | Some s => truthy_str s end.

(** [JSON.stringify] of the fields that are compared *)
Definition getSnapshotSignature (snapshot : option ModelPricingSnapshot) : jsstr :=
  match snapshot with
  | None => []
  | Some s =>
      let field f := VStr (if hasPricingValue (s_field s f) then or_empty (s_field s f) else []) in
      ser (VObj
        [ (js "price", field price); (js "ratio", field ratio); (js "cacheRatio", field cacheRatio);
          (js "createCacheRatio", field createCacheRatio);
          (js "completionRatio", field completionRatio); (js "imageRatio", field imageRatio);
          (js "audioRatio", field audioRatio);
          (js "audioCompletionRatio", field audioCompletionRatio);
          (js "billingMode", VStr (mode_str (s_mode s)));
          (js "billingExpr", VStr (or_empty (s_expr s)));
          (js "requestRuleExpr", VStr (or_empty (s_rules s)));
          (js "requestUnit", vor (s_unit s) (VStr (js "request"))) ])
  end.

(** ** Deleting and saving *)

Definition delete_model (n : jsstr) (m : maps) : outcome maps :=
  ofold (fun m f => let! v := delete_key n (m f) in Return (upd f v m)) store_fields m.

(** [onChange] of every setting with [JSON.stringify(map, null, 2)] *)
Definition write_maps (m : maps) : texts := fun f => pretty (m f).

Definition handleDelete (t : texts) (n : jsstr) : outcome texts :=
  omapr write_maps (delete_model n (read_maps t)).

Definition setIfPresent (f : StoreField) (n : jsstr) (value : option jsstr) (m : maps) : outcome maps :=
  let s := or_empty value in
  if truthy_str s then
    let parsed := parse_float s in
    if is_finite parsed then let! v := set_key n (VNum parsed) (m f) in Return (upd f v m)
    else Return m
  else Return m.

Definition set_text (f : StoreField) (n : jsstr) (value : jsval) (m : maps) : outcome maps :=
  let! v := set_key n value (m f) in Return (upd f v m).

Definition set_prices (data : ModelRatioData) (n : jsstr) (fs : list PriceField) (m : maps)
  : outcome maps :=
  ofold (fun m f => setIfPresent (Prices f) n (field_of data f) m) fs m.

(** What a turn of the loop over [targetNames] writes after its deletions, by mode *)
Definition write_tiered (data : ModelRatioData) (n : jsstr) (m : maps) : outcome maps :=
  let combined := combineBillingExpr (or_empty (ModelPricing.billingExpr data))
                                     (or_empty (ModelPricing.requestRuleExpr data)) in
  let! m1 := if truthy_str combined
             then let! m' := set_text Modes n (VStr (js "tiered_expr")) m in
                  set_text Exprs n (VStr combined) m'
             else Return m in
  set_prices data n (price :: ratio_fields) m1.

Definition write_per_second (data : ModelRatioData) (n : jsstr) (m : maps) : outcome maps :=
  let! m1 := set_prices data n [price] m in
  set_text Modes n (VStr (toBackendBillingMode per_second)) m1.

Definition write_per_request (data : ModelRatioData) (n : jsstr) (m : maps) : outcome maps :=
  let! m1 := set_prices data n [price] m in
  let! m2 := set_text Modes n (VStr (toBackendBillingMode per_request)) m1 in
  let unit := ModelPricing.requestUnit data in
  if truthy unit && negb (is_str (js "request") unit) then set_text Units n unit m2 else Return m2.

Definition write_by_price (data : ModelRatioData) (n : jsstr) (m : maps) : outcome maps :=
  if truthy_str (or_empty (field_of data price)) then set_prices data n [price] m
  else set_prices data n ratio_fields m.

Definition write_model (data : ModelRatioData) (n : jsstr) (m : maps) : outcome maps :=
  let mode := ostr (ModelPricing.billingMode data) in
  if is_str (js "tiered_expr") mode then write_tiered data n m
  else if is_str (js "per-second") mode then write_per_second data n m
  else if is_str (js "per-request") mode then write_per_request data n m
  else write_by_price data n m.

(** One turn of the loop *)
Definition persist_one (data : ModelRatioData) (m : maps) (n : jsstr) : outcome maps :=
  let! m1 := delete_model n m in write_model data n m1.

Definition persistPricingData (t : texts) (data : ModelRatioData) (targetNames : list jsstr)
  : outcome texts :=
  omapr write_maps (ofold (persist_one data) targetNames (read_maps t)).

(** ** What the table shows *)

Definition getModeLabel (mode : option jsstr) : jsstr :=
  let m := ostr mode in
  if is_str (js "per-request") m then js "Per-request"
  else if is_str (js "per-second") m then js "Per-second"
  else if is_str (js "tiered_expr") m then js "Expression"
  else js "Per-token".

Definition getModeVariant (mode : option jsstr) : jsstr :=
  let m := ostr mode in
  if is_str (js "per-request") m then js "warning"
  else if is_str (js "per-second") m then js "neutral"
  else if is_str (js "tiered_expr") m then js "info"
  else js "success".

Definition toNumberOrNull (value : option jsstr) : option num :=
  if negb (hasPricingValue value) then None
  else let num := number_of_string (or_empty value) in if is_finite num then Some num else None.

Definition ratioToPrice (ratio denominator : option jsstr) : jsstr :=
  let ratioNumber := toNumberOrNull ratio in
  let denominatorNumber := if truthy_str (or_empty denominator) then toNumberOrNull denominator
                           else Some (num_of_Z 2) in
  match ratioNumber, denominatorNumber with
  | Some r, Some d => formatPricingNumber (VNum (nmul r d))
  | _, _ => []
  end.

Definition re_tier_call : regex := Eval vm_compute in re "tier\(".

Definition show_nat (n : nat) : jsstr := digits_of (N.of_nat n).

Section Table.
(** [t(key)], and [t(key, { unit })] *)
Variables (t : jsstr -> jsstr) (t_unit : jsstr -> jsstr -> jsstr).

Definition getExpressionSummary (row : ModelPricingSnapshot) : jsstr :=
  let tierCount := length (exec_all re_tier_call (or_empty (s_expr row))) in
  if (0 <? tierCount)%nat
  then t (js "Tiered pricing") ++ js " · " ++ show_nat tierCount ++ js " " ++ t (js "tiers")
  else t (js "Expression pricing").

Definition getPriceSummary (row : ModelPricingSnapshot) : outcome jsstr :=
  let row_price := or_empty (s_field row price) in
  match s_mode row with
  | tiered_expr => Return (getExpressionSummary row)
  | per_request =>
      let! unit := formatRequestUnitLabel (s_unit row) t in
      Return (if truthy_str row_price then dollars row_price ++ js " / " ++ unit
              else t (js "Unset price"))
  | per_second =>
      Return (if truthy_str row_price then dollars row_price ++ js " / " ++ t (js "billingUnit.second")
              else t (js "Unset price"))
  | per_token =>
      let inputPrice := ratioToPrice (s_field row ratio) None in
      Return (
        if negb (truthy_str inputPrice) then t (js "Unset price")
        else
          let extraCount := length (filterb (fun f => hasPricingValue (s_field row f))
            [completionRatio; cacheRatio; createCacheRatio; imageRatio; audioRatio; audioCompletionRatio]) in
          if (0 <? extraCount)%nat
          then t (js "Input") ++ js " $" ++ inputPrice ++ js " · " ++ show_nat extraCount
               ++ js " " ++ t (js "extras")
          else t (js "Input") ++ js " $" ++ inputPrice)
  end.

Definition getPriceDetail (row : ModelPricingSnapshot) : outcome jsstr :=
  match s_mode row with
  | tiered_expr =>
      Return (if truthy_str (or_empty (s_rules row)) then t (js "Includes request rules")
              else t (js "Expression based"))
  | per_request =>
      let! unit := formatRequestUnitLabel (s_unit row) t in
      Return (t_unit (js "Fixed price per {{unit}}") unit)
  | per_second => Return (t (js "Unit price multiplied by upstream seconds"))
  | per_token =>
      let inputPrice := ratioToPrice (s_field row ratio) None in
      Return (
        if negb (truthy_str inputPrice) then t (js "No base input price")
        else
          let detail f key := if truthy_str (or_empty (s_field row f))
                              then t key ++ js " $" ++ ratioToPrice (s_field row f) (Some inputPrice)
                              else [] in
          let details := take 2 (filter_truthy
            [ detail completionRatio (js "Output"); detail cacheRatio (js "Cache");
              detail createCacheRatio (js "Cache write") ]) in
          match details with
          | [] => t (js "Base input price only")
          | _ => join (js " · ") details
          end)
  end.
End Table.

(** ** The rows of the table: saved settings and unsaved draft *)

Record ModelRow := {
  displayed : ModelPricingSnapshot;
  saved : option ModelPricingSnapshot;
  draft : option ModelPricingSnapshot;
  isDraftChanged : bool;
  isDraftDeleted : bool;
  isDraftNew : bool }.

(** [new Map(rows.map((row) => [row.name, row]))] read at a name; names are distinct. *)
Definition row_named (n : jsstr) (rows : list ModelPricingSnapshot) : option ModelPricingSnapshot :=
  find (fun r => bool_decide (s_name r = n)) rows.

Definition is_some {A} (x : option A) : bool := match x with Some _ => true | None => false end.

Definition model_row (savedRows draftRows : list ModelPricingSnapshot) (n : jsstr) : option ModelRow :=
  let sv := row_named n savedRows in
  let dr := row_named n draftRows in
  match (match dr with Some d => Some d | None => sv end) with
  | None => None
  | Some shown =>
      Some {| displayed := shown; saved := sv; draft := dr;
              isDraftChanged := negb (bool_decide (getSnapshotSignature sv = getSnapshotSignature dr));
              isDraftDeleted := is_some sv && negb (is_some dr);
              isDraftNew := negb (is_some sv) && is_some dr |}
  end.

Section Rows.
(** [a.localeCompare(b) <= 0] *)
Variable locale_le : jsstr -> jsstr -> bool.

(** [Array.prototype.sort], which is stable *)
Fixpoint insert_row (r : ModelRow) (l : list ModelRow) : list ModelRow :=
  match l with
  | [] => [r]
  | x :: u => if locale_le (s_name (displayed r)) (s_name (displayed x)) then r :: l
              else x :: insert_row r u
  end.

Definition sort_rows (l : list ModelRow) : list ModelRow := fold_right insert_row [] l.

Definition models (savedTexts draftTexts : texts) : outcome (list ModelRow) :=
  let! savedRows := buildModelSnapshots savedTexts in
  let! draftRows := buildModelSnapshots draftTexts in
  let modelNames := uniq ((s_name <$> savedRows) ++ (s_name <$> draftRows)) in
  Return (sort_rows (filterb (fun r => negb (isDraftDeleted r))
                             (omap (model_row savedRows draftRows) modelNames))).

(** The number of rows of a mode *)
Definition modeCounts (rows : list ModelRow) (mode : PricingMode) : nat :=
  length (filterb (fun r => bool_decide (s_mode (displayed r) = mode)) rows).
End Rows.

(** The data the editor opens for a row *)
Definition edit_data (editableModel : ModelPricingSnapshot) : ModelRatioData :=
  let data m := {| name := s_name editableModel; field_of := s_field editableModel;
                   billingMode := Some m; billingExpr := s_expr editableModel;
                   requestRuleExpr := s_rules editableModel;
                   requestUnit := vor (s_unit editableModel) (VStr (js "request")) |} in
  data (mode_str (resolvePricingModeFromData (Some (data (mode_str (s_mode editableModel)))))).

Definition handleEdit (model : ModelRow) : ModelRatioData :=
  edit_data (match draft model with Some d => d | None => default (displayed model) (saved model) end).

(** ** Well-typed settings *)

(** Eight numbers that print and read back, and three texts, by model name *)
Definition typed_val (f : StoreField) (v : jsval) : Prop :=
  match f with
  | Prices _ => exists n, v = VNum n /\ num_ok n
  | _ => exists s, v = VStr s
  end.

Definition typed (m : maps) : Prop :=
  forall f, exists o, m f = VObj o /\ canonical o /\ Forall (fun kv => typed_val f (snd kv)) o.

Definition typed_texts (t : texts) : Prop := typed (read_maps t).

Definition as_obj (v : jsval) : obj := match v with VObj o => o | _ => [] end.

(** What saving [data] stores for a model *)
Definition price_value (v : option jsstr) : option num :=
  let s := or_empty v in
  if truthy_str s && is_finite (parse_float s) then Some (parse_float s) else None.

Definition number_of (v : option jsstr) : jsval :=
  match price_value v with Some x => VNum x | None => VUndef end.

Definition combined_expr (data : ModelRatioData) : jsstr :=
  combineBillingExpr (or_empty (ModelPricing.billingExpr data)) (or_empty (ModelPricing.requestRuleExpr data)).

Definition stored_tiered (data : ModelRatioData) (f : StoreField) : jsval :=
  match f with
  | Prices p => number_of (field_of data p)
  | Modes => if truthy_str (combined_expr data) then VStr (js "tiered_expr") else VUndef
  | Exprs => if truthy_str (combined_expr data) then VStr (combined_expr data) else VUndef
  | Units => VUndef
  end.

Definition stored_per_second (data : ModelRatioData) (f : StoreField) : jsval :=
  match f with
  | Prices price => number_of (field_of data price)
  | Modes => VStr (js "per_second")
  | _ => VUndef
  end.

Definition stored_per_request (data : ModelRatioData) (f : StoreField) : jsval :=
  match f with
  | Prices price => number_of (field_of data price)
  | Modes => VStr (js "per_request")
  | Units => let unit := ModelPricing.requestUnit data in
             if truthy unit && negb (is_str (js "request") unit) then unit else VUndef
  | _ => VUndef
  end.

(** Without a mode, a price or else the ratios *)
Definition stored_by_price (data : ModelRatioData) (f : StoreField) : jsval :=
  match f with
  | Prices p => if Bool.eqb (bool_decide (p = price)) (truthy_str (or_empty (field_of data price)))
                then number_of (field_of data p) else VUndef
  | _ => VUndef
  end.

Definition stored (data : ModelRatioData) (f : StoreField) : jsval :=
  let mode := ostr (ModelPricing.billingMode data) in
  if is_str (js "tiered_expr") mode then stored_tiered data f
  else if is_str (js "per-second") mode then stored_per_second data f
  else if is_str (js "per-request") mode then stored_per_request data f
  else stored_by_price data f.

(** Numbers that can be stored, and a unit that is a text or absent *)
Definition data_ok (data : ModelRatioData) : Prop :=
  (forall f x, price_value (field_of data f) = Some x -> num_ok x)
  /\ (nullish (ModelPricing.requestUnit data) = true \/ exists s, ModelPricing.requestUnit data = VStr s).

(** The row of one model: [None] when no setting has the name *)
Definition stored_row (t : texts) (n : jsstr) : outcome (option ModelPricingSnapshot) :=
  let! ns := model_names (read_maps t) in
  if bool_decide (n ∈ ns) then omapr Some (snapshot_of (read_maps t) n) else Return None.

(** ** Lemmas: one property *)

Lemma typed_own m f j : typed m -> own j (m f) = VUndef \/ typed_val f (own j (m f)).
Proof.
  intros H. destruct (H f) as (o & -> & _ & Ho). cbn [own]. rewrite at_oget.
  destruct (oget j o) as [v|] eqn:E; [|by left]. right. apply oget_Some_elem in E.
  by eapply Forall_forall in Ho; [|exact E].
Qed.

Lemma typed_val_defined f v : typed_val f v -> v <> VUndef.
Proof. intros Hv ->. destruct f; destruct Hv as [x Hx]; [by destruct Hx|done..]. Qed.

(** [m'] is [m] with the values [h]. *)
Definition becomes (m m' : maps) (h : StoreField -> jsstr -> jsval) : Prop :=
  typed m' /\ forall g j, own j (m' g) = h g j.

Lemma set_text_spec f n v m :
  typed m -> typed_val f v ->
  exists m', set_text f n v m = Return m'
             /\ becomes m m' (fun g j => if decide (g = f /\ j = n) then v else own j (m g)).
Proof.
  intros Hm Hv. destruct (Hm f) as (o & Ho & Hc & Hall). unfold set_text. rewrite Ho. cbn [set_key obind].
  eexists. split; [done|]. split.
  - intros g. unfold upd. destruct (decide (g = f)) as [->|]; [|apply Hm].
    exists (oset n v o). split; [done|]. split; [by apply canonical_oset|by apply Forall_oset].
  - intros g j. unfold upd. destruct (decide (g = f)) as [->|Hg].
    + cbn [own]. rewrite Ho. cbn [own]. rewrite !at_oget, oget_oset.
      destruct (decide (j = n)) as [->|Hj].
      * by rewrite bool_decide_eq_true_2, decide_True.
      * rewrite bool_decide_eq_false_2 by done. by rewrite decide_False by naive_solver.
    + by rewrite decide_False by naive_solver.
Qed.

(** Deleting a model deletes its key from every object. *)
Lemma delete_fields_spec fs n m :
  NoDup fs -> (forall f, exists o, m f = VObj o) ->
  exists m', ofold (fun m f => let! v := delete_key n (m f) in Return (upd f v m)) fs m = Return m'
             /\ forall g, m' g = if decide (g ∈ fs) then VObj (odel n (as_obj (m g))) else m g.
Proof.
  revert m; induction fs as [|f fs IH]; intros m Hnd Hm; cbn [ofold].
  { exists m. split; [done|]. intros g. by rewrite decide_False by apply not_elem_of_nil. }
  apply NoDup_cons in Hnd as [Hf Hnd]. destruct (Hm f) as [o Ho]. rewrite Ho. cbn [delete_key obind].
  destruct (IH (upd f (VObj (odel n o)) m) Hnd) as (m' & E & H).
  { intros g. unfold upd. case_decide; [by eexists|apply Hm]. }
  exists m'. split; [exact E|]. intros g. rewrite H. unfold upd. destruct (decide (g = f)) as [->|Hg].
  - rewrite decide_False by done. rewrite decide_True by set_solver. by rewrite Ho.
  - destruct (decide (g ∈ fs)); [rewrite decide_True by set_solver|rewrite decide_False by set_solver]; done.
Qed.

Lemma all_fields f : f ∈ store_fields.
Proof. apply (bool_decide_unpack _). by destruct f as [[]| | |]. Qed.

Lemma fields_NoDup : NoDup store_fields.
Proof. by apply (bool_decide_unpack _). Qed.

Lemma typed_obj m f : typed m -> m f = VObj (as_obj (m f)).
Proof. intros H. by destruct (H f) as (o & -> & _). Qed.

Lemma delete_model_maps n m :
  typed m ->
  exists m', delete_model n m = Return m' /\ forall f, m' f = VObj (odel n (as_obj (m f))).
Proof.
  intros Hm. destruct (delete_fields_spec store_fields n m fields_NoDup) as (m' & E & H).
  { intros f. destruct (Hm f) as (o & -> & _). by eexists. }
  exists m'. split; [exact E|]. intros f. rewrite H. by rewrite decide_True by apply all_fields.
Qed.

Lemma typed_odel n m m' : typed m -> (forall f, m' f = VObj (odel n (as_obj (m f)))) -> typed m'.
Proof.
  intros Hm H f. rewrite H. destruct (Hm f) as (o & -> & Hc & Ho). cbn [as_obj].
  exists (odel n o). split; [done|]. split; [by apply canonical_odel|].
  apply Forall_forall. intros x Hx. eapply Forall_forall in Ho; [exact Ho|].
  eapply sublist_in; [apply filterb_sublist|exact Hx].
Qed.

Lemma own_odel n m m' f j :
  typed m -> (forall f, m' f = VObj (odel n (as_obj (m f)))) ->
  own j (m' f) = if decide (j = n) then VUndef else own j (m f).
Proof.
  intros Hm H. rewrite H, (typed_obj m f Hm). cbn [own as_obj]. rewrite !at_oget, oget_odel.
  destruct (decide (j = n)) as [->|Hj]; [by rewrite bool_decide_eq_true_2|by rewrite bool_decide_eq_false_2].
Qed.

Lemma delete_model_spec n m :
  typed m ->
  exists m', delete_model n m = Return m'
             /\ becomes m m' (fun g j => if decide (j = n) then VUndef else own j (m g)).
Proof.
  intros Hm. destruct (delete_model_maps n m Hm) as (m' & E & H). exists m'. split; [exact E|].
  split; [by eapply typed_odel|]. intros g j. by apply own_odel.
Qed.

Lemma setIfPresent_spec f n v m :
  typed m -> (forall x, price_value v = Some x -> num_ok x) ->
  exists m', setIfPresent (Prices f) n v m = Return m'
             /\ becomes m m' (fun g j => if decide (g = Prices f /\ j = n)
                                         then vnullish (number_of v) (own j (m g)) else own j (m g)).
Proof.
  intros Hm Hv. unfold setIfPresent, number_of, price_value in *.
  destruct (truthy_str (or_empty v)) eqn:Et; [destruct (is_finite _) eqn:Ef|]; cbn [andb] in *.
  - destruct (set_text_spec (Prices f) n (VNum (parse_float (or_empty v))) m Hm) as (m' & E & Hm').
    { eexists. split; [done|]. by apply Hv. }
    exists m'. split; [exact E|]. exact Hm'.
  - exists m. repeat split; [done|]. intros g j. by case_decide.
  - exists m. repeat split; [done|]. intros g j. by case_decide.
Qed.

Lemma set_prices_spec data n fs m :
  typed m -> data_ok data ->
  exists m', set_prices data n fs m = Return m'
             /\ becomes m m' (fun g j =>
                  match g with
                  | Prices f => if decide (f ∈ fs /\ j = n)
                                then vnullish (number_of (field_of data f)) (own j (m g)) else own j (m g)
                  | _ => own j (m g)
                  end).
Proof.
  intros Hm Hd. revert m Hm; induction fs as [|f fs IH]; intros m Hm; unfold set_prices; cbn [ofold].
  { exists m. split; [done|]. split; [done|]. intros [g| | |] j; [|done..].
    rewrite decide_False; [done|]. intros [Hg _]. by apply not_elem_of_nil in Hg. }
  destruct (setIfPresent_spec f n (field_of data f) m Hm (proj1 Hd f)) as (m1 & E1 & Hm1 & H1).
  rewrite E1. cbn [obind]. destruct (IH m1 Hm1) as (m2 & E2 & Hm2 & H2).
  exists m2. split; [done|]. split; [done|]. intros g j. rewrite H2. clear H2 E2 IH E1.
  destruct g as [g| | |]; rewrite !H1; [|by rewrite decide_False by naive_solver..].
  destruct (decide (j = n)) as [->|Hj]; [|by rewrite !decide_False by naive_solver].
  destruct (decide (g = f)) as [->|Hg].
  - rewrite (decide_True (P := Prices f = Prices f /\ n = n)) by done.
    rewrite (decide_True (P := f ∈ f :: fs /\ n = n)) by set_solver.
    case_decide; [|done]. by destruct (number_of (field_of data f)).
  - rewrite (decide_False (P := Prices g = Prices f /\ n = n)) by naive_solver.
    destruct (decide (g ∈ fs)); [rewrite !decide_True by set_solver|rewrite !decide_False by set_solver]; done.
Qed.

(** ** Lemmas: saving one model *)

Lemma ratio_fields_elem p : p ∈ ratio_fields <-> p <> price.
Proof. rewrite <- (bool_decide_eq_true (p ∈ ratio_fields)). by destruct p. Qed.

Lemma vnullish_number v : vnullish (number_of v) VUndef = number_of v.
Proof. unfold number_of. by destruct (price_value v). Qed.

Lemma all_prices p : p ∈ price :: ratio_fields.
Proof. apply (bool_decide_unpack _). by destruct p. Qed.

(** Decide which of the written properties one is. *)
Ltac not_written :=
  exfalso;
  match goal with
  | H : ~ (_ /\ ?n = ?n) |- _ =>
      apply H; split;
      [first [done | apply all_prices | by apply list_elem_of_singleton | by apply ratio_fields_elem] | done]
  | H : _ ∈ [_] |- _ => by apply list_elem_of_singleton in H
  | H : _ ∈ ratio_fields |- _ => by apply ratio_fields_elem in H
  end.

Ltac which_written Hn :=
  repeat case_decide; destruct_and?; simplify_eq; rewrite ?Hn, ?vnullish_number;
  first [done | not_written].

Section WriteModel.
Context (data : ModelRatioData) (n : jsstr) (m : maps).
Context (Hm : typed m) (Hd : data_ok data) (Hn : forall f, own n (m f) = VUndef).

(** A model that no setting has is written as [st]. *)
Definition written (w : outcome maps) (st : StoreField -> jsval) : Prop :=
  exists m', w = Return m' /\ becomes m m' (fun g j => if decide (j = n) then st g else own j (m g)).

Lemma tiered_written : written (write_tiered data n m) (stored_tiered data).
Proof.
  unfold write_tiered. fold (combined_expr data).
  destruct (truthy_str (combined_expr data)) eqn:Ec.
  - destruct (set_text_spec Modes n (VStr (js "tiered_expr")) m Hm) as (m2 & -> & Hm2 & H2); [by eexists|].
    cbn [obind].
    destruct (set_text_spec Exprs n (VStr (combined_expr data)) m2 Hm2) as (m3 & -> & Hm3 & H3); [by eexists|].
    cbn [obind].
    destruct (set_prices_spec data n (price :: ratio_fields) m3 Hm3 Hd) as (m4 & E4 & Hm4 & H4).
    exists m4. split; [exact E4|]. split; [done|]. intros g j. rewrite H4. unfold stored_tiered. rewrite Ec.
    destruct g as [p| | |]; rewrite ?H3, ?H2; which_written Hn.
  - destruct (set_prices_spec data n (price :: ratio_fields) m Hm Hd) as (m4 & E4 & Hm4 & H4).
    exists m4. split; [exact E4|]. split; [done|]. intros g j. rewrite H4. unfold stored_tiered. rewrite Ec.
    destruct g as [p| | |]; which_written Hn.
Qed.

Lemma per_second_written : written (write_per_second data n m) (stored_per_second data).
Proof.
  unfold write_per_second.
  destruct (set_prices_spec data n [price] m Hm Hd) as (m2 & -> & Hm2 & H2). cbn [obind].
  destruct (set_text_spec Modes n (VStr (js "per_second")) m2 Hm2) as (m3 & E3 & Hm3 & H3); [by eexists|].
  exists m3. split; [exact E3|]. split; [done|]. intros g j. rewrite H3.
  destruct g as [[]| | |]; rewrite ?H2; which_written Hn.
Qed.

Lemma per_request_written : written (write_per_request data n m) (stored_per_request data).
Proof.
  unfold write_per_request, stored_per_request.
  destruct (set_prices_spec data n [price] m Hm Hd) as (m2 & -> & Hm2 & H2). cbn [obind].
  destruct (set_text_spec Modes n (VStr (js "per_request")) m2 Hm2) as (m3 & E3 & Hm3 & H3); [by eexists|].
  change (toBackendBillingMode per_request) with (js "per_request"). rewrite E3. cbn [obind].
  destruct (truthy (ModelPricing.requestUnit data) && _) eqn:Eu.
  - destruct (set_text_spec Units n (ModelPricing.requestUnit data) m3 Hm3) as (m4 & E4 & Hm4 & H4).
    { destruct Hd as [_ [Hu|Hu] ]; [|exact Hu]. by destruct (ModelPricing.requestUnit data). }
    exists m4. split; [exact E4|]. split; [done|]. intros g j. rewrite H4.
    destruct g as [[]| | |]; rewrite ?H3, ?H2; which_written Hn.
  - exists m3. split; [done|]. split; [done|]. intros g j. rewrite H3.
    destruct g as [[]| | |]; rewrite ?H2; which_written Hn.
Qed.

Lemma by_price_written : written (write_by_price data n m) (stored_by_price data).
Proof.
  unfold write_by_price, stored_by_price. destruct (truthy_str (or_empty (field_of data price))).
  - destruct (set_prices_spec data n [price] m Hm Hd) as (m2 & E2 & Hm2 & H2).
    exists m2. split; [exact E2|]. split; [done|]. intros g j. rewrite H2.
    destruct g as [[]| | |]; which_written Hn.
  - destruct (set_prices_spec data n ratio_fields m Hm Hd) as (m2 & E2 & Hm2 & H2).
    exists m2. split; [exact E2|]. split; [done|]. intros g j. rewrite H2.
    destruct g as [p| | |]; [destruct (decide (p = price)) as [->|Hp]; [|destruct p]|..]; which_written Hn.
Qed.

Lemma model_written : written (write_model data n m) (stored data).
Proof.
  unfold write_model, stored. repeat case_match;
    [apply tiered_written|apply per_second_written|apply per_request_written|apply by_price_written].
Qed.
End WriteModel.

Lemma persist_one_spec data n m :
  typed m -> data_ok data -> written n m (persist_one data m n) (stored data).
Proof.
  intros Hm Hd. unfold persist_one. destruct (delete_model_spec n m Hm) as (m1 & -> & Hm1 & H1).
  cbn [obind]. destruct (model_written data n m1 Hm1 Hd) as (m2 & E2 & Hm2 & H2).
  { intros f. by rewrite H1, decide_True. }
  exists m2. split; [done|]. split; [done|]. intros g j. rewrite H2. case_decide; [done|].
  by rewrite H1, decide_False.
Qed.

Lemma persist_fold_spec data ns m :
  typed m -> data_ok data ->
  exists m', ofold (persist_one data) ns m = Return m'
             /\ becomes m m' (fun g j => if decide (j ∈ ns) then stored data g else own j (m g)).
Proof.
  intros Hm Hd. revert m Hm; induction ns as [|n ns IH]; intros m Hm; cbn [ofold].
  { exists m. split; [done|]. split; [done|]. intros g j. rewrite decide_False; [done|]. apply not_elem_of_nil. }
  destruct (persist_one_spec data n m Hm Hd) as (m1 & -> & Hm1 & H1). cbn [obind].
  destruct (IH m1 Hm1) as (m2 & E2 & Hm2 & H2). exists m2. split; [done|]. split; [done|].
  intros g j. rewrite H2, H1. repeat case_decide; set_solver.
Qed.

(** ** Lemmas: texts and rows *)

Lemma read_write m f : typed m -> read_maps (write_maps m) f = m f.
Proof.
  intros Hm. unfold read_maps, write_maps, safeJsonParse. destruct (Hm f) as (o & -> & Hc & Ho).
  assert (Ht : trim (pretty (VObj o)) = pretty (VObj o)) by apply print_obj_trim. rewrite Ht.
  assert (Hj : json_ok (VObj o)).
  { apply json_ok_obj. split; [done|]. eapply Forall_impl; [exact Ho|].
    intros [k v] Hv. cbn [snd] in *. destruct f; destruct Hv as [x Hx]; [destruct Hx as [-> Hx]|subst..]; done. }
  rewrite json_parse_pretty by done.
  destruct (print_head indented 0 _ Hj) as (c & t & E & _). unfold pretty. by rewrite E.
Qed.

Lemma typed_write m : typed m -> typed_texts (write_maps m).
Proof. intros Hm f. rewrite read_write by done. apply Hm. Qed.

Lemma own_keys m f n o : typed m -> m f = VObj o -> n ∈ okeys o <-> own n (m f) <> VUndef.
Proof.
  intros Hm Ho. rewrite <- ohas_okeys. rewrite Ho. cbn [own]. rewrite at_oget. unfold ohas.
  destruct (oget n o) as [v|] eqn:E; cbn [default]; split; try done. intros _.
  destruct (typed_own m f n Hm) as [Hu|Hv]; rewrite Ho in *; cbn [own] in *; rewrite at_oget, E in *.
  - cbn in Hu. subst v. destruct (Hm f) as (o' & Ho' & _ & Hall). rewrite Ho in Ho'. injection Ho' as <-.
    apply oget_Some_elem in E. eapply Forall_forall in Hall; [|exact E]. by apply typed_val_defined in Hall.
  - by apply typed_val_defined in Hv.
Qed.

(** The names of the table are those some setting has. *)
Lemma names_spec m :
  typed m ->
  model_names m = Return (uniq (concat ((fun f => okeys (as_obj (m f))) <$> store_fields)))
  /\ forall n, n ∈ uniq (concat ((fun f => okeys (as_obj (m f))) <$> store_fields))
               <-> exists f, own n (m f) <> VUndef.
Proof.
  intros Hm. split.
  - unfold model_names. rewrite (otraverse_Return _ (fun f => okeys (as_obj (m f)))); [done|].
    intros f _. by destruct (Hm f) as (o & -> & _).
  - intros n. rewrite uniq_elem, list_elem_of_In, in_concat. split.
    + intros (ks & Hks & Hn). apply list_elem_of_In in Hks, Hn.
      apply list_elem_of_fmap in Hks as (f & -> & _). exists f.
      destruct (Hm f) as (o & Ho & _). rewrite Ho in Hn. by eapply own_keys in Hn.
    + intros (f & Hf). destruct (Hm f) as (o & Ho & _). exists (okeys o).
      rewrite <- !list_elem_of_In. split; [|by eapply own_keys].
      apply list_elem_of_fmap. exists f. split; [by rewrite Ho|apply all_fields].
Qed.

Lemma names_exist m :
  typed m -> exists ns, model_names m = Return ns /\ forall n, n ∈ ns <-> exists f, own n (m f) <> VUndef.
Proof. intros Hm. eexists. by apply names_spec. Qed.

(** Snapshots that agree on every field *)
#[export] Instance snapshot_equiv : Equiv ModelPricingSnapshot := fun a b =>
  s_name a = s_name b /\ (forall f, s_field a f = s_field b f) /\ s_mode a = s_mode b
  /\ s_expr a = s_expr b /\ s_rules a = s_rules b /\ s_unit a = s_unit b
  /\ hasConflict a = hasConflict b.

#[export] Instance snapshot_equivalence : Equivalence (≡@{ModelPricingSnapshot}).
Proof.
  split.
  - by intros a.
  - intros a b (?&Hf&?&?&?&?&?). by repeat split.
  - intros a b c (?&Hf&?&?&?&?&?) (?&Hg&?&?&?&?&?). repeat split; congruence.
Qed.

#[export] Instance signature_proper : Proper ((≡) ==> (=)) getSnapshotSignature.
Proof.
  intros a b Hab. destruct Hab as [a b (_ & Hf & Hm & He & Hr & Hu & _)|]; [|done].
  unfold getSnapshotSignature. by rewrite !Hf, Hm, He, Hr, Hu.
Qed.

(** The row of a model only depends on its own properties. *)
Lemma snapshot_ext m m' n :
  (forall f, own n (m f) = own n (m' f)) -> snapshot_of m n ≡ snapshot_of m' n.
Proof.
  intros H. unfold snapshot_of. rewrite !H.
  assert (Hr : existsb (fun f => truthy_str (text_of (own n (m (Prices f))))) ratio_fields
               = existsb (fun f => truthy_str (text_of (own n (m' (Prices f))))) ratio_fields).
  { cbn [existsb ratio_fields]. by rewrite !H. }
  rewrite Hr. repeat case_match; try done.
  all: try (destruct (split_value _); [|done]). all: repeat split; intros; cbn; by rewrite ?H.
Qed.

Lemma stored_row_ext t t' n :
  typed_texts t -> typed_texts t' ->
  (forall f, own n (read_maps t f) = own n (read_maps t' f)) -> stored_row t n ≡ stored_row t' n.
Proof.
  intros Ht Ht' H. unfold stored_row.
  destruct (names_exist _ Ht) as (ns & -> & Hn), (names_exist _ Ht') as (ns' & -> & Hn'). cbn [obind].
  assert (E : bool_decide (n ∈ ns) = bool_decide (n ∈ ns')).
  { apply bool_decide_ext. rewrite Hn, Hn'. by setoid_rewrite H. }
  rewrite E. case_match; [|done]. pose proof (snapshot_ext _ _ n H) as Hs.
  destruct (snapshot_of (read_maps t) n), (snapshot_of (read_maps t') n); try done. by constructor.
Qed.

Lemma snapshot_name m n r : snapshot_of m n = Return r -> s_name r = n.
Proof.
  unfold snapshot_of. intros H.
  repeat case_match; try (destruct (split_value _); [|done]); cbn [obind] in H;
    apply Return_inj in H as <-; done.
Qed.

(** The rows of the table are the stored rows. *)
Lemma rows_named t rows n :
  typed_texts t -> buildModelSnapshots t = Return rows -> stored_row t n = Return (row_named n rows).
Proof.
  intros Ht. unfold buildModelSnapshots, stored_row.
  destruct (names_exist _ Ht) as (ns & -> & _). cbn [obind].
  revert rows; induction ns as [|k ns IH]; intros rows E; cbn [otraverse] in E.
  { apply Return_inj in E as <-. by rewrite bool_decide_eq_false_2 by apply not_elem_of_nil. }
  destruct (snapshot_of (read_maps t) k) as [r|] eqn:Er; [|done]. cbn [obind] in E.
  destruct (otraverse _ ns) as [rs|]; [|done]. apply Return_inj in E as <-.
  cbn [row_named find]. rewrite (snapshot_name _ _ _ Er). destruct (decide (k = n)) as [->|Hne].
  - rewrite (bool_decide_eq_true_2 (n = n)) by done. rewrite bool_decide_eq_true_2 by apply list_elem_of_here.
    by rewrite Er.
  - rewrite (bool_decide_eq_false_2 (k = n)) by done. fold (row_named n rs).
    rewrite <- (IH rs eq_refl).
    by rewrite (bool_decide_ext (n ∈ k :: ns) (n ∈ ns)) by set_solver.
Qed.

(** C31. Saving the prices of a model, or copying them to several, changes those models and no
    other: the row of every other model stays as it was, and each target has exactly what is
    stored for the data. *)
Theorem save_touches_targets t data targets :
  typed_texts t -> data_ok data ->
  exists t', persistPricingData t data targets = Return t'
             /\ typed_texts t'
             /\ (forall n, n ∉ targets -> stored_row t' n ≡ stored_row t n)
             /\ (forall n f, n ∈ targets -> own n (read_maps t' f) = stored data f).
Proof.
  intros Ht Hd. destruct (persist_fold_spec data targets _ Ht Hd) as (m & E & Hm & H).
  exists (write_maps m). unfold persistPricingData. rewrite E. split; [done|].
  pose proof (typed_write m Hm) as Hm'. split; [done|]. split.
  - intros n Hn. apply stored_row_ext; [done|done|]. intros f.
    by rewrite read_write, H, decide_False.
  - intros n f Hn. by rewrite read_write, H, decide_True.
Qed.

(** Deleting a model takes its row off the table and leaves every other row, in order. *)
Theorem delete_exact t n rows :
  typed_texts t -> buildModelSnapshots t = Return rows ->
  exists t' rows',
    handleDelete t n = Return t' /\ typed_texts t' /\ buildModelSnapshots t' = Return rows'
    /\ rows' ≡ filterb (fun r => negb (bool_decide (s_name r = n))) rows.
Proof.
  intros Ht E. destruct (delete_model_maps n _ Ht) as (m & Em & H).
  pose proof (typed_odel _ _ _ Ht H) as Hm. exists (write_maps m).
  unfold handleDelete. rewrite Em.
  assert (Hrows : exists rows', buildModelSnapshots (write_maps m) = Return rows'
                  /\ rows' ≡ filterb (fun r => negb (bool_decide (s_name r = n))) rows).
  { unfold buildModelSnapshots in *. destruct (names_spec _ Ht) as [En _]. rewrite En in E. cbn [obind] in E.
    destruct (names_spec _ (typed_write m Hm)) as [-> _]. cbn [obind].
    assert (Hk : (fun f => okeys (as_obj (read_maps (write_maps m) f))) <$> store_fields
                 = (fun f => filterb (fun k => negb (bool_decide (k = n))) (okeys (as_obj (read_maps t f))))
                   <$> store_fields).
    { apply list_fmap_ext. intros _ f _. rewrite read_write, H by done. cbn [as_obj].
      by rewrite okeys_odel_eq. }
    rewrite Hk, <- filterb_concat, uniq_filterb. eapply otraverse_filterb; [exact E| |].
    - intros k r Hr. by rewrite (snapshot_name _ _ _ Hr).
    - intros k Hne. apply snapshot_ext. intros f. apply negb_true_iff, bool_decide_eq_false in Hne.
      by rewrite read_write, (own_odel n _ _ f k Ht H), decide_False. }
  destruct Hrows as (rows' & ? & ?). exists rows'. split; [done|]. split; [by apply typed_write|done].
Qed.

Lemma otraverse_Throw {A B} (f : A -> outcome B) l x : x ∈ l -> f x = Throw -> otraverse f l = Throw.
Proof.
  induction l as [|y l IH]; intros Hx Hf; [by apply not_elem_of_nil in Hx|]. cbn [otraverse].
  apply elem_of_cons in Hx as [->|Hx]; [by rewrite Hf|].
  destruct (f y); [|done]. cbn [obind]. by rewrite IH.
Qed.

(** One stored expression whose rules cannot be separated makes the whole table fail,
    whatever the other models are: the exception of [JSON.parse] is not caught on the way. *)
Theorem bad_rule_breaks_table t n e :
  typed_texts t -> own n (read_maps t Modes) = VStr (js "tiered_expr") ->
  own n (read_maps t Exprs) = VStr e -> splitBillingExprAndRequestRules e = Throw ->
  buildModelSnapshots t = Throw.
Proof.
  intros Ht Hm He Hs. unfold buildModelSnapshots. destruct (names_exist _ Ht) as (ns & -> & Hn).
  cbn [obind]. apply (otraverse_Throw _ _ n); [apply Hn; exists Modes; by rewrite Hm|].
  unfold snapshot_of. rewrite Hm, He. change (fromBackendBillingMode _) with (Some tiered_expr).
  cbv iota. assert (Hv : vor (VStr e) (VStr []) = VStr e).
  { destruct e; [|done]. by vm_compute in Hs. }
  rewrite Hv. cbn [split_value]. by rewrite Hs.
Qed.

(** ** Examples *)

Definition sample_texts : texts := fun f =>
  match f with
  | Prices ratio => ser (VObj [(js "a", VNum (num_of_Z 2)); (js "b", VNum (num_of_Z 3))])
  | Prices completionRatio => ser (VObj [(js "a", VNum (num_of_Z 4))])
  | _ => js "{}"
  end.

(** A text that does not end its escape: [(has(header("x"), "\q") ? 2 : 1) * (p)] *)
Definition bad_rule : jsstr :=
  js "(has(header(" ++ dq ++ js "x" ++ dq ++ js "), " ++ dq ++ js "\q" ++ dq ++ js ") ? 2 : 1) * (p)".

Definition bad_texts : texts := fun f =>
  match f with
  | Modes => ser (VObj [(js "m", VStr (js "tiered_expr"))])
  | Exprs => ser (VObj [(js "m", VStr bad_rule)])
  | _ => sample_texts f
  end.

(** Whether every property of a setting has its type. *)
Definition typed_valb (f : StoreField) (v : jsval) : bool :=
  match f, v with
  | Prices _, VNum n =>
      is_finite n && match parse_number (num_to_string n) with
                     | Some (x, []) => bool_decide (x = n)
                     | _ => false
                     end
  | (Modes | Exprs | Units), VStr _ => true
  | _, _ => false
  end.

Lemma typed_valb_spec f v : typed_valb f v = true -> typed_val f v.
Proof.
  destruct f, v as [| | |n|s| |]; try done; try (intros _; by eexists). cbn [typed_valb].
  intros [Hf H]%andb_true_iff. exists n. split; [done|]. split; [done|].
  destruct (parse_number _) as [[x [|? ?]]|]; try done. apply bool_decide_eq_true in H. by subst.
Qed.

Lemma typed_texts_intro t :
  forallb (fun f => match read_maps t f with
                    | VObj o => forallb (fun kv => typed_valb f (snd kv)) o
                    | _ => false
                    end) store_fields = true ->
  typed_texts t.
Proof.
  intros H f. eapply forallb_elem in H; [|apply (all_fields f)].
  destruct (read_maps t f) as [| | | | | |o] eqn:E; try done. exists o. split; [done|]. split.
  - unfold read_maps, safeJsonParse in E. change (vnullish (VObj []) VNull) with (VObj []) in E.
    destruct (negb _ || _); [injection E as <-; apply canonical_nil|].
    destruct (json_parse _) as [v|] eqn:Ej; [subst v; by eapply json_parse_canonical|].
    injection E as <-. apply canonical_nil.
  - apply Forall_forall. intros kv Hkv. apply typed_valb_spec. eapply forallb_elem in H; [exact H|done].
Qed.

(** Whether data can be stored. *)
Definition data_okb (d : ModelRatioData) : bool :=
  forallb (fun f => match price_value (field_of d f) with
                    | Some x => typed_valb (Prices f) (VNum x)
                    | None => true
                    end) (price :: ratio_fields)
  && (nullish (ModelPricing.requestUnit d) || is_string (ModelPricing.requestUnit d)).

Lemma data_ok_intro d : data_okb d = true -> data_ok d.
Proof.
  intros [H Hu]%andb_true_iff. split.
  - intros f x Hx. eapply forallb_elem in H; [|apply (all_prices f)]. rewrite Hx in H.
    apply typed_valb_spec in H as (y & [= ->] & Hy). done.
  - apply orb_true_iff in Hu as [Hu|Hu]; [by left|right].
    destruct (ModelPricing.requestUnit d) as [| | | |s| |]; try done. by exists s.
Qed.

Definition sample_data : ModelRatioData :=
  {| name := js "a"; field_of := fun f => match f with price => Some (js "0.5") | _ => None end;
     billingMode := Some (js "per-request"); billingExpr := None; requestRuleExpr := None;
     requestUnit := VStr (js "image") |}.

Lemma sample_data_ok : data_ok sample_data.
Proof. apply data_ok_intro. by vm_compute. Qed.

Lemma save_touches_targets_witness :
  typed_texts sample_texts /\
  exists t', persistPricingData sample_texts sample_data [js "a"] = Return t'
             /\ stored_row t' (js "b") ≡ stored_row sample_texts (js "b")
             /\ own (js "a") (read_maps t' Units) = VStr (js "image").
Proof.
  assert (Ht : typed_texts sample_texts) by (by apply typed_texts_intro).
  split; [exact Ht|].
  destruct (save_touches_targets sample_texts sample_data [js "a"] Ht sample_data_ok)
    as (t' & E & _ & Hother & Hmine).
  exists t'. split; [exact E|]. split.
  - apply Hother. by apply (bool_decide_unpack _).
  - rewrite Hmine by apply list_elem_of_here. reflexivity.
Defined.

Lemma delete_exact_witness :
  exists t' rows', handleDelete sample_texts (js "a") = Return t' /\ buildModelSnapshots t' = Return rows'
                   /\ (s_name <$> rows') = [js "b"].
Proof.
  assert (Ht : typed_texts sample_texts) by (by apply typed_texts_intro).
  pose (others := filterb (fun r => negb (bool_decide (s_name r = js "a")))).
  assert (Hb : omapr (fun rows => s_name <$> others rows) (buildModelSnapshots sample_texts)
               = Return [js "b"]) by (by vm_compute).
  destruct (buildModelSnapshots sample_texts) as [rows|] eqn:E; [|done].
  destruct (delete_exact sample_texts (js "a") rows Ht E) as (t' & rows' & E1 & _ & E2 & Hr).
  exists t', rows'. split; [exact E1|]. split; [exact E2|]. apply Return_inj in Hb. rewrite <- Hb.
  clear -Hr. fold (others rows) in Hr. induction Hr as [|x y l k [Hx _] _ IH]; [done|].
  cbn [fmap list_fmap]. by rewrite Hx, IH.
Defined.

Lemma bad_rule_breaks_table_witness : buildModelSnapshots bad_texts = Throw.
Proof.
  apply (bad_rule_breaks_table bad_texts (js "m") bad_rule); [by apply typed_texts_intro| | |];
    by vm_compute.
Defined.
