(* ===== verification/PricingEditor.v ===== *)
(** * The price editor ([features/system-settings/models/model-pricing-sheet.tsx])

    The panel in which the prices of one model are edited: its state, the handlers of its
    inputs, the checks before the data are handed to the table ([PricingSnapshots]), and the
    invariant that the stored ratios follow the prices shown.

    The form library keeps one text per field ([values]); an action of the user is one call
    of a handler, allowed where the page does not disable its input. *)

From S2P Require Import Prelude JsString JsRegex JsNumber.
From S2P Require Import JsValue JsJson RequestRules ModelPricing PricingSnapshots.

#[local] Open Scope outcome_scope.

(** ** State *)

Record Panel := {
  p_name : jsstr;
  p_values : PriceField -> jsstr;
  pricingMode : PricingMode;
  p_prompt : jsstr;
  lanePrices : LaneKey -> jsstr;
  laneEnabled : LaneKey -> bool;
  p_expr : jsstr;
  p_rules : jsstr;
  p_unit : jsval;
  isEditMode : bool }.

(** The effect that runs when [editData] changes.  In the tiered mode the panel then shows the
    tiered editor, whose own effects may change the two texts: [PricingPanel.opened] is the
    panel with both. *)
Definition open_panel (editData : option ModelRatioData) : Panel :=
  let nextLaneState := createInitialLaneState editData in
  let with_lanes n vs md e r u :=
    {| p_name := n; p_values := vs; pricingMode := md; p_prompt := promptPrice nextLaneState;
       lanePrices := prices nextLaneState; laneEnabled := enabled nextLaneState;
       p_expr := e; p_rules := r; p_unit := u;
       isEditMode := match editData with Some _ => true | None => false end |} in
  match editData with
  | Some d =>
      with_lanes (name d) (fun f => formatOptionalNumericField (ostr (field_of d f)))
        (resolvePricingModeFromData editData) (or_empty (ModelPricing.billingExpr d))
        (or_empty (ModelPricing.requestRuleExpr d))
        (vor (ModelPricing.requestUnit d) (VStr (js "request")))
  | None => with_lanes [] (fun _ => []) per_token [] [] (VStr (js "request"))
  end.

(** ** Handlers *)

Definition fn_set {A B} `{EqDecision A} (k : A) (v : B) (g : A -> B) : A -> B :=
  fun x => if decide (x = k) then v else g x.

Definition setFormValue (field : PriceField) (value : jsstr) (p : Panel) : Panel :=
  {| p_name := p_name p; p_values := fn_set field value (p_values p); pricingMode := pricingMode p;
     p_prompt := p_prompt p; lanePrices := lanePrices p; laneEnabled := laneEnabled p;
     p_expr := p_expr p; p_rules := p_rules p; p_unit := p_unit p; isEditMode := isEditMode p |}.

Definition set_lanes (prompt : jsstr) (prices : LaneKey -> jsstr) (enabled : LaneKey -> bool)
    (p : Panel) : Panel :=
  {| p_name := p_name p; p_values := p_values p; pricingMode := pricingMode p; p_prompt := prompt;
     lanePrices := prices; laneEnabled := enabled; p_expr := p_expr p; p_rules := p_rules p;
     p_unit := p_unit p; isEditMode := isEditMode p |}.

Definition set_other (n : jsstr) (md : PricingMode) (e r : jsstr) (u : jsval) (p : Panel) : Panel :=
  {| p_name := n; p_values := p_values p; pricingMode := md; p_prompt := p_prompt p;
     lanePrices := lanePrices p; laneEnabled := laneEnabled p; p_expr := e; p_rules := r;
     p_unit := u; isEditMode := isEditMode p |}.

Definition deriveLaneRatio (lane : LaneKey) (price nextPromptPrice : jsstr)
    (nextLanePrices : LaneKey -> jsstr) : jsstr :=
  match ModelPricing.toNumberOrNull (VStr price) with
  | None => []
  | Some priceNumber =>
      let base := if decide (lane = audioOutput) then nextLanePrices audioInput else nextPromptPrice in
      match ModelPricing.toNumberOrNull (VStr base) with
      | None => []
      | Some b => if neqb b zero then [] else formatPricingNumber (VNum (ndiv priceNumber b))
      end
  end.

(** The ratio [syncLaneRatios] writes for the input price *)
Definition base_ratio (prompt : jsstr) : jsstr :=
  match ModelPricing.toNumberOrNull (VStr prompt) with
  | Some inputPrice => formatPricingNumber (VNum (ndiv inputPrice (num_of_Z 2)))
  | None => []
  end.

(** The ratio of a lane *)
Definition lane_ratio (prompt : jsstr) (prices : LaneKey -> jsstr) (enabled : LaneKey -> bool)
    (l : LaneKey) : jsstr :=
  if enabled l then deriveLaneRatio l (prices l) prompt prices else [].

Definition syncLaneRatios (prompt : jsstr) (prices : LaneKey -> jsstr) (enabled : LaneKey -> bool)
    (p : Panel) : Panel :=
  fold_left (fun p key => setFormValue (ratioFieldByLane key) (lane_ratio prompt prices enabled key) p)
    laneConfigs (setFormValue ratio (base_ratio prompt) p).

Definition handlePromptPriceChange (value : jsstr) (p : Panel) : Panel :=
  if negb (test numericDraftRegex value) then p
  else syncLaneRatios value (lanePrices p) (laneEnabled p)
         (set_lanes value (lanePrices p) (laneEnabled p) p).

Definition handleLanePriceChange (lane : LaneKey) (value : jsstr) (p : Panel) : Panel :=
  if negb (test numericDraftRegex value) then p
  else
    let nextLanePrices := fn_set lane value (lanePrices p) in
    let p1 := set_lanes (p_prompt p) nextLanePrices (laneEnabled p) p in
    let p2 := if laneEnabled p lane
              then setFormValue (ratioFieldByLane lane)
                     (deriveLaneRatio lane value (p_prompt p) nextLanePrices) p1
              else p1 in
    if bool_decide (lane = audioInput) && laneEnabled p audioOutput
    then setFormValue audioCompletionRatio
           (deriveLaneRatio audioOutput (nextLanePrices audioOutput) (p_prompt p) nextLanePrices) p2
    else p2.

Definition handleLaneToggle (lane : LaneKey) (checked : bool) (p : Panel) : Panel :=
  let nextEnabled := fn_set lane checked (laneEnabled p) in
  if checked then
    setFormValue (ratioFieldByLane lane)
      (deriveLaneRatio lane (lanePrices p lane) (p_prompt p) (lanePrices p))
      (set_lanes (p_prompt p) (lanePrices p) nextEnabled p)
  else
    let nextPrices := fn_set lane [] (lanePrices p) in
    let p1 := setFormValue (ratioFieldByLane lane) [] p in
    if decide (lane = audioInput) then
      set_lanes (p_prompt p) (fn_set audioOutput [] nextPrices) (fn_set audioOutput false nextEnabled)
        (setFormValue audioCompletionRatio [] p1)
    else set_lanes (p_prompt p) nextPrices nextEnabled p1.

Definition DEFAULT_EXPR : jsstr := Eval vm_compute in
  js "tier(" ++ dq ++ js "base" ++ dq ++ js ", p * 0 + c * 0)".

Definition handleModeChange (nextMode : PricingMode) (p : Panel) : Panel :=
  let e := if bool_decide (nextMode = tiered_expr) && negb (truthy_str (p_expr p))
           then DEFAULT_EXPR else p_expr p in
  let u := if bool_decide (nextMode = per_request) && negb (truthy (p_unit p))
           then VStr (js "request") else p_unit p in
  set_other (p_name p) nextMode e (p_rules p) u p.

(** The input of the fixed price, in the per-request and per-second tabs *)
Definition handlePriceChange (value : jsstr) (p : Panel) : Panel :=
  if test numericDraftRegex value then setFormValue price value p else p.

(** ** Saving *)

Definition INPUT_REQUIRED : jsstr := js "Input price is required before saving dependent prices.".
Definition AUDIO_REQUIRED : jsstr := js "Audio output price requires an audio input price.".
Definition CONFLICT : jsstr :=
  js "This model has both fixed-price and token-price settings. Saving the current mode will rewrite the conflicting fields.".

Definition lane_priced (p : Panel) (l : LaneKey) : bool :=
  laneEnabled p l && hasValue (VStr (lanePrices p l)).

Definition input_missing (p : Panel) : bool :=
  bool_decide (pricingMode p = per_token)
  && bool_decide (ModelPricing.toNumberOrNull (VStr (p_prompt p)) = None) && existsb (lane_priced p) laneConfigs.

Definition audio_missing (p : Panel) : bool :=
  bool_decide (pricingMode p = per_token) && laneEnabled p audioOutput
  && negb (hasValue (VStr (lanePrices p audioInput))).

(** [editData] is the model the panel was opened for. *)
Definition warnings (editData : option ModelRatioData) (p : Panel) : list jsstr :=
  let hasConflict :=
    match editData with
    | None => false
    | Some d => truthy_str (or_empty (field_of d price))
                && existsb (fun f => hasValue (ostr (field_of d f))) ratio_fields
    end in
  (if hasConflict then [CONFLICT] else [])
  ++ (if input_missing p then [INPUT_REQUIRED] else [])
  ++ (if audio_missing p then [AUDIO_REQUIRED] else []).

Definition validatePricingValues (p : Panel) : bool :=
  if input_missing p then false else if audio_missing p then false else true.

Definition buildSubmitData (p : Panel) : ModelRatioData :=
  let expr_mode := bool_decide (pricingMode p = tiered_expr) in
  {| name := trim (p_name p);
     field_of := fun f => Some (formatOptionalNumericField (VStr (p_values p f)));
     billingMode := Some (mode_str (pricingMode p));
     billingExpr := if expr_mode then Some (p_expr p) else None;
     requestRuleExpr := if expr_mode then Some (p_rules p) else None;
     requestUnit := if bool_decide (pricingMode p = per_request) then p_unit p else VUndef |}.

(** The schema only asks for a name ([z.string().min(1)]). *)
Definition form_valid (p : Panel) : bool := truthy_str (p_name p).

Definition commitDraft (p : Panel) : option ModelRatioData :=
  if negb (form_valid p) || negb (validatePricingValues p) then None else Some (buildSubmitData p).

(** [commitOpenEditor] of the table, when the editor is open: the texts, and the data now
    edited; [None] when the checks refuse. *)
Definition commitOpenEditor (t : texts) (p : Panel) : option (outcome (texts * ModelRatioData)) :=
  data ← commitDraft p;
  Some (omapr (fun t' => (t', data)) (persistPricingData t data [name data])).

(** ** Actions of the user *)

Inductive action :=
  | SetName (s : jsstr)
  | SetPrompt (s : jsstr)
  | SetLanePrice (l : LaneKey) (s : jsstr)
  | Toggle (l : LaneKey) (checked : bool)
  | SetMode (m : PricingMode)
  | SetPrice (s : jsstr)
  | SetUnit (s : jsstr)
  | SetExpr (s : jsstr)
  | SetRules (s : jsstr).

(** The audio output lane is disabled until there is an audio input price. *)
Definition lane_disabled (p : Panel) (l : LaneKey) : bool :=
  bool_decide (l = audioOutput)
  && (negb (laneEnabled p audioInput) || negb (hasValue (VStr (lanePrices p audioInput)))).

(** The inputs that the page enables *)
Definition allowed (p : Panel) (a : action) : bool :=
  match a with
  | SetName _ => negb (isEditMode p)
  | SetLanePrice l _ => negb (lane_disabled p l) && laneEnabled p l
  | Toggle l _ => negb (lane_disabled p l)
  | _ => true
  end.

Definition act (p : Panel) (a : action) : Panel :=
  if negb (allowed p a) then p
  else match a with
  | SetName s => set_other s (pricingMode p) (p_expr p) (p_rules p) (p_unit p) p
  | SetPrompt s => handlePromptPriceChange s p
  | SetLanePrice l s => handleLanePriceChange l s p
  | Toggle l checked => handleLaneToggle l checked p
  | SetMode m => handleModeChange m p
  | SetPrice s => handlePriceChange s p
  | SetUnit s => set_other (p_name p) (pricingMode p) (p_expr p) (p_rules p) (VStr s) p
  | SetExpr s => set_other (p_name p) (pricingMode p) s (p_rules p) (p_unit p) p
  | SetRules s => set_other (p_name p) (pricingMode p) (p_expr p) s (p_unit p) p
  end.

Definition run (editData : option ModelRatioData) (acts : list action) : Panel :=
  fold_left act acts (open_panel editData).

(** ** The ratios follow the prices *)

(** A lane that is switched off shows no price. *)
Definition off_empty (p : Panel) : Prop := forall l, laneEnabled p l = false -> lanePrices p l = [].

(** The ratios of the form are those of the prices shown. *)
Definition follows (p : Panel) : Prop :=
  p_values p ratio = base_ratio (p_prompt p)
  /\ forall l, p_values p (ratioFieldByLane l) = lane_ratio (p_prompt p) (lanePrices p) (laneEnabled p) l.

#[export] Instance ratioFieldByLane_inj : Inj (=) (=) ratioFieldByLane.
Proof. by intros [] []. Qed.

Lemma lane_not_ratio l : ratioFieldByLane l <> ratio.
Proof. by destruct l. Qed.

Lemma lane_not_price l : ratioFieldByLane l <> price.
Proof. by destruct l. Qed.

Lemma fn_set_eq {A B} `{EqDecision A} (k : A) (v : B) g : fn_set k v g k = v.
Proof. unfold fn_set. by rewrite decide_True. Qed.

Lemma fn_set_ne {A B} `{EqDecision A} (k j : A) (v : B) g : j <> k -> fn_set k v g j = g j.
Proof. intros. unfold fn_set. by rewrite decide_False. Qed.

(** Only the audio output lane looks at the price of another lane. *)
Lemma lane_ratio_ext prompt prices enabled prices' enabled' l :
  prices l = prices' l -> enabled l = enabled' l ->
  (l = audioOutput -> enabled l = true -> prices audioInput = prices' audioInput) ->
  lane_ratio prompt prices enabled l = lane_ratio prompt prices' enabled' l.
Proof.
  intros Hp He Ha. unfold lane_ratio, deriveLaneRatio. rewrite <- Hp, <- He.
  destruct (enabled l); [|done]. case_match; [|done]. case_decide; [|done]. by rewrite Ha.
Qed.

Lemma sync_follows prompt p :
  follows (syncLaneRatios prompt (lanePrices p) (laneEnabled p)
             (set_lanes prompt (lanePrices p) (laneEnabled p) p)).
Proof. split; [done|]. by intros []. Qed.

Lemma sync_lanes prompt p q :
  lanePrices (syncLaneRatios prompt (lanePrices p) (laneEnabled p) q) = lanePrices q
  /\ laneEnabled (syncLaneRatios prompt (lanePrices p) (laneEnabled p) q) = laneEnabled q.
Proof. done. Qed.

Lemma open_off_empty data : off_empty (open_panel data).
Proof.
  destruct data as [d|]; [|done]. intros l. cbn [open_panel laneEnabled lanePrices].
  unfold createInitialLaneState. cbn [enabled prices].
  assert (H : forall v den, hasValue v = false -> deriveLanePrice v den [] = []).
  { intros v den Hv. unfold deriveLanePrice, ModelPricing.toNumberOrNull. rewrite Hv. cbn [negb andb].
    unfold hasValue in Hv. apply negb_false_iff in Hv.
    destruct (is_zero v) eqn:E; [by destruct v|done]. }
  by destruct l; intros Hv; apply H.
Qed.

Lemma off_empty_act p a : off_empty p -> off_empty (act p a).
Proof.
  intros H. unfold act. destruct (allowed p a) eqn:Ha; [|done]. cbn [negb].
  destruct a as [s|s|lane s|lane checked|m|s|s|s|s]; try exact H.
  - unfold handlePromptPriceChange. by case_match.
  - unfold handleLanePriceChange. cbn [allowed] in Ha. apply andb_true_iff in Ha as [_ Ha].
    case_match; [done|]. intros k. rewrite Ha.
    match goal with |- context [if ?b then _ else _] => destruct b end;
      cbn [setFormValue set_lanes laneEnabled lanePrices]; intros Hk;
      (rewrite fn_set_ne; [by apply H|congruence]).
  - unfold handleLaneToggle. destruct checked.
    + intros k. cbn [setFormValue set_lanes laneEnabled lanePrices].
      destruct (decide (k = lane)) as [->|Hne]; [by rewrite fn_set_eq|].
      rewrite fn_set_ne by done. apply H.
    + case_decide; intros k; cbn [setFormValue set_lanes laneEnabled lanePrices].
      * destruct (decide (k = audioOutput)) as [->|Hne]; [by rewrite !fn_set_eq|].
        rewrite !(fn_set_ne audioOutput) by done.
        destruct (decide (k = lane)) as [->|Hne']; [by rewrite !fn_set_eq|].
        rewrite !fn_set_ne by done. apply H.
      * destruct (decide (k = lane)) as [->|Hne']; [by rewrite !fn_set_eq|].
        rewrite !fn_set_ne by done. apply H.
  - unfold handlePriceChange. by case_match.
Qed.

Lemma off_empty_run data acts : off_empty (run data acts).
Proof.
  unfold run. generalize (open_off_empty data); generalize (open_panel data).
  induction acts as [|a acts IH]; intros p Hp; [done|]. by apply IH, off_empty_act.
Qed.

Lemma price_follows lane s p :
  laneEnabled p lane = true -> follows p -> follows (handleLanePriceChange lane s p).
Proof.
  intros He [Hr Hl]. unfold handleLanePriceChange. case_match; [done|]. rewrite He.
  match goal with |- context [if ?b then _ else _] => destruct b eqn:Eb end;
    (split; [cbn [setFormValue set_lanes p_values p_prompt]; by rewrite !fn_set_ne by (by destruct lane)|]);
    intros k; cbn [setFormValue set_lanes p_values p_prompt lanePrices laneEnabled].
  - apply andb_true_iff in Eb as [Eb Eo]. apply bool_decide_eq_true in Eb as ->.
    change audioCompletionRatio with (ratioFieldByLane audioOutput).
    destruct (decide (k = audioOutput)) as [->|Hne].
    { rewrite fn_set_eq. unfold lane_ratio. by rewrite Eo. }
    rewrite fn_set_ne by (by intros ?%(inj ratioFieldByLane)).
    destruct (decide (k = audioInput)) as [->|Hne'].
    { rewrite fn_set_eq. unfold lane_ratio. by rewrite He, fn_set_eq. }
    rewrite fn_set_ne by (by intros ?%(inj ratioFieldByLane)). rewrite Hl.
    apply lane_ratio_ext; [by rewrite fn_set_ne|done|done].
  - destruct (decide (k = lane)) as [->|Hne].
    { rewrite fn_set_eq. unfold lane_ratio. by rewrite He, fn_set_eq. }
    rewrite fn_set_ne by (by intros ?%(inj ratioFieldByLane)). rewrite Hl.
    apply lane_ratio_ext; [by rewrite fn_set_ne|done|]. intros -> Ho. rewrite fn_set_ne; [done|].
    intros <-. by rewrite Ho in Eb.
Qed.

Lemma toggle_follows lane checked p : follows p -> follows (handleLaneToggle lane checked p).
Proof.
  intros [Hr Hl]. unfold handleLaneToggle. destruct checked; [|case_decide as Hlane];
    (split; [cbn [setFormValue set_lanes p_values p_prompt]; by rewrite ?fn_set_ne by (by destruct lane)|]);
    intros k; cbn [setFormValue set_lanes p_values p_prompt lanePrices laneEnabled].
  - destruct (decide (k = lane)) as [->|Hne].
    { rewrite fn_set_eq. unfold lane_ratio. by rewrite fn_set_eq. }
    rewrite fn_set_ne by (by intros ?%(inj ratioFieldByLane)). rewrite Hl.
    by apply lane_ratio_ext; [|rewrite fn_set_ne|].
  - subst lane. change audioCompletionRatio with (ratioFieldByLane audioOutput).
    destruct (decide (k = audioOutput)) as [->|Hne].
    { rewrite fn_set_eq. unfold lane_ratio. by rewrite fn_set_eq. }
    rewrite fn_set_ne by (by intros ?%(inj ratioFieldByLane)).
    destruct (decide (k = audioInput)) as [->|Hne'].
    { rewrite fn_set_eq. unfold lane_ratio. by rewrite fn_set_ne, fn_set_eq by done. }
    rewrite fn_set_ne by (by intros ?%(inj ratioFieldByLane)). rewrite Hl.
    by apply lane_ratio_ext; rewrite ?fn_set_ne by done.
  - destruct (decide (k = lane)) as [->|Hne].
    { rewrite fn_set_eq. unfold lane_ratio. by rewrite fn_set_eq. }
    rewrite fn_set_ne by (by intros ?%(inj ratioFieldByLane)). rewrite Hl.
    by apply lane_ratio_ext; rewrite ?fn_set_ne by done.
Qed.

Lemma follows_act p a : follows p -> follows (act p a).
Proof.
  intros H. unfold act. destruct (allowed p a) eqn:Ha; [|done]. cbn [negb].
  destruct a as [s|s|lane s|lane checked|m|s|s|s|s]; try exact H.
  - unfold handlePromptPriceChange. case_match; [done|]. apply sync_follows.
  - cbn [allowed] in Ha. apply andb_true_iff in Ha as [_ Ha]. by apply price_follows.
  - by apply toggle_follows.
  - unfold handlePriceChange. case_match; [|done]. destruct H as [Hr Hl].
    split; [done|]. intros l. cbn [setFormValue p_values]. rewrite fn_set_ne by apply lane_not_price.
    apply Hl.
Qed.

Lemma follows_prompt p s : test numericDraftRegex s = true -> follows (act p (SetPrompt s)).
Proof.
  intros Hs. unfold act, allowed, handlePromptPriceChange. cbn [negb]. rewrite Hs. apply sync_follows.
Qed.

Lemma follows_fold acts p : follows p -> follows (fold_left act acts p).
Proof. revert p; induction acts as [|a acts IH]; intros p Hp; [done|]. by apply IH, follows_act. Qed.

Lemma run_follows data acts :
  (data = None \/ exists s, SetPrompt s ∈ acts /\ test numericDraftRegex s = true) -> follows (run data acts).
Proof.
  intros [->|(s & Hs & Ht)]; unfold run.
  - apply follows_fold. split; [done|]. by intros [].
  - apply list_elem_of_split in Hs as (l1 & l2 & ->). rewrite fold_left_app. cbn [fold_left].
    by apply follows_fold, follows_prompt.
Qed.

(** C18. Whatever the user does, a lane that is switched off shows no price; and for a new
    model, or once an input price was typed, the ratios of the form are those of the prices
    shown: half the input price, and the price of each lane that is switched on divided by
    the input price (by the audio input price for audio output). *)
Theorem ratios_follow_prices data acts :
  off_empty (run data acts)
  /\ (data = None \/ (exists s, SetPrompt s ∈ acts /\ test numericDraftRegex s = true) ->
      follows (run data acts)).
Proof. split; [apply off_empty_run|apply run_follows]. Qed.

Lemma ratios_follow_prices_witness :
  let p := run None [SetName (js "m"); SetPrompt (js "3"); Toggle completion true;
                     SetLanePrice completion (js "15"); Toggle image true;
                     SetLanePrice image (js "1"); Toggle image false] in
  follows p /\ p_values p ratio = js "1.5" /\ p_values p completionRatio = js "5"
  /\ p_values p imageRatio = [].
Proof.
  intros p. split.
  - apply (ratios_follow_prices None [SetName (js "m"); SetPrompt (js "3"); Toggle completion true;
      SetLanePrice completion (js "15"); Toggle image true; SetLanePrice image (js "1");
      Toggle image false]). by left.
  - by vm_compute.
Defined.

(** ** Opening a stored row and saving it again *)

Lemma num_text_truthy x : num_ok x -> truthy_str (num_to_string x) = true.
Proof. intros [_ H]. destruct (parse_number_head _ _ _ H) as (c & t & -> & _). done. Qed.

Definition number_val (v : jsval) : Prop := v = VUndef \/ exists x, v = VNum x /\ num_ok x.

(** The text of a stored number is saved as the number. *)
Lemma number_of_text v : number_val v -> number_of (Some (text_of v)) = v.
Proof.
  intros [->|(x & -> & Hx)]; [done|]. unfold number_of.
  assert (Hp : price_value (Some (num_to_string x)) = Some x).
  { unfold price_value. change (or_empty (Some ?s)) with s.
    by rewrite num_text_truthy, num_ok_float, (proj1 Hx). }
  unfold text_of. cbn [nullish to_string]. by rewrite Hp.
Qed.

Lemma text_of_truthy v : number_val v -> truthy_str (text_of v) = negb (is_undef v).
Proof. intros [->|(x & -> & Hx)]; [done|]. by apply num_text_truthy. Qed.

Definition resubmit (r : ModelPricingSnapshot) : ModelRatioData :=
  buildSubmitData (open_panel (Some (edit_data r))).

Lemma resubmit_field r f : field_of (resubmit r) f = Some (or_empty (s_field r f)).
Proof. cbn. by destruct (s_field r f). Qed.

Lemma resubmit_mode r :
  (s_mode r = per_token -> or_empty (s_field r price) = []) ->
  ModelPricing.billingMode (resubmit r) = Some (mode_str (s_mode r)).
Proof.
  intros H. unfold resubmit. cbn [buildSubmitData ModelPricing.billingMode open_panel pricingMode].
  do 2 f_equal. unfold edit_data, resolvePricingModeFromData. cbn [ModelPricing.billingMode field_of ostr].
  destruct (s_mode r); try reflexivity. rewrite H by done. reflexivity.
Qed.

(** A row that keeps something when it is saved: a ratio when its prices are per token, an
    expression whose two parts are separated again when it has one. *)
Definition resavable (r : ModelPricingSnapshot) : Prop :=
  match s_mode r with
  | per_token => existsb (fun f => truthy_str (or_empty (s_field r f))) ratio_fields = true
  | tiered_expr =>
      let e := or_empty (s_expr r) in
      let u := or_empty (s_rules r) in
      truthy_str (combineBillingExpr e u) = true
      /\ splitBillingExprAndRequestRules (combineBillingExpr e u)
         = Return {| RequestRules.billingExpr := e; RequestRules.requestRuleExpr := u |}
  | _ => True
  end.

Lemma signature_ext a b :
  (forall f, s_field a f = s_field b f) -> s_mode a = s_mode b -> s_expr a = s_expr b ->
  s_rules a = s_rules b -> vor (s_unit a) (VStr (js "request")) = vor (s_unit b) (VStr (js "request")) ->
  getSnapshotSignature (Some a) = getSnapshotSignature (Some b).
Proof. intros Hf Hm He Hr Hu. unfold getSnapshotSignature. by rewrite !Hf, Hm, He, Hr, Hu. Qed.

Section Resave.
Context (m m' : maps) (n : jsstr) (r : ModelPricingSnapshot).
Context (Hm : typed m) (Hr : snapshot_of m n = Return r) (Hkeep : resavable r).
Context (H' : forall f, own n (m' f) = stored (resubmit r) f).

Definition same_signature : Prop :=
  (exists f, own n (m' f) <> VUndef)
  /\ exists r', snapshot_of m' n = Return r' /\ getSnapshotSignature (Some r') = getSnapshotSignature (Some r).

Lemma own_number f : number_val (own n (m (Prices f))).
Proof. exact (typed_own m (Prices f) n Hm). Qed.

Lemma stored_resubmit f :
  (s_mode r = per_token -> or_empty (s_field r price) = []) ->
  own n (m' f) = match s_mode r with
                 | tiered_expr => stored_tiered (resubmit r) f
                 | per_second => stored_per_second (resubmit r) f
                 | per_request => stored_per_request (resubmit r) f
                 | per_token => stored_by_price (resubmit r) f
                 end.
Proof. intros H. rewrite H'. unfold stored. rewrite resubmit_mode by done. by destruct (s_mode r). Qed.

Lemma resave_per_second :
  fromBackendBillingMode (own n (m Modes)) = Some per_second -> same_signature.
Proof.
  intros Hmode. unfold snapshot_of in Hr. rewrite Hmode in Hr. apply Return_inj in Hr as Er.
  assert (Hs : s_mode r = per_second) by by subst r.
  assert (HM : own n (m' Modes) = VStr (js "per_second")).
  { rewrite stored_resubmit by by rewrite Hs. by rewrite Hs. }
  assert (HP : own n (m' (Prices price)) = own n (m (Prices price))).
  { rewrite stored_resubmit by by rewrite Hs. rewrite Hs. cbn [stored_per_second].
    rewrite resubmit_field, <- Er. apply number_of_text, own_number. }
  split; [exists Modes; by rewrite HM|]. unfold snapshot_of. rewrite HM. eexists. split; [reflexivity|].
  rewrite <- Er. apply signature_ext; try done. intros f. cbn [s_field]. by rewrite HP.
Qed.

Lemma resave_per_request :
  s_mode r = per_request ->
  s_field r = (fun f => if decide (f = price) then Some (text_of (own n (m (Prices price)))) else None) ->
  s_unit r = vor (own n (m Units)) (VStr (js "request")) ->
  s_expr r = None -> s_rules r = None -> same_signature.
Proof.
  intros Hs Hf Hu He Hrules.
  assert (HM : own n (m' Modes) = VStr (js "per_request")).
  { rewrite stored_resubmit by by rewrite Hs. by rewrite Hs. }
  assert (HP : own n (m' (Prices price)) = own n (m (Prices price))).
  { rewrite stored_resubmit by by rewrite Hs. rewrite Hs. cbn [stored_per_request].
    rewrite resubmit_field, Hf. apply number_of_text, own_number. }
  assert (HU : vor (own n (m' Units)) (VStr (js "request")) = s_unit r).
  { rewrite stored_resubmit by by rewrite Hs. rewrite Hs. cbn [stored_per_request].
    assert (Hw : exists w, s_unit r = VStr w /\ truthy_str w = true).
    { rewrite Hu. destruct (typed_own m Units n Hm) as [->|[s ->] ]; [by eexists|].
      destruct s; by eexists. }
    destruct Hw as (w & Hw & Hne).
    assert (Hq : ModelPricing.requestUnit (resubmit r) = VStr w).
    { assert (Hmode : pricingMode (open_panel (Some (edit_data r))) = per_request).
      { cbn. unfold edit_data, resolvePricingModeFromData. by rewrite Hs. }
      unfold resubmit, buildSubmitData. cbn [ModelPricing.requestUnit]. rewrite Hmode.
      cbn. rewrite Hw. unfold vor. cbn [truthy]. rewrite Hne. cbn [truthy]. by rewrite Hne. }
    rewrite Hq, Hw. unfold vor. cbn [truthy is_str]. rewrite Hne. cbn [andb].
    case_bool_decide as Hreq; cbn [negb truthy]; [by subst w|by rewrite Hne]. }
  split; [exists Modes; by rewrite HM|]. unfold snapshot_of. rewrite HM. eexists. split; [reflexivity|].
  apply signature_ext; cbn [s_field s_unit s_mode s_expr s_rules]; try done.
  - intros f. by rewrite HP, Hf.
  - by rewrite HU.
Qed.

Lemma resave_per_token :
  s_mode r = per_token -> s_field r = (fun f => Some (text_of (own n (m (Prices f))))) ->
  text_of (own n (m (Prices price))) = [] -> s_expr r = None -> s_rules r = None -> s_unit r = VUndef ->
  same_signature.
Proof.
  intros Hs Hf Hp He Hrules Hu.
  assert (Hst : forall f, own n (m' f) = stored_by_price (resubmit r) f).
  { intros f. rewrite stored_resubmit by by rewrite Hf. by rewrite Hs. }
  assert (HM : own n (m' Modes) = VUndef) by by rewrite Hst.
  assert (HP : forall f, own n (m' (Prices f)) = own n (m (Prices f))).
  { intros f. rewrite Hst. unfold stored_by_price. rewrite !resubmit_field, Hf. change (or_empty (Some ?s)) with s.
    rewrite Hp. destruct (decide (f = price)) as [->|Hne].
    - rewrite bool_decide_eq_true_2 by done. cbn [Bool.eqb truthy_str].
      pose proof (text_of_truthy _ (own_number price)) as Ht. rewrite Hp in Ht.
      by destruct (own n (m (Prices price))).
    - rewrite bool_decide_eq_false_2 by done. apply number_of_text, own_number. }
  unfold resavable in Hkeep. rewrite Hs in Hkeep. apply existsb_elem in Hkeep as (f & _ & Hk).
  split.
  - exists (Prices f). rewrite HP. rewrite Hf in Hk. change (or_empty (Some ?s)) with s in Hk.
    rewrite text_of_truthy in Hk by apply own_number. by destruct (own n (m (Prices f))).
  - unfold snapshot_of. rewrite HM, !HP, Hp. eexists. split; [reflexivity|].
    apply signature_ext; cbn [s_field s_unit s_mode s_expr s_rules]; [|congruence..].
    intros f'. by rewrite Hf, HP.
Qed.

Lemma resave_tiered e u :
  s_mode r = tiered_expr -> s_field r = (fun f => Some (text_of (own n (m (Prices f))))) ->
  s_expr r = Some e -> s_rules r = Some u -> s_unit r = VUndef -> same_signature.
Proof.
  intros Hs Hf He Hu Hunit. unfold resavable in Hkeep. rewrite Hs, He, Hu in Hkeep.
  change (or_empty (Some ?s)) with s in Hkeep. destruct Hkeep as [Ht Hsplit].
  assert (Hst : forall f, own n (m' f) = stored_tiered (resubmit r) f).
  { intros f. rewrite stored_resubmit by by rewrite Hs. by rewrite Hs. }
  assert (Hc : combined_expr (resubmit r) = combineBillingExpr e u).
  { assert (Hmode : pricingMode (open_panel (Some (edit_data r))) = tiered_expr).
    { cbn. unfold edit_data, resolvePricingModeFromData. by rewrite Hs. }
    unfold combined_expr, resubmit, buildSubmitData.
    cbn [ModelPricing.billingExpr ModelPricing.requestRuleExpr]. rewrite Hmode. cbn. by rewrite He, Hu. }
  assert (HM : own n (m' Modes) = VStr (js "tiered_expr")).
  { rewrite Hst. cbn [stored_tiered]. by rewrite Hc, Ht. }
  assert (HE : own n (m' Exprs) = VStr (combineBillingExpr e u)).
  { rewrite Hst. cbn [stored_tiered]. by rewrite Hc, Ht. }
  assert (HP : forall f, own n (m' (Prices f)) = own n (m (Prices f))).
  { intros f. rewrite Hst. cbn [stored_tiered]. rewrite resubmit_field, Hf. apply number_of_text, own_number. }
  split; [exists Modes; by rewrite HM|]. unfold snapshot_of. rewrite HM, HE.
  change (fromBackendBillingMode _) with (Some tiered_expr). cbv iota.
  unfold vor. cbn [truthy]. rewrite Ht. cbn [split_value]. rewrite Hsplit. cbn [obind].
  eexists. split; [reflexivity|].
  apply signature_ext; cbn [s_field s_unit s_mode s_expr s_rules RequestRules.billingExpr
    RequestRules.requestRuleExpr]; [|congruence..].
  intros f'. by rewrite Hf, HP.
Qed.

Lemma resave_row : same_signature.
Proof.
  pose proof Hr as E. unfold snapshot_of in E.
  destruct (fromBackendBillingMode (own n (m Modes))) as [[]|] eqn:Hmode.
  - cbn in Hmode. unfold fromBackendBillingMode in Hmode. by repeat case_match.
  - apply Return_inj in E as Er. by apply resave_per_request; rewrite <- Er.
  - by apply resave_per_second.
  - destruct (split_value _) as [parts|]; [|done]. apply Return_inj in E as Er.
    by eapply resave_tiered; rewrite <- Er.
  - destruct (truthy_str (text_of (own n (m (Prices price))))) eqn:Ep.
    + apply Return_inj in E as Er. by apply resave_per_request; rewrite <- Er.
    + apply Return_inj in E as Er. apply resave_per_token; rewrite <- ?Er; try done.
      by destruct (text_of (own n (m (Prices price)))).
Qed.
End Resave.

Lemma stored_row_Some t n r :
  typed_texts t -> stored_row t n = Return (Some r) -> snapshot_of (read_maps t) n = Return r.
Proof.
  intros Ht. unfold stored_row. destruct (names_exist _ Ht) as (ns & -> & _). cbn [obind].
  case_bool_decide; [|done]. destruct (snapshot_of _ _); [|done]. by intros [= ->].
Qed.

Lemma stored_row_intro t n r :
  typed_texts t -> (exists f, own n (read_maps t f) <> VUndef) -> snapshot_of (read_maps t) n = Return r ->
  stored_row t n = Return (Some r).
Proof.
  intros Ht Hf Hr. unfold stored_row. destruct (names_exist _ Ht) as (ns & -> & Hn). cbn [obind].
  rewrite bool_decide_eq_true_2 by by apply Hn. by rewrite Hr.
Qed.

(** A row shows the stored numbers, and its unit is a text. *)
Lemma row_field t n r f :
  typed_texts t -> snapshot_of (read_maps t) n = Return r ->
  exists v, or_empty (s_field r f) = text_of v /\ number_val v.
Proof.
  intros Ht Hr. unfold snapshot_of in Hr.
  repeat case_match; try (destruct (split_value _); [|done]); cbn [obind] in Hr;
    apply Return_inj in Hr as <-; cbn [s_field]; try (destruct (decide (f = price)) as [->|]);
    first [ (eexists; split; [reflexivity|apply (typed_own _ (Prices _) n Ht)])
          | (exists VUndef; split; [reflexivity|by left]) ].
Qed.

Lemma row_unit t n r :
  typed_texts t -> snapshot_of (read_maps t) n = Return r ->
  exists s, vor (s_unit r) (VStr (js "request")) = VStr s /\ truthy_str s = true.
Proof.
  intros Ht Hr. unfold snapshot_of in Hr.
  assert (HU : exists s, vor (own n (read_maps t Units)) (VStr (js "request")) = VStr s /\ truthy_str s = true).
  { destruct (typed_own _ Units n Ht) as [->|[ [|c s] ->] ];
      [by exists (js "request")|by exists (js "request")|by exists (c :: s)]. }
  destruct HU as (s & HU & Hs).
  repeat case_match; try (destruct (split_value _); [|done]); cbn [obind] in Hr;
    apply Return_inj in Hr as <-; cbn [s_unit]; try by exists (js "request").
  all: rewrite HU; unfold vor; cbn [truthy]; rewrite Hs; by exists s.
Qed.

(** What is saved from a stored row can be stored. *)
Lemma resubmit_ok t n r : typed_texts t -> snapshot_of (read_maps t) n = Return r -> data_ok (resubmit r).
Proof.
  intros Ht Hr. split.
  - intros f x Hx. rewrite resubmit_field in Hx.
    destruct (row_field t n r f Ht Hr) as (v & Hv & Hn). rewrite Hv in Hx.
    pose proof (number_of_text v Hn) as Hnum. unfold number_of in Hnum. rewrite Hx in Hnum.
    by destruct Hn as [->|(y & -> & Hy)]; simplify_eq.
  - destruct (row_unit t n r Ht Hr) as (s & Hu & Hs).
    unfold resubmit, buildSubmitData. cbn [ModelPricing.requestUnit].
    case_bool_decide; [|by left]. right. exists s. cbn. rewrite Hu. unfold vor. cbn [truthy]. by rewrite Hs.
Qed.

(** What a commit of the editor does to the settings *)
Lemma commit_saves t p data n :
  typed_texts t -> commitDraft p = Some data -> name data = n -> data_ok data ->
  exists t', commitOpenEditor t p = Some (Return (t', data)) /\ typed_texts t'
             /\ (forall f, own n (read_maps t' f) = stored data f)
             /\ (forall k, k <> n -> stored_row t' k ≡ stored_row t k).
Proof.
  intros Ht Hc Hn Hd. destruct (persist_fold_spec data [n] _ Ht Hd) as (m' & E & Hm' & H').
  exists (write_maps m'). pose proof (typed_write m' Hm') as Ht'. split; [|split; [done|split] ].
  - unfold commitOpenEditor, persistPricingData. rewrite Hc. cbn [mbind option_bind]. by rewrite Hn, E.
  - intros f. by rewrite read_write, H', decide_True by (done || apply list_elem_of_here).
  - intros k Hk. apply stored_row_ext; [done|done|]. intros f.
    rewrite read_write, H', decide_False by (done || set_solver). done.
Qed.

Lemma commit_data p data : commitDraft p = Some data -> data = buildSubmitData p.
Proof. unfold commitDraft. by destruct (_ || _); [|intros [= <-] ]. Qed.

(** The form of a stored row, committed with the texts it starts from, leaves the row as it was,
    by the signature that marks changed rows, and every other row too: the numbers are read and
    printed back exactly, whatever the mode of the model. *)
Lemma recommit_unchanged t n r data :
  typed_texts t -> stored_row t n = Return (Some r) -> trim n = n -> resavable r ->
  commitDraft (open_panel (Some (edit_data r))) = Some data ->
  exists t' r',
    commitOpenEditor t (open_panel (Some (edit_data r))) = Some (Return (t', data))
    /\ stored_row t' n = Return (Some r')
    /\ getSnapshotSignature (Some r') = getSnapshotSignature (Some r)
    /\ (forall k, k <> n -> stored_row t' k ≡ stored_row t k).
Proof.
  intros Ht Hrow Htrim Hkeep Hcommit. pose proof (stored_row_Some t n r Ht Hrow) as Hr.
  pose proof (commit_data _ _ Hcommit) as ->. fold (resubmit r) in *.
  assert (Hname : name (resubmit r) = n) by (cbn; by rewrite (snapshot_name _ _ _ Hr)).
  destruct (commit_saves t _ _ n Ht Hcommit Hname (resubmit_ok t n r Ht Hr)) as (t' & E & Ht' & H' & Ho).
  destruct (resave_row (read_maps t) (read_maps t') n r Ht Hr Hkeep H') as (Hex & r' & Hr' & Hsig).
  exists t', r'. split; [done|]. split; [by apply stored_row_intro|done].
Qed.

(** ** What an edit cannot change *)

Definition sets_price (a : action) : bool := match a with SetPrice _ => true | _ => false end.

Lemma act_price p a : sets_price a = false -> p_values (act p a) price = p_values p price.
Proof.
  intros Ha. unfold act. destruct (allowed p a); [|done]. cbn [negb].
  destruct a as [s|s|lane s|lane checked|m|s|s|s|s]; try done.
  - unfold handlePromptPriceChange. by case_match.
  - unfold handleLanePriceChange. repeat case_match; cbn [setFormValue set_lanes p_values];
      by rewrite ?fn_set_ne by (by destruct lane).
  - unfold handleLaneToggle. repeat case_match; cbn [setFormValue set_lanes p_values];
      by rewrite ?fn_set_ne by (by destruct lane).
Qed.

Lemma act_name p a : isEditMode p = true -> isEditMode (act p a) = true /\ p_name (act p a) = p_name p.
Proof.
  intros He. unfold act. destruct (allowed p a) eqn:Ha; [|done]. cbn [negb].
  destruct a as [s|s|lane s|lane checked|m|s|s|s|s]; try done.
  - cbn [allowed] in Ha. by rewrite He in Ha.
  - unfold handlePromptPriceChange. by case_match.
  - unfold handleLanePriceChange. by repeat case_match.
  - unfold handleLaneToggle. by repeat case_match.
  - unfold handlePriceChange. by case_match.
Qed.

Lemma run_keeps data acts :
  existsb sets_price acts = false ->
  p_values (run (Some data) acts) price = p_values (open_panel (Some data)) price
  /\ p_name (run (Some data) acts) = name data.
Proof.
  unfold run. assert (H : isEditMode (open_panel (Some data)) = true) by done.
  change (name data) with (p_name (open_panel (Some data))). revert H.
  generalize (open_panel (Some data)); induction acts as [|a acts IH]; intros p Hp Hacts; [done|].
  apply orb_false_iff in Hacts as [Ha Hacts]. destruct (act_name p a Hp) as [Hp' Hn].
  destruct (IH _ Hp' Hacts) as [H1 H2]. cbn [fold_left]. by rewrite H1, H2, act_price, Hn.
Qed.

(** A model with a fixed price cannot be switched to prices per token: the price stays in
    the form when the mode changes, and saving writes it and nothing else, whatever prices
    per token were typed, so that the model has its fixed price again. *)
Theorem switch_to_per_token_lost t n r acts data :
  typed_texts t -> stored_row t n = Return (Some r) -> trim n = n ->
  s_mode r = per_request -> truthy_str (or_empty (s_field r price)) = true ->
  existsb sets_price acts = false ->
  pricingMode (run (Some (edit_data r)) acts) = per_token ->
  commitDraft (run (Some (edit_data r)) acts) = Some data -> data_ok data ->
  exists t' r',
    commitOpenEditor t (run (Some (edit_data r)) acts) = Some (Return (t', data))
    /\ stored_row t' n = Return (Some r')
    /\ s_mode r' = per_request /\ s_field r' price = s_field r price /\ s_field r' ratio = None.
Proof.
  intros Ht Hrow Htrim Hmode Hprice Hacts Hp Hcommit Hd.
  pose proof (stored_row_Some t n r Ht Hrow) as Hr. destruct (run_keeps (edit_data r) acts Hacts) as [Hv Hname].
  pose proof (commit_data _ _ Hcommit) as Hdata. set (p := run (Some (edit_data r)) acts) in *.
  assert (Hn : name data = n).
  { subst data. unfold buildSubmitData. cbn [name]. rewrite Hname. cbn. by rewrite (snapshot_name _ _ _ Hr). }
  assert (Hf : field_of data price = Some (or_empty (s_field r price))).
  { subst data. unfold buildSubmitData. cbn [field_of formatOptionalNumericField]. rewrite Hv.
    cbn. by destruct (s_field r price). }
  destruct (commit_saves t p data n Ht Hcommit Hn Hd) as (t' & E & Ht' & H' & _).
  assert (Ho : forall f, own n (read_maps t' f) = stored_by_price data f).
  { intros f. rewrite H'. unfold stored.
    replace (ModelPricing.billingMode data) with (Some (js "per-token")); [done|].
    subst data. unfold buildSubmitData. cbn [ModelPricing.billingMode]. by rewrite Hp. }
  destruct (row_field t n r price Ht Hr) as (v & Hpv & Hnv).
  assert (HP : own n (read_maps t' (Prices price)) = v).
  { rewrite Ho. unfold stored_by_price. rewrite Hf. change (or_empty (Some ?s)) with s.
    rewrite Hprice, bool_decide_eq_true_2 by done. cbn [Bool.eqb]. rewrite Hpv. by apply number_of_text. }
  rewrite Hpv in Hprice. exists t'. eexists. split; [exact E|]. split.
  - apply stored_row_intro; [done| |].
    + exists (Prices price). rewrite HP. rewrite text_of_truthy in Hprice by done. by destruct v.
    + unfold snapshot_of. rewrite HP, !Ho. cbn [stored_by_price]. rewrite Hprice. reflexivity.
  - cbn [s_mode s_field]. split; [done|]. split; [|done]. rewrite decide_True, <- Hpv by done.
    destruct (s_field r price); [done|]. cbn in Hpv. by rewrite <- Hpv in Hprice.
Qed.

(** When the input price is zero, the prices typed for the other lanes are not saved, and
    no warning says so: every lane but audio output has an empty ratio. *)
Theorem zero_input_price_drops_lanes data acts z d l :
  (data = None \/ exists s, SetPrompt s ∈ acts /\ test numericDraftRegex s = true) ->
  let p := run data acts in
  pricingMode p = per_token -> ModelPricing.toNumberOrNull (VStr (p_prompt p)) = Some z ->
  neqb z zero = true -> l <> audioOutput -> commitDraft p = Some d ->
  field_of d (ratioFieldByLane l) = Some [] /\ INPUT_REQUIRED ∉ warnings data p.
Proof.
  intros Hsync p Hmode Hz Hzero Hl Hcommit.
  pose proof (run_follows data acts Hsync : follows p) as Hp.
  split.
  - pose proof (commit_data _ _ Hcommit) as ->.
    unfold buildSubmitData. cbn [field_of formatOptionalNumericField]. rewrite (proj2 Hp). f_equal.
    unfold lane_ratio, deriveLaneRatio. destruct (laneEnabled p l); [|done]. case_match; [|done].
    rewrite decide_False, Hz by done. by rewrite Hzero.
  - unfold warnings, input_missing. rewrite Hz. rewrite (bool_decide_eq_false_2 (Some z = None)) by done.
    rewrite andb_false_r. cbn [andb app].
    repeat case_match; rewrite ?elem_of_app, ?list_elem_of_singleton, ?elem_of_nil; naive_solver.
Qed.

(** ** Examples *)

(** The row of "a" in [sample_texts]: ratios 2 and 4, no mode *)
Definition row_a : ModelPricingSnapshot :=
  {| s_name := js "a";
     s_field := fun f => Some (text_of (own (js "a") (read_maps sample_texts (Prices f))));
     s_mode := per_token; s_expr := None; s_rules := None; s_unit := VUndef; hasConflict := false |}.

Lemma row_a_stored : typed_texts sample_texts /\ stored_row sample_texts (js "a") = Return (Some row_a).
Proof.
  assert (Ht : typed_texts sample_texts) by (by apply typed_texts_intro). split; [exact Ht|].
  apply stored_row_intro; [exact Ht|exists (Prices ratio); by vm_compute|].
  assert (HM : own (js "a") (read_maps sample_texts Modes) = VUndef) by by vm_compute.
  assert (HP : own (js "a") (read_maps sample_texts (Prices price)) = VUndef) by by vm_compute.
  unfold snapshot_of. rewrite HM, HP. reflexivity.
Qed.

Lemma commit_intro p :
  form_valid p && validatePricingValues p = true -> commitDraft p = Some (buildSubmitData p).
Proof. unfold commitDraft. by destruct (form_valid p), (validatePricingValues p). Qed.

Definition fixed_texts : texts := fun f =>
  match f with
  | Prices price => ser (VObj [(js "m", VNum (num_of_Z 5))])
  | _ => js "{}"
  end.

Definition row_m : ModelPricingSnapshot :=
  {| s_name := js "m";
     s_field := fun f => if decide (f = price)
                         then Some (text_of (own (js "m") (read_maps fixed_texts (Prices price)))) else None;
     s_mode := per_request; s_expr := None; s_rules := None; s_unit := VStr (js "request");
     hasConflict := false |}.

(** Switch to prices per token and type an input price of 3 *)
Definition switch_acts : list action := [SetMode per_token; SetPrompt (js "3")].

Lemma switch_to_per_token_lost_witness :
  exists t' r', commitOpenEditor fixed_texts (run (Some (edit_data row_m)) switch_acts)
                = Some (Return (t', buildSubmitData (run (Some (edit_data row_m)) switch_acts)))
                /\ stored_row t' (js "m") = Return (Some r')
                /\ s_mode r' = per_request /\ s_field r' price = Some (js "5").
Proof.
  assert (Ht : typed_texts fixed_texts) by (by apply typed_texts_intro).
  assert (Hrow : stored_row fixed_texts (js "m") = Return (Some row_m)).
  { apply stored_row_intro; [exact Ht|exists (Prices price); by vm_compute|].
    assert (HM : own (js "m") (read_maps fixed_texts Modes) = VUndef) by by vm_compute.
    assert (HU : own (js "m") (read_maps fixed_texts Units) = VUndef) by by vm_compute.
    unfold snapshot_of. rewrite HM, HU. reflexivity. }
  assert (Hc : commitDraft (run (Some (edit_data row_m)) switch_acts)
               = Some (buildSubmitData (run (Some (edit_data row_m)) switch_acts))).
  { apply commit_intro. by vm_compute. }
  assert (Hd : data_ok (buildSubmitData (run (Some (edit_data row_m)) switch_acts))).
  { apply data_ok_intro. by vm_compute. }
  assert (Hp : truthy_str (or_empty (s_field row_m price)) = true) by by vm_compute.
  assert (Hm : pricingMode (run (Some (edit_data row_m)) switch_acts) = per_token) by by vm_compute.
  destruct (switch_to_per_token_lost fixed_texts (js "m") row_m switch_acts _ Ht Hrow
              eq_refl eq_refl Hp eq_refl Hm Hc Hd) as (t' & r' & E & Hr & Hmode & Hprice & _).
  exists t', r'. split; [exact E|]. split; [exact Hr|]. split; [exact Hmode|].
  rewrite Hprice. by vm_compute.
Defined.

Definition zero_acts : list action :=
  [SetName (js "m"); SetPrompt (js "0"); Toggle completion true; SetLanePrice completion (js "5")].

Lemma zero_input_price_drops_lanes_witness :
  field_of (buildSubmitData (run None zero_acts)) completionRatio = Some []
  /\ lanePrices (run None zero_acts) completion = js "5".
Proof.
  split; [|by vm_compute].
  apply (zero_input_price_drops_lanes None zero_acts zero (buildSubmitData (run None zero_acts)) completion);
    [by left|by vm_compute|by vm_compute|done|done|]. apply commit_intro. by vm_compute.
Defined.
