(* ===== verification/ParamOverride.v ===== *)
(** * Parameter overrides
      ([features/channels/components/dialogs/param-override-editor-dialog.tsx], the
      functions above the component)

    A channel may change the body and the headers of the requests it relays.  The change is
    stored as JSON text: either an object of fields to set (the legacy format) or
    [{"operations": [...]}].  This file is the reading of a stored text into the rows of the
    editor, the checks of the rows, and the text built from them; [ParamOverrideEditor] is
    the dialog.

    Rows carry local names, drawn from a counter of the module ([localIdSeed]) and the clock,
    the parameter [now]; code that draws names is in the monad [gen]. *)

From S2P Require Import Prelude JsString JsNumber JsValue JsJson.

#[local] Open Scope outcome_scope.

(** ** Code that draws names and may throw *)

Definition gen (A : Type) : Type := N -> outcome (A * N).

#[export] Instance gen_ret : MRet gen := fun A a n => Return (a, n).
#[export] Instance gen_bind : MBind gen := fun A B f m n =>
  obind (m n) (fun r => f (fst r) (snd r)).

Definition glift {A} (o : outcome A) : gen A := fun n => omapr (fun a => (a, n)) o.

(** [l.map(f)] *)
Fixpoint gmapM {A B} (f : A -> gen B) (l : list A) : gen (list B) :=
  match l with
  | [] => mret []
  | x :: t => y ← f x; ys ← gmapM f t; mret (y :: ys)
  end.

(** [v.k], where [v] may be null *)
Definition read (k : jsstr) (v : jsval) : outcome jsval :=
  if nullish v then Throw else Return (prop k v).

(** ** Rows *)

Record ParamOverrideCondition := Condition {
  c_id : jsstr; c_path : jsstr; c_mode : jsstr; c_value_text : jsstr;
  c_invert : bool; c_pass_missing_key : bool }.

(** A rule of [prune_objects] has the fields of a condition. *)
Abbreviation PruneRule := ParamOverrideCondition.

Record ParamOverrideOperation := Operation {
  o_id : jsstr; o_description : jsstr; o_path : jsstr; o_mode : jsstr; o_from : jsstr;
  o_to : jsstr; o_value_text : jsstr; o_keep_origin : bool; o_logic : jsstr;
  o_conditions : list ParamOverrideCondition }.

(** ** Modes *)

Definition OPERATION_MODE_VALUES : list jsstr := Eval vm_compute in
  [ js "set"; js "delete"; js "append"; js "prepend"; js "copy"; js "move"; js "replace";
    js "regex_replace"; js "trim_prefix"; js "trim_suffix"; js "ensure_prefix";
    js "ensure_suffix"; js "trim_space"; js "to_lower"; js "to_upper"; js "return_error";
    js "prune_objects"; js "pass_headers"; js "sync_fields"; js "set_header";
    js "delete_header"; js "copy_header"; js "move_header" ].

Definition CONDITION_MODE_VALUES : list jsstr := Eval vm_compute in
  [ js "full"; js "prefix"; js "suffix"; js "contains"; js "gt"; js "gte"; js "lt"; js "lte" ].

(** Which fields a mode has.  [m_to] is [None] where the table has no entry, [Some false] for
    [to: false]. *)
Record ModeMeta := Meta {
  m_path : bool; m_pathOptional : bool; m_value : bool; m_from : bool; m_to : option bool;
  m_keepOrigin : bool; m_pathAlias : bool }.

#[export] Instance ModeMeta_eq_dec : EqDecision ModeMeta.
Proof. solve_decision. Defined.

Definition meta_path := Meta true false false false None false false.
Definition meta_path_value := Meta true false true false None false false.
Definition meta_write := Meta true false true false None true false.
Definition meta_move := Meta false false false true (Some true) false false.
Definition meta_replace := Meta true false false true (Some false) false false.
Definition meta_header_move := Meta false false false true (Some true) true true.

Definition MODE_META : list (jsstr * ModeMeta) := Eval vm_compute in
  [ (js "delete", meta_path); (js "set", meta_write); (js "append", meta_write);
    (js "prepend", meta_write); (js "copy", meta_move); (js "move", meta_move);
    (js "replace", meta_replace); (js "regex_replace", meta_replace);
    (js "trim_prefix", meta_path_value); (js "trim_suffix", meta_path_value);
    (js "ensure_prefix", meta_path_value); (js "ensure_suffix", meta_path_value);
    (js "trim_space", meta_path); (js "to_lower", meta_path); (js "to_upper", meta_path);
    (js "return_error", Meta false false true false None false false);
    (js "prune_objects", Meta false true true false None false false);
    (js "pass_headers", Meta false false true false None true false);
    (js "sync_fields", meta_move); (js "set_header", meta_write);
    (js "delete_header", meta_path); (js "copy_header", meta_header_move);
    (js "move_header", meta_header_move) ].

(** [MODE_META[mode] || MODE_META.set] *)
Definition meta_of (mode : jsstr) : ModeMeta :=
  match list_find (fun e => e.1 = mode) MODE_META with
  | Some (_, e) => e.2
  | None => meta_write
  end.

Definition VALUE_REQUIRED_MODES : list jsstr := Eval vm_compute in
  [ js "trim_prefix"; js "trim_suffix"; js "ensure_prefix"; js "ensure_suffix"; js "set_header";
    js "return_error"; js "prune_objects"; js "pass_headers" ].

Definition FROM_REQUIRED_MODES : list jsstr := Eval vm_compute in
  [ js "copy"; js "move"; js "replace"; js "regex_replace"; js "copy_header"; js "move_header";
    js "sync_fields" ].

Definition TO_REQUIRED_MODES : list jsstr := Eval vm_compute in
  [ js "copy"; js "move"; js "copy_header"; js "move_header"; js "sync_fields" ].

(** ** Values as text *)

Definition toValueText (value : jsval) : jsstr :=
  match value with
  | VUndef => []
  | VStr s => s
  | v => ser v
  end.

Definition parseLooseValue (valueText : jsstr) : jsval :=
  let raw := trim valueText in
  if bool_decide (raw = []) then VStr []
  else match json_parse raw with Some v => v | None => VStr raw end.

Definition verifyJSON (text : jsstr) : bool :=
  match json_parse text with Some _ => true | None => false end.

(** [typeof v === 'string' ? v : ''] *)
Definition string_or_empty (v : jsval) : jsstr := match v with VStr s => s | _ => [] end.

(** [modes.has(v) ? v : d] *)
Definition known_mode (modes : list jsstr) (d : jsstr) (v : jsval) : jsstr :=
  match v with VStr s => if bool_decide (s ∈ modes) then s else d | _ => d end.

(** [String(v).toUpperCase() === w] for a word [w] of the letters A, D, N, O and R, each of
    which is the upper case of no code unit but itself and its small letter. *)
Definition upper_is (w : jsstr) (v : jsval) : bool :=
  bool_decide (List.map (fun c => if (97 <=? c) && (c <=? 122) then c - 32 else c)%N (to_string v) = w).

Definition AND : jsstr := Eval vm_compute in js "AND".
Definition OR : jsstr := Eval vm_compute in js "OR".
Definition FULL : jsstr := Eval vm_compute in js "full".
Definition SET : jsstr := Eval vm_compute in js "set".

Section Names.
(** [Date.now()] at the drawing of each name *)
Context (now : N -> N).

Definition local_id (k : N) : jsstr := js "po_" ++ digits_of (now k) ++ js "_" ++ digits_of k.

Definition nextLocalId : gen jsstr := fun k => Return (local_id k, N.succ k).

(** ** Reading rows *)

Definition normalizeCondition (condition : jsval) : gen ParamOverrideCondition :=
  id ← nextLocalId;
  path ← glift (read (js "path") condition);
  mret (Condition id (string_or_empty path)
          (known_mode CONDITION_MODE_VALUES FULL (prop (js "mode") condition))
          (toValueText (prop (js "value") condition))
          (is_true (prop (js "invert") condition))
          (is_true (prop (js "pass_missing_key") condition))).

Definition createDefaultCondition : gen ParamOverrideCondition := normalizeCondition (VObj []).

Definition normalizeOperation (operation : jsval) : gen ParamOverrideOperation :=
  id ← nextLocalId;
  description ← glift (read (js "description") operation);
  let get k := prop k operation in
  conditions ← match get (js "conditions") with
               | VArr l => gmapM normalizeCondition l
               | _ => mret []
               end;
  mret (Operation id (string_or_empty description) (string_or_empty (get (js "path")))
          (known_mode OPERATION_MODE_VALUES SET (get (js "mode")))
          (string_or_empty (get (js "from"))) (string_or_empty (get (js "to")))
          (toValueText (get (js "value"))) (is_true (get (js "keep_origin")))
          (if upper_is AND (vor (get (js "logic")) (VStr OR)) then AND else OR)
          conditions).

Definition createDefaultOperation : gen ParamOverrideOperation :=
  normalizeOperation (VObj [(js "mode", VStr SET)]).

(** ** Order of the rows *)

Inductive DropPosition := before | after.

(** [ops.findIndex((o) => o.id === id)] *)
Definition find_id (id : jsstr) (ops : list ParamOverrideOperation) : option nat :=
  fst <$> list_find (fun o => o_id o = id) ops.

(** [l.splice(i, 0, x)] *)
Definition insert_at {A} (i : nat) (x : A) (l : list A) : list A := take i l ++ x :: drop i l.

Definition reorderOperations (ops : list ParamOverrideOperation) (sourceId targetId : jsstr)
    (position : DropPosition) : list ParamOverrideOperation :=
  if negb (truthy_str sourceId) || negb (truthy_str targetId) || bool_decide (sourceId = targetId)
  then ops
  else
    match list_find (fun o => o_id o = sourceId) ops with
    | None => ops
    | Some (srcIdx, moved) =>
        let next := delete srcIdx ops in
        match find_id targetId next with
        | None => ops
        | Some insertIdx =>
            insert_at (match position with after => S insertIdx | before => insertIdx end) moved next
        end
    end.

(** ** Blank rows *)

Definition condition_touched (c : ParamOverrideCondition) : bool :=
  truthy_str (trim (c_path c)) || truthy_str (trim (c_value_text c))
  || negb (bool_decide (c_mode c = FULL)) || c_invert c || c_pass_missing_key c.

Definition isOperationBlank (o : ParamOverrideOperation) : bool :=
  bool_decide (o_mode o = SET) && negb (truthy_str (trim (o_path o)))
  && negb (truthy_str (trim (o_from o))) && negb (truthy_str (trim (o_to o)))
  && bool_decide (trim (o_value_text o) = []) && negb (o_keep_origin o)
  && negb (existsb condition_touched (o_conditions o)).

(** ** The value of [return_error] *)

Record ReturnErrorDraft := ErrorDraft {
  d_message : jsstr; d_statusCode : num; d_code : jsstr; d_type : jsstr;
  d_skipRetry : bool; d_simpleMode : bool }.

(** An HTTP status, or 400 *)
Definition status_or_400 (n : num) : num :=
  if is_integer n && nleb (num_of_Z 100) n && nleb n (num_of_Z 599) then n else num_of_Z 400.

(** [String(v || '').trim()] *)
Definition trimmed_string (v : jsval) : jsstr := trim (to_string (vor v (VStr []))).

Definition parseReturnErrorDraft (valueText : jsstr) : ReturnErrorDraft :=
  let raw := trim valueText in
  if negb (truthy_str raw) then ErrorDraft [] (num_of_Z 400) [] [] true true
  else match json_parse raw with
       | Some (VObj parsed) =>
           let get k := at_ k parsed in
           let statusRaw := if is_undef (get (js "status_code")) then get (js "status")
                            else get (js "status_code") in
           ErrorDraft (trimmed_string (vor (get (js "message")) (get (js "msg"))))
             (status_or_400 (to_number statusRaw))
             (trimmed_string (get (js "code"))) (trimmed_string (get (js "type")))
             (negb (is_false (get (js "skip_retry")))) false
       | _ => ErrorDraft raw (num_of_Z 400) [] [] true true
       end.

(** [if (c) payload[k] = v] *)
Definition set_if (c : bool) (k : jsstr) (v : jsval) (payload : obj) : obj :=
  if c then oset k v payload else payload.

Definition buildReturnErrorValueText (draft : ReturnErrorDraft) : jsstr :=
  let message := trim (d_message draft) in
  if d_simpleMode draft then message
  else
    let code := trim (d_code draft) in
    let type := trim (d_type draft) in
    ser (VObj
      (set_if (negb (d_skipRetry draft)) (js "skip_retry") (VBool false)
      (set_if (truthy_str type) (js "type") (VStr type)
      (set_if (truthy_str code) (js "code") (VStr code)
      [ (js "message", VStr message);
        (js "status_code", VNum (status_or_400 (d_statusCode draft))) ])))).

(** ** The value of [prune_objects] *)

Record PruneObjectsDraft := PruneDraft {
  pd_simpleMode : bool; pd_typeText : jsstr; pd_logic : jsstr; pd_recursive : bool;
  pd_rules : list PruneRule }.

Definition normalizePruneRule (rule : jsval) : gen PruneRule :=
  id ← nextLocalId;
  path ← glift (read (js "path") rule);
  mret (Condition id (string_or_empty path)
          (known_mode CONDITION_MODE_VALUES FULL (prop (js "mode") rule))
          (toValueText (prop (js "value") rule))
          (is_true (prop (js "invert") rule)) (is_true (prop (js "pass_missing_key") rule))).

(** [{ path, mode: 'full', value }] *)
Definition full_rule (e : jsstr * jsval) : jsval :=
  VObj [(js "path", VStr e.1); (js "mode", VStr FULL); (js "value", e.2)].

(** The rules of [where] *)
Definition where_rules (v : jsval) : gen (list PruneRule) :=
  match v with
  | VObj o => gmapM (fun e => normalizePruneRule (full_rule e)) o
  | _ => mret []
  end.

(** [item && typeof item === 'object'] *)
Definition is_object (v : jsval) : bool :=
  match v with VObj _ | VArr _ => true | _ => false end.

(** The rules of [conditions] *)
Definition condition_rules (v : jsval) : gen (list PruneRule) :=
  match v with
  | VArr l => gmapM normalizePruneRule (filterb is_object l)
  | VObj o => gmapM (fun e => normalizePruneRule (full_rule e)) o
  | _ => mret []
  end.

Definition parsePruneObjectsDraft (valueText : jsstr) : gen PruneObjectsDraft :=
  let defaults typeText := PruneDraft true typeText AND true [] in
  let raw := trim valueText in
  if negb (truthy_str raw) then mret (defaults [])
  else match json_parse raw with
       | None => mret (defaults raw)
       | Some (VStr s) => mret (defaults (trim s))
       | Some (VObj parsed) =>
           let get k := at_ k parsed in
           rules1 ← where_rules (get (js "where"));
           rules2 ← condition_rules (get (js "conditions"));
           mret (PruneDraft
             (negb (negb (is_undef (get (js "logic"))) || negb (is_undef (get (js "recursive")))
                    || negb (is_undef (get (js "where"))) || negb (is_undef (get (js "conditions")))))
             (if is_undef (get (js "type")) then [] else trim (to_string (get (js "type"))))
             (if upper_is OR (vor (get (js "logic")) (VStr AND)) then OR else AND)
             (negb (is_false (get (js "recursive")))) (rules1 ++ rules2))
       | Some v => mret (defaults (trim (if nullish v then [] else to_string v)))
       end.

(** The stored form of a rule *)
Definition rule_payload (rule : PruneRule) : jsval :=
  let valueRaw := trim (c_value_text rule) in
  VObj
    (set_if (c_pass_missing_key rule) (js "pass_missing_key") (VBool true)
    (set_if (c_invert rule) (js "invert") (VBool true)
    (set_if (negb (bool_decide (valueRaw = []))) (js "value") (parseLooseValue valueRaw)
    [ (js "path", VStr (trim (c_path rule)));
      (js "mode", VStr (if bool_decide (c_mode rule ∈ CONDITION_MODE_VALUES)
                        then c_mode rule else FULL)) ]))).

Definition buildPruneObjectsValueText (draft : PruneObjectsDraft) : jsstr :=
  let typeText := trim (pd_typeText draft) in
  if pd_simpleMode draft then typeText
  else
    let conditions := rule_payload <$>
      filterb (fun rule => truthy_str (trim (c_path rule))) (pd_rules draft) in
    let payload :=
      set_if (negb (bool_decide (conditions = []))) (js "conditions") (VArr conditions)
      (set_if (negb (pd_recursive draft)) (js "recursive") (VBool false)
      (set_if (upper_is OR (VStr (or_str (pd_logic draft) AND))) (js "logic") (VStr OR)
      (set_if (truthy_str typeText) (js "type") (VStr typeText) []))) in
    if negb (truthy (at_ (js "type") payload)) && negb (truthy (at_ (js "conditions") payload))
    then ser (VObj [(js "logic", VStr AND)])
    else ser (VObj payload).

(** ** The value of [pass_headers] and the ends of [sync_fields] *)

(** [l.map((i) => String(i ?? '').trim()).filter(Boolean)] *)
Definition header_list (l : list jsval) : list jsstr :=
  filter_truthy ((fun i => trim (if nullish i then [] else to_string i)) <$> l).

Definition parsePassHeaderNames (rawValue : jsval) : list jsstr :=
  match rawValue with
  | VArr l => header_list l
  | VObj o =>
      match at_ (js "headers") o with
      | VArr l => header_list l
      | _ => if is_undef (at_ (js "header") o) then [] else header_list [at_ (js "header") o]
      end
  | VStr s => filter_truthy (trim <$> split_char 44 s)
  | _ => []
  end.

Record SyncTarget := Target { t_type : jsstr; t_key : jsstr }.

Definition JSON_TARGET : jsstr := Eval vm_compute in js "json".
Definition HEADER_TARGET : jsstr := Eval vm_compute in js "header".

Definition parseSyncTargetSpec (spec : jsstr) : SyncTarget :=
  let raw := trim spec in
  if negb (truthy_str raw) then Target JSON_TARGET []
  else match index_of (js ":") raw with
       | None => Target JSON_TARGET raw
       | Some idx =>
           let prefix := to_lower (trim (take idx raw)) in
           let key := trim (drop (S idx) raw) in
           Target (if bool_decide (prefix = HEADER_TARGET) then HEADER_TARGET else JSON_TARGET) key
       end.

Definition buildSyncTargetSpec (type key : jsstr) : jsstr :=
  let normalizedType := if bool_decide (type = HEADER_TARGET) then HEADER_TARGET else JSON_TARGET in
  let normalizedKey := trim key in
  if negb (truthy_str normalizedKey) then [] else normalizedType ++ js ":" ++ normalizedKey.

(** ** Checks *)

(** Conditions without a path are left out. *)
Definition buildConditionPayload (condition : ParamOverrideCondition) : option jsval :=
  let path := trim (c_path condition) in
  if negb (truthy_str path) then None
  else Some (VObj
    (set_if (c_pass_missing_key condition) (js "pass_missing_key") (VBool true)
    (set_if (c_invert condition) (js "invert") (VBool true)
    [ (js "path", VStr path); (js "mode", VStr (or_str (c_mode condition) FULL));
      (js "value", parseLooseValue (c_value_text condition)) ]))).

Inductive RuleProblem :=
  | missing_path | missing_from | missing_to | missing_value | missing_message
  | missing_conditions | missing_headers | invalid_headers.

Definition problem_key (p : RuleProblem) : jsstr :=
  match p with
  | missing_path => js "Rule {{line}} is missing target path"
  | missing_from => js "Rule {{line}} is missing source field"
  | missing_to => js "Rule {{line}} is missing target field"
  | missing_value => js "Rule {{line}} is missing value"
  | missing_message => js "Rule {{line}} return_error requires a message field"
  | missing_conditions => js "Rule {{line}} prune_objects is missing conditions"
  | missing_headers => js "Rule {{line}} pass_headers is missing header names"
  | invalid_headers => js "Rule {{line}} pass_headers format is invalid"
  end.

(** [op.mode || 'set'] *)
Definition mode_of (o : ParamOverrideOperation) : jsstr := or_str (o_mode o) SET.

(** The checks of the value, by mode *)
Definition value_problem (mode value_text : jsstr) : option RuleProblem :=
  let raw := trim value_text in
  if bool_decide (mode = js "return_error") then
    if negb (truthy_str raw) then Some missing_value
    else match json_parse raw with
         | Some (VObj parsed) =>
             if negb (truthy_str (trimmed_string (at_ (js "message") parsed)))
             then Some missing_message else None
         | _ => None
         end
  else if bool_decide (mode = js "prune_objects") then
    if negb (truthy_str raw) then Some missing_conditions else None
  else if bool_decide (mode = js "pass_headers") then
    if negb (truthy_str raw) then Some missing_headers
    else if bool_decide (parsePassHeaderNames (parseLooseValue raw) = []) then Some invalid_headers
    else None
  else None.

(** The first problem of a row *)
Definition operation_problem (op : ParamOverrideOperation) : option RuleProblem :=
  let mode := mode_of op in
  let meta := meta_of mode in
  let alias := m_pathAlias meta && truthy_str (trim (o_path op)) in
  if m_path meta && negb (truthy_str (trim (o_path op))) then Some missing_path
  else if bool_decide (mode ∈ FROM_REQUIRED_MODES) && negb (truthy_str (trim (o_from op)))
          && negb alias then Some missing_from
  else if bool_decide (mode ∈ TO_REQUIRED_MODES) && negb (truthy_str (trim (o_to op)))
          && negb alias then Some missing_to
  else if bool_decide (mode ∈ VALUE_REQUIRED_MODES) && bool_decide (trim (o_value_text op) = [])
  then Some missing_value
  else value_problem mode (o_value_text op).

(** ** The stored text *)

(** The fields of a stored row *)
Definition operation_base (operation : ParamOverrideOperation) : obj :=
  let mode := mode_of operation in
  let meta := meta_of mode in
  let descriptionValue := trim (o_description operation) in
  let pathValue := trim (o_path operation) in
  let fromValue := trim (o_from operation) in
  let toValue := trim (o_to operation) in
  let p1 := set_if (truthy_str descriptionValue) (js "description") (VStr descriptionValue)
              [(js "mode", VStr mode)] in
  let p2 := set_if (m_path meta) (js "path") (VStr pathValue) p1 in
  let p3 := set_if (m_pathOptional meta && truthy_str pathValue) (js "path") (VStr pathValue) p2 in
  let p4 := set_if (m_value meta) (js "value") (parseLooseValue (o_value_text operation)) p3 in
  let p5 := set_if (m_keepOrigin meta && o_keep_origin operation) (js "keep_origin") (VBool true) p4 in
  let p6 := set_if (m_from meta) (js "from") (VStr fromValue) p5 in
  let has_to := match m_to meta with Some b => b | None => false end in
  let p7 := set_if (negb has_to && truthy_str toValue) (js "to") (VStr toValue) p6 in
  let p8 := set_if has_to (js "to") (VStr toValue) p7 in
  let alias (k : jsstr) (p : obj) :=
    set_if (m_pathAlias meta && negb (truthy (at_ k p)) && truthy_str pathValue) k (VStr pathValue) p in
  alias (js "to") (alias (js "from") p8).

(** ... and its conditions *)
Definition operation_payload (operation : ParamOverrideOperation) : obj :=
  let conditions := omap buildConditionPayload (o_conditions operation) in
  if bool_decide (conditions = []) then operation_base operation
  else oset (js "logic") (VStr (if bool_decide (o_logic operation = AND) then AND else OR))
         (oset (js "conditions") (VArr conditions) (operation_base operation)).

Section Messages.
(** [t(key, { line })] *)
Context (t : jsstr -> N -> jsstr).

(** [validateOperations], from the row [line]; [None] where it returns the empty text at its
    end. *)
Fixpoint validate_from (line : N) (operations : list ParamOverrideOperation) : option jsstr :=
  match operations with
  | [] => None
  | op :: rest =>
      match operation_problem op with
      | Some p => Some (t (problem_key p) line)
      | None => validate_from (N.succ line) rest
      end
  end.

Definition validateOperations (operations : list ParamOverrideOperation) : jsstr :=
  default [] (validate_from 1 operations).

(** The text built, or the message of the error thrown *)
Inductive built := Built (text : jsstr) | Failed (message : jsstr).

Definition kept_operations (ops : list ParamOverrideOperation) : list ParamOverrideOperation :=
  filterb (fun o => negb (isOperationBlank o)) ops.

(** [JSON.stringify({ operations: payloadOps }, null, 2)] *)
Definition operations_text (ops : list ParamOverrideOperation) : jsstr :=
  pretty (VObj [(js "operations", VArr ((fun o => VObj (operation_payload o)) <$> ops))]).

Definition buildOperationsJson (sourceOperations : list ParamOverrideOperation) (validate : bool)
    : built :=
  let filteredOps := kept_operations sourceOperations in
  if bool_decide (length filteredOps = 0) then Built []
  else
    let message := if validate then validateOperations filteredOps else [] in
    if truthy_str message then Failed message else Built (operations_text filteredOps).

End Messages.

(** ** The state of the editor *)

Inductive EditMode := visual | json.
Inductive VisualMode := operations | legacy.

Record EditorState := Editor {
  e_editMode : EditMode; e_visualMode : VisualMode; e_legacyValue : jsstr;
  e_operations : list ParamOverrideOperation; e_jsonText : jsstr; e_jsonError : jsstr }.

(** [Array.isArray(parsed.operations)] of an object [parsed] *)
Definition operations_of (parsed : jsval) : option (list jsval) :=
  match parsed with
  | VObj o => match at_ (js "operations") o with VArr l => Some l | _ => None end
  | _ => None
  end.

(** [l.length > 0 ? l.map(normalizeOperation) : [createDefaultOperation()]] *)
Definition read_operations (l : list jsval) : gen (list ParamOverrideOperation) :=
  match l with
  | [] => o ← createDefaultOperation; mret [o]
  | _ => gmapM normalizeOperation l
  end.

Definition INVALID_JSON : jsstr := Eval vm_compute in js "Invalid JSON format".

Definition parseInitialState (text : jsstr) : gen EditorState :=
  let trimmed := trim text in
  let fallback em vm lv jt je :=
    o ← createDefaultOperation; mret (Editor em vm lv [o] jt je) in
  if negb (truthy_str trimmed) then fallback visual operations [] [] []
  else match json_parse trimmed with
       | None => fallback json operations [] text INVALID_JSON
       | Some parsed =>
           let pretty := JsJson.pretty parsed in
           match operations_of parsed with
           | Some l => ops ← read_operations l; mret (Editor visual operations [] ops pretty [])
           | None =>
               if is_record parsed then fallback visual legacy pretty pretty []
               else fallback json operations [] pretty []
           end
       end.

End Names.
