(* ===== verification/ParamOverrideProofs.v ===== *)
(** * Parameter overrides: what is read back

    Lemmas and theorems about [ParamOverride]: which values survive the text of their input,
    that a saved list of rows opens as the rows that save it again, that an accepted list
    stores complete rows, and how rows move. *)

From S2P Require Import Prelude JsString JsNumber JsValue JsJson JsonText ParamOverride.

#[local] Open Scope outcome_scope.

(** ** Values as text *)

(** A string literal is longer than its value. *)
Lemma parse_units_shorter s w r :
  parse_units s = Some (w, r) -> (length w + length r < length s)%nat.
Proof.
  enough (H : forall n s w r, (length s <= n)%nat -> parse_units s = Some (w, r) ->
            (length w + length r < length s)%nat) by eauto.
  clear s w r. induction n as [|n IH]; intros [|c t] w r Hn; cbn [length] in Hn; try done; [lia|].
  assert (Hmap : forall (u : N) t' (k : nat), (length t' + k = length t)%nat ->
            ('(w, r) ← parse_units t'; Some (u :: w, r)) = Some (w, r) ->
            (length w + length r < S (length t))%nat).
  { intros u t' k Hk H. destruct (parse_units t') as [[w' r']|] eqn:E; [|done].
    injection H as <- <-. apply IH in E; [cbn [length]; lia|lia]. }
  cbn [parse_units]. destruct (c =? 34)%N; [intros [= <- <-]; cbn [length]; lia|].
  destruct (c =? 92)%N.
  - destruct t as [|e t1]; [done|]. destruct (e =? 117)%N.
    + destruct t1 as [|a [|b [|x [|d t2]]]]; try done. destruct (hex4 a b x d) as [u|]; [|done].
      apply (Hmap u t2 5%nat). cbn [length]. lia.
    + destruct (simple_escape e) as [u|]; [|done]. apply (Hmap u t1 1%nat). cbn [length]. lia.
  - destruct (c <? 32)%N; [done|]. apply (Hmap c t 0%nat). lia.
Qed.

Lemma json_parse_str_shorter s w : json_parse s = Some (VStr w) -> (length w < length s)%nat.
Proof.
  unfold json_parse. replace (2 * length s + 2)%nat with (S (2 * length s + 1)) by lia.
  cbn [parse_value]. destruct (skip_ws_suffix s) as [u Hu].
  assert (Hl : (length (skip_ws s) <= length s)%nat) by (rewrite Hu at 2; rewrite length_app; lia).
  destruct (skip_ws s) as [|c t]; [done|]. cbn [length] in Hl. unfold expect.
  repeat case_match; try done; simplify_eq/=;
  repeat match goal with
  | H : (x ← ?e; _) = Some _ |- _ => destruct e as [[? ?]|] eqn:?; simplify_eq/=
  end; try done.
  all: intros [= ->]; match goal with H : parse_units _ = Some _ |- _ => apply parse_units_shorter in H end; lia.
Qed.

(** The values the text input of a row leaves as they are: everything but the strings that
    have white space at an end or are themselves JSON. *)
Definition stable (v : jsval) : Prop :=
  match v with
  | VUndef => False
  | VStr s => trim s = s /\ json_parse s = None
  | _ => json_ok v
  end.

Lemma parse_loose_json s v : trim s = s -> json_parse s = Some v -> parseLooseValue s = v.
Proof.
  intros Ht Hp. unfold parseLooseValue. rewrite Ht, Hp. case_bool_decide; [|done]. by subst.
Qed.

Lemma loose_json v : json_ok v -> parseLooseValue (ser v) = v.
Proof.
  intros Hv. apply parse_loose_json; [|by apply json_parse_ser].
  rewrite (ser_print 0). by apply print_trim.
Qed.

(** A value survives its own text exactly when it is stable. *)
Lemma loose_value_exact v :
  json_ok v -> parseLooseValue (toValueText v) = v <-> stable v.
Proof.
  intros Hv. destruct v as [| |b|n|s|l|o]; try (split; [done|intros _; by apply loose_json]); [done|].
  cbn [toValueText stable]. unfold parseLooseValue. split.
  - case_bool_decide as E; [intros [= <-]; by split|].
    destruct (json_parse (trim s)) as [w|] eqn:Ep; [|by intros [= <-]; rewrite trim_idemp in *].
    intros ->. apply json_parse_str_shorter in Ep. pose proof (trim_length s). lia.
  - intros [-> ->]. by case_bool_decide; subst.
Qed.

Lemma loose_stable v : stable v -> parseLooseValue (toValueText v) = v.
Proof.
  destruct v; try done; try (intros; by apply loose_json). cbn [stable toValueText].
  intros [Ht Hp]. unfold parseLooseValue. rewrite Ht, Hp. by case_bool_decide; subst.
Qed.

(** Texts whose value is stable: what is typed is no JSON, or JSON that is not a string that
    is empty or looks like JSON. *)
Definition steady (text : jsstr) : Prop :=
  forall v, json_parse (trim text) = Some v -> stable v /\ v <> VStr [].

Lemma steady_stable text : steady text -> stable (parseLooseValue text).
Proof.
  intros H. unfold parseLooseValue. case_bool_decide as E; [by split|].
  destruct (json_parse (trim text)) as [v|] eqn:Ep; [by apply H|]. split; [apply trim_idemp|done].
Qed.

Lemma steady_loose text :
  steady text -> parseLooseValue (toValueText (parseLooseValue text)) = parseLooseValue text.
Proof. intros H. by apply loose_stable, steady_stable. Qed.

(** ** Stored rows *)

Lemma oget_set_if k c j v p :
  oget k (set_if c j v p) = if c && bool_decide (k = j) then Some v else oget k p.
Proof. destruct c; [|done]. cbn [set_if andb]. apply oget_oset. Qed.

(** Decides comparisons of literal keys. *)
Ltac decide_keys :=
  repeat match goal with
  | |- context [bool_decide (js ?a = js ?b)] =>
      let x := constr:(bool_decide (js a = js b)) in
      let y := eval vm_compute in x in change x with y
  end.

Ltac read_fields :=
  unfold at_, prop; repeat (rewrite ?oget_set_if, ?oget_oset; decide_keys; rewrite ?andb_false_r, ?andb_true_r);
  cbn [oget]; decide_keys; cbn [from_option id]; cbn beta iota.

Section Reading.
Context (now : N -> N).

(** Rows as the page holds them: their modes and logic are among those offered. *)
Definition condition_ok (c : ParamOverrideCondition) : Prop := c_mode c ∈ CONDITION_MODE_VALUES.

Definition row_ok (o : ParamOverrideOperation) : Prop :=
  o_mode o ∈ OPERATION_MODE_VALUES /\ (o_logic o = AND \/ o_logic o = OR)
  /\ Forall condition_ok (o_conditions o).

Lemma known_mode_id modes d s : s ∈ modes -> known_mode modes d (VStr s) = s.
Proof. intros H. cbn [known_mode]. by rewrite bool_decide_eq_true_2. Qed.

Lemma known_mode_elem modes d v : d ∈ modes -> known_mode modes d v ∈ modes.
Proof. intros H. destruct v; try done. cbn [known_mode]. by case_bool_decide. Qed.

Lemma is_true_set_if c : is_true (default VUndef (if c : bool then Some (VBool true) else None)) = c.
Proof. by destruct c. Qed.

Lemma or_str_mode s d (modes : list jsstr) : [] ∉ modes -> s ∈ modes -> or_str s d = s.
Proof. by destruct s. Qed.

Lemma condition_mode_not_nil : [] ∉ CONDITION_MODE_VALUES.
Proof. by apply (bool_decide_unpack _); vm_compute. Qed.

Lemma operation_mode_not_nil : [] ∉ OPERATION_MODE_VALUES.
Proof. by apply (bool_decide_unpack _); vm_compute. Qed.

(** The row a stored condition is read as *)
Definition reread_condition (id : jsstr) (c : ParamOverrideCondition) : ParamOverrideCondition :=
  Condition id (trim (c_path c)) (c_mode c) (toValueText (parseLooseValue (c_value_text c)))
    (c_invert c) (c_pass_missing_key c).

Lemma read_condition c p n :
  condition_ok c -> buildConditionPayload c = Some p ->
  normalizeCondition now p n = Return (reread_condition (local_id now n) c, N.succ n).
Proof.
  unfold buildConditionPayload. intros Hc. destruct (truthy_str (trim (c_path c))); [|done].
  cbn [negb]. intros [= <-].
  cbv [normalizeCondition mbind gen_bind mret gen_ret nextLocalId glift read nullish omapr obind fst snd].
  read_fields. rewrite !is_true_set_if.
  rewrite (or_str_mode _ _ CONDITION_MODE_VALUES), known_mode_id
    by (done || apply condition_mode_not_nil). done.
Qed.

Lemma gmapM_cons {A B} (f : A -> gen B) x l n :
  gmapM f (x :: l) n
  = obind (f x n) (fun r => obind (gmapM f l r.2) (fun rs => Return (r.1 :: rs.1, rs.2))).
Proof. done. Qed.

(** The reading of a list, element by element *)
Lemma gmapM_Forall2 {A B} (f : A -> gen B) (P : A -> B -> Prop) l n :
  (forall x n, x ∈ l -> exists y n', f x n = Return (y, n') /\ P x y) ->
  exists ys n', gmapM f l n = Return (ys, n') /\ Forall2 P l ys.
Proof.
  revert n; induction l as [|x l IH]; intros n H; [by exists [], n|].
  destruct (H x n) as (y & n1 & E & Hy); [apply list_elem_of_here|].
  destruct (IH n1) as (ys & n2 & E' & Hys); [intros; apply H; by apply list_elem_of_further|].
  exists (y :: ys), n2. split; [|by constructor].
  rewrite gmapM_cons, E. cbn [obind fst snd]. by rewrite E'.
Qed.

(** The conditions read from the stored ones *)
Definition conditions_of (l cs : list ParamOverrideCondition) : Prop :=
  Forall2 (fun c c' => exists id, c' = reread_condition id c)
    (filterb (fun c => truthy_str (trim (c_path c))) l) cs.

Lemma build_kept c :
  truthy_str (trim (c_path c)) = true ->
  buildConditionPayload c = Some (default VUndef (buildConditionPayload c)).
Proof. intros Hp. unfold buildConditionPayload. by rewrite Hp. Qed.

Lemma omap_conditions l :
  omap buildConditionPayload l
  = (fun c => default VUndef (buildConditionPayload c)) <$> filterb (fun c => truthy_str (trim (c_path c))) l.
Proof.
  induction l as [|c l IH]; [done|]. cbn [omap list_omap filterb]. unfold buildConditionPayload at 1.
  destruct (truthy_str (trim (c_path c))) eqn:E; cbn [negb]; [|done].
  cbn [fmap list_fmap]. unfold buildConditionPayload at 2. rewrite E. cbn [negb default]. f_equal. exact IH.
Qed.

Lemma read_conditions l n :
  Forall condition_ok l ->
  exists cs n', gmapM (normalizeCondition now) (omap buildConditionPayload l) n = Return (cs, n')
    /\ conditions_of l cs.
Proof.
  intros Hl. rewrite omap_conditions. unfold conditions_of.
  assert (H : Forall (fun c => condition_ok c /\ truthy_str (trim (c_path c)) = true)
                (filterb (fun c => truthy_str (trim (c_path c))) l)).
  { apply Forall_forall. intros c Hc%elem_of_filterb. rewrite Forall_forall in Hl. split; [apply Hl|]; apply Hc. }
  revert n; induction H as [|c k [Hc Hp] _ IH]; intros n; [by exists [], n|].
  pose proof (build_kept _ Hp) as E.
  destruct (IH (N.succ n)) as (cs & n' & E' & Hcs). eexists (_ :: cs), n'. split.
  - rewrite fmap_cons, gmapM_cons, (read_condition c _ n Hc E). cbn [obind fst snd]. by rewrite E'.
  - constructor; [by eexists|done].
Qed.

(** The metas of the table *)
Definition metas : list ModeMeta :=
  [ meta_path; meta_path_value; meta_write; meta_move; meta_replace; meta_header_move;
    Meta false false true false None false false; Meta false true true false None false false;
    Meta false false true false None true false ].

Lemma meta_of_elem mode : meta_of mode ∈ metas.
Proof.
  unfold meta_of. destruct (list_find _ MODE_META) as [[i e]|] eqn:E;
    [|by apply (bool_decide_unpack _); vm_compute].
  apply list_find_Some in E as (E & _ & _). apply list_elem_of_lookup_2 in E.
  assert (H : Forall (fun e => e.2 ∈ metas) MODE_META) by (apply (bool_decide_unpack _); by vm_compute).
  rewrite Forall_forall in H. exact (H _ E).
Qed.

(** [payload.k || alias], the fields that fall back on the path *)
Definition with_alias (o : ParamOverrideOperation) (s : jsstr) : jsstr :=
  or_str (trim s) (if m_pathAlias (meta_of (mode_of o)) then trim (o_path o) else []).

(** The row a stored row is read as *)
Definition reread_row (id : jsstr) (cs : list ParamOverrideCondition) (o : ParamOverrideOperation) :=
  let meta := meta_of (mode_of o) in
  Operation id (trim (o_description o))
    (if m_path meta || m_pathOptional meta then trim (o_path o) else [])
    (mode_of o) (if m_from meta then with_alias o (o_from o) else [])
    (if bool_decide (m_to meta = Some true) then with_alias o (o_to o) else trim (o_to o))
    (if m_value meta then toValueText (parseLooseValue (o_value_text o)) else [])
    (m_keepOrigin meta && o_keep_origin o)
    (if bool_decide (cs = []) then OR else o_logic o) cs.

Lemma string_or_empty_if c s :
  string_or_empty (default VUndef (if c : bool then Some (VStr s) else None)) = if c then s else [].
Proof. by destruct c. Qed.

Lemma truthy_if (s : jsstr) : (if truthy_str s then s else []) = s.
Proof. by destruct s. Qed.

Lemma meta_alias mode :
  m_pathAlias (meta_of mode) = true -> m_from (meta_of mode) = true /\ m_to (meta_of mode) = Some true.
Proof.
  pose proof (meta_of_elem mode) as Hm. revert Hm. unfold metas. rewrite !elem_of_cons, elem_of_nil.
  intros Hm. destruct_or! Hm; try rewrite Hm; done.
Qed.

Section Fields.
Context (o : ParamOverrideOperation).
Let get k := prop k (VObj (operation_base o)).

Lemma base_mode : get (js "mode") = VStr (mode_of o).
Proof. unfold get, operation_base. by read_fields. Qed.

Lemma base_description : string_or_empty (get (js "description")) = trim (o_description o).
Proof. unfold get, operation_base. read_fields. by rewrite string_or_empty_if, truthy_if. Qed.

Lemma base_path :
  string_or_empty (get (js "path"))
  = let meta := meta_of (mode_of o) in if m_path meta || m_pathOptional meta then trim (o_path o) else [].
Proof.
  unfold get, operation_base. read_fields. destruct (m_path _), (m_pathOptional _); try done;
  by destruct (trim (o_path o)).
Qed.

Lemma base_value :
  toValueText (get (js "value"))
  = if m_value (meta_of (mode_of o)) then toValueText (parseLooseValue (o_value_text o)) else [].
Proof. unfold get, operation_base. read_fields. by destruct (m_value _). Qed.

Lemma base_keep :
  is_true (get (js "keep_origin")) = m_keepOrigin (meta_of (mode_of o)) && o_keep_origin o.
Proof. unfold get, operation_base. read_fields. by destruct (_ && _). Qed.

Lemma base_from :
  string_or_empty (get (js "from"))
  = if m_from (meta_of (mode_of o)) then with_alias o (o_from o) else [].
Proof.
  unfold get, operation_base. read_fields. unfold with_alias.
  pose proof (meta_alias (mode_of o)) as H.
  destruct (m_pathAlias _), (m_from _); try (by destruct (H eq_refl)); cbn;
    destruct (trim (o_from o)), (trim (o_path o)); done.
Qed.

Lemma base_to :
  string_or_empty (get (js "to"))
  = if bool_decide (m_to (meta_of (mode_of o)) = Some true) then with_alias o (o_to o)
    else trim (o_to o).
Proof.
  unfold get, operation_base. read_fields. unfold with_alias.
  pose proof (meta_alias (mode_of o)) as H.
  destruct (m_pathAlias _), (m_to _) as [[]|]; try (by destruct (H eq_refl)); cbn;
    destruct (trim (o_to o)), (trim (o_path o)); done.
Qed.

Lemma payload_field k :
  k <> js "conditions" -> k <> js "logic" ->
  prop k (VObj (operation_payload o)) = prop k (VObj (operation_base o)).
Proof.
  intros H1 H2. unfold prop, operation_payload. case_bool_decide; [done|]. by rewrite !oget_oset_ne.
Qed.

Lemma payload_conditions :
  oget (js "conditions") (operation_payload o)
  = if bool_decide (omap buildConditionPayload (o_conditions o) = []) then None
    else Some (VArr (omap buildConditionPayload (o_conditions o))).
Proof.
  unfold operation_payload. case_bool_decide; [|by rewrite oget_oset; decide_keys; rewrite oget_oset; decide_keys].
  unfold operation_base. by read_fields.
Qed.

Lemma payload_logic :
  o_logic o = AND \/ o_logic o = OR ->
  (if upper_is AND (vor (prop (js "logic") (VObj (operation_payload o))) (VStr OR)) then AND else OR)
  = if bool_decide (omap buildConditionPayload (o_conditions o) = []) then OR else o_logic o.
Proof.
  intros H. unfold prop, operation_payload. case_bool_decide.
  - unfold operation_base. by read_fields.
  - rewrite oget_oset. decide_keys. by destruct H as [-> | ->].
Qed.
End Fields.

Lemma conditions_of_nil l cs : conditions_of l cs -> cs = [] <-> omap buildConditionPayload l = [].
Proof.
  intros H. rewrite omap_conditions. unfold conditions_of in H.
  destruct H as [|c c' k k']; [done|]. split; [done|]. by rewrite fmap_cons.
Qed.

Lemma mode_of_row o : o_mode o ∈ OPERATION_MODE_VALUES -> mode_of o = o_mode o.
Proof. intros H. eapply or_str_mode; [apply operation_mode_not_nil|done]. Qed.

Lemma read_row o n :
  row_ok o ->
  exists cs n', normalizeOperation now (VObj (operation_payload o)) n
    = Return (reread_row (local_id now n) cs o, n') /\ conditions_of (o_conditions o) cs.
Proof.
  intros (Hm & Hl & Hc).
  destruct (read_conditions _ (N.succ n) Hc) as (cs & n' & E & Hcs).
  pose proof (conditions_of_nil _ _ Hcs) as Hnil.
  exists cs, (if bool_decide (cs = []) then N.succ n else n'). split; [|done].
  assert (Ec : (match prop (js "conditions") (VObj (operation_payload o)) with
                | VArr l => gmapM (normalizeCondition now) l | _ => mret [] end) (N.succ n)
               = Return (cs, if bool_decide (cs = []) then N.succ n else n')).
  { unfold prop. rewrite payload_conditions. case_bool_decide as En.
    - apply Hnil in En as ->. done.
    - cbn [from_option id]. rewrite E. rewrite bool_decide_eq_false_2; [done|]. tauto. }
  unfold normalizeOperation. cbv [mbind gen_bind mret gen_ret nextLocalId glift read nullish omapr].
  cbn [obind fst snd]. cbv [mret gen_ret] in Ec. rewrite Ec. cbn [obind fst snd]. do 2 f_equal.
  unfold reread_row. rewrite payload_logic by done.
  rewrite !payload_field by (by apply (bool_decide_unpack _); vm_compute).
  rewrite base_mode, base_description, base_path, base_value, base_keep, base_from, base_to. f_equal.
  - rewrite mode_of_row by done. by apply known_mode_id.
  - by rewrite (bool_decide_ext _ _ Hnil).
Qed.

(** ** A row read back is stored as it was *)

(** The texts of the values are not strings that look like JSON. *)
Definition steady_row (o : ParamOverrideOperation) : Prop :=
  steady (o_value_text o) /\ Forall (fun c => steady (c_value_text c)) (o_conditions o).

Lemma trim_with_alias o s : trim (with_alias o s) = with_alias o s.
Proof.
  unfold with_alias. destruct (trim s) eqn:E.
  - destruct (m_pathAlias _); cbn [or_str]; [apply trim_idemp|done].
  - cbn [or_str]. rewrite <- E. apply trim_idemp.
Qed.

Lemma reread_mode id cs o : mode_of (reread_row id cs o) = mode_of o.
Proof. unfold mode_of. cbn. unfold mode_of. by destruct (o_mode o). Qed.

Lemma trim_if (c : bool) s : trim (if c then trim s else []) = if c then trim s else [].
Proof. destruct c; [apply trim_idemp|done]. Qed.

Lemma set_if_value (c : bool) k (f : jsstr -> jsval) a b p :
  set_if c k (f (if c then a else b)) p = set_if c k (f a) p.
Proof. by destruct c. Qed.

Lemma reread_base id cs o :
  steady (o_value_text o) -> operation_base (reread_row id cs o) = operation_base o.
Proof.
  intros Hs. unfold operation_base. rewrite reread_mode. unfold reread_row.
  cbn [o_description o_path o_from o_to o_value_text o_keep_origin].
  rewrite trim_idemp, trim_if, set_if_value, steady_loose by done.
  assert (Hif : forall (c : bool) s t, trim s = s -> trim t = t -> trim (if c then s else t) = if c then s else t)
    by (by intros []).
  rewrite !Hif by (apply trim_with_alias || apply trim_idemp || done). unfold with_alias.
  pose proof (meta_of_elem (mode_of o)) as Hm. revert Hm.
  generalize (meta_of (mode_of o)). intros meta. generalize (mode_of o) (trim (o_description o)) (trim (o_path o))
    (trim (o_from o)) (trim (o_to o)) (parseLooseValue (o_value_text o)) (o_keep_origin o).
  intros m d p f t v k. unfold metas. rewrite !elem_of_cons, elem_of_nil.
  intros Hm. destruct_or! Hm; try done; subst meta; cbn -[js]; by destruct d, p, f, t, k.
Qed.

Lemma reread_condition_payload id c :
  steady (c_value_text c) -> buildConditionPayload (reread_condition id c) = buildConditionPayload c.
Proof.
  intros Hs. unfold buildConditionPayload, reread_condition. cbn [c_path c_mode c_value_text c_invert c_pass_missing_key].
  by rewrite trim_idemp, steady_loose.
Qed.

Lemma reread_conditions l cs :
  conditions_of l cs -> Forall (fun c => steady (c_value_text c)) l ->
  omap buildConditionPayload cs = omap buildConditionPayload l.
Proof.
  intros H Hs. rewrite (omap_conditions l). unfold conditions_of in H.
  assert (Hf : Forall (fun c => steady (c_value_text c) /\ truthy_str (trim (c_path c)) = true)
                (filterb (fun c => truthy_str (trim (c_path c))) l)).
  { apply Forall_forall. intros c Hc%elem_of_filterb. rewrite Forall_forall in Hs.
    split; [apply Hs|]; apply Hc. }
  revert Hf. induction H as [|c c' k k' [id ->] _ IH]; intros Hf; [done|].
  apply Forall_cons in Hf as [[Hc Hp] Hf]. rewrite fmap_cons, <- IH by done. cbn [omap list_omap].
  rewrite reread_condition_payload by done. by rewrite (build_kept _ Hp) at 1.
Qed.

Lemma reread_payload id cs o :
  row_ok o -> steady_row o -> conditions_of (o_conditions o) cs ->
  operation_payload (reread_row id cs o) = operation_payload o.
Proof.
  intros (_ & Hl & _) [Hv Hc] Hcs. pose proof (conditions_of_nil _ _ Hcs) as Hnil.
  unfold operation_payload. rewrite reread_base by done.
  unfold reread_row. cbn [o_conditions o_logic]. rewrite (reread_conditions _ _ Hcs Hc).
  case_bool_decide as E; [done|]. rewrite (bool_decide_eq_false_2 (cs = [])) by tauto. done.
Qed.

(** ** A row read back passes the checks the row passed *)

Lemma required_metas :
  (forall mode, mode ∈ FROM_REQUIRED_MODES -> m_from (meta_of mode) = true)
  /\ (forall mode, mode ∈ TO_REQUIRED_MODES -> m_to (meta_of mode) = Some true)
  /\ (forall mode, mode ∈ VALUE_REQUIRED_MODES -> m_value (meta_of mode) = true).
Proof.
  rewrite <- !Forall_forall. split; [|split]; apply (bool_decide_unpack _); by vm_compute.
Qed.

Lemma parse_loose_trim s : parseLooseValue (trim s) = parseLooseValue s.
Proof. unfold parseLooseValue. by rewrite trim_idemp. Qed.

(** The text a text is replaced with by saving and opening *)
Lemma reread_text_cases text :
  steady text -> trim text <> [] ->
  let text' := toValueText (parseLooseValue text) in
  trim text' = text' /\ text' <> []
  /\ (json_parse text' = json_parse (trim text)
      \/ exists s, json_parse (trim text) = Some (VStr s) /\ json_parse text' = None).
Proof.
  intros Hs Hne. cbv zeta. unfold parseLooseValue. rewrite bool_decide_eq_false_2 by done.
  destruct (json_parse (trim text)) as [v|] eqn:E.
  - destruct (Hs v E) as [Hv Hn]. destruct v as [| |b|x|s|l|o]; try done.
    all: try (cbn [stable] in Hv; pose proof (json_parse_ser _ Hv) as Hp; cbn [toValueText];
      split; [rewrite (ser_print 0); by apply print_trim|];
      split; [intros Hz; rewrite Hz in Hp; by vm_compute in Hp|by left]).
    cbn [stable toValueText] in *. destruct Hv as [Ht Hj]. split; [done|].
    split; [congruence|]. right. eauto.
  - cbn [toValueText]. split; [apply trim_idemp|]. split; [done|by left].
Qed.

Lemma value_problem_reread mode text :
  steady text -> trim text <> [] -> value_problem mode text = None ->
  value_problem mode (toValueText (parseLooseValue text)) = None.
Proof.
  intros Hs Hne. pose proof (steady_loose _ Hs) as Hl.
  destruct (reread_text_cases _ Hs Hne) as (Ht & Hn & Hj). unfold value_problem. rewrite Ht.
  assert (Hb : truthy_str (toValueText (parseLooseValue text)) = true) by by apply truthy_str_spec.
  rewrite Hb. cbn [negb]. rewrite Hl, parse_loose_trim.
  assert (Hb' : truthy_str (trim text) = true) by by apply truthy_str_spec.
  rewrite Hb'. cbn [negb]. case_bool_decide; [|done].
  destruct Hj as [->|(s & -> & ->)]; done.
Qed.

Lemma with_alias_truthy o s :
  truthy_str (trim (with_alias o s))
  = truthy_str (trim s) || (m_pathAlias (meta_of (mode_of o)) && truthy_str (trim (o_path o))).
Proof.
  rewrite trim_with_alias. unfold with_alias. destruct (trim s); [|done].
  by destruct (m_pathAlias _).
Qed.

Lemma problem_none_inv o :
  operation_problem o = None ->
  let meta := meta_of (mode_of o) in
  (m_path meta = true -> truthy_str (trim (o_path o)) = true)
  /\ (mode_of o ∈ FROM_REQUIRED_MODES -> truthy_str (trim (with_alias o (o_from o))) = true)
  /\ (mode_of o ∈ TO_REQUIRED_MODES -> truthy_str (trim (with_alias o (o_to o))) = true)
  /\ (mode_of o ∈ VALUE_REQUIRED_MODES -> trim (o_value_text o) <> [])
  /\ value_problem (mode_of o) (o_value_text o) = None.
Proof.
  unfold operation_problem. rewrite !with_alias_truthy.
  destruct (m_path _), (truthy_str (trim (o_path o))), (m_pathAlias _),
    (truthy_str (trim (o_from o))), (truthy_str (trim (o_to o))); cbn [negb andb orb];
  repeat case_bool_decide; cbn [negb andb orb]; try done; intros H; repeat split; try done.
Qed.

Lemma problem_none_intro o :
  let meta := meta_of (mode_of o) in
  (m_path meta = true -> truthy_str (trim (o_path o)) = true) ->
  (mode_of o ∈ FROM_REQUIRED_MODES -> truthy_str (trim (o_from o)) = true) ->
  (mode_of o ∈ TO_REQUIRED_MODES -> truthy_str (trim (o_to o)) = true) ->
  (mode_of o ∈ VALUE_REQUIRED_MODES -> trim (o_value_text o) <> []) ->
  value_problem (mode_of o) (o_value_text o) = None ->
  operation_problem o = None.
Proof.
  cbv zeta. intros H1 H2 H3 H4 H5. unfold operation_problem.
  destruct (m_path _); cbn [andb negb]; [rewrite H1 by done; cbn [negb]|].
  all: case_bool_decide; [rewrite H2 by done|]; cbn [andb negb].
  all: case_bool_decide; [rewrite H3 by done|]; cbn [andb negb].
  all: case_bool_decide; [rewrite bool_decide_eq_false_2 by auto|]; cbn [andb negb]; done.
Qed.

Lemma value_problem_other mode text :
  mode ∉ VALUE_REQUIRED_MODES -> value_problem mode text = None.
Proof.
  intros H. unfold value_problem.
  rewrite !bool_decide_eq_false_2; [done|..]; intros ->; apply H; apply (bool_decide_unpack _); by vm_compute.
Qed.

Lemma reread_problem id cs o :
  row_ok o -> steady_row o -> operation_problem o = None ->
  operation_problem (reread_row id cs o) = None.
Proof.
  intros Ho [Hs _] (H1 & H2 & H3 & H4 & H5)%problem_none_inv.
  destruct required_metas as (Hf & Ht & Hv).
  apply problem_none_intro; rewrite reread_mode; unfold reread_row;
    cbn [o_path o_from o_to o_value_text].
  - intros Hp. rewrite Hp. cbn [orb]. rewrite trim_idemp. auto.
  - intros Hm. rewrite (Hf _ Hm). auto.
  - intros Hm. rewrite (Ht _ Hm). rewrite bool_decide_eq_true_2 by done. auto.
  - intros Hm. rewrite (Hv _ Hm). destruct (reread_text_cases _ Hs (H4 Hm)) as (-> & Hn & _). done.
  - destruct (decide (mode_of o ∈ VALUE_REQUIRED_MODES)) as [Hm|Hm].
    + rewrite (Hv _ Hm). by apply value_problem_reread; [|apply H4|].
    + by apply value_problem_other.
Qed.

(** A row that passes the checks is not blank: [set] needs a path. *)
Lemma checked_not_blank o :
  row_ok o -> operation_problem o = None -> isOperationBlank o = false.
Proof.
  intros (Hm & _) (H1 & _)%problem_none_inv. unfold isOperationBlank.
  case_bool_decide as E; [|done]. rewrite mode_of_row, E in H1 by done. rewrite H1 by done. done.
Qed.

(** ** Stored rows are JSON *)

Lemma json_ok_set_if (c : bool) k v p :
  (c = true -> json_ok v) -> json_ok (VObj p) -> json_ok (VObj (set_if c k v p)).
Proof. destruct c; [|done]. intros Hv Hp. by apply json_ok_oset; [apply Hv|]. Qed.

Lemma json_ok_entry k v : json_ok v -> json_ok (VObj [(k, v)]).
Proof. intros H. apply (json_ok_oset k v []); [done|]. by repeat constructor. Qed.

Lemma stable_json_ok v : stable v -> json_ok v.
Proof. by destruct v. Qed.

Lemma condition_json_ok c p :
  steady (c_value_text c) -> buildConditionPayload c = Some p -> json_ok p.
Proof.
  intros Hs. unfold buildConditionPayload. destruct (truthy_str _); [|done]. cbn [negb]. intros [= <-].
  repeat (apply json_ok_set_if; [done|]).
  apply (json_ok_oset (js "value") _ [(js "path", _); (js "mode", _)]); [by apply stable_json_ok, steady_stable|].
  apply (json_ok_oset (js "mode") _ [(js "path", _)]); [done|]. by apply json_ok_entry.
Qed.

Lemma payload_json_ok o : steady_row o -> json_ok (VObj (operation_payload o)).
Proof.
  intros [Hv Hc].
  assert (Hb : json_ok (VObj (operation_base o))).
  { unfold operation_base. repeat (apply json_ok_set_if; [intros _; try done; by apply stable_json_ok, steady_stable|]).
    by apply json_ok_entry. }
  unfold operation_payload. case_bool_decide; [done|].
  apply json_ok_oset; [done|]. apply json_ok_oset; [|done].
  apply json_ok_arr, Forall_forall. intros p Hp. apply list_elem_of_omap in Hp as (c & Hin & Ep).
  rewrite Forall_forall in Hc. eapply condition_json_ok; [by apply Hc|done].
Qed.

(** ** Opening what was saved *)

(** A row that a read of the stored list gives for a stored row *)
Definition rereads (o o' : ParamOverrideOperation) : Prop :=
  exists id cs, o' = reread_row id cs o /\ conditions_of (o_conditions o) cs.

Lemma read_rows ops n :
  ops <> [] -> Forall row_ok ops ->
  exists ops' n', read_operations now ((fun o => VObj (operation_payload o)) <$> ops) n
    = Return (ops', n') /\ Forall2 rereads ops ops'.
Proof.
  intros Hne Hok.
  assert (E : read_operations now ((fun o => VObj (operation_payload o)) <$> ops)
              = gmapM (normalizeOperation now) ((fun o => VObj (operation_payload o)) <$> ops))
    by by destruct ops.
  rewrite E. clear E Hne. revert n. induction Hok as [|o ops Ho _ IH]; intros n; [by exists [], n|].
  destruct (read_row o n Ho) as (cs & n1 & E1 & Hcs). destruct (IH n1) as (ops' & n2 & E2 & H2).
  exists (reread_row (local_id now n) cs o :: ops'), n2. split.
  - rewrite fmap_cons, gmapM_cons, E1. cbn [obind fst snd]. by rewrite E2.
  - constructor; [|done]. by eexists _, _.
Qed.

Lemma kept_checked ops :
  Forall row_ok ops -> Forall (fun o => operation_problem o = None) ops -> kept_operations ops = ops.
Proof.
  intros Hok Hp. apply filterb_all. intros o Ho. rewrite Forall_forall in Hok, Hp.
  by rewrite checked_not_blank by auto.
Qed.

Lemma rereads_ok o o' : row_ok o -> rereads o o' -> row_ok o'.
Proof.
  intros (Hm & Hl & Hc) (id & cs & -> & Hcs). unfold reread_row.
  split; [cbn; by rewrite mode_of_row|]. split.
  - cbn. case_bool_decide; [by right|done].
  - cbn. unfold conditions_of in Hcs.
    assert (Hf : Forall condition_ok (filterb (fun c => truthy_str (trim (c_path c))) (o_conditions o))).
    { by apply Forall_filterb. }
    revert Hf. induction Hcs as [|c c' k k' [i ->] _ IH]; [constructor|].
    intros [Hc' Hf]%Forall_cons. constructor; [done|auto].
Qed.

Lemma rereads_same ops ops' :
  Forall2 rereads ops ops' -> Forall row_ok ops -> Forall steady_row ops ->
  Forall (fun o => operation_problem o = None) ops ->
  operations_text ops' = operations_text ops /\ Forall row_ok ops'
  /\ Forall (fun o => operation_problem o = None) ops'.
Proof.
  intros H Hok Hs Hp. unfold operations_text.
  enough (E : ((fun o => VObj (operation_payload o)) <$> ops')
              = ((fun o => VObj (operation_payload o)) <$> ops)
              /\ Forall row_ok ops' /\ Forall (fun o => operation_problem o = None) ops')
    by (destruct E as (-> & ? & ?); done).
  induction H as [|o o' l l' Ho _ IH]; [by repeat split; constructor|].
  apply Forall_cons in Hok as [Hok Hokl], Hs as [Hs Hsl], Hp as [Hp Hpl].
  destruct IH as (IH1 & IH2 & IH3); [done..|]. pose proof (rereads_ok _ _ Hok Ho) as Hok'.
  destruct Ho as (id & cs & -> & Hcs). rewrite !fmap_cons. split; [|split].
  - by rewrite IH1, reread_payload.
  - by constructor.
  - constructor; [by apply reread_problem|done].
Qed.

Lemma operations_text_ok ops :
  Forall steady_row ops ->
  let v := VObj [(js "operations", VArr ((fun o => VObj (operation_payload o)) <$> ops))] in
  json_ok v /\ json_parse (operations_text ops) = Some v
  /\ trim (operations_text ops) = operations_text ops /\ operations_text ops <> [].
Proof.
  intros Hs v. assert (Hv : json_ok v).
  { apply json_ok_entry, json_ok_arr, Forall_fmap. eapply Forall_impl; [exact Hs|].
    intros o Ho. by apply payload_json_ok. }
  assert (Hp : json_parse (operations_text ops) = Some v) by by apply json_parse_pretty.
  split; [done|]. split; [done|]. split; [by apply print_obj_trim|].
  intros E. rewrite E, json_parse_blank in Hp by constructor. done.
Qed.

(** The editor that opens a text built from checked rows *)
Lemma open_saved ops n :
  ops <> [] -> Forall row_ok ops -> Forall steady_row ops ->
  exists ops' n', parseInitialState now (operations_text ops) n
    = Return (Editor visual operations [] ops' (operations_text ops) [], n')
    /\ Forall2 rereads ops ops'.
Proof.
  intros Hne Hok Hs. destruct (operations_text_ok ops Hs) as (Hj & Hp & Htr & Hn).
  destruct (read_rows ops n Hne Hok) as (ops' & n' & E & H2). exists ops', n'. split; [|done].
  unfold parseInitialState. rewrite Htr, Hp, (proj2 (truthy_str_spec _) Hn). cbn [negb].
  change (operations_of _) with (Some ((fun o => VObj (operation_payload o)) <$> ops)).
  cbv [mbind gen_bind mret gen_ret]. rewrite E. done.
Qed.

End Reading.

(** ** Saving *)

Section Saving.
(** The messages are not empty. *)
Context (t : jsstr -> N -> jsstr) (Ht : forall key line, t key line <> []).

Lemma validate_from_None line ops :
  validate_from t line ops = None <-> Forall (fun o => operation_problem o = None) ops.
Proof.
  revert line; induction ops as [|o ops IH]; intros line; [by split|]. cbn [validate_from].
  rewrite Forall_cons. destruct (operation_problem o); [split; [done|by intros [? _]]|].
  rewrite IH. naive_solver.
Qed.

Lemma validate_ok ops :
  validateOperations t ops = [] <-> Forall (fun o => operation_problem o = None) ops.
Proof.
  unfold validateOperations. rewrite <- (validate_from_None 1).
  destruct (validate_from t 1 ops) as [m|] eqn:E; [|done]. split; [|done]. intros Hm. exfalso.
  cbn in Hm. subst m. revert E. generalize 1%N. induction ops as [|o ops IH]; intros line; [done|].
  cbn [validate_from]. destruct (operation_problem o); [intros [= E]; by apply Ht in E|apply IH].
Qed.

Lemma build_checked ops text :
  buildOperationsJson t ops true = Built text ->
  (kept_operations ops = [] /\ text = [])
  \/ (kept_operations ops <> [] /\ text = operations_text (kept_operations ops)
      /\ Forall (fun o => operation_problem o = None) (kept_operations ops)).
Proof.
  unfold buildOperationsJson. case_bool_decide as E; [intros [= <-]; left; by apply nil_length_inv in E|].
  destruct (truthy_str (validateOperations t (kept_operations ops))) eqn:Ev; [done|].
  intros [= <-]. right. split; [intros Hk; by rewrite Hk in E|]. split; [done|].
  apply validate_ok. by destruct (validateOperations t (kept_operations ops)).
Qed.

Lemma build_accepted ops :
  ops <> [] -> Forall row_ok ops -> Forall (fun o => operation_problem o = None) ops ->
  buildOperationsJson t ops true = Built (operations_text ops).
Proof.
  intros Hne Hok Hp. unfold buildOperationsJson. rewrite (kept_checked _ Hok Hp).
  rewrite bool_decide_eq_false_2 by (by destruct ops). by rewrite (proj2 (validate_ok ops) Hp).
Qed.

End Saving.

(** Rows of an example: a number under a condition, and headers to pass *)
Definition sample_rows : list ParamOverrideOperation :=
  [ Operation (js "a") [] (js "temperature") SET [] [] (js "0.7") false OR
      [Condition (js "b") (js "model") (js "prefix") (js "openai/") false false];
    Operation (js "c") (js "headers") [] (js "copy_header") (js "X-From") (js "X-To") [] true AND [] ].

Definition some_message (key : jsstr) (line : N) : jsstr := js "problem".

Lemma sample_rows_ok : Forall row_ok sample_rows.
Proof.
  apply Forall_cons; split; [|apply Forall_singleton]; (split; [|split]);
    cbn [o_mode o_logic o_conditions].
  - apply (bool_decide_unpack _). by vm_compute.
  - by right.
  - apply Forall_singleton. apply (bool_decide_unpack _). by vm_compute.
  - apply (bool_decide_unpack _). by vm_compute.
  - by left.
  - constructor.
Qed.

Lemma steady_parsed s v : json_parse (trim s) = Some v -> stable v -> v <> VStr [] -> steady s.
Proof. intros Hv H1 H2 w Hw. rewrite Hv in Hw. by injection Hw as <-. Qed.

Lemma steady_unparsed s : json_parse (trim s) = None -> steady s.
Proof. intros Hv w Hw. by rewrite Hv in Hw. Qed.

Lemma sample_rows_steady : Forall steady_row sample_rows.
Proof.
  apply Forall_cons; split; [|apply Forall_singleton]; split; cbn [o_value_text o_conditions].
  - eapply steady_parsed; [by vm_compute|by split; vm_compute|done].
  - apply Forall_singleton. apply steady_unparsed. by vm_compute.
  - apply steady_unparsed. by vm_compute.
  - constructor.
Qed.



(** ** What is saved *)

Definition nonblank (v : jsval) : Prop := exists s, v = VStr s /\ trim s <> [].

(** What the relay needs to apply a stored row *)
Definition complete_row (p : obj) : Prop :=
  exists mode, at_ (js "mode") p = VStr mode /\ mode ∈ OPERATION_MODE_VALUES
  /\ (m_path (meta_of mode) = true -> nonblank (at_ (js "path") p))
  /\ (mode ∈ FROM_REQUIRED_MODES -> nonblank (at_ (js "from") p))
  /\ (mode ∈ TO_REQUIRED_MODES -> nonblank (at_ (js "to") p))
  /\ (mode ∈ VALUE_REQUIRED_MODES -> at_ (js "value") p <> VUndef)
  /\ (mode = js "pass_headers" -> parsePassHeaderNames (at_ (js "value") p) <> [])
  /\ (mode = js "return_error" -> forall o, at_ (js "value") p = VObj o ->
        trimmed_string (at_ (js "message") o) <> []).

Lemma string_or_empty_nonblank v s :
  string_or_empty v = s -> truthy_str (trim s) = true -> nonblank v.
Proof.
  intros <- H. destruct v; try done. eexists; split; [done|]. by apply truthy_str_spec.
Qed.

Lemma parse_loose_defined s : parseLooseValue s <> VUndef.
Proof.
  unfold parseLooseValue. case_bool_decide; [done|].
  destruct (json_parse (trim s)) as [v|] eqn:E; [|done]. intros ->.
  by apply (json_parse_tidy (trim s)) in E.
Qed.

Lemma base_value_eq o :
  m_value (meta_of (mode_of o)) = true ->
  at_ (js "value") (operation_base o) = parseLooseValue (o_value_text o).
Proof. intros H. unfold operation_base. read_fields. by rewrite H. Qed.

Lemma payload_at o k :
  k <> js "conditions" -> k <> js "logic" ->
  at_ k (operation_payload o) = at_ k (operation_base o).
Proof. apply payload_field. Qed.

Lemma parse_loose_return_error text o :
  value_problem (js "return_error") text = None -> parseLooseValue text = VObj o ->
  trimmed_string (at_ (js "message") o) <> [].
Proof.
  unfold value_problem, parseLooseValue. rewrite bool_decide_eq_true_2 by done.
  destruct (truthy_str (trim text)); cbn [negb]; [|done].
  destruct (json_parse (trim text)) as [v|]; [|by case_bool_decide].
  case_bool_decide as Eb; [done|]. intros H ->. by destruct (trimmed_string _).
Qed.

Lemma parse_loose_headers text :
  value_problem (js "pass_headers") text = None -> parsePassHeaderNames (parseLooseValue text) <> [].
Proof.
  unfold value_problem. rewrite !bool_decide_eq_false_2, bool_decide_eq_true_2 by done.
  destruct (truthy_str (trim text)); cbn [negb]; [|done]. rewrite parse_loose_trim.
  by case_bool_decide.
Qed.

Lemma checked_complete o :
  row_ok o -> operation_problem o = None -> complete_row (operation_payload o).
Proof.
  intros (Hm & _) (H1 & H2 & H3 & H4 & H5)%problem_none_inv.
  destruct required_metas as (Hf & Ht & Hv). exists (mode_of o).
  rewrite !payload_at by (by apply (bool_decide_unpack _); vm_compute).
  split; [apply base_mode|]. split; [by rewrite mode_of_row|]. repeat split.
  - intros Hp. eapply string_or_empty_nonblank; [apply base_path|]. cbn zeta.
    rewrite Hp. cbn [orb]. rewrite trim_idemp. auto.
  - intros Hi. eapply string_or_empty_nonblank; [apply base_from|]. rewrite (Hf _ Hi). auto.
  - intros Hi. eapply string_or_empty_nonblank; [apply base_to|]. rewrite (Ht _ Hi).
    rewrite bool_decide_eq_true_2 by done. auto.
  - intros Hi. rewrite base_value_eq by auto. apply parse_loose_defined.
  - intros Hi. rewrite Hi in H5. rewrite base_value_eq by (by rewrite Hi; vm_compute).
    by apply parse_loose_headers.
  - intros Hi v. rewrite Hi in H5. rewrite base_value_eq by (by rewrite Hi; vm_compute).
    by apply parse_loose_return_error.
Qed.

(** The first row with a problem, and its line *)
Lemma validate_from_Some t line ops m :
  validate_from t line ops = Some m <->
  exists i o p, ops !! i = Some o /\ operation_problem o = Some p
    /\ Forall (fun o => operation_problem o = None) (take i ops)
    /\ m = t (problem_key p) (line + N.of_nat i)%N.
Proof.
  revert line; induction ops as [|o ops IH]; intros line; cbn [validate_from].
  { split; [done|]. by intros (i & ? & ? & Hi & _). }
  destruct (operation_problem o) as [p|] eqn:E.
  - split.
    + intros [= <-]. exists 0%nat, o, p. rewrite N.add_0_r. by repeat split; [..|constructor].
    + intros ([|i] & o' & p' & Hi & Hp & Hl & ->); [by simplify_eq/=; rewrite N.add_0_r|].
      cbn [take] in Hl. apply Forall_cons in Hl as [Hl _]. congruence.
  - rewrite IH. split.
    + intros (i & o' & p & Hi & Hp & Hl & ->). exists (S i), o', p. cbn [take lookup list_lookup].
      repeat split; [done|done|by constructor|]. f_equal. lia.
    + intros ([|i] & o' & p & Hi & Hp & Hl & ->); [simplify_eq/=; congruence|]. exists i, o', p.
      cbn [take] in Hl. apply Forall_cons in Hl as [_ Hl]. repeat split; [done|done|done|]. f_equal. lia.
Qed.

(** C32. The checks decide what is stored: a list of rows is refused exactly with the message of
    the first of its non-blank rows that has a problem, under its line; and a text that is built
    holds one row for each non-blank row, in order, each complete: it names a mode of the table
    and has every field its mode needs. *)
Theorem saved_rows_complete t ops :
  (forall key line, t key line <> []) ->
  Forall row_ok ops -> Forall (fun o => json_ok (VObj (operation_payload o))) ops ->
  match buildOperationsJson t ops true with
  | Failed m => exists i o p, kept_operations ops !! i = Some o /\ operation_problem o = Some p
      /\ Forall (fun o => operation_problem o = None) (take i (kept_operations ops))
      /\ m = t (problem_key p) (N.of_nat (S i))
  | Built text => (text = [] /\ kept_operations ops = [])
      \/ exists rows, json_parse text = Some (VObj [(js "operations", VArr (VObj <$> rows))])
          /\ Forall complete_row rows /\ rows = operation_payload <$> kept_operations ops
  end.
Proof.
  intros Ht Hok Hj. destruct (buildOperationsJson t ops true) as [text|m] eqn:Hb.
  - destruct (build_checked t Ht _ _ Hb) as [[Hk ->]|(Hk & -> & Hp)]; [by left|right].
    exists (operation_payload <$> kept_operations ops). split; [|split; [|done]].
    + unfold operations_text. rewrite <- list_fmap_compose. apply json_parse_pretty.
      apply json_ok_entry, json_ok_arr, Forall_fmap, Forall_filterb, Hj.
    + apply Forall_fmap. rewrite Forall_forall in Hp, Hok |- *. intros o Ho. cbn.
      apply checked_complete; [|by apply Hp]. apply Hok. by apply elem_of_filterb in Ho as [_ ?].
  - unfold buildOperationsJson in Hb. case_bool_decide; [done|].
    unfold validateOperations in Hb. destruct (validate_from t 1 (kept_operations ops)) as [m'|] eqn:Ev; [|done].
    cbn [from_option id] in Hb. destruct (truthy_str m'); [|done]. injection Hb as ->.
    apply validate_from_Some in Ev as (i & o & p & Hi & Hp & Hl & ->).
    exists i, o, p. repeat split; [done..|]. f_equal. lia.
Qed.

Lemma saved_rows_complete_witness :
  buildOperationsJson some_message sample_rows true = Built (operations_text sample_rows)
  /\ Forall complete_row (operation_payload <$> sample_rows).
Proof.
  assert (Hb : buildOperationsJson some_message sample_rows true = Built (operations_text sample_rows))
    by by vm_compute.
  assert (Hk : kept_operations sample_rows = sample_rows) by by vm_compute.
  split; [done|].
  pose proof (saved_rows_complete some_message sample_rows) as H. rewrite Hb, Hk in H.
  destruct H as [[_ H]|(rows & _ & Hc & ->)]; [done|apply sample_rows_ok| |done|done].
  eapply Forall_impl; [apply sample_rows_steady|]. intros o Ho. by apply payload_json_ok.
Defined.

(** ** Moving a row *)

Lemma delete_middle {A} (l1 l2 : list A) x : delete (length l1) (l1 ++ x :: l2) = l1 ++ l2.
Proof. induction l1 as [|y l1 IH]; [done|]. cbn. by f_equal. Qed.

Lemma find_id_app l1 x l2 :
  Forall (fun o => o_id o <> o_id x) l1 -> find_id (o_id x) (l1 ++ x :: l2) = Some (length l1).
Proof.
  intros H. unfold find_id. enough (E : list_find (fun o => o_id o = o_id x) (l1 ++ x :: l2)
    = Some (length l1, x)) by by rewrite E.
  apply list_find_Some. split; [by rewrite list_lookup_middle|]. split; [done|].
  intros j y Hy Hj. rewrite lookup_app_l in Hy by done. rewrite Forall_lookup in H. by eapply H.
Qed.

Lemma split_find id ops i x :
  list_find (fun o => o_id o = id) ops = Some (i, x) ->
  exists l1 l2, ops = l1 ++ x :: l2 /\ length l1 = i /\ o_id x = id
    /\ Forall (fun o => o_id o <> id) l1.
Proof.
  intros (Hx & Hid & Hb)%list_find_Some. exists (take i ops), (drop (S i) ops).
  assert (Hl : length (take i ops) = i) by (rewrite length_take; apply lookup_lt_Some in Hx; lia).
  split; [by rewrite take_drop_middle|]. split; [done|]. split; [done|].
  apply Forall_lookup. intros j y Hy. assert (Hj : (j < i)%nat) by (apply lookup_lt_Some in Hy; lia).
  rewrite lookup_take_lt in Hy by done. by eapply Hb.
Qed.

Lemma insert_at_app {A} (l1 l2 : list A) x k :
  insert_at (length l1 + k) x (l1 ++ l2) = l1 ++ insert_at k x l2.
Proof.
  unfold insert_at. rewrite take_app_add, drop_app_add. by rewrite app_assoc.
Qed.

(** Rows with distinct names are told apart by them. *)
Lemma same_name ops x y :
  NoDup (o_id <$> ops) -> x ∈ ops -> y ∈ ops -> o_id x = o_id y -> x = y.
Proof.
  intros Hnd (i & Hi)%list_elem_of_lookup_1 (j & Hj)%list_elem_of_lookup_1 E.
  assert (i = j); [|congruence].
  eapply (NoDup_lookup (o_id <$> ops)); [done| |]; rewrite list_lookup_fmap; [by rewrite Hi|].
  rewrite Hj. cbn. by rewrite E.
Qed.

Lemma find_split ops x :
  NoDup (o_id <$> ops) -> x ∈ ops ->
  exists l1 l2, ops = l1 ++ x :: l2 /\ list_find (fun o => o_id o = o_id x) ops = Some (length l1, x).
Proof.
  intros Hnd Hx. destruct (list_find_elem_of (fun o => o_id o = o_id x) ops x Hx eq_refl) as [[i y] E].
  destruct (split_find _ _ _ _ E) as (l1 & l2 & -> & Hl & Hid & _).
  assert (y = x) as -> by (eapply same_name; [done|set_solver|done|done]).
  exists l1, l2. split; [done|]. by rewrite E, Hl.
Qed.

(** The rows of a list but one *)
Definition other_rows (x : ParamOverrideOperation) (ops : list ParamOverrideOperation) :=
  filterb (fun o => negb (bool_decide (o_id o = o_id x))) ops.

Lemma others_keep l1 x l2 :
  NoDup (o_id <$> l1 ++ x :: l2) ->
  other_rows x (l1 ++ x :: l2) = l1 ++ l2.
Proof.
  intros Hnd. unfold other_rows. rewrite fmap_app, fmap_cons in Hnd.
  apply NoDup_app in Hnd as (_ & H1 & H2). apply NoDup_cons in H2 as [H2 _].
  rewrite filterb_app. cbn [filterb]. rewrite bool_decide_eq_true_2 by done. cbn [negb].
  f_equal; apply filterb_all; intros y Hy; rewrite bool_decide_eq_false_2; try done; intros E.
  - apply (H1 (o_id y)); [by apply list_elem_of_fmap_2|]. rewrite E. set_solver.
  - apply H2. rewrite <- E. by apply list_elem_of_fmap_2.
Qed.

(** Dragging a row moves that row and no other: when both rows are in the list, whose names
    are distinct, the dragged one comes directly before (or after) the one it is dropped on, the
    others keep their order, and no row is lost or doubled. *)
Theorem dropped_row_moves ops moved target position :
  NoDup (o_id <$> ops) -> Forall (fun o => o_id o <> []) ops ->
  moved ∈ ops -> target ∈ ops -> o_id moved <> o_id target ->
  exists l1 l2,
    reorderOperations ops (o_id moved) (o_id target) position
      = l1 ++ match position with before => [moved; target] | after => [target; moved] end ++ l2
    /\ other_rows moved ops = l1 ++ target :: l2
    /\ reorderOperations ops (o_id moved) (o_id target) position ≡ₚ ops.
Proof.
  intros Hnd Hne Hm Ht Hd. rewrite Forall_forall in Hne.
  destruct (find_split _ _ Hnd Hm) as (a & b & -> & Ef). rewrite others_keep by done.
  assert (Hnd' : NoDup (o_id <$> a ++ b)).
  { eapply sublist_no_dup; [|exact Hnd]. rewrite !fmap_app, fmap_cons. apply sublist_app; [done|by constructor]. }
  assert (Ht' : target ∈ a ++ b) by set_solver.
  destruct (find_split _ _ Hnd' Ht') as (l1 & l2 & E & Et).
  exists l1, l2. enough (Hr : reorderOperations (a ++ moved :: b) (o_id moved) (o_id target) position
    = l1 ++ match position with before => [moved; target] | after => [target; moved] end ++ l2).
  { rewrite Hr. repeat split; [done|]. rewrite <- Permutation_middle, E. destruct position; cbn; solve_Permutation. }
  unfold reorderOperations.
  rewrite (proj2 (truthy_str_spec (o_id moved))), (proj2 (truthy_str_spec (o_id target))) by auto.
  rewrite bool_decide_eq_false_2 by done. cbn [negb orb]. rewrite Ef, delete_middle.
  unfold find_id. rewrite Et, E. cbn. destruct position.
  - by rewrite <- (Nat.add_0_r (length l1)), insert_at_app.
  - by rewrite <- Nat.add_1_r, insert_at_app.
Qed.

Lemma dropped_row_moves_witness :
  exists l1 l2 a b,
    reorderOperations sample_rows (js "c") (js "a") before = l1 ++ [b; a] ++ l2
    /\ o_id a = js "a" /\ o_id b = js "c".
Proof.
  destruct (dropped_row_moves sample_rows (List.nth 1 sample_rows (List.hd (Operation [] [] [] [] [] [] [] false [] []) sample_rows))
    (List.nth 0 sample_rows (Operation [] [] [] [] [] [] [] false [] [])) before)
    as (l1 & l2 & H & _).
  - by apply (bool_decide_unpack _); vm_compute.
  - repeat constructor; done.
  - by right; left.
  - by left.
  - done.
  - exists l1, l2. eexists _, _. split; [exact H|done].
Defined.
