(* ===== verification/ParamOverrideEditor.v ===== *)
(** * The editor of parameter overrides
      ([features/channels/components/dialogs/param-override-editor-dialog.tsx], the dialog)

    The state of the dialog and its handlers.  An action of the user is one call of a handler;
    the effect that keeps a row selected runs after each.  A handler that throws leaves the
    state as it was.  Toasts and the call of [onSave] are recorded in [effects]. *)

From stdpp Require Import gmap.
From S2P Require Import Prelude JsString JsNumber JsValue JsJson JsonText ParamOverride.
From S2P Require Import ParamOverrideProofs.

#[local] Open Scope outcome_scope.

(** ** Templates *)

Definition str (s : String.string) : jsval := VStr (js s).
Arguments str s%_string.

Definition LEGACY_TEMPLATE : jsval := Eval vm_compute in
  VObj [(js "temperature", VNum zero); (js "max_tokens", VNum (num_of_Z 1000))].

Definition OPERATION_TEMPLATE : jsval := Eval vm_compute in
  VObj [(js "operations", VArr [VObj
    [ (js "description", str "Set default temperature for openai/* models.");
      (js "path", str "temperature"); (js "mode", str "set");
      (js "value", VNum (number_of_string (js "0.7")));
      (js "conditions", VArr [VObj
        [ (js "path", str "model"); (js "mode", str "prefix"); (js "value", str "openai/") ]]);
      (js "logic", str "AND") ]])].

Definition HEADER_PASSTHROUGH_TEMPLATE : jsval := Eval vm_compute in
  VObj [(js "operations", VArr [VObj
    [ (js "description", str "Pass through X-Request-Id header to upstream.");
      (js "mode", str "pass_headers"); (js "value", VArr [str "X-Request-Id"]);
      (js "keep_origin", VBool true) ]])].

Definition GEMINI_IMAGE_4K_TEMPLATE : jsval := Eval vm_compute in
  let condition p m v := VObj [(js "path", p); (js "mode", m); (js "value", v)] in
  VObj [(js "operations", VArr [VObj
    [ (js "description",
        str "Set imageSize to 4K when model contains gemini/image and ends with 4k.");
      (js "mode", str "set"); (js "path", str "generationConfig.imageConfig.imageSize");
      (js "value", str "4K");
      (js "conditions", VArr
        [ condition (str "original_model") (str "contains") (str "gemini");
          condition (str "original_model") (str "contains") (str "image");
          condition (str "original_model") (str "suffix") (str "4k") ]);
      (js "logic", str "AND") ]])].

Definition CODEX_CLI_HEADER_PASSTHROUGH_HEADERS : list jsval := Eval vm_compute in
  [ str "Originator"; str "Session_id"; str "User-Agent"; str "X-Codex-Beta-Features";
    str "X-Codex-Turn-Metadata" ].

Definition CLAUDE_CLI_HEADER_PASSTHROUGH_HEADERS : list jsval := Eval vm_compute in
  [ str "X-Stainless-Arch"; str "X-Stainless-Lang"; str "X-Stainless-Os";
    str "X-Stainless-Package-Version"; str "X-Stainless-Retry-Count"; str "X-Stainless-Runtime";
    str "X-Stainless-Runtime-Version"; str "X-Stainless-Timeout"; str "User-Agent"; str "X-App";
    str "Anthropic-Beta"; str "Anthropic-Dangerous-Direct-Browser-Access";
    str "Anthropic-Version" ].

Definition buildPassHeadersTemplate (headers : list jsval) : jsval :=
  VObj [(js "operations", VArr [VObj
    [(js "mode", str "pass_headers"); (js "value", VArr headers); (js "keep_origin", VBool true)]])].

Definition AWS_BEDROCK_ANTHROPIC_COMPAT_TEMPLATE : jsval := Eval vm_compute in
  VObj [(js "operations", VArr
    [ VObj
      [ (js "description", str "Normalize anthropic-beta header tokens for Bedrock compatibility.");
        (js "mode", str "set_header"); (js "path", str "anthropic-beta");
        (js "value", VObj
          [ (js "advanced-tool-use-2025-11-20", str "tool-search-tool-2025-10-19");
            (js "bash_20241022", VNull); (js "bash_20250124", VNull);
            (js "code-execution-2025-08-25", VNull);
            (js "compact-2026-01-12", str "compact-2026-01-12");
            (js "computer-use-2025-01-24", str "computer-use-2025-01-24");
            (js "computer-use-2025-11-24", str "computer-use-2025-11-24");
            (js "context-1m-2025-08-07", str "context-1m-2025-08-07");
            (js "context-management-2025-06-27", str "context-management-2025-06-27");
            (js "effort-2025-11-24", VNull); (js "fast-mode-2026-02-01", VNull);
            (js "files-api-2025-04-14", VNull);
            (js "fine-grained-tool-streaming-2025-05-14", VNull);
            (js "interleaved-thinking-2025-05-14", str "interleaved-thinking-2025-05-14");
            (js "mcp-client-2025-11-20", VNull); (js "mcp-client-2025-04-04", VNull);
            (js "mcp-servers-2025-12-04", VNull); (js "output-128k-2025-02-19", VNull);
            (js "structured-output-2024-03-01", VNull);
            (js "prompt-caching-scope-2026-01-05", VNull); (js "skills-2025-10-02", VNull);
            (js "structured-outputs-2025-11-13", VNull); (js "text_editor_20241022", VNull);
            (js "text_editor_20250124", VNull); (js "token-efficient-tools-2025-02-19", VNull);
            (js "tool-search-tool-2025-10-19", str "tool-search-tool-2025-10-19");
            (js "web-fetch-2025-09-10", VNull); (js "web-search-2025-03-05", VNull);
            (js "oauth-2025-04-20", VNull) ]) ];
      VObj
      [ (js "description",
          str "Remove all tools[*].custom.input_examples before upstream relay.");
        (js "mode", str "delete"); (js "path", str "tools.*.custom.input_examples") ] ])].

Record TemplatePresetConfig := Preset { legacy_kind : bool; payload : jsval }.

(** [TEMPLATE_PRESET_CONFIG], without the labels *)
Definition TEMPLATE_PRESET_CONFIG : list (jsstr * TemplatePresetConfig) := Eval vm_compute in
  [ (js "operations_default", Preset false OPERATION_TEMPLATE);
    (js "legacy_default", Preset true LEGACY_TEMPLATE);
    (js "pass_headers_auth", Preset false HEADER_PASSTHROUGH_TEMPLATE);
    (js "gemini_image_4k", Preset false GEMINI_IMAGE_4K_TEMPLATE);
    (js "claude_cli_headers_passthrough",
      Preset false (buildPassHeadersTemplate CLAUDE_CLI_HEADER_PASSTHROUGH_HEADERS));
    (js "codex_cli_headers_passthrough",
      Preset false (buildPassHeadersTemplate CODEX_CLI_HEADER_PASSTHROUGH_HEADERS));
    (js "aws_bedrock_anthropic_beta_override", Preset false AWS_BEDROCK_ANTHROPIC_COMPAT_TEMPLATE) ].

(** [TEMPLATE_PRESET_CONFIG[key] || TEMPLATE_PRESET_CONFIG.operations_default] *)
Definition preset_of (key : jsstr) : TemplatePresetConfig :=
  match list_find (fun e => e.1 = key) TEMPLATE_PRESET_CONFIG with
  | Some (_, e) => e.2
  | None => Preset false OPERATION_TEMPLATE
  end.

Definition OPERATIONS_DEFAULT : jsstr := Eval vm_compute in js "operations_default".
Definition LEGACY_DEFAULT : jsstr := Eval vm_compute in js "legacy_default".

(** ** State *)

Inductive effect := Toast (message : jsstr) | Saved (text : jsstr) | Closed.

Record Dialog := MkDialog {
  editor : EditorState; selected : jsstr; search : jsstr; expanded : gmap jsstr bool;
  dragged : jsstr; dragOver : jsstr; dragPosition : DropPosition; templateKey : jsstr;
  effects : list effect }.

Definition set_editor (e : EditorState) (d : Dialog) : Dialog :=
  MkDialog e (selected d) (search d) (expanded d) (dragged d) (dragOver d) (dragPosition d)
    (templateKey d) (effects d).

Definition setSelectedOperationId (id : jsstr) (d : Dialog) : Dialog :=
  MkDialog (editor d) id (search d) (expanded d) (dragged d) (dragOver d) (dragPosition d)
    (templateKey d) (effects d).

Definition setOperationSearch (s : jsstr) (d : Dialog) : Dialog :=
  MkDialog (editor d) (selected d) s (expanded d) (dragged d) (dragOver d) (dragPosition d)
    (templateKey d) (effects d).

Definition setExpandedConditions (m : gmap jsstr bool) (d : Dialog) : Dialog :=
  MkDialog (editor d) (selected d) (search d) m (dragged d) (dragOver d) (dragPosition d)
    (templateKey d) (effects d).

Definition set_drag (source over : jsstr) (position : DropPosition) (d : Dialog) : Dialog :=
  MkDialog (editor d) (selected d) (search d) (expanded d) source over position
    (templateKey d) (effects d).

Definition setTemplatePresetKey (key : jsstr) (d : Dialog) : Dialog :=
  MkDialog (editor d) (selected d) (search d) (expanded d) (dragged d) (dragOver d)
    (dragPosition d) key (effects d).

Definition emit (e : list effect) (d : Dialog) : Dialog :=
  MkDialog (editor d) (selected d) (search d) (expanded d) (dragged d) (dragOver d)
    (dragPosition d) (templateKey d) (effects d ++ e).

Definition ops (d : Dialog) : list ParamOverrideOperation := e_operations (editor d).

Definition setOperations (l : list ParamOverrideOperation) (d : Dialog) : Dialog :=
  let e := editor d in
  set_editor (Editor (e_editMode e) (e_visualMode e) (e_legacyValue e) l (e_jsonText e)
                (e_jsonError e)) d.

Definition set_json (text error : jsstr) (d : Dialog) : Dialog :=
  let e := editor d in
  set_editor (Editor (e_editMode e) (e_visualMode e) (e_legacyValue e) (e_operations e) text error) d.

Definition setEditMode (m : EditMode) (d : Dialog) : Dialog :=
  let e := editor d in
  set_editor (Editor m (e_visualMode e) (e_legacyValue e) (e_operations e) (e_jsonText e)
                (e_jsonError e)) d.

Definition set_visual (m : VisualMode) (legacyValue : jsstr) (d : Dialog) : Dialog :=
  let e := editor d in
  set_editor (Editor (e_editMode e) m legacyValue (e_operations e) (e_jsonText e) (e_jsonError e)) d.

(** The effect that keeps the selection valid *)
Definition keep_selected (d : Dialog) : Dialog :=
  match ops d with
  | [] => setSelectedOperationId [] d
  | o :: _ =>
      if existsb (fun o => bool_decide (o_id o = selected d)) (ops d) then d
      else setSelectedOperationId (o_id o) d
  end.

(** [l[0]?.id || ''] *)
Definition first_id (l : list ParamOverrideOperation) : jsstr :=
  match l with o :: _ => o_id o | [] => [] end.

(** ** Patches: the fields an input of the page changes *)

Record OperationPatch := OpPatch {
  q_description : option jsstr; q_path : option jsstr; q_mode : option jsstr;
  q_from : option jsstr; q_to : option jsstr; q_value_text : option jsstr;
  q_keep_origin : option bool; q_logic : option jsstr }.

(** [{ ...o, ...patch }] *)
Definition patch_operation (p : OperationPatch) (o : ParamOverrideOperation) : ParamOverrideOperation :=
  Operation (o_id o) (default (o_description o) (q_description p)) (default (o_path o) (q_path p))
    (default (o_mode o) (q_mode p)) (default (o_from o) (q_from p)) (default (o_to o) (q_to p))
    (default (o_value_text o) (q_value_text p)) (default (o_keep_origin o) (q_keep_origin p))
    (default (o_logic o) (q_logic p)) (o_conditions o).

Record ConditionPatch := CondPatch {
  q_cpath : option jsstr; q_cmode : option jsstr; q_cvalue : option jsstr;
  q_invert : option bool; q_pass : option bool }.

Definition patch_condition (p : ConditionPatch) (c : ParamOverrideCondition) : ParamOverrideCondition :=
  Condition (c_id c) (default (c_path c) (q_cpath p)) (default (c_mode c) (q_cmode p))
    (default (c_value_text c) (q_cvalue p)) (default (c_invert c) (q_invert p))
    (default (c_pass_missing_key c) (q_pass p)).

Record ReturnErrorPatch := ErrorPatch {
  q_message : option jsstr; q_status : option num; q_code : option jsstr; q_type : option jsstr;
  q_skipRetry : option bool; q_simple : option bool }.

Definition patch_error (p : ReturnErrorPatch) (d : ReturnErrorDraft) : ReturnErrorDraft :=
  ErrorDraft (default (d_message d) (q_message p)) (default (d_statusCode d) (q_status p))
    (default (d_code d) (q_code p)) (default (d_type d) (q_type p))
    (default (d_skipRetry d) (q_skipRetry p)) (default (d_simpleMode d) (q_simple p)).

Record PrunePatch := PPatch {
  q_psimple : option bool; q_ptype : option jsstr; q_plogic : option jsstr;
  q_precursive : option bool }.

Definition patch_prune (p : PrunePatch) (d : PruneObjectsDraft) : PruneObjectsDraft :=
  PruneDraft (default (pd_simpleMode d) (q_psimple p)) (default (pd_typeText d) (q_ptype p))
    (default (pd_logic d) (q_plogic p)) (default (pd_recursive d) (q_precursive p)) (pd_rules d).

(** ** Changes of one row *)

(** [l.map((o) => (o.id === id ? f(o) : o))] *)
Definition map_row (id : jsstr) (f : ParamOverrideOperation -> ParamOverrideOperation)
    (l : list ParamOverrideOperation) : list ParamOverrideOperation :=
  (fun o => if bool_decide (o_id o = id) then f o else o) <$> l.

Definition with_conditions (o : ParamOverrideOperation) (cs : list ParamOverrideCondition) :=
  Operation (o_id o) (o_description o) (o_path o) (o_mode o) (o_from o) (o_to o) (o_value_text o)
    (o_keep_origin o) (o_logic o) cs.

Definition with_value_text (o : ParamOverrideOperation) (s : jsstr) :=
  Operation (o_id o) (o_description o) (o_path o) (o_mode o) (o_from o) (o_to o) s
    (o_keep_origin o) (o_logic o) (o_conditions o).

Definition updateOperation (id : jsstr) (p : OperationPatch) (d : Dialog) : Dialog :=
  setOperations (map_row id (patch_operation p) (ops d)) d.

Definition updateCondition (id cid : jsstr) (p : ConditionPatch) (d : Dialog) : Dialog :=
  setOperations (map_row id (fun o => with_conditions o
    ((fun c => if bool_decide (c_id c = cid) then patch_condition p c else c) <$> o_conditions o))
    (ops d)) d.

Definition removeCondition (id cid : jsstr) (d : Dialog) : Dialog :=
  setOperations (map_row id (fun o => with_conditions o
    (filterb (fun c => negb (bool_decide (c_id c = cid))) (o_conditions o))) (ops d)) d.

Definition updateReturnErrorDraft (id : jsstr) (p : ReturnErrorPatch) (d : Dialog) : Dialog :=
  setOperations (map_row id (fun o => with_value_text o
    (buildReturnErrorValueText (patch_error p (parseReturnErrorDraft (o_value_text o))))) (ops d)) d.

(** The row shown in the right panel *)
Definition selectedOperation (d : Dialog) : option ParamOverrideOperation :=
  snd <$> list_find (fun o => o_id o = selected d) (ops d).

Definition filteredOperations (d : Dialog) : list ParamOverrideOperation :=
  let keyword := to_lower (trim (search d)) in
  if negb (truthy_str keyword) then ops d
  else filterb (fun o => includes keyword (to_lower (join (js " ") (filter_truthy
         [o_description o; o_mode o; o_path o; o_from o; o_to o; o_value_text o])))) (ops d).

Definition set_all_expanded (b : bool) (d : Dialog) : Dialog :=
  match selectedOperation d with
  | None => d
  | Some o => setExpandedConditions (fold_left (fun m c => <[c_id c := b]> m) (o_conditions o) (expanded d)) d
  end.

(** ** Dragging *)

Definition resetDragState (d : Dialog) : Dialog := set_drag [] [] before d.

Definition handleDragStart (id : jsstr) (d : Dialog) : Dialog :=
  setSelectedOperationId id (set_drag id (dragOver d) (dragPosition d) d).

(** [position] is the half of the row the pointer is over. *)
Definition handleDragOver (id : jsstr) (position : DropPosition) (d : Dialog) : Dialog :=
  if negb (truthy_str (dragged d)) || bool_decide (dragged d = id) then d
  else set_drag (dragged d) id position d.

(** [transferred] is the text of the data transfer. *)
Definition handleDrop (transferred id : jsstr) (d : Dialog) : Dialog :=
  let sourceId := or_str (dragged d) transferred in
  let position := if bool_decide (dragOver d = id) then dragPosition d else before in
  resetDragState
    (if truthy_str sourceId && truthy_str id && negb (bool_decide (sourceId = id))
     then setSelectedOperationId sourceId
            (setOperations (reorderOperations (ops d) sourceId id position) d)
     else d).

Section Handlers.
(** The clock, [t(key)] and [t(key, { line })] *)
Context (now : N -> N) (tr : jsstr -> jsstr) (t : jsstr -> N -> jsstr).

(** ** Adding and removing rows *)

Definition addOperation (d : Dialog) : gen Dialog :=
  created ← createDefaultOperation now;
  mret (setSelectedOperationId (o_id created) (setOperations (ops d ++ [created]) d)).

(** The object [duplicateOperation] makes of a condition *)
Definition condition_copy (c : ParamOverrideCondition) : jsval :=
  VObj [ (js "path", VStr (c_path c)); (js "mode", VStr (c_mode c));
         (js "value", parseLooseValue (c_value_text c)); (js "invert", VBool (c_invert c));
         (js "pass_missing_key", VBool (c_pass_missing_key c)) ].

Definition operation_copy (o : ParamOverrideOperation) : jsval :=
  VObj [ (js "description", VStr (o_description o)); (js "path", VStr (o_path o));
         (js "mode", VStr (o_mode o)); (js "value", parseLooseValue (o_value_text o));
         (js "keep_origin", VBool (o_keep_origin o)); (js "from", VStr (o_from o));
         (js "to", VStr (o_to o)); (js "logic", VStr (o_logic o));
         (js "conditions", VArr (condition_copy <$> o_conditions o)) ].

(** [eager]: whether React runs the updater inside the handler, so that [insertedId] is set
    when it is tested. *)
Definition duplicateOperation (id : jsstr) (eager : bool) (d : Dialog) : gen Dialog :=
  match list_find (fun o => o_id o = id) (ops d) with
  | None => mret d
  | Some (idx, source) =>
      cloned ← normalizeOperation now (operation_copy source);
      let d' := setOperations (insert_at (S idx) cloned (ops d)) d in
      mret (if eager then setSelectedOperationId (o_id cloned) d' else d')
  end.

Definition removeOperation (id : jsstr) (d : Dialog) : gen Dialog :=
  if bool_decide (length (ops d) <= 1)%nat
  then o ← createDefaultOperation now; mret (setOperations [o] d)
  else mret (setOperations (filterb (fun o => negb (bool_decide (o_id o = id))) (ops d)) d).

Definition addCondition (id : jsstr) (d : Dialog) : gen Dialog :=
  created ← createDefaultCondition now;
  mret (setExpandedConditions (<[c_id created := true]> (expanded d))
    (setOperations (map_row id (fun o => with_conditions o (o_conditions o ++ [created])) (ops d)) d)).

(** ** The rules of [prune_objects] *)

Definition updatePruneObjectsDraft (id : jsstr)
    (updater : PruneObjectsDraft -> gen PruneObjectsDraft) (d : Dialog) : gen Dialog :=
  l ← gmapM (fun o =>
        if bool_decide (o_id o = id) then
          draft ← parsePruneObjectsDraft now (o_value_text o);
          nextDraft ← updater draft;
          mret (with_value_text o (buildPruneObjectsValueText nextDraft))
        else mret o) (ops d);
  mret (setOperations l d).

Definition addPruneRule (id : jsstr) : Dialog -> gen Dialog :=
  updatePruneObjectsDraft id (fun draft =>
    rule ← normalizePruneRule now (VObj []);
    mret (PruneDraft false (pd_typeText draft) (pd_logic draft) (pd_recursive draft)
            (pd_rules draft ++ [rule]))).

Definition with_rules (draft : PruneObjectsDraft) (rules : list PruneRule) : PruneObjectsDraft :=
  PruneDraft (pd_simpleMode draft) (pd_typeText draft) (pd_logic draft) (pd_recursive draft) rules.

Definition updatePruneRule (id ruleId : jsstr) (p : ConditionPatch) : Dialog -> gen Dialog :=
  updatePruneObjectsDraft id (fun draft => mret (with_rules draft
    ((fun r => if bool_decide (c_id r = ruleId) then patch_condition p r else r) <$> pd_rules draft))).

Definition removePruneRule (id ruleId : jsstr) : Dialog -> gen Dialog :=
  updatePruneObjectsDraft id (fun draft => mret (with_rules draft
    (filterb (fun r => negb (bool_decide (c_id r = ruleId))) (pd_rules draft)))).

(** The draft shown for the selected row *)
Definition pruneObjectsDraft (d : Dialog) : gen (option PruneObjectsDraft) :=
  match selectedOperation d with
  | Some o =>
      if bool_decide (o_mode o = js "prune_objects")
      then draft ← parsePruneObjectsDraft now (o_value_text o); mret (Some draft)
      else mret None
  | None => mret None
  end.

(** ** Modes, templates, saving *)

Definition MUST_BE_JSON : jsstr := js "Parameter override must be valid JSON format".
Definition LEGACY_OBJECT : jsstr := js "Legacy format must be a JSON object".
Definition MUST_BE_OBJECT : jsstr := js "Parameter override must be a valid JSON object".
Definition CONFIG_ERROR : jsstr := js "Parameter configuration error".
Definition FORMAT_ERROR : jsstr := js "JSON format error".
Definition CANNOT_APPEND : jsstr := js "Current legacy JSON is invalid, cannot append".

Definition buildVisualJson (d : Dialog) : built :=
  match e_visualMode (editor d) with
  | legacy =>
      let trimmed := trim (e_legacyValue (editor d)) in
      if negb (truthy_str trimmed) then Built []
      else match json_parse trimmed with
           | None => Failed (tr MUST_BE_JSON)
           | Some parsed => if is_record parsed then Built (pretty parsed) else Failed (tr LEGACY_OBJECT)
           end
  | operations => buildOperationsJson t (ops d) true
  end.

(** The text of [buildOperationsJson] without the checks *)
Definition unchecked_text (d : Dialog) : jsstr :=
  match buildOperationsJson t (ops d) false with Built s => s | Failed _ => [] end.

Definition switchToJsonMode (d : Dialog) : Dialog :=
  match e_editMode (editor d) with
  | json => d
  | visual =>
      setEditMode json
        match buildVisualJson d with
        | Built text => set_json text [] d
        | Failed m =>
            emit [Toast m]
              (set_json (match e_visualMode (editor d) with
                         | legacy => e_legacyValue (editor d)
                         | operations => unchecked_text d
                         end) (or_str m (tr CONFIG_ERROR)) d)
        end
  end.

(** Shows the rows [l] in the visual editor. *)
Definition show_operations (l : list ParamOverrideOperation) (d : Dialog) : Dialog :=
  setEditMode visual (set_json (e_jsonText (editor d)) []
    (setSelectedOperationId (first_id l) (setOperations l (set_visual operations [] d)))).

Definition switchToVisualMode (d : Dialog) : gen Dialog :=
  match e_editMode (editor d) with
  | visual => mret d
  | json =>
      let trimmed := trim (e_jsonText (editor d)) in
      if negb (truthy_str trimmed) then
        fallback ← createDefaultOperation now; mret (show_operations [fallback] d)
      else match json_parse trimmed with
           | None => mret (emit [Toast (tr MUST_BE_JSON)] d)
           | Some parsed =>
               match operations_of parsed with
               | Some l =>
                   nextOps ← read_operations now l;
                   mret (setTemplatePresetKey OPERATIONS_DEFAULT (show_operations nextOps d))
               | None =>
                   if is_record parsed then
                     fallback ← createDefaultOperation now;
                     mret (setTemplatePresetKey LEGACY_DEFAULT
                       (set_visual legacy (pretty parsed) (show_operations [fallback] d)))
                   else mret (emit [Toast (tr MUST_BE_OBJECT)] d)
               end
           end
  end.

Definition show_legacy (text : jsstr) (d : Dialog) : gen Dialog :=
  o ← createDefaultOperation now;
  mret (setEditMode visual (set_json text [] (setOperations [o] (set_visual legacy text d)))).

(** [fillTemplate(append ? 'append' : 'fill')] *)
Definition fillTemplate (append : bool) (d : Dialog) : gen Dialog :=
  let preset := preset_of (templateKey d) in
  let e := editor d in
  if legacy_kind preset then
    match append, e_visualMode e with
    | true, legacy =>
        let trimmed := trim (e_legacyValue e) in
        let merge parsedCurrent :=
          show_legacy (pretty (VObj (ospread (obj_of (entries_of (payload preset)))
                                       (entries_of parsedCurrent)))) d in
        if negb (truthy_str trimmed) then merge (VObj [])
        else match json_parse trimmed with
             | None => mret (emit [Toast (tr CANNOT_APPEND)] d)
             | Some parsedCurrent => merge parsedCurrent
             end
    | _, _ => show_legacy (pretty (payload preset)) d
    end
  else
    let operationsPayload := match prop (js "operations") (payload preset) with
                             | VArr l => l | _ => [] end in
    if append then
      appended ← gmapM (normalizeOperation now) operationsPayload;
      let existing := match e_visualMode e with
                      | operations => kept_operations (ops d) | legacy => [] end in
      mret (set_json [] [] (show_operations (existing ++ appended) d))
    else
      finalOps ← read_operations now operationsPayload;
      mret (setEditMode visual (set_json
        (pretty (VObj [(js "operations", VArr operationsPayload)])) []
        (setSelectedOperationId (first_id finalOps)
          (setOperations finalOps (set_visual operations (e_legacyValue e) d))))).

Definition resetEditorState (d : Dialog) : gen Dialog :=
  fallback ← createDefaultOperation now;
  mret (setTemplatePresetKey OPERATIONS_DEFAULT (set_json [] [] (show_operations [fallback] d))).

Definition handleJsonChange (nextValue : jsstr) (d : Dialog) : Dialog :=
  let trimmed := trim nextValue in
  set_json nextValue
    (if negb (truthy_str trimmed) then [] else if verifyJSON trimmed then [] else tr FORMAT_ERROR) d.

Definition formatJson (d : Dialog) : Dialog :=
  let trimmed := trim (e_jsonText (editor d)) in
  if negb (truthy_str trimmed) then d
  else match json_parse trimmed with
       | None => emit [Toast (tr MUST_BE_JSON)] d
       | Some v => set_json (pretty v) [] d
       end.

(** What [handleSave] hands to [onSave] *)
Definition save_text (d : Dialog) : built :=
  match e_editMode (editor d) with
  | json =>
      let trimmed := trim (e_jsonText (editor d)) in
      if negb (truthy_str trimmed) then Built []
      else match json_parse trimmed with
           | None => Failed (tr MUST_BE_JSON)
           | Some v => Built (pretty v)
           end
  | visual => buildVisualJson d
  end.

Definition handleSave (d : Dialog) : Dialog :=
  match save_text d with
  | Built text => emit [Saved text; Closed] d
  | Failed m => emit [Toast m] d
  end.

(** The effect that runs when the dialog opens; [previous] is the state it was left in. *)
Definition open_dialog (value : jsstr) (previous : Dialog) : gen Dialog :=
  state ← parseInitialState now value;
  mret (keep_selected (MkDialog state (first_id (e_operations state)) [] ∅ [] [] before
    (match e_visualMode state with legacy => LEGACY_DEFAULT | operations => OPERATIONS_DEFAULT end)
    (effects previous))).

(** ** Actions *)

Inductive action :=
  | UpdateOperation (id : jsstr) (p : OperationPatch) | AddOperation
  | DuplicateOperation (id : jsstr) (eager : bool) | RemoveOperation (id : jsstr)
  | AddCondition (id : jsstr) | UpdateCondition (id cid : jsstr) (p : ConditionPatch)
  | RemoveCondition (id cid : jsstr) | UpdateReturnError (id : jsstr) (p : ReturnErrorPatch)
  | UpdatePrune (id : jsstr) (p : PrunePatch) | AddPruneRule (id : jsstr)
  | UpdatePruneRule (id rid : jsstr) (p : ConditionPatch) | RemovePruneRule (id rid : jsstr)
  | DragStart (id : jsstr) | DragOver (id : jsstr) (position : DropPosition)
  | Drop (transferred id : jsstr) | DragEnd | Select (id : jsstr) | SearchRows (s : jsstr)
  | Expand (cid : jsstr) (b : bool) | ExpandAll | CollapseAll
  | SwitchToJson | SwitchToVisual | ChooseTemplate (key : jsstr) | FillTemplate (append : bool)
  | Reset | LegacyChange (s : jsstr) | JsonChange (s : jsstr) | FormatJson | Save.

Definition handle (a : action) (d : Dialog) : gen Dialog :=
  match a with
  | UpdateOperation id p => mret (updateOperation id p d)
  | AddOperation => addOperation d
  | DuplicateOperation id eager => duplicateOperation id eager d
  | RemoveOperation id => removeOperation id d
  | AddCondition id => addCondition id d
  | UpdateCondition id cid p => mret (updateCondition id cid p d)
  | RemoveCondition id cid => mret (removeCondition id cid d)
  | UpdateReturnError id p => mret (updateReturnErrorDraft id p d)
  | UpdatePrune id p => updatePruneObjectsDraft id (fun draft => mret (patch_prune p draft)) d
  | AddPruneRule id => addPruneRule id d
  | UpdatePruneRule id rid p => updatePruneRule id rid p d
  | RemovePruneRule id rid => removePruneRule id rid d
  | DragStart id => mret (handleDragStart id d)
  | DragOver id position => mret (handleDragOver id position d)
  | Drop transferred id => mret (handleDrop transferred id d)
  | DragEnd => mret (resetDragState d)
  | Select id => mret (setSelectedOperationId id d)
  | SearchRows s => mret (setOperationSearch s d)
  | Expand cid b => mret (setExpandedConditions (<[cid := b]> (expanded d)) d)
  | ExpandAll => mret (set_all_expanded true d)
  | CollapseAll => mret (set_all_expanded false d)
  | SwitchToJson => mret (switchToJsonMode d)
  | SwitchToVisual => switchToVisualMode d
  | ChooseTemplate key => mret (setTemplatePresetKey (or_str key OPERATIONS_DEFAULT) d)
  | FillTemplate append => fillTemplate append d
  | Reset => resetEditorState d
  | LegacyChange s => mret (set_visual (e_visualMode (editor d)) s d)
  | JsonChange s => mret (handleJsonChange s d)
  | FormatJson => mret (formatJson d)
  | Save => mret (handleSave d)
  end.

(** One action, from the state [d] with the counter at [n] *)
Definition act (a : action) (s : Dialog * N) : Dialog * N :=
  match handle a (fst s) (snd s) with
  | Return (d', n') => (keep_selected d', n')
  | Throw => s
  end.

End Handlers.
