(* ===== verification/ParamOverrideEditorProofs.v ===== *)
(** * The editor of parameter overrides: its invariant and what its actions do

    Names drawn by the page are distinct, so that every action of [ParamOverrideEditor] keeps
    the rows apart and one of them selected; what the switch to the text and back keeps; and
    three actions that do not do what their inputs say. *)

From stdpp Require Import gmap.
From S2P Require Import Prelude JsString JsNumber JsValue JsJson JsonText ParamOverride.
From S2P Require Import ParamOverrideProofs ParamOverrideEditor.

#[local] Open Scope outcome_scope.

(** ** Names *)

Lemma app_mark_inj (x : N) a b a' b' :
  x ∉ a -> x ∉ a' -> a ++ x :: b = a' ++ x :: b' -> b = b'.
Proof.
  revert a'; induction a as [|y a IH]; intros [|y' a'] Ha Ha' E; cbn in E; simplify_eq; [done|..].
  - by destruct Ha'; left.
  - by destruct Ha; left.
  - eapply IH; [..|done]; intros Hx; [apply Ha|apply Ha']; by right.
Qed.

Section Names.
Context (now : N -> N).

Lemma digits_no_mark n : 95%N ∉ digits_of n.
Proof.
  intros H. pose proof (digits_of_digits n) as Hd. rewrite Forall_forall in Hd. by apply Hd in H.
Qed.

Lemma local_id_inj j k : local_id now j = local_id now k -> j = k.
Proof.
  unfold local_id. intros E. apply app_inv_head in E.
  change (js "_" ++ digits_of j) with (95%N :: digits_of j) in E.
  change (js "_" ++ digits_of k) with (95%N :: digits_of k) in E.
  apply app_mark_inj in E; [|apply digits_no_mark..].
  apply (f_equal digits_val) in E. by rewrite !digits_val_of in E.
Qed.

Lemma local_id_not_nil k : local_id now k <> [].
Proof. done. Qed.

(** The names [l] were drawn, each once, while the counter went from [n] to [n']. *)
Definition issued (n n' : N) (id : jsstr) : Prop :=
  exists k, (n <= k < n')%N /\ id = local_id now k.

Definition fresh (n : N) (l : list jsstr) (n' : N) : Prop :=
  (n <= n')%N /\ NoDup l /\ Forall (issued n n') l.

Lemma issued_mono n n' m m' id : issued n n' id -> (m <= n)%N -> (n' <= m')%N -> issued m m' id.
Proof. intros (k & Hk & ->) ? ?. exists k. split; [lia|done]. Qed.

Lemma issued_apart n n' m m' id id' :
  issued n n' id -> issued m m' id' -> (n' <= m)%N -> id <> id'.
Proof. intros (k & Hk & ->) (j & Hj & ->) ? E%local_id_inj. lia. Qed.

Lemma fresh_nil n : fresh n [] n.
Proof. repeat split; [lia|constructor..]. Qed.

Lemma fresh_one n : fresh n [local_id now n] (N.succ n).
Proof.
  split; [lia|]. split; [apply NoDup_singleton|]. constructor; [|constructor]. exists n. split; [lia|done].
Qed.

Lemma fresh_app n l m k n' : fresh n l m -> fresh m k n' -> fresh n (l ++ k) n'.
Proof.
  intros (H1 & H2 & H3) (H4 & H5 & H6). split; [lia|]. split.
  - apply NoDup_app. split; [done|]. split; [|done]. intros x Hx Hx'.
    rewrite Forall_forall in H3, H6. by eapply issued_apart; [by apply H3|by apply H6| |].
  - apply Forall_app. split; eapply Forall_impl; [exact H3| |exact H6|]; intros id Hid; cbn in *;
      (eapply issued_mono; [exact Hid|lia|lia]).
Qed.

(** The names in what a piece of code gives *)
Definition draws {A} (names : A -> list jsstr) (m : gen A) : Prop :=
  forall n a n', m n = Return (a, n') -> fresh n (names a) n'.

Lemma draws_gmapM {A B} (names : B -> list jsstr) (f : A -> gen B) l :
  (forall x, x ∈ l -> draws names (f x)) -> draws (fun ys => ys ≫= names) (gmapM f l).
Proof.
  intros Hf. induction l as [|x l IH]; intros n ys n'; [intros [= <- <-]; apply fresh_nil|].
  rewrite gmapM_cons. destruct (f x n) as [[y m]|] eqn:E; [|done]. cbn [obind fst snd].
  destruct (gmapM f l m) as [[zs k]|] eqn:E'; [|done]. cbn [obind fst snd]. intros [= <- <-].
  rewrite bind_cons. eapply fresh_app.
  - eapply Hf; [apply list_elem_of_here|exact E].
  - eapply IH; [|exact E']. intros z Hz. apply Hf. by apply list_elem_of_further.
Qed.

Definition condition_names (c : ParamOverrideCondition) : list jsstr := [c_id c].
Definition row_names (o : ParamOverrideOperation) : list jsstr := o_id o :: (c_id <$> o_conditions o).

Lemma normalizeCondition_inv v n c n' :
  normalizeCondition now v n = Return (c, n') ->
  c_id c = local_id now n /\ n' = N.succ n /\ condition_ok c.
Proof.
  cbv [normalizeCondition mbind gen_bind mret gen_ret nextLocalId glift read omapr]. cbn [obind fst snd].
  destruct (nullish v); [done|]. cbn [obind fst snd]. intros [= <- <-]. split; [done|]. split; [done|].
  apply known_mode_elem. apply (bool_decide_unpack _). by vm_compute.
Qed.

Lemma draws_condition v : draws condition_names (normalizeCondition now v).
Proof.
  intros n c n' (Hid & -> & _)%normalizeCondition_inv. unfold condition_names. rewrite Hid. apply fresh_one.
Qed.

Lemma bind_names l : l ≫= condition_names = c_id <$> l.
Proof. induction l as [|x l IH]; [done|]. rewrite bind_cons, fmap_cons. by rewrite IH. Qed.

Lemma draws_conditions l : draws (fmap c_id) (gmapM (normalizeCondition now) l).
Proof.
  intros n cs n' E. rewrite <- bind_names.
  eapply (draws_gmapM condition_names); [|exact E]. intros v _. apply draws_condition.
Qed.

Lemma conditions_ok l n cs n' :
  gmapM (normalizeCondition now) l n = Return (cs, n') -> Forall condition_ok cs.
Proof.
  revert n cs n'; induction l as [|v l IH]; intros n cs n'; [by intros [= <- _]|]. rewrite gmapM_cons.
  destruct (normalizeCondition now v n) as [[c m]|] eqn:E; [|done]. cbn [obind fst snd].
  destruct (gmapM _ l m) as [[k m']|] eqn:E'; [|done]. cbn [obind fst snd]. intros [= <- _].
  constructor; [by eapply normalizeCondition_inv|by eapply IH].
Qed.

Lemma normalizeOperation_inv v n o n' :
  normalizeOperation now v n = Return (o, n') -> fresh n (row_names o) n' /\ row_ok o.
Proof.
  cbv [normalizeOperation mbind gen_bind nextLocalId glift read omapr]. cbn [obind fst snd].
  destruct (nullish v); [done|]. cbn [obind fst snd].
  set (m := match prop (js "conditions") v with VArr l => _ | _ => _ end).
  destruct (m (N.succ n)) as [[cs k]|] eqn:E; [|done]. cbn [obind fst snd]. intros [= <- <-].
  assert (Hc : fresh (N.succ n) (c_id <$> cs) k /\ Forall condition_ok cs).
  { unfold m in E. destruct (prop (js "conditions") v) as [| | | | |l|];
      try (injection E as <- <-; split; [apply fresh_nil|constructor]).
    split; [by eapply draws_conditions|by eapply conditions_ok]. }
  destruct Hc as [Hf Hc]. split.
  - unfold row_names. cbn [o_id o_conditions]. by apply (fresh_app n [_] (N.succ n)); [apply fresh_one|].
  - split; [|split; [|done]]; cbn.
    + apply known_mode_elem. apply (bool_decide_unpack _). by vm_compute.
    + destruct (upper_is _ _); [by left|by right].
Qed.

Lemma draws_operations l : draws (fun os => os ≫= row_names) (gmapM (normalizeOperation now) l).
Proof. apply draws_gmapM. by intros v _ n o n' [? _]%normalizeOperation_inv. Qed.

Lemma rows_read l n os n' :
  gmapM (normalizeOperation now) l n = Return (os, n') -> length os = length l /\ Forall row_ok os.
Proof.
  revert n os n'; induction l as [|v l IH]; intros n os n'; [by intros [= <- _]|]. rewrite gmapM_cons.
  destruct (normalizeOperation now v n) as [[o m]|] eqn:E; [|done]. cbn [obind fst snd].
  destruct (gmapM _ l m) as [[k m']|] eqn:E'; [|done]. cbn [obind fst snd]. intros [= <- _].
  destruct (IH _ _ _ E') as [Hl Hk]. cbn. split; [by rewrite Hl|]. constructor; [|done].
  by eapply normalizeOperation_inv.
Qed.

(** ** Rows as the page holds them *)

Definition names (l : list ParamOverrideOperation) : list jsstr := l ≫= row_names.

(** There is a row; the names of rows and conditions are distinct and were drawn before; modes
    and logic are among those offered. *)
Record rows_good (l : list ParamOverrideOperation) (n : N) : Prop := {
  rg_ne : l <> [];
  rg_names : NoDup (names l);
  rg_issued : Forall (issued 0 n) (names l);
  rg_rows : Forall row_ok l }.

Lemma rows_good_mono l n n' : (n <= n')%N -> rows_good l n -> rows_good l n'.
Proof.
  intros Hn [H1 H2 H3 H4]. split; [done..| |done]. eapply Forall_impl; [exact H3|].
  intros id Hid. by eapply issued_mono.
Qed.

Lemma rows_good_fresh l n n' : l <> [] -> fresh n (names l) n' -> Forall row_ok l -> rows_good l n'.
Proof.
  intros H1 (_ & H2 & H3) H4. split; [done..| |done]. eapply Forall_impl; [exact H3|].
  intros id Hid. eapply issued_mono; [exact Hid|lia|lia].
Qed.

Lemma read_good l n os n' :
  read_operations now l n = Return (os, n') ->
  os <> [] /\ fresh n (names os) n' /\ Forall row_ok os.
Proof.
  intros E. assert (Hg : forall l, l <> [] -> gmapM (normalizeOperation now) l n = Return (os, n') ->
    os <> [] /\ fresh n (names os) n' /\ Forall row_ok os).
  { intros k Hk E'. destruct (rows_read _ _ _ _ E') as [Hl Hr]. split; [|split; [|done]].
    - by destruct os, k.
    - by eapply draws_operations. }
  destruct l as [|v l]; [|by apply (Hg (v :: l))].
  apply (Hg [VObj [(js "mode", VStr SET)]]); [done|]. revert E.
  cbn [read_operations gmapM]. done.
Qed.

(** The new row of several actions *)
Lemma default_inv n o n' :
  createDefaultOperation now n = Return (o, n') -> fresh n (row_names o) n' /\ row_ok o.
Proof. apply normalizeOperation_inv. Qed.

Lemma names_one o : names [o] = row_names o.
Proof. unfold names. cbn. by rewrite app_nil_r. Qed.

Lemma good_single n o n' :
  fresh n (row_names o) n' /\ row_ok o -> rows_good [o] n'.
Proof.
  intros [Hf Ho]. eapply rows_good_fresh; [done|rewrite names_one; exact Hf|by apply Forall_singleton].
Qed.

(** Rows added to others *)
Lemma good_app l k n n' :
  rows_good l n -> fresh n (names k) n' -> Forall row_ok k -> rows_good (l ++ k) n'.
Proof.
  intros [H1 H2 H3 H4] Hf Hk.
  assert (Hl : fresh 0 (names l) n) by (split; [lia|done]).
  eapply rows_good_fresh; [by destruct l| |by apply Forall_app].
  unfold names. rewrite bind_app. by eapply fresh_app.
Qed.

#[export] Instance names_Permutation : Proper ((≡ₚ) ==> (≡ₚ)) names.
Proof. intros l k H. unfold names. by rewrite H. Qed.

Lemma good_permutation l k n : l ≡ₚ k -> rows_good l n -> rows_good k n.
Proof.
  intros H [H1 H2 H3 H4]. split.
  - intros ->. by apply Permutation_nil_r in H.
  - by rewrite <- H.
  - by rewrite <- H.
  - by rewrite <- H.
Qed.

Lemma good_sublist l k n :
  k <> [] -> names k `sublist_of` names l -> Forall row_ok k -> rows_good l n -> rows_good k n.
Proof.
  intros Hk Hs Hr [H1 H2 H3 H4]. split; [done| |by eapply Forall_sublist_of|done].
  by eapply sublist_no_dup.
Qed.

Lemma names_map_row id f l :
  (forall o, row_names (f o) `sublist_of` row_names o) -> names (map_row id f l) `sublist_of` names l.
Proof.
  intros Hf. unfold names, map_row. induction l as [|o l IH]; [done|]. rewrite fmap_cons, !bind_cons.
  apply sublist_app; [|done]. by case_bool_decide.
Qed.

Lemma map_row_ok id f l :
  (forall o, row_ok o -> row_ok (f o)) -> Forall row_ok l -> Forall row_ok (map_row id f l).
Proof.
  intros Hf Hl. apply Forall_fmap. eapply Forall_impl; [exact Hl|]. intros o Ho. cbn.
  case_bool_decide; [by apply Hf|done].
Qed.

Lemma good_map_row id f l n :
  (forall o, row_names (f o) `sublist_of` row_names o) -> (forall o, row_ok o -> row_ok (f o)) ->
  rows_good l n -> rows_good (map_row id f l) n.
Proof.
  intros Hn Ho Hl. pose proof Hl as [H1 _ _ H4]. eapply good_sublist; [|by apply names_map_row| |done].
  - by destruct l.
  - by apply map_row_ok.
Qed.

Lemma row_ids_sublist l : (o_id <$> l) `sublist_of` names l.
Proof.
  unfold names. induction l as [|o l IH]; [done|]. rewrite fmap_cons, bind_cons. unfold row_names.
  apply sublist_skip. by apply sublist_inserts_l.
Qed.

Lemma good_ids l n : rows_good l n -> NoDup (o_id <$> l).
Proof. intros [_ H _ _]. eapply sublist_no_dup; [apply row_ids_sublist|done]. Qed.

Lemma names_filterb f l : names (filterb f l) `sublist_of` names l.
Proof.
  unfold names. induction l as [|o l IH]; [done|]. cbn [filterb]. destruct (f o); rewrite !bind_cons.
  - by apply sublist_app.
  - by apply sublist_inserts_l.
Qed.

(** Removing the rows with one name leaves a row if there were two. *)
Lemma good_remove id l n :
  (1 < length l)%nat -> rows_good l n ->
  rows_good (filterb (fun o => negb (bool_decide (o_id o = id))) l) n.
Proof.
  intros Hlen Hl. pose proof (good_ids _ _ Hl) as Hnd.
  eapply good_sublist; [|apply names_filterb|by apply Forall_filterb, Hl|done].
  destruct l as [|x [|y l]]; cbn in Hlen; try lia. intros E.
  assert (Hx : forall z, z ∈ x :: y :: l -> o_id z = id).
  { intros z Hz. destruct (decide (o_id z = id)) as [|Hne]; [done|].
    assert (Hin : z ∈ filterb (fun o => negb (bool_decide (o_id o = id))) (x :: y :: l)).
    { apply elem_of_filterb. split; [by rewrite bool_decide_eq_false_2|done]. }
    rewrite E in Hin. by apply not_elem_of_nil in Hin. }
  rewrite !fmap_cons in Hnd. apply NoDup_cons in Hnd as [Hnd _]. apply Hnd.
  rewrite (Hx x), (Hx y) by set_solver. by left.
Qed.

Lemma map_row_absent id f l : id ∉ o_id <$> l -> map_row id f l = l.
Proof.
  unfold map_row. induction l as [|o l IH]; [done|]. rewrite !fmap_cons, not_elem_of_cons. intros [Hne Hin].
  rewrite bool_decide_eq_false_2 by done. by rewrite IH.
Qed.

Lemma map_row_found f l1 x l2 :
  NoDup (o_id <$> l1 ++ x :: l2) -> map_row (o_id x) f (l1 ++ x :: l2) = l1 ++ f x :: l2.
Proof.
  rewrite fmap_app, fmap_cons. intros (_ & H1 & [H2 _]%NoDup_cons)%NoDup_app.
  unfold map_row. rewrite fmap_app, fmap_cons, bool_decide_eq_true_2 by done.
  assert (Hid : forall k : list ParamOverrideOperation, o_id x ∉ o_id <$> k ->
    ((fun o => if bool_decide (o_id o = o_id x) then f o else o) <$> k) = k).
  { intros k. apply (map_row_absent (o_id x) f). }
  rewrite !Hid; [done|done|]. intros Hx. apply (H1 _ Hx). by left.
Qed.

Lemma good_add_condition id c l n :
  condition_ok c -> c_id c = local_id now n -> rows_good l n ->
  rows_good (map_row id (fun o => with_conditions o (o_conditions o ++ [c])) l) (N.succ n).
Proof.
  intros Hc Hid Hl. pose proof (good_ids _ _ Hl) as Hnd.
  destruct (decide (id ∈ o_id <$> l)) as [Hin|Hout];
    [|rewrite map_row_absent by done; eapply rows_good_mono; [|exact Hl]; lia].
  apply list_elem_of_fmap in Hin as (x & -> & Hx).
  destruct (find_split _ _ Hnd Hx) as (l1 & l2 & -> & _). rewrite map_row_found by done.
  destruct Hl as [_ H2 H3 H4].
  eapply (rows_good_fresh _ 0); [by destruct l1| |].
  - assert (E : names (l1 ++ with_conditions x (o_conditions x ++ [c]) :: l2)
                ≡ₚ names (l1 ++ x :: l2) ++ [c_id c]).
    { unfold names. rewrite !bind_app, !bind_cons. unfold row_names. cbn.
      rewrite fmap_app. cbn. solve_Permutation. }
    rewrite Hid in E. destruct (fresh_app 0 (names (l1 ++ x :: l2)) n [local_id now n] (N.succ n))
      as (Hle & Hn & Hf); [by split; [lia|]|apply fresh_one|].
    split; [done|]. by rewrite E.
  - apply Forall_app in H4 as [H4 [H5 H6]%Forall_cons]. apply Forall_app. split; [done|].
    constructor; [|done]. destruct H5 as (Hm & Hlo & Hcs). split; [done|]. split; [done|].
    cbn. apply Forall_app. split; [done|]. by apply Forall_singleton.
Qed.

Lemma insert_at_permutation {A} i (x : A) l : insert_at i x l ≡ₚ x :: l.
Proof. unfold insert_at. rewrite <- Permutation_middle, take_drop. done. Qed.

Lemma reorder_permutation l source target position :
  reorderOperations l source target position ≡ₚ l.
Proof.
  unfold reorderOperations. destruct (_ || _); [done|].
  destruct (list_find _ l) as [[i x]|] eqn:E; [|done]. destruct (find_id target _) as [j|]; [|done].
  apply split_find in E as (l1 & l2 & -> & <- & _). rewrite insert_at_permutation, delete_middle.
  apply Permutation_middle.
Qed.

(** ** Rules of [prune_objects] *)

Lemma draws_rules l : draws (fmap c_id) (gmapM (normalizePruneRule now) l).
Proof. apply draws_conditions. Qed.

Lemma draws_full_rules (o : obj) :
  draws (fmap c_id) (gmapM (fun e => normalizePruneRule now (full_rule e)) o).
Proof.
  intros n cs n' E. rewrite <- bind_names. eapply (draws_gmapM condition_names); [|exact E].
  intros e _. apply (draws_condition (full_rule e)).
Qed.

Lemma draws_nil : draws (fmap c_id) (mret []).
Proof. intros n cs n' [= <- <-]. apply fresh_nil. Qed.

Lemma draws_where v : draws (fmap c_id) (where_rules now v).
Proof. destruct v; first [apply draws_full_rules|apply draws_nil]. Qed.

Lemma draws_condition_rules v : draws (fmap c_id) (condition_rules now v).
Proof. destruct v; first [apply draws_full_rules|apply draws_rules|apply draws_nil]. Qed.

Lemma draws_parse_prune text : draws (fun draft => c_id <$> pd_rules draft) (parsePruneObjectsDraft now text).
Proof.
  intros n draft n'. unfold parsePruneObjectsDraft. cbv zeta.
  destruct (negb _); [intros [= <- <-]; apply fresh_nil|].
  destruct (json_parse (trim text)) as [[| |b|x|s|l|o]|];
    try (intros [= <- <-]; apply fresh_nil).
  cbv [mbind gen_bind].
  destruct (where_rules now _ n) as [[r1 m]|] eqn:E1; [|done]. cbn [obind fst snd].
  destruct (condition_rules now _ m) as [[r2 k]|] eqn:E2; [|done]. cbn [obind fst snd].
  intros [= <- <-]. cbn [pd_rules]. rewrite fmap_app. eapply fresh_app.
  - by eapply draws_where.
  - by eapply draws_condition_rules.
Qed.

(** A change of the rows one after the other that keeps their names *)
Lemma good_gmapM (f : ParamOverrideOperation -> gen ParamOverrideOperation) l n l' n' :
  (forall o n o' n', f o n = Return (o', n') ->
     (n <= n')%N /\ row_names o' = row_names o /\ (row_ok o -> row_ok o')) ->
  gmapM f l n = Return (l', n') -> rows_good l n -> rows_good l' n'.
Proof.
  intros Hf E Hl.
  enough (H : (n <= n')%N /\ names l' = names l /\ (Forall row_ok l -> Forall row_ok l')
              /\ length l' = length l).
  { destruct H as (Hn & Hnames & Hr & Hlen). eapply rows_good_mono; [exact Hn|].
    destruct Hl as [H1 H2 H3 H4]. split; [|by rewrite Hnames..|by apply Hr].
    by destruct l, l'. }
  clear Hl. revert n l' n' E; induction l as [|o l IH]; intros n l' n'.
  { intros [= <- <-]. repeat split; [lia|done]. }
  rewrite gmapM_cons. destruct (f o n) as [[o' m]|] eqn:Eo; [|done]. cbn [obind fst snd].
  destruct (gmapM f l m) as [[k m']|] eqn:E'; [|done]. cbn [obind fst snd]. intros [= <- <-].
  destruct (Hf _ _ _ _ Eo) as (H1 & H2 & H3). destruct (IH _ _ _ E') as (H4 & H5 & H6 & H7).
  split; [lia|]. split; [|split].
  - unfold names in *. by rewrite !bind_cons, H2, H5.
  - intros [Ho Hl]%Forall_cons. constructor; auto.
  - cbn. by rewrite H7.
Qed.

Lemma good_prune id updater d n d' n' :
  (forall draft n draft' n', updater draft n = Return (draft', n') -> (n <= n')%N) ->
  updatePruneObjectsDraft now id updater d n = Return (d', n') ->
  rows_good (ops d) n -> rows_good (ops d') n'.
Proof.
  intros Hu. unfold updatePruneObjectsDraft. cbv [mbind gen_bind].
  destruct (gmapM _ (ops d) n) as [[l m]|] eqn:E; [|done]. cbn [obind fst snd]. intros [= <- <-].
  eapply good_gmapM; [|exact E]. clear -Hu. intros o n o' n'.
  cbn beta. case_bool_decide; [|intros [= <- <-]; by split; [lia|]].
  destruct (parsePruneObjectsDraft now _ n) as [[draft m]|] eqn:E1; [|done]. cbn [obind fst snd].
  destruct (updater draft m) as [[draft' k]|] eqn:E2; [|done]. cbn [obind fst snd].
  intros [= <- <-]. apply draws_parse_prune in E1 as [H1 _]. apply Hu in E2.
  split; [lia|]. by split.
Qed.

(** ** Templates have rows *)

Definition has_rows (p : TemplatePresetConfig) : bool :=
  legacy_kind p || match prop (js "operations") (payload p) with VArr (_ :: _) => true | _ => false end.

Lemma preset_rows key :
  legacy_kind (preset_of key) = false ->
  exists v l, prop (js "operations") (payload (preset_of key)) = VArr (v :: l).
Proof.
  intros Hk. assert (H : has_rows (preset_of key) = true).
  { unfold preset_of. destruct (list_find _ _) as [[i e]|] eqn:E; [|by vm_compute].
    apply list_find_Some in E as (E & _ & _). apply list_elem_of_lookup_2 in E.
    assert (Ha : Forall (fun e => has_rows e.2 = true) TEMPLATE_PRESET_CONFIG)
      by (repeat (constructor; [by vm_compute|]); constructor).
    rewrite Forall_forall in Ha. exact (Ha _ E). }
  revert H. unfold has_rows. rewrite Hk. cbn [orb]. destruct (prop _ _) as [| | | | |[|v l]|]; try done.
  by eauto.
Qed.

(** Kept rows and new ones *)
Lemma good_append l k new n n' :
  names k `sublist_of` names l -> Forall row_ok k -> rows_good l n ->
  new <> [] -> fresh n (names new) n' -> Forall row_ok new -> rows_good (k ++ new) n'.
Proof.
  intros Hs Hk [_ H2 H3 _] Hne Hf Hnew.
  assert (Hfk : fresh 0 (names k) n).
  { split; [lia|]. split; [by eapply sublist_no_dup|by eapply Forall_sublist_of]. }
  eapply rows_good_fresh; [by destruct k| |by apply Forall_app].
  unfold names in *. rewrite bind_app. by eapply fresh_app.
Qed.

(** ** Every action keeps the rows good *)

(** The texts the selects of the page offer *)
Definition offered (a : action) : Prop :=
  match a with
  | UpdateOperation _ p =>
      (forall m, q_mode p = Some m -> m ∈ OPERATION_MODE_VALUES)
      /\ (forall m, q_logic p = Some m -> m = AND \/ m = OR)
  | UpdateCondition _ _ p => forall m, q_cmode p = Some m -> m ∈ CONDITION_MODE_VALUES
  | _ => True
  end.

Lemma patch_operation_ok id cid p q :
  offered (UpdateOperation id p) -> offered (UpdateCondition id cid q) ->
  (forall o, row_ok o -> row_ok (patch_operation p o))
  /\ (forall c, condition_ok c -> condition_ok (patch_condition q c)).
Proof.
  intros [Hm Hl] Hc. split.
  - intros o (H1 & H2 & H3). split; [|split; [|done]]; cbn.
    + destruct (q_mode p); [by apply Hm|done].
    + destruct (q_logic p); [by apply Hl|done].
  - intros c H. unfold condition_ok in *. cbn in *. destruct (q_cmode q); [by apply Hc|done].
Qed.

Ltac one_call :=
  cbv [mbind gen_bind]; 
  match goal with |- obind ?m _ = _ -> _ =>
    let E := fresh "E" in destruct m as [[? ?]|] eqn:E; [|done] end;
  cbn [obind fst snd]; intros [= <- <-].

Lemma good_default n o n' : createDefaultOperation now n = Return (o, n') -> rows_good [o] n'.
Proof. intros E. eapply good_single, default_inv, E. Qed.

Lemma good_read l n os n' : read_operations now l n = Return (os, n') -> rows_good os n'.
Proof. intros (H1 & H2 & H3)%read_good. by eapply rows_good_fresh. Qed.

Lemma good_add l n o n' :
  rows_good l n -> fresh n (row_names o) n' /\ row_ok o -> rows_good (l ++ [o]) n'.
Proof.
  intros Hl [Hf Ho]. eapply good_app; [exact Hl|by rewrite names_one|by apply Forall_singleton].
Qed.

Lemma add_good d n d' n' :
  rows_good (ops d) n -> addOperation now d n = Return (d', n') -> rows_good (ops d') n'.
Proof. intros Hl. unfold addOperation. one_call. eapply good_add; [exact Hl|by apply default_inv]. Qed.

Lemma duplicate_good id eager d n d' n' :
  rows_good (ops d) n -> duplicateOperation now id eager d n = Return (d', n') -> rows_good (ops d') n'.
Proof.
  intros Hl. unfold duplicateOperation. destruct (list_find _ _) as [[i o]|]; [|by intros [= <- <-]].
  one_call. assert (H : rows_good (insert_at (S i) p (ops d)) n0); [|by destruct eager].
  apply (good_permutation (ops d ++ [p])).
  - rewrite insert_at_permutation. apply Permutation_app_comm.
  - eapply good_add; [exact Hl|by eapply normalizeOperation_inv].
Qed.

Lemma remove_good id d n d' n' :
  rows_good (ops d) n -> removeOperation now id d n = Return (d', n') -> rows_good (ops d') n'.
Proof.
  intros Hl. unfold removeOperation. case_bool_decide.
  - one_call. by eapply good_default.
  - intros [= <- <-]. apply good_remove; [lia|done].
Qed.

Lemma add_condition_good id d n d' n' :
  rows_good (ops d) n -> addCondition now id d n = Return (d', n') -> rows_good (ops d') n'.
Proof.
  intros Hl. unfold addCondition. one_call.
  apply normalizeCondition_inv in E as (Hid & -> & Hok). by apply good_add_condition.
Qed.

Lemma switch_good tr d n d' n' :
  rows_good (ops d) n -> switchToVisualMode now tr d n = Return (d', n') -> rows_good (ops d') n'.
Proof.
  intros Hl. unfold switchToVisualMode. destruct (e_editMode _); [by intros [= <- <-]|]. cbv zeta.
  destruct (negb _); [one_call; by eapply good_default|].
  destruct (json_parse _) as [v|]; [|by intros [= <- <-]].
  destruct (operations_of v); [one_call; by eapply good_read|].
  destruct (is_record v); [one_call; by eapply good_default|by intros [= <- <-]].
Qed.

Lemma show_legacy_good text d n d' n' : show_legacy now text d n = Return (d', n') -> rows_good (ops d') n'.
Proof. unfold show_legacy. one_call. by eapply good_default. Qed.

Lemma fill_good tr append d n d' n' :
  rows_good (ops d) n -> fillTemplate now tr append d n = Return (d', n') -> rows_good (ops d') n'.
Proof.
  intros Hl. unfold fillTemplate. cbv zeta. destruct (legacy_kind _) eqn:Hk.
  - assert (Hs := show_legacy_good).
    destruct append, (e_visualMode (editor d)); try apply Hs. destruct (negb _); [apply Hs|].
    destruct (json_parse _); [apply Hs|by intros [= <- <-]].
  - destruct (preset_rows _ Hk) as (v & l & ->). destruct append.
    + one_call. destruct (rows_read _ _ _ _ E) as [Hlen Hr].
      assert (Hd : fresh n (names l0) n0) by by eapply draws_operations.
      destruct (e_visualMode (editor d)).
      * eapply good_append; [apply names_filterb|apply Forall_filterb, Hl|exact Hl|by destruct l0|done..].
      * eapply rows_good_fresh; [by destruct l0|exact Hd|done].
    + one_call. by eapply good_read.
Qed.

Lemma update_condition_names id p o cid :
  offered (UpdateCondition id cid p) ->
  let o' := with_conditions o ((fun c => if bool_decide (c_id c = cid) then patch_condition p c else c)
                                 <$> o_conditions o) in
  row_names o' = row_names o /\ (row_ok o -> row_ok o').
Proof.
  intros Hp. cbv zeta. split.
  - unfold row_names. cbn. f_equal. rewrite <- list_fmap_compose. apply list_fmap_ext.
    intros i c _. cbn. by case_bool_decide.
  - intros (H1 & H2 & H3). split; [done|]. split; [done|]. cbn. apply Forall_fmap.
    eapply Forall_impl; [exact H3|]. intros c Hc. cbn. case_bool_decide; [|done].
    by eapply (patch_operation_ok id cid (OpPatch None None None None None None None None)).
Qed.

Lemma remove_condition_names o cid :
  let o' := with_conditions o (filterb (fun c => negb (bool_decide (c_id c = cid))) (o_conditions o)) in
  row_names o' `sublist_of` row_names o /\ (row_ok o -> row_ok o').
Proof.
  cbv zeta. split.
  - unfold row_names. cbn. apply sublist_skip.
    induction (o_conditions o) as [|c l IH]; [done|]. cbn [filterb]. rewrite fmap_cons.
    destruct (negb _); [by apply sublist_skip|by apply sublist_cons].
  - intros (H1 & H2 & H3). split; [done|]. split; [done|]. by apply Forall_filterb.
Qed.

Lemma drop_good transferred id d n :
  rows_good (ops d) n -> rows_good (ops (handleDrop transferred id d)) n.
Proof.
  intros Hl. unfold handleDrop. cbv zeta. destruct (_ && _ && _); [|done].
  eapply good_permutation; [symmetry; apply reorder_permutation|done].
Qed.

Lemma handle_good tr t a d n d' n' :
  offered a -> rows_good (ops d) n -> handle now tr t a d n = Return (d', n') -> rows_good (ops d') n'.
Proof.
  intros Ha Hl. destruct a; cbn [handle]; try (intros [= <- <-]; exact Hl).
  - intros [= <- <-]. apply good_map_row; [done| |done].
    eapply (patch_operation_ok id id p (CondPatch None None None None None)); [exact Ha|done].
  - by apply add_good.
  - by apply duplicate_good.
  - by apply remove_good.
  - by apply add_condition_good.
  - intros [= <- <-]. apply good_map_row; [| |done]; intros o; cbn beta;
      destruct (update_condition_names id p o cid Ha) as [E Hr]; [by rewrite E|exact Hr].
  - intros [= <- <-]. apply good_map_row; [| |done]; intros o; apply remove_condition_names.
  - intros [= <- <-]. by apply good_map_row.
  - intros E. eapply good_prune; [|exact E|done]. intros ? ? ? ? [= _ <-]. lia.
  - intros E. eapply good_prune; [|exact E|done]. intros ? ? ? ? [= _ <-]. lia.
  - intros E. eapply good_prune; [|exact E|done]. intros ? ? ? ? [= _ <-]. lia.
  - intros E. eapply good_prune; [|exact E|done]. intros ? ? ? ? [= _ <-]. lia.
  - intros [= <- <-]. unfold handleDragOver. by destruct (_ || _).
  - intros [= <- <-]. by apply drop_good.
  - intros [= <- <-]. unfold set_all_expanded. by destruct (selectedOperation d).
  - intros [= <- <-]. unfold set_all_expanded. by destruct (selectedOperation d).
  - intros [= <- <-]. unfold switchToJsonMode. destruct (e_editMode _); [|done].
    by destruct (buildVisualJson _ _ _).
  - by apply switch_good.
  - by apply fill_good.
  - unfold resetEditorState. one_call. by eapply good_default.
  - intros [= <- <-]. unfold formatJson. cbv zeta. destruct (negb _); [done|].
    by destruct (json_parse _).
  - intros [= <- <-]. unfold handleSave. by destruct (save_text _ _ _).
Qed.

(** The state of the open dialog *)
Definition dialog_good (s : Dialog * N) : Prop :=
  rows_good (ops (fst s)) (snd s) /\ selected (fst s) ∈ o_id <$> ops (fst s).

Lemma keep_selected_good d n : rows_good (ops d) n -> dialog_good (keep_selected d, n).
Proof.
  intros Hl. pose proof Hl as [Hne _ _ _]. unfold keep_selected, dialog_good.
  destruct (ops d) as [|o l] eqn:E; [done|]. cbn [fst snd]. rewrite <- E in *.
  destruct (existsb _ (ops d)) eqn:Es.
  - split; [done|]. apply existsb_exists in Es as (x & Hx & Hid). bool_hyps. rewrite <- Hid.
    apply list_elem_of_fmap_2. by apply list_elem_of_In.
  - split; [exact Hl|]. cbn. change (ops _) with (ops d). rewrite E. by left.
Qed.

Lemma act_good tr t a s : offered a -> dialog_good s -> dialog_good (act now tr t a s).
Proof.
  destruct s as [d n]. intros Ha [Hl Hs]. unfold act. cbn [fst snd] in *.
  destruct (handle now tr t a d n) as [[d' n']|] eqn:E; [|by split].
  by eapply keep_selected_good, handle_good.
Qed.

Lemma open_good value previous n d n' :
  open_dialog now value previous n = Return (d, n') -> dialog_good (d, n').
Proof.
  unfold open_dialog. one_call. apply keep_selected_good. cbn.
  revert E. unfold parseInitialState. cbv zeta.
  destruct (negb _); [one_call; by eapply good_default|].
  destruct (json_parse _) as [v|]; [|one_call; by eapply good_default].
  destruct (operations_of v); [one_call; by eapply good_read|].
  destruct (is_record v); one_call; by eapply good_default.
Qed.

End Names.

(** C28. However the dialog is used after it was opened, its rows stay apart and one of them is
    selected: there is always a row, no two rows or conditions have the same name, every mode
    and logic is one of those offered, and the selected name is that of a row. *)
Theorem dialog_invariant now tr t value previous n d n' actions :
  open_dialog now value previous n = Return (d, n') -> Forall offered actions ->
  let s := fold_left (fun s a => act now tr t a s) actions (d, n') in
  ops (fst s) <> [] /\ NoDup (names (ops (fst s))) /\ Forall row_ok (ops (fst s))
  /\ selected (fst s) ∈ o_id <$> ops (fst s).
Proof.
  intros Ho%open_good Ha. cbv zeta. revert Ho. generalize (d, n').
  induction Ha as [|a actions Hof _ IH]; intros s Hs.
  - destruct Hs as [[H1 H2 _ H4] Hsel]. done.
  - apply IH. by apply act_good.
Qed.

(** A dialog that was never opened *)
Definition closed_dialog : Dialog :=
  MkDialog (Editor visual operations [] [] [] []) [] [] ∅ [] [] before OPERATIONS_DEFAULT [].

Definition no_clock (k : N) : N := 0%N.
Definition same_text (key : jsstr) : jsstr := key.

Lemma dialog_invariant_witness :
  exists d n', open_dialog no_clock [] closed_dialog 0%N = Return (d, n')
  /\ let s := fold_left (fun s a => act no_clock same_text some_message a s)
                [AddOperation; SwitchToJson; FillTemplate true] (d, n') in
     ops (fst s) <> [] /\ NoDup (names (ops (fst s))) /\ Forall row_ok (ops (fst s))
     /\ selected (fst s) ∈ o_id <$> ops (fst s).
Proof.
  eexists _, _. split; [reflexivity|].
  apply (dialog_invariant no_clock same_text some_message [] closed_dialog 0); [reflexivity|].
  repeat constructor.
Defined.

(** ** Rules of [prune_objects] cannot be edited *)

Section Frozen.
Context (now : N -> N).

Lemma gmapM_ext_from {A B} (f g : A -> gen B) l n :
  (forall x k, (n <= k)%N -> f x k = g x k) ->
  (forall x k y k', g x k = Return (y, k') -> (k <= k')%N) ->
  gmapM f l n = gmapM g l n.
Proof.
  intros Hfg Hmono. revert n Hfg; induction l as [|x l IH]; intros n Hfg; [done|].
  rewrite !gmapM_cons, Hfg by lia. destruct (g x n) as [[y m]|] eqn:E; [|done]. cbn [obind fst snd].
  rewrite IH; [done|]. intros z k Hk. apply Hfg. apply Hmono in E. lia.
Qed.

(** Saves the draft of a row as it is. *)
Definition save_draft (id : jsstr) : Dialog -> gen Dialog := updatePruneObjectsDraft now id mret.

(** The change of one row *)
Definition prune_edit (updater : PruneObjectsDraft -> gen PruneObjectsDraft) (id : jsstr)
    (o : ParamOverrideOperation) : gen ParamOverrideOperation :=
  if bool_decide (o_id o = id) then
    draft ← parsePruneObjectsDraft now (o_value_text o);
    nextDraft ← updater draft;
    mret (with_value_text o (buildPruneObjectsValueText nextDraft))
  else mret o.

Lemma prune_edit_mono updater id o k o' k' :
  (forall draft n draft' n', updater draft n = Return (draft', n') -> (n <= n')%N) ->
  prune_edit updater id o k = Return (o', k') -> (k <= k')%N.
Proof.
  intros Hu. unfold prune_edit. case_bool_decide; [|intros [= _ <-]; lia]. cbv [mbind gen_bind].
  destruct (parsePruneObjectsDraft now _ k) as [[draft m]|] eqn:E1; [|done]. cbn [obind fst snd].
  destruct (updater draft m) as [[draft' m']|] eqn:E2; [|done]. cbn [obind fst snd].
  intros [= _ <-]. apply draws_parse_prune in E1 as [H1 _]. apply Hu in E2. lia.
Qed.

(** The updater of a handler that looks for a name drawn before finds none. *)
Lemma edit_unnamed updater id d n :
  (forall draft k, (forall r, r ∈ pd_rules draft -> issued now n k (c_id r)) ->
     updater draft k = Return (draft, k)) ->
  updatePruneObjectsDraft now id updater d n = save_draft id d n.
Proof.
  intros Hu. unfold save_draft, updatePruneObjectsDraft. cbv [mbind gen_bind].
  change (obind (gmapM (prune_edit updater id) (ops d) n) (fun r => Return (setOperations r.1 d, r.2))
          = obind (gmapM (prune_edit mret id) (ops d) n) (fun r => Return (setOperations r.1 d, r.2))).
  rewrite (gmapM_ext_from (prune_edit updater id) (prune_edit mret id)); [done| |].
  - intros o k Hk. unfold prune_edit. case_bool_decide; [|done]. cbv [mbind gen_bind].
    destruct (parsePruneObjectsDraft now _ k) as [[draft m]|] eqn:E1; [|done]. cbn [obind fst snd].
    rewrite Hu; [done|]. intros r Hr. apply draws_parse_prune in E1 as (H1 & _ & H2).
    rewrite Forall_forall in H2. eapply issued_mono; [apply H2; by apply list_elem_of_fmap_2|lia|lia].
  - intros o k o' k'. apply prune_edit_mono. intros ? ? ? ? [= _ <-]. lia.
Qed.

Lemma gmapM_app {A B} (f : A -> gen B) l1 l2 n :
  gmapM f (l1 ++ l2) n
  = obind (gmapM f l1 n) (fun r => obind (gmapM f l2 r.2) (fun s => Return (r.1 ++ s.1, s.2))).
Proof.
  revert n; induction l1 as [|x l1 IH]; intros n.
  - cbn [app gmapM]. cbv [mret gen_ret]. cbn [obind fst snd].
    by destruct (gmapM f l2 n) as [[? ?]|].
  - cbn [app]. rewrite !gmapM_cons. destruct (f x n) as [[y m]|]; [|done]. cbn [obind fst snd].
    rewrite IH. destruct (gmapM f l1 m) as [[ys k]|]; [|done]. cbn [obind fst snd].
    by destruct (gmapM f l2 k) as [[? ?]|].
Qed.

Lemma edit_absent updater id l n :
  id ∉ o_id <$> l -> gmapM (prune_edit updater id) l n = Return (l, n).
Proof.
  induction l as [|o l IH]; [done|]. rewrite fmap_cons, not_elem_of_cons. intros [Hne Hin].
  rewrite gmapM_cons. unfold prune_edit at 1. rewrite bool_decide_eq_false_2 by done.
  cbn [obind fst snd mret]. cbv [mret gen_ret]. cbn [obind fst snd]. by rewrite IH.
Qed.

Lemma edit_found updater l1 o l2 n :
  NoDup (o_id <$> l1 ++ o :: l2) ->
  gmapM (prune_edit updater (o_id o)) (l1 ++ o :: l2) n
  = obind (prune_edit updater (o_id o) o n) (fun r => Return (l1 ++ r.1 :: l2, r.2)).
Proof.
  rewrite fmap_app, fmap_cons. intros (_ & H1 & [H2 _]%NoDup_cons)%NoDup_app.
  rewrite gmapM_app, edit_absent by (intros Hx; apply (H1 _ Hx); by left). cbn [obind fst snd].
  rewrite gmapM_cons. destruct (prune_edit updater (o_id o) o n) as [[o' m]|]; [|done].
  cbn [obind fst snd]. by rewrite edit_absent.
Qed.

(** A rule without a path is not stored. *)
Lemma pathless_rule b ty lo re rules r :
  trim (c_path r) = [] ->
  buildPruneObjectsValueText (PruneDraft b ty lo re (rules ++ [r]))
  = buildPruneObjectsValueText (PruneDraft b ty lo re rules).
Proof.
  intros Hr. unfold buildPruneObjectsValueText. cbn [pd_rules pd_typeText pd_simpleMode pd_logic pd_recursive].
  rewrite filterb_app. cbn [filterb]. by rewrite Hr, app_nil_r.
Qed.

(** Reading a draft does not throw. *)
Lemma parse_prune_returns text n : exists draft n', parsePruneObjectsDraft now text n = Return (draft, n').
Proof.
  assert (Hone : forall v k, nullish v = false ->
    exists r, normalizePruneRule now v k = Return (r, N.succ k)).
  { intros v k Hv. cbv [normalizePruneRule mbind gen_bind mret gen_ret nextLocalId glift read omapr].
    rewrite Hv. by eexists. }
  assert (Hall : forall (A : Type) (f : A -> jsval) l k, Forall (fun x => nullish (f x) = false) l ->
    exists rs k', gmapM (fun x => normalizePruneRule now (f x)) l k = Return (rs, k')).
  { intros A f. induction l as [|x l IH]; intros k Hl; [by eexists _, _|].
    apply Forall_cons in Hl as [Hv Hl]. destruct (Hone (f x) k Hv) as [r E].
    destruct (IH (N.succ k) Hl) as (rs & k' & E'). exists (r :: rs), k'.
    rewrite gmapM_cons, E. cbn [obind fst snd]. by rewrite E'. }
  assert (Hfull : forall (o : obj) k, exists rs k',
    gmapM (fun e => normalizePruneRule now (full_rule e)) o k = Return (rs, k')).
  { intros o k. apply (Hall _ full_rule). by apply Forall_forall. }
  unfold parsePruneObjectsDraft. cbv zeta. destruct (negb _); [by eexists _, _|].
  destruct (json_parse (trim text)) as [[| |b|x|s|l|o]|]; try by eexists _, _.
  cbv [mbind gen_bind].
  assert (H1 : exists r k, where_rules now (at_ (js "where") o) n = Return (r, k)).
  { unfold where_rules. destruct (at_ (js "where") o); try by eexists _, _. apply Hfull. }
  destruct H1 as (r1 & k1 & ->). cbn [obind fst snd].
  assert (H2 : exists r k, condition_rules now (at_ (js "conditions") o) k1 = Return (r, k)).
  { unfold condition_rules. destruct (at_ (js "conditions") o); first [by eexists _, _|apply Hfull|idtac].
    apply (Hall _ id). apply Forall_forall. intros v [Hv _]%elem_of_filterb. by destruct v. }
  destruct H2 as (r2 & k2 & ->). cbn [obind fst snd]. by eexists _, _.
Qed.

End Frozen.

(** The rules of a [prune_objects] row cannot be edited: changing or removing a rule that is
    shown does what saving the unchanged draft does, because the draft is read again under new
    names before the rule is looked for; and adding a rule only leaves the simple mode, because
    a rule without a path is not stored. *)
Theorem prune_rules_frozen now d m shown m' r n o p :
  pruneObjectsDraft now d m = Return (Some shown, m') -> r ∈ pd_rules shown -> (m' <= n)%N ->
  NoDup (o_id <$> ops d) -> o ∈ ops d ->
  updatePruneRule now (o_id o) (c_id r) p d n = save_draft now (o_id o) d n
  /\ removePruneRule now (o_id o) (c_id r) d n = save_draft now (o_id o) d n
  /\ exists d' n1 n2, addPruneRule now (o_id o) d n = Return (d', n1)
     /\ updatePruneObjectsDraft now (o_id o)
          (fun draft => mret (patch_prune (PPatch (Some false) None None None) draft)) d n
        = Return (d', n2).
Proof.
  intros Hs Hr Hn Hnd Ho.
  assert (Hold : issued now m m' (c_id r)).
  { revert Hs. unfold pruneObjectsDraft. destruct (selectedOperation d) as [x|]; [|done].
    case_bool_decide; [|done]. cbv [mbind gen_bind].
    destruct (parsePruneObjectsDraft now _ m) as [[draft k]|] eqn:E; [|done]. cbn [obind fst snd].
    intros [= -> ->]. apply draws_parse_prune in E as (_ & _ & Hf). rewrite Forall_forall in Hf.
    apply Hf. by apply list_elem_of_fmap_2. }
  assert (Hne : forall draft k, (forall r', r' ∈ pd_rules draft -> issued now n k (c_id r')) ->
            forall r', r' ∈ pd_rules draft -> c_id r' <> c_id r).
  { intros draft k Hd r' Hr' E. by eapply (issued_apart now _ _ _ _ _ _ Hold (Hd _ Hr')). }
  split; [|split].
  - apply edit_unnamed. intros draft k Hd. cbv [mret gen_ret]. do 2 f_equal. destruct draft as [b ty lo re rules]. unfold with_rules.
    cbn in *. f_equal. rewrite <- (list_fmap_id rules) at 2. apply list_fmap_ext. intros i r' Hi.
    cbn. rewrite bool_decide_eq_false_2; [done|]. eapply (Hne (PruneDraft b ty lo re rules)); [exact Hd|].
    cbn. by eapply list_elem_of_lookup_2.
  - apply edit_unnamed. intros draft k Hd. cbv [mret gen_ret]. do 2 f_equal. destruct draft as [b ty lo re rules]. unfold with_rules.
    cbn in *. f_equal. apply filterb_all. intros r' Hr'.
    rewrite bool_decide_eq_false_2; [done|]. by eapply (Hne (PruneDraft b ty lo re rules)).
  - destruct (find_split _ _ Hnd Ho) as (l1 & l2 & E & _).
    destruct (parse_prune_returns now (o_value_text o) n) as (draft & k & Ep).
    unfold addPruneRule, updatePruneObjectsDraft. cbv [mbind gen_bind]. rewrite E in *.
    do 3 eexists. split.
    + change (gmapM _ (l1 ++ o :: l2) n) with (gmapM (prune_edit now (fun draft =>
        rule ← normalizePruneRule now (VObj []);
        mret (PruneDraft false (pd_typeText draft) (pd_logic draft) (pd_recursive draft)
                (pd_rules draft ++ [rule]))) (o_id o)) (l1 ++ o :: l2) n).
      rewrite edit_found by done. unfold prune_edit. rewrite bool_decide_eq_true_2 by done.
      cbv [mbind gen_bind]. rewrite Ep. cbn [obind fst snd]. reflexivity.
    + change (gmapM _ (l1 ++ o :: l2) n) with (gmapM (prune_edit now (fun draft =>
        mret (patch_prune (PPatch (Some false) None None None) draft)) (o_id o)) (l1 ++ o :: l2) n).
      rewrite edit_found by done. unfold prune_edit. rewrite bool_decide_eq_true_2 by done.
      cbv [mbind gen_bind]. rewrite Ep. cbn [obind fst snd]. cbv [mret gen_ret]. cbn [obind fst snd].
      do 3 f_equal. rewrite pathless_rule by done. destruct draft. reflexivity.
Qed.

(** A [prune_objects] row with one rule *)
Definition prune_text : jsstr := Eval vm_compute in
  buildPruneObjectsValueText (PruneDraft false (js "redacted") AND true
    [Condition (js "r") (js "type") FULL (js "thinking") false false]).

Definition prune_row : ParamOverrideOperation :=
  Operation (js "p") [] [] (js "prune_objects") [] [] prune_text false OR [].

Definition dialog_of (l : list ParamOverrideOperation) : Dialog :=
  MkDialog (Editor visual operations [] l [] []) (first_id l) [] ∅ [] [] before OPERATIONS_DEFAULT [].

Lemma prune_rules_frozen_witness :
  exists shown r, pruneObjectsDraft no_clock (dialog_of [prune_row]) 0%N = Return (Some shown, 1%N)
    /\ pd_rules shown = [r]
    /\ removePruneRule no_clock (js "p") (c_id r) (dialog_of [prune_row]) 1%N
       = save_draft no_clock (js "p") (dialog_of [prune_row]) 1%N.
Proof.
  eexists _, _. split; [vm_compute; reflexivity|]. split; [reflexivity|].
  eapply (prune_rules_frozen no_clock (dialog_of [prune_row]) 0 _ 1 _ 1 prune_row
    (CondPatch None None None None None)).
  - vm_compute. reflexivity.
  - by left.
  - done.
  - apply NoDup_singleton.
  - by left.
Defined.

(** ** Typing the message of [return_error] *)

(** The text of the message input of a row *)
Definition shown_message (id : jsstr) (d : Dialog) : jsstr :=
  match list_find (fun o => o_id o = id) (ops d) with
  | Some (_, o) => d_message (parseReturnErrorDraft (o_value_text o))
  | None => []
  end.

(** The change of the input when the unit [c] is typed at its end *)
Definition type_unit (id : jsstr) (d : Dialog) (c : N) : Dialog :=
  updateReturnErrorDraft id
    (ErrorPatch (Some (shown_message id d ++ [c])) None None None None None) d.

Definition solid_units (cs : jsstr) : jsstr := filterb (fun c => negb (is_ws c)) cs.

(** An object's text begins with its bracket. *)
Lemma object_text_head s o : json_parse s = Some (VObj o) -> trim s = s -> head s = Some 123%N.
Proof.
  unfold json_parse. replace (2 * length s + 2)%nat with (S (2 * length s + 1)) by lia.
  cbn [parse_value]. intros H Ht. destruct s as [|c s]; [done|].
  assert (Hc : is_ws c = false) by (destruct (trim_trimmed (c :: s)) as [Hh _]; by eapply (Hh c s)).
  rewrite skip_ws_id in H by by apply is_ws_json.
  revert H. cbn [head]. unfold expect. destruct (N.eqb_spec c 123); [by subst|].
  repeat case_match; simplify_eq/=; try done;
  repeat match goal with
  | H : (x ← ?e; _) = Some _ |- _ => destruct e as [[? ?]|] eqn:?; simplify_eq/=
  end; done.
Qed.

Lemma plain_message v :
  solid v -> head v <> Some 123%N ->
  parseReturnErrorDraft v = ErrorDraft v (num_of_Z 400) [] [] true true.
Proof.
  intros Hs Hh. pose proof (trim_no_ws v Hs) as Ht. unfold parseReturnErrorDraft. rewrite Ht.
  destruct v as [|c v]; [done|]. cbn [truthy_str negb].
  destruct (json_parse (c :: v)) as [[| | | | | |o]|] eqn:E; try done.
  by apply object_text_head in E.
Qed.

Lemma trim_snoc_ws v c : solid v -> is_ws c = true -> trim (v ++ [c]) = v.
Proof.
  intros Hs Hc. unfold trim, trim_end, trim_start. destruct v as [|a v]; [cbn; by rewrite Hc|].
  apply Forall_cons in Hs as [Ha Hs]. cbn [app drop_ws]. rewrite Ha.
  rewrite app_comm_cons, reverse_snoc. cbn [drop_ws]. rewrite Hc.
  rewrite drop_ws_id, reverse_involutive; [done|].
  intros x u E. apply (f_equal reverse) in E. rewrite reverse_involutive, reverse_cons in E.
  assert (Hx : x ∈ a :: v) by (rewrite E; set_solver).
  assert (Hf : solid (a :: v)) by by constructor. unfold solid in Hf. rewrite Forall_forall in Hf. by apply Hf.
Qed.

(** The text of the value after a unit was typed *)
Lemma typed_text v c :
  solid v -> head v <> Some 123%N ->
  buildReturnErrorValueText (patch_error
    (ErrorPatch (Some (d_message (parseReturnErrorDraft v) ++ [c])) None None None None None)
    (parseReturnErrorDraft v)) = v ++ solid_units [c].
Proof.
  intros Hs Hh. rewrite plain_message by done. unfold buildReturnErrorValueText, solid_units. cbn.
  destruct (is_ws c) eqn:Hc; cbn.
  - rewrite app_nil_r. by apply trim_snoc_ws.
  - apply trim_no_ws. apply Forall_app. split; [done|]. by apply Forall_singleton.
Qed.

Lemma solid_units_solid cs : solid (solid_units cs).
Proof.
  apply Forall_forall. intros c [Hc _]%elem_of_filterb. by destruct (is_ws c).
Qed.

Lemma find_app l1 o l2 :
  NoDup (o_id <$> l1 ++ o :: l2) ->
  list_find (fun x => o_id x = o_id o) (l1 ++ o :: l2) = Some (length l1, o).
Proof.
  intros Hnd. destruct (find_split _ o Hnd ltac:(set_solver)) as (k1 & k2 & E & Ef).
  rewrite Ef. do 2 f_equal. apply list_find_Some in Ef as (Hk & _ & Hb).
  destruct (lt_eq_lt_dec (length k1) (length l1)) as [[Hlt|Heq]|Hgt]; [|done|].
  - eapply NoDup_lookup in Hnd; [symmetry; exact Hnd| |]; rewrite list_lookup_fmap;
      [by rewrite list_lookup_middle|by rewrite Hk].
  - eapply NoDup_lookup in Hnd; [symmetry; exact Hnd| |]; rewrite list_lookup_fmap;
      [by rewrite list_lookup_middle|by rewrite Hk].
Qed.

(** A message with spaces cannot be typed: each change of the input is trimmed and shown
    back, so that after the units of a text were typed one after the other into the empty input
    of a [return_error] row, its message is the text without any of its white space (unless the
    text begins like a JSON object). *)
Theorem typed_message_loses_spaces d l1 o l2 cs :
  ops d = l1 ++ o :: l2 -> NoDup (o_id <$> ops d) -> o_value_text o = [] ->
  head (solid_units cs) <> Some 123%N ->
  shown_message (o_id o) (fold_left (type_unit (o_id o)) cs d) = solid_units cs.
Proof.
  intros Hops Hnd Hv Hh.
  enough (H : forall v, solid v -> head v <> Some 123%N -> head (v ++ solid_units cs) <> Some 123%N ->
    forall d, ops d = l1 ++ with_value_text o v :: l2 ->
    shown_message (o_id o) (fold_left (type_unit (o_id o)) cs d) = v ++ solid_units cs).
  { apply (H []); [constructor|done|done|]. rewrite Hops. do 2 f_equal. destruct o. cbn in Hv. by subst. }
  rewrite Hops in Hnd. clear Hops Hv Hh d.
  assert (Hnd' : forall v, NoDup (o_id <$> l1 ++ with_value_text o v :: l2))
    by (intros v; rewrite fmap_app, fmap_cons in *; exact Hnd).
  assert (Hsh : forall d v, ops d = l1 ++ with_value_text o v :: l2 ->
    shown_message (o_id o) d = d_message (parseReturnErrorDraft v)).
  { intros d v E. pose proof (find_app l1 (with_value_text o v) l2 (Hnd' v)) as Hf.
    change (o_id (with_value_text o v)) with (o_id o) in Hf. unfold shown_message. by rewrite E, Hf. }
  induction cs as [|c cs IH]; intros v Hv Hh Hhc d E.
  - rewrite app_nil_r. cbn. rewrite (Hsh d v E). by rewrite plain_message.
  - change (solid_units (c :: cs)) with (solid_units ([c] ++ cs)) in *.
    unfold solid_units in *. rewrite filterb_app in *. fold (solid_units [c]) (solid_units cs) in *.
    rewrite app_assoc in *. cbn [fold_left]. apply IH; [..|].
    + apply Forall_app. split; [done|apply solid_units_solid].
    + destruct (v ++ solid_units [c]) eqn:Ev; [done|]. by rewrite <- Ev; rewrite Ev in *.
    + done.
    + unfold type_unit, updateReturnErrorDraft. cbn. rewrite E.
      rewrite (map_row_found _ l1 (with_value_text o v) l2) by done.
      do 2 f_equal. rewrite (Hsh d v E). cbn. unfold with_value_text. cbn. f_equal.
      by apply typed_text.
Qed.

Definition error_row : ParamOverrideOperation :=
  Operation (js "e") [] [] (js "return_error") [] [] [] false OR [].

Lemma typed_message_loses_spaces_witness :
  shown_message (js "e") (fold_left (type_unit (js "e")) (js "no access") (dialog_of [error_row]))
  = js "noaccess".
Proof.
  apply (typed_message_loses_spaces (dialog_of [error_row]) [] error_row [] (js "no access")).
  - done.
  - apply NoDup_singleton.
  - done.
  - by vm_compute.
Defined.

(** ** Stored strings that read as JSON *)

(** A stored override with one row, which sets the field [p] to [w] *)
Definition stored_set (p : jsstr) (w : jsval) : jsval :=
  VObj [(js "operations", VArr [VObj
    [(js "mode", VStr SET); (js "path", VStr p); (js "value", w)]])].

(** The row it is read as *)
Definition set_row (id p text : jsstr) : ParamOverrideOperation :=
  Operation id [] p SET [] [] text false OR [].

Lemma set_json_ok p w : json_ok w -> json_ok (stored_set p w).
Proof.
  intros Hw. unfold stored_set. apply json_ok_entry, json_ok_arr, Forall_singleton.
  apply (json_ok_oset (js "value") _ [(js "mode", _); (js "path", _)]); [done|].
  apply (json_ok_oset (js "path") _ [(js "mode", _)]); [done|]. by apply json_ok_entry.
Qed.

Lemma keep_selected_editor d : editor (keep_selected d) = editor d.
Proof. unfold keep_selected. destruct (ops d); [done|]. by destruct (existsb _ _). Qed.

Lemma open_set now prev p s n :
  exists d n', open_dialog now (pretty (stored_set p (VStr s))) prev n = Return (d, n')
    /\ ops d = [set_row (local_id now n) p s]
    /\ e_editMode (editor d) = visual /\ e_visualMode (editor d) = operations.
Proof.
  unfold open_dialog, parseInitialState. cbv zeta.
  assert (Hok : json_ok (stored_set p (VStr s))) by by apply set_json_ok.
  assert (Htr : trim (pretty (stored_set p (VStr s))) = pretty (stored_set p (VStr s)))
    by by apply print_trim.
  rewrite Htr, json_parse_pretty by done.
  assert (Hne : truthy_str (pretty (stored_set p (VStr s))) = true) by done. rewrite Hne. cbn [negb].
  cbv [mbind gen_bind]. eexists _, _. split; [cbn; reflexivity|].
  unfold ops. by rewrite keep_selected_editor.
Qed.

Lemma save_set tr t d id p s :
  trim p = p -> p <> [] -> ops d = [set_row id p s] ->
  e_editMode (editor d) = visual -> e_visualMode (editor d) = operations ->
  save_text tr t d = Built (pretty (stored_set p (parseLooseValue s))).
Proof.
  intros Hp Hne Hops Hm Hv. unfold save_text, buildVisualJson. rewrite Hm, Hv, Hops.
  assert (Hb : truthy_str (trim p) = true) by (rewrite Hp; by apply truthy_str_spec).
  unfold buildOperationsJson, kept_operations. cbn [filterb].
  assert (Hblank : isOperationBlank (set_row id p s) = false).
  { unfold isOperationBlank, set_row. cbn [o_path]. by rewrite Hb. }
  rewrite Hblank. cbn [negb].
  assert (Hok : operation_problem (set_row id p s) = None).
  { unfold operation_problem, set_row. cbn [o_path]. by rewrite Hb. }
  unfold validateOperations. cbn [validate_from]. rewrite Hok. cbn. unfold operations_text, stored_set.
  do 5 f_equal. unfold operation_payload, operation_base. cbn -[parseLooseValue js trim]. by rewrite Hp.
Qed.

(** Opening and saving a stored override can change it: when a row sets a field to a string
    that is itself JSON text, such as the text true or 5, the editor opened on it and saved
    without a change stores the value the string denotes, which is another value. *)
Theorem stored_string_retyped now tr t prev p s v n :
  trim p = p -> p <> [] -> json_parse (trim s) = Some v -> json_ok v ->
  exists d n', open_dialog now (pretty (stored_set p (VStr s))) prev n = Return (d, n')
    /\ save_text tr t d = Built (pretty (stored_set p v))
    /\ pretty (stored_set p v) <> pretty (stored_set p (VStr s)).
Proof.
  intros Hp Hne Hv Hok. destruct (open_set now prev p s n) as (d & n' & E & Hops & Hm & Hvm).
  exists d, n'. split; [exact E|].
  assert (El : parseLooseValue s = v).
  { rewrite <- parse_loose_trim. apply parse_loose_json; [apply trim_idemp|done]. }
  split; [rewrite <- El; by eapply save_set|].
  intros Heq. apply (f_equal json_parse) in Heq. rewrite !json_parse_pretty in Heq by by apply set_json_ok.
  injection Heq as ->. apply json_parse_str_shorter in Hv. pose proof (trim_length s). lia.
Qed.

Lemma stored_string_retyped_witness :
  exists d n', open_dialog no_clock (pretty (stored_set (js "seed") (VStr (js "5")))) closed_dialog 0%N
      = Return (d, n')
    /\ save_text same_text some_message d
       = Built (pretty (stored_set (js "seed") (VNum (num_of_Z 5)))).
Proof.
  destruct (stored_string_retyped no_clock same_text some_message closed_dialog (js "seed") (js "5")
    (VNum (num_of_Z 5)) 0) as (d & n' & Ho & Hs & _).
  - by vm_compute.
  - done.
  - by vm_compute.
  - by split; vm_compute.
  - by exists d, n'.
Defined.

(** ** To the text and back *)

Lemma save_text_editor tr t d d' : editor d = editor d' -> save_text tr t d = save_text tr t d'.
Proof. intros E. unfold save_text, buildVisualJson, ops. by rewrite E. Qed.

Lemma save_json tr t d v :
  e_editMode (editor d) = json -> json_parse (trim (e_jsonText (editor d))) = Some v ->
  save_text tr t d = Built (pretty v).
Proof.
  intros Hm Hp. unfold save_text. rewrite Hm, Hp. destruct (trim _) eqn:E; [|done].
  rewrite json_parse_blank in Hp by constructor. done.
Qed.

(** The rows read from the text built from checked rows are saved as that text. *)
Lemma switched_saves now tr t d n k :
  (forall key line, t key line <> []) -> k <> [] -> Forall row_ok k -> Forall steady_row k ->
  Forall (fun o => operation_problem o = None) k ->
  e_editMode (editor d) = json -> e_jsonText (editor d) = operations_text k ->
  exists d' n', switchToVisualMode now tr d n = Return (d', n')
    /\ e_editMode (editor d') = visual /\ save_text tr t d' = Built (operations_text k).
Proof.
  intros Ht Hk Hok Hs Hp Hm Hj. destruct (operations_text_ok k Hs) as (_ & Hparse & Htr & Hne).
  destruct (read_rows now k n Hk Hok) as (k' & n' & E & H2).
  destruct (rereads_same _ _ H2 Hok Hs Hp) as (Htext & Hok' & Hp').
  unfold switchToVisualMode. rewrite Hm, Hj, Htr, Hparse, (proj2 (truthy_str_spec _) Hne). cbn [negb].
  change (operations_of _) with (Some ((fun o => VObj (operation_payload o)) <$> k)).
  cbv [mbind gen_bind]. rewrite E. cbn [obind fst snd]. eexists _, n'. split; [reflexivity|].
  split; [done|]. rewrite <- Htext. apply build_accepted; [done| |done..]. by destruct H2.
Qed.

(** From the rows to the text and back to the rows *)
Definition there_and_back (now : N -> N) tr t (s : Dialog * N) : Dialog * N :=
  act now tr t SwitchToVisual (act now tr t SwitchToJson s).

(** Looking at the JSON text changes nothing: when the visual editor would save a text, the
    text mode it is switched to saves the same text, and so does the visual editor it is
    switched back to (for rows whose values are not strings that look like JSON). *)
Theorem json_mode_round_trip now tr t d n text :
  (forall key line, t key line <> []) ->
  e_editMode (editor d) = visual -> e_visualMode (editor d) = operations ->
  Forall row_ok (ops d) -> Forall steady_row (ops d) ->
  save_text tr t d = Built text -> text <> [] ->
  let s1 := act now tr t SwitchToJson (d, n) in
  let s2 := there_and_back now tr t (d, n) in
  e_editMode (editor (fst s1)) = json /\ save_text tr t (fst s1) = Built text
  /\ e_editMode (editor (fst s2)) = visual /\ save_text tr t (fst s2) = Built text.
Proof.
  intros Ht Hm Hv Hok Hs Hsave Hne. cbv zeta.
  assert (Hb : buildVisualJson tr t d = Built text) by (revert Hsave; unfold save_text; by rewrite Hm).
  pose proof Hb as Hb'. unfold buildVisualJson in Hb'. rewrite Hv in Hb'.
  destruct (build_checked t Ht _ _ Hb') as [[_ ?]|(Hk & Etext & Hp)]; [done|].
  assert (Hs' : Forall steady_row (kept_operations (ops d))) by by apply Forall_filterb.
  assert (Hok' : Forall row_ok (kept_operations (ops d))) by by apply Forall_filterb.
  set (d1 := keep_selected (switchToJsonMode tr t d)).
  assert (E1 : act now tr t SwitchToJson (d, n) = (d1, n)) by done.
  unfold there_and_back. rewrite E1. cbn [fst].
  assert (He : e_editMode (editor d1) = json /\ e_jsonText (editor d1) = text).
  { unfold d1. rewrite keep_selected_editor. unfold switchToJsonMode. rewrite Hm, Hb. done. }
  destruct He as [He Hj]. split; [done|]. split.
  { destruct (operations_text_ok _ Hs') as (_ & Hparse & Htr & _).
    rewrite Etext in Hj |- *. erewrite save_json; [reflexivity|done|]. by rewrite Hj, Htr. }
  rewrite Etext in *. destruct (switched_saves now tr t d1 n _ Ht Hk Hok' Hs' Hp He Hj)
    as (d2 & n2 & E2 & Hm2 & Hsave2).
  assert (Ea : act now tr t SwitchToVisual (d1, n) = (keep_selected d2, n2)).
  { unfold act. cbn [handle fst snd]. by rewrite E2. }
  rewrite Ea. cbn [fst]. rewrite keep_selected_editor. split; [done|].
  rewrite <- Hsave2. apply save_text_editor, keep_selected_editor.
Qed.

Lemma json_mode_round_trip_witness :
  save_text same_text some_message
    (fst (there_and_back no_clock same_text some_message (dialog_of sample_rows, 0%N)))
  = Built (operations_text sample_rows).
Proof.
  apply (json_mode_round_trip no_clock same_text some_message (dialog_of sample_rows) 0).
  - done.
  - done.
  - done.
  - apply sample_rows_ok.
  - apply sample_rows_steady.
  - by vm_compute.
  - by vm_compute.
Defined.
