(* ===== verification/JsSort.v ===== *)
(** * Array.prototype.sort

    The stable sort of the language with a comparison, and the order of code units it uses
    without one. *)

From Stdlib Require Export Sorted.
From S2P Require Import Prelude JsString.

(** [l.sort(compare)]: stable; [after x y] says that [compare(x, y) > 0]. *)
Section Sorting.

Context {A : Type} (after : A -> A -> bool).

Fixpoint sort_insert (x : A) (l : list A) : list A :=
  match l with
  | [] => [x]
  | y :: t => if after x y then y :: sort_insert x t else x :: l
  end.

Definition js_sort (l : list A) : list A := fold_right sort_insert [] l.

End Sorting.

(** The order of code units, used by [l.sort()]. *)
Fixpoint units_after (a b : jsstr) : bool :=
  match a, b with
  | [], _ => false
  | _ :: _, [] => true
  | x :: s, y :: t => if (x =? y)%N then units_after s t else (y <? x)%N
  end.

Lemma units_after_asym s t : units_after s t = true -> units_after t s = false.
Proof.
  revert t; induction s as [|x s IH]; intros [|y t]; simpl; try done.
  rewrite (N.eqb_sym y x). destruct (N.eqb_spec x y); [apply IH|]. rewrite N.ltb_lt, N.ltb_ge. lia.
Qed.

Lemma units_after_trans s t u : units_after s t = false -> units_after t u = false -> units_after s u = false.
Proof.
  revert t u; induction s as [|x s IH]; intros [|y t] [|z u]; simpl; try done.
  destruct (N.eqb_spec x y) as [->|], (N.eqb_spec y z) as [->|];
    try (destruct (N.eqb_spec x z)); try (by apply IH); rewrite ?N.ltb_ge; try lia.
Qed.

Lemma sort_insert_perm {A} (after : A -> A -> bool) x l : sort_insert after x l ≡ₚ x :: l.
Proof.
  induction l as [|y l IH]; simpl; [done|]. destruct (after x y); [|done].
  rewrite IH. apply Permutation_swap.
Qed.

Lemma js_sort_perm {A} (after : A -> A -> bool) l : js_sort after l ≡ₚ l.
Proof. induction l as [|x l IH]; simpl; [done|]. by rewrite sort_insert_perm, IH. Qed.

(** Sorting by a comparison that respects an order of the elements gives a list in this order. *)
Section Ordered.

Context {A : Type} (after : A -> A -> bool) (P : A -> Prop) (R : A -> A -> Prop).
Context (swap : forall x y, P x -> P y -> after x y = true -> R y x).
Context (keep : forall x y, P x -> P y -> after x y = false -> R x y).
Context (trans : forall x y z, R x y -> R y z -> R x z).

Lemma sort_insert_sorted x l :
  P x -> Forall P l -> StronglySorted R l -> StronglySorted R (sort_insert after x l).
Proof.
  intros Hx Hl Hs. induction Hs as [|y l Hs IH Hy]; simpl; [repeat constructor|].
  apply Forall_cons in Hl as [Py Pl]. destruct (after x y) eqn:E.
  - constructor; [by apply IH|]. rewrite sort_insert_perm. constructor; [by apply swap|done].
  - pose proof (keep x y Hx Py E) as Hxy. constructor; [by constructor|]. constructor; [done|].
    apply (Forall_impl _ _ _ Hy). intros z Hz. by apply (trans x y z).
Qed.

Lemma js_sort_sorted l : Forall P l -> StronglySorted R (js_sort after l).
Proof.
  induction 1 as [|x l Hx Hl IH]; simpl; [constructor|]. apply sort_insert_sorted; [done| |done].
  by rewrite js_sort_perm.
Qed.

End Ordered.

(** A sort that only puts some elements before the others keeps the order otherwise. *)
Lemma js_sort_first {A} (p : A -> bool) l :
  js_sort (fun a b => negb (p a) && p b) l = filterb p l ++ filterb (fun a => negb (p a)) l.
Proof.
  induction l as [|x l IH]; simpl; [done|]. rewrite IH. destruct (p x) eqn:E; simpl.
  - destruct (filterb p l) as [|y t]; simpl; [|by rewrite E].
    destruct (filterb _ l) as [|y t] eqn:F; simpl; [done|]. by rewrite E.
  - assert (H : forall k t, Forall (fun a => p a = true) k ->
      sort_insert (fun a b => negb (p a) && p b) x (k ++ filterb (fun a => negb (p a)) t)
      = k ++ x :: filterb (fun a => negb (p a)) t).
    { intros k t Hk. induction Hk as [|y k Hy Hk IHk]; simpl; [|by rewrite E, Hy; simpl; rewrite IHk].
      destruct (filterb _ t) as [|y t'] eqn:F; simpl; [done|].
      assert (Hy : y ∈ filterb (fun a => negb (p a)) t) by (rewrite F; apply list_elem_of_here).
      apply elem_of_filterb in Hy as [Hy _]. apply negb_true_iff in Hy. by rewrite Hy, andb_false_r. }
    apply H, Forall_forall. intros y Hy. apply elem_of_filterb in Hy as [? ?]. done.
Qed.
