(* ===== verification/JsMap.v ===== *)
(** * Map of the language

    A [Map] with texts as keys is the list of its entries, in the order in which the keys
    were first set. *)

From S2P Require Import Prelude JsString.

Section Maps.

Context {A : Type}.

Fixpoint mget (k : jsstr) (m : list (jsstr * A)) : option A :=
  match m with
  | [] => None
  | (j, a) :: t => if bool_decide (k = j) then Some a else mget k t
  end.

(** [m.set(k, a)] *)
Fixpoint mset (k : jsstr) (a : A) (m : list (jsstr * A)) : list (jsstr * A) :=
  match m with
  | [] => [(k, a)]
  | (j, b) :: t => if bool_decide (k = j) then (j, a) :: t else (j, b) :: mset k a t
  end.

(** [m.set(k, f(m.get(k) || d))] *)
Definition mupdate (k : jsstr) (d : A) (f : A -> A) (m : list (jsstr * A)) : list (jsstr * A) :=
  mset k (f (default d (mget k m))) m.

End Maps.

Lemma mget_mset {A} k j (a : A) m :
  mget k (mset j a m) = if bool_decide (k = j) then Some a else mget k m.
Proof.
  induction m as [|[i b] m IH]; simpl; [done|].
  destruct (decide (j = i)) as [->|Hji].
  - rewrite bool_decide_eq_true_2 by done. simpl. by destruct (bool_decide (k = i)).
  - rewrite (bool_decide_eq_false_2 (j = i)) by done. simpl.
    destruct (decide (k = i)) as [->|Hki].
    + rewrite (bool_decide_eq_true_2 (i = i)) by done. by rewrite bool_decide_eq_false_2.
    + by rewrite (bool_decide_eq_false_2 (k = i)).
Qed.

Lemma mget_mupdate {A} k j d (f : A -> A) m :
  mget k (mupdate j d f m) = if bool_decide (k = j) then Some (f (default d (mget j m))) else mget k m.
Proof. apply mget_mset. Qed.

Lemma mset_keys {A} k (a : A) m :
  fst <$> mset k a m = if bool_decide (k ∈ fst <$> m) then fst <$> m else (fst <$> m) ++ [k].
Proof.
  induction m as [|[i b] m IH]; [done|]. csimpl.
  destruct (decide (k = i)) as [->|Hki].
  - rewrite bool_decide_eq_true_2 by done. rewrite bool_decide_eq_true_2 by (by left). done.
  - rewrite (bool_decide_eq_false_2 (k = i)) by done. csimpl. rewrite IH.
    destruct (decide (k ∈ fst <$> m)) as [H|H].
    + by rewrite !bool_decide_eq_true_2 by (by right || done).
    + rewrite !bool_decide_eq_false_2; [done| |done]. intros E. by apply elem_of_cons in E as [?|?].
Qed.

Lemma mset_keys_NoDup {A} k (a : A) m : NoDup (fst <$> m) -> NoDup (fst <$> mset k a m).
Proof.
  intros H. rewrite mset_keys. case_bool_decide as E; [done|].
  apply NoDup_app. split_and!; [done| |apply NoDup_singleton].
  intros x Hx Hk. apply list_elem_of_singleton in Hk as ->. done.
Qed.

Lemma mset_keys_elem {A} x k (a : A) m : x ∈ (fst <$> mset k a m) <-> x ∈ (fst <$> m) \/ x = k.
Proof.
  rewrite mset_keys. case_bool_decide as E.
  - split; [by left|]. by intros [H| ->].
  - rewrite elem_of_app, list_elem_of_singleton. done.
Qed.

Lemma mget_elem {A} k (m : list (jsstr * A)) : k ∈ (fst <$> m) <-> exists a, mget k m = Some a.
Proof.
  induction m as [|[i b] m IH]; csimpl.
  - split; [intros H; by apply elem_of_nil in H|by intros [a H]].
  - rewrite elem_of_cons, IH. destruct (decide (k = i)) as [->|H].
    + rewrite bool_decide_eq_true_2 by done. split; [by exists b|by left].
    + rewrite bool_decide_eq_false_2 by done. split; [by intros [?|?]|by right].
Qed.

(** A map with distinct keys is what its keys look up. *)
Lemma map_lookups {A B} (g : jsstr -> A -> B) (m : list (jsstr * A)) d :
  NoDup (fst <$> m) ->
  (fun kv => g (fst kv) (snd kv)) <$> m = (fun k => g k (default d (mget k m))) <$> (fst <$> m).
Proof.
  induction m as [|[i b] m IH]; csimpl; intros H; [done|]. apply NoDup_cons in H as [Hi H].
  rewrite bool_decide_eq_true_2 by done. f_equal. rewrite (IH H). apply list_fmap_ext.
  intros n k Hk. rewrite bool_decide_eq_false_2; [done|].
  intros ->. apply Hi. by apply list_elem_of_lookup_2 in Hk.
Qed.
