(* ===== verification/FloatError.v ===== *)
(** * Rounding error of JavaScript arithmetic

    The value of a positive number as a rational, and the error of one product or
    quotient: each is within one part in [2^53] of the exact result as long as that result
    is far from the ends of the exponent range.  Integers below [2^53] are exact, and
    [Math.round] recovers an integer from anything closer than a half. *)

From Stdlib Require Import QArith Qpower Lqa.
From S2P Require Import Prelude JsString JsNumber.

#[local] Open Scope Z_scope.

(** ** Powers of two and values *)

Definition pow2 (e : Z) : Q := Qpower 2 e.
Definition qz (z : Z) : Q := inject_Z z.

(** The value of the positive number with mantissa [m] and exponent [e]. *)
Definition value (m e : Z) : Q := (qz m * pow2 e)%Q.

Lemma pow2_pos e : (0 < pow2 e)%Q.
Proof. apply Qpower_0_lt. reflexivity. Qed.

Lemma pow2_add a b : (pow2 (a + b) == pow2 a * pow2 b)%Q.
Proof. apply Qpower_plus. discriminate. Qed.

Lemma pow2_Z n : 0 <= n -> (pow2 n == qz (2 ^ n))%Q.
Proof. intros Hn. unfold pow2, qz. rewrite (Zpower_Qpower 2 n Hn). reflexivity. Qed.

Lemma pow2_le a b : a <= b -> (pow2 a <= pow2 b)%Q.
Proof. intros H. apply Qpower_le_compat_l; [done|]. discriminate. Qed.

Lemma pow2_lt_inv a b : (pow2 a < pow2 b)%Q -> a < b.
Proof. intros H. apply (Qpower_lt_compat_l_inv 2); [done|]. reflexivity. Qed.

Lemma qz_add a b : (qz (a + b) == qz a + qz b)%Q.
Proof. unfold qz. by rewrite inject_Z_plus. Qed.

Lemma qz_mul a b : (qz (a * b) == qz a * qz b)%Q.
Proof. unfold qz. by rewrite inject_Z_mult. Qed.

Lemma qz_lt a b : (qz a < qz b)%Q <-> a < b.
Proof. unfold qz. by rewrite Zlt_Qlt. Qed.

Lemma qz_le a b : (qz a <= qz b)%Q <-> a <= b.
Proof. unfold qz. by rewrite Zle_Qle. Qed.

Lemma qz_opp a : (qz (- a) == - qz a)%Q.
Proof. unfold qz. by rewrite inject_Z_opp. Qed.

Lemma qz_one : (qz 1 == 1)%Q.
Proof. reflexivity. Qed.

(** ** The number of binary digits *)

Lemma digits_bounds p : 2 ^ (Zdigits2 (Zpos p) - 1) <= Zpos p < 2 ^ Zdigits2 (Zpos p).
Proof.
  simpl. induction p as [p IH|p IH|]; simpl digits2_pos; rewrite ?Pos2Z.inj_succ;
    [| |by split].
  all: replace (Z.succ (Z.pos (digits2_pos p)) - 1) with (Z.succ (Zpos (digits2_pos p) - 1)) by lia;
    rewrite !Z.pow_succ_r by lia; lia.
Qed.

Lemma digits_unique p d : 0 < d -> 2 ^ (d - 1) <= Zpos p < 2 ^ d -> Zdigits2 (Zpos p) = d.
Proof.
  intros Hd [H1 H2]. pose proof (digits_bounds p) as [H3 H4].
  remember (Zdigits2 (Zpos p)) as k eqn:Ek.
  destruct (Z.lt_trichotomy k d) as [L|[->|L]]; [|done|].
  - pose proof (Z.pow_le_mono_r 2 k (d - 1)). lia.
  - pose proof (Z.pow_le_mono_r 2 d (k - 1)). lia.
Qed.

(** ** What a shifted mantissa stands for *)

(** The exact quantity a mantissa with its round and sticky bits describes. *)
Definition shows (r : shr_record) (v : Q) : Prop :=
  let m := qz (shr_m r) in
  match shr_r r, shr_s r with
  | false, false => (v == m)%Q
  | false, true => (m < v /\ v < m + (1#2))%Q
  | true, false => (v == m + (1#2))%Q
  | true, true => (m + (1#2) < v /\ v < m + 1)%Q
  end.

#[export] Instance shows_proper r : Proper (Qeq ==> iff) (shows r).
Proof.
  intros v w E. unfold shows. destruct (shr_r r), (shr_s r); rewrite E; done.
Qed.

Lemma qz_xO p : (qz (Zpos p~0) == 2 * qz (Zpos p))%Q.
Proof. rewrite Pos2Z.inj_xO, qz_mul. reflexivity. Qed.

Lemma qz_xI p : (qz (Zpos p~1) == 2 * qz (Zpos p) + 1)%Q.
Proof. rewrite Pos2Z.inj_xI, qz_add, qz_mul. reflexivity. Qed.

Lemma shr_1_shows r v :
  0 <= shr_m r -> shows r v -> shows (shr_1 r) (v * (1#2))%Q /\ 0 <= shr_m (shr_1 r).
Proof.
  intros Hm H. destruct r as [[|[p|p|]|p] [] []]; simpl in Hm; try lia;
    unfold shows in *; simpl in *; (split; [|lia]);
    rewrite ?qz_xI, ?qz_xO in H; unfold qz in *; simpl in *;
    change (inject_Z 0) with 0%Q in *; change (inject_Z 1) with 1%Q in *; try lra.
Qed.

Lemma iter_pos_nat {A} (f : A -> A) p x : iter_pos f p x = Nat.iter (Pos.to_nat p) f x.
Proof.
  revert x; induction p as [p IH|p IH|]; intros x; [| |done].
  - simpl iter_pos. rewrite !IH, <- Nat.iter_add, <- Nat.iter_succ_r. f_equal. lia.
  - simpl iter_pos. rewrite !IH, <- Nat.iter_add. f_equal. lia.
Qed.

Lemma shr_nat_shows n r v :
  0 <= shr_m r -> shows r v ->
  shows (Nat.iter n shr_1 r) (v * pow2 (- Z.of_nat n))%Q /\ 0 <= shr_m (Nat.iter n shr_1 r).
Proof.
  intros Hm H. induction n as [|n IH].
  - simpl. split; [|done]. change (pow2 (-0)) with 1%Q. by rewrite Qmult_1_r.
  - simpl Nat.iter. destruct IH as [I1 I2].
    destruct (shr_1_shows _ _ I2 I1) as [J1 J2]. split; [|done].
    replace (- Z.of_nat (S n)) with (- Z.of_nat n + -1) by lia.
    rewrite pow2_add, Qmult_assoc. exact J1.
Qed.

Lemma shr_shows r e n v :
  0 <= n -> 0 <= shr_m r -> shows r v ->
  exists r', shr r e n = (r', e + n) /\ shows r' (v * pow2 (- n))%Q /\ 0 <= shr_m r'.
Proof.
  intros Hn Hm H. destruct n as [|p|p]; [| |lia].
  - exists r. simpl. rewrite Z.add_0_r. split; [done|]. split; [|done].
    change (pow2 (-0)) with 1%Q. by rewrite Qmult_1_r.
  - exists (iter_pos shr_1 p r). split; [done|]. rewrite iter_pos_nat.
    destruct (shr_nat_shows (Pos.to_nat p) r v Hm H) as [I1 I2].
    by rewrite positive_nat_Z in I1.
Qed.

Lemma shows_floor r v : shows r v -> (qz (shr_m r) <= v /\ v < qz (shr_m r) + 1)%Q.
Proof. unfold shows. destruct (shr_r r), (shr_s r); intros; lra. Qed.

Lemma shows_nearest r v (k := round_nearest_even (shr_m r) (loc_of_shr_record r)) :
  shows r v -> (v - (1#2) <= qz k /\ qz k <= v + (1#2))%Q.
Proof.
  subst k. destruct r as [m [] []]; unfold shows; simpl; try destruct (Z.even m); simpl;
    rewrite ?qz_add, ?qz_one; intros; lra.
Qed.

Lemma nearest_le m l : m <= round_nearest_even m l <= m + 1.
Proof. destruct l as [|[]]; simpl; try destruct (Z.even m); lia. Qed.

(** ** Rounding once *)

(** A positive number with all 53 digits. *)
Definition full (x : num) : Prop :=
  exists m e, x = S754_finite false m e /\ Zdigits2 (Zpos m) = 53 /\ -1074 <= e <= 971.

(** The value of a positive number; zero otherwise. *)
Definition numq (x : num) : Q :=
  match x with S754_finite false m e => value (Zpos m) e | _ => 0%Q end.

(** One part in [2^53]. *)
Definition ulp : Q := pow2 (-53).

Lemma fexp_full d e : -1021 <= d + e -> fexp prec emax (d + e) = d + e - 53.
Proof. unfold fexp, emin, prec, emax. lia. Qed.

Lemma shr_fexp_full m e l d :
  Zdigits2 m = d -> -1021 <= d + e ->
  shr_fexp prec emax m e l = shr (shr_record_of_loc m l) e (d - 53).
Proof. intros <- H. unfold shr_fexp. rewrite fexp_full by done. f_equal. lia. Qed.

Lemma shr_m_of_loc m l : shr_m (shr_record_of_loc m l) = m.
Proof. by destruct l as [|[]]. Qed.

(** The quantity after the shift that leaves 53 digits. *)
Lemma shifted_range p v d :
  Zdigits2 (Zpos p) = d -> 53 <= d -> (qz (Zpos p) <= v /\ v < qz (Zpos p) + 1)%Q ->
  (qz (2 ^ 52) <= v * pow2 (- (d - 53)) /\ v * pow2 (- (d - 53)) < qz (2 ^ 53))%Q.
Proof.
  intros Hd Hd53 [H1 H2]. pose proof (digits_bounds p) as [B1 B2]. rewrite Hd in B1, B2.
  assert (E1 : (v * pow2 (- (d - 53)) * pow2 (d - 53) == v)%Q).
  { rewrite <- Qmult_assoc, <- pow2_add.
    replace (- (d - 53) + (d - 53)) with 0 by lia. change (pow2 0) with 1%Q. ring. }
  pose proof (pow2_pos (d - 53)) as Hp.
  assert (V1 : (qz (2 ^ 52) * pow2 (d - 53) <= v)%Q).
  { rewrite pow2_Z, <- qz_mul, <- Z.pow_add_r by lia. apply Qle_trans with (qz (Zpos p)); [|done].
    apply qz_le. by replace (52 + (d - 53)) with (d - 1) by lia. }
  assert (V2 : (v < qz (2 ^ 53) * pow2 (d - 53))%Q).
  { rewrite pow2_Z, <- qz_mul, <- Z.pow_add_r by lia.
    apply Qlt_le_trans with (qz (Zpos p) + 1)%Q; [done|].
    rewrite <- qz_one, <- qz_add. apply qz_le. replace (53 + (d - 53)) with d by lia. lia. }
  rewrite <- E1 in V1, V2. split.
  - by apply Qmult_le_r in V1.
  - by apply Qmult_lt_r in V2.
Qed.

(** A whole number between [2^52] and [2^53] becomes a mantissa. *)
Lemma renormalised k e :
  2 ^ 52 <= k <= 2 ^ 53 -> -1074 <= e <= 970 ->
  exists m e', shr_fexp prec emax k e loc_Exact = (Build_shr_record (Zpos m) false false, e')
    /\ Zdigits2 (Zpos m) = 53 /\ -1074 <= e' <= 971 /\ (value (Zpos m) e' == value k e)%Q.
Proof.
  intros Hk He. destruct (Z.eq_dec k (2 ^ 53)) as [->|Hne].
  - exists (2 ^ 52)%positive, (e + 1). rewrite (shr_fexp_full _ _ _ 54) by (done || lia).
    split; [done|]. split; [done|]. split; [lia|].
    unfold value. rewrite pow2_add. change (pow2 1) with 2%Q.
    change (qz (2 ^ 53)) with (qz (2 * 2 ^ 52)). rewrite qz_mul.
    change (Z.pos (2 ^ 52)) with (2 ^ 52). change (qz 2) with 2%Q. ring.
  - destruct k as [|p|p]; [lia| |lia]. exists p, e.
    assert (Hd : Zdigits2 (Zpos p) = 53) by (apply digits_unique; [done|]; simpl Z.sub; lia).
    rewrite (shr_fexp_full _ _ _ 53) by (done || lia). rewrite Z.sub_diag.
    repeat split; try done; lia.
Qed.

Lemma rounding_error v u :
  (qz (2 ^ 52) <= v)%Q -> (v - (1#2) <= u /\ u <= v + (1#2))%Q ->
  (v * (1 - ulp) <= u /\ u <= v * (1 + ulp))%Q.
Proof.
  intros H1 [H2 H3]. assert (E : (qz (2 ^ 52) * ulp == 1#2)%Q) by reflexivity.
  pose proof (pow2_pos (-53)) as Hu. fold ulp in Hu.
  assert (qz (2 ^ 52) * ulp <= v * ulp)%Q by (apply Qmult_le_compat_r; lra).
  lra.
Qed.

Lemma scaled_between w u c a b :
  (0 <= c)%Q -> (w * a <= u /\ u <= w * b)%Q ->
  (w * c * a <= u * c /\ u * c <= w * c * b)%Q.
Proof.
  intros Hc [H1 H2].
  apply (Qmult_le_compat_r _ _ c) in H1; [|done]. apply (Qmult_le_compat_r _ _ c) in H2; [|done].
  assert (E : forall x, (w * c * x == w * x * c)%Q) by (intros; ring).
  by rewrite !E.
Qed.

Theorem round_once s p ex l v d :
  shows (shr_record_of_loc (Zpos p) l) v -> Zdigits2 (Zpos p) = d -> 53 <= d ->
  -1021 <= d + ex <= 1023 ->
  exists m e, binary_round_aux prec emax s (Zpos p) ex l = S754_finite s m e
    /\ Zdigits2 (Zpos m) = 53 /\ -1074 <= e <= 971
    /\ (v * pow2 ex * (1 - ulp) <= value (Zpos m) e
        /\ value (Zpos m) e <= v * pow2 ex * (1 + ulp))%Q.
Proof.
  intros Hv Hd Hd53 Hr. unfold binary_round_aux.
  rewrite (shr_fexp_full _ _ _ d Hd) by lia.
  pose proof (shifted_range p v d Hd Hd53) as R.
  destruct (shr_shows (shr_record_of_loc (Zpos p) l) ex (d - 53) v) as (r' & -> & S1 & S2);
    [lia|by rewrite shr_m_of_loc|done|].
  specialize (R ltac:(pose proof (shows_floor _ _ Hv) as F; by rewrite shr_m_of_loc in F)).
  set (w := (v * pow2 (- (d - 53)))%Q) in *.
  pose proof (shows_floor _ _ S1) as F. pose proof (shows_nearest _ _ S1) as N.
  pose proof (nearest_le (shr_m r') (loc_of_shr_record r')) as L.
  set (k := round_nearest_even (shr_m r') (loc_of_shr_record r')) in *.
  assert (2 ^ 52 < shr_m r' + 1).
  { apply qz_lt. rewrite qz_add, qz_one. lra. }
  assert (shr_m r' < 2 ^ 53) by (apply qz_lt; lra).
  destruct (renormalised k (ex + (d - 53))) as (m & e' & -> & D & E & V); [lia|lia|].
  exists m, e'. simpl shr_m. rewrite (proj2 (Z.leb_le e' (emax - prec))) by (unfold emax, prec; lia).
  split; [done|]. split; [done|]. split; [done|]. rewrite V. unfold value.
  assert (W : (v * pow2 ex == w * pow2 (ex + (d - 53)))%Q).
  { subst w. rewrite <- Qmult_assoc, <- pow2_add.
    by replace (- (d - 53) + (ex + (d - 53))) with ex by lia. }
  rewrite W. pose proof (rounding_error w (qz k) (proj1 R) N).
  by apply scaled_between; [apply Qlt_le_weak, pow2_pos|].
Qed.

(** ** Products and quotients *)

(** Far from both ends of the exponent range. *)
Definition mid (v : Q) : Prop := (pow2 (-1000) <= v /\ v <= pow2 1000)%Q.

#[export] Instance mid_proper : Proper (Qeq ==> iff) mid.
Proof. intros v w E. unfold mid. by rewrite E. Qed.

(** [u] is [v] up to the factors [a] and [b]. *)
Definition between (a b v u : Q) : Prop := (v * a <= u /\ u <= v * b)%Q.

#[export] Instance between_proper : Proper (Qeq ==> Qeq ==> Qeq ==> Qeq ==> iff) between.
Proof. intros a a' E1 b b' E2 v v' E3 u u' E4. unfold between. by rewrite E1, E2, E3, E4. Qed.

Lemma digits_value p v e :
  (qz (Zpos p) <= v /\ v < qz (Zpos p) + 1)%Q ->
  (pow2 (Zdigits2 (Zpos p) + e - 1) <= v * pow2 e /\ v * pow2 e < pow2 (Zdigits2 (Zpos p) + e))%Q.
Proof.
  intros [H1 H2]. pose proof (digits_bounds p) as [B1 B2].
  assert (Hd : 0 < Zdigits2 (Zpos p)) by (simpl; lia). revert Hd B1 B2.
  generalize (Zdigits2 (Zpos p)) as d. intros d Hd B1 B2.
  replace (d + e - 1) with (d - 1 + e) by lia. rewrite !pow2_add.
  rewrite (pow2_Z (d - 1)), (pow2_Z d) by lia.
  pose proof (pow2_pos e) as P. split.
  - apply Qmult_le_compat_r; [|lra]. apply Qle_trans with (qz (Zpos p)); [by apply qz_le|done].
  - apply Qmult_lt_compat_r; [done|]. apply Qlt_le_trans with (qz (Zpos p) + 1)%Q; [done|].
    rewrite <- qz_one, <- qz_add. apply qz_le. lia.
Qed.

Lemma round_mid p ex l v :
  shows (shr_record_of_loc (Zpos p) l) v -> 53 <= Zdigits2 (Zpos p) -> mid (v * pow2 ex) ->
  full (binary_round_aux prec emax false (Zpos p) ex l)
  /\ between (1 - ulp) (1 + ulp) (v * pow2 ex) (numq (binary_round_aux prec emax false (Zpos p) ex l)).
Proof.
  intros Hv Hd [M1 M2]. pose proof (shows_floor _ _ Hv) as F. rewrite shr_m_of_loc in F.
  destruct (digits_value p v ex F) as [D1 D2].
  assert (Zdigits2 (Zpos p) + ex - 1 < 1001).
  { apply pow2_lt_inv. apply Qle_lt_trans with (pow2 1000); [lra|reflexivity]. }
  assert (-1000 < Zdigits2 (Zpos p) + ex) by (apply pow2_lt_inv; lra).
  destruct (round_once false p ex l v _ Hv eq_refl Hd ltac:(lia)) as (m & e & -> & K1 & K2 & K3).
  split; [by exists m, e|]. done.
Qed.

Lemma numq_full m e : numq (S754_finite false m e) = value (Zpos m) e.
Proof. done. Qed.

Lemma product_value mx ex my ey :
  Zdigits2 (Zpos mx) = 53 -> Zdigits2 (Zpos my) = 53 ->
  (value (Zpos mx) ex * value (Zpos my) ey == qz (Zpos (mx * my)) * pow2 (ex + ey))%Q
  /\ 53 <= Zdigits2 (Zpos (mx * my)).
Proof.
  intros Dx Dy. split.
  { unfold value. rewrite pow2_add, Pos2Z.inj_mul, qz_mul. ring. }
  pose proof (digits_bounds mx) as Bx. pose proof (digits_bounds my) as By.
  pose proof (digits_bounds (mx * my)) as [_ B]. rewrite Dx in Bx. rewrite Dy in By.
  destruct (Z.lt_ge_cases (Zdigits2 (Zpos (mx * my))) 53) as [L|L]; [|done].
  pose proof (Z.pow_le_mono_r 2 (Zdigits2 (Zpos (mx * my))) 53). nia.
Qed.

Theorem nmul_error x y :
  full x -> full y -> mid (numq x * numq y) ->
  full (nmul x y) /\ between (1 - ulp) (1 + ulp) (numq x * numq y) (numq (nmul x y)).
Proof.
  intros (mx & ex & -> & Dx & Ex) (my & ey & -> & Dy & Ey). rewrite !numq_full.
  destruct (product_value mx ex my ey Dx Dy) as [V L].
  intros M. rewrite V in M |- *. by apply round_mid.
Qed.

Lemma qz_pos_neq n : 0 < n -> ~ (qz n == 0)%Q.
Proof. intros H E. assert (qz 0 < qz n)%Q by (by apply qz_lt). change (qz 0) with 0%Q in *. lra. Qed.

Lemma frac_lt k n a : 0 < n -> (qz k < a * qz n)%Q -> (qz k / qz n < a)%Q.
Proof. intros Hn H. apply Qlt_shift_div_r; [by apply (qz_lt 0)|done]. Qed.

Lemma frac_gt k n a : 0 < n -> (a * qz n < qz k)%Q -> (a < qz k / qz n)%Q.
Proof. intros Hn H. apply Qlt_shift_div_l; [by apply (qz_lt 0)|done]. Qed.

Lemma new_location_eq n k :
  new_location n k
  = if k =? 0 then loc_Exact
    else loc_Inexact (if Z.even n then 2 * k ?= n
                      else match 2 * k + 1 ?= n with Gt => Gt | _ => Lt end).
Proof.
  transitivity (if Z.even n then (if k =? 0 then loc_Exact else loc_Inexact (2 * k ?= n))
                else (if k =? 0 then loc_Exact
                      else loc_Inexact match 2 * k + 1 ?= n with Gt => Gt | _ => Lt end)).
  - unfold new_location, new_location_even, new_location_odd.
    destruct (Z.even n); [done|]. by destruct (2 * k + 1 ?= n).
  - by destruct (k =? 0), (Z.even n).
Qed.

Lemma inexact_shows q c v :
  (qz q < v /\ v < qz q + 1)%Q -> (c = Lt <-> v < qz q + (1#2))%Q -> (c = Gt <-> qz q + (1#2) < v)%Q ->
  shows (shr_record_of_loc q (loc_Inexact c)) v.
Proof.
  intros H [L1 L2] [G1 G2]. unfold shows. destruct c; simpl.
  - destruct (Q_dec v (qz q + (1#2))) as [[D|D]|D]; [by apply L2 in D|by apply G2 in D|done].
  - specialize (L1 eq_refl). lra.
  - specialize (G1 eq_refl). lra.
Qed.

(** The remainder of a division says where the quotient lies between two integers. *)
Lemma new_location_shows q n k :
  0 < n -> 0 <= k < n ->
  shows (shr_record_of_loc q (new_location n k)) (qz q + qz k / qz n)%Q.
Proof.
  intros Hn Hk. rewrite new_location_eq. destruct (Z.eqb_spec k 0) as [->|Hk0].
  { unfold shows; simpl. unfold Qdiv. change (qz 0) with 0%Q. ring. }
  assert (E2 : (qz (2 * k) == 2 * qz k)%Q) by apply qz_mul.
  assert (N : (0 < qz n)%Q) by (by apply (qz_lt 0)).
  assert (Hlt : (qz k / qz n < 1#2)%Q <-> 2 * k < n).
  { rewrite <- qz_lt, E2. split; intros H.
    - apply (Qmult_lt_r _ _ (qz n)) in H; [|done].
      assert (E : (qz k / qz n * qz n == qz k)%Q) by (field; lra). lra.
    - apply frac_lt; [done|]. lra. }
  assert (Hgt : (1#2 < qz k / qz n)%Q <-> n < 2 * k).
  { rewrite <- qz_lt, E2. split; intros H.
    - apply (Qmult_lt_r _ _ (qz n)) in H; [|done].
      assert (E : (qz k / qz n * qz n == qz k)%Q) by (field; lra). lra.
    - apply frac_gt; [done|]. lra. }
  apply inexact_shows.
  - assert (H1 : (0 < qz k / qz n)%Q) by (apply frac_gt; [done|]; rewrite Qmult_0_l; apply (qz_lt 0); lia).
    assert (H2 : (qz k / qz n < 1)%Q) by (apply frac_lt; [done|]; rewrite Qmult_1_l; apply qz_lt; lia).
    lra.
  - transitivity (2 * k < n); [|rewrite <- Hlt; split; intros; lra].
    destruct (Z.even n) eqn:En; [by rewrite Z.compare_lt_iff|].
    rewrite <- Z.negb_odd in En. apply negb_false_iff, Z.odd_spec in En. destruct En as [h En].
    destruct (Z.compare_spec (2 * k + 1) n); split; intros; try done; lia.
  - transitivity (n < 2 * k); [|rewrite <- Hgt; split; intros; lra].
    destruct (Z.even n) eqn:En; [by rewrite Z.compare_gt_iff|].
    rewrite <- Z.negb_odd in En. apply negb_false_iff, Z.odd_spec in En. destruct En as [h En].
    destruct (Z.compare_spec (2 * k + 1) n); split; intros; try done; lia.
Qed.

Lemma div_core mx ex my ey :
  Zdigits2 (Zpos mx) = 53 -> Zdigits2 (Zpos my) = 53 -> -1021 <= ex - ey ->
  SFdiv_core_binary prec emax (Zpos mx) ex (Zpos my) ey
  = (Zpos mx * 2 ^ 53 / Zpos my, ex - ey - 53,
     new_location (Zpos my) (Zpos mx * 2 ^ 53 mod Zpos my)).
Proof.
  intros Dx Dy H. unfold SFdiv_core_binary. rewrite Dx, Dy.
  replace (53 + ex - (53 + ey)) with (0 + (ex - ey)) by lia. rewrite fexp_full by lia.
  rewrite Z.min_l by lia. replace (ex - ey - (0 + (ex - ey) - 53)) with 53 by lia.
  rewrite Z.shiftl_mul_pow2 by lia. unfold Z.div, Z.modulo.
  destruct (Z.div_eucl _ _). by replace (0 + (ex - ey) - 53) with (ex - ey - 53) by lia.
Qed.

Lemma quotient_digits mx my :
  Zdigits2 (Zpos mx) = 53 -> Zdigits2 (Zpos my) = 53 ->
  exists q, Zpos mx * 2 ^ 53 / Zpos my = Zpos q /\ 53 <= Zdigits2 (Zpos q).
Proof.
  intros Dx Dy. pose proof (digits_bounds mx) as Bx. pose proof (digits_bounds my) as By.
  rewrite Dx in Bx. rewrite Dy in By.
  assert (2 ^ 52 <= Zpos mx * 2 ^ 53 / Zpos my) by (apply Z.div_le_lower_bound; nia).
  destruct (Zpos mx * 2 ^ 53 / Zpos my) as [|q|q]; [lia| |lia]. exists q. split; [done|].
  pose proof (digits_bounds q) as [_ B].
  destruct (Z.lt_ge_cases (Zdigits2 (Zpos q)) 53) as [L|L]; [|done].
  pose proof (Z.pow_le_mono_r 2 (Zdigits2 (Zpos q)) 52). lia.
Qed.

Lemma quotient_value mx ex my ey :
  (value (Zpos mx) ex / value (Zpos my) ey
   == (qz (Zpos mx * 2 ^ 53 / Zpos my)
       + qz (Zpos mx * 2 ^ 53 mod Zpos my) / qz (Zpos my)) * pow2 (ex - ey - 53))%Q.
Proof.
  assert (N : ~ (qz (Zpos my) == 0)%Q) by (by apply qz_pos_neq).
  assert (P : forall e, ~ (pow2 e == 0)%Q) by (intros e E; pose proof (pow2_pos e); lra).
  assert (E : (qz (Zpos mx * 2 ^ 53 / Zpos my) * qz (Zpos my)
               + qz (Zpos mx * 2 ^ 53 mod Zpos my) == qz (Zpos mx) * pow2 53)%Q).
  { rewrite pow2_Z, <- !qz_mul, <- qz_add by lia. rewrite Z.mul_comm.
    by rewrite <- Z_div_mod_eq_full. }
  assert (F : (pow2 ex == pow2 (ex - ey - 53) * pow2 ey * pow2 53)%Q).
  { rewrite <- !pow2_add. by replace (ex - ey - 53 + ey + 53) with ex by lia. }
  unfold value. rewrite F.
  transitivity (qz (Zpos mx) * pow2 53 / qz (Zpos my) * pow2 (ex - ey - 53))%Q.
  - field. auto.
  - rewrite <- E. field. done.
Qed.

Lemma full_pos x : full x -> (0 < numq x)%Q.
Proof.
  intros (m & e & -> & _). unfold numq, value. apply Qmult_lt_0_compat; [by apply (qz_lt 0)|].
  apply pow2_pos.
Qed.

(** The exponents of a quotient in range are not far apart. *)
Lemma quotient_exponents mx ex my ey :
  Zdigits2 (Zpos mx) = 53 -> Zdigits2 (Zpos my) = 53 ->
  (pow2 (-1000) <= value (Zpos mx) ex / value (Zpos my) ey)%Q -> -1021 <= ex - ey.
Proof.
  intros Dx Dy H.
  assert (T : forall p, (qz (Zpos p) <= qz (Zpos p) /\ qz (Zpos p) < qz (Zpos p) + 1)%Q)
    by (intros; lra).
  destruct (digits_value mx _ ex (T mx)) as [_ X]. destruct (digits_value my _ ey (T my)) as [Y _].
  rewrite Dx in X. rewrite Dy in Y. fold (value (Zpos mx) ex) in X. fold (value (Zpos my) ey) in Y.
  assert (Hy : (0 < value (Zpos my) ey)%Q) by (pose proof (pow2_pos (53 + ey - 1)); lra).
  apply (Qmult_le_compat_r _ _ (value (Zpos my) ey)) in H; [|lra].
  assert (E : (value (Zpos mx) ex / value (Zpos my) ey * value (Zpos my) ey == value (Zpos mx) ex)%Q)
    by (field; lra).
  rewrite E in H.
  assert (L : (pow2 (-1000 + (53 + ey - 1)) < pow2 (53 + ex))%Q).
  { apply Qle_lt_trans with (pow2 (-1000) * value (Zpos my) ey)%Q; [|lra].
    rewrite pow2_add, Qmult_comm, (Qmult_comm (pow2 (-1000))).
    apply Qmult_le_compat_r; [done|]. apply Qlt_le_weak, pow2_pos. }
  apply pow2_lt_inv in L. lia.
Qed.

Theorem ndiv_error x y :
  full x -> full y -> mid (numq x / numq y) ->
  full (ndiv x y) /\ between (1 - ulp) (1 + ulp) (numq x / numq y) (numq (ndiv x y)).
Proof.
  intros (mx & ex & -> & Dx & Ex) (my & ey & -> & Dy & Ey). rewrite !numq_full. intros M.
  pose proof (quotient_exponents _ _ _ _ Dx Dy (proj1 M)) as R.
  unfold ndiv, SFdiv. rewrite (div_core _ _ _ _ Dx Dy R). simpl xorb.
  rewrite quotient_value in M |- *.
  destruct (quotient_digits mx my Dx Dy) as (q & E & D). rewrite E in M |- *.
  apply round_mid; [|done|done]. apply new_location_shows; [lia|]. apply Z.mod_pos_bound. lia.
Qed.

(** ** Whole numbers *)

Lemma shl_exact p d : 0 < d ->
  exists m, shl_align p 0 (- d) = (m, - d) /\ Zpos m = Zpos p * 2 ^ d.
Proof.
  intros Hd. destruct d as [|k|k]; try lia. exists (Pos.iter xO p k). split; [done|].
  induction k as [|k IH] using Pos.peano_ind; [simpl; lia|].
  rewrite Pos.iter_succ, Pos2Z.inj_succ, Z.pow_succ_r, Pos2Z.inj_xO, IH by lia. lia.
Qed.

Lemma round_exact p e :
  Zdigits2 (Zpos p) = 53 -> -1074 <= e <= 971 ->
  binary_round_aux prec emax false (Zpos p) e loc_Exact = S754_finite false p e.
Proof.
  intros D H. unfold binary_round_aux. rewrite (shr_fexp_full _ _ _ 53 D) by lia.
  rewrite Z.sub_diag. simpl shr. cbv iota beta. simpl shr_m. simpl loc_of_shr_record.
  unfold round_nearest_even. rewrite (shr_fexp_full _ _ _ 53 D) by lia.
  rewrite Z.sub_diag. simpl. by rewrite (proj2 (Z.leb_le e (emax - prec))) by (unfold emax, prec; lia).
Qed.

(** Every positive whole number below [2^53] is a number. *)
Theorem num_of_Z_exact u :
  0 < u < 2 ^ 53 -> full (num_of_Z u) /\ (numq (num_of_Z u) == qz u)%Q.
Proof.
  intros [H1 H2]. destruct u as [|p|p]; try lia. unfold num_of_Z, binary_normalize, binary_round.
  change (Zpos (digits2_pos p)) with (Zdigits2 (Zpos p)).
  pose proof (digits_bounds p) as [B1 B2].
  assert (D0 : 0 < Zdigits2 (Zpos p)) by (simpl; lia).
  assert (D53 : Zdigits2 (Zpos p) <= 53).
  { destruct (Z.le_gt_cases (Zdigits2 (Zpos p)) 53); [done|].
    pose proof (Z.pow_le_mono_r 2 53 (Zdigits2 (Zpos p) - 1)). lia. }
  rewrite fexp_full by lia. revert D0 D53 B1 B2. generalize (Zdigits2 (Zpos p)) as d.
  intros d D0 D53 B1 B2. destruct (Z.eq_dec d 53) as [->|Hd].
  - change (53 + 0 - 53) with 0. change (shl_align p 0 0) with (p, 0). cbv iota beta.
    assert (Hp : Zdigits2 (Zpos p) = 53) by (by apply digits_unique).
    rewrite (round_exact p 0 Hp) by lia.
    split; [by exists p, 0|]. unfold numq, value. change (pow2 0) with 1%Q. ring.
  - destruct (shl_exact p (53 - d) ltac:(lia)) as (m & E & V).
    replace (d + 0 - 53) with (- (53 - d)) by lia. rewrite E. cbv iota beta.
    assert (Hm : Zdigits2 (Zpos m) = 53).
    { apply digits_unique; [done|]. rewrite V.
      replace (2 ^ (53 - 1)) with (2 ^ (d - 1) * 2 ^ (53 - d)) by (rewrite <- Z.pow_add_r by lia; f_equal; lia).
      replace (2 ^ 53) with (2 ^ d * 2 ^ (53 - d)) by (rewrite <- Z.pow_add_r by lia; f_equal; lia).
      assert (0 < 2 ^ (53 - d)) by (apply Z.pow_pos_nonneg; lia). nia. }
    rewrite (round_exact m _ Hm) by lia.
    split; [exists m, (- (53 - d)); repeat split; [done|lia|lia]|].
    unfold numq, value. rewrite V, qz_mul, <- (pow2_Z (53 - d)), <- Qmult_assoc, <- pow2_add by lia.
    replace (53 - d + - (53 - d)) with 0 by lia. change (pow2 0) with 1%Q. ring.
Qed.

(** [Math.round] gives back the integer it is closer to than a half. *)
Theorem math_round_near x u :
  full x -> (qz u - (1#2) < numq x /\ numq x < qz u + (1#2))%Q -> math_round x = num_of_Z u.
Proof.
  intros (m & e & -> & D & _) [H1 H2]. rewrite numq_full in H1, H2. unfold math_round.
  set (z := match e with Zneg q => _ | _ => _ end).
  assert (z = u) as ->; [subst z|destruct (Z.eqb_spec u 0) as [->|]; done].
  unfold value in *. simpl cond_Zopp. destruct e as [|q|q].
  - change (pow2 0) with 1%Q in *. rewrite Z.mul_1_r.
    apply Z.le_antisymm; apply Z.lt_succ_r, qz_lt; unfold Z.succ; rewrite qz_add, qz_one; lra.
  - rewrite pow2_Z, <- qz_mul in H1, H2 by lia.
    apply Z.le_antisymm; apply Z.lt_succ_r, qz_lt; unfold Z.succ; rewrite qz_add, qz_one; lra.
  - pose proof (pow2_pos (Zpos q)) as P.
    assert (E : (qz (Zpos m) == qz (Zpos m) * pow2 (Zneg q) * pow2 (Zpos q))%Q).
    { rewrite <- Qmult_assoc, <- pow2_add. change (Zneg q) with (- Zpos q).
      rewrite Z.add_opp_diag_l. change (pow2 0) with 1%Q. ring. }
    assert (L : (2 * qz (Zpos m) < (2 * qz u + 1) * pow2 (Zpos q)
                 /\ (2 * qz u - 1) * pow2 (Zpos q) < 2 * qz (Zpos m))%Q).
    { rewrite E. revert H1 H2 P. generalize (qz (Zpos m) * pow2 (Zneg q))%Q (pow2 (Zpos q)).
      intros a b H1 H2 P. split; nra. }
    rewrite pow2_Z in L by lia.
    change 2%Q with (qz 2) in L. change 1%Q with (qz 1) in L.
    unfold Qminus in L. rewrite <- qz_opp, <- !qz_mul, <- !qz_add, <- !qz_mul, !qz_lt in L.
    symmetry. apply Z.div_unique with (r := 2 * Zpos m + 2 ^ Zpos q - 2 * 2 ^ Zpos q * u); lia.
Qed.

(** ** Chains of products and quotients *)

(** [v] has the order of magnitude between [2^a] and [2^b]. *)
Definition span (a b : Z) (v : Q) : Prop := (pow2 a <= v /\ v <= pow2 b)%Q.

#[export] Instance span_proper : Proper (eq ==> eq ==> Qeq ==> iff) span.
Proof. intros a ? <- b ? <- v w E. unfold span. by rewrite E. Qed.

Lemma span_pos a b v : span a b v -> (0 < v)%Q.
Proof. intros [H _]. pose proof (pow2_pos a). lra. Qed.

Lemma span_mul a b c d v w : span a b v -> span c d w -> span (a + c) (b + d) (v * w).
Proof.
  intros Hv Hw. pose proof (span_pos _ _ _ Hv). pose proof (span_pos _ _ _ Hw).
  destruct Hv as [V1 V2], Hw as [W1 W2]. pose proof (pow2_pos a). pose proof (pow2_pos b).
  split; rewrite pow2_add.
  - apply Qle_trans with (v * pow2 c)%Q; [apply Qmult_le_compat_r; [done|]; apply Qlt_le_weak, pow2_pos|].
    rewrite !(Qmult_comm v). apply Qmult_le_compat_r; lra.
  - apply Qle_trans with (pow2 b * w)%Q; [apply Qmult_le_compat_r; lra|].
    rewrite !(Qmult_comm (pow2 b)). apply Qmult_le_compat_r; lra.
Qed.

Lemma span_inv a b v : span a b v -> span (- b) (- a) (/ v).
Proof.
  intros Hv. pose proof (span_pos _ _ _ Hv) as P. destruct Hv as [V1 V2].
  assert (E : forall e, (pow2 (- e) == / pow2 e)%Q) by (intros; apply Qpower_opp).
  split; rewrite E.
  - apply Qle_shift_inv_l; [done|].
    rewrite Qmult_comm. apply Qle_shift_div_r; [apply pow2_pos|]. lra.
  - apply Qle_shift_inv_r; [done|].
    rewrite Qmult_comm. apply Qle_shift_div_l; [apply pow2_pos|]. lra.
Qed.

Lemma span_mid a b v : -1000 <= a -> b <= 1000 -> span a b v -> mid v.
Proof.
  intros Ha Hb [V1 V2]. pose proof (pow2_le _ _ Ha). pose proof (pow2_le _ _ Hb). split; lra.
Qed.

Lemma span_rounded a b v u :
  span a b v -> between (1 - ulp) (1 + ulp) v u -> span (a - 1) (b + 1) u.
Proof.
  intros Hv [B1 B2]. pose proof (span_pos _ _ _ Hv) as P. destruct Hv as [V1 V2].
  assert (E : (pow2 a == pow2 (a - 1) * 2)%Q).
  { change 2%Q with (pow2 1). rewrite <- pow2_add. by replace (a - 1 + 1) with a by lia. }
  assert (F : (pow2 (b + 1) == pow2 b * 2)%Q) by (by rewrite pow2_add).
  assert (U : (0 < ulp /\ ulp < 1#2)%Q) by done.
  split; nra.
Qed.

(** One step of a chain: the exact factor, and the number that stands for it. *)
Lemma between_step a b v x c y :
  (0 <= c)%Q -> between a b v x -> between (1 - ulp) (1 + ulp) (x * c) y ->
  between (a * (1 - ulp)) (b * (1 + ulp)) (v * c) y.
Proof.
  intros Hc [B1 B2] [C1 C2]. assert (U : (0 < ulp /\ ulp < 1#2)%Q) by done.
  apply (Qmult_le_compat_r _ _ (c * (1 - ulp))) in B1; [|nra].
  apply (Qmult_le_compat_r _ _ (c * (1 + ulp))) in B2; [|nra].
  split; nra.
Qed.

Lemma nmul_step a b c d lo hi v x y :
  full x -> full y -> span a b (numq x) -> span c d (numq y) ->
  -1000 <= a + c -> b + d <= 1000 -> between lo hi v (numq x) ->
  full (nmul x y) /\ span (a + c - 1) (b + d + 1) (numq (nmul x y))
  /\ between (lo * (1 - ulp)) (hi * (1 + ulp)) (v * numq y) (numq (nmul x y)).
Proof.
  intros Fx Fy Sx Sy L H B. pose proof (span_mul _ _ _ _ _ _ Sx Sy) as S.
  destruct (nmul_error x y Fx Fy (span_mid _ _ _ L H S)) as [F E].
  split; [done|]. split; [by apply (span_rounded _ _ _ _ S)|].
  apply (between_step _ _ _ (numq x)); [|done|done]. apply Qlt_le_weak, (span_pos _ _ _ Sy).
Qed.

Lemma ndiv_step a b c d lo hi v x y :
  full x -> full y -> span a b (numq x) -> span c d (numq y) ->
  -1000 <= a - d -> b - c <= 1000 -> between lo hi v (numq x) ->
  full (ndiv x y) /\ span (a - d - 1) (b - c + 1) (numq (ndiv x y))
  /\ between (lo * (1 - ulp)) (hi * (1 + ulp)) (v / numq y) (numq (ndiv x y)).
Proof.
  intros Fx Fy Sx Sy L H B.
  pose proof (span_mul _ _ _ _ _ _ Sx (span_inv _ _ _ Sy)) as S.
  destruct (ndiv_error x y Fx Fy (span_mid _ _ _ L H S)) as [F E].
  split; [done|]. split; [by apply (span_rounded _ _ _ _ S)|].
  apply (between_step _ _ _ (numq x)); [|done|done].
  apply Qlt_le_weak, (span_pos _ _ _ (span_inv _ _ _ Sy)).
Qed.

(** ** Exact results *)

Lemma value_bounds m e :
  (pow2 (Zdigits2 (Zpos m) + e - 1) <= value (Zpos m) e
   /\ value (Zpos m) e < pow2 (Zdigits2 (Zpos m) + e))%Q.
Proof. apply digits_value. lra. Qed.

Lemma full_inj x y : full x -> full y -> (numq x == numq y)%Q -> x = y.
Proof.
  intros (m & e & -> & D & _) (n & f & -> & G & _). rewrite !numq_full. intros E.
  pose proof (value_bounds m e) as [M1 M2]. pose proof (value_bounds n f) as [N1 N2].
  rewrite D in M1, M2. rewrite G in N1, N2.
  assert (53 + e - 1 < 53 + f) by (apply pow2_lt_inv; lra).
  assert (53 + f - 1 < 53 + e) by (apply pow2_lt_inv; lra).
  assert (f = e) as -> by lia. unfold value in E.
  apply Qmult_inj_r in E; [|pose proof (pow2_pos e); lra].
  assert (Zpos m = Zpos n) as [= ->]; [|done]. apply Z.le_antisymm; apply qz_le; lra.
Qed.

Lemma shows_whole r k : shows r (qz k) -> r = Build_shr_record k false false.
Proof.
  intros H. pose proof (shows_floor _ _ H) as [F1 F2]. rewrite <- qz_one, <- qz_add in F2.
  rewrite qz_le in F1. rewrite qz_lt in F2. assert (E : shr_m r = k) by lia.
  destruct r as [m [] []]; unfold shows in H; simpl in *; subst m; lra || done.
Qed.

Lemma round_whole p ex l v u :
  shows (shr_record_of_loc (Zpos p) l) v -> 53 <= Zdigits2 (Zpos p) ->
  (v * pow2 ex == qz u)%Q -> 0 < u < 2 ^ 53 ->
  binary_round_aux prec emax false (Zpos p) ex l = num_of_Z u.
Proof.
  intros Hv Hd E Hu. pose proof (shows_floor _ _ Hv) as F. rewrite shr_m_of_loc in F.
  destruct (digits_value p v ex F) as [D1 D2]. rewrite E in D1, D2.
  set (d := Zdigits2 (Zpos p)) in *.
  assert (d + ex - 1 < 53).
  { apply pow2_lt_inv. apply Qle_lt_trans with (qz u); [done|].
    rewrite pow2_Z by lia. apply qz_lt. lia. }
  assert (0 < d + ex).
  { apply pow2_lt_inv. apply Qle_lt_trans with (qz u); [|done].
    change (pow2 0) with (qz 1). apply qz_le. lia. }
  unfold binary_round_aux. rewrite (shr_fexp_full _ _ _ d eq_refl) by lia.
  destruct (shr_shows (shr_record_of_loc (Zpos p) l) ex (d - 53) v) as (r' & -> & S1 & _);
    [lia|by rewrite shr_m_of_loc|done|].
  assert (W : (v * pow2 (- (d - 53)) == qz (u * 2 ^ (53 - d - ex)))%Q).
  { rewrite qz_mul, <- pow2_Z, <- E, <- Qmult_assoc, <- pow2_add by lia.
    by replace (ex + (53 - d - ex)) with (- (d - 53)) by lia. }
  pose proof (shifted_range p v d eq_refl Hd F) as R. rewrite W in S1, R.
  apply shows_whole in S1 as ->. simpl shr_m. cbn [loc_of_shr_record round_nearest_even].
  rewrite qz_le, qz_lt in R.
  destruct (renormalised (u * 2 ^ (53 - d - ex)) (ex + (d - 53))) as (m & e' & -> & D & Ee & V);
    [lia|lia|]. simpl shr_m.
  rewrite (proj2 (Z.leb_le e' (emax - prec))) by (unfold emax, prec; lia).
  destruct (num_of_Z_exact u Hu) as [Fu Eu]. apply full_inj; [by exists m, e'|done|].
  rewrite Eu, numq_full, V. unfold value. rewrite <- W, <- E, <- Qmult_assoc, <- pow2_add.
  by replace (- (d - 53) + (ex + (d - 53))) with ex by lia.
Qed.

Lemma whole_mid v u : (v == qz u)%Q -> 0 < u < 2 ^ 53 -> mid v.
Proof.
  intros E H. rewrite E. apply (span_mid 0 53); [done|done|].
  split; [change (pow2 0) with (qz 1)|rewrite pow2_Z by lia]; apply qz_le; lia.
Qed.

Theorem nmul_whole x y u :
  full x -> full y -> (numq x * numq y == qz u)%Q -> 0 < u < 2 ^ 53 -> nmul x y = num_of_Z u.
Proof.
  intros (mx & ex & -> & Dx & Ex) (my & ey & -> & Dy & Ey). rewrite !numq_full. intros E Hu.
  destruct (product_value mx ex my ey Dx Dy) as [V L].
  unfold nmul, SFmul. simpl xorb. apply (round_whole _ _ _ (qz (Zpos (mx * my)))); [done|done| |done].
  by rewrite <- V.
Qed.

Theorem ndiv_whole x y u :
  full x -> full y -> (numq x / numq y == qz u)%Q -> 0 < u < 2 ^ 53 -> ndiv x y = num_of_Z u.
Proof.
  intros (mx & ex & -> & Dx & Ex) (my & ey & -> & Dy & Ey). rewrite !numq_full. intros E Hu.
  pose proof (quotient_exponents _ _ _ _ Dx Dy (proj1 (whole_mid _ _ E Hu))) as R.
  unfold ndiv, SFdiv. rewrite (div_core _ _ _ _ Dx Dy R). simpl xorb.
  rewrite quotient_value in E.
  destruct (quotient_digits mx my Dx Dy) as (q & Q & D). rewrite Q in E |- *.
  refine (round_whole _ _ _ _ _ _ D E Hu). apply new_location_shows; [lia|].
  apply Z.mod_pos_bound. lia.
Qed.

(** Whole numbers multiply and divide as integers do, below [2^53]. *)
Corollary nmul_of_Z a b :
  0 < a -> 0 < b -> a * b < 2 ^ 53 -> nmul (num_of_Z a) (num_of_Z b) = num_of_Z (a * b).
Proof.
  intros Ha Hb H. destruct (num_of_Z_exact a ltac:(nia)) as [Fa Ea].
  destruct (num_of_Z_exact b ltac:(nia)) as [Fb Eb].
  apply nmul_whole; [done|done| |nia]. by rewrite Ea, Eb, qz_mul.
Qed.

Corollary ndiv_of_Z a b :
  0 < a -> 0 < b -> a * b < 2 ^ 53 -> ndiv (num_of_Z (a * b)) (num_of_Z b) = num_of_Z a.
Proof.
  intros Ha Hb H. destruct (num_of_Z_exact (a * b) ltac:(nia)) as [Fa Ea].
  destruct (num_of_Z_exact b ltac:(nia)) as [Fb Eb].
  apply ndiv_whole; [done|done| |nia].
  rewrite Ea, Eb, qz_mul. field. by apply qz_pos_neq.
Qed.

(** ** Comparing *)

Lemma full_compare x y :
  full x -> full y -> SFcompare x y = Some (Qcompare (numq x) (numq y)).
Proof.
  intros (m & e & -> & D & _) (n & f & -> & G & _). rewrite !numq_full. simpl. f_equal.
  pose proof (value_bounds m e) as [M1 M2]. pose proof (value_bounds n f) as [N1 N2].
  rewrite D in M1, M2. rewrite G in N1, N2. symmetry.
  change (Z.compare e f) with (e ?= f). destruct (Z.compare_spec e f) as [->|L|L].
  - change (Pos.compare_cont Eq m n) with (Pos.compare m n). unfold value.
    assert (E : (qz (Zpos m) ?= qz (Zpos n))%Q = (m ?= n)%positive).
    { unfold Qcompare, qz. simpl. by rewrite !Pos.mul_1_r. }
    rewrite <- E. pose proof (pow2_pos f) as P.
    destruct (Qcompare_spec (qz (Zpos m)) (qz (Zpos n))) as [H|H|H].
    + apply Qeq_alt. by rewrite H.
    + apply (proj1 (Qlt_alt _ _)). by apply Qmult_lt_compat_r.
    + apply (proj1 (Qgt_alt _ _)). by apply Qmult_lt_compat_r.
  - apply (proj1 (Qlt_alt _ _)). pose proof (pow2_le (53 + e) (53 + f - 1) ltac:(lia)). lra.
  - apply (proj1 (Qgt_alt _ _)). pose proof (pow2_le (53 + f) (53 + e - 1) ltac:(lia)). lra.
Qed.

Lemma full_leb x y : full x -> full y -> nleb x y = true <-> (numq x <= numq y)%Q.
Proof.
  intros Fx Fy. unfold nleb, SFleb. rewrite (full_compare x y Fx Fy), Qle_alt.
  by destruct (numq x ?= numq y)%Q.
Qed.

Lemma full_ltb x y : full x -> full y -> nltb x y = true <-> (numq x < numq y)%Q.
Proof.
  intros Fx Fy. unfold nltb, SFltb. rewrite (full_compare x y Fx Fy), Qlt_alt.
  by destruct (numq x ?= numq y)%Q.
Qed.

Lemma leb_of_Z a b : 0 < a -> a <= b -> b < 2 ^ 53 -> nleb (num_of_Z a) (num_of_Z b) = true.
Proof.
  intros Ha Hab Hb. destruct (num_of_Z_exact a ltac:(lia)) as [Fa Ea].
  destruct (num_of_Z_exact b ltac:(lia)) as [Fb Eb].
  apply full_leb; [done|done|]. rewrite Ea, Eb. by apply qz_le.
Qed.

(** The integer a mantissa and an exponent stand for. *)
(** Whole numbers compare as they should. *)
Lemma compare_of_Z a b : 0 <= a < 2 ^ 53 -> 0 <= b < 2 ^ 53 ->
  SFcompare (num_of_Z a) (num_of_Z b) = Some (a ?= b).
Proof.
  intros Ha Hb. assert (Hpos : forall u, 0 < u < 2 ^ 53 -> exists m e, num_of_Z u = S754_finite false m e).
  { intros u Hu. destruct (num_of_Z_exact u Hu) as [(m & e & E & _) _]. eauto. }
  destruct (Z.eq_dec a 0) as [->|Ha0], (Z.eq_dec b 0) as [->|Hb0]; [done| | |].
  - destruct (Hpos b ltac:(lia)) as (m & e & ->). by replace (0 ?= b) with Lt by (symmetry; apply Z.compare_lt_iff; lia).
  - destruct (Hpos a ltac:(lia)) as (m & e & ->). by replace (a ?= 0) with Gt by (symmetry; apply Z.compare_gt_iff; lia).
  - destruct (num_of_Z_exact a ltac:(lia)) as [Fa Ea]. destruct (num_of_Z_exact b ltac:(lia)) as [Fb Eb].
    rewrite (full_compare _ _ Fa Fb). f_equal. rewrite Ea, Eb. unfold Qcompare, qz, inject_Z. cbn. by rewrite !Z.mul_1_r.
Qed.

Lemma leb_of_Z_iff a b : 0 <= a < 2 ^ 53 -> 0 <= b < 2 ^ 53 ->
  nleb (num_of_Z a) (num_of_Z b) = (a <=? b).
Proof. intros Ha Hb. unfold nleb, SFleb. by rewrite (compare_of_Z a b Ha Hb). Qed.

Lemma ltb_of_Z_iff a b : 0 <= a < 2 ^ 53 -> 0 <= b < 2 ^ 53 ->
  nltb (num_of_Z a) (num_of_Z b) = (a <? b).
Proof. intros Ha Hb. unfold nltb, SFltb. by rewrite (compare_of_Z a b Ha Hb). Qed.

Lemma value_whole m e u :
  (value (Zpos m) e == qz u)%Q ->
  match e with Zneg q => Zpos m / 2 ^ Zpos q | _ => Zpos m * 2 ^ e end = u.
Proof.
  unfold value. intros E. destruct e as [|q|q].
  - change (pow2 0) with 1%Q in E. rewrite Z.mul_1_r. apply Z.le_antisymm; apply qz_le; lra.
  - rewrite pow2_Z, <- qz_mul in E by lia. apply Z.le_antisymm; apply qz_le; lra.
  - assert (E2 : (qz (Zpos m) == qz (u * 2 ^ Zpos q))%Q).
    { rewrite qz_mul, <- pow2_Z, <- E, <- Qmult_assoc, <- pow2_add by lia.
      change (Zneg q) with (- Zpos q). rewrite Z.add_opp_diag_l. change (pow2 0) with 1%Q. ring. }
    assert (Zpos m = u * 2 ^ Zpos q) as -> by (apply Z.le_antisymm; apply qz_le; lra).
    apply Z.div_mul. lia.
Qed.

(** [Math.floor] leaves whole numbers alone. *)
Lemma math_floor_whole u : 0 < u < 2 ^ 53 -> math_floor (num_of_Z u) = num_of_Z u.
Proof.
  intros Hu. destruct (num_of_Z_exact u Hu) as [(m & e & Eq & _) E].
  rewrite Eq, numq_full in E. rewrite Eq at 1. unfold math_floor. simpl cond_Zopp.
  f_equal. by apply value_whole.
Qed.

(** ** Signs *)

Lemma round_opp m e l :
  binary_round_aux prec emax true m e l = nneg (binary_round_aux prec emax false m e l).
Proof.
  unfold binary_round_aux. destruct (shr_fexp _ _ _ _ _) as [r f].
  destruct (shr_fexp _ _ (round_nearest_even _ _) _ _) as [r' f'].
  destruct (shr_m r'); try done. by destruct (_ <=? _).
Qed.

Lemma nmul_opp x y : full x -> full y -> nmul (nneg x) y = nneg (nmul x y).
Proof. intros (m & e & -> & _) (n & f & -> & _). apply round_opp. Qed.

Lemma ndiv_opp x y : full x -> full y -> ndiv (nneg x) y = nneg (ndiv x y).
Proof.
  intros (m & e & -> & _) (n & f & -> & _). unfold ndiv, SFdiv, nneg, SFopp at 1.
  destruct (SFdiv_core_binary _ _ _ _ _ _) as [[q g] l]. apply round_opp.
Qed.

Lemma num_of_Z_opp u : 0 < u -> num_of_Z (- u) = nneg (num_of_Z u).
Proof.
  intros Hu. destruct u as [|p|p]; try lia. change (- Zpos p) with (Zneg p).
  unfold num_of_Z, binary_normalize, binary_round. destruct (shl_align _ _ _) as [m e].
  apply round_opp.
Qed.

(** ** Sums of whole numbers *)

Lemma iter_xO p k : Zpos (Pos.iter xO p k) = Zpos p * 2 ^ Zpos k.
Proof.
  induction k as [|k IH] using Pos.peano_ind; [simpl; lia|].
  rewrite Pos.iter_succ, Pos2Z.inj_succ, Z.pow_succ_r, Pos2Z.inj_xO, IH by lia. lia.
Qed.

(** Aligning to a smaller exponent keeps the value. *)
Lemma shl_align_value p e f :
  exists m g, shl_align p e f = (m, g) /\ g = Z.min e f
    /\ (value (Zpos m) g == value (Zpos p) e)%Q /\ Zpos m = Zpos p * 2 ^ (e - g).
Proof.
  unfold shl_align. destruct (f - e) as [|k|k] eqn:E.
  - exists p, e. rewrite Z.sub_diag. split_and!; [done|lia|done|lia].
  - exists p, e. rewrite Z.sub_diag. split_and!; [done|lia|done|lia].
  - exists (Pos.iter xO p k), f. split; [done|]. split; [lia|].
    assert (Ek : Zpos k = e - f) by lia. rewrite iter_xO, Ek. split; [|done].
    unfold value. rewrite qz_mul, <- pow2_Z, <- Qmult_assoc, <- pow2_add by lia.
    by replace (e - f + f) with e by lia.
Qed.

Lemma normalize_whole p e u :
  (value (Zpos p) e == qz u)%Q -> 0 < u < 2 ^ 53 ->
  binary_normalize prec emax (Zpos p) e false = num_of_Z u.
Proof.
  intros E Hu. simpl binary_normalize. unfold binary_round.
  change (Zpos (digits2_pos p)) with (Zdigits2 (Zpos p)).
  pose proof (value_bounds p e) as [B1 B2]. rewrite E in B1, B2.
  pose proof (digits_bounds p) as [C1 C2].
  assert (D0 : 0 < Zdigits2 (Zpos p)) by (simpl; lia).
  set (d := Zdigits2 (Zpos p)) in *.
  assert (d + e - 1 < 53).
  { apply pow2_lt_inv. apply Qle_lt_trans with (qz u); [done|]. rewrite pow2_Z by lia.
    apply qz_lt. lia. }
  assert (0 < d + e).
  { apply pow2_lt_inv. apply Qle_lt_trans with (qz u); [|done].
    change (pow2 0) with (qz 1). apply qz_le. lia. }
  rewrite fexp_full by lia.
  destruct (shl_align_value p e (d + e - 53)) as (m & g & -> & Eg & V & M).
  apply (round_whole _ _ _ (qz (Zpos m))); [done| |unfold value in V; by rewrite V|done].
  destruct (Z.le_gt_cases 53 d).
  - assert (g = e) as -> by lia. rewrite Z.sub_diag, Z.mul_1_r in M. by injection M as ->.
  - apply Z.eq_le_incl. symmetry. apply digits_unique; [done|]. rewrite M.
    replace (e - g) with (53 - d) by lia.
    replace (2 ^ (53 - 1)) with (2 ^ (d - 1) * 2 ^ (53 - d)) by (rewrite <- Z.pow_add_r by lia; f_equal; lia).
    replace (2 ^ 53) with (2 ^ d * 2 ^ (53 - d)) by (rewrite <- Z.pow_add_r by lia; f_equal; lia).
    assert (0 < 2 ^ (53 - d)) by (apply Z.pow_pos_nonneg; lia). nia.
Qed.

(** Whole numbers add as integers do, below [2^53]. *)
Theorem nadd_of_Z a b :
  0 <= a -> 0 <= b -> a + b < 2 ^ 53 -> nadd (num_of_Z a) (num_of_Z b) = num_of_Z (a + b).
Proof.
  intros Ha Hb H. destruct (Z.eq_dec a 0) as [->|Ha0].
  { destruct (Z.eq_dec b 0) as [->|Hb0]; [done|].
    destruct (num_of_Z_exact b ltac:(lia)) as [(m & e & E & _) _]. simpl Z.add. by rewrite E. }
  destruct (num_of_Z_exact a ltac:(lia)) as [(m & e & E1 & D1 & R1) V1].
  destruct (Z.eq_dec b 0) as [->|Hb0]; [by rewrite Z.add_0_r, E1|].
  destruct (num_of_Z_exact b ltac:(lia)) as [(n & f & E2 & D2 & R2) V2].
  rewrite E1, numq_full in V1. rewrite E2, numq_full in V2. rewrite E1, E2. unfold nadd, SFadd.
  destruct (shl_align_value m e (Z.min e f)) as (m' & g & Eq1 & Eg & W1 & _).
  destruct (shl_align_value n f (Z.min e f)) as (n' & g' & Eq2 & Eg' & W2 & _).
  rewrite Eq1, Eq2. simpl fst. simpl cond_Zopp.
  assert (g = Z.min e f) as -> by lia. assert (g' = Z.min e f) as -> by lia.
  change (Zpos m' + Zpos n') with (Zpos (m' + n')). apply normalize_whole; [|lia].
  rewrite qz_add, <- V1, <- V2, <- W1, <- W2. unfold value. rewrite Pos2Z.inj_add, qz_add. ring.
Qed.

Lemma num_of_Z_inj a b : 0 <= a < 2 ^ 53 -> 0 <= b < 2 ^ 53 -> num_of_Z a = num_of_Z b -> a = b.
Proof.
  intros Ha Hb E. destruct (Z.eq_dec a 0) as [->|Ha0], (Z.eq_dec b 0) as [->|Hb0]; [done|..].
  - destruct (num_of_Z_exact b ltac:(lia)) as [(m & e & F & _) _]. by rewrite F in E.
  - destruct (num_of_Z_exact a ltac:(lia)) as [(m & e & F & _) _]. by rewrite F in E.
  - destruct (num_of_Z_exact a ltac:(lia)) as [_ V]. destruct (num_of_Z_exact b ltac:(lia)) as [_ W].
    rewrite E in V. apply Z.le_antisymm; apply qz_le; lra.
Qed.

(** Whole numbers subtract as integers do. *)
Theorem nsub_of_Z a b :
  0 <= a -> 0 <= b -> a + b < 2 ^ 53 -> nsub (num_of_Z (a + b)) (num_of_Z b) = num_of_Z a.
Proof.
  intros Ha Hb H. destruct (Z.eq_dec b 0) as [->|Hb0].
  { rewrite Z.add_0_r in *. destruct (Z.eq_dec a 0) as [->|]; [done|].
    destruct (num_of_Z_exact a ltac:(lia)) as [(m & e & E & _) _]. by rewrite E. }
  destruct (num_of_Z_exact (a + b) ltac:(lia)) as [(m & e & E1 & D1 & R1) V1].
  destruct (num_of_Z_exact b ltac:(lia)) as [(n & f & E2 & D2 & R2) V2].
  rewrite E1, numq_full in V1. rewrite E2, numq_full in V2. rewrite E1, E2. unfold nsub, SFsub.
  destruct (shl_align_value m e (Z.min e f)) as (m' & g & Eq1 & Eg & W1 & _).
  destruct (shl_align_value n f (Z.min e f)) as (n' & g' & Eq2 & Eg' & W2 & _).
  rewrite Eq1, Eq2. simpl fst. simpl cond_Zopp.
  assert (g = Z.min e f) as -> by lia. assert (g' = Z.min e f) as -> by lia.
  assert (V : (qz (Zpos m' - Zpos n') * pow2 (Z.min e f) == qz a)%Q).
  { rewrite <- W1 in V1. rewrite <- W2 in V2. unfold value in V1, V2. unfold Z.sub.
    rewrite qz_add, qz_opp. rewrite qz_add in V1. lra. }
  change (Zpos m' + - Zpos n') with (Zpos m' - Zpos n').
  pose proof (pow2_pos (Z.min e f)) as P.
  destruct (Zpos m' - Zpos n') as [|p|p] eqn:D.
  - assert (a = 0) as ->; [|done]. apply Z.le_antisymm; [|lia]. apply qz_le.
    change (qz 0) with 0%Q in *. lra.
  - apply (normalize_whole p (Z.min e f) a V). split; [|lia].
    apply qz_lt. rewrite <- V. change (qz 0) with 0%Q. apply Qmult_lt_0_compat; [by apply (qz_lt 0)|done].
  - exfalso. assert (N : (qz (Zneg p) < 0)%Q) by (by apply (qz_lt _ 0)).
    assert (A : (0 <= qz a)%Q) by (by apply (qz_le 0)). rewrite <- V in A. nra.
Qed.

(** ** The order of numbers *)

Lemma nleb_pos m e n f :
  nleb (S754_finite false m e) (S754_finite false n f) = true <-> e < f \/ e = f /\ (m <= n)%positive.
Proof.
  unfold nleb, SFleb. simpl. change (Pos.compare_cont Eq m n) with (Pos.compare m n).
  destruct (Z.compare_spec e f) as [->|?|?], (Pos.compare_spec m n) as [->|?|?]; intuition (try done; lia).
Qed.

Lemma nleb_neg m e n f :
  nleb (S754_finite true m e) (S754_finite true n f) = true <-> f < e \/ e = f /\ (n <= m)%positive.
Proof.
  unfold nleb, SFleb. simpl. change (Pos.compare_cont Eq m n) with (Pos.compare m n).
  destruct (Z.compare_spec e f) as [->|?|?], (Pos.compare_spec m n) as [->|?|?]; intuition (try done; lia).
Qed.

Lemma nleb_refl x : is_nan x = false -> nleb x x = true.
Proof.
  destruct x as [[]|[]| |[] m e]; try done; intros _; [apply nleb_neg|apply nleb_pos]; lia.
Qed.

Lemma nleb_trans x y z : nleb x y = true -> nleb y z = true -> nleb x z = true.
Proof.
  destruct x as [[]|[]| |[] mx ex], y as [[]|[]| |[] my ey]; try done;
    destruct z as [[]|[]| |[] mz ez]; try done; rewrite ?nleb_pos, ?nleb_neg; lia.
Qed.

Lemma SFcompare_sym x y : SFcompare y x = CompOpp <$> SFcompare x y.
Proof.
  destruct x as [[]|[]| |[] mx ex], y as [[]|[]| |[] my ey]; try done; simpl; f_equal;
    rewrite (Z.compare_antisym ex ey); destruct (ex ?= ey); try done;
    change (Pos.compare_cont Eq ?a ?b) with (Pos.compare a b);
    by rewrite (Pos.compare_antisym mx my), ?CompOpp_involutive.
Qed.

Lemma SFcompare_some x y : is_nan x = false -> is_nan y = false -> exists c, SFcompare x y = Some c.
Proof. intros Hx Hy. destruct x, y; try done; simpl; eauto. Qed.

(** Of two numbers one is at most the other, and a test that fails says the opposite. *)
Lemma nltb_negb x y : is_nan x = false -> is_nan y = false -> nltb x y = negb (nleb y x).
Proof.
  intros Hx Hy. unfold nltb, nleb, SFltb, SFleb. rewrite (SFcompare_sym x y).
  destruct (SFcompare_some x y Hx Hy) as [c ->]. by destruct c.
Qed.

Lemma nltb_nleb x y : nltb x y = true -> nleb x y = true.
Proof. unfold nltb, nleb, SFltb, SFleb. destruct (SFcompare x y) as [[]|]; done. Qed.

(** ** The sign of a difference *)

(** Rounding to the greater exponent never loses a number as a whole. *)
Lemma shr_fexp_pos p e l :
  -1074 <= e -> exists r f, shr_fexp prec emax (Zpos p) e l = (r, f) /\ 0 < shr_m r /\ -1074 <= f.
Proof.
  intros He. unfold shr_fexp. set (d := Zdigits2 (Zpos p)).
  pose proof (digits_bounds p) as [B1 B2]. fold d in B1, B2.
  destruct (Z.le_gt_cases (fexp prec emax (d + e) - e) 0) as [H|H].
  - exists (shr_record_of_loc (Zpos p) l), e. split_and!; [|by rewrite shr_m_of_loc|done].
    by destruct (fexp prec emax (d + e) - e) eqn:E; [| |]; try lia.
  - assert (E : fexp prec emax (d + e) - e = d - 53) by (unfold fexp, emin, prec, emax in *; lia).
    rewrite E. clear E. assert (Hd : 0 < d - 53) by (unfold fexp, emin, prec, emax in *; lia). clear H.
    set (r := shr_record_of_loc (Zpos p) l).
    assert (Hs : exists v, shows r v /\ (qz (Zpos p) <= v)%Q).
    { subst r. destruct l as [|[]]; simpl.
      - exists (qz (Zpos p)). split; [|lra]. unfold shows. simpl. lra.
      - exists (qz (Zpos p) + (1#2))%Q. split; [|lra]. unfold shows. simpl. lra.
      - exists (qz (Zpos p) + (1#4))%Q. split; [|lra]. unfold shows. simpl. lra.
      - exists (qz (Zpos p) + (3#4))%Q. split; [|lra]. unfold shows. simpl. lra. }
    destruct Hs as (v & Hs & Hv).
    destruct (shr_shows r e (d - 53) v) as (r' & -> & S' & _); [lia|unfold r; rewrite shr_m_of_loc; lia|done|].
    exists r', (e + (d - 53)). split; [done|]. split; [|lia].
    apply shows_floor in S' as [_ S'].
    assert (V : (qz (2 ^ 52) <= v * pow2 (- (d - 53)))%Q).
    { apply Qle_trans with (qz (Zpos p) * pow2 (- (d - 53)))%Q.
      - apply Qle_trans with (qz (2 ^ (d - 1)) * pow2 (- (d - 53)))%Q.
        + rewrite <- !pow2_Z, <- pow2_add by lia. by replace (d - 1 + - (d - 53)) with 52 by lia.
        + apply Qmult_le_compat_r; [by apply qz_le|]. apply Qlt_le_weak, pow2_pos.
      - apply Qmult_le_compat_r; [done|]. apply Qlt_le_weak, pow2_pos. }
    assert (W : (qz (2 ^ 52) < qz (shr_m r' + 1))%Q).
    { rewrite qz_add, qz_one. by apply Qle_lt_trans with (v * pow2 (- (d - 53)))%Q. }
    apply (proj1 (qz_lt _ _)) in W. lia.
Qed.

(** Rounding keeps the sign of a number that is not below the smallest exponent. *)
Lemma normalize_sign z e :
  -1074 <= e -> nltb zero (binary_normalize prec emax z e false) = (0 <? z).
Proof.
  intros He. assert (P : forall p s, exists y,
    binary_round prec emax s p e = y /\ match y with S754_finite s' _ _ | S754_infinity s' => s' = s | _ => False end).
  { intros p s. eexists. split; [done|]. unfold binary_round.
    change (Zpos (digits2_pos p)) with (Zdigits2 (Zpos p)).
    destruct (shl_align_value p e (fexp prec emax (Zdigits2 (Zpos p) + e))) as (m & g & -> & Eg & _ & _).
    unfold binary_round_aux.
    destruct (shr_fexp_pos m g loc_Exact) as (r & f & -> & R1 & R2); [unfold fexp, emin, prec, emax in Eg; lia|].
    pose proof (nearest_le (shr_m r) (loc_of_shr_record r)) as [N _].
    destruct (round_nearest_even (shr_m r) (loc_of_shr_record r)) as [|k|k]; try lia.
    destruct (shr_fexp_pos k f loc_Exact R2) as (r' & f' & -> & R1' & _).
    destruct (shr_m r'); try lia. by destruct (_ <=? _). }
  destruct z as [|p|p]; simpl binary_normalize; [done| |].
  - destruct (P p false) as (y & -> & H). by destruct y as [|[]| |[]].
  - destruct (P p true) as (y & -> & H). by destruct y as [|[]| |[]].
Qed.

(** Numbers that are zero or have all 53 digits, such as prices. *)
Definition amount (x : num) : Prop := x = zero \/ full x.

(** [a - b > 0] is [a > b]: a difference is not rounded to zero. *)
Lemma nsub_positive x y : amount x -> amount y -> nltb zero (nsub x y) = nltb y x.
Proof.
  intros [->|Fx] [->|Fy]; [done| | |].
  - by destruct Fy as (m & e & -> & _).
  - by destruct Fx as (m & e & -> & _).
  - pose proof (full_ltb y x Fy Fx) as L.
    destruct Fx as (m & e & -> & D1 & R1), Fy as (n & f & -> & D2 & R2). rewrite !numq_full in L.
    unfold nsub, SFsub.
    destruct (shl_align_value m e (Z.min e f)) as (m' & g & Eq1 & Eg & W1 & _).
    destruct (shl_align_value n f (Z.min e f)) as (n' & g' & Eq2 & Eg' & W2 & _).
    rewrite Eq1, Eq2. cbn [fst cond_Zopp]. rewrite normalize_sign by lia.
    assert (g = Z.min e f) as -> by lia. assert (g' = Z.min e f) as -> by lia.
    rewrite <- W1, <- W2 in L. unfold value in L. pose proof (pow2_pos (Z.min e f)) as P.
    apply eq_true_iff_eq. rewrite L, Z.ltb_lt, Qmult_lt_r, (qz_lt (Zpos n') (Zpos m')) by done. lia.
Qed.

Lemma amount_not_nan x : amount x -> is_nan x = false.
Proof. intros [->|(m & e & -> & _)]; done. Qed.
