(* ===== verification/Currency.v ===== *)
(** * Quotas and currencies ([lib/currency.ts], [lib/format.ts],
      [stores/system-config-store.ts])

    A quota is a whole number of units; the administrator chooses how many units make one
    US dollar and in which currency amounts are shown.  [Intl.NumberFormat], whose texts
    depend on the locale, is a parameter: the currency code when one is given, the greatest
    number of fraction digits, and the number. *)

From Stdlib Require Import QArith Lqa.
From S2P Require Import Prelude JsString JsRegex JsNumber FloatError JsValue.

#[local] Open Scope Z_scope.

(** ** Configuration *)

Record CurrencyConfig := {
  displayInCurrency : bool;
  quotaDisplayType : jsstr;
  quotaPerUnit : num;
  usdExchangeRate : num;
  customCurrencySymbol : jsstr;
  customCurrencyExchangeRate : num }.

Definition DEFAULT_CURRENCY_CONFIG : CurrencyConfig := {|
  displayInCurrency := true;
  quotaDisplayType := js "USD";
  quotaPerUnit := num_of_Z 500000;
  usdExchangeRate := num_of_Z 1;
  customCurrencySymbol := js "¤";
  customCurrencyExchangeRate := num_of_Z 1 |}.

(** The [currency] of the store: what the server or the browser's storage gave, whose
    fields may be missing. *)
Record StoredCurrency := {
  s_displayInCurrency : option bool;
  s_quotaDisplayType : option jsstr;
  s_quotaPerUnit : option num;
  s_usdExchangeRate : option num;
  s_customCurrencySymbol : option jsstr;
  s_customCurrencyExchangeRate : option num }.

(** [setConfig]: the fields given replace those of the store. *)
Definition set_currency (new old : StoredCurrency) : StoredCurrency := {|
  s_displayInCurrency := or_else (s_displayInCurrency new) (s_displayInCurrency old);
  s_quotaDisplayType := or_else (s_quotaDisplayType new) (s_quotaDisplayType old);
  s_quotaPerUnit := or_else (s_quotaPerUnit new) (s_quotaPerUnit old);
  s_usdExchangeRate := or_else (s_usdExchangeRate new) (s_usdExchangeRate old);
  s_customCurrencySymbol := or_else (s_customCurrencySymbol new) (s_customCurrencySymbol old);
  s_customCurrencyExchangeRate :=
    or_else (s_customCurrencyExchangeRate new) (s_customCurrencyExchangeRate old) |}.

Definition DISPLAY_TYPE_VALUES : list jsstr := [js "USD"; js "CNY"; js "TOKENS"; js "CUSTOM"].

Definition isCurrencyDisplayType (value : jsval) : bool :=
  match value with VStr s => bool_decide (s ∈ DISPLAY_TYPE_VALUES) | _ => false end.

Definition parseCurrencyDisplayType (value : jsval) (fallback : jsstr) : jsstr :=
  match value with
  | VStr s => if isCurrencyDisplayType value then s else fallback
  | _ => fallback
  end.

(** [x && x > 0 ? x : d] *)
Definition positive_or (d : num) (x : option num) : num :=
  match x with Some n => if truthy_num n && nltb zero n then n else d | None => d end.

Definition getConfig (stored : option StoredCurrency) : CurrencyConfig :=
  let d := DEFAULT_CURRENCY_CONFIG in
  match stored with
  | None => d
  | Some c => {|
      displayInCurrency := default (displayInCurrency d) (s_displayInCurrency c);
      quotaDisplayType := default (quotaDisplayType d) (s_quotaDisplayType c);
      quotaPerUnit := positive_or (quotaPerUnit d) (s_quotaPerUnit c);
      usdExchangeRate := positive_or (usdExchangeRate d) (s_usdExchangeRate c);
      customCurrencySymbol :=
        or_str (default [] (trim <$> s_customCurrencySymbol c)) (customCurrencySymbol d);
      customCurrencyExchangeRate :=
        positive_or (customCurrencyExchangeRate d) (s_customCurrencyExchangeRate c) |}
  end.

Inductive DisplayMeta :=
  | MCurrency (symbol currencyCode : jsstr) (exchangeRate : num)
  | MCustom (symbol : jsstr) (exchangeRate : num)
  | MTokens (quotaPerUnit : num).

Definition usd_meta : DisplayMeta := MCurrency (js "$") (js "USD") (num_of_Z 1).

Definition getDisplayMeta (config : CurrencyConfig) : DisplayMeta :=
  let t := quotaDisplayType config in
  if bool_decide (t = js "CNY") then MCurrency (js "¥") (js "CNY") (usdExchangeRate config)
  else if bool_decide (t = js "CUSTOM")
       then MCustom (customCurrencySymbol config) (customCurrencyExchangeRate config)
  else if bool_decide (t = js "TOKENS") then MTokens (quotaPerUnit config)
  else usd_meta.

Definition getBillingDisplayMeta (config : CurrencyConfig) : DisplayMeta :=
  match getDisplayMeta config with MTokens _ => usd_meta | meta => meta end.

Definition getCurrencyDisplay (stored : option StoredCurrency) : CurrencyConfig * DisplayMeta :=
  let config := getConfig stored in (config, getDisplayMeta config).

Definition is_tokens (meta : DisplayMeta) : bool :=
  match meta with MTokens _ => true | _ => false end.

Definition isCurrencyDisplayEnabled (stored : option StoredCurrency) : bool :=
  negb (is_tokens (snd (getCurrencyDisplay stored))).

Definition getCurrencyLabel (stored : option StoredCurrency) : jsstr :=
  let '(config, meta) := getCurrencyDisplay stored in
  match meta with
  | MTokens _ => js "Tokens"
  | _ => if bool_decide (quotaDisplayType config = js "CNY") then js "CNY"
         else if bool_decide (quotaDisplayType config = js "CUSTOM")
              then match meta with MCustom symbol _ => symbol | _ => js "Custom" end
         else js "USD"
  end.

(** ** Quota units and amounts ([lib/format.ts]) *)

(** The rate of the shown currency; 1 for tokens. *)
Definition meta_rate (meta : DisplayMeta) : num :=
  match meta with MCurrency _ _ r | MCustom _ r => r | MTokens _ => num_of_Z 1 end.

Definition parseQuotaFromDollars (stored : option StoredCurrency) (amount : num) : num :=
  if negb (is_finite amount) then zero
  else let '(config, meta) := getCurrencyDisplay stored in
    if is_tokens meta then math_round amount
    else let exchangeRate := meta_rate meta in
         let usdAmount := if nltb zero exchangeRate then ndiv amount exchangeRate else amount in
         math_round (nmul usdAmount (quotaPerUnit config)).

Definition quotaUnitsToDollars (stored : option StoredCurrency) (units : num) : num :=
  let '(config, meta) := getCurrencyDisplay stored in
  if is_tokens meta then units
  else nmul (ndiv units (quotaPerUnit config)) (meta_rate meta).

(** ** Showing amounts *)

Record FormatOptions := {
  digitsLarge : nat; digitsSmall : nat; abbreviate : bool; minimumNonZero : num }.

Definition DEFAULT_FORMAT_OPTIONS : FormatOptions :=
  {| digitsLarge := 2; digitsSmall := 4; abbreviate := true; minimumNonZero := zero |}.

(** The options given; the others are the defaults. *)
Record CurrencyFormatOptions := {
  o_digitsLarge : option nat; o_digitsSmall : option nat;
  o_abbreviate : option bool; o_minimumNonZero : option num }.

Definition mergeOptions (options : option CurrencyFormatOptions) : FormatOptions :=
  let d := DEFAULT_FORMAT_OPTIONS in
  match options with
  | None => d
  | Some o => {|
      digitsLarge := default (digitsLarge d) (o_digitsLarge o);
      digitsSmall := default (digitsSmall d) (o_digitsSmall o);
      abbreviate := default (abbreviate d) (o_abbreviate o);
      minimumNonZero := default (minimumNonZero d) (o_minimumNonZero o) |}
  end.

Definition re_trailing_zeros : regex := Eval vm_compute in re "(\.[0-9]*?)0+$".
Definition re_trailing_dot : regex := Eval vm_compute in re "\.$".

(** [s.replace(re, '$1')] *)
Definition replace_group (r : regex) (s : jsstr) : jsstr :=
  match find_from r [] s with
  | None => s
  | Some (s0, s') =>
      take (length s - length (rest s0)) s ++ default [] (cap 1 (caps s')) ++ rest s'
  end.

(** [str.replace(/(\.[0-9]*?)0+$/, '$1').replace(/\.$/, '')] *)
Definition removeTrailingZeros (str : jsstr) : jsstr :=
  if negb (includes (js ".") str) then str
  else replace_first re_trailing_dot [] (replace_group re_trailing_zeros str).

Definition formatNumberWithSuffix (value : num) (large small : nat) (abbrev : bool) : jsstr :=
  let abs := math_abs value in
  if abbrev && nleb (num_of_Z 1000) abs
  then removeTrailingZeros (to_fixed 1 (ndiv value (num_of_Z 1000))) ++ js "k"
  else removeTrailingZeros (to_fixed (if nleb (num_of_Z 1) abs then large else small) value).

(** [Math.pow(10, -digits)] *)
Definition power_of_ten_below (digits : nat) : num := dec_to_num false 1 (- Z.of_nat digits).

Definition adjustForMinimum (value : num) (digits : nat) (minimum : num) : num :=
  if neqb value zero then value
  else
    let threshold := if nltb zero minimum then minimum else power_of_ten_below digits in
    let abs := math_abs value in
    if nltb zero abs && nltb abs threshold
    then (if nltb zero value then threshold else nneg threshold) else value.

Section Shown.

(** [new Intl.NumberFormat(undefined, ...).format(value)]: the currency, the greatest number
    of fraction digits. *)
Context (intl : option jsstr -> nat -> num -> jsstr).

Definition formatCurrencyValue (value : num) (options : FormatOptions) (meta : DisplayMeta) : jsstr :=
  let digits := if nleb (num_of_Z 1) (math_abs value)
                then digitsLarge options else digitsSmall options in
  let adjustedValue := adjustForMinimum value digits (minimumNonZero options) in
  match meta with
  | MTokens _ => formatNumberWithSuffix value (digitsLarge options) (digitsSmall options)
                                        (abbreviate options)
  | MCurrency _ currencyCode _ => intl (Some currencyCode) digits adjustedValue
  | MCustom symbol _ => symbol ++ js " " ++ intl None digits adjustedValue
  end.

Definition formatCurrencyFromUSD (stored : option StoredCurrency) (amountUSD : option num)
    (options : option CurrencyFormatOptions) : jsstr :=
  match amountUSD with
  | Some amount =>
      if is_nan amount then js "-"
      else
        let '(config, meta) := getCurrencyDisplay stored in
        let merged := mergeOptions options in
        if is_tokens meta
        then formatNumberWithSuffix (nmul amount (quotaPerUnit config)) 0
               (digitsSmall merged) (abbreviate merged)
        else formatCurrencyValue (nmul amount (meta_rate meta)) merged meta
  | None => js "-"
  end.

Definition formatBillingCurrencyFromUSD (stored : option StoredCurrency) (amountUSD : option num)
    (options : option CurrencyFormatOptions) : jsstr :=
  match amountUSD with
  | Some amount =>
      if is_nan amount then js "-"
      else let meta := getBillingDisplayMeta (getConfig stored) in
           formatCurrencyValue (nmul amount (meta_rate meta)) (mergeOptions options) meta
  | None => js "-"
  end.

Definition formatQuotaWithCurrency (stored : option StoredCurrency) (quota : option num)
    (options : option CurrencyFormatOptions) : jsstr :=
  match quota with
  | Some q =>
      if is_nan q then js "-"
      else formatCurrencyFromUSD stored (Some (ndiv q (quotaPerUnit (getConfig stored)))) options
  | None => js "-"
  end.

Definition formatLocalCurrencyAmount (stored : option StoredCurrency) (amount : option num)
    (options : option CurrencyFormatOptions) : jsstr :=
  match amount with
  | Some a =>
      if is_nan a then js "-"
      else formatCurrencyValue a (mergeOptions options) (getBillingDisplayMeta (getConfig stored))
  | None => js "-"
  end.

Definition quota_options : CurrencyFormatOptions :=
  {| o_digitsLarge := Some 2%nat; o_digitsSmall := Some 4%nat;
     o_abbreviate := Some true; o_minimumNonZero := None |}.
Definition log_quota_options : CurrencyFormatOptions :=
  {| o_digitsLarge := Some 4%nat; o_digitsSmall := Some 6%nat;
     o_abbreviate := Some false; o_minimumNonZero := None |}.

Definition formatQuota (stored : option StoredCurrency) (quota : num) : jsstr :=
  formatQuotaWithCurrency stored (Some quota) (Some quota_options).

Definition formatLogQuota (stored : option StoredCurrency) (quota : num) : jsstr :=
  formatQuotaWithCurrency stored (Some quota) (Some log_quota_options).

Definition formatCurrencyUSD (stored : option StoredCurrency) (value : option num) : jsstr :=
  formatCurrencyFromUSD stored value None.

End Shown.

(** ** Counts and durations *)

Definition formatTokens (tokens : num) : jsstr :=
  if neqb tokens zero then js "-"
  else if nltb tokens (num_of_Z 1000) then num_to_string tokens
  else if nltb tokens (num_of_Z 1000000)
       then to_fixed 1 (ndiv tokens (num_of_Z 1000)) ++ js "K"
  else to_fixed 2 (ndiv tokens (num_of_Z 1000000)) ++ js "M".

Definition formatUseTime (seconds : num) : jsstr :=
  if nltb seconds (num_of_Z 60) then to_fixed 1 seconds ++ js "s"
  else num_to_string (math_floor (ndiv seconds (num_of_Z 60))) ++ js "m "
       ++ to_fixed 0 (nrem seconds (num_of_Z 60)) ++ js "s".

(** ** Quota units survive the change to an amount and back *)

(** A rate between [2^-100] and [2^100]. *)
Definition rate_ok (r : num) : Prop := full r /\ span (-100) 100 (numq r).

(** [z] is a quota of at most [2^49] units. *)
Definition quota_ok (u : Z) : Prop := 0 <= u <= 2 ^ 49.

Lemma full_positive x : full x -> nltb zero x = true.
Proof. by intros (m & e & -> & _). Qed.

Lemma full_finite x : full x -> is_finite x = true.
Proof. by intros (m & e & -> & _). Qed.

Lemma between_self v : between 1 1 v v.
Proof. split; lra. Qed.

Lemma num_of_Z_span u : 0 < u <= 2 ^ 49 -> full (num_of_Z u) /\ span 0 49 (numq (num_of_Z u)).
Proof.
  intros H. destruct (num_of_Z_exact u ltac:(lia)) as [F E]. split; [done|]. rewrite E.
  split; [change (pow2 0) with (qz 1); apply qz_le; lia|].
  rewrite pow2_Z by lia. apply qz_le. lia.
Qed.

(** Four roundings move a quota by less than half a unit. *)
Lemma four_roundings u x :
  0 < u <= 2 ^ 49 ->
  between (1 * (1 - ulp) * (1 - ulp) * (1 - ulp) * (1 - ulp))
          (1 * (1 + ulp) * (1 + ulp) * (1 + ulp) * (1 + ulp)) (qz u) x ->
  (qz u - (1#2) < x /\ x < qz u + (1#2))%Q.
Proof.
  intros Hu [B1 B2].
  set (lo := (1 * (1 - ulp) * (1 - ulp) * (1 - ulp) * (1 - ulp))%Q) in *.
  set (hi := (1 * (1 + ulp) * (1 + ulp) * (1 + ulp) * (1 + ulp))%Q) in *.
  assert (L : (qz (2 ^ 49) * (1 - lo) < 1#2)%Q) by (by vm_compute).
  assert (H : (qz (2 ^ 49) * (hi - 1) < 1#2)%Q) by (by vm_compute).
  assert (P1 : (0 <= 1 - lo)%Q) by (by vm_compute).
  assert (P2 : (0 <= hi - 1)%Q) by (by vm_compute).
  assert (U : (qz u <= qz (2 ^ 49))%Q) by (apply qz_le; lia).
  revert B1 B2 L H P1 P2. generalize lo hi. intros l h B1 B2 L H P1 P2.
  apply (Qmult_le_compat_r _ _ (1 - l)) in U as U1; [|done].
  apply (Qmult_le_compat_r _ _ (h - 1)) in U as U2; [|done].
  split; lra.
Qed.

Lemma units_round_trip u r q :
  0 < u <= 2 ^ 49 -> rate_ok r -> rate_ok q ->
  full (nmul (ndiv (num_of_Z u) q) r)
  /\ math_round (nmul (ndiv (nmul (ndiv (num_of_Z u) q) r) r) q) = num_of_Z u.
Proof.
  intros Hu [Fr Sr] [Fq Sq]. destruct (num_of_Z_span u Hu) as [Fu Su].
  destruct (ndiv_step _ _ _ _ 1 1 (numq (num_of_Z u)) (num_of_Z u) q Fu Fq Su Sq)
    as (F1 & S1 & B1); [lia..|apply between_self|].
  destruct (nmul_step _ _ _ _ _ _ _ _ r F1 Fr S1 Sr ltac:(lia) ltac:(lia) B1) as (F2 & S2 & B2).
  destruct (ndiv_step _ _ _ _ _ _ _ _ r F2 Fr S2 Sr ltac:(lia) ltac:(lia) B2) as (F3 & S3 & B3).
  destruct (nmul_step _ _ _ _ _ _ _ _ q F3 Fq S3 Sq ltac:(lia) ltac:(lia) B3) as (F4 & S4 & B4).
  split; [done|]. apply math_round_near; [done|]. apply four_roundings; [done|].
  destruct (num_of_Z_exact u ltac:(lia)) as [_ E].
  assert (V : (numq (num_of_Z u) / numq q * numq r / numq r * numq q == qz u)%Q).
  { rewrite E. pose proof (full_pos q Fq). pose proof (full_pos r Fr). field. split; lra. }
  by rewrite V in B4.
Qed.

Lemma math_round_whole u : quota_ok u -> math_round (num_of_Z u) = num_of_Z u.
Proof.
  intros Hu. destruct (Z.eq_dec u 0) as [->|]; [done|].
  destruct (num_of_Z_exact u ltac:(unfold quota_ok in Hu; lia)) as [F E].
  apply math_round_near; [done|]. rewrite E. lra.
Qed.

(** The rates of the configuration are in range. *)
Definition rates_ok (stored : option StoredCurrency) : Prop :=
  rate_ok (quotaPerUnit (getConfig stored))
  /\ rate_ok (meta_rate (snd (getCurrencyDisplay stored))).

(** Zero or a positive number with all its digits. *)
Definition nonneg (x : num) : Prop := x = zero \/ full x.

Lemma nonneg_spec x :
  nonneg x -> is_finite x = true /\ nltb x zero = false /\ or_zero x = x /\ math_abs x = x.
Proof. by intros [->|(m & e & -> & _)]. Qed.

Lemma quota_round_trip stored u :
  rates_ok stored -> quota_ok u ->
  nonneg (quotaUnitsToDollars stored (num_of_Z u))
  /\ parseQuotaFromDollars stored (quotaUnitsToDollars stored (num_of_Z u)) = num_of_Z u.
Proof.
  unfold rates_ok, quotaUnitsToDollars, parseQuotaFromDollars, getCurrencyDisplay. simpl snd.
  set (q := quotaPerUnit _). set (m := getDisplayMeta _). intros [Hq Hr] Hu.
  pose proof (full_positive _ (proj1 Hr)) as Pr. destruct (Z.eq_dec u 0) as [->|Hu0].
  { destruct Hq as [(mq & eq & Eq & _) _], Hr as [(mr & er & Er & _) _].
    fold q. rewrite Pr, Eq, Er. destruct (is_tokens m); by split; [left|]. }
  assert (Hp : 0 < u <= 2 ^ 49) by (unfold quota_ok in Hu; lia).
  destruct (units_round_trip u _ _ Hp Hr Hq) as [F R].
  destruct (num_of_Z_span u Hp) as [Fu _]. fold q. rewrite Pr.
  destruct (is_tokens m).
  - rewrite (full_finite _ Fu). split; [by right|]. by apply math_round_whole.
  - rewrite (full_finite _ F). split; [by right|done].
Qed.

(** ** The configuration in use *)

Lemma positive_or_positive d x : nltb zero d = true -> nltb zero (positive_or d x) = true.
Proof.
  intros H. unfold positive_or. destruct x as [n|]; [|done].
  by destruct (truthy_num n && nltb zero n) eqn:E; bool_hyps.
Qed.

Lemma default_symbol_trimmed : trimmed (js "¤").
Proof. exact (trim_trimmed (js "¤")). Qed.

(** Whatever the store holds, fields missing or out of range included, amounts are
    converted with a positive number of units to the dollar and a positive rate, shown with
    a symbol that is not empty, and the label names the currency of the conversion. *)
Theorem config_well_formed stored (config := fst (getCurrencyDisplay stored))
    (meta := snd (getCurrencyDisplay stored)) :
  nltb zero (quotaPerUnit config) = true
  /\ nltb zero (meta_rate meta) = true
  /\ customCurrencySymbol config <> [] /\ trimmed (customCurrencySymbol config)
  /\ getCurrencyLabel stored
     = match meta with
       | MCurrency _ code _ => code
       | MCustom symbol _ => symbol
       | MTokens _ => js "Tokens"
       end.
Proof.
  subst config meta. unfold getCurrencyLabel, getCurrencyDisplay. simpl fst. simpl snd.
  assert (P : nltb zero (quotaPerUnit (getConfig stored)) = true).
  { destruct stored; [by apply positive_or_positive|done]. }
  assert (U : nltb zero (usdExchangeRate (getConfig stored)) = true).
  { destruct stored; [by apply positive_or_positive|done]. }
  assert (C : nltb zero (customCurrencyExchangeRate (getConfig stored)) = true).
  { destruct stored; [by apply positive_or_positive|done]. }
  assert (S : customCurrencySymbol (getConfig stored) <> [] /\ trimmed (customCurrencySymbol (getConfig stored))).
  { destruct stored as [c|]; [|split; [done|exact default_symbol_trimmed]]. simpl.
    destruct (s_customCurrencySymbol c) as [s|]; simpl;
      [|split; [done|exact default_symbol_trimmed]].
    pose proof (trim_trimmed s) as T. destruct (trim s); [|done].
    split; [done|exact default_symbol_trimmed]. }
  split; [done|]. destruct S as [S1 S2]. unfold getDisplayMeta.
  repeat case_bool_decide; simpl; try congruence; by split_and!.
Qed.

Lemma ltb_irrefl x : nltb x x = false.
Proof.
  unfold nltb, SFltb, SFcompare. destruct x as [| [] | |[] m e]; try done.
  all: change (Z.compare e e) with (e ?= e); rewrite Z.compare_refl;
    change (Pos.compare_cont Eq m m) with (Pos.compare m m); by rewrite Pos.compare_refl.
Qed.

Lemma power_of_ten_positive d : (d <= 20)%nat -> nltb zero (power_of_ten_below d) = true.
Proof. intros H. do 21 (destruct d as [|d]; [by vm_compute|]). lia. Qed.

Lemma abs_positive x : is_nan x = false -> neqb x zero = false -> nltb zero (math_abs x) = true.
Proof. by destruct x as [| [] | |[] m e]. Qed.

(** A number that is not zero becomes one of at least a unit of the last digit, with its sign,
    and is left alone if it is one. *)
Lemma adjusted_visible value digits minimum :
  (digits <= 20)%nat -> nltb zero minimum = false -> is_nan value = false -> neqb value zero = false ->
  let unit := power_of_ten_below digits in
  let x := adjustForMinimum value digits minimum in
  nltb (math_abs x) unit = false
  /\ (nltb (math_abs value) unit = false -> x = value)
  /\ nltb zero x = nltb zero value.
Proof.
  intros Hd Hm Hn Hz unit x. unfold x, adjustForMinimum. rewrite Hz, Hm, (abs_positive _ Hn Hz).
  fold unit. pose proof (power_of_ten_positive digits Hd) as P. fold unit in P.
  assert (A : forall t, nltb zero t = true ->
    math_abs t = t /\ math_abs (nneg t) = t /\ nltb zero (nneg t) = false)
    by (by intros [[]|[]| |[] m e]).
  destruct (A _ P) as (A1 & A2 & A3). cbn [andb].
  destruct (nltb (math_abs value) unit) eqn:E; [|done].
  destruct (nltb zero value); by rewrite ?A1, ?A2, ltb_irrefl.
Qed.

(** C39. A price that is not zero is never shown as zero.  With any options the formatter takes
    (digits up to 20, no minimum of their own; every caller asks for four digits, six below
    one), for an amount whose value in the shown currency is not zero: the number handed to the
    formatter is, without its sign, at least one unit of the last digit it is told to show,
    has the sign of the value, and is the value itself unless that is smaller than this unit.
    This holds in every currency, and quotas shown as tokens do not turn prices into tokens;
    where they are not shown so, amounts and prices are formatted alike. *)
Theorem price_visible intl stored amount options (meta := getBillingDisplayMeta (getConfig stored))
    (value := nmul amount (meta_rate meta)) (o := mergeOptions options)
    (digits := if nleb (num_of_Z 1) (math_abs value) then digitsLarge o else digitsSmall o) :
  (digitsLarge o <= 20)%nat -> (digitsSmall o <= 20)%nat -> nltb zero (minimumNonZero o) = false ->
  is_nan value = false -> neqb value zero = false ->
  (exists before code x,
     formatBillingCurrencyFromUSD intl stored (Some amount) options = before ++ intl code digits x
     /\ nltb (math_abs x) (power_of_ten_below digits) = false
     /\ (nltb (math_abs value) (power_of_ten_below digits) = false -> x = value)
     /\ nltb zero x = nltb zero value)
  /\ (isCurrencyDisplayEnabled stored = true ->
      formatCurrencyFromUSD intl stored (Some amount) options
      = formatBillingCurrencyFromUSD intl stored (Some amount) options).
Proof.
  intros Hl Hs Hm Hn Hz. split.
  - unfold formatBillingCurrencyFromUSD. fold meta.
    assert (is_nan amount = false) as -> by (by destruct amount).
    fold value o. unfold formatCurrencyValue. fold digits.
    assert (Hd : (digits <= 20)%nat) by (unfold digits; by destruct (nleb _ _)).
    assert (T : is_tokens meta = false).
    { subst meta. unfold getBillingDisplayMeta. by destruct (getDisplayMeta _). }
    pose proof (adjusted_visible value digits (minimumNonZero o) Hd Hm Hn Hz) as V.
    destruct meta as [sym code r|sym r|q]; [| |done].
    + by exists [], (Some code), (adjustForMinimum value digits (minimumNonZero o)).
    + exists (sym ++ js " "), None, (adjustForMinimum value digits (minimumNonZero o)).
      split; [|exact V]. by rewrite <- app_assoc.
  - unfold isCurrencyDisplayEnabled, formatCurrencyFromUSD, formatBillingCurrencyFromUSD, getCurrencyDisplay,
      getBillingDisplayMeta. cbn [fst snd].
    destruct (is_nan amount); [done|]. by destruct (getDisplayMeta (getConfig stored)).
Qed.

(** A ten-millionth of a dollar, as the usage log shows it. *)
Lemma price_visible_witness :
  let value := nmul (number_of_string (js "0.0000001")) (num_of_Z 1) in
  exists before code x,
    formatBillingCurrencyFromUSD (fun _ _ y => num_to_string y) None (Some (number_of_string (js "0.0000001")))
      (Some log_quota_options) = before ++ num_to_string x
    /\ nltb (math_abs x) (power_of_ten_below 6) = false /\ nltb zero x = true
    /\ code = Some (js "USD") /\ nltb value (power_of_ten_below 6) = true.
Proof.
  intros value.
  destruct (price_visible (fun _ _ y => num_to_string y) None (number_of_string (js "0.0000001"))
              (Some log_quota_options)) as [(b & c & x & E & V & _ & Hx) _];
    [cbn; lia|cbn; lia|reflexivity|by vm_compute|by vm_compute|].
  exists b, (Some (js "USD")), x. split; [exact E|].
  split; [exact V|]. split; [rewrite Hx; by vm_compute|]. split; [reflexivity|by vm_compute].
Defined.

(** ** Texts that differ from what the comments say *)

Definition tokens_shown : option StoredCurrency := Some {|
  s_displayInCurrency := None; s_quotaDisplayType := Some (js "TOKENS"); s_quotaPerUnit := None;
  s_usdExchangeRate := None; s_customCurrencySymbol := None; s_customCurrencyExchangeRate := None |}.

(** The comment promises [5,000,000]. *)
Example tokens_abbreviated intl :
  formatCurrencyFromUSD intl tokens_shown (Some (num_of_Z 10)) None = js "5000k".
Proof. by vm_compute. Qed.

(** The seconds are rounded after the minutes were taken out. *)
Example use_time_60 : formatUseTime (number_of_string (js "119.7")) = js "1m 60s".
Proof. by vm_compute. Qed.

Example tokens_1000K : formatTokens (num_of_Z 999960) = js "1000.0K".
Proof. by vm_compute. Qed.
