(* ===== verification/QuotaForms.v ===== *)
(** * Forms that hold quotas ([features/keys/lib/api-key-form.ts],
      [features/redemption-codes/lib/redemption-form.ts],
      [features/subscriptions/lib/plan-form.ts], [features/users/lib/user-form.ts],
      [features/users/components/user-quota-dialog.tsx],
      [features/keys/components/api-keys-mutate-drawer.tsx])

    A stored record opens as the values of a form, with its quota as an amount in the shown
    currency, and the submitted values become the data of a request.  A date is its time
    value in milliseconds. *)

From Stdlib Require Import QArith Lqa.
From S2P Require Import Prelude JsString JsNumber FloatError Currency.

#[local] Open Scope Z_scope.

(** [new Date(ms)]: its time value, NaN out of the range of dates. *)
Definition new_date (ms : num) : num :=
  if is_finite ms && nleb (math_abs ms) (num_of_Z 8640000000000000) then
    match ms with
    | S754_finite true _ _ => nneg (math_floor (math_abs ms))
    | _ => math_floor ms
    end
  else NaN.

(** [date ? Math.floor(date.getTime() / 1000) : never] *)
Definition date_seconds (never : num) (date : option num) : num :=
  match date with Some ms => math_floor (ndiv ms (num_of_Z 1000)) | None => never end.

(** [seconds > 0 ? new Date(seconds * 1000) : undefined] *)
Definition seconds_date (seconds : num) : option num :=
  if nltb zero seconds then Some (new_date (nmul seconds (num_of_Z 1000))) else None.

(** ** API keys *)

Module ApiKeyForm.

Record ApiKey := {
  name : jsstr;
  remain_quota : num;
  unlimited_quota : bool;
  expired_time : num;
  group : option jsstr;
  cross_group_retry : bool;
  model_limits_enabled : bool;
  model_limits : option jsstr;
  allow_ips : option jsstr }.

Record ApiKeyFormValues := {
  f_name : jsstr;
  f_remain_quota_dollars : option num;
  f_expired_time : option num;
  f_unlimited_quota : bool;
  f_model_limits : list jsstr;
  f_allow_ips : option jsstr;
  f_group : option jsstr;
  f_cross_group_retry : option bool;
  f_tokenCount : option N }.

(** The data of a request. *)
Record ApiKeyFormData := {
  d_name : jsstr;
  d_remain_quota : num;
  d_expired_time : num;
  d_unlimited_quota : bool;
  d_model_limits_enabled : bool;
  d_model_limits : jsstr;
  d_allow_ips : jsstr;
  d_group : jsstr;
  d_cross_group_retry : bool }.

Definition DEFAULT_GROUP : jsstr := [].
Definition auto : jsstr := js "auto".

Definition API_KEY_FORM_DEFAULT_VALUES : ApiKeyFormValues := {|
  f_name := [];
  f_remain_quota_dollars := Some (num_of_Z 10);
  f_expired_time := None;
  f_unlimited_quota := true;
  f_model_limits := [];
  f_allow_ips := Some [];
  f_group := Some DEFAULT_GROUP;
  f_cross_group_retry := Some true;
  f_tokenCount := Some 1%N |}.

Definition getApiKeyFormDefaultValues (defaultUseAutoGroup : bool) : ApiKeyFormValues :=
  let d := API_KEY_FORM_DEFAULT_VALUES in {|
  f_name := f_name d;
  f_remain_quota_dollars := f_remain_quota_dollars d;
  f_expired_time := f_expired_time d;
  f_unlimited_quota := f_unlimited_quota d;
  f_model_limits := f_model_limits d;
  f_allow_ips := f_allow_ips d;
  f_group := Some (if defaultUseAutoGroup then auto else DEFAULT_GROUP);
  f_cross_group_retry := Some defaultUseAutoGroup;
  f_tokenCount := f_tokenCount d |}.

(** The checks of [getApiKeyFormSchema] on values of the declared types. *)
Definition form_ok (data : ApiKeyFormValues) : bool :=
  truthy_str (f_name data)
  && match f_tokenCount data with Some n => (1 <=? n)%N | None => true end
  && (f_unlimited_quota data
      || match f_remain_quota_dollars data with
         | Some q => negb (nltb q zero)
         | None => false
         end).

Definition transformFormDataToPayload (stored : option StoredCurrency) (data : ApiKeyFormValues)
    : ApiKeyFormData := {|
  d_name := f_name data;
  d_remain_quota :=
    if f_unlimited_quota data then zero
    else parseQuotaFromDollars stored
           (match f_remain_quota_dollars data with Some q => or_zero q | None => zero end);
  d_expired_time := date_seconds (num_of_Z (-1)) (f_expired_time data);
  d_unlimited_quota := f_unlimited_quota data;
  d_model_limits_enabled := bool_decide (0 < length (f_model_limits data))%nat;
  d_model_limits := join (js ",") (f_model_limits data);
  d_allow_ips := default [] (f_allow_ips data);
  d_group := default [] (f_group data);
  d_cross_group_retry :=
    if bool_decide (f_group data = Some auto) then default false (f_cross_group_retry data)
    else false |}.

Definition transformApiKeyToFormDefaults (stored : option StoredCurrency) (apiKey : ApiKey)
    : ApiKeyFormValues := {|
  f_name := name apiKey;
  f_remain_quota_dollars :=
    Some (if unlimited_quota apiKey then zero
          else quotaUnitsToDollars stored (remain_quota apiKey));
  f_expired_time := seconds_date (expired_time apiKey);
  f_unlimited_quota := unlimited_quota apiKey;
  f_model_limits :=
    match model_limits apiKey with
    | Some l => if truthy_str l then filter_truthy (split_char 44 l) else []
    | None => []
    end;
  f_allow_ips := Some (default [] (allow_ips apiKey));
  f_group := Some (or_str (default [] (group apiKey)) DEFAULT_GROUP);
  f_cross_group_retry := Some (cross_group_retry apiKey);
  f_tokenCount := Some 1%N |}.

(** The correction of the group once the user's groups are loaded. *)
Definition correct_group (groups : list jsstr) (data : ApiKeyFormValues) : ApiKeyFormValues :=
  match groups with
  | [] => data
  | g0 :: _ =>
      let currentGroup := default [] (f_group data) in
      if truthy_str currentGroup && negb (bool_decide (currentGroup ∈ groups)) then {|
        f_name := f_name data;
        f_remain_quota_dollars := f_remain_quota_dollars data;
        f_expired_time := f_expired_time data;
        f_unlimited_quota := f_unlimited_quota data;
        f_model_limits := f_model_limits data;
        f_allow_ips := f_allow_ips data;
        f_group := Some (if bool_decide (js "default" ∈ groups) then js "default" else g0);
        f_cross_group_retry :=
          if bool_decide (currentGroup = auto) then Some false else f_cross_group_retry data;
        f_tokenCount := f_tokenCount data |}
      else data
  end.

(** *** Submitting *)

(** What the server answers to a request, or the request rejects. *)
Inductive answer := Succeeded | Refused | Rejected.

Inductive effect :=
  | UpdateKey (payload : ApiKeyFormData)
  | CreateKey (payload : ApiKeyFormData)
  | ToastUpdated | ToastCreated (count : nat)
  | ToastRefused | ToastUnexpected
  | CloseDrawer | Refresh.

Definition with_name (n : jsstr) (p : ApiKeyFormData) : ApiKeyFormData := {|
  d_name := n; d_remain_quota := d_remain_quota p; d_expired_time := d_expired_time p;
  d_unlimited_quota := d_unlimited_quota p; d_model_limits_enabled := d_model_limits_enabled p;
  d_model_limits := d_model_limits p; d_allow_ips := d_allow_ips p; d_group := d_group p;
  d_cross_group_retry := d_cross_group_retry p |}.

Section Submit.

(** The answer to the i-th request, and the i-th random suffix. *)
Context (stored : option StoredCurrency) (respond : nat -> answer) (suffix : nat -> jsstr).

(** The name of the i-th key. *)
Definition key_name (data : ApiKeyFormValues) (i : nat) : jsstr :=
  if bool_decide (i = 0%nat) && truthy_str (f_name data) then f_name data
  else or_str (f_name data) (js "default") ++ js "-" ++ suffix i.

(** The loop from the i-th key on, [n] keys to go: what was done, how many succeeded, and
    whether a request rejected. *)
Fixpoint create_loop (data : ApiKeyFormValues) (n i : nat) : list effect * nat * bool :=
  match n with
  | O => ([], i, false)
  | S n' =>
      let call := CreateKey (with_name (key_name data i) (transformFormDataToPayload stored data)) in
      match respond i with
      | Succeeded => let '(l, k, threw) := create_loop data n' (S i) in (call :: l, k, threw)
      | Refused => ([call; ToastRefused], i, false)
      | Rejected => ([call], i, true)
      end
  end.

Definition key_count (data : ApiKeyFormValues) : nat :=
  match f_tokenCount data with Some (Npos p) => Pos.to_nat p | _ => 1%nat end.

(** [onSubmit] of the drawer. *)
Definition submit_create (data : ApiKeyFormValues) : list effect :=
  let '(l, successCount, threw) := create_loop data (key_count data) 0 in
  if threw then l ++ [ToastUnexpected]
  else if bool_decide (0 < successCount)%nat
       then l ++ [ToastCreated successCount; CloseDrawer; Refresh]
       else l.

Definition submit_update (data : ApiKeyFormValues) : list effect :=
  UpdateKey (transformFormDataToPayload stored data)
  :: match respond 0 with
     | Succeeded => [ToastUpdated; CloseDrawer; Refresh]
     | Refused => [ToastRefused]
     | Rejected => [ToastUnexpected]
     end.

End Submit.

End ApiKeyForm.

(** ** Redemption codes *)

Module RedemptionForm.

Record Redemption := { name : jsstr; quota : num; expired_time : num }.

Record RedemptionFormValues := {
  f_name : jsstr; f_quota_dollars : num; f_expired_time : option num; f_count : option num }.

Record RedemptionFormData := {
  d_name : jsstr; d_quota : num; d_expired_time : num; d_count : num }.

Definition REDEMPTION_FORM_DEFAULT_VALUES : RedemptionFormValues := {|
  f_name := []; f_quota_dollars := num_of_Z 10; f_expired_time := None;
  f_count := Some (num_of_Z 1) |}.

Definition transformFormDataToPayload (stored : option StoredCurrency) (data : RedemptionFormValues)
    : RedemptionFormData := {|
  d_name := f_name data;
  d_quota := parseQuotaFromDollars stored (f_quota_dollars data);
  d_expired_time := date_seconds zero (f_expired_time data);
  d_count := match f_count data with
             | Some n => if truthy_num n then n else num_of_Z 1
             | None => num_of_Z 1
             end |}.

Definition transformRedemptionToFormDefaults (stored : option StoredCurrency) (r : Redemption)
    : RedemptionFormValues := {|
  f_name := name r;
  f_quota_dollars := quotaUnitsToDollars stored (quota r);
  f_expired_time := seconds_date (expired_time r);
  f_count := Some (num_of_Z 1) |}.

End RedemptionForm.

(** ** Subscription plans *)

Module PlanForm.

(** A stored plan; fields the server may leave out are optional. *)
Record SubscriptionPlan := {
  title : jsstr; subtitle : option jsstr; price_amount : num; currency : jsstr;
  duration_unit : jsstr; duration_value : num; custom_seconds : option num;
  quota_reset_period : jsstr; quota_reset_custom_seconds : option num; enabled : bool;
  sort_order : num; allow_balance_pay : option bool; max_purchase_per_user : num;
  total_amount : num; upgrade_group : option jsstr; stripe_price_id : option jsstr;
  creem_product_id : option jsstr; waffo_pancake_product_id : option jsstr }.

Record PlanFormValues := {
  f_title : jsstr; f_subtitle : option jsstr; f_price_amount : num;
  f_duration_unit : jsstr; f_duration_value : num; f_custom_seconds : option num;
  f_quota_reset_period : jsstr; f_quota_reset_custom_seconds : option num; f_enabled : bool;
  f_sort_order : num; f_allow_balance_pay : bool; f_max_purchase_per_user : num;
  f_total_amount : num; f_upgrade_group : option jsstr; f_stripe_price_id : option jsstr;
  f_creem_product_id : option jsstr; f_waffo_pancake_product_id : option jsstr }.

Definition PLAN_FORM_DEFAULTS : PlanFormValues := {|
  f_title := []; f_subtitle := Some []; f_price_amount := zero;
  f_duration_unit := js "month"; f_duration_value := num_of_Z 1; f_custom_seconds := Some zero;
  f_quota_reset_period := js "never"; f_quota_reset_custom_seconds := Some zero;
  f_enabled := true; f_sort_order := zero; f_allow_balance_pay := true;
  f_max_purchase_per_user := zero; f_total_amount := zero; f_upgrade_group := Some [];
  f_stripe_price_id := Some []; f_creem_product_id := Some [];
  f_waffo_pancake_product_id := Some [] |}.

(** [Number(x || 0)] of an optional number. *)
Definition number_or_zero (x : option num) : num := or_zero (default zero x).

(** [x || ''] of an optional text. *)
Definition text_or_empty (x : option jsstr) : jsstr := default [] x.

Definition planToFormValues (stored : option StoredCurrency) (plan : SubscriptionPlan)
    : PlanFormValues := {|
  f_title := title plan;
  f_subtitle := Some (text_or_empty (subtitle plan));
  f_price_amount := or_zero (price_amount plan);
  f_duration_unit := or_str (duration_unit plan) (js "month");
  f_duration_value := if truthy_num (duration_value plan) then duration_value plan else num_of_Z 1;
  f_custom_seconds := Some (number_or_zero (custom_seconds plan));
  f_quota_reset_period := or_str (quota_reset_period plan) (js "never");
  f_quota_reset_custom_seconds := Some (number_or_zero (quota_reset_custom_seconds plan));
  f_enabled := enabled plan;
  f_sort_order := or_zero (sort_order plan);
  f_allow_balance_pay := default true (allow_balance_pay plan);
  f_max_purchase_per_user := or_zero (max_purchase_per_user plan);
  f_total_amount := quotaUnitsToDollars stored (or_zero (total_amount plan));
  f_upgrade_group := Some (text_or_empty (upgrade_group plan));
  f_stripe_price_id := Some (text_or_empty (stripe_price_id plan));
  f_creem_product_id := Some (text_or_empty (creem_product_id plan));
  f_waffo_pancake_product_id := Some (text_or_empty (waffo_pancake_product_id plan)) |}.

(** The [plan] of the request: the form's values, some of them replaced. *)
Definition formValuesToPlanPayload (stored : option StoredCurrency) (values : PlanFormValues)
    : SubscriptionPlan := {|
  title := f_title values;
  subtitle := f_subtitle values;
  price_amount := or_zero (f_price_amount values);
  currency := js "USD";
  duration_unit := f_duration_unit values;
  duration_value := or_zero (f_duration_value values);
  custom_seconds := Some (number_or_zero (f_custom_seconds values));
  quota_reset_period := or_str (f_quota_reset_period values) (js "never");
  quota_reset_custom_seconds :=
    Some (if bool_decide (f_quota_reset_period values = js "custom")
          then number_or_zero (f_quota_reset_custom_seconds values) else zero);
  enabled := f_enabled values;
  sort_order := or_zero (f_sort_order values);
  allow_balance_pay := Some (f_allow_balance_pay values);
  max_purchase_per_user := or_zero (f_max_purchase_per_user values);
  total_amount := parseQuotaFromDollars stored (or_zero (f_total_amount values));
  upgrade_group := Some (text_or_empty (f_upgrade_group values));
  stripe_price_id := f_stripe_price_id values;
  creem_product_id := f_creem_product_id values;
  waffo_pancake_product_id := f_waffo_pancake_product_id values |}.

End PlanForm.

(** ** Users *)

Module UserForm.

Record User := {
  username : jsstr; display_name : jsstr; role : num; quota : num;
  group : option jsstr; remark : option jsstr }.

Record UserFormValues := {
  f_username : jsstr; f_display_name : option jsstr; f_password : option jsstr;
  f_role : option num; f_quota_dollars : option num; f_group : option jsstr;
  f_remark : option jsstr }.

(** The data of a request: absent fields are not sent. *)
Record UserFormData := {
  d_username : jsstr; d_display_name : jsstr; d_password : option jsstr;
  d_role : option num; d_group : option jsstr; d_remark : option jsstr; d_id : option N }.

Definition DEFAULT_GROUP : jsstr := js "default".

Definition USER_FORM_DEFAULT_VALUES : UserFormValues := {|
  f_username := []; f_display_name := Some []; f_password := Some [];
  f_role := Some (num_of_Z 1); f_quota_dollars := Some zero; f_group := Some DEFAULT_GROUP;
  f_remark := Some [] |}.

(** [x || undefined] *)
Definition or_undefined (x : option jsstr) : option jsstr :=
  match x with Some (c :: s) => Some (c :: s) | _ => None end.

Definition transformFormDataToPayload (data : UserFormValues) (userId : option N)
    : UserFormData := {|
  d_username := f_username data;
  d_display_name := or_str (default [] (f_display_name data)) (f_username data);
  d_password := or_undefined (f_password data);
  d_role :=
    match userId with
    | None => Some (match f_role data with
                    | Some r => if truthy_num r then r else num_of_Z 1
                    | None => num_of_Z 1
                    end)
    | Some _ => None
    end;
  d_group := match userId with None => None | Some _ => f_group data end;
  d_remark := match userId with None => None | Some _ => or_undefined (f_remark data) end;
  d_id := userId |}.

Definition transformUserToFormDefaults (stored : option StoredCurrency) (user : User)
    : UserFormValues := {|
  f_username := username user;
  f_display_name := Some (display_name user);
  f_password := Some [];
  f_role := Some (role user);
  f_quota_dollars := Some (quotaUnitsToDollars stored (quota user));
  f_group := Some (or_str (default [] (group user)) DEFAULT_GROUP);
  f_remark := Some (default [] (remark user)) |}.

End UserForm.

(** ** Changing the quota of a user *)

Module QuotaDialog.

Inductive QuotaAdjustMode := add | subtract | override.

#[global] Instance mode_eq_dec : EqDecision QuotaAdjustMode.
Proof. solve_decision. Defined.

Record Dialog := { mode : QuotaAdjustMode; amount : jsstr }.

Definition opened : Dialog := {| mode := add; amount := [] |}.

(** The button of a mode, the input, and cancelling. *)
Definition choose (m : QuotaAdjustMode) (_ : Dialog) : Dialog := {| mode := m; amount := [] |}.
Definition type_amount (s : jsstr) (d : Dialog) : Dialog := {| mode := mode d; amount := s |}.

Section Confirm.

Context (stored : option StoredCurrency) (d : Dialog).

Definition amountValue : num := or_zero (parse_float (amount d)).
Definition quotaValue : num := parseQuotaFromDollars stored (math_abs amountValue).

(** The value of the request [handleConfirm] sends, if it sends one. *)
Definition handleConfirm : option num :=
  if negb (truthy_str (amount d)) && negb (bool_decide (mode d = override)) then None
  else if nleb quotaValue zero && negb (bool_decide (mode d = override)) then None
  else let value := if bool_decide (mode d = override)
                    then parseQuotaFromDollars stored amountValue else quotaValue in
       Some (if bool_decide (mode d = override) then value else math_abs value).

(** The quotas the text of the dialog shows: the current one, the change and the result. *)
Definition preview (currentQuota : num) : num * num * num :=
  match mode d with
  | add => (currentQuota, quotaValue, nadd currentQuota quotaValue)
  | subtract => (currentQuota, quotaValue, nsub currentQuota quotaValue)
  | override => let q := parseQuotaFromDollars stored amountValue in (currentQuota, q, q)
  end.

End Confirm.

End QuotaDialog.

(** ** Dates survive the form *)

(** The latest time a date holds, in seconds. *)
Definition last_second : Z := 8640000000000.

Lemma seconds_date_none t : - last_second <= t <= 0 -> seconds_date (num_of_Z t) = None.
Proof.
  intros H. unfold last_second in H. destruct (Z.eq_dec t 0) as [->|]; [done|].
  replace t with (- - t) by lia. rewrite num_of_Z_opp by lia.
  destruct (num_of_Z_exact (- t) ltac:(lia)) as [(m & e & E & _) _]. by rewrite E.
Qed.

Lemma new_date_whole ms : 0 < ms <= 8640000000000000 -> new_date (num_of_Z ms) = num_of_Z ms.
Proof.
  intros H. destruct (num_of_Z_exact ms ltac:(lia)) as [F _].
  pose proof (leb_of_Z ms 8640000000000000 ltac:(lia) ltac:(lia) ltac:(lia)) as L.
  rewrite <- (math_floor_whole ms) at 2 by lia. unfold new_date.
  destruct F as (m & e & E & _). rewrite E in L |- *. simpl math_abs.
  by rewrite L.
Qed.

Lemma seconds_date_some t :
  0 < t <= last_second -> seconds_date (num_of_Z t) = Some (num_of_Z (t * 1000)).
Proof.
  unfold last_second. intros H. unfold seconds_date.
  destruct (num_of_Z_exact t ltac:(lia)) as [F _]. rewrite (full_positive _ F).
  rewrite nmul_of_Z by lia. by rewrite new_date_whole by lia.
Qed.

Lemma date_round_trip never t :
  - last_second <= t <= last_second ->
  date_seconds never (seconds_date (num_of_Z t)) = if 0 <? t then num_of_Z t else never.
Proof.
  intros H. destruct (Z.ltb_spec 0 t) as [P|P].
  - rewrite seconds_date_some by lia. unfold date_seconds, last_second in *.
    rewrite ndiv_of_Z by lia. apply math_floor_whole. lia.
  - by rewrite seconds_date_none by lia.
Qed.

(** ** Records survive their forms *)

Section Reopened.

Context (stored : option StoredCurrency) (u : Z) (Hrates : rates_ok stored) (Hu : quota_ok u).

Lemma amount_shown : or_zero (quotaUnitsToDollars stored (num_of_Z u)) = quotaUnitsToDollars stored (num_of_Z u).
Proof. apply nonneg_spec, quota_round_trip; done. Qed.

Lemma amount_saved : parseQuotaFromDollars stored (quotaUnitsToDollars stored (num_of_Z u)) = num_of_Z u.
Proof. apply quota_round_trip; done. Qed.

Lemma amount_not_negative : nltb (quotaUnitsToDollars stored (num_of_Z u)) zero = false.
Proof. apply nonneg_spec, quota_round_trip; done. Qed.

End Reopened.

(** The models of a stored list, none of them empty. *)
Definition limits_of (key : ApiKeyForm.ApiKey) : list jsstr :=
  filter_truthy (split_char 44 (default [] (ApiKeyForm.model_limits key))).

(** C24. An API key that is opened in its form and submitted unchanged passes the checks of
    the form and keeps its quota, to the unit, in whatever currency amounts are shown, and
    its expiry, to the second.  What does change: an unlimited key loses the quota it had,
    a key that never expires stores -1, empty names of models disappear from the limits,
    which are switched on when there are any, and retrying across groups stays only for the
    automatic group. *)
Theorem api_key_reopens stored key u t
    (values := ApiKeyForm.transformApiKeyToFormDefaults stored key) :
  rates_ok stored -> quota_ok u -> - last_second <= t <= last_second ->
  ApiKeyForm.remain_quota key = num_of_Z u -> ApiKeyForm.expired_time key = num_of_Z t ->
  ApiKeyForm.name key <> [] ->
  ApiKeyForm.form_ok values = true
  /\ ApiKeyForm.transformFormDataToPayload stored values = {|
       ApiKeyForm.d_name := ApiKeyForm.name key;
       ApiKeyForm.d_remain_quota :=
         if ApiKeyForm.unlimited_quota key then zero else ApiKeyForm.remain_quota key;
       ApiKeyForm.d_expired_time :=
         if 0 <? t then ApiKeyForm.expired_time key else num_of_Z (-1);
       ApiKeyForm.d_unlimited_quota := ApiKeyForm.unlimited_quota key;
       ApiKeyForm.d_model_limits_enabled := bool_decide (limits_of key <> []);
       ApiKeyForm.d_model_limits := join (js ",") (limits_of key);
       ApiKeyForm.d_allow_ips := default [] (ApiKeyForm.allow_ips key);
       ApiKeyForm.d_group := default [] (ApiKeyForm.group key);
       ApiKeyForm.d_cross_group_retry :=
         bool_decide (ApiKeyForm.group key = Some ApiKeyForm.auto)
         && ApiKeyForm.cross_group_retry key |}.
Proof.
  intros Hr Hu Ht Eq Et Hn. subst values.
  assert (EL : ApiKeyForm.f_model_limits (ApiKeyForm.transformApiKeyToFormDefaults stored key)
               = limits_of key).
  { simpl. unfold limits_of. by destruct (ApiKeyForm.model_limits key) as [[|c l]|]. }
  split.
  - unfold ApiKeyForm.form_ok. simpl. rewrite (proj2 (truthy_str_spec _) Hn).
    destruct (ApiKeyForm.unlimited_quota key); [done|].
    by rewrite Eq, amount_not_negative.
  - unfold ApiKeyForm.transformFormDataToPayload. rewrite EL. simpl.
    rewrite Et, date_round_trip by done. f_equal.
    + destruct (ApiKeyForm.unlimited_quota key); [done|].
      by rewrite Eq, amount_shown, amount_saved.
    + apply bool_decide_ext. destruct (limits_of key); simpl; split; done || lia.
    + by destruct (ApiKeyForm.group key) as [[|c l]|].
    + destruct (ApiKeyForm.group key) as [[|c l]|]; done.
Qed.

(** A dollar of 500000 units shown in a currency at 7.3 to the dollar, and a key with an odd
    quota that expires. *)
Definition sample_currency : option StoredCurrency := Some {|
  s_displayInCurrency := Some true; s_quotaDisplayType := Some (js "CNY"); s_quotaPerUnit := None;
  s_usdExchangeRate := Some (number_of_string (js "7.3")); s_customCurrencySymbol := None;
  s_customCurrencyExchangeRate := None |}.

Definition sample_key : ApiKeyForm.ApiKey := {|
  ApiKeyForm.name := js "build"; ApiKeyForm.remain_quota := num_of_Z 1234567;
  ApiKeyForm.unlimited_quota := false; ApiKeyForm.expired_time := num_of_Z 1767225599;
  ApiKeyForm.group := None; ApiKeyForm.cross_group_retry := true;
  ApiKeyForm.model_limits_enabled := false; ApiKeyForm.model_limits := Some (js "a,,b");
  ApiKeyForm.allow_ips := None |}.

Lemma rate_ok_computed r :
  match r with
  | S754_finite false m e => (Zdigits2 (Zpos m) =? 53) && (-100 <=? e + 52) && (e + 53 <=? 100)
  | _ => false
  end = true -> rate_ok r.
Proof.
  destruct r as [| | |[] m e]; try done. intros H. bool_hyps.
  split; [exists m, e; repeat split; [done|lia|lia]|].
  pose proof (value_bounds m e) as [B1 B2]. rewrite H in B1, B2.
  pose proof (pow2_le (-100) (53 + e - 1) ltac:(lia)). pose proof (pow2_le (53 + e) 100 ltac:(lia)).
  split; rewrite numq_full; lra.
Qed.

Lemma sample_rates : rates_ok sample_currency.
Proof. split; apply rate_ok_computed; by vm_compute. Qed.

Lemma api_key_reopens_witness :
  rates_ok sample_currency
  /\ ApiKeyForm.form_ok (ApiKeyForm.transformApiKeyToFormDefaults sample_currency sample_key) = true
  /\ ApiKeyForm.d_remain_quota (ApiKeyForm.transformFormDataToPayload sample_currency
       (ApiKeyForm.transformApiKeyToFormDefaults sample_currency sample_key)) = num_of_Z 1234567.
Proof.
  split; [exact sample_rates|].
  destruct (api_key_reopens sample_currency sample_key 1234567 1767225599) as [H1 H2];
    [exact sample_rates|unfold quota_ok; lia|unfold last_second; lia|done|done|done|].
  split; [exact H1|]. rewrite H2. reflexivity.
Defined.

(** A key that was overdrawn, so that its remaining quota is negative, does not pass the
    checks of its own form: it can be neither renamed nor given another expiry until another
    quota is typed or it is made unlimited. *)
Theorem overdrawn_key_blocked stored key u :
  rates_ok stored -> 0 < u <= 2 ^ 49 -> ApiKeyForm.remain_quota key = num_of_Z (- u) ->
  ApiKeyForm.form_ok (ApiKeyForm.transformApiKeyToFormDefaults stored key)
  = truthy_str (ApiKeyForm.name key) && ApiKeyForm.unlimited_quota key.
Proof.
  intros [[Fq Sq] [Fr Sr]] Hu E. unfold ApiKeyForm.form_ok. simpl.
  rewrite E, num_of_Z_opp by lia. destruct (ApiKeyForm.unlimited_quota key); [by rewrite !andb_true_r|].
  enough (nltb (quotaUnitsToDollars stored (nneg (num_of_Z u))) zero = true) as ->.
  { simpl. by rewrite !andb_false_r. }
  destruct (num_of_Z_span u Hu) as [Fu Su].
  unfold quotaUnitsToDollars, getCurrencyDisplay in *. simpl snd in *.
  destruct (is_tokens _); [by destruct Fu as (? & ? & -> & _)|].
  destruct (ndiv_step _ _ _ _ 1 1 (numq (num_of_Z u)) (num_of_Z u) _ Fu Fq Su Sq)
    as (F1 & S1 & B1); [lia..|apply between_self|].
  rewrite ndiv_opp, nmul_opp by done.
  destruct (units_round_trip u _ _ Hu (conj Fr Sr) (conj Fq Sq)) as [F _].
  by destruct F as (? & ? & -> & _).
Qed.

Definition overdrawn_key : ApiKeyForm.ApiKey := {|
  ApiKeyForm.name := js "build"; ApiKeyForm.remain_quota := num_of_Z (- 42);
  ApiKeyForm.unlimited_quota := false; ApiKeyForm.expired_time := num_of_Z (-1);
  ApiKeyForm.group := None; ApiKeyForm.cross_group_retry := false;
  ApiKeyForm.model_limits_enabled := false; ApiKeyForm.model_limits := None;
  ApiKeyForm.allow_ips := None |}.

Lemma overdrawn_key_blocked_witness :
  ApiKeyForm.form_ok (ApiKeyForm.transformApiKeyToFormDefaults sample_currency overdrawn_key) = false.
Proof.
  rewrite (overdrawn_key_blocked sample_currency overdrawn_key 42);
    [reflexivity|exact sample_rates|lia|reflexivity].
Defined.

(** A redemption code and a plan that are opened and submitted unchanged keep their quota. *)
Lemma redemption_reopens stored r u t :
  rates_ok stored -> quota_ok u -> - last_second <= t <= last_second ->
  RedemptionForm.quota r = num_of_Z u -> RedemptionForm.expired_time r = num_of_Z t ->
  RedemptionForm.transformFormDataToPayload stored
    (RedemptionForm.transformRedemptionToFormDefaults stored r) = {|
    RedemptionForm.d_name := RedemptionForm.name r;
    RedemptionForm.d_quota := RedemptionForm.quota r;
    RedemptionForm.d_expired_time := if 0 <? t then RedemptionForm.expired_time r else zero;
    RedemptionForm.d_count := num_of_Z 1 |}.
Proof.
  intros Hr Hu Ht Eq Et. unfold RedemptionForm.transformFormDataToPayload. simpl.
  by rewrite Eq, Et, date_round_trip, amount_saved.
Qed.

Lemma or_zero_whole u : quota_ok u -> or_zero (num_of_Z u) = num_of_Z u.
Proof.
  intros Hu. destruct (Z.eq_dec u 0) as [->|]; [done|]. unfold quota_ok in Hu.
  destruct (num_of_Z_exact u ltac:(lia)) as [F _]. apply nonneg_spec. by right.
Qed.

(** A subscription plan that is opened in its form and submitted unchanged keeps its
    quota to the unit and all its other fields, but for these: missing numbers and texts are
    stored as zero and as the empty text, an empty period becomes a month or never, a
    duration of zero becomes one, the seconds of a custom reset are kept only for a custom
    period, and the currency is always the dollar. *)
Theorem plan_reopens stored p u :
  rates_ok stored -> quota_ok u -> PlanForm.total_amount p = num_of_Z u ->
  PlanForm.formValuesToPlanPayload stored (PlanForm.planToFormValues stored p) = {|
    PlanForm.title := PlanForm.title p;
    PlanForm.subtitle := Some (default [] (PlanForm.subtitle p));
    PlanForm.price_amount := or_zero (PlanForm.price_amount p);
    PlanForm.currency := js "USD";
    PlanForm.duration_unit := or_str (PlanForm.duration_unit p) (js "month");
    PlanForm.duration_value :=
      if truthy_num (PlanForm.duration_value p) then PlanForm.duration_value p else num_of_Z 1;
    PlanForm.custom_seconds := Some (or_zero (default zero (PlanForm.custom_seconds p)));
    PlanForm.quota_reset_period := or_str (PlanForm.quota_reset_period p) (js "never");
    PlanForm.quota_reset_custom_seconds :=
      Some (if bool_decide (PlanForm.quota_reset_period p = js "custom")
            then or_zero (default zero (PlanForm.quota_reset_custom_seconds p)) else zero);
    PlanForm.enabled := PlanForm.enabled p;
    PlanForm.sort_order := or_zero (PlanForm.sort_order p);
    PlanForm.allow_balance_pay := Some (default true (PlanForm.allow_balance_pay p));
    PlanForm.max_purchase_per_user := or_zero (PlanForm.max_purchase_per_user p);
    PlanForm.total_amount := PlanForm.total_amount p;
    PlanForm.upgrade_group := Some (default [] (PlanForm.upgrade_group p));
    PlanForm.stripe_price_id := Some (default [] (PlanForm.stripe_price_id p));
    PlanForm.creem_product_id := Some (default [] (PlanForm.creem_product_id p));
    PlanForm.waffo_pancake_product_id := Some (default [] (PlanForm.waffo_pancake_product_id p)) |}.
Proof.
  intros Hr Hu E. unfold PlanForm.formValuesToPlanPayload. simpl.
  unfold PlanForm.number_or_zero, PlanForm.text_or_empty. simpl.
  rewrite !or_zero_idemp, E, (or_zero_whole u Hu), (amount_shown _ _ Hr Hu), (amount_saved _ _ Hr Hu).
  f_equal.
  - unfold or_zero. by destruct (truthy_num (PlanForm.duration_value p)) eqn:T; [rewrite T|].
  - by destruct (PlanForm.quota_reset_period p).
  - by destruct (PlanForm.quota_reset_period p).
Qed.

Definition sample_plan : PlanForm.SubscriptionPlan := {|
  PlanForm.title := js "Team"; PlanForm.subtitle := None; PlanForm.price_amount := num_of_Z 20;
  PlanForm.currency := js "EUR"; PlanForm.duration_unit := js "month";
  PlanForm.duration_value := num_of_Z 1; PlanForm.custom_seconds := None;
  PlanForm.quota_reset_period := js "daily"; PlanForm.quota_reset_custom_seconds := Some (num_of_Z 60);
  PlanForm.enabled := true; PlanForm.sort_order := zero; PlanForm.allow_balance_pay := None;
  PlanForm.max_purchase_per_user := zero; PlanForm.total_amount := num_of_Z 99999999;
  PlanForm.upgrade_group := None; PlanForm.stripe_price_id := None;
  PlanForm.creem_product_id := None; PlanForm.waffo_pancake_product_id := None |}.

Lemma plan_reopens_witness :
  PlanForm.total_amount (PlanForm.formValuesToPlanPayload sample_currency
    (PlanForm.planToFormValues sample_currency sample_plan)) = num_of_Z 99999999.
Proof.
  rewrite (plan_reopens sample_currency sample_plan 99999999);
    [reflexivity|exact sample_rates|unfold quota_ok; lia|reflexivity].
Defined.

(** ** Creating several keys *)

Section Batch.

Context (stored : option StoredCurrency) (respond : nat -> ApiKeyForm.answer) (suffix : nat -> jsstr)
  (data : ApiKeyForm.ApiKeyFormValues).

(** The request for the i-th key. *)
Definition create_call (i : nat) : ApiKeyForm.effect :=
  ApiKeyForm.CreateKey (ApiKeyForm.with_name (ApiKeyForm.key_name suffix data i)
                          (ApiKeyForm.transformFormDataToPayload stored data)).

Lemma create_loop_prefix n i k :
  (forall j, i <= j < i + k -> respond j = ApiKeyForm.Succeeded)%nat -> (k <= n)%nat ->
  ApiKeyForm.create_loop stored respond suffix data n i
  = let '(l, c, threw) := ApiKeyForm.create_loop stored respond suffix data (n - k) (i + k) in
    ((create_call <$> seq i k) ++ l, c, threw).
Proof.
  revert n i; induction k as [|k IH]; intros n i Hs Hk.
  - rewrite Nat.sub_0_r, Nat.add_0_r. by destruct (ApiKeyForm.create_loop _ _ _ _ _ _) as [[l c] w].
  - destruct n as [|n]; [lia|]. simpl ApiKeyForm.create_loop. rewrite (Hs i) by lia.
    rewrite (IH n (S i)) by (lia || intros j Hj; apply Hs; lia).
    replace (S n - S k)%nat with (n - k)%nat by lia.
    replace (i + S k)%nat with (S i + k)%nat by lia.
    by destruct (ApiKeyForm.create_loop _ _ _ _ _ _) as [[l c] w].
Qed.

(** Creating several keys asks for them one after the other, each under a name of its
    own, until one request does not succeed: a refused one is reported, then what was created
    is reported and the drawer closes; when a request rejects, only an unexpected error is
    reported, the drawer stays open and the list is not refreshed, whatever was created
    before. *)
Theorem batch_create_exact (n := ApiKeyForm.key_count data) k :
  (k <= n)%nat -> (forall j, j < k -> respond j = ApiKeyForm.Succeeded)%nat ->
  (k < n -> respond k <> ApiKeyForm.Succeeded)%nat ->
  let created := if bool_decide (0 < k)%nat
                 then [ApiKeyForm.ToastCreated k; ApiKeyForm.CloseDrawer; ApiKeyForm.Refresh]
                 else [] in
  ApiKeyForm.submit_create stored respond suffix data
  = (create_call <$> seq 0 (Nat.min (S k) n))
    ++ (if bool_decide (k = n) then created
        else match respond k with
             | ApiKeyForm.Refused => ApiKeyForm.ToastRefused :: created
             | _ => [ApiKeyForm.ToastUnexpected]
             end).
Proof.
  intros Hk Hs Hf created. unfold ApiKeyForm.submit_create. fold n.
  rewrite (create_loop_prefix n 0 k) by (done || intros j Hj; apply Hs; lia).
  rewrite Nat.add_0_l. destruct (Nat.eq_dec k n) as [->|Hne].
  - rewrite Nat.sub_diag, Nat.min_r by lia. rewrite (bool_decide_eq_true_2 (n = n)) by done.
    simpl. rewrite app_nil_r. subst created. case_bool_decide; [done|]. by rewrite app_nil_r.
  - rewrite Nat.min_l, seq_S, fmap_app by lia. rewrite (bool_decide_eq_false_2 (k = n)) by done.
    destruct (n - k)%nat as [|m] eqn:Em; [lia|]. simpl.
    specialize (Hf ltac:(lia)). fold (create_call k).
    destruct (respond k); [done| |]; [|by rewrite <- app_assoc].
    rewrite <- app_assoc. subst created. case_bool_decide; simpl; by rewrite <- ?app_assoc.
Qed.

End Batch.

Definition three_keys : ApiKeyForm.ApiKeyFormValues := {|
  ApiKeyForm.f_name := js "ci"; ApiKeyForm.f_remain_quota_dollars := Some (num_of_Z 10);
  ApiKeyForm.f_expired_time := None; ApiKeyForm.f_unlimited_quota := true;
  ApiKeyForm.f_model_limits := []; ApiKeyForm.f_allow_ips := Some [];
  ApiKeyForm.f_group := Some []; ApiKeyForm.f_cross_group_retry := Some true;
  ApiKeyForm.f_tokenCount := Some 3%N |}.

(** The second of three requests rejects. *)
Definition flaky (i : nat) : ApiKeyForm.answer :=
  if bool_decide (i = 1%nat) then ApiKeyForm.Rejected else ApiKeyForm.Succeeded.

Lemma batch_create_exact_witness :
  ApiKeyForm.submit_create None flaky (fun _ => js "x") three_keys
  = [create_call None (fun _ => js "x") three_keys 0; create_call None (fun _ => js "x") three_keys 1;
     ApiKeyForm.ToastUnexpected].
Proof.
  rewrite (batch_create_exact None flaky (fun _ => js "x") three_keys 1);
    [reflexivity|by apply Nat.leb_le| |discriminate].
  intros [|j] Hj; [reflexivity|lia].
Defined.

(** ** The dialog that changes a quota *)

(** What the quota dialog asks for.  Adding and subtracting never send a request with an
    empty field or for no units at all, and what they send is the typed amount, without its
    sign, in units; overriding always sends the typed amount, and zero for an empty field. *)
Theorem quota_dialog_requests stored d :
  QuotaDialog.handleConfirm stored d
  = match QuotaDialog.mode d with
    | QuotaDialog.override => Some (parseQuotaFromDollars stored (QuotaDialog.amountValue d))
    | _ => let q := QuotaDialog.quotaValue stored d in
           if truthy_str (QuotaDialog.amount d) && negb (nleb q zero) then Some q else None
    end.
Proof.
  unfold QuotaDialog.handleConfirm.
  assert (A : forall q, nleb q zero = false -> math_abs q = q) by (by intros [[]|[]| |[] m e]).
  assert (B : forall m, m <> QuotaDialog.override -> bool_decide (m = QuotaDialog.override) = false)
    by (intros m Hm; by apply bool_decide_eq_false_2).
  destruct (QuotaDialog.mode d); [| |by rewrite !andb_false_r].
  all: rewrite B by done; simpl; rewrite !andb_true_r;
    destruct (truthy_str (QuotaDialog.amount d)); simpl; [|done];
    destruct (nleb (QuotaDialog.quotaValue stored d) zero) eqn:E; simpl; [done|]; by rewrite A.
Qed.

(** An empty field in the override mode sets the quota of the user to zero. *)
Lemma empty_override stored :
  rates_ok stored ->
  QuotaDialog.handleConfirm stored
    (QuotaDialog.choose QuotaDialog.override QuotaDialog.opened) = Some zero.
Proof.
  intros [[(mq & eq & Eq & _) _] [Fr _]]. pose proof (full_positive _ Fr) as Pr.
  destruct Fr as (mr & er & Er & _).
  unfold QuotaDialog.handleConfirm, QuotaDialog.amountValue, parseQuotaFromDollars.
  unfold getCurrencyDisplay in *. simpl in *.
  rewrite Pr, Eq, Er, andb_false_r. by destruct (is_tokens _).
Qed.
