(* ===== verification/DashboardCharts.v ===== *)
(** * Usage charts ([features/dashboard/lib/charts.ts], [features/dashboard/lib/stats.ts],
      [lib/time.ts])

    The usage records of a period become the series of the charts: summed by time label and
    model, ranked, the many small models gathered into one series.  The series and the totals
    are modelled; the rest of a chart's description (axes, colours, legends) is constant.
    Dates are formatted by [dayjs], a parameter; [localeCompare] and [Intl] depend on the
    locale and are parameters too. *)

From S2P Require Import Prelude JsString JsNumber JsValue JsSort JsMap FloatError Currency.

#[local] Open Scope Z_scope.

(** ** Sorting *)

(** [(a, b) => f(b) - f(a)]: the greatest first. *)
Definition less_than_by {A} (f : A -> num) (a b : A) : bool := nltb zero (nsub (f b) (f a)).

(** ** Records and sums *)

Record QuotaDataItem := {
  username : option jsstr; model_name : option jsstr; created_at : num;
  token_used : option num; count : option num; quota : option num }.

(** [Number(x) || 0] *)
Definition amount_of (x : option num) : num := default zero (or_zero <$> x).

(** [name || d] *)
Definition name_or (d : jsstr) (x : option jsstr) : jsstr := or_str (default [] x) d.

Record Stats := { s_quota : num; s_count : num; s_tokens : num }.

Definition no_stats : Stats := {| s_quota := zero; s_count := zero; s_tokens := zero |}.

Definition add_item (item : QuotaDataItem) (x : Stats) : Stats := {|
  s_quota := nadd (s_quota x) (amount_of (quota item));
  s_count := nadd (s_count x) (amount_of (count item));
  s_tokens := nadd (s_tokens x) (amount_of (token_used item)) |}.

(** [calculateDashboardStats] *)
Definition calculateDashboardStats (data : list QuotaDataItem) : Stats :=
  fold_left (fun acc item => add_item item acc) data no_stats.

(** [safeDivide]; the factor is a power of ten. *)
Definition safeDivide (value divisor : num) (precision : nat) : num :=
  let result := ndiv value divisor in
  if is_nan result || negb (is_finite result) then zero
  else let factor := num_of_Z (10 ^ Z.of_nat precision) in
       ndiv (math_round (nmul result factor)) factor.

Inductive TimeGranularity := hour | day | week.

#[export] Instance granularity_eq_dec : EqDecision TimeGranularity.
Proof. solve_decision. Defined.

Section Charts.

(** [dayjs(ms).add(days, 'day').format(pattern)]. *)
Context (dayjs_format : num -> Z -> jsstr -> jsstr).

(** The text a chart shows for a time. *)
Definition formatChartTime (granularity : TimeGranularity) (timestamp : num) : jsstr :=
  let ms := nmul timestamp (num_of_Z 1000) in
  let result := dayjs_format ms 0 (js "MM-DD") in
  match granularity with
  | hour => result ++ js " " ++ dayjs_format ms 0 (js "HH") ++ js ":00"
  | week => result ++ js " - " ++ dayjs_format ms 6 (js "MM-DD")
  | day => result
  end.

(** [a.localeCompare(b) > 0], the translated text of the other series, and the
    configuration of the currency. *)
Context (locale_after : jsstr -> jsstr -> bool) (otherLabel : jsstr)
  (stored : option StoredCurrency).

(** ** Texts of quotas *)

Definition MAX_CHART_TREND_POINTS : nat := 7.

(** [rawQuota.toLocaleString()] *)
Context (to_locale_string : num -> jsstr).

Definition renderQuotaCompat (rawQuota : num) (digits : nat) : jsstr :=
  let '(config, meta) := getCurrencyDisplay stored in
  match meta with
  | MTokens _ => to_locale_string rawQuota
  | MCurrency symbol _ rate | MCustom symbol rate =>
      let value := nmul (ndiv rawQuota (quotaPerUnit config)) rate in
      let fixed := to_fixed digits value in
      if neqb (parse_float fixed) zero && nltb zero rawQuota && nltb zero value
      then symbol ++ to_fixed digits (power_of_ten_below digits)
      else symbol ++ fixed
  end.

(** The quota in dollars with four digits: [usd ? Number(usd.toFixed(4)) : 0]. *)
Definition usage_of (rawQuota : num) : num :=
  let usd := if truthy_num rawQuota then ndiv rawQuota (quotaPerUnit (getConfig stored)) else zero in
  if truthy_num usd then number_of_string (to_fixed 4 usd) else zero.

(** ** Summing by time and model *)

Abbreviation by_model := (list (jsstr * Stats)).
Abbreviation by_time := (list (jsstr * by_model)).

Definition model_of (item : QuotaDataItem) : jsstr := name_or (js "Unknown") (model_name item).

Context (granularity : TimeGranularity).

Definition label_of (item : QuotaDataItem) : jsstr := formatChartTime granularity (created_at item).

(** One round of the first loop. *)
Definition aggregate_item (item : QuotaDataItem) (maps : by_time * by_model) : by_time * by_model :=
  let '(timeModelMap, modelTotalsMap) := maps in
  (mupdate (label_of item) [] (mupdate (model_of item) no_stats (add_item item)) timeModelMap,
   mupdate (model_of item) no_stats (add_item item) modelTotalsMap).

Definition aggregate (data : list QuotaDataItem) : by_time * by_model :=
  fold_left (fun maps item => aggregate_item item maps) data ([], []).

(** [timeModelMap.get(time)?.get(model)] *)
Definition stats_at (m : by_time) (time model : jsstr) : Stats :=
  match mget time m with
  | Some models => default no_stats (mget model models)
  | None => no_stats
  end.

(** [Number(stats?.quota) || 0] and [Number(stats?.count) || 0] *)
Definition quota_at (m : by_time) (time model : jsstr) : num := or_zero (s_quota (stats_at m time model)).
Definition count_at (m : by_time) (time model : jsstr) : num := or_zero (s_count (stats_at m time model)).

(** ** The labels of the axis *)

Definition interval_seconds : Z :=
  match granularity with week => 604800 | day => 86400 | hour => 3600 end.

Definition lastTime (data : list QuotaDataItem) : num :=
  fold_left (fun m item => math_max m (or_zero (created_at item))) data (S754_infinity true).

(** [fillTimePoints] *)
Definition fillTimePoints (data : list QuotaDataItem) (times : list jsstr) : list jsstr :=
  if bool_decide (MAX_CHART_TREND_POINTS <= length times)%nat then times
  else (fun i : nat =>
          formatChartTime granularity
            (nsub (lastTime data)
                  (num_of_Z ((Z.of_nat MAX_CHART_TREND_POINTS - 1 - Z.of_nat i) * interval_seconds))))
       <$> seq 0 MAX_CHART_TREND_POINTS.

Definition sortedTimes (m : by_time) : list jsstr := js_sort units_after (fst <$> m).
Definition sortedModels (m : by_model) : list jsstr := js_sort units_after (fst <$> m).

Definition chartTimes (data : list QuotaDataItem) : list jsstr :=
  fillTimePoints data (sortedTimes (fst (aggregate data))).

(** ** The series *)

Record QuotaPoint := {
  q_Time : jsstr; q_Model : jsstr; q_rawQuota : num; q_Usage : num; q_TimeSum : num }.
Record CountPoint := { c_Time : jsstr; c_Model : jsstr; c_Count : num }.
Record Ranked := { r_Model : jsstr; r_Value : num }.

(** A sum from zero. *)
Definition nsum (l : list num) : num := fold_left nadd l zero.

(** The bars of one time. *)
Definition bars_at (timeModelMap : by_time) (models : list jsstr) (time : jsstr) : list QuotaPoint :=
  let timeData := (fun model => let raw := quota_at timeModelMap time model in
                    {| q_Time := time; q_Model := model; q_rawQuota := raw;
                       q_Usage := usage_of raw; q_TimeSum := zero |}) <$> models in
  let timeSum := nsum (q_rawQuota <$> timeData) in
  (fun item => {| q_Time := q_Time item; q_Model := q_Model item; q_rawQuota := q_rawQuota item;
                  q_Usage := q_Usage item; q_TimeSum := timeSum |})
  <$> js_sort (less_than_by q_rawQuota) timeData.

Definition by_label (f : QuotaPoint -> jsstr) (a b : QuotaPoint) : bool := locale_after (f a) (f b).

Definition lineValues (data : list QuotaDataItem) : list QuotaPoint :=
  let '(timeModelMap, modelTotalsMap) := aggregate data in
  js_sort (by_label q_Time)
    (chartTimes data ≫= bars_at timeModelMap (sortedModels modelTotalsMap)).

(** The models by a total, the greatest first. *)
Definition ranked_by (f : Stats -> num) (modelTotalsMap : by_model) : list Ranked :=
  js_sort (less_than_by r_Value)
    ((fun kv => {| r_Model := fst kv; r_Value := or_zero (f (snd kv)) |}) <$> modelTotalsMap).

Definition MAX_AREA_MODELS : nat := 15.
Definition MAX_TREND_MODELS : nat := 20.
Definition MAX_RANK_MODELS : nat := 20.

Definition topAreaModels (modelTotalsMap : by_model) : list jsstr :=
  r_Model <$> take MAX_AREA_MODELS (ranked_by s_quota modelTotalsMap).

(** One round of the loop over models: the bucket of the model, or of the others. *)
Definition add_to_bucket (timeModelMap : by_time) (top : list jsstr) (time : jsstr)
    (buckets : list (jsstr * (num * num))) (model : jsstr) : list (jsstr * (num * num)) :=
  let raw := quota_at timeModelMap time model in
  let key := if bool_decide (model ∈ top) then model else otherLabel in
  mupdate key (zero, zero)
    (fun prev => (nadd (fst prev) raw,
                  number_of_string (to_fixed 4 (nadd (snd prev) (usage_of raw))))) buckets.

Definition area_at (timeModelMap : by_time) (models top : list jsstr) (time : jsstr) : list QuotaPoint :=
  let buckets := fold_left (add_to_bucket timeModelMap top time) models [] in
  let timeSum := nsum (quota_at timeModelMap time <$> models) in
  (fun kv => {| q_Time := time; q_Model := fst kv; q_rawQuota := fst (snd kv);
                q_Usage := snd (snd kv); q_TimeSum := timeSum |}) <$> buckets.

Definition areaValues (data : list QuotaDataItem) : list QuotaPoint :=
  let '(timeModelMap, modelTotalsMap) := aggregate data in
  js_sort (by_label q_Time)
    (chartTimes data ≫= area_at timeModelMap (sortedModels modelTotalsMap)
                                (topAreaModels modelTotalsMap)).

Definition trend_at (timeModelMap : by_time) (top others : list jsstr) (time : jsstr)
    : list CountPoint :=
  ((fun model => {| c_Time := time; c_Model := model; c_Count := count_at timeModelMap time model |})
   <$> top)
  ++ match others with
     | [] => []
     | _ => [{| c_Time := time; c_Model := otherLabel;
                c_Count := nsum (count_at timeModelMap time <$> others) |}]
     end.

Definition modelLineValues (data : list QuotaDataItem) : list CountPoint :=
  let '(timeModelMap, modelTotalsMap) := aggregate data in
  let ranked := r_Model <$> ranked_by s_count modelTotalsMap in
  js_sort (fun a b => locale_after (c_Time a) (c_Time b))
    (chartTimes data ≫= trend_at timeModelMap (take MAX_TREND_MODELS ranked)
                                 (drop MAX_TREND_MODELS ranked)).

Definition pieValues (data : list QuotaDataItem) : list Ranked :=
  ranked_by s_count (snd (aggregate data)).

Definition rankValues (data : list QuotaDataItem) : list Ranked :=
  let all := ranked_by s_count (snd (aggregate data)) in
  if bool_decide (MAX_RANK_MODELS < length all)%nat
  then take MAX_RANK_MODELS all
       ++ [{| r_Model := otherLabel; r_Value := nsum (r_Value <$> drop MAX_RANK_MODELS all) |}]
  else all.

Definition totalTimes (data : list QuotaDataItem) : num :=
  nsum ((fun kv => or_zero (s_count (snd kv))) <$> snd (aggregate data)).
Definition totalQuotaRaw (data : list QuotaDataItem) : num :=
  nsum ((fun kv => or_zero (s_quota (snd kv))) <$> snd (aggregate data)).

(** ** Tooltips *)

(** A line of a tooltip: the series, its number, and what the chart attached to its point:
    the quota and the sum of its label. *)
Record TooltipLine := { l_key : jsstr; l_value : num; l_datum : option (num * num) }.

Definition MAX_TOOLTIP_MODELS : nat := 15.

Definition isOtherTooltipKey (key : jsstr) : bool :=
  bool_decide (key = js "Other") || bool_decide (key = otherLabel).

(** The lines of a tooltip of the quota charts, above them the total. *)
Definition quota_tooltip (totalLabel : jsstr) (collapseOverflow : bool) (lines : list TooltipLine)
    : list (jsstr * jsstr) :=
  let modelItems := js_sort (less_than_by (fun l => or_zero (l_value l)))
                      (filterb (fun l => negb (isOtherTooltipKey (l_key l))) lines) in
  let otherItems := filterb (fun l => isOtherTooltipKey (l_key l)) lines in
  let array := modelItems ++ otherItems in
  let sum := fold_left (fun s l => match l_datum l with
                                   | Some (_, timeSum) => if truthy_num timeSum then timeSum else s
                                   | None => s
                                   end) array zero in
  let shown l := (l_key l, renderQuotaCompat (or_zero (l_value l)) 4) in
  let body :=
    if collapseOverflow && bool_decide (MAX_TOOLTIP_MODELS < length array)%nat then
      (shown <$> take MAX_TOOLTIP_MODELS modelItems)
      ++ [(otherLabel,
           renderQuotaCompat
             (nsum ((fun l => match l_datum l with Some (raw, _) => or_zero raw | None => zero end)
                    <$> drop MAX_TOOLTIP_MODELS modelItems ++ otherItems)) 4)]
    else shown <$> array in
  (totalLabel, renderQuotaCompat sum 4) :: body.

(** The lines of a tooltip of the call trend. *)
Definition count_tooltip (format_int : num -> jsstr) (totalLabel : jsstr) (lines : list TooltipLine)
    : list (jsstr * jsstr) :=
  let modelItems := js_sort (less_than_by (fun l => or_zero (l_value l)))
                      (filterb (fun l => negb (isOtherTooltipKey (l_key l))) lines) in
  let array := modelItems ++ filterb (fun l => isOtherTooltipKey (l_key l)) lines in
  (totalLabel, format_int (nsum ((fun l => or_zero (l_value l)) <$> array)))
  :: ((fun l => (l_key l, format_int (or_zero (l_value l)))) <$> array).

(** ** Users *)

Definition user_of (item : QuotaDataItem) : jsstr := name_or (js "unknown") (username item).

(** [map.set(k, (map.get(k) || 0) + quota)] *)
Definition add_quota (item : QuotaDataItem) (prev : num) : num :=
  nadd (or_zero prev) (amount_of (quota item)).

Definition userQuotaTotal (data : list QuotaDataItem) : list (jsstr * num) :=
  fold_left (fun m item => mupdate (user_of item) zero (add_quota item) m) data [].

Definition sorted_users (data : list QuotaDataItem) : list (jsstr * num) :=
  js_sort (less_than_by snd) (userQuotaTotal data).

Definition topUsers (limit : nat) (data : list QuotaDataItem) : list jsstr :=
  fst <$> take limit (sorted_users data).

Record UserPoint := { u_Time : jsstr; u_User : jsstr; u_rawQuota : num; u_Usage : num }.

(** [Number((q / quotaPerUnit).toFixed(4))] *)
Definition user_usage (q : num) : num :=
  number_of_string (to_fixed 4 (ndiv q (quotaPerUnit (getConfig stored)))).

(** The ranking, as (user, quota, dollars), and its total. *)
Definition user_rank (limit : nat) (data : list QuotaDataItem) : list (jsstr * num * num) :=
  (fun kv => (fst kv, snd kv, user_usage (snd kv))) <$> take limit (sorted_users data).
Definition user_rank_total (limit : nat) (data : list QuotaDataItem) : num :=
  nsum (snd <$> take limit (sorted_users data)).

(** [timeUserMap], of the users that are shown. *)
Definition timeUserMap (top : list jsstr) (data : list QuotaDataItem) : list (jsstr * list (jsstr * num)) :=
  fold_left (fun m item =>
      if bool_decide (user_of item ∈ top)
      then mupdate (label_of item) [] (mupdate (user_of item) zero (add_quota item)) m
      else m) data [].

Definition user_quota_at (m : list (jsstr * list (jsstr * num))) (time user : jsstr) : num :=
  or_zero (match mget time m with Some users => default zero (mget user users) | None => zero end).

Definition trendValues (limit : nat) (data : list QuotaDataItem) : list UserPoint :=
  let top := topUsers limit data in
  let m := timeUserMap top data in
  js_sort units_after (uniq (label_of <$> data)) ≫= (fun time =>
    (fun user => let q := user_quota_at m time user in
       {| u_Time := time; u_User := user; u_rawQuota := q; u_Usage := user_usage q |}) <$> top).

End Charts.

(** ** Lemmas: sorting *)

Lemma bind_perm {A B} (f g : A -> list B) l : (forall x, f x ≡ₚ g x) -> l ≫= f ≡ₚ l ≫= g.
Proof. intros H. induction l as [|x l IH]; simpl; [done|]. by rewrite H, IH. Qed.

(** ** Sums of whole numbers *)

Definition sumZ (l : list Z) : Z := foldr Z.add 0 l.

Lemma sumZ_app l k : sumZ (l ++ k) = sumZ l + sumZ k.
Proof. induction l as [|x l IH]; csimpl; [done|]. rewrite IH. lia. Qed.

#[export] Instance sumZ_perm : Proper (Permutation ==> eq) sumZ.
Proof. intros l k H. induction H; simpl; lia. Qed.

Lemma sumZ_nonneg l : Forall (fun z => 0 <= z) l -> 0 <= sumZ l.
Proof. induction 1; simpl; lia. Qed.

Lemma sumZ_add {A} (f g : A -> Z) l : sumZ ((fun x => f x + g x) <$> l) = sumZ (f <$> l) + sumZ (g <$> l).
Proof. induction l as [|x l IH]; csimpl; [done|]. rewrite IH. lia. Qed.

Lemma sumZ_zero {A} (f : A -> Z) l : (forall x, x ∈ l -> f x = 0) -> sumZ (f <$> l) = 0.
Proof.
  induction l as [|x l IH]; csimpl; intros H; [done|].
  rewrite IH, H; [done|left|]. intros y Hy. apply H. by right.
Qed.

(** One term of a sum over distinct keys. *)
Lemma sumZ_single {A} `{EqDecision A} (k : A) v l :
  NoDup l -> k ∈ l -> sumZ ((fun x => if bool_decide (x = k) then v else 0) <$> l) = v.
Proof.
  induction l as [|x l IH]; intros Hn Hk; [by apply elem_of_nil in Hk|].
  apply NoDup_cons in Hn as [Hx Hn]. csimpl. destruct (decide (x = k)) as [->|H].
  - rewrite bool_decide_eq_true_2 by done. rewrite sumZ_zero; [lia|].
    intros y Hy. rewrite bool_decide_eq_false_2; [done|]. by intros ->.
  - rewrite bool_decide_eq_false_2 by done. apply elem_of_cons in Hk as [->|Hk]; [done|].
    rewrite IH by done. lia.
Qed.

Lemma nsum_whole l a :
  Forall (fun z => 0 <= z) l -> 0 <= a -> a + sumZ l < 2 ^ 53 ->
  fold_left nadd (num_of_Z <$> l) (num_of_Z a) = num_of_Z (a + sumZ l).
Proof.
  intros H. revert a. induction H as [|z l Hz Hl IH]; intros a Ha Hs; csimpl in *; simpl in Hs |- *.
  - by rewrite Z.add_0_r.
  - pose proof (sumZ_nonneg l Hl). rewrite nadd_of_Z by lia. rewrite IH by lia. f_equal. lia.
Qed.

Lemma nsum_of_Z l :
  Forall (fun z => 0 <= z) l -> sumZ l < 2 ^ 53 -> nsum (num_of_Z <$> l) = num_of_Z (sumZ l).
Proof. intros H Hs. apply (nsum_whole l 0); simpl; [done|lia|lia]. Qed.

Lemma or_zero_of_Z z : 0 <= z < 2 ^ 53 -> or_zero (num_of_Z z) = num_of_Z z.
Proof.
  intros H. destruct (Z.eq_dec z 0) as [->|]; [done|].
  destruct (num_of_Z_exact z ltac:(lia)) as [(m & e & -> & _) _]. done.
Qed.

(** ** What the maps hold *)

Section Aggregated.

Context (dayjs_format : num -> Z -> jsstr -> jsstr) (granularity : TimeGranularity).

#[local] Abbreviation label := (label_of dayjs_format granularity).
#[local] Abbreviation aggregated := (aggregate dayjs_format granularity).

(** The records of a time and a model, of a time, of a model. *)
Definition at_cell (t m : jsstr) (item : QuotaDataItem) : bool :=
  bool_decide (t = label item) && bool_decide (m = model_of item).
Definition at_time (t : jsstr) (item : QuotaDataItem) : bool := bool_decide (t = label item).
Definition of_model (m : jsstr) (item : QuotaDataItem) : bool := bool_decide (m = model_of item).

Lemma aggregate_snoc data item :
  aggregated (data ++ [item]) = aggregate_item dayjs_format granularity item (aggregated data).
Proof. unfold aggregate. by rewrite fold_left_app. Qed.

Lemma stats_snoc data item :
  calculateDashboardStats (data ++ [item]) = add_item item (calculateDashboardStats data).
Proof. unfold calculateDashboardStats. by rewrite fold_left_app. Qed.

(** Each cell holds the sums of its own records, in their order. *)
Lemma stats_at_aggregate data t m :
  stats_at (fst (aggregated data)) t m = calculateDashboardStats (filterb (at_cell t m) data).
Proof.
  induction data as [|item data IH] using rev_ind; [done|].
  rewrite aggregate_snoc, filterb_app. cbn [filterb]. unfold aggregate_item.
  destruct (aggregated data) as [times totals]. simpl fst in *. unfold stats_at in *.
  rewrite mget_mupdate. unfold at_cell at 2. destruct (decide (t = label item)) as [->|Ht].
  - rewrite !(bool_decide_eq_true_2 (label item = label item)) by done. rewrite mget_mupdate.
    simpl andb. destruct (decide (m = model_of item)) as [->|Hm].
    + rewrite !(bool_decide_eq_true_2 (model_of item = model_of item)) by done.
      rewrite stats_snoc. simpl default. f_equal. rewrite <- IH. by destruct (mget _ times).
    + rewrite !(bool_decide_eq_false_2 (m = model_of item)) by done. rewrite app_nil_r, <- IH.
      by destruct (mget _ times).
  - rewrite !(bool_decide_eq_false_2 (t = label item)) by done. simpl andb. by rewrite app_nil_r.
Qed.

Lemma total_aggregate data m :
  default no_stats (mget m (snd (aggregated data)))
  = calculateDashboardStats (filterb (of_model m) data).
Proof.
  induction data as [|item data IH] using rev_ind; [done|].
  rewrite aggregate_snoc, filterb_app. cbn [filterb]. unfold aggregate_item.
  destruct (aggregated data) as [times totals]. simpl snd in *.
  rewrite mget_mupdate. unfold of_model at 2. destruct (decide (m = model_of item)) as [->|Hm].
  - rewrite !(bool_decide_eq_true_2 (model_of item = model_of item)) by done.
    rewrite stats_snoc. simpl default. by rewrite <- IH.
  - rewrite !(bool_decide_eq_false_2 (m = model_of item)) by done. by rewrite app_nil_r, <- IH.
Qed.

(** The keys of the maps: the labels and the models of the records, once each. *)
Lemma times_elem data t : t ∈ (fst <$> fst (aggregated data)) <-> exists i, i ∈ data /\ t = label i.
Proof.
  induction data as [|item data IH] using rev_ind.
  - split; [intros H; by apply elem_of_nil in H|intros (i & H & _); by apply elem_of_nil in H].
  - rewrite aggregate_snoc. unfold aggregate_item.
    destruct (aggregated data) as [times totals]. simpl fst in *. unfold mupdate.
    rewrite mset_keys_elem, IH. setoid_rewrite elem_of_app. setoid_rewrite list_elem_of_singleton.
    naive_solver.
Qed.

Lemma models_elem data m : m ∈ (fst <$> snd (aggregated data)) <-> exists i, i ∈ data /\ m = model_of i.
Proof.
  induction data as [|item data IH] using rev_ind.
  - split; [intros H; by apply elem_of_nil in H|intros (i & H & _); by apply elem_of_nil in H].
  - rewrite aggregate_snoc. unfold aggregate_item.
    destruct (aggregated data) as [times totals]. simpl snd in *. unfold mupdate.
    rewrite mset_keys_elem, IH. setoid_rewrite elem_of_app. setoid_rewrite list_elem_of_singleton.
    naive_solver.
Qed.

Lemma keys_NoDup data :
  NoDup (fst <$> fst (aggregated data)) /\ NoDup (fst <$> snd (aggregated data)).
Proof.
  induction data as [|item data IH] using rev_ind; [split; apply NoDup_nil_2|].
  rewrite aggregate_snoc. unfold aggregate_item.
  destruct (aggregated data) as [times totals]. simpl in *.
  destruct IH. split; unfold mupdate; by apply mset_keys_NoDup.
Qed.

End Aggregated.

(** ** Sums of a field *)

(** The integer a number stands for. *)
Definition Z_of_num (x : num) : Z :=
  match x with
  | S754_finite neg m e =>
      cond_Zopp neg (match e with Zneg q => Zpos m / 2 ^ Zpos q | _ => Zpos m * 2 ^ e end)
  | _ => 0
  end.

(** One of the three fields that are summed, and where its sum is. *)
Class Measure := {
  field : QuotaDataItem -> option num;
  summed : Stats -> num;
  summed_none : summed no_stats = zero;
  summed_add item x : summed (add_item item x) = nadd (summed x) (amount_of (field item)) }.

#[export] Instance quota_measure : Measure :=
  {| field := quota; summed := s_quota; summed_none := eq_refl;
     summed_add := fun _ _ => eq_refl |}.
Definition count_measure : Measure :=
  {| field := count; summed := s_count; summed_none := eq_refl;
     summed_add := fun _ _ => eq_refl |}.

Section Whole.

Context (M : Measure).

Definition units (item : QuotaDataItem) : Z := Z_of_num (amount_of (field item)).

(** The total of the field over some records. *)
Definition total (data : list QuotaDataItem) : Z := sumZ (units <$> data).

(** The field holds natural numbers whose total a number holds exactly. *)
Definition whole (data : list QuotaDataItem) : Prop :=
  Forall (fun i => amount_of (field i) = num_of_Z (units i) /\ 0 <= units i) data
  /\ total data < 2 ^ 53.

Lemma total_app a b : total (a ++ b) = total a + total b.
Proof. unfold total. by rewrite fmap_app, sumZ_app. Qed.

Lemma whole_units data : whole data -> Forall (fun z => 0 <= z) (units <$> data).
Proof. intros [H _]. apply Forall_fmap. eapply Forall_impl; [exact H|]. by intros i [_ ?]. Qed.

Lemma total_nonneg data : whole data -> 0 <= total data.
Proof. intros H. by apply sumZ_nonneg, whole_units. Qed.

Lemma total_filter_le p data : whole data -> 0 <= total (filterb p data) <= total data.
Proof.
  intros [H _]. unfold total. induction H as [|i l [_ Hi] Hl IH]; [done|].
  simpl filterb. destruct (p i); csimpl; lia.
Qed.

Lemma whole_filter p data : whole data -> whole (filterb p data).
Proof.
  intros H. split; [apply Forall_filterb, H|]. pose proof (total_filter_le p data H).
  destruct H. lia.
Qed.

Lemma whole_snoc data i :
  whole (data ++ [i]) ->
  whole data /\ amount_of (field i) = num_of_Z (units i) /\ 0 <= units i /\ total data + units i < 2 ^ 53.
Proof.
  intros [H1 H2]. apply Forall_app in H1 as [H1 H3]. apply Forall_cons_1 in H3 as [[E H3] _].
  rewrite total_app in H2. change (total [i]) with (units i + 0) in H2.
  split; [split; [done|lia]|]. split_and!; [done|done|lia].
Qed.

Lemma total_snoc data i : total (data ++ [i]) = total data + units i.
Proof. rewrite total_app. change (total [i]) with (units i + 0). lia. Qed.

Lemma stats_whole data : whole data -> summed (calculateDashboardStats data) = num_of_Z (total data).
Proof.
  induction data as [|i data IH] using rev_ind; intros H; [apply summed_none|].
  apply whole_snoc in H as (Hd & E & Hi & Hs). pose proof (total_nonneg data Hd).
  by rewrite stats_snoc, summed_add, (IH Hd), total_snoc, E, nadd_of_Z by lia.
Qed.

(** The records of distinct keys add up to all of them. *)
Lemma total_partition (key : QuotaDataItem -> jsstr) keys data :
  NoDup keys -> (forall i, i ∈ data -> key i ∈ keys) ->
  sumZ ((fun k => total (filterb (fun i => bool_decide (k = key i)) data)) <$> keys) = total data.
Proof.
  intros Hn. induction data as [|i data IH]; intros H; [by apply sumZ_zero|].
  change (total (i :: data)) with (units i + total data).
  rewrite <- IH by (intros j Hj; apply H; by right).
  rewrite <- (sumZ_single (key i) (units i) keys Hn) by (apply H; left).
  rewrite <- sumZ_add. f_equal. apply list_fmap_ext. intros n k _. simpl filterb.
  by case_bool_decide.
Qed.

End Whole.

(** ** The series *)

Lemma Z_of_num_of_Z z : 0 <= z < 2 ^ 53 -> Z_of_num (num_of_Z z) = z.
Proof.
  intros H. destruct (Z.eq_dec z 0) as [->|]; [done|].
  destruct (num_of_Z_exact z ltac:(lia)) as [F E].
  destruct F as (m & e & Eq & _). rewrite Eq, numq_full in E. rewrite Eq. unfold Z_of_num.
  simpl cond_Zopp. by apply value_whole.
Qed.

Section Series.

Context (dayjs_format : num -> Z -> jsstr -> jsstr) (otherLabel : jsstr)
  (stored : option StoredCurrency) (granularity : TimeGranularity) (data : list QuotaDataItem).

#[local] Abbreviation label := (label_of dayjs_format granularity).
#[local] Abbreviation maps := (aggregate dayjs_format granularity data).
#[local] Abbreviation shown := (chartTimes dayjs_format granularity data).
#[local] Abbreviation cell t m := (filterb (at_cell dayjs_format granularity t m) data).
#[local] Abbreviation slot t := (filterb (at_time dayjs_format granularity t) data).

(** The models of the records, once each. *)
Definition models : list jsstr := uniq (model_of <$> data).

Lemma models_perm : (fst <$> snd maps) ≡ₚ models.
Proof.
  apply NoDup_Permutation; [apply keys_NoDup|apply uniq_NoDup|].
  intros m. unfold models. rewrite models_elem, uniq_elem, list_elem_of_fmap. naive_solver.
Qed.

Lemma sorted_models_perm : sortedModels (snd maps) ≡ₚ models.
Proof. unfold sortedModels. rewrite js_sort_perm. apply models_perm. Qed.

Lemma model_known i : i ∈ data -> model_of i ∈ models.
Proof. intros H. apply uniq_elem, list_elem_of_fmap. by exists i. Qed.

Lemma cell_of_slot t m : cell t m = filterb (of_model m) (slot t).
Proof.
  induction data as [|i l IH]; [done|]. simpl. unfold at_cell, at_time, of_model in *.
  rewrite IH. destruct (bool_decide (t = label i)); simpl; [|done].
  by destruct (bool_decide (m = model_of i)).
Qed.

Section Measured.

Context (M : Measure) (HM : whole M data).

(** The sums of a time over any order of the models. *)
Lemma slot_total t l :
  l ≡ₚ models -> sumZ ((fun m => total M (cell t m)) <$> l) = total M (slot t).
Proof.
  intros Hl. rewrite Hl.
  rewrite <- (total_partition M model_of models (slot t)); [|apply uniq_NoDup|].
  - f_equal. apply list_fmap_ext. intros n m _. by rewrite cell_of_slot.
  - intros i Hi. apply elem_of_filterb in Hi as [_ Hi]. by apply model_known.
Qed.

Lemma model_total l :
  l ≡ₚ models -> sumZ ((fun m => total M (filterb (of_model m) data)) <$> l) = total M data.
Proof.
  intros Hl. rewrite Hl. apply (total_partition M model_of models data); [apply uniq_NoDup|].
  apply model_known.
Qed.

Lemma part_bound p : 0 <= total M (filterb p data) < 2 ^ 53.
Proof. pose proof (total_filter_le M p data HM). destruct HM. lia. Qed.

Lemma stats_part p :
  or_zero (summed (calculateDashboardStats (filterb p data))) = num_of_Z (total M (filterb p data)).
Proof.
  rewrite stats_whole by (by apply whole_filter). apply or_zero_of_Z, part_bound.
Qed.

Lemma cell_value t m : or_zero (summed (stats_at (fst maps) t m)) = num_of_Z (total M (cell t m)).
Proof. rewrite stats_at_aggregate. apply stats_part. Qed.

(** A sum of the parts of a time, in any grouping, is the sum of the time. *)
Lemma nsum_parts {A} (f : A -> Z) (l : list A) n :
  (forall x, 0 <= f x) -> sumZ (f <$> l) = n -> n < 2 ^ 53 ->
  nsum ((fun x => num_of_Z (f x)) <$> l) = num_of_Z n.
Proof.
  intros Hf <- H. change (fun x => num_of_Z (f x)) with (num_of_Z ∘ f).
  rewrite list_fmap_compose. apply nsum_of_Z; [|done].
  apply Forall_fmap, Forall_true. done.
Qed.

Lemma slot_sum t l :
  l ≡ₚ models ->
  nsum ((fun m => or_zero (summed (stats_at (fst maps) t m))) <$> l) = num_of_Z (total M (slot t)).
Proof.
  intros Hl. rewrite (list_fmap_ext _ (fun m => num_of_Z (total M (cell t m)))).
  - apply nsum_parts; [intros m; apply part_bound|by apply slot_total|apply part_bound].
  - intros n m _. apply cell_value.
Qed.

End Measured.

(** *** Bars *)

(** The bar of a model at a time. *)
Definition bar_spec (t m : jsstr) : QuotaPoint :=
  let raw := num_of_Z (total quota_measure (cell t m)) in
  {| q_Time := t; q_Model := m; q_rawQuota := raw; q_Usage := usage_of stored raw;
     q_TimeSum := num_of_Z (total quota_measure (slot t)) |}.

Lemma bars_at_spec t :
  whole quota_measure data ->
  bars_at stored (fst maps) (sortedModels (snd maps)) t ≡ₚ bar_spec t <$> models.
Proof.
  intros HM. unfold bars_at. rewrite js_sort_perm, <- !list_fmap_compose, <- sorted_models_perm.
  apply Permutation_refl'. apply list_fmap_ext. intros n m _. unfold bar_spec. simpl.
  pose proof (cell_value quota_measure HM t m) as E. simpl in E.
  unfold quota_at at 1 2. rewrite E. f_equal.
  apply (slot_sum quota_measure HM t). apply sorted_models_perm.
Qed.

(** *** The series of the others *)

(** The numbers are natural numbers with this sum. *)
Definition sums (l : list num) (n : Z) : Prop :=
  exists zs, l = num_of_Z <$> zs /\ Forall (fun z => 0 <= z) zs /\ sumZ zs = n.

Lemma sums_perm l k n : l ≡ₚ k -> sums k n -> sums l n.
Proof.
  intros H (zs & -> & F & S). apply Permutation_map_inv in H as (ys & -> & P).
  exists ys. split; [done|]. split; [by rewrite <- P|by rewrite <- P].
Qed.

Lemma sums_of {A} (f : A -> Z) l n :
  (forall x, 0 <= f x) -> sumZ (f <$> l) = n -> sums ((fun x => num_of_Z (f x)) <$> l) n.
Proof.
  intros Hf S. exists (f <$> l). split; [by rewrite <- list_fmap_compose|].
  split; [by apply Forall_fmap, Forall_true|done].
Qed.

Lemma sums_app l k a b : sums l a -> sums k b -> sums (l ++ k) (a + b).
Proof.
  intros (x & -> & Fx & <-) (y & -> & Fy & <-). exists (x ++ y).
  rewrite fmap_app, sumZ_app. split; [done|]. split; [by apply Forall_app|done].
Qed.

Lemma sums_one l n : sums l n -> n < 2 ^ 53 -> sums [nsum l] n.
Proof.
  intros (zs & -> & F & <-) H. exists [sumZ zs]. rewrite nsum_of_Z by done. split; [done|].
  split; [apply Forall_singleton, sumZ_nonneg; done|]. simpl. lia.
Qed.

(** Everything after the first [n] is gathered in one place without loss. *)
Lemma sums_gathered l n k :
  sums l n -> n < 2 ^ 53 ->
  sums (take k l ++ match drop k l with [] => [] | rest => [nsum rest] end) n.
Proof.
  intros (zs & -> & F & S) H. rewrite <- fmap_take, <- fmap_drop.
  assert (A : sumZ (take k zs) + sumZ (drop k zs) = n) by (by rewrite <- sumZ_app, take_drop).
  assert (Ft : Forall (fun z => 0 <= z) (take k zs)) by (by apply Forall_take).
  assert (Fd : Forall (fun z => 0 <= z) (drop k zs)) by (by apply Forall_drop).
  pose proof (sumZ_nonneg _ Ft). rewrite <- A. apply sums_app; [by exists (take k zs)|].
  destruct (drop k zs) as [|z r] eqn:E; [by exists []|].
  apply sums_one; [by exists (z :: r)|lia].
Qed.

Lemma bucket_step (b : list (jsstr * (num * num))) zs key z (g : num * num -> num) :
  (fun kv => fst (snd kv)) <$> b = num_of_Z <$> zs -> Forall (fun z => 0 <= z) zs ->
  0 <= z -> sumZ zs + z < 2 ^ 53 ->
  sums ((fun kv => fst (snd kv))
        <$> mupdate key (zero, zero) (fun prev => (nadd (fst prev) (num_of_Z z), g prev)) b)
       (sumZ zs + z).
Proof.
  unfold mupdate. revert zs. induction b as [|[i [raw u]] b IH]; intros zs E F Hz H.
  - destruct zs; [|done]. exists [z]. simpl in H. split; [|].
    { csimpl. do 2 f_equal. apply (nadd_of_Z 0 z); lia. } split; [by apply Forall_singleton|simpl; lia].
  - destruct zs as [|y zs]; [done|]. injection E as Er Et'.
    assert (Et : (fun kv => fst (snd kv)) <$> b = num_of_Z <$> zs) by exact Et'. clear Et'.
    apply Forall_cons in F as [Hy F].
    pose proof (sumZ_nonneg _ F). simpl in H. simpl mget. simpl mset.
    destruct (decide (key = i)) as [->|Hk].
    + rewrite bool_decide_eq_true_2 by done. simpl in Er. subst raw.
      exists (y + z :: zs). csimpl. rewrite nadd_of_Z, Et by lia. split; [done|].
      split; [apply Forall_cons; split; [lia|done]|simpl; lia].
    + rewrite bool_decide_eq_false_2 by done. simpl in Er. subst raw.
      destruct (IH zs Et F Hz ltac:(lia)) as (ys & E2 & F2 & S2). exists (y :: ys). csimpl.
      rewrite E2. split; [done|]. split; [by apply Forall_cons|simpl; lia].
Qed.

Lemma buckets_sum top t l zs b :
  whole quota_measure data ->
  (fun kv => fst (snd kv)) <$> b = num_of_Z <$> zs -> Forall (fun z => 0 <= z) zs ->
  sumZ zs + sumZ ((fun m => total quota_measure (cell t m)) <$> l) < 2 ^ 53 ->
  sums ((fun kv => fst (snd kv)) <$> fold_left (add_to_bucket otherLabel stored (fst maps) top t) l b)
       (sumZ zs + sumZ ((fun m => total quota_measure (cell t m)) <$> l)).
Proof.
  intros HM. revert zs b. induction l as [|m l IH]; intros zs b E F H.
  - exists zs. simpl in *. split; [done|]. split; [done|lia].
  - csimpl in H. simpl fold_left. simpl in H.
    pose proof (part_bound quota_measure HM (at_cell dayjs_format granularity t m)) as P.
    assert (0 <= sumZ ((fun m => total quota_measure (cell t m)) <$> l)).
    { apply sumZ_nonneg, Forall_fmap, Forall_true. intros x. apply (part_bound quota_measure HM). }
    unfold add_to_bucket at 2. pose proof (cell_value quota_measure HM t m) as C.
    change (quota_at (fst maps) t m = num_of_Z (total quota_measure (cell t m))) in C. rewrite C.
    destruct (bucket_step b zs (if bool_decide (m ∈ top) then m else otherLabel)
                (total quota_measure (cell t m))
                (fun prev => number_of_string (to_fixed 4 (nadd (snd prev)
                   (usage_of stored (num_of_Z (total quota_measure (cell t m))))))) E F
                ltac:(lia) ltac:(lia)) as (ys & E2 & F2 & S2).
    csimpl. rewrite Z.add_assoc, <- S2. apply IH; [done|done|]. rewrite S2. lia.
Qed.

Lemma ranked_values M :
  whole M data ->
  r_Value <$> ranked_by summed (snd maps)
  ≡ₚ (fun m => num_of_Z (total M (filterb (of_model m) data))) <$> (fst <$> snd maps).
Proof.
  intros HM. unfold ranked_by. rewrite js_sort_perm, <- list_fmap_compose.
  apply Permutation_refl'.
  etrans; [exact (map_lookups (fun _ s => or_zero (summed s)) (snd maps) no_stats
                    (proj2 (keys_NoDup dayjs_format granularity data)))|].
  apply list_fmap_ext. intros n m _. rewrite total_aggregate. by apply stats_part.
Qed.

Lemma ranked_models f : r_Model <$> ranked_by f (snd maps) ≡ₚ models.
Proof.
  unfold ranked_by. rewrite js_sort_perm, <- list_fmap_compose. apply models_perm.
Qed.

Lemma ranked_sums M :
  whole M data -> sums (r_Value <$> ranked_by summed (snd maps)) (total M data).
Proof.
  intros HM. apply (sums_perm _ _ _ (ranked_values M HM)). apply sums_of.
  - intros m. by apply part_bound.
  - apply (model_total M). apply models_perm.
Qed.

(** The area chart at one label: the quotas of the records with it, and their sum at each
    point. *)
Lemma area_at_sums t :
  whole quota_measure data ->
  let area := area_at otherLabel stored (fst maps) (sortedModels (snd maps)) (topAreaModels (snd maps)) t in
  sums (q_rawQuota <$> area) (total quota_measure (slot t))
  /\ Forall (fun p => q_Time p = t /\ q_TimeSum p = num_of_Z (total quota_measure (slot t))) area.
Proof.
  intros HQ area. split.
  - destruct (buckets_sum (topAreaModels (snd maps)) t (sortedModels (snd maps)) [] [] HQ eq_refl)
      as (zs & E & F & S); [done|simpl; rewrite (slot_total quota_measure);
        [apply (part_bound quota_measure HQ)|apply sorted_models_perm]|].
    simpl in S. rewrite (slot_total quota_measure) in S by apply sorted_models_perm.
    exists zs. split; [|done]. subst area. unfold area_at. by rewrite <- list_fmap_compose.
  - subst area. apply Forall_fmap, Forall_true. intros kv. split; [done|].
    apply (slot_sum quota_measure HQ t). apply sorted_models_perm.
Qed.

(** The call trend at one label. *)
Lemma trend_at_sums t :
  whole count_measure data ->
  let ranked := r_Model <$> ranked_by s_count (snd maps) in
  let trend := trend_at otherLabel (fst maps) (take MAX_TREND_MODELS ranked) (drop MAX_TREND_MODELS ranked) t in
  sums (c_Count <$> trend) (total count_measure (slot t)) /\ Forall (fun p => c_Time p = t) trend.
Proof.
  intros HC ranked. split.
  - assert (P : sums (count_at (fst maps) t <$> ranked) (total count_measure (slot t))).
    { rewrite (list_fmap_ext _ (fun m => num_of_Z (total count_measure (cell t m)))).
      - apply sums_of; [intros m; apply (part_bound count_measure HC)|].
        apply (slot_total count_measure), ranked_models.
      - intros n m _. apply (cell_value count_measure HC t m). }
    apply (sums_gathered _ _ MAX_TREND_MODELS) in P; [|apply (part_bound count_measure HC)].
    rewrite <- fmap_take, <- fmap_drop in P. unfold trend_at. rewrite fmap_app, <- list_fmap_compose.
    by destruct (drop MAX_TREND_MODELS ranked).
  - unfold trend_at. apply Forall_app. split; [by apply Forall_fmap, Forall_true|].
    destruct (drop _ ranked); by repeat constructor.
Qed.

(** The ranking and the pie hold all calls. *)
Lemma ranking_sums :
  whole count_measure data ->
  sums (r_Value <$> rankValues dayjs_format otherLabel granularity data) (total count_measure data)
  /\ sums (r_Value <$> pieValues dayjs_format granularity data) (total count_measure data).
Proof.
  intros HC. pose proof (ranked_sums count_measure HC) as P. split; [|exact P].
  unfold rankValues. case_bool_decide as L; [|exact P].
  apply (sums_gathered _ _ MAX_RANK_MODELS) in P; [|apply HC].
  rewrite <- fmap_take, <- fmap_drop in P. rewrite fmap_app. simpl.
  destruct (drop MAX_RANK_MODELS _) as [|x r] eqn:E; [|exact P].
  apply (f_equal length) in E. rewrite length_drop in E. simpl in E, L. lia.
Qed.

(** The totals under the charts are those of the cards of the dashboard, which add up the
    same records without grouping them. *)
Theorem totals_agree :
  whole quota_measure data -> whole count_measure data ->
  totalQuotaRaw dayjs_format granularity data = s_quota (calculateDashboardStats data)
  /\ totalTimes dayjs_format granularity data = s_count (calculateDashboardStats data).
Proof.
  assert (A : forall M, whole M data ->
    nsum ((fun kv => or_zero (summed (snd kv))) <$> snd maps) = summed (calculateDashboardStats data)).
  { intros M HM. rewrite (stats_whole M data HM).
    rewrite (map_lookups (fun _ s => or_zero (summed s)) (snd maps) no_stats) by apply keys_NoDup.
    rewrite (list_fmap_ext _ (fun m => num_of_Z (total M (filterb (of_model m) data)))).
    - apply nsum_parts; [intros m; by apply part_bound| |apply HM].
      apply (model_total M). apply models_perm.
    - intros n m _. rewrite total_aggregate. by apply stats_part. }
  intros HQ HC. split; [exact (A quota_measure HQ)|exact (A count_measure HC)].
Qed.

(** *** The labels that are shown *)

Definition labelled (l : list jsstr) (i : QuotaDataItem) : bool := bool_decide (label i ∈ l).

Lemma sorted_times_perm : sortedTimes (fst maps) ≡ₚ uniq (label <$> data).
Proof.
  unfold sortedTimes. rewrite js_sort_perm.
  apply NoDup_Permutation; [apply keys_NoDup|apply uniq_NoDup|].
  intros t. rewrite times_elem, uniq_elem, list_elem_of_fmap. naive_solver.
Qed.

(** The labels of the axis: those of the records when there are seven of them or more,
    else the seven that end with the last record. *)
Lemma chart_times_full :
  (MAX_CHART_TREND_POINTS <= length (uniq (label <$> data)))%nat ->
  shown ≡ₚ uniq (label <$> data).
Proof.
  intros H. unfold chartTimes, fillTimePoints. rewrite bool_decide_eq_true_2; [apply sorted_times_perm|].
  by rewrite sorted_times_perm.
Qed.

Lemma chart_times_short :
  (length (uniq (label <$> data)) < MAX_CHART_TREND_POINTS)%nat ->
  shown = (fun back => formatChartTime dayjs_format granularity
                         (nsub (lastTime data) (num_of_Z (back * interval_seconds granularity))))
            <$> [6; 5; 4; 3; 2; 1; 0].
Proof.
  intros H. unfold chartTimes, fillTimePoints. rewrite bool_decide_eq_false_2; [done|].
  rewrite sorted_times_perm. lia.
Qed.

Lemma slots_total M l :
  NoDup l -> sumZ ((fun t => total M (slot t)) <$> l) = total M (filterb (labelled l) data).
Proof.
  intros Hl. rewrite <- (total_partition M label l (filterb (labelled l) data) Hl).
  - apply (f_equal sumZ). apply list_fmap_ext. intros n t Ht. f_equal.
    apply list_elem_of_lookup_2 in Ht. clear -Ht. induction data as [|i d IH]; [done|].
    simpl. unfold at_time, labelled in *. destruct (decide (t = label i)) as [->|H].
    + rewrite (bool_decide_eq_true_2 (label i ∈ l)) by done. simpl.
      rewrite bool_decide_eq_true_2 by done. by rewrite IH.
    + rewrite bool_decide_eq_false_2 by done. rewrite IH. case_bool_decide; [|done].
      simpl. by rewrite bool_decide_eq_false_2.
  - intros i Hi. apply elem_of_filterb in Hi as [Hi _]. by apply bool_decide_eq_true in Hi.
Qed.

Lemma all_labelled :
  (MAX_CHART_TREND_POINTS <= length (uniq (label <$> data)))%nat -> filterb (labelled shown) data = data.
Proof.
  intros H. apply filterb_all. intros i Hi. apply bool_decide_eq_true_2.
  rewrite (chart_times_full H). apply uniq_elem, list_elem_of_fmap. by exists i.
Qed.

(** *** What is drawn *)

Context (locale_after : jsstr -> jsstr -> bool).

Lemma line_values_perm :
  whole quota_measure data ->
  lineValues dayjs_format locale_after stored granularity data
  ≡ₚ shown ≫= (fun t => bar_spec t <$> models).
Proof.
  intros HM. unfold lineValues. destruct maps as [times totals] eqn:E.
  rewrite js_sort_perm. apply bind_perm. intros t.
  pose proof (bars_at_spec t HM) as B. by rewrite E in B.
Qed.

(** The stacked bars of the dashboard hold, for every label of the axis and every model of
    the records, one bar: the sum of the quotas of the records with that label and that
    model, in units and in dollars, together with the sum of all records with the label.
    Nothing else is drawn. *)
Theorem bars_exact :
  whole quota_measure data ->
  lineValues dayjs_format locale_after stored granularity data
  ≡ₚ shown ≫= (fun t => bar_spec t <$> models).
Proof.
  exact line_values_perm.
Qed.

(** The quota drawn in the bars. *)
Definition drawn : Z :=
  sumZ ((fun p => Z_of_num (q_rawQuota p))
        <$> lineValues dayjs_format locale_after stored granularity data).

Lemma drawn_slots :
  whole quota_measure data ->
  drawn = sumZ ((fun t => total quota_measure (slot t)) <$> shown).
Proof.
  intros HM. unfold drawn. rewrite (line_values_perm HM).
  induction shown as [|t l IH]; [done|].
  csimpl. rewrite fmap_app, sumZ_app, IH. f_equal.
  rewrite <- list_fmap_compose, <- (slot_total quota_measure t models) by done.
  apply (f_equal sumZ). apply list_fmap_ext. intros n m _. simpl.
  apply Z_of_num_of_Z, (part_bound quota_measure HM).
Qed.

(** What the bars leave out.  With records under seven labels or more, the bars hold the
    quotas of all of them.  With fewer, the axis shows the seven steps that end at the last
    record, and the bars hold exactly the records whose label is one of these: the others
    are counted in the total under the chart, but drawn nowhere. *)
Theorem bars_cover_window :
  whole quota_measure data -> NoDup shown ->
  drawn = total quota_measure (filterb (labelled shown) data)
  /\ ((MAX_CHART_TREND_POINTS <= length (uniq (label <$> data)))%nat ->
      drawn = total quota_measure data)
  /\ ((length (uniq (label <$> data)) < MAX_CHART_TREND_POINTS)%nat ->
      shown = (fun back => formatChartTime dayjs_format granularity
                             (nsub (lastTime data) (num_of_Z (back * interval_seconds granularity))))
                <$> [6; 5; 4; 3; 2; 1; 0]).
Proof.
  intros HM Hn. rewrite (drawn_slots HM), (slots_total quota_measure _ Hn). split_and!; [done| |apply chart_times_short].
  intros H. by rewrite all_labelled.
Qed.

(** The points of a drawn series that have a label. *)
Lemma drawn_at {A} (time : A -> jsstr) (series : list A) (f : jsstr -> list A) t :
  series ≡ₚ shown ≫= f -> NoDup shown -> t ∈ shown -> (forall t, Forall (fun p => time p = t) (f t)) ->
  filterb (fun p => bool_decide (time p = t)) series ≡ₚ f t.
Proof.
  intros Hs Hn Ht Hf. rewrite Hs. clear Hs.
  assert (Hin : forall t', filterb (fun p => bool_decide (time p = t)) (f t') = if bool_decide (t' = t) then f t' else []).
  { intros t'. specialize (Hf t'). rewrite Forall_forall in Hf. case_bool_decide as E.
    - apply filterb_all. intros p Hp. apply bool_decide_eq_true. by rewrite (Hf p Hp).
    - apply filterb_none. intros p Hp. apply bool_decide_eq_false. by rewrite (Hf p Hp). }
  induction shown as [|t' l IH]; [by apply elem_of_nil in Ht|]. apply NoDup_cons in Hn as [Hn Hl].
  csimpl. rewrite filterb_app, Hin. apply elem_of_cons in Ht as [->|Ht].
  - rewrite bool_decide_eq_true_2, filterb_none, app_nil_r; [done| |done].
    intros p Hp. apply list_elem_of_bind in Hp as (t2 & Hp & Ht2). apply bool_decide_eq_false.
    specialize (Hf t2). rewrite Forall_forall in Hf. rewrite (Hf p Hp). by intros ->.
  - rewrite bool_decide_eq_false_2 by (by intros ->). by apply IH.
Qed.

(** A series adds up over the labels of the axis. *)
Lemma drawn_sums {A} (value : A -> num) (series : list A) (f : jsstr -> list A) M :
  series ≡ₚ shown ≫= f -> NoDup shown -> (forall t, sums (value <$> f t) (total M (slot t))) ->
  sums (value <$> series) (total M (filterb (labelled shown) data)).
Proof.
  intros Hs Hn Hf. rewrite <- (slots_total M _ Hn). eapply sums_perm; [by apply fmap_Permutation|].
  clear Hs Hn. induction shown as [|t l IH]; [by exists []|]. csimpl. rewrite fmap_app. by apply sums_app.
Qed.

Lemma area_values_perm :
  areaValues dayjs_format locale_after otherLabel stored granularity data
  ≡ₚ shown ≫= area_at otherLabel stored (fst maps) (sortedModels (snd maps)) (topAreaModels (snd maps)).
Proof. unfold areaValues. destruct maps as [times totals]. apply js_sort_perm. Qed.

Lemma trend_values_perm :
  let ranked := r_Model <$> ranked_by s_count (snd maps) in
  modelLineValues dayjs_format locale_after otherLabel granularity data
  ≡ₚ shown ≫= trend_at otherLabel (fst maps) (take MAX_TREND_MODELS ranked) (drop MAX_TREND_MODELS ranked).
Proof. unfold modelLineValues. destruct maps as [times totals]. apply js_sort_perm. Qed.

(** C30. Gathering the many small models into the series "Other" loses nothing of what is drawn.
    At every label of the axis the points of the area chart hold together the quotas of the
    records with that label, which is the sum attached to each of them, and those of the call
    trend their calls; over the whole axis the two charts hold the records whose label is on
    it, which are all records when they have seven labels or more (with fewer the axis is the
    seven steps up to the last record, and the records before it are not drawn); the ranking
    and the pie hold all calls.  The quotas are those in units, which the points carry beside
    the dollars drawn; the dollars are rounded to four digits and not added up here.  This
    holds also when a model is itself called like the other series. *)
Theorem other_series_conserves :
  whole quota_measure data -> whole count_measure data -> NoDup shown ->
  let area := areaValues dayjs_format locale_after otherLabel stored granularity data in
  let trend := modelLineValues dayjs_format locale_after otherLabel granularity data in
  (forall t, t ∈ shown ->
     let points := filterb (fun p => bool_decide (q_Time p = t)) area in
     sums (q_rawQuota <$> points) (total quota_measure (slot t))
     /\ Forall (fun p => q_TimeSum p = num_of_Z (total quota_measure (slot t))) points
     /\ sums (c_Count <$> filterb (fun p => bool_decide (c_Time p = t)) trend) (total count_measure (slot t)))
  /\ sums (q_rawQuota <$> area) (total quota_measure (filterb (labelled shown) data))
  /\ sums (c_Count <$> trend) (total count_measure (filterb (labelled shown) data))
  /\ ((MAX_CHART_TREND_POINTS <= length (uniq (label <$> data)))%nat -> filterb (labelled shown) data = data)
  /\ sums (r_Value <$> rankValues dayjs_format otherLabel granularity data) (total count_measure data)
  /\ sums (r_Value <$> pieValues dayjs_format granularity data) (total count_measure data).
Proof.
  intros HQ HC Hn area trend. pose proof area_values_perm as PA. pose proof trend_values_perm as PT.
  split; [|split_and!; [..|apply all_labelled|apply (ranking_sums HC)|apply (ranking_sums HC)]].
  - intros t Ht points. destruct (area_at_sums t HQ) as [SA FA].
    assert (EA : points ≡ₚ area_at otherLabel stored (fst maps) (sortedModels (snd maps)) (topAreaModels (snd maps)) t).
    { apply drawn_at; [exact PA|exact Hn|exact Ht|]. intros t'.
      eapply Forall_impl; [apply (area_at_sums t' HQ)|]. by intros ? []. }
    split_and!.
    + eapply sums_perm; [apply fmap_Permutation, EA|exact SA].
    + rewrite EA. eapply Forall_impl; [exact FA|]. by intros ? [].
    + eapply sums_perm; [apply fmap_Permutation, drawn_at; [exact PT|exact Hn|exact Ht|]|apply (trend_at_sums t HC)].
      intros t'. apply (trend_at_sums t' HC).
  - eapply drawn_sums; [exact PA|exact Hn|]. intros t. apply (area_at_sums t HQ).
  - eapply drawn_sums; [exact PT|exact Hn|]. intros t. apply (trend_at_sums t HC).
Qed.

End Series.

(** ** Users *)

Section Users.

Context (dayjs_format : num -> Z -> jsstr -> jsstr) (stored : option StoredCurrency)
  (granularity : TimeGranularity).

#[local] Abbreviation label := (label_of dayjs_format granularity).
#[local] Abbreviation tot := (total quota_measure).

Definition of_user (u : jsstr) (i : QuotaDataItem) : bool := bool_decide (u = user_of i).
Definition user_cell (t u : jsstr) (i : QuotaDataItem) : bool :=
  bool_decide (t = label i) && of_user u i.

(** Adding a record to a sum that was exact so far. *)
Lemma add_quota_whole data i p :
  whole quota_measure (data ++ [i]) ->
  add_quota i (num_of_Z (tot (filterb p data))) = num_of_Z (tot (filterb p data ++ [i])).
Proof.
  intros H. apply whole_snoc in H as (Hd & E & Hi & Hs).
  pose proof (total_filter_le quota_measure p data Hd). unfold add_quota. simpl field in E.
  rewrite or_zero_of_Z, E, nadd_of_Z, total_snoc by lia. done.
Qed.

Lemma user_total data u :
  whole quota_measure data ->
  default zero (mget u (userQuotaTotal data)) = num_of_Z (tot (filterb (of_user u) data)).
Proof.
  induction data as [|i data IH] using rev_ind; intros H; [done|].
  pose proof (whole_snoc _ _ _ H) as [Hd _].
  unfold userQuotaTotal in *. rewrite fold_left_app, filterb_app. cbn [fold_left filterb].
  rewrite mget_mupdate. unfold of_user at 2. destruct (decide (u = user_of i)) as [->|Hu].
  - rewrite !(bool_decide_eq_true_2 (user_of i = user_of i)) by done. simpl default at 1.
    rewrite (IH Hd). by apply add_quota_whole.
  - rewrite !(bool_decide_eq_false_2 (u = user_of i)) by done. by rewrite app_nil_r, (IH Hd).
Qed.

Lemma user_quota_cell top data t u :
  whole quota_measure data -> u ∈ top ->
  user_quota_at (timeUserMap dayjs_format granularity top data) t u
  = num_of_Z (tot (filterb (user_cell t u) data)).
Proof.
  intros H Hu. unfold user_quota_at.
  enough (match mget t (timeUserMap dayjs_format granularity top data) with
          | Some users => default zero (mget u users) | None => zero end
          = num_of_Z (tot (filterb (user_cell t u) data))) as ->.
  { apply or_zero_of_Z. pose proof (total_filter_le quota_measure (user_cell t u) data H).
    destruct H. lia. }
  induction data as [|i data IH] using rev_ind; [done|].
  pose proof (whole_snoc _ _ _ H) as [Hd _]. specialize (IH Hd).
  unfold timeUserMap in *. rewrite fold_left_app, filterb_app. cbn [fold_left filterb].
  revert IH. generalize (fold_left (fun (m : list (jsstr * list (jsstr * num))) item => if bool_decide (user_of item ∈ top)
    then mupdate (label_of dayjs_format granularity item) []
           (mupdate (user_of item) zero (add_quota item)) m else m) data []).
  intros m IH. unfold user_cell at 2, of_user.
  destruct (decide (u = user_of i)) as [->|Hne].
  - rewrite (bool_decide_eq_true_2 (user_of i ∈ top)) by done. rewrite mget_mupdate.
    rewrite (bool_decide_eq_true_2 (user_of i = user_of i)) by done. rewrite andb_true_r.
    destruct (decide (t = label i)) as [->|Ht].
    + rewrite !(bool_decide_eq_true_2 (label i = label i)) by done. rewrite mget_mupdate.
      rewrite (bool_decide_eq_true_2 (user_of i = user_of i)) by done. simpl default at 1.
      rewrite <- (add_quota_whole data i _ H), <- IH. f_equal. by destruct (mget _ m).
    + rewrite !(bool_decide_eq_false_2 (t = label i)) by done. by rewrite app_nil_r.
  - rewrite (bool_decide_eq_false_2 (u = user_of i)) by done. rewrite andb_false_r, app_nil_r, <- IH.
    case_bool_decide; [|done]. rewrite mget_mupdate. case_bool_decide as E; [|done]. subst t.
    rewrite mget_mupdate, bool_decide_eq_false_2 by done. by destruct (mget _ m).
Qed.

Lemma user_keys_NoDup data : NoDup (fst <$> userQuotaTotal data).
Proof.
  induction data as [|i data IH] using rev_ind; [apply NoDup_nil_2|].
  unfold userQuotaTotal in *. rewrite fold_left_app. by apply mset_keys_NoDup.
Qed.

Lemma user_of_slots data u :
  sumZ ((fun t => tot (filterb (user_cell t u) data)) <$> js_sort units_after (uniq (label <$> data)))
  = tot (filterb (of_user u) data).
Proof.
  rewrite js_sort_perm.
  rewrite <- (total_partition quota_measure label (uniq (label <$> data)) (filterb (of_user u) data)).
  - apply (f_equal sumZ). apply list_fmap_ext. intros n t _. f_equal.
    induction data as [|i d IH]; [done|]. simpl. unfold user_cell, of_user in *. rewrite IH.
    destruct (bool_decide (u = user_of i)); simpl; [|by rewrite andb_false_r].
    by rewrite andb_true_r.
  - apply uniq_NoDup.
  - intros i Hi. apply elem_of_filterb in Hi as [_ Hi]. apply uniq_elem, list_elem_of_fmap. by exists i.
Qed.

(** The points of the trend of a user. *)
Definition points_of (u : jsstr) (l : list UserPoint) : list UserPoint :=
  filterb (fun p => bool_decide (u = u_User p)) l.

Lemma filterb_one {A} `{EqDecision B} (f : A -> B) (g : B -> A) (b : B) l :
  (forall x, f (g x) = x) -> NoDup l -> b ∈ l ->
  filterb (fun a => bool_decide (b = f a)) (g <$> l) = [g b].
Proof.
  intros Hf. induction l as [|x l IH]; intros Hn Hb; [by apply elem_of_nil in Hb|].
  apply NoDup_cons in Hn as [Hx Hn]. csimpl. rewrite Hf. destruct (decide (b = x)) as [->|H].
  - rewrite bool_decide_eq_true_2 by done. f_equal. apply filterb_none.
    intros a Ha. apply list_elem_of_fmap in Ha as (y & -> & Hy). rewrite Hf.
    apply bool_decide_eq_false_2. by intros ->.
  - rewrite bool_decide_eq_false_2 by done. apply elem_of_cons in Hb as [->|Hb]; [done|]. by apply IH.
Qed.

Lemma points_of_bind u (l : list jsstr) top (pt : jsstr -> jsstr -> UserPoint) :
  u ∈ top -> NoDup top -> (forall t v, u_User (pt t v) = v) ->
  points_of u (l ≫= (fun t => pt t <$> top)) = (fun t => pt t u) <$> l.
Proof.
  intros Hu Hn Hp. unfold points_of. induction l as [|t l IH]; [done|].
  csimpl. rewrite filterb_app, IH. by rewrite (filterb_one u_User (pt t) u top) by done.
Qed.

(** The two user charts agree: a user of the ranking is shown with the sum of the quotas of
    the user's records, the ranked users are distinct, and the points of the user in the
    trend, one for each label of any record, add up to the same sum. *)
Theorem user_charts_agree limit data u q :
  whole quota_measure data -> (u, q) ∈ take limit (sorted_users data) ->
  q = num_of_Z (tot (filterb (of_user u) data))
  /\ NoDup (topUsers limit data)
  /\ sums (u_rawQuota <$> points_of u (trendValues dayjs_format stored granularity limit data))
          (tot (filterb (of_user u) data)).
Proof.
  intros H Hu.
  assert (Hn : NoDup (topUsers limit data)).
  { unfold topUsers. rewrite fmap_take. apply (sublist_no_dup _ (fst <$> sorted_users data)).
    - apply sublist_take.
    - unfold sorted_users. rewrite js_sort_perm. apply user_keys_NoDup. }
  split; [|split; [done|]].
  - rewrite <- (user_total data u H). symmetry.
    assert (E : (u, q) ∈ userQuotaTotal data).
    { rewrite <- (js_sort_perm (less_than_by snd)).
      by apply (sublist_in _ _ _ (sublist_take _ limit)) in Hu. }
    pose proof (user_keys_NoDup data) as N. revert E N. generalize (userQuotaTotal data). clear.
    intros m. induction m as [|[k a] m IH]; intros E N; [by apply elem_of_nil in E|].
    csimpl in N. apply NoDup_cons in N as [Nk N]. simpl. apply elem_of_cons in E as [[= -> ->]|E].
    + by rewrite bool_decide_eq_true_2.
    + rewrite bool_decide_eq_false_2; [by apply IH|]. intros ->. apply Nk.
      apply list_elem_of_fmap. by exists (k, q).
  - assert (Ht : u ∈ topUsers limit data) by (apply list_elem_of_fmap; by exists (u, q)).
    unfold trendValues. rewrite (points_of_bind _ _ _ _ Ht Hn) by done.
    rewrite <- list_fmap_compose.
    rewrite (list_fmap_ext _ (fun t => num_of_Z (tot (filterb (user_cell t u) data)))).
    + apply sums_of; [|apply user_of_slots]. intros t.
      apply (total_filter_le quota_measure (user_cell t u) data H).
    + intros n t _. by apply user_quota_cell.
Qed.

End Users.

(** *** A week of two days *)

(** A calendar for examples: the label of a day is its number. *)
Definition day_number (ms : num) (plus : Z) (pattern : jsstr) : jsstr :=
  digits_of (Z.to_N (Z_of_num (math_floor (ndiv ms (num_of_Z 86400000))) + plus)).

Definition record_of (m : jsstr) (day q : Z) : QuotaDataItem := {|
  username := None; model_name := Some m; created_at := num_of_Z (day * 86400);
  token_used := None; count := Some (num_of_Z 1); quota := Some (num_of_Z q) |}.

(** Records of two days in a row, shown by week. *)
Definition two_days : list QuotaDataItem := [record_of (js "a") 20000 700; record_of (js "b") 20001 300].

Lemma two_days_whole : whole quota_measure two_days /\ whole count_measure two_days.
Proof. split; (split; [repeat constructor; by vm_compute|by vm_compute]). Qed.

Definition no_dup_dec (l : list jsstr) : bool := bool_decide (NoDup l).

Lemma bars_cover_window_witness :
  drawn day_number None week two_days (fun _ _ => false) = 300 /\ total quota_measure two_days = 1000.
Proof.
  split; [|vm_compute; reflexivity].
  destruct (bars_cover_window day_number None week two_days (fun _ _ => false)) as [E _].
  - exact (proj1 two_days_whole).
  - apply (bool_decide_eq_true_1 (NoDup (chartTimes day_number week two_days))). vm_compute. reflexivity.
  - rewrite E. vm_compute. reflexivity.
Defined.

(** The same two days, with users. *)
Definition two_users : list QuotaDataItem :=
  (fun kv => {| username := Some (fst kv); model_name := model_name (snd kv);
                created_at := created_at (snd kv); token_used := None; count := count (snd kv);
                quota := quota (snd kv) |})
  <$> [(js "ann", record_of (js "a") 20000 700); (js "bob", record_of (js "b") 20001 300);
       (js "ann", record_of (js "b") 20001 5)].

Lemma user_charts_agree_witness :
  topUsers 1 two_users = [js "ann"]
  /\ sums (u_rawQuota <$> points_of (js "ann") (trendValues day_number None day 1 two_users)) 705.
Proof.
  split; [vm_compute; reflexivity|].
  destruct (user_charts_agree day_number None day 1 two_users (js "ann") (num_of_Z 705)) as (_ & _ & S);
    [split; [repeat constructor; by vm_compute|by vm_compute]|vm_compute; left|exact S].
Defined.

Lemma bars_exact_witness :
  length (lineValues day_number (fun _ _ => false) None week two_days) = 14%nat.
Proof.
  rewrite (Permutation_length (bars_exact day_number None week two_days (fun _ _ => false)
                                 (proj1 two_days_whole))).
  vm_compute. reflexivity.
Defined.

(** Seven records of two models, one a day. *)
Definition seven_days : list QuotaDataItem :=
  (fun d => record_of (if Z.even d then js "a" else js "b") (20000 + d) (100 + d)) <$> [0; 1; 2; 3; 4; 5; 6].

Lemma seven_days_whole : whole quota_measure seven_days /\ whole count_measure seven_days.
Proof.
  split; (split; [|vm_compute; reflexivity]); repeat constructor; vm_compute; first [reflexivity|discriminate].
Qed.

Lemma other_series_conserves_witness :
  let area := areaValues day_number (fun _ _ => false) (js "Other") None day seven_days in
  sums (q_rawQuota <$> area) 721 /\ length area = 14%nat.
Proof.
  intros area. split; [|vm_compute; reflexivity].
  destruct (other_series_conserves day_number (js "Other") None day seven_days (fun _ _ => false))
    as (_ & S & _ & F & _).
  - exact (proj1 seven_days_whole).
  - exact (proj2 seven_days_whole).
  - apply (bool_decide_eq_true_1 (NoDup (chartTimes day_number day seven_days))). vm_compute. reflexivity.
  - rewrite F in S by (vm_compute; lia). exact S.
Defined.

Lemma totals_agree_witness :
  totalQuotaRaw day_number week two_days = num_of_Z 1000.
Proof.
  destruct (totals_agree day_number week two_days) as [Q _];
    [exact (proj1 two_days_whole)|exact (proj2 two_days_whole)|].
  rewrite Q. vm_compute. reflexivity.
Defined.
