(* ===== verification/TableUrlState.v ===== *)
(** * Table state in the address ([hooks/use-table-url-state.ts])

    The tables of the console keep page, search text and column filters in the parameters of
    the address.  The hook is a state machine: the parameters of the location, and the two
    React states of the hook; an effect copies the column filters from the parameters
    whenever these change.  The router, a parameter, turns the object a page navigates to
    into the parameters it sees next. *)

From S2P Require Import Prelude JsString JsNumber JsValue FloatError.

#[local] Open Scope Z_scope.

(** ** Configuration *)

(** A column filter: [type] is a text, a list, or left out. *)
Inductive FilterType := TString | TArray | TOmitted.

Record ColumnConfig := {
  columnId : jsstr; searchKey : jsstr; type : FilterType;
  serialize : option (jsval -> jsval); deserialize : option (jsval -> jsval) }.

(** The parameters of the hook, defaults filled in. *)
Record Params := {
  pageKey : jsstr; pageSizeKey : jsstr; defaultPage : num; defaultPageSize : num;
  globalFilterKey : jsstr; globalFilterEnabled : bool; trimGlobal : bool;
  columnFiltersCfg : list ColumnConfig }.

(** What a page passes: each field may be left out. *)
Record PaginationCfg := {
  o_pageKey : option jsstr; o_pageSizeKey : option jsstr;
  o_defaultPage : option num; o_defaultPageSize : option num }.
Record GlobalFilterCfg := {
  o_enabled : option bool; o_key : option jsstr; o_trim : option bool }.

Definition params_of (paginationCfg : option PaginationCfg) (globalFilterCfg : option GlobalFilterCfg)
    (columnFilters : option (list ColumnConfig)) : Params := {|
  pageKey := default (js "page") (paginationCfg ≫= o_pageKey);
  pageSizeKey := default (js "pageSize") (paginationCfg ≫= o_pageSizeKey);
  defaultPage := default (num_of_Z 1) (paginationCfg ≫= o_defaultPage);
  defaultPageSize := default (num_of_Z 20) (paginationCfg ≫= o_defaultPageSize);
  globalFilterKey := default (js "filter") (globalFilterCfg ≫= o_key);
  globalFilterEnabled := default true (globalFilterCfg ≫= o_enabled);
  trimGlobal := default true (globalFilterCfg ≫= o_trim);
  columnFiltersCfg := default [] columnFilters |}.

(** A column filter of the table: its column and its value. *)
Abbreviation filter_state := (list (jsstr * jsval)).

Record TableState := { search : obj; columnFilters : filter_state; globalFilter : option jsstr }.

Section Hook.

Context (P : Params).

(** ** Reading the parameters *)

Definition apply_opt (f : option (jsval -> jsval)) (v : jsval) : jsval :=
  match f with Some g => g v | None => v end.

(** The filter a column has in the parameters. *)
Definition read_filter (s : obj) (cfg : ColumnConfig) : option (jsstr * jsval) :=
  let v := apply_opt (deserialize cfg) (at_ (searchKey cfg) s) in
  match type cfg with
  | TString => match vnullish v (VStr []) with
               | VStr t => if truthy_str (trim t) then Some (columnId cfg, VStr t) else None
               | _ => None
               end
  | _ => match vnullish v (VArr []) with
         | VArr (x :: l) => Some (columnId cfg, VArr (x :: l))
         | _ => None
         end
  end.

Definition initialColumnFilters (s : obj) : filter_state := omap (read_filter s) (columnFiltersCfg P).

(** The page number, counted from one. *)
Definition pageNum (s : obj) : num :=
  match at_ (pageKey P) s with VNum n => n | _ => defaultPage P end.

Definition pageSizeNum (s : obj) : num :=
  match at_ (pageSizeKey P) s with VNum n => n | _ => defaultPageSize P end.

(** [{ pageIndex, pageSize }] *)
Definition pagination (s : obj) : num * num :=
  (math_max zero (nsub (pageNum s) (num_of_Z 1)), pageSizeNum s).

Definition initialGlobalFilter (s : obj) : option jsstr :=
  if negb (globalFilterEnabled P) then None
  else Some (match at_ (globalFilterKey P) s with VStr t => t | _ => [] end).

(** The hook on a page opened at some address. *)
Definition mount (s : obj) : TableState :=
  {| search := s; columnFilters := initialColumnFilters s; globalFilter := initialGlobalFilter s |}.

(** ** The objects navigated to *)

Definition paginated (pageIndex pageSize : num) (prev : obj) : obj :=
  let nextPage := nadd pageIndex (num_of_Z 1) in
  oset (pageSizeKey P) (VNum pageSize)
    (oset (pageKey P) (if nleb nextPage (defaultPage P) then VUndef else VNum nextPage) prev).

Definition globally_filtered (value : jsstr) (prev : obj) : obj :=
  oset (globalFilterKey P) (if truthy_str value then VStr value else VUndef)
    (oset (pageKey P) VUndef prev).

(** [next.find((f) => f.id === id)] *)
Fixpoint find_filter (id : jsstr) (next : filter_state) : jsval :=
  match next with
  | [] => VUndef
  | (i, v) :: t => if bool_decide (i = id) then v else find_filter id t
  end.

(** The parameter of a column. *)
Definition patch_value (next : filter_state) (cfg : ColumnConfig) : jsval :=
  match type cfg, find_filter (columnId cfg) next with
  | TString, VStr t => if truthy_str (trim t) then apply_opt (serialize cfg) (VStr t) else VUndef
  | TString, _ => VUndef
  | _, VArr (x :: l) => apply_opt (serialize cfg) (VArr (x :: l))
  | _, _ => VUndef
  end.

Definition patch (next : filter_state) : obj :=
  fold_left (fun p cfg => oset (searchKey cfg) (patch_value next cfg) p) (columnFiltersCfg P) [].

Definition column_filtered (next : filter_state) (prev : obj) : obj :=
  ospread (oset (pageKey P) VUndef prev) (patch next).

Inductive ResetTo := first | last.

Definition reset_page (pageCount : num) (resetTo : ResetTo) (prev : obj) : obj :=
  oset (pageKey P) (match resetTo with last => VNum pageCount | first => VUndef end) prev.

(** ** Steps *)

(** The parameters the router shows a page after it navigated to an object, and the test by
    which it keeps the object it had: the effect sees no change then. *)
Context (route_search : obj -> obj) (unchanged : obj -> obj -> bool).

(** What the table and the user do; an updater is a function of the value of the last
    render.  [Visit] is a link, the back button or an edited address. *)
Inductive action :=
  | Paginate (updater : num * num -> num * num)
  | FilterGlobally (updater : jsstr -> jsstr)
  | FilterColumns (updater : filter_state -> filter_state)
  | EnsurePageInRange (pageCount : num) (resetTo : ResetTo)
  | Visit (s : obj).

(** New parameters, and the effect that depends on them; [filters] is the state by then. *)
Definition arrive (s : obj) (filters : filter_state) (g : option jsstr) (st : TableState) : TableState :=
  if unchanged (search st) s
  then {| search := search st; columnFilters := filters; globalFilter := g |}
  else {| search := s; columnFilters := initialColumnFilters s; globalFilter := g |}.

Definition navigate (f : obj -> obj) (filters : filter_state) (g : option jsstr) (st : TableState) :=
  arrive (route_search (f (search st))) filters g st.

(** [ensurePageInRange] navigates. *)
Definition out_of_range (pageCount : num) (st : TableState) : bool :=
  nltb zero pageCount && nltb pageCount (pageNum (search st)).

Definition act (st : TableState) (a : action) : TableState :=
  match a with
  | Paginate updater =>
      let '(pageIndex, pageSize) := updater (pagination (search st)) in
      navigate (paginated pageIndex pageSize) (columnFilters st) (globalFilter st) st
  | FilterGlobally updater =>
      if globalFilterEnabled P then
        let next := updater (default [] (globalFilter st)) in
        let value := if trimGlobal P then trim next else next in
        navigate (globally_filtered value) (columnFilters st) (Some value) st
      else st
  | FilterColumns updater =>
      let next := updater (columnFilters st) in
      navigate (column_filtered next) next (globalFilter st) st
  | EnsurePageInRange pageCount resetTo =>
      if out_of_range pageCount st
      then navigate (reset_page pageCount resetTo) (columnFilters st) (globalFilter st) st else st
  | Visit s => arrive (route_search s) (columnFilters st) (globalFilter st) st
  end.

Definition run (st : TableState) (l : list action) : TableState := fold_left act l st.

(** What the table is given: page, filters, search text. *)
Definition view (st : TableState) : (num * num) * filter_state * option jsstr :=
  (pagination (search st), columnFilters st,
   if globalFilterEnabled P then Some (default [] (globalFilter st)) else None).

End Hook.

(** ** Reading what was written *)

(** The filter of a column that the address can hold: a text that is not blank, a list that
    is not empty. *)
Definition kept (next : filter_state) (cfg : ColumnConfig) : option (jsstr * jsval) :=
  match type cfg, find_filter (columnId cfg) next with
  | TString, VStr t => if truthy_str (trim t) then Some (columnId cfg, VStr t) else None
  | TString, _ => None
  | _, VArr (x :: l) => Some (columnId cfg, VArr (x :: l))
  | _, _ => None
  end.

(** The filters of the configured columns, in the order of the configuration. *)
Definition effective (P : Params) (next : filter_state) : filter_state :=
  omap (kept next) (columnFiltersCfg P).

(** The transformers of a column are inverse to each other, and a missing parameter is no filter. *)
Definition codec (cfg : ColumnConfig) : Prop :=
  (forall v, apply_opt (deserialize cfg) (apply_opt (serialize cfg) v) = v) /\
  nullish (apply_opt (deserialize cfg) VUndef) = true.

(** A configuration without clashes. *)
Record configured (P : Params) : Prop := {
  keys : NoDup (globalFilterKey P :: pageKey P :: pageSizeKey P :: (searchKey <$> columnFiltersCfg P));
  column_ids : NoDup (columnId <$> columnFiltersCfg P);
  codecs : Forall codec (columnFiltersCfg P) }.

(** The router keeps the parameters it is given, and the object it had when they are the same. *)
Record faithful_router (route_search : obj -> obj) (unchanged : obj -> obj -> bool) : Prop := {
  routed : forall o k, at_ k (route_search o) = at_ k o;
  kept_object : forall a b, unchanged a b = true -> forall k, at_ k a = at_ k b }.

Lemma read_kept s next cfg :
  codec cfg -> at_ (searchKey cfg) s = patch_value next cfg -> read_filter s cfg = kept next cfg.
Proof.
  intros [Hc Hu] H. unfold read_filter. rewrite H. unfold patch_value, kept.
  destruct (type cfg), (find_filter (columnId cfg) next) as [| |b|n|t|[|x l]|o];
    try (unfold vnullish; rewrite Hu; done); try (by rewrite Hc).
  destruct (truthy_str (trim t)) eqn:E.
  - rewrite Hc. unfold vnullish. cbn [nullish]. by rewrite E.
  - unfold vnullish. by rewrite Hu.
Qed.

Lemma read_filter_kept s cfg i v :
  read_filter s cfg = Some (i, v) ->
  i = columnId cfg /\
  forall next, find_filter (columnId cfg) next = v -> kept next cfg = Some (i, v).
Proof.
  unfold read_filter, kept. destruct (type cfg), (vnullish _ _) as [| |b|n|t|[|x l]|o];
    try destruct (truthy_str (trim t)) eqn:E; try done;
    intros [= <- <-]; (split; [done|]); intros next ->; rewrite ?E; done.
Qed.

Lemma read_filter_id s cfg i v : read_filter s cfg = Some (i, v) -> i = columnId cfg.
Proof. intros H. by destruct (read_filter_kept _ _ _ _ H). Qed.

(** The filters read are found under the columns they were read for. *)
Lemma find_read s cfgs cfg :
  NoDup (columnId <$> cfgs) -> cfg ∈ cfgs ->
  find_filter (columnId cfg) (omap (read_filter s) cfgs)
  = match read_filter s cfg with Some (_, v) => v | None => VUndef end.
Proof.
  induction cfgs as [|c cfgs IH]; intros Hnd Hin; [by apply elem_of_nil in Hin|].
  csimpl in Hnd. apply NoDup_cons in Hnd as [Hc Hnd].
  assert (Hskip : columnId cfg <> columnId c -> find_filter (columnId cfg) (omap (read_filter s) (c :: cfgs))
                  = find_filter (columnId cfg) (omap (read_filter s) cfgs)).
  { intros Hne. csimpl. destruct (read_filter s c) as [[i v]|] eqn:E; [|done]. cbn [find_filter].
    rewrite bool_decide_eq_false_2; [done|]. by rewrite (read_filter_id _ _ _ _ E). }
  assert (Habsent : columnId c ∉ columnId <$> cfgs -> find_filter (columnId c) (omap (read_filter s) cfgs) = VUndef).
  { clear. induction cfgs as [|d cfgs IH]; intros H; [done|]. csimpl in H.
    rewrite not_elem_of_cons in H. destruct H as [Hd H]. csimpl.
    destruct (read_filter s d) as [[i v]|] eqn:E; [|by apply IH]. cbn [find_filter].
    rewrite bool_decide_eq_false_2; [by apply IH|]. rewrite (read_filter_id _ _ _ _ E). congruence. }
  apply elem_of_cons in Hin as [->|Hin].
  - csimpl. destruct (read_filter s c) as [[i v]|] eqn:E; [|by apply Habsent]. cbn [find_filter].
    by rewrite bool_decide_eq_true_2 by (symmetry; by rewrite (read_filter_id _ _ _ _ E)).
  - rewrite Hskip; [by apply IH|]. intros Heq. apply Hc. rewrite <- Heq.
    apply list_elem_of_fmap. by exists cfg.
Qed.

Lemma kept_read s cfgs cfg :
  NoDup (columnId <$> cfgs) -> cfg ∈ cfgs -> kept (omap (read_filter s) cfgs) cfg = read_filter s cfg.
Proof.
  intros Hnd Hin. pose proof (find_read s cfgs cfg Hnd Hin) as Hf.
  destruct (read_filter s cfg) as [[i v]|] eqn:E.
  - by apply (read_filter_kept _ _ _ _ E).
  - unfold kept. rewrite Hf. by destruct (type cfg).
Qed.

Lemma omap_ext {A B} (f g : A -> option B) (l : list A) :
  (forall x, x ∈ l -> f x = g x) -> omap f l = omap g l.
Proof.
  induction l as [|x l IH]; intros H; [done|]. csimpl. rewrite (H x) by apply list_elem_of_here.
  rewrite IH; [done|]. intros y Hy. apply H. by apply list_elem_of_further.
Qed.

(** Reading is stable: what is read is kept as it is. *)
Lemma effective_initial P s :
  configured P -> effective P (initialColumnFilters P s) = initialColumnFilters P s.
Proof. intros [_ Hc _]. apply omap_ext. intros cfg Hin. by apply kept_read. Qed.

(** The parameters of the columns. *)
Lemma canonical_patch P next : canonical (patch P next).
Proof. unfold patch. apply fold_invariant; [apply canonical_nil|]. auto with js. Qed.

Section Patch.
Context (next : filter_state).

Abbreviation write cfgs o :=
  (fold_left (fun p cfg => oset (searchKey cfg) (patch_value next cfg) p) cfgs o).

Lemma oget_write_other k cfgs o : k ∉ searchKey <$> cfgs -> oget k (write cfgs o) = oget k o.
Proof.
  revert o; induction cfgs as [|c cfgs IH]; intros o H; [done|]. csimpl in H.
  rewrite not_elem_of_cons in H. destruct H as [Hc H]. cbn [fold_left].
  by rewrite IH, oget_oset_ne by done.
Qed.

Lemma oget_write cfg cfgs o :
  NoDup (searchKey <$> cfgs) -> cfg ∈ cfgs ->
  oget (searchKey cfg) (write cfgs o) = Some (patch_value next cfg).
Proof.
  revert o; induction cfgs as [|c cfgs IH]; intros o Hnd Hin; [by apply elem_of_nil in Hin|].
  csimpl in Hnd. apply NoDup_cons in Hnd as [Hc Hnd]. cbn [fold_left].
  apply elem_of_cons in Hin as [->|Hin]; [|by apply IH].
  by rewrite oget_write_other, oget_oset_eq by done.
Qed.

End Patch.

Lemma at_column_filtered_cfg P next prev cfg :
  configured P -> cfg ∈ columnFiltersCfg P ->
  at_ (searchKey cfg) (column_filtered P next prev) = patch_value next cfg.
Proof.
  intros [Hk _ _] Hin. unfold column_filtered. rewrite at_oget, oget_spread by apply canonical_patch.
  unfold patch. by rewrite oget_write by (try done; by do 3 apply NoDup_cons in Hk as [_ Hk]).
Qed.

Lemma at_column_filtered_other P next prev k :
  k ∉ searchKey <$> columnFiltersCfg P ->
  at_ k (column_filtered P next prev) = at_ k (oset (pageKey P) VUndef prev).
Proof.
  intros Hk. unfold column_filtered. rewrite !at_oget, oget_spread by apply canonical_patch.
  unfold patch. by rewrite oget_write_other.
Qed.

Lemma at_oset k j v o : at_ k (oset j v o) = if bool_decide (k = j) then v else at_ k o.
Proof. rewrite !at_oget, oget_oset. by case_bool_decide. Qed.

(** ** The table shows what its address says *)

Section Synchronised.
Context (P : Params) (route_search : obj -> obj) (unchanged : obj -> obj -> bool).
Context (HP : configured P) (HR : faithful_router route_search unchanged).

(** A reload of the page would show this table. *)
Definition synchronised (st : TableState) : Prop :=
  effective P (columnFilters st) = initialColumnFilters P (search st) /\
  globalFilter st = initialGlobalFilter P (search st).

(** Only the parameters that are read matter. *)
Lemma initialColumnFilters_ext s s' :
  (forall cfg, cfg ∈ columnFiltersCfg P -> at_ (searchKey cfg) s = at_ (searchKey cfg) s') ->
  initialColumnFilters P s = initialColumnFilters P s'.
Proof. intros H. apply omap_ext. intros cfg Hin. unfold read_filter. by rewrite H. Qed.

Lemma initialGlobalFilter_ext s s' :
  at_ (globalFilterKey P) s = at_ (globalFilterKey P) s' ->
  initialGlobalFilter P s = initialGlobalFilter P s'.
Proof. intros H. unfold initialGlobalFilter. by rewrite H. Qed.

Lemma initialGlobalFilter_routed (f : obj -> obj) s :
  initialGlobalFilter P (route_search (f s)) = initialGlobalFilter P (f s).
Proof. apply initialGlobalFilter_ext. by rewrite (routed _ _ HR). Qed.

(** A navigation keeps them together when the filters it sets are those it writes. *)
Lemma navigate_synchronised f filters g st :
  effective P filters = initialColumnFilters P (f (search st)) ->
  g = initialGlobalFilter P (f (search st)) ->
  synchronised (navigate P route_search unchanged f filters g st).
Proof.
  intros Hf Hg. unfold navigate, arrive. destruct (unchanged _ _) eqn:E; split; cbn.
  - rewrite Hf. apply initialColumnFilters_ext. intros cfg _.
    by rewrite (kept_object _ _ HR _ _ E), (routed _ _ HR).
  - rewrite Hg. apply initialGlobalFilter_ext. by rewrite (kept_object _ _ HR _ _ E), (routed _ _ HR).
  - by apply effective_initial.
  - by rewrite initialGlobalFilter_routed.
Qed.

Lemma key_ne k cfg :
  k ∉ searchKey <$> columnFiltersCfg P -> cfg ∈ columnFiltersCfg P -> searchKey cfg <> k.
Proof. intros Hk Hin <-. apply Hk. apply list_elem_of_fmap. by exists cfg. Qed.

Lemma split_keys :
  (globalFilterKey P <> pageKey P /\ globalFilterKey P <> pageSizeKey P /\
   globalFilterKey P ∉ searchKey <$> columnFiltersCfg P) /\
  pageKey P ∉ searchKey <$> columnFiltersCfg P /\ pageSizeKey P ∉ searchKey <$> columnFiltersCfg P /\
  pageKey P <> pageSizeKey P.
Proof.
  destruct HP as [Hk _ _]. rewrite !NoDup_cons, !not_elem_of_cons in Hk. naive_solver.
Qed.

Lemma filters_oset k v o :
  k ∉ searchKey <$> columnFiltersCfg P -> initialColumnFilters P (oset k v o) = initialColumnFilters P o.
Proof.
  intros Hk. apply initialColumnFilters_ext. intros cfg Hin.
  by rewrite at_oset, bool_decide_eq_false_2 by by apply key_ne.
Qed.

Lemma global_oset k v o :
  globalFilterKey P <> k -> initialGlobalFilter P (oset k v o) = initialGlobalFilter P o.
Proof. intros Hk. apply initialGlobalFilter_ext. by rewrite at_oset, bool_decide_eq_false_2. Qed.

Lemma act_synchronised st a :
  (forall s, a <> Visit s) -> synchronised st -> synchronised (act P route_search unchanged st a).
Proof.
  intros Ha [Hf Hg]. destruct split_keys as ((Hgp & Hgs & Hgc) & Hpc & Hsc & _).
  destruct a as [u|u|u|c r|s]; cbn [act].
  - destruct (u _) as [i n]. apply navigate_synchronised; unfold paginated.
    + by rewrite !filters_oset.
    + by rewrite !global_oset.
  - destruct (globalFilterEnabled P) eqn:En; [|done].
    apply navigate_synchronised; unfold globally_filtered.
    + by rewrite !filters_oset.
    + unfold initialGlobalFilter. rewrite En, at_oset, bool_decide_eq_true_2 by done.
      cbn [negb]. set (t := if trimGlobal P then _ else _). by destruct t.
  - apply navigate_synchronised.
    + symmetry. apply omap_ext. intros cfg Hin. apply read_kept.
      * by apply (proj1 (Forall_forall _ _) (codecs _ HP)).
      * by apply at_column_filtered_cfg.
    + rewrite Hg, <- (global_oset (pageKey P) VUndef) by done. apply initialGlobalFilter_ext.
      by rewrite at_column_filtered_other.
  - destruct (out_of_range P c st); [|done]. apply navigate_synchronised; unfold reset_page.
    + by rewrite filters_oset.
    + by rewrite global_oset.
  - by destruct (Ha s).
Qed.

Lemma mount_synchronised s : synchronised (mount P s).
Proof. split; [by apply effective_initial|done]. Qed.

End Synchronised.

(** C12. As long as the address is changed through the table only, it holds the state of the
    table: after any sequence of page changes, searches, filters and page corrections, the
    effective column filters are those read from the address and the search text is the one
    in the address, so that a reload shows the same table. *)
Theorem table_is_url P route_search unchanged (HP : configured P) (HR : faithful_router route_search unchanged)
    s l (Hl : Forall (fun a => forall s', a <> Visit s') l) :
  let st := run P route_search unchanged (mount P s) l in
  effective P (columnFilters st) = columnFilters (mount P (search st)) /\
  globalFilter st = globalFilter (mount P (search st)) /\
  view P (mount P (search st)) = (pagination P (search st), effective P (columnFilters st), globalFilter st).
Proof.
  cbv zeta. assert (H : synchronised P (run P route_search unchanged (mount P s) l)).
  { unfold run. apply fold_invariant; [by apply mount_synchronised|].
    intros st a Ha. apply act_synchronised; try done. by apply (proj1 (Forall_forall _ _) Hl). }
  destruct H as [Hf Hg]. cbn. rewrite Hf, Hg. split; [done|]. split; [done|].
  unfold view. cbn. unfold initialGlobalFilter. by destruct (globalFilterEnabled P).
Qed.

(** ** Pages *)

Section Pages.
Context (P : Params) (route_search : obj -> obj) (unchanged : obj -> obj -> bool).
Context (HP : configured P) (HR : faithful_router route_search unchanged).

Lemma pageNum_ext s s' : at_ (pageKey P) s = at_ (pageKey P) s' -> pageNum P s = pageNum P s'.
Proof. intros H. unfold pageNum. by rewrite H. Qed.

Lemma at_navigate k f filters g st :
  at_ k (search (navigate P route_search unchanged f filters g st)) = at_ k (f (search st)).
Proof.
  unfold navigate, arrive. destruct (unchanged _ _) eqn:E; cbn [search]; [|apply (routed _ _ HR)].
  by rewrite (kept_object _ _ HR _ _ E), (routed _ _ HR).
Qed.

Lemma at_paginate k i n st :
  at_ k (search (act P route_search unchanged st (Paginate (fun _ => (i, n))))) = at_ k (paginated P i n (search st)).
Proof. cbn [act]. apply at_navigate. Qed.

End Pages.

Lemma max_zero k : 0 <= k < 2 ^ 53 -> math_max zero (num_of_Z k) = num_of_Z k.
Proof.
  intros Hk. unfold math_max. change zero with (num_of_Z 0). rewrite ltb_of_Z_iff by lia.
  destruct (Z.ltb_spec 0 k); [done|]. by replace k with 0 by lia.
Qed.

(** Going to a page shows that page: with pages counted from [d], the table is on the
    page it was sent to with the size it was given, except that every page before the
    default one shows the default one. *)
Theorem paginate_exact P route_search unchanged (HP : configured P) (HR : faithful_router route_search unchanged)
    st d i n (Hd : 1 <= d < 2 ^ 52) (Hi : 0 <= i < 2 ^ 52) (HdP : defaultPage P = num_of_Z d) :
  pagination P (search (act P route_search unchanged st (Paginate (fun _ => (num_of_Z i, n)))))
  = (num_of_Z (Z.max i (d - 1)), n).
Proof.
  destruct (split_keys P HP) as (_ & _ & _ & Hps).
  unfold pagination, pageNum, pageSizeNum. rewrite !at_paginate by done. unfold paginated.
  rewrite !at_oset, (bool_decide_eq_false_2 (pageKey P = _)), !bool_decide_eq_true_2 by done.
  f_equal. rewrite HdP, (nadd_of_Z i 1), leb_of_Z_iff by lia.
  assert (E : match (if i + 1 <=? d then VUndef else VNum (num_of_Z (i + 1))) with
              | VNum m => m | _ => num_of_Z d end = num_of_Z (Z.max i (d - 1) + 1)).
  { destruct (Z.leb_spec (i + 1) d); f_equal; lia. }
  rewrite E, nsub_of_Z by lia. apply max_zero. lia.
Qed.

(** C38. The correction of the page settles: when the pages count at least to the default one,
    a table beyond its last page goes to that page or to the default one, and any further
    correction with the same number of pages leaves the table as it is. *)
Theorem page_settles P route_search unchanged (HP : configured P) (HR : faithful_router route_search unchanged)
    st d c r (Hd : 1 <= d <= c) (Hc : c < 2 ^ 53) (HdP : defaultPage P = num_of_Z d) :
  let st' := act P route_search unchanged st (EnsurePageInRange (num_of_Z c) r) in
  (out_of_range P (num_of_Z c) st = true ->
   pageNum P (search st') = match r with first => num_of_Z d | last => num_of_Z c end) /\
  forall r', act P route_search unchanged st' (EnsurePageInRange (num_of_Z c) r') = st'.
Proof.
  cbv zeta. set (st' := act P _ _ st _).
  assert (Hpage : out_of_range P (num_of_Z c) st = true ->
    pageNum P (search st') = match r with first => num_of_Z d | last => num_of_Z c end).
  { intros E. unfold st'. cbn [act]. rewrite E. unfold pageNum. rewrite at_navigate by done.
    unfold reset_page. rewrite at_oset, bool_decide_eq_true_2 by done. by destruct r. }
  split; [done|]. intros r'. cbn [act]. enough (out_of_range P (num_of_Z c) st' = false) as -> by done.
  destruct (out_of_range P (num_of_Z c) st) eqn:E.
  - unfold out_of_range. rewrite Hpage by done. destruct r; rewrite !ltb_of_Z_iff by lia; lia.
  - unfold st'. cbn [act]. by rewrite E.
Qed.

(** Filters survive the address: a table opened at the address a filter change leads to
    has the effective filters that were set, on the default page, with the page size and the
    search text of before. *)
Theorem filters_survive_url P route_search unchanged (HP : configured P) (HR : faithful_router route_search unchanged)
    st next :
  let s' := search (act P route_search unchanged st (FilterColumns (fun _ => next))) in
  columnFilters (mount P s') = effective P next /\ pageNum P s' = defaultPage P /\
  pageSizeNum P s' = pageSizeNum P (search st) /\
  globalFilter (mount P s') = globalFilter (mount P (search st)).
Proof.
  cbv zeta. destruct (split_keys P HP) as ((Hgp & _ & Hgc) & Hpc & Hsc & Hps).
  assert (H : forall k, k ∉ searchKey <$> columnFiltersCfg P ->
    at_ k (search (act P route_search unchanged st (FilterColumns (fun _ => next))))
    = if bool_decide (k = pageKey P) then VUndef else at_ k (search st)).
  { intros k Hk. cbn [act]. by rewrite at_navigate, at_column_filtered_other, at_oset. }
  split_and!.
  - cbn [mount columnFilters]. apply omap_ext. intros cfg Hin. apply read_kept.
    + by apply (proj1 (Forall_forall _ _) (codecs _ HP)).
    + cbn [act]. rewrite at_navigate by done. by apply at_column_filtered_cfg.
  - unfold pageNum. by rewrite H, bool_decide_eq_true_2.
  - unfold pageSizeNum. by rewrite H, bool_decide_eq_false_2.
  - cbn [mount globalFilter]. apply initialGlobalFilter_ext. by rewrite H, bool_decide_eq_false_2.
Qed.

(** The search box does not follow the address: after a search for a text, the back
    button to an address without one leaves the table filtered by the text, while a table
    opened at that address is not filtered. *)
Theorem back_keeps_old_search P route_search unchanged (HP : configured P) (HR : faithful_router route_search unchanged)
    st u s (He : globalFilterEnabled P = true) (Hu : trim (u (default [] (globalFilter st))) <> [])
    (Hs : at_ (globalFilterKey P) s = VUndef) :
  let st' := run P route_search unchanged st [FilterGlobally u; Visit s] in
  at_ (globalFilterKey P) (search st') = VUndef /\ globalFilter (mount P (search st')) = Some [] /\
  exists t, globalFilter st' = Some t /\ truthy_str t = true.
Proof.
  cbv zeta. cbn [run fold_left]. set (st1 := act P _ _ st _).
  assert (Hk : at_ (globalFilterKey P) (search (act P route_search unchanged st1 (Visit s))) = VUndef).
  { cbn [act]. unfold arrive. destruct (unchanged _ _) eqn:E; cbn [search]; [rewrite (kept_object _ _ HR _ _ E)|];
      by rewrite (routed _ _ HR). }
  split; [done|]. split.
  - cbn [mount globalFilter]. unfold initialGlobalFilter. by rewrite He, Hk.
  - set (t := if trimGlobal P then trim (u (default [] (globalFilter st))) else u (default [] (globalFilter st))).
    exists t. split.
    + assert (H1 : globalFilter st1 = Some t).
      { unfold st1, t. cbn [act]. rewrite He. unfold navigate, arrive. by destruct (unchanged _ _). }
      cbn [act]. unfold arrive. by destruct (unchanged _ _).
    + apply truthy_str_spec. unfold t. destruct (trimGlobal P); [done|]. intros E. by rewrite E in Hu.
Qed.

(** ** The table of API keys ([features/keys/components/api-keys-table.tsx]) *)

Definition keys_table : Params :=
  params_of (Some {| o_pageKey := None; o_pageSizeKey := None;
                     o_defaultPage := Some (num_of_Z 1); o_defaultPageSize := Some (num_of_Z 20) |})
    (Some {| o_enabled := Some true; o_key := Some (js "filter"); o_trim := None |})
    (Some [ {| columnId := js "status"; searchKey := js "status"; type := TArray;
               serialize := None; deserialize := None |};
            {| columnId := js "_tokenSearch"; searchKey := js "token"; type := TString;
               serialize := None; deserialize := None |} ]).

Lemma keys_configured : configured keys_table.
Proof.
  split; [by apply (bool_decide_unpack _); vm_compute..|].
  repeat constructor.
Qed.

Definition plain_router (o : obj) : obj := o.
Definition fresh_object (a b : obj) : bool := false.

Lemma plain_router_faithful : faithful_router plain_router fresh_object.
Proof. by split. Qed.

(** A filter on the status and a blank one on the token. *)
Definition status_filter : filter_state :=
  [(js "status", VArr [VStr (js "1")]); (js "_tokenSearch", VStr (js " "))].

(** A filter of the address is read; one that is blank is not. *)
Example filters_read :
  columnFilters (mount keys_table [(js "status", VArr [VStr (js "1")]); (js "token", VStr (js " "))])
  = [(js "status", VArr [VStr (js "1")])].
Proof. reflexivity. Qed.

(** The whole state after a search, a filter and a page change. *)
Example keys_session :
  search (run keys_table plain_router fresh_object (mount keys_table [])
    [FilterGlobally (fun _ => js " gpt "); FilterColumns (fun _ => status_filter);
     Paginate (fun p => (num_of_Z 2, snd p))])
  = [(js "page", VNum (num_of_Z 3)); (js "filter", VStr (js "gpt"));
     (js "status", VArr [VStr (js "1")]); (js "token", VUndef); (js "pageSize", VNum (num_of_Z 20))].
Proof. vm_compute. reflexivity. Qed.

Lemma table_is_url_witness :
  let st := run keys_table plain_router fresh_object (mount keys_table [])
    [FilterColumns (fun _ => status_filter)] in
  effective keys_table (columnFilters st) = columnFilters (mount keys_table (search st)) /\
  globalFilter st = globalFilter (mount keys_table (search st)) /\
  view keys_table (mount keys_table (search st))
  = (pagination keys_table (search st), effective keys_table (columnFilters st), globalFilter st).
Proof.
  apply (table_is_url keys_table plain_router fresh_object keys_configured plain_router_faithful [] _).
  repeat constructor; discriminate.
Defined.

Lemma paginate_exact_witness :
  pagination keys_table (search (act keys_table plain_router fresh_object (mount keys_table [])
    (Paginate (fun _ => (num_of_Z 4, num_of_Z 50))))) = (num_of_Z 4, num_of_Z 50).
Proof.
  apply (paginate_exact keys_table plain_router fresh_object keys_configured plain_router_faithful
    (mount keys_table []) 1 4); [lia|lia|reflexivity].
Defined.

Lemma page_settles_witness :
  let st := mount keys_table [(js "page", VNum (num_of_Z 9))] in
  let st' := act keys_table plain_router fresh_object st (EnsurePageInRange (num_of_Z 3) last) in
  out_of_range keys_table (num_of_Z 3) st = true /\ pageNum keys_table (search st') = num_of_Z 3.
Proof.
  cbv zeta. split; [reflexivity|].
  apply (page_settles keys_table plain_router fresh_object keys_configured plain_router_faithful
    (mount keys_table [(js "page", VNum (num_of_Z 9))]) 1 3 last); [lia|lia|reflexivity|reflexivity].
Defined.

Lemma filters_survive_url_witness :
  columnFilters (mount keys_table (search (act keys_table plain_router fresh_object
    (mount keys_table []) (FilterColumns (fun _ => status_filter)))))
  = [(js "status", VArr [VStr (js "1")])].
Proof.
  apply (filters_survive_url keys_table plain_router fresh_object keys_configured plain_router_faithful
    (mount keys_table []) status_filter).
Defined.

Lemma back_keeps_old_search_witness :
  let st' := run keys_table plain_router fresh_object (mount keys_table [])
    [FilterGlobally (fun _ => js "gpt"); Visit []] in
  globalFilter (mount keys_table (search st')) = Some [] /\
  exists t, globalFilter st' = Some t /\ truthy_str t = true.
Proof.
  refine (proj2 (back_keeps_old_search keys_table plain_router fresh_object keys_configured plain_router_faithful
    (mount keys_table []) (fun _ => js "gpt") [] _ _ _)); [reflexivity|discriminate|reflexivity].
Defined.
