(* ===== verification/DebouncedFilter.v ===== *)
(** * Debounced column filters ([components/data-table/hooks/use-debounced-column-filter.ts])

    A text field next to a table sets the filter of one column some time after the last
    keystroke.  The hook has three states of its own ([useDebounce] holds the third) over the
    filters of [use-table-url-state.ts]; two effects keep them together.  A step is an event
    with the effects it sets off, run until none has a changed dependency; the router
    delivers the parameters of a navigation in an event of its own. *)

From S2P Require Import Prelude JsString JsNumber JsValue TableUrlState.

#[local] Open Scope Z_scope.

(** The state of the hooks.  [seen] and [seen_pair] are the dependencies the effects ran with
    last: [value], and [debouncedValue] with [value]. *)
Record FieldState := {
  table : TableState; location : obj;
  inputValue : jsstr; pendingValue : jsstr; debouncedValue : jsstr; isComposing : bool;
  seen : jsstr; seen_pair : jsstr * jsstr }.

Section Hook.

Context (P : Params) (route_search : obj -> obj) (unchanged : obj -> obj -> bool).
Context (field : jsstr).

(** The text of the column's filter, empty without one. *)
Definition text_of (filters : filter_state) : jsstr :=
  match find_filter field filters with VStr t => t | _ => [] end.

Definition value (st : FieldState) : jsstr := text_of (columnFilters (table st)).

(** [onColumnFiltersChange]: the filters are set at once, the parameters arrive later. *)
Definition filter_columns (updater : filter_state -> filter_state) (st : FieldState) : FieldState :=
  let next := updater (columnFilters (table st)) in
  {| table := {| search := search (table st); columnFilters := next; globalFilter := globalFilter (table st) |};
     location := route_search (column_filtered P next (location st));
     inputValue := inputValue st; pendingValue := pendingValue st;
     debouncedValue := debouncedValue st; isComposing := isComposing st;
     seen := seen st; seen_pair := seen_pair st |}.

(** The three states of the field. *)
Definition with_field (input pending : jsstr) (composing : bool) (st : FieldState) : FieldState :=
  {| table := table st; location := location st; inputValue := input; pendingValue := pending;
     debouncedValue := debouncedValue st; isComposing := composing;
     seen := seen st; seen_pair := seen_pair st |}.

(** ** Effects *)

(** The first effect: the field follows the filter. *)
Definition align_effect (st : FieldState) : FieldState :=
  let v := value st in
  if bool_decide (v = seen st) then st
  else {| table := table st; location := location st;
          inputValue := if isComposing st then inputValue st else v; pendingValue := v;
          debouncedValue := debouncedValue st; isComposing := isComposing st;
          seen := v; seen_pair := seen_pair st |}.

(** The filters with the column's text replaced. *)
Definition replace_text (t : jsstr) (previous : filter_state) : filter_state :=
  let filters := filterb (fun f => negb (bool_decide (fst f = field))) previous in
  if truthy_str t then filters ++ [(field, VStr t)] else filters.

(** The second effect: the filter follows the debounced text. *)
Definition write_effect (st : FieldState) : FieldState :=
  let pair := (debouncedValue st, value st) in
  if bool_decide (pair = seen_pair st) then st
  else
    let st' := {| table := table st; location := location st;
                  inputValue := inputValue st; pendingValue := pendingValue st;
                  debouncedValue := debouncedValue st; isComposing := isComposing st;
                  seen := seen st; seen_pair := pair |} in
    if bool_decide (debouncedValue st = value st) then st'
    else filter_columns (replace_text (debouncedValue st)) st'.

(** The effects of one render. *)
Definition commit (st : FieldState) : FieldState := write_effect (align_effect st).

Definition quiescent (st : FieldState) : bool :=
  bool_decide (value st = seen st) && bool_decide (seen_pair st = (debouncedValue st, value st)).

(** Renders until no effect has a changed dependency. *)
Fixpoint settle (fuel : nat) (st : FieldState) : FieldState :=
  if quiescent st then st
  else match fuel with O => st | S fuel => settle fuel (commit st) end.

(** ** Events *)

(** [Filter] is the table's own [onColumnFiltersChange]; [Reset] the reset button of the
    channel table; [Visit] the back button or a link; [Deliver] the render of the parameters
    the router is at; [Elapse] the end of the delay, which a new text restarts. *)
Inductive event :=
  | Type_ (text : jsstr) | CompositionStart | CompositionEnd (text : jsstr) | ResetInput
  | Elapse | Filter (updater : filter_state -> filter_state) | Reset_ | Visit_ (s : obj) | Deliver.

Definition at_location (s : obj) (st : FieldState) : FieldState :=
  {| table := table st; location := s; inputValue := inputValue st; pendingValue := pendingValue st;
     debouncedValue := debouncedValue st; isComposing := isComposing st;
     seen := seen st; seen_pair := seen_pair st |}.

Definition with_table (t : TableState) (st : FieldState) : FieldState :=
  {| table := t; location := location st; inputValue := inputValue st; pendingValue := pendingValue st;
     debouncedValue := debouncedValue st; isComposing := isComposing st;
     seen := seen st; seen_pair := seen_pair st |}.

(** [table.setGlobalFilter('')] *)
Definition clear_search (st : FieldState) : FieldState :=
  if globalFilterEnabled P then
    with_table {| search := search (table st); columnFilters := columnFilters (table st); globalFilter := Some [] |}
      (at_location (route_search (globally_filtered P [] (location st))) st)
  else st.

Definition handle (st : FieldState) (e : event) : FieldState :=
  match e with
  | Type_ t => with_field t (if isComposing st then pendingValue st else t) (isComposing st) st
  | CompositionStart => with_field (inputValue st) (pendingValue st) true st
  | CompositionEnd t => with_field t t false st
  | ResetInput => with_field [] [] false st
  | Elapse =>
      {| table := table st; location := location st; inputValue := inputValue st;
         pendingValue := pendingValue st; debouncedValue := pendingValue st;
         isComposing := isComposing st; seen := seen st; seen_pair := seen_pair st |}
  | Filter updater => filter_columns updater st
  | Reset_ => with_field [] [] false (clear_search (filter_columns (fun _ => []) st))
  | Visit_ s => at_location (route_search s) st
  | Deliver => with_table (arrive P unchanged (location st) (columnFilters (table st)) (globalFilter (table st)) (table st)) st
  end.

Definition step (st : FieldState) (e : event) : FieldState := settle 2 (handle st e).

Definition steps (st : FieldState) (l : list event) : FieldState := fold_left step l st.

(** The page opened at some parameters. *)
Definition open_field (s : obj) : FieldState :=
  let t := mount P s in
  let v := text_of (columnFilters t) in
  {| table := t; location := s; inputValue := v; pendingValue := v; debouncedValue := v;
     isComposing := false; seen := v; seen_pair := (v, v) |}.

End Hook.

(** ** The effects settle *)

Section Effects.
Context (P : Params) (route_search : obj -> obj) (unchanged : obj -> obj -> bool) (field : jsstr).

Abbreviation commit := (commit P route_search field).
Abbreviation settle := (settle P route_search field).
Abbreviation step := (step P route_search unchanged field).
Abbreviation steps := (steps P route_search unchanged field).
Abbreviation value := (value field).

(** The filter is the debounced text, and the effects have seen it. *)
Definition steady (st : FieldState) : Prop :=
  value st = debouncedValue st /\ seen st = value st /\ seen_pair st = (debouncedValue st, value st).

(** What lies between two steps: the effects have seen a filter that is the text. *)
Definition paired (st : FieldState) : Prop := fst (seen_pair st) = snd (seen_pair st).

Lemma steady_paired st : steady st -> paired st.
Proof. intros (H & _ & E). unfold paired. by rewrite E. Qed.

Lemma steady_quiescent st : steady st -> quiescent field st = true.
Proof. intros (_ & H1 & H2). unfold quiescent. by rewrite H1, H2, !bool_decide_eq_true_2. Qed.

Lemma find_filterb fs :
  find_filter field (filterb (fun f => negb (bool_decide (fst f = field))) fs) = VUndef.
Proof.
  induction fs as [|[i v] fs IH]; [done|]. cbn [filterb fst].
  case_bool_decide as E; cbn [negb]; [done|]. cbn [find_filter]. by rewrite bool_decide_eq_false_2.
Qed.

Lemma find_filter_app fs gs :
  find_filter field fs = VUndef -> Forall (fun f => fst f <> field) fs ->
  find_filter field (fs ++ gs) = find_filter field gs.
Proof.
  intros _ H. induction H as [|[i v] fs Hi _ IH]; [done|]. cbn [app find_filter].
  by rewrite bool_decide_eq_false_2.
Qed.

(** Replacing the text of the column gives the column that text. *)
Lemma text_replaced t fs : text_of field (replace_text field t fs) = t.
Proof.
  unfold text_of, replace_text. destruct (truthy_str t) eqn:E.
  - rewrite find_filter_app.
    + cbn [find_filter]. by rewrite bool_decide_eq_true_2.
    + apply find_filterb.
    + apply Forall_forall. intros f Hf. apply elem_of_filterb in Hf as [Hf _].
      by case_bool_decide.
  - rewrite find_filterb. by destruct t.
Qed.

(** A render whose filter is the debounced text only brings the field up to date. *)
Lemma commit_same st :
  value st = debouncedValue st ->
  steady (commit st) /\ table (commit st) = table st /\ location (commit st) = location st /\
  debouncedValue (commit st) = debouncedValue st /\ isComposing (commit st) = isComposing st /\
  pendingValue (commit st) = (if bool_decide (value st = seen st) then pendingValue st else value st) /\
  inputValue (commit st) = (if bool_decide (value st = seen st) || isComposing st then inputValue st else value st).
Proof.
  intros H. unfold DebouncedFilter.commit.
  assert (A : forall st', value st' = debouncedValue st' -> seen st' = value st' ->
    let st2 := write_effect P route_search field st' in
    steady st2 /\ table st2 = table st' /\ location st2 = location st' /\
    debouncedValue st2 = debouncedValue st' /\ isComposing st2 = isComposing st' /\
    pendingValue st2 = pendingValue st' /\ inputValue st2 = inputValue st').
  { intros st' E1 E2. cbv zeta. unfold write_effect.
    destruct (bool_decide_reflect ((debouncedValue st', value st') = seen_pair st')) as [E|E].
    - unfold steady. rewrite <- E. repeat split; done.
    - rewrite bool_decide_eq_true_2 by done. unfold steady. cbn. repeat split; done. }
  unfold align_effect. fold value.
  destruct (bool_decide_reflect (value st = seen st)) as [E|E]; cbn [orb].
  - by apply A.
  - destruct (A {| table := table st; location := location st;
          inputValue := if isComposing st then inputValue st else value st; pendingValue := value st;
          debouncedValue := debouncedValue st; isComposing := isComposing st;
          seen := value st; seen_pair := seen_pair st |}) as (H1 & H2); [done|done|].
    by split.
Qed.

(** A render whose filter differs from the debounced text writes the text. *)
Lemma commit_apart st :
  value st <> debouncedValue st -> paired st ->
  let next := replace_text field (debouncedValue st) (columnFilters (table st)) in
  let st2 := commit st in
  columnFilters (table st2) = next /\ search (table st2) = search (table st) /\
  globalFilter (table st2) = globalFilter (table st) /\
  location st2 = route_search (column_filtered P next (location st)) /\
  debouncedValue st2 = debouncedValue st /\ isComposing st2 = isComposing st /\
  seen st2 = value st /\ seen_pair st2 = (debouncedValue st, value st) /\
  inputValue st2 = (if bool_decide (value st = seen st) || isComposing st then inputValue st else value st).
Proof.
  intros Hne Hp. cbv zeta. unfold DebouncedFilter.commit, align_effect. fold value.
  assert (Hpair : (debouncedValue st, value st) <> seen_pair st).
  { intros E. apply Hne. unfold paired in Hp. by rewrite <- E in Hp. }
  destruct (bool_decide_reflect (value st = seen st)) as [E|E]; cbn [orb];
    unfold write_effect, DebouncedFilter.value; cbn [table debouncedValue seen_pair]; fold (value st);
    rewrite !bool_decide_eq_false_2 by done; cbn; repeat split; done.
Qed.

(** From any state two renders are enough, and the filter ends as the debounced text. *)
Lemma settle_same st :
  value st = debouncedValue st ->
  steady (settle 2 st) /\ table (settle 2 st) = table st /\ location (settle 2 st) = location st /\
  debouncedValue (settle 2 st) = debouncedValue st /\ isComposing (settle 2 st) = isComposing st /\
  pendingValue (settle 2 st) = (if bool_decide (value st = seen st) then pendingValue st else value st) /\
  inputValue (settle 2 st) = (if bool_decide (value st = seen st) || isComposing st then inputValue st else value st).
Proof.
  intros H. cbn [DebouncedFilter.settle]. destruct (quiescent field st) eqn:Q.
  - unfold quiescent in Q. apply andb_prop in Q as [Q1 Q2]. fold (value st) in Q1, Q2. rewrite Q1. bool_hyps.
    unfold steady. repeat split; done.
  - pose proof (commit_same st H) as C. destruct C as (C0 & C).
    by rewrite (steady_quiescent _ C0).
Qed.

Lemma settle_apart st :
  value st <> debouncedValue st -> paired st ->
  let next := replace_text field (debouncedValue st) (columnFilters (table st)) in
  let st2 := settle 2 st in
  steady st2 /\ columnFilters (table st2) = next /\ search (table st2) = search (table st) /\
  globalFilter (table st2) = globalFilter (table st) /\
  location st2 = route_search (column_filtered P next (location st)) /\
  debouncedValue st2 = debouncedValue st /\ isComposing st2 = isComposing st /\
  pendingValue st2 = debouncedValue st /\
  (isComposing st = false -> inputValue st2 = debouncedValue st).
Proof.
  intros Hne Hp. cbv zeta. destruct (commit_apart st Hne Hp) as (A1 & A2 & A3 & A4 & A5 & A6 & A7 & A8 & A9).
  assert (V : value (commit st) = debouncedValue (commit st)).
  { unfold DebouncedFilter.value. by rewrite A1, text_replaced, A5. }
  destruct (commit_same _ V) as (B0 & B1 & B2 & B3 & B4 & B5 & B6).
  assert (Q : quiescent field (commit st) = false).
  { unfold quiescent. fold (value (commit st)). rewrite V, A5, A7.
    rewrite (bool_decide_eq_false_2 (debouncedValue st = value st)); [done|]. congruence. }
  assert (E : settle 2 st = commit (commit st)).
  { cbn [DebouncedFilter.settle]. rewrite Q, (steady_quiescent _ B0).
    destruct (quiescent field st) eqn:Q0; [|done]. exfalso. unfold quiescent in Q0.
    apply andb_prop in Q0 as [_ Q0]. bool_hyps. unfold paired in Hp. rewrite Q0 in Hp. by apply Hne. }
  rewrite V, A5, A7 in B5, B6. rewrite (bool_decide_eq_false_2 (debouncedValue st = value st)) in B5, B6 by congruence.
  rewrite E, B1, B2, B3, B4. repeat split; try done; try congruence.
  all: try apply B0. intros Hc. rewrite A6, Hc in B6. done.
Qed.

Lemma settle_steady st :
  paired st -> steady (settle 2 st) /\ debouncedValue (settle 2 st) = debouncedValue st.
Proof.
  intros Hp. destruct (decide (value st = debouncedValue st)) as [E|E].
  - destruct (settle_same st E) as (H & _ & _ & H2 & _). by split.
  - destruct (settle_apart st E Hp) as (H & _ & _ & _ & _ & H2 & _). by split.
Qed.

Lemma handle_seen e st :
  seen_pair (handle P route_search unchanged st e) = seen_pair st /\
  seen (handle P route_search unchanged st e) = seen st.
Proof. destruct e; cbn [handle]; try done. unfold clear_search. by destruct (globalFilterEnabled P). Qed.

Lemma step_steady e st : paired st -> steady (step st e).
Proof.
  intros H. apply settle_steady. unfold paired. by rewrite (proj1 (handle_seen e st)).
Qed.

Lemma steps_steady l st : steady st -> steady (steps st l).
Proof.
  intros H. unfold DebouncedFilter.steps. apply fold_invariant; [done|].
  intros r e _ Hr. by apply step_steady, steady_paired.
Qed.

Lemma open_steady s : steady (open_field P field s).
Proof. repeat split. Qed.

(** More renders change nothing. *)
Lemma settle_more n m st : quiescent field (settle n st) = true -> settle (n + m) st = settle n st.
Proof.
  revert st; induction n as [|n IH]; intros st; cbn [Nat.add DebouncedFilter.settle].
  - destruct (quiescent field st) eqn:E; intros H; [|by rewrite E in H].
    destruct m; cbn [DebouncedFilter.settle]; by rewrite E.
  - destruct (quiescent field st) eqn:E; [done|]. apply IH.
Qed.

(** ** Events outside the field *)

(** The user does nothing in the field. *)
Definition outside (e : event) : Prop :=
  match e with Type_ _ | CompositionEnd _ | ResetInput => False | _ => True end.

(** No text waits for the timer. *)
Definition idle (st : FieldState) : Prop := steady st /\ pendingValue st = debouncedValue st.

Lemma step_idle e st : outside e -> idle st -> idle (step st e) /\ value (step st e) = value st.
Proof.
  intros He [Hs Hp]. set (st' := handle P route_search unchanged st e).
  assert (Hpair : paired st').
  { unfold paired, st'. rewrite (proj1 (handle_seen e st)). by apply steady_paired. }
  assert (Hd : debouncedValue st' = debouncedValue st).
  { unfold st'. destruct e; cbn [handle]; try done. unfold clear_search. by destruct (globalFilterEnabled P). }
  assert (Hpend : value st' = debouncedValue st' -> value st' = seen st' -> pendingValue st' = debouncedValue st').
  { unfold st'. destruct e; cbn [handle outside] in *; try done.
    intros E _. rewrite <- E. unfold clear_search. by destruct (globalFilterEnabled P). }
  destruct (settle_steady st' Hpair) as [Hst Hdst].
  assert (Hv : value (step st e) = value st).
  { unfold DebouncedFilter.step. fold st'. rewrite (proj1 Hst), Hdst, Hd. symmetry. apply Hs. }
  split; [|done]. split; [done|]. unfold DebouncedFilter.step. fold st'. rewrite Hdst.
  destruct (decide (value st' = debouncedValue st')) as [E|E].
  - destruct (settle_same st' E) as (_ & _ & _ & _ & _ & -> & _). case_bool_decide as B; [by apply Hpend|done].
  - by destruct (settle_apart st' E Hpair) as (_ & _ & _ & _ & _ & _ & _ & -> & _).
Qed.

Lemma steps_idle l st : Forall outside l -> idle st -> idle (steps st l) /\ value (steps st l) = value st.
Proof.
  intros Hl Hi. unfold DebouncedFilter.steps.
  apply (fold_invariant (fun r => idle r /\ value r = value st)); [done|].
  intros r e He [Hr1 Hr2]. destruct (step_idle e r) as [H1 H2]; [by apply (proj1 (Forall_forall _ _) Hl)|done|].
  split; [done|]. by rewrite H2.
Qed.

(** ** Typing *)

Lemma step_type t st :
  steady st -> isComposing st = false ->
  steady (step st (Type_ t)) /\ table (step st (Type_ t)) = table st /\ location (step st (Type_ t)) = location st /\
  debouncedValue (step st (Type_ t)) = debouncedValue st /\ isComposing (step st (Type_ t)) = false /\
  pendingValue (step st (Type_ t)) = t /\ inputValue (step st (Type_ t)) = t.
Proof.
  intros (H1 & H2 & _) Hc. unfold DebouncedFilter.step. set (st' := handle P route_search unchanged st (Type_ t)).
  assert (E : value st' = debouncedValue st') by done.
  destruct (settle_same st' E) as (S & -> & -> & -> & -> & -> & ->).
  assert (B : bool_decide (value st' = seen st') = true) by (by apply bool_decide_eq_true_2).
  split; [done|]. rewrite B. unfold st'. cbn. rewrite Hc. repeat split; done.
Qed.

Lemma steps_type ts st :
  steady st -> isComposing st = false ->
  let st1 := steps st (Type_ <$> ts) in
  steady st1 /\ table st1 = table st /\ location st1 = location st /\
  debouncedValue st1 = debouncedValue st /\ isComposing st1 = false /\
  pendingValue st1 = List.last ts (pendingValue st).
Proof.
  cbv zeta. unfold DebouncedFilter.steps. intros Hs Hc. revert st Hs Hc.
  induction ts as [|t ts IH]; intros st Hs Hc; [done|].
  change (Type_ <$> t :: ts) with (Type_ t :: (Type_ <$> ts)). cbn [fold_left].
  destruct (step_type t st Hs Hc) as (T1 & T2 & T3 & T4 & T5 & T6 & _).
  destruct (IH _ T1 T5) as (I1 & -> & -> & -> & -> & ->).
  split; [done|]. rewrite T2, T3, T4, T6. repeat split; try done.
  destruct ts as [|t' ts]; [done|]. clear. generalize t' as a. induction ts as [|b ts IH]; intros a; [done|].
  apply (IH b).
Qed.

End Effects.

(** ** Properties *)

Lemma find_text field fs v : text_of field fs = v -> v <> [] -> find_filter field fs = VStr v.
Proof. unfold text_of. by destruct (find_filter field fs); intros <-. Qed.

(** The effects settle: on a page opened at any address, after any events, two renders
    leave no effect to run, more renders change nothing, and the filter of the column is then
    the debounced text of the field. *)
Theorem effects_settle P route_search unchanged field s l e :
  let st := handle P route_search unchanged (steps P route_search unchanged field (open_field P field s) l) e in
  let settled := settle P route_search field 2 st in
  quiescent field settled = true /\
  (forall m, settle P route_search field (2 + m) st = settled) /\
  value field settled = debouncedValue st.
Proof.
  cbv zeta. set (st0 := steps _ _ _ _ _ _).
  assert (H0 : steady field st0) by (apply steps_steady, open_steady).
  set (st := handle _ _ _ _ _).
  destruct (settle_steady P route_search field st) as [Hs Hd].
  { unfold paired, st. rewrite (proj1 (handle_seen P route_search unchanged e st0)).
    by apply (steady_paired field). }
  assert (Q := steady_quiescent field _ Hs). split; [done|]. split.
  - intros m. by apply settle_more.
  - by rewrite (proj1 Hs).
Qed.

(** C15. Only typing changes the filter of the field: once the delay is over, no sequence of
    other events - the reset button, other changes of the filters, the back button, links,
    arriving parameters - changes the text the column is filtered by, since the field
    writes its text back.  In particular an address without the filter is left again for one with it. *)
Theorem outside_change_undone P route_search unchanged field s0 l0 cfg
    (HP : configured P) (HR : faithful_router route_search unchanged)
    (Hcfg : cfg ∈ columnFiltersCfg P) (Hid : columnId cfg = field) (Hty : type cfg = TString)
    (Hser : serialize cfg = None) :
  let st := steps P route_search unchanged field (open_field P field s0) l0 in
  pendingValue st = debouncedValue st ->
  (forall l, Forall outside l -> value field (steps P route_search unchanged field st l) = value field st) /\
  forall s, truthy_str (trim (value field st)) = true ->
    unchanged (search (table st)) (route_search s) = false ->
    text_of field (initialColumnFilters P (route_search s)) <> value field st ->
    let st' := steps P route_search unchanged field st [Visit_ s; Deliver] in
    search (table st') = route_search s /\ at_ (searchKey cfg) (location st') = VStr (value field st).
Proof.
  cbv zeta. set (st := steps _ _ _ _ _ _). intros Hp.
  assert (Hi : idle field st) by (split; [apply steps_steady, open_steady|done]).
  split; [intros l Hl; by apply steps_idle|]. intros s Ht Hun Hne.
  set (v := value field st) in *. cbn [steps fold_left].
  set (st1 := step P route_search unchanged field st (Visit_ s)).
  assert (Hsame : steady field (at_location (route_search s) st)) by apply Hi.
  destruct (settle_same P route_search field (at_location (route_search s) st)) as (_ & T1 & L1 & D1 & _); [apply Hsame|].
  change (settle P route_search field 2 (at_location (route_search s) st)) with st1 in T1, L1, D1.
  cbn [at_location table location debouncedValue] in T1, L1, D1.
  set (st2 := handle P route_search unchanged st1 Deliver).
  assert (Htab : table st2 = {| search := route_search s;
            columnFilters := initialColumnFilters P (route_search s); globalFilter := globalFilter (table st1) |}).
  { unfold st2. cbn [handle with_table table]. unfold arrive. by rewrite T1, L1, Hun. }
  assert (Hd2 : debouncedValue st2 = v).
  { unfold st2. cbn [handle with_table debouncedValue]. rewrite D1. symmetry. apply Hi. }
  assert (Hv2 : value field st2 <> debouncedValue st2) by (rewrite Hd2; unfold value; by rewrite Htab).
  destruct (settle_apart P route_search field st2 Hv2) as (_ & _ & Hs & _ & Hl & _).
  { assert (S1 : steady field st1) by (apply step_steady, (steady_paired field); apply Hi).
    unfold paired, st2. cbn. by apply (steady_paired field). }
  unfold step. fold st2. rewrite Hs, Hl, Htab. split; [done|].
  rewrite (routed _ _ HR), (at_column_filtered_cfg P) by done. unfold patch_value. rewrite Hty, Hid, Hser, Hd2.
  rewrite (find_text field _ v (text_replaced field v _)); [by rewrite Ht|]. by intros ->.
Qed.

(** Typing waits and then filters: while texts are typed the filters and the address stay
    as they are; when the delay after the last of them is over the column is filtered by
    it, with a single navigation unless it was the filter already. *)
Theorem typed_text_filters P route_search unchanged field s0 l0 ts t :
  let st := steps P route_search unchanged field (open_field P field s0) l0 in
  isComposing st = false ->
  let st1 := steps P route_search unchanged field st (Type_ <$> (ts ++ [t])) in
  let st2 := step P route_search unchanged field st1 Elapse in
  (table st1 = table st /\ location st1 = location st) /\
  value field st2 = t /\
  location st2 = if bool_decide (t = value field st) then location st
                 else route_search (column_filtered P (replace_text field t (columnFilters (table st))) (location st)).
Proof.
  cbv zeta. set (st := steps _ _ _ _ _ _). intros Hc.
  assert (Hs : steady field st) by (apply steps_steady, open_steady).
  destruct (steps_type P route_search unchanged field (ts ++ [t]) st Hs Hc) as (H1 & H2 & H3 & H4 & _ & H6).
  rewrite List.last_last in H6. set (st1 := steps _ _ _ _ st _) in *. split; [done|].
  set (st2 := handle P route_search unchanged st1 Elapse).
  assert (Hp : paired st2) by (unfold paired, st2; cbn; by apply (steady_paired field)).
  assert (Hd : debouncedValue st2 = t) by done.
  assert (Hv : value field st2 = value field st) by (unfold value, st2; cbn; by rewrite H2).
  destruct (settle_steady P route_search field st2 Hp) as [S2 D2]. unfold step. fold st2.
  split; [rewrite (proj1 S2), D2; exact Hd|].
  destruct (bool_decide_reflect (t = value field st)) as [E|E].
  - destruct (settle_same P route_search field st2) as (_ & _ & -> & _); [by rewrite Hd, Hv|done].
  - destruct (settle_apart P route_search field st2) as (_ & _ & _ & _ & -> & _); [by rewrite Hd, Hv|done|].
    rewrite Hd. unfold st2. cbn. by rewrite H2, H3.
Qed.

(** ** The token field of the table of API keys *)

Definition token_column : ColumnConfig :=
  {| columnId := js "_tokenSearch"; searchKey := js "token"; type := TString;
     serialize := None; deserialize := None |}.

(** A page opened with a filter on the token, and the reset button. *)
Definition keys_page (l : list event) : FieldState :=
  steps keys_table plain_router fresh_object (js "_tokenSearch")
    (open_field keys_table (js "_tokenSearch") [(js "token", VStr (js "abc"))]) l.

(** Reset clears the filter and the field for one render only. *)
Example reset_undone :
  let st := keys_page [Reset_; Deliver; Elapse] in
  (value (js "_tokenSearch") st, inputValue st, at_ (js "token") (location st))
  = (js "abc", js "abc", VStr (js "abc")).
Proof. vm_compute. reflexivity. Qed.

(** The user can empty the field. *)
Example field_emptied :
  let st := keys_page [Type_ []; Elapse; Deliver] in
  (value (js "_tokenSearch") st, at_ (js "token") (location st)) = ([], VUndef).
Proof. vm_compute. reflexivity. Qed.

Lemma outside_change_undone_witness :
  let st := keys_page [] in
  value (js "_tokenSearch") (keys_page [Reset_; Deliver; Elapse; Visit_ []; Deliver]) = js "abc" /\
  let st' := steps keys_table plain_router fresh_object (js "_tokenSearch") st [Visit_ []; Deliver] in
  search (table st') = [] /\ at_ (js "token") (location st') = VStr (js "abc").
Proof.
  cbv zeta. destruct (outside_change_undone keys_table plain_router fresh_object (js "_tokenSearch")
    [(js "token", VStr (js "abc"))] [] token_column keys_configured plain_router_faithful) as [H1 H2];
    [apply list_elem_of_further, list_elem_of_here|reflexivity..|].
  split.
  - apply (H1 [Reset_; Deliver; Elapse; Visit_ []; Deliver]). repeat constructor.
  - apply (H2 []); [reflexivity|reflexivity|discriminate].
Defined.

Lemma typed_text_filters_witness :
  let st1 := keys_page (Type_ <$> [js "x"; js "xy"]) in
  location st1 = [(js "token", VStr (js "abc"))] /\
  value (js "_tokenSearch") (step keys_table plain_router fresh_object (js "_tokenSearch") st1 Elapse) = js "xy".
Proof.
  destruct (typed_text_filters keys_table plain_router fresh_object (js "_tokenSearch")
    [(js "token", VStr (js "abc"))] [] [js "x"] (js "xy") eq_refl) as ([_ H1] & H2 & _).
  exact (conj H1 H2).
Defined.
