(* ===== verification/SettingsForm.v ===== *)
(** * Forms of system settings ([features/system-settings/hooks/use-settings-form.ts])

    A section of the settings is a form of the form library over nested values.  The hook
    keeps the values last saved, flattened to the names the server knows, sends what differs
    from them, one request after the other, and takes over new defaults when the options are
    read again.  [use-update-option.ts] sends a request; a refusal ([success: false]) resolves
    like a success.  The form library's marks of changed fields and the schema are parameters. *)

From S2P Require Import Prelude JsString JsNumber JsValue JsJson.

#[local] Open Scope N_scope.

(** ** Flattening and expanding *)

(** [parentKey ? `${parentKey}.${key}` : key] *)
Definition next_key (parentKey : option jsstr) (key : jsstr) : jsstr :=
  match parentKey with
  | Some p => if truthy_str p then p ++ [46] ++ key else key
  | None => key
  end.

(** [flattenValues] *)
Fixpoint flatten_into (values : jsval) (parentKey : option jsstr) (result : obj) : obj :=
  match values with
  | VObj es =>
      (fix go (es : obj) (result : obj) : obj :=
         match es with
         | [] => result
         | (key, value) :: es =>
             let nextKey := next_key parentKey key in
             go es (match value with
                    | VObj _ => flatten_into value (Some nextKey) result
                    | _ => oset nextKey value result
                    end)
         end) es result
  | _ => match parentKey with Some p => oset p values result | None => result end
  end.

Definition flattenValues (values : jsval) : obj := flatten_into values None [].

(** [collectDirtyValues] *)
Fixpoint collect_into (dirtyFields values : jsval) (parentKey : option jsstr) (result : obj) : obj :=
  let field (key : jsstr) (value : jsval) (result : obj) : obj :=
    let nextKey := next_key parentKey key in
    let source := match values with
                  | VObj _ | VArr _ => at_ key (entries_of values)
                  | _ => VUndef
                  end in
    match value with
    | VBool true => oset nextKey source result
    | VObj _ | VArr _ => collect_into value source (Some nextKey) result
    | _ => result
    end in
  match dirtyFields with
  | VBool true => match parentKey with Some p => oset p values result | None => result end
  | VObj es =>
      (fix go (es : obj) (result : obj) : obj :=
         match es with
         | [] => result
         | (key, value) :: es => go es (field key value result)
         end) es result
  | VArr l =>
      (fix go (i : N) (l : list jsval) (result : obj) : obj :=
         match l with
         | [] => result
         | value :: l => go (i + 1) l (field (digits_of i) value result)
         end) 0 l result
  | _ => result
  end.

Definition collectDirtyValues (dirtyFields values : jsval) : obj := collect_into dirtyFields values None [].

(** [setDeepValue] on the segments of the path. *)
Fixpoint set_deep (segments : list jsstr) (value : jsval) (target : obj) : obj :=
  match segments with
  | [] => target
  | [segment] => oset segment value target
  | segment :: rest =>
      let next := match at_ segment target with VObj o => o | _ => [] end in
      oset segment (VObj (set_deep rest value next)) target
  end.

Definition setDeepValue (target : obj) (path : jsstr) (value : jsval) : obj :=
  set_deep (split_char 46 path) value target.

(** [expandDotPaths] *)
Fixpoint expandDotPaths (values : jsval) : jsval :=
  match values with
  | VObj es =>
      VObj ((fix go (es : obj) (result : obj) : obj :=
         match es with
         | [] => result
         | (key, value) :: es =>
             go es (if includes (js ".") key then setDeepValue result key value
                    else match value with
                         | VObj _ => oset key (expandDotPaths value) result
                         | _ => oset key value result
                         end)
         end) es [])
  | _ => values
  end.

(** ** Comparing *)

(** [a === b]; two arrays or two objects of the form are distinct references. *)
Definition same_value (a b : jsval) : bool :=
  match a, b with
  | VUndef, VUndef | VNull, VNull => true
  | VBool x, VBool y => Bool.eqb x y
  | VNum x, VNum y => neqb x y
  | VStr s, VStr t => bool_decide (s = t)
  | _, _ => false
  end.

(** [defaultCompare]: by reference or, for arrays and objects, by their JSON texts. *)
Definition defaultCompare (a b : jsval) : bool :=
  if same_value a b then true
  else match a, b with
       | VArr _, VArr _ | VObj _, VObj _ | VArr _, VObj _ | VObj _, VArr _ =>
           bool_decide (stringify a = stringify b)
       | _, _ => false
       end.

(** ** The sections' requests *)

(** [general/quota-settings-section.tsx] *)
Definition quota_request (kv : jsstr * jsval) : option (jsstr * jsval) := Some kv.

(** [general/pricing-section.tsx]; null and objects are skipped. *)
Definition pricing_request (kv : jsstr * jsval) : option (jsstr * jsval) :=
  match snd kv with
  | VUndef | VNull | VObj _ | VArr _ => None
  | VBool b => Some (fst kv, VStr (to_string (VBool b)))
  | VNum n => Some (fst kv, VStr (if is_finite n then to_string (VNum n) else js "0"))
  | VStr s => Some kv
  end.

(** [normalizeValue] of [general/system-info-section.tsx] *)
Definition normalizeValue (value : jsval) : jsstr :=
  match value with VUndef | VNull => [] | VStr s => s | v => to_string v end.

Fixpoint drop_slashes (s : jsstr) : jsstr :=
  match s with c :: t => if c =? 47 then drop_slashes t else s | [] => [] end.

(** [v.replace(/\/+$/, '')] *)
Definition strip_slashes (v : jsstr) : jsstr := reverse (drop_slashes (reverse v)).

(** [general/system-info-section.tsx] *)
Definition system_info_request (kv : jsstr * jsval) : option (jsstr * jsval) :=
  let v := normalizeValue (snd kv) in
  Some (fst kv, VStr (if bool_decide (fst kv = js "ServerAddress") then strip_slashes v else v)).

(** ** The hook *)

Section Hook.

(** The form library: the marks of the fields that differ from the library's defaults.  The
    schema: the values parsed, or errors.  The section: the request for a changed field. *)
Context (dirtyFields : jsval -> jsval -> jsval) (resolver : jsval -> option jsval).
Context (request : jsstr * jsval -> option (jsstr * jsval)).

Record State := {
  values : jsval;                 (* the form library's values *)
  formDefaults : jsval;           (* ... and defaults *)
  baselineRef : obj; defaultValuesRef : jsval; serializedDefaultsRef : jsstr;
  (* the data being submitted and the requests not answered yet *)
  submitting : option (jsval * list (jsstr * jsval));
  (* the requests sent so far, last first *)
  sent : list (jsstr * jsval) }.

(** The form on a page whose options were read. *)
Definition open_form (defaults : jsval) : State :=
  let expanded := expandDotPaths defaults in
  {| values := expanded; formDefaults := expanded;
     baselineRef := flattenValues expanded; defaultValuesRef := expanded;
     serializedDefaultsRef := ser (VObj (flattenValues expanded));
     submitting := None; sent := [] |}.

(** The effect on new defaults. *)
Definition receive (defaults : jsval) (st : State) : State :=
  let expanded := expandDotPaths defaults in
  let flattened := flattenValues expanded in
  let serialized := ser (VObj flattened) in
  if bool_decide (serialized = serializedDefaultsRef st) then st
  else {| values := expanded; formDefaults := expanded;
          baselineRef := flattened; defaultValuesRef := expanded; serializedDefaultsRef := serialized;
          submitting := submitting st; sent := sent st |}.

(** The fields that differ from the values last saved. *)
Definition changedFields (data : jsval) (st : State) : obj :=
  let dirtyValues := collectDirtyValues (dirtyFields (formDefaults st) (values st)) data in
  obj_of (filterb (fun kv => negb (defaultCompare (snd kv) (at_ (fst kv) (baselineRef st)))) dirtyValues).

(** What follows the last request. *)
Definition saved (data : jsval) (st : State) : State :=
  let flattenedValues := flattenValues data in
  {| values := data; formDefaults := data;
     baselineRef := flattenedValues; defaultValuesRef := data;
     serializedDefaultsRef := ser (VObj flattenedValues);
     submitting := None; sent := sent st |}.

(** The next request, or the end of the submission. *)
Definition proceed (data : jsval) (rest : list (jsstr * jsval)) (st : State) : State :=
  match rest with
  | [] => saved data st
  | r :: _ =>
      {| values := values st; formDefaults := formDefaults st; baselineRef := baselineRef st;
         defaultValuesRef := defaultValuesRef st; serializedDefaultsRef := serializedDefaultsRef st;
         submitting := Some (data, rest); sent := r :: sent st |}
  end.

(** The save button, disabled while a submission runs. *)
Definition submit (st : State) : State :=
  match submitting st, resolver (values st) with
  | None, Some data =>
      match changedFields data st with
      | [] => st
      | changed => proceed data (omap request changed) st
      end
  | _, _ => st
  end.

(** The answer to a request: [success: true], [success: false], or an exception. *)
Inductive reply := Accepted | Refused | Rejected.

Definition answer (o : reply) (st : State) : State :=
  match submitting st with
  | Some (data, _ :: rest) =>
      match o with
      | Accepted | Refused => proceed data rest st
      | Rejected =>
          {| values := values st; formDefaults := formDefaults st; baselineRef := baselineRef st;
             defaultValuesRef := defaultValuesRef st; serializedDefaultsRef := serializedDefaultsRef st;
             submitting := None; sent := sent st |}
      end
  | _ => st
  end.

(** [form.reset(defaultValuesRef.current)] *)
Definition handleReset (st : State) : State :=
  {| values := defaultValuesRef st; formDefaults := defaultValuesRef st; baselineRef := baselineRef st;
     defaultValuesRef := defaultValuesRef st; serializedDefaultsRef := serializedDefaultsRef st;
     submitting := submitting st; sent := sent st |}.

(** The user edits the fields. *)
Definition edit (v : jsval) (st : State) : State :=
  {| values := v; formDefaults := formDefaults st; baselineRef := baselineRef st;
     defaultValuesRef := defaultValuesRef st; serializedDefaultsRef := serializedDefaultsRef st;
     submitting := submitting st; sent := sent st |}.

Inductive event := Edit (v : jsval) | Submit | Answer (o : reply) | Receive (defaults : jsval) | Reset_.

Definition step (st : State) (e : event) : State :=
  match e with
  | Edit v => edit v st
  | Submit => submit st
  | Answer o => answer o st
  | Receive defaults => receive defaults st
  | Reset_ => handleReset st
  end.

Definition run (st : State) (l : list event) : State := fold_left step l st.

End Hook.

(** ** Nested values by path *)

Abbreviation path := (list jsstr).

(** The value at a path that is not an object. *)
Fixpoint leaf (p : path) (v : jsval) : option jsval :=
  match p, v with
  | [], VObj _ => None
  | [], _ => Some v
  | s :: p, VObj o => oget s o ≫= leaf p
  | _, _ => None
  end.

(** Objects of the language whose names hold no dot and are not empty. *)
Fixpoint tree_ok (v : jsval) : Prop :=
  match v with
  | VObj o => canonical o /\ fold_right (fun kv P => (fst kv <> [] /\ 46 ∉ fst kv /\ tree_ok (snd kv)) /\ P) True o
  | _ => True
  end.

Lemma tree_ok_obj o :
  tree_ok (VObj o) <-> canonical o /\ Forall (fun kv => fst kv <> [] /\ 46 ∉ fst kv /\ tree_ok (snd kv)) o.
Proof.
  simpl. apply and_iff_compat_l. induction o as [|x o IH]; simpl; [split; constructor|].
  by rewrite IH, Forall_cons.
Qed.

Definition is_leaf (v : jsval) : Prop := is_record v = false.

Lemma leaf_nil v : is_leaf v -> leaf [] v = Some v.
Proof. by destruct v. Qed.

Lemma leaf_is_leaf p v x : leaf p v = Some x -> is_leaf x.
Proof.
  revert v; induction p as [|s p IH]; intros v; cbn [leaf]; destruct v; try done; try (by intros [= <-]).
  destruct (oget s _) as [w|]; [apply IH|done].
Qed.

(** The path of a name. *)
Definition path_of (k : jsstr) : path := split_char 46 k.

Lemma join_path k : join [46] (path_of k) = k.
Proof. apply join_split. Qed.

Lemma path_of_inj k k' : path_of k = path_of k' -> k = k'.
Proof. intros H. by rewrite <- (join_path k), H, join_path. Qed.

Lemma path_join p : p <> [] -> Forall (fun s => 46 ∉ s) p -> path_of (join [46] p) = p.
Proof. intros H1 H2. by apply split_join. Qed.

Lemma path_plain k : 46 ∉ k -> path_of k = [k].
Proof. apply split_char_no_sep. Qed.

(** *** Setting a leaf *)

(** One path leads through the other. *)
Definition comparable (p q : path) : Prop := p `prefix_of` q \/ q `prefix_of` p.

(** The object below a segment of a path. *)
Definition below (s : jsstr) (o : obj) : obj := match at_ s o with VObj o' => o' | _ => [] end.

Lemma set_deep_cons s p x o :
  p <> [] -> set_deep (s :: p) x o = oset s (VObj (set_deep p x (below s o))) o.
Proof. by destruct p. Qed.

Lemma leaf_set_eq p x o : p <> [] -> is_leaf x -> leaf p (VObj (set_deep p x o)) = Some x.
Proof.
  intros Hp Hx. revert o; induction p as [|s p IH]; intros o; [done|].
  destruct p as [|t p]; cbn [set_deep leaf]; rewrite oget_oset_eq.
  - by apply leaf_nil.
  - by apply IH.
Qed.

Lemma leaf_set_apart p q x o : ~ comparable p q -> leaf q (VObj (set_deep p x o)) = leaf q (VObj o).
Proof.
  revert q o; induction p as [|s p IH]; intros q o Hc.
  { exfalso. apply Hc. left. apply prefix_nil. }
  destruct q as [|t q]; [exfalso; apply Hc; right; apply prefix_nil|].
  destruct (decide (p = [])) as [->|Hp]; cbn [leaf].
  - cbn [set_deep]. rewrite oget_oset_ne; [done|]. intros ->. apply Hc. left. apply prefix_cons, prefix_nil.
  - rewrite set_deep_cons by done. destruct (decide (t = s)) as [->|Hne]; [|by rewrite oget_oset_ne].
    rewrite oget_oset_eq. cbn [mbind option_bind]. rewrite IH.
    2: { intros [H|H]; apply Hc; [left|right]; by apply prefix_cons. }
    assert (Hq : q <> []) by (intros ->; apply Hc; right; apply prefix_cons, prefix_nil).
    unfold below, at_. destruct (oget s o) as [w|] eqn:E; cbn [default from_option id mbind option_bind];
      destruct q; try done; by destruct w.
Qed.

Lemma tree_ok_set p x o :
  Forall (fun s => s <> [] /\ 46 ∉ s) p -> is_leaf x -> tree_ok (VObj o) -> tree_ok (VObj (set_deep p x o)).
Proof.
  intros Hp Hx. revert o; induction Hp as [|s p [Hs1 Hs2] Hp IH]; intros o Ho; [done|].
  assert (Hset : forall v, tree_ok v -> tree_ok (VObj (oset s v o))).
  { intros v Hv. apply tree_ok_obj in Ho as [Hc Hf]. apply tree_ok_obj. split; [auto with js|].
    by apply Forall_oset. }
  destruct (decide (p = [])) as [->|Hne]; [apply Hset; by destruct x|].
  rewrite set_deep_cons by done. apply Hset, IH.
  apply tree_ok_obj in Ho as [Hc Hf]. unfold below, at_.
  destruct (oget s o) as [[| | | | | |o']|] eqn:E; cbn [default from_option id]; try (apply tree_ok_obj; split; [apply canonical_nil|constructor]).
  apply oget_Some_elem in E. by apply (proj1 (Forall_forall _ _) Hf) in E as (_ & _ & E).
Qed.

(** *** Flattening *)

(** The segments below the parent. *)
Fixpoint strip (pp q : path) : option path :=
  match pp, q with
  | [], _ => Some q
  | s :: pp, t :: q => if bool_decide (s = t) then strip pp q else None
  | _, _ => None
  end.

Lemma strip_Some pp q q' : strip pp q = Some q' <-> q = pp ++ q'.
Proof.
  revert q; induction pp as [|s pp IH]; intros q; cbn [strip app]; [naive_solver|].
  destruct q as [|t q]; [done|]. case_bool_decide as E; subst; [rewrite IH; naive_solver|].
  split; [done|]. congruence.
Qed.

Lemma strip_snoc pp k q : strip (pp ++ [k]) q = match strip pp q with
  | Some (t :: q') => if bool_decide (k = t) then Some q' else None | _ => None end.
Proof.
  revert q; induction pp as [|s pp IH]; intros q; cbn [strip app]; [by destruct q|].
  destruct q as [|t q]; [done|]. case_bool_decide; [apply IH|done].
Qed.

Definition parent_of (pp : path) : option jsstr :=
  match pp with [] => None | _ => Some (join [46] pp) end.

Definition names (p : path) : Prop := Forall (fun s => s <> [] /\ 46 ∉ s) p.

Lemma names_nodot p : names p -> Forall (fun s => 46 ∉ s) p.
Proof. intros H. eapply Forall_impl; [exact H|]. by intros s [_ Hs]. Qed.

Lemma join_snoc (p : path) k : p <> [] -> join [46] (p ++ [k]) = join [46] p ++ 46 :: k.
Proof.
  induction p as [|s p IH]; intros Hp; [done|]. destruct p as [|t p]; [done|].
  cbn [app]. rewrite (join_cons _ s (t :: (p ++ [k]))) by done. rewrite (join_cons _ s (t :: p)) by done.
  change (t :: p ++ [k]) with ((t :: p) ++ [k]). rewrite IH by done. by rewrite <- !app_assoc.
Qed.

Lemma next_key_path pp k : names pp -> next_key (parent_of pp) k = join [46] (pp ++ [k]).
Proof.
  intros Hp. destruct pp as [|s pp]; [done|]. unfold next_key, parent_of.
  rewrite join_snoc by done. destruct (truthy_str _) eqn:E; [done|]. exfalso.
  assert (join [46] (s :: pp) <> []).
  { apply join_not_nil; [|done]. eapply Forall_impl; [exact Hp|]. by intros x [Hx _]. }
  by destruct (join [46] (s :: pp)).
Qed.

(** One field. *)
Definition flatten_field (parent : option jsstr) (result : obj) (kv : jsstr * jsval) : obj :=
  match snd kv with
  | VObj _ => flatten_into (snd kv) (Some (next_key parent (fst kv))) result
  | _ => oset (next_key parent (fst kv)) (snd kv) result
  end.

Lemma flatten_fields es parent result :
  flatten_into (VObj es) parent result = fold_left (flatten_field parent) es result.
Proof.
  cbn [flatten_into]. revert result; induction es as [|[k v] es IH]; intros result; [done|].
  cbn [fold_left]. rewrite <- IH. unfold flatten_field. cbn [fst snd]. by destruct v.
Qed.

Lemma oget_join q p v (r : obj) :
  q <> [] -> p <> [] -> Forall (fun s => 46 ∉ s) q -> Forall (fun s => 46 ∉ s) p ->
  oget (join [46] q) (oset (join [46] p) v r) = if bool_decide (q = p) then Some v else oget (join [46] q) r.
Proof.
  intros Hq Hp Nq Np. rewrite oget_oset. repeat case_bool_decide; subst; try done.
  exfalso. apply H0. rewrite <- (path_join q), <- (path_join p) by done. by rewrite H.
Qed.

(** What flattening a tree below a parent adds at a path. *)
Definition flattens (v : jsval) : Prop :=
  forall pp r q, names pp -> tree_ok v -> q <> [] -> Forall (fun s => 46 ∉ s) q -> is_record v = true ->
  oget (join [46] q) (flatten_into v (parent_of pp) r)
  = match strip pp q ≫= (fun q' => leaf q' v) with Some x => Some x | None => oget (join [46] q) r end.

Lemma flatten_field_lookup pp r q k v :
  flattens v -> names pp -> k <> [] -> 46 ∉ k -> tree_ok v -> q <> [] -> Forall (fun s => 46 ∉ s) q ->
  oget (join [46] q) (flatten_field (parent_of pp) r (k, v))
  = match strip (pp ++ [k]) q ≫= (fun q' => leaf q' v) with Some x => Some x | None => oget (join [46] q) r end.
Proof.
  intros Hv Hpp Hk1 Hk2 Ht Hq Nq. unfold flatten_field. cbn [fst snd].
  assert (Hpk : names (pp ++ [k])) by (apply Forall_app; split; [done|by repeat constructor]).
  assert (Hne : pp ++ [k] <> []) by (by destruct pp).
  rewrite next_key_path by done. destruct (is_record v) eqn:Er.
  - destruct v as [| | | | | |o]; try done.
    replace (Some (join [46] (pp ++ [k]))) with (parent_of (pp ++ [k])) by (by destruct pp).
    by apply Hv.
  - replace (match v with VObj _ => flatten_into v (Some (join [46] (pp ++ [k]))) r
             | _ => oset (join [46] (pp ++ [k])) v r end) with (oset (join [46] (pp ++ [k])) v r) by (by destruct v).
    rewrite oget_join by (auto using names_nodot).
    destruct (bool_decide_reflect (q = pp ++ [k])) as [->|E].
    + rewrite (proj2 (strip_Some (pp ++ [k]) (pp ++ [k]) [])) by (by rewrite app_nil_r).
      cbn [mbind option_bind]. by rewrite leaf_nil.
    + destruct (strip (pp ++ [k]) q) as [[|t q']|] eqn:S; cbn [mbind option_bind]; [| |done].
      * apply strip_Some in S. by rewrite app_nil_r in S.
      * by destruct v.
Qed.

Lemma flattens_all v : flattens v.
Proof.
  induction v as [| | | | | |es IH] using jsval_ind'; try (intros pp r q _ _ _ _ Hrec; done).
  intros pp r q Hpp Ht Hq Nq _. rewrite flatten_fields. apply tree_ok_obj in Ht as [[Hnd _] Hf].
  revert r. induction es as [|[k v] es IHes]; intros r; cbn [fold_left].
  { destruct (strip pp q) as [[|? ?]|]; done. }
  apply Forall_cons in IH as [IHv IH]. apply Forall_cons in Hf as [(Hk1 & Hk2 & Hv) Hf].
  cbn [fst snd] in *. csimpl in Hnd. unfold okeys in Hnd. csimpl in Hnd. apply NoDup_cons in Hnd as [Hk Hnd].
  rewrite (IHes IH Hnd Hf), (flatten_field_lookup pp r q k v) by done. rewrite strip_snoc.
  destruct (strip pp q) as [[|t q']|]; cbn [mbind option_bind leaf]; [done| |done].
  cbn [oget]. destruct (bool_decide_reflect (k = t)) as [->|E]; cbn [mbind option_bind]; [|done].
  rewrite (proj2 (oget_None_okeys t es)) by done. done.
Qed.

(** A flattened tree holds its leaves under their names. *)
Lemma oget_flatten v k : tree_ok v -> is_record v = true -> oget k (flattenValues v) = leaf (path_of k) v.
Proof.
  intros Ht Hr. unfold flattenValues. rewrite <- (join_path k) at 1.
  change (@None jsstr) with (parent_of []). rewrite (flattens_all v [] [] (path_of k)); try done.
  - cbn. by destruct (leaf (path_of k) v).
  - constructor.
  - apply split_char_not_nil.
  - apply Forall_forall. intros s Hs. by apply split_char_elem in Hs.
Qed.

(** *** Expanding *)

Lemma includes_dot k : includes (js ".") k = false -> 46 ∉ k.
Proof.
  intros H Hin. apply not_true_iff_false in H. apply H. apply includes_spec.
  apply list_elem_of_split in Hin as (u & v & ->). by exists u, v.
Qed.

(** Expanding an object of leaves sets them one after the other. *)
Lemma expand_leaves es :
  Forall (fun kv => is_leaf (snd kv)) es ->
  expandDotPaths (VObj es)
  = VObj (fold_left (fun o kv => set_deep (path_of (fst kv)) (snd kv) o) es []).
Proof.
  cbn [expandDotPaths]. generalize (@nil (jsstr * jsval)) as r. intros r H. f_equal. revert r.
  induction H as [|[k v] es Hv _ IH]; intros r; [done|]. cbn [fold_left fst snd]. rewrite <- IH. f_equal.
  unfold setDeepValue. fold (path_of k). destruct (includes (js ".") k) eqn:E; [done|].
  apply includes_dot in E. rewrite path_plain by done. cbn [set_deep fst snd] in *. by destruct v.
Qed.

(** Options of a section: distinct names with segments, none below another, values that are
    not objects. *)
Record options_ok (es : obj) : Prop := {
  distinct : NoDup (okeys es);
  leaves : Forall (fun kv => is_leaf (snd kv)) es;
  segments : Forall (fun kv => Forall (fun s => s <> []) (path_of (fst kv))) es;
  unrelated : forall k j, k ∈ okeys es -> j ∈ okeys es -> comparable (path_of k) (path_of j) -> k = j }.

Lemma options_tail kv es : options_ok (kv :: es) -> options_ok es.
Proof.
  intros [H1 H2 H3 H4]. unfold okeys in *. csimpl in *. apply NoDup_cons in H1 as [_ H1].
  apply Forall_cons in H2 as [_ H2]. apply Forall_cons in H3 as [_ H3].
  split; try done. intros k j Hk Hj. apply H4; by apply elem_of_cons; right.
Qed.

Lemma expand_lookup es k r :
  options_ok es -> k ∈ okeys es \/ (forall j, j ∈ okeys es -> ~ comparable (path_of j) (path_of k)) ->
  leaf (path_of k) (VObj (fold_left (fun o kv => set_deep (path_of (fst kv)) (snd kv) o) es r))
  = match oget k es with Some x => Some x | None => leaf (path_of k) (VObj r) end.
Proof.
  revert r; induction es as [|[j v] es IH]; intros r Ho Hk; [done|]. cbn [fold_left fst snd oget].
  pose proof (options_tail _ _ Ho) as Ht. destruct Ho as [Hd Hl Hs Hu].
  unfold okeys in *. csimpl in *. apply NoDup_cons in Hd as [Hj Hd]. apply Forall_cons in Hl as [Hv Hl].
  assert (Hcmp : forall i, i ∈ fst <$> es -> ~ comparable (path_of i) (path_of j)).
  { intros i Hi Hc. apply Hj. replace j with i; [done|]. apply Hu; [|by apply list_elem_of_here|done].
    by apply elem_of_cons; right. }
  destruct (bool_decide_reflect (j = k)) as [->|Hne].
  - rewrite IH by (try done; by right). rewrite (proj2 (oget_None_okeys k es)) by done.
    apply leaf_set_eq; [apply split_char_not_nil|done].
  - rewrite IH; [|done|].
    + destruct (oget k es); [done|]. apply leaf_set_apart. destruct Hk as [Hk|Hk].
      * apply elem_of_cons in Hk as [->|Hk]; [done|]. intros Hc. apply Hne, Hu; [|by apply elem_of_cons; right|done].
        apply list_elem_of_here.
      * apply Hk. apply list_elem_of_here.
    + destruct Hk as [Hk|Hk]; [left|right].
      * by apply elem_of_cons in Hk as [->|Hk].
      * intros i Hi. apply Hk. by apply elem_of_cons; right.
Qed.

Lemma tree_ok_expand es r :
  options_ok es -> tree_ok (VObj r) ->
  tree_ok (VObj (fold_left (fun o kv => set_deep (path_of (fst kv)) (snd kv) o) es r)).
Proof.
  revert r; induction es as [|[j v] es IH]; intros r Ho Hr; [done|]. cbn [fold_left fst snd].
  pose proof (options_tail _ _ Ho) as Ht. destruct Ho as [_ Hl Hs _].
  apply Forall_cons in Hl as [Hv _]. apply Forall_cons in Hs as [Hs _]. apply IH; [done|].
  apply tree_ok_set; [|done|done]. apply Forall_forall. intros s Hin. split.
  - by apply (proj1 (Forall_forall _ _) Hs).
  - by apply split_char_elem in Hin.
Qed.

(** A path through another leads nowhere once the other is set. *)
Lemma leaf_set_related p q x o :
  is_leaf x -> p <> [] -> comparable p q -> p <> q -> leaf q (VObj (set_deep p x o)) = None.
Proof.
  intros Hx. revert q o; induction p as [|s p IH]; intros q o Hp Hc Hne; [done|].
  destruct q as [|t q]; [done|]. assert (s = t /\ comparable p q) as [<- Hc'].
  { destruct Hc as [Hc|Hc]; pose proof (prefix_cons_inv_1 _ _ _ _ Hc); pose proof (prefix_cons_inv_2 _ _ _ _ Hc);
      subst; (split; [done|]); solve [by left|by right]. }
  assert (Hpq : p <> q) by congruence. cbn [leaf]. destruct (decide (p = [])) as [->|Hp'].
  - cbn [set_deep]. rewrite oget_oset_eq. cbn [mbind option_bind]. destruct q; [done|]. by destruct x.
  - rewrite set_deep_cons, oget_oset_eq by done. cbn [mbind option_bind]. by apply IH.
Qed.

Lemma expand_nothing_else es k r x :
  Forall (fun kv => is_leaf (snd kv)) es ->
  leaf (path_of k) (VObj (fold_left (fun o kv => set_deep (path_of (fst kv)) (snd kv) o) es r)) = Some x ->
  k ∈ okeys es \/ leaf (path_of k) (VObj r) = Some x.
Proof.
  intros Hl. revert r; induction Hl as [|[j v] es Hv _ IH]; intros r; cbn [fold_left fst snd]; [by right|].
  intros [H|H]%IH; [left; by apply list_elem_of_further|].
  destruct (decide (j = k)) as [->|Hne]; [left; apply list_elem_of_here|].
  destruct (decide (path_of j `prefix_of` path_of k)) as [H1|H1];
    [|destruct (decide (path_of k `prefix_of` path_of j)) as [H2|H2]].
  3: { right. rewrite leaf_set_apart in H; [done|]. by intros [?|?]. }
  all: rewrite leaf_set_related in H; try done; try apply split_char_not_nil; try (by left); try (by right);
    intros E; by apply Hne, path_of_inj.
Qed.

(** Expanding the options of a section into nested form values and flattening these
    gives every option back under its name, and nothing else. *)
Theorem flatten_expand es (Hes : options_ok es) k :
  oget k (flattenValues (expandDotPaths (VObj es))) = oget k es.
Proof.
  rewrite expand_leaves by apply Hes. rewrite oget_flatten; [|apply tree_ok_expand; [done|]|done].
  2: { apply tree_ok_obj. split; [apply canonical_nil|constructor]. }
  assert (Hnil : leaf (path_of k) (VObj []) = None).
  { pose proof (split_char_not_nil 46 k) as H. unfold path_of. by destruct (split_char 46 k). }
  destruct (oget k es) as [v|] eqn:E.
  - rewrite expand_lookup; [by rewrite E|done|]. left. apply ohas_okeys. unfold ohas. by rewrite E.
  - destruct (leaf _ (VObj (fold_left _ es _))) as [x|] eqn:L; [|done]. exfalso.
    apply expand_nothing_else in L as [L|L]; [by apply oget_None_okeys in E| |apply Hes].
    by rewrite Hnil in L.
Qed.

(** ** Saving *)

(** Marks of fields the values have: a mark is set on a value that is not an object. *)
Fixpoint marks_fit (m v : jsval) : Prop :=
  match m with
  | VObj es =>
      fold_right (fun kv P =>
        match snd kv with
        | VBool true => exists w, oget (fst kv) (entries_of v) = Some w /\ is_leaf w
        | VObj _ => exists w, oget (fst kv) (entries_of v) = Some w /\ is_record w = true /\ marks_fit (snd kv) w
        | VArr _ => False
        | _ => True
        end /\ P) True es
  | VArr _ => False
  | _ => True
  end.

Definition collect_field (values : jsval) (parent : option jsstr) (result : obj) (kv : jsstr * jsval) : obj :=
  match snd kv with
  | VBool true => oset (next_key parent (fst kv)) (at_ (fst kv) (entries_of values)) result
  | VObj _ | VArr _ => collect_into (snd kv) (at_ (fst kv) (entries_of values)) (Some (next_key parent (fst kv))) result
  | _ => result
  end.

Lemma collect_fields es values parent result :
  is_record values = true ->
  collect_into (VObj es) values parent result = fold_left (collect_field values parent) es result.
Proof.
  intros Hv. cbn [collect_into]. revert result; induction es as [|[k v] es IH]; intros result; [done|].
  cbn [fold_left]. rewrite <- IH. unfold collect_field. cbn [fst snd].
  by destruct values.
Qed.

(** The entries hold leaves of the whole value under their names. *)
Definition entries_fit (root : jsval) (result : obj) : Prop :=
  Forall (fun kv => leaf (path_of (fst kv)) root = Some (snd kv)) result.

Definition collects (m : jsval) : Prop :=
  forall root v pp result,
    is_record v = true -> tree_ok v -> names pp -> marks_fit m v ->
    (forall q, leaf (pp ++ q) root = leaf q v) ->
    entries_fit root result -> is_record m = true ->
    entries_fit root (collect_into m v (parent_of pp) result).

Lemma collects_all m : collects m.
Proof.
  induction m as [| | | | | |es IH] using jsval_ind'; try (intros root v pp result _ _ _ _ _ _ Hrec; done).
  intros root v pp result Hv Ht Hpp Hm Hroot Hr _. rewrite collect_fields by done.
  destruct v as [| | | | | |o]; try done. apply tree_ok_obj in Ht as [Hc Ho].
  assert (Hes : Forall (fun kv =>
    match snd kv with
    | VBool true => exists w, oget (fst kv) o = Some w /\ is_leaf w
    | VObj _ => exists w, oget (fst kv) o = Some w /\ is_record w = true /\ marks_fit (snd kv) w
    | VArr _ => False | _ => True end) es).
  { clear -Hm. cbn [marks_fit] in Hm. induction es as [|kv es IH]; constructor; [by destruct Hm|].
    apply IH. by destruct Hm. }
  clear Hm. revert result Hr. induction es as [|[k x] es IHes]; intros result Hr; [done|]. cbn [fold_left].
  apply Forall_cons in IH as [IHx IH]. apply Forall_cons in Hes as [Hx Hes]. apply (IHes IH Hes).
  unfold collect_field. cbn [fst snd entries_of] in *.
  assert (Hk : forall w, oget k o = Some w -> k <> [] /\ 46 ∉ k /\ tree_ok w).
  { intros w Hw. apply oget_Some_elem in Hw. by apply (proj1 (Forall_forall _ _) Ho) in Hw. }
  assert (Hnext : forall w, oget k o = Some w ->
    names (pp ++ [k]) /\ path_of (join [46] (pp ++ [k])) = pp ++ [k] /\
    (forall q, leaf ((pp ++ [k]) ++ q) root = leaf q w)).
  { intros w Hw. destruct (Hk w Hw) as (H1 & H2 & _).
    assert (Hn : names (pp ++ [k])) by (apply Forall_app; split; [done|by repeat constructor]).
    split; [done|]. split; [apply path_join; [by destruct pp|by apply names_nodot]|].
    intros q. rewrite <- app_assoc, Hroot. cbn [app leaf]. by rewrite Hw. }
  rewrite next_key_path by done.
  destruct x as [| |[]| | | |es']; try done.
  - destruct Hx as (w & Hw & Hl). destruct (Hnext w Hw) as (_ & Hp & Hleaf).
    rewrite at_oget, Hw. cbn [default from_option id]. apply Forall_oset; [|done]. cbn [fst snd].
    rewrite Hp, <- (app_nil_r (pp ++ [k])), Hleaf. by apply leaf_nil.
  - destruct Hx as (w & Hw & Hrec & Hm). destruct (Hnext w Hw) as (Hn & _ & Hleaf).
    rewrite at_oget, Hw. cbn [default from_option id].
    replace (Some (join [46] (pp ++ [k]))) with (parent_of (pp ++ [k])) by (by destruct pp).
    apply IHx; try done. by apply (Hk w).
Qed.

Lemma collect_fit m v :
  is_record m = true -> is_record v = true -> tree_ok v -> marks_fit m v ->
  entries_fit v (collectDirtyValues m v).
Proof.
  intros Hm Hv Ht Hf. unfold collectDirtyValues. change (@None jsstr) with (parent_of []).
  apply collects_all; try done; constructor.
Qed.

(** Values compare as the same as themselves, but for NaN. *)
Definition no_nan (v : jsval) : Prop := forall p n, leaf p v = Some (VNum n) -> is_nan n = false.

Lemma defaultCompare_refl x : (forall n, x = VNum n -> is_nan n = false) -> defaultCompare x x = true.
Proof.
  intros H. unfold defaultCompare. destruct x as [| |b|n|s|l|o]; cbn [same_value]; try done.
  - by rewrite Bool.eqb_reflx.
  - enough (neqb n n = true) as -> by done. specialize (H n eq_refl).
    unfold neqb, SFeqb. destruct n as [|[]| |[] m e]; try done; cbn; rewrite Z.compare_refl;
      by change (Pos.compare_cont Eq m m) with (Pos.compare m m); rewrite Pos.compare_refl.
  - by rewrite bool_decide_eq_true_2.
  - by rewrite bool_decide_eq_true_2.
  - by rewrite bool_decide_eq_true_2.
Qed.

Section Saving.
Context (dirtyFields : jsval -> jsval -> jsval) (resolver : jsval -> option jsval).
Context (request : jsstr * jsval -> option (jsstr * jsval)).

Abbreviation run := (run dirtyFields resolver request).
Abbreviation submit := (submit dirtyFields resolver request).
Abbreviation changedFields := (changedFields dirtyFields).

(** Values at rest: parsed, with marks the form library may set on them. *)
Record data_ok (data : jsval) : Prop := {
  data_record : is_record data = true;
  data_tree : tree_ok data;
  data_numbers : no_nan data;
  data_parsed : resolver data = Some data;
  data_marks : is_record (dirtyFields data data) = true /\ marks_fit (dirtyFields data data) data }.

(** Nothing differs from the values last saved. *)
Lemma nothing_changed data st :
  data_ok data -> values st = data -> formDefaults st = data -> baselineRef st = flattenValues data ->
  changedFields data st = [].
Proof.
  intros [Hr Ht Hn _ [Hm1 Hm2]] Hv Hd Hb. unfold SettingsForm.changedFields. rewrite Hv, Hd, Hb.
  assert (Hf := collect_fit _ _ Hm1 Hr Ht Hm2). unfold entries_fit in Hf.
  enough (filterb (fun kv => negb (defaultCompare (snd kv) (at_ (fst kv) (flattenValues data))))
            (collectDirtyValues (dirtyFields data data) data) = []) as -> by done.
  induction Hf as [|[k x] es Hkx _ IH]; [done|]. cbn [filterb fst snd] in *.
  rewrite at_oget, oget_flatten, Hkx by done. cbn [default from_option id].
  rewrite defaultCompare_refl; [done|]. intros n ->. by apply (Hn (path_of k)).
Qed.

Lemma submit_nothing data st :
  data_ok data -> values st = data -> formDefaults st = data -> baselineRef st = flattenValues data ->
  submit st = st.
Proof.
  intros Hok Hv Hd Hb. unfold SettingsForm.submit. destruct (submitting st); [done|].
  rewrite Hv, (data_parsed _ Hok), (nothing_changed data st) by done. done.
Qed.

Definition answered (o : reply) : Prop := o <> Rejected.

(** A submission whose requests all come back. *)
Lemma answers_save data rs os st :
  Forall answered os -> length os = length rs ->
  let st' := run (proceed data rs st) (Answer <$> os) in
  st' = saved data {| values := values st; formDefaults := formDefaults st; baselineRef := baselineRef st;
          defaultValuesRef := defaultValuesRef st; serializedDefaultsRef := serializedDefaultsRef st;
          submitting := submitting st; sent := reverse rs ++ sent st |}.
Proof.
  cbv zeta. intros Hos. revert rs st; induction Hos as [|o os Ho _ IH]; intros rs st Hl.
  - by destruct rs.
  - destruct rs as [|r rs]; [done|]. cbn [length] in Hl. injection Hl as Hl.
    change (Answer <$> o :: os) with (Answer o :: (Answer <$> os)). unfold SettingsForm.run. cbn [fold_left].
    fold (run (SettingsForm.step dirtyFields resolver request (proceed data (r :: rs) st) (Answer o)) (Answer <$> os)).
    assert (E : SettingsForm.step dirtyFields resolver request (proceed data (r :: rs) st) (Answer o)
                = proceed data rs (proceed data (r :: rs) st)).
    { cbn [SettingsForm.step proceed answer submitting]. by destruct o. }
    rewrite E, IH by done. unfold saved. cbn [proceed values formDefaults baselineRef defaultValuesRef serializedDefaultsRef sent submitting].
    by rewrite reverse_cons, <- app_assoc.
Qed.

End Saving.

(** A submission none of whose requests fails with an exception is recorded whole,
    whether the server accepted the options or refused them: each changed field is sent once,
    in order, the form then holds the data as saved, and saving again sends nothing - a
    refused option looks saved. *)
Theorem save_forgets_refusals dirtyFields resolver request st data os
    (Hidle : submitting st = None) (Hparse : resolver (values st) = Some data)
    (Hok : data_ok dirtyFields resolver data)
    (Hch : changedFields dirtyFields data st <> [])
    (Hos : Forall answered os) (Hl : length os = length (omap request (changedFields dirtyFields data st))) :
  let st' := run dirtyFields resolver request st (Submit :: (Answer <$> os)) in
  values st' = data /\ formDefaults st' = data /\ submitting st' = None /\
  sent st' = reverse (omap request (changedFields dirtyFields data st)) ++ sent st /\
  submit dirtyFields resolver request st' = st'.
Proof.
  cbv zeta. cbn [run fold_left step].
  assert (E : submit dirtyFields resolver request st
              = proceed data (omap request (changedFields dirtyFields data st)) st).
  { unfold submit. rewrite Hidle, Hparse. by destruct (changedFields dirtyFields data st). }
  rewrite E. fold (run dirtyFields resolver request (proceed data (omap request (changedFields dirtyFields data st)) st) (Answer <$> os)).
  rewrite answers_save by done. repeat split; try done. by apply (submit_nothing dirtyFields resolver request data).
Qed.

(** A failed save keeps the edits only while the options are not read again: when the
    first request was accepted and the second failed, the form still holds the values
    typed; if the options with the first change arrived in between, the form holds the
    options instead, and the edits that were not sent are gone. *)
Theorem failed_save dirtyFields resolver request st data r1 r2 rest defaults
    (Hidle : submitting st = None) (Hparse : resolver (values st) = Some data)
    (Hrs : omap request (changedFields dirtyFields data st) = r1 :: r2 :: rest)
    (Hnew : ser (VObj (flattenValues (expandDotPaths defaults))) <> serializedDefaultsRef st) :
  let kept := run dirtyFields resolver request st [Submit; Answer Accepted; Answer Rejected] in
  let lost := run dirtyFields resolver request st [Submit; Answer Accepted; Receive defaults; Answer Rejected] in
  (values kept = values st /\ baselineRef kept = baselineRef st /\ formDefaults kept = formDefaults st) /\
  (values lost = expandDotPaths defaults /\ baselineRef lost = flattenValues (expandDotPaths defaults)) /\
  sent kept = r2 :: r1 :: sent st /\ sent lost = r2 :: r1 :: sent st /\
  submitting kept = None /\ submitting lost = None.
Proof.
  cbv zeta. cbn [run fold_left step].
  assert (E : submit dirtyFields resolver request st = proceed data (r1 :: r2 :: rest) st).
  { unfold submit. rewrite Hidle, Hparse. destruct (changedFields dirtyFields data st) eqn:Ec; [done|]. by rewrite <- Hrs. }
  rewrite E. cbn [proceed answer submitting]. unfold receive. cbn [serializedDefaultsRef].
  rewrite (bool_decide_eq_false_2 _ Hnew). cbn. repeat split.
Qed.

(** What holds between the parts of the hook's state. *)
Definition hook_ok (st : State) : Prop :=
  baselineRef st = flattenValues (defaultValuesRef st) /\
  serializedDefaultsRef st = ser (VObj (baselineRef st)) /\
  formDefaults st = defaultValuesRef st /\
  match submitting st with Some (_, rs) => exists r rs' old, rs = r :: rs' /\ sent st = r :: old | None => True end.

(** On a page opened with any options, after any edits, submissions, answers, resets and
    new options, the three notes of the values last saved agree with each other and with the
    form library's defaults, and a running submission waits for the answer to the request
    it sent last. *)
Theorem form_invariant dirtyFields resolver request defaults l :
  hook_ok (run dirtyFields resolver request (open_form defaults) l).
Proof.
  unfold run. apply fold_invariant; [repeat split|].
  assert (Hp : forall d rs st, hook_ok st -> hook_ok (proceed d rs st)).
  { intros d [|r rs] st (H1 & H2 & H3 & _); repeat split; try done. cbn. eauto. }
  intros st e _ Hst. pose proof Hst as (H1 & H2 & H3 & H4). destruct e as [v| |o|d|]; cbn [step].
  - done.
  - unfold submit. destruct (submitting st); [done|]. destruct (resolver _); [|done].
    destruct (changedFields _ _ _); [done|]. by apply Hp.
  - unfold answer. destruct (submitting st) as [[d [|r rs]]|]; [done| |done].
    destruct o; try (by apply Hp). repeat split; done.
  - unfold receive. case_bool_decide; [done|]. repeat split; done.
  - done.
Qed.

(** ** The quota section *)

(** A form library that marks every field that is not an object. *)
Fixpoint mark_all (v : jsval) : jsval :=
  match v with
  | VObj es => VObj (List.map (fun kv => (fst kv, mark_all (snd kv))) es)
  | _ => VBool true
  end.

Definition quota_options : obj :=
  [(js "QuotaForNewUser", VNum (num_of_Z 0)); (js "QuotaForInviter", VNum (num_of_Z 0));
   (js "TopUpLink", VStr (js "")); (js "general_setting.docs_link", VStr (js ""));
   (js "quota_setting.enable_free_model_pre_consume", VBool false)].

Lemma quota_options_ok : options_ok quota_options.
Proof.
  split.
  - by apply (bool_decide_unpack _); vm_compute.
  - repeat constructor.
  - by apply (bool_decide_unpack _); vm_compute.
  - assert (H : Forall (fun k => Forall (fun j => comparable (path_of k) (path_of j) -> k = j) (okeys quota_options))
                  (okeys quota_options)).
    { unfold comparable. by apply (bool_decide_unpack _); vm_compute. }
    intros k j Hk Hj. rewrite Forall_forall in H. specialize (H k Hk). rewrite Forall_forall in H. by apply H.
Qed.

Example quota_expanded :
  expandDotPaths (VObj quota_options)
  = VObj [(js "QuotaForNewUser", VNum (num_of_Z 0)); (js "QuotaForInviter", VNum (num_of_Z 0));
          (js "TopUpLink", VStr []); (js "general_setting", VObj [(js "docs_link", VStr [])]);
          (js "quota_setting", VObj [(js "enable_free_model_pre_consume", VBool false)])].
Proof. vm_compute. reflexivity. Qed.

Lemma flatten_expand_witness :
  oget (js "general_setting.docs_link") (flattenValues (expandDotPaths (VObj quota_options))) = Some (VStr []).
Proof. rewrite (flatten_expand quota_options quota_options_ok). reflexivity. Defined.

(** The administrator types a reward for inviting users. *)
Definition quota_data : jsval :=
  VObj [(js "QuotaForNewUser", VNum (num_of_Z 0)); (js "QuotaForInviter", VNum (num_of_Z 500));
        (js "TopUpLink", VStr (js "https://example.com"))].

Definition mark_values (defaults values : jsval) : jsval := mark_all values.

Lemma quota_data_ok : data_ok mark_values Some quota_data.
Proof.
  split; [done| |  |done|].
  - apply tree_ok_obj. split; [split; [by apply (bool_decide_unpack _); vm_compute|]|].
    + repeat constructor.
    + repeat constructor; try done; by apply (bool_decide_unpack _); vm_compute.
  - intros [|s p] n; [done|]. cbn [leaf quota_data oget].
    repeat (case_bool_decide; [cbn [mbind option_bind]; destruct p; cbn; intros [= <-]; done|]). done.
  - split; [done|]. cbn. repeat split; eexists; (split; [vm_compute; reflexivity|done]).
Qed.

Definition quota_form : State :=
  edit quota_data (open_form (VObj [(js "QuotaForNewUser", VNum (num_of_Z 0));
    (js "QuotaForInviter", VNum (num_of_Z 0)); (js "TopUpLink", VStr [])])).

Example quota_changes :
  changedFields mark_values quota_data quota_form
  = [(js "QuotaForInviter", VNum (num_of_Z 500)); (js "TopUpLink", VStr (js "https://example.com"))].
Proof. vm_compute. reflexivity. Qed.

(** The reward is refused; the form takes it as saved. *)
Lemma save_forgets_refusals_witness :
  let st' := run mark_values Some quota_request quota_form [Submit; Answer Refused; Answer Accepted] in
  at_ (js "QuotaForInviter") (entries_of (values st')) = VNum (num_of_Z 500) /\
  submit mark_values Some quota_request st' = st'.
Proof.
  destruct (save_forgets_refusals mark_values Some quota_request quota_form quota_data [Refused; Accepted])
    as (H1 & _ & _ & _ & H2); [reflexivity|reflexivity|exact quota_data_ok|by rewrite quota_changes
    |repeat constructor; discriminate|by rewrite quota_changes|].
  cbv zeta. split; [exact (f_equal (fun v => at_ (js "QuotaForInviter") (entries_of v)) H1)|exact H2].
Defined.

(** The options as they are after the first request. *)
Definition quota_refetched : jsval :=
  VObj [(js "QuotaForNewUser", VNum (num_of_Z 0)); (js "QuotaForInviter", VNum (num_of_Z 500)); (js "TopUpLink", VStr [])].

Lemma failed_save_witness :
  values (run mark_values Some quota_request quota_form [Submit; Answer Accepted; Answer Rejected]) = quota_data /\
  values (run mark_values Some quota_request quota_form [Submit; Answer Accepted; Receive quota_refetched; Answer Rejected])
  = quota_refetched.
Proof.
  destruct (failed_save mark_values Some quota_request quota_form quota_data
    (js "QuotaForInviter", VNum (num_of_Z 500)) (js "TopUpLink", VStr (js "https://example.com")) [] quota_refetched)
    as ([H1 _] & [H2 _] & _); [reflexivity|reflexivity|by rewrite quota_changes|by vm_compute|].
  split; [exact H1|exact (eq_trans H2 eq_refl)].
Defined.
