(* ===== verification/WebEncoding.v ===== *)
(** * Text encodings of the web platform

    UTF-8 ([TextDecoder]), [encodeURIComponent], [btoa] and [atob], which the chat links, the
    passkeys and the usage logs use, with their round trips. *)

From S2P Require Import Prelude JsString JsJson.

#[local] Open Scope N_scope.

(** ** Code points *)

(** The code points of a string; a lone surrogate stands for itself. *)
Fixpoint code_points (s : jsstr) : list N :=
  match s with
  | [] => []
  | c :: t =>
      match t with
      | d :: u => if is_high c && is_low d
                  then 65536 + (c - 55296) * 1024 + (d - 56320) :: code_points u
                  else c :: code_points t
      | [] => [c]
      end
  end.

(** The code units of a code point. *)
Definition units_of (c : N) : jsstr :=
  if c <? 65536 then [c] else [55296 + (c - 65536) / 1024; 56320 + (c - 65536) mod 1024].

Definition is_surrogate (c : N) : bool := (55296 <=? c) && (c <=? 57343).

(** A Unicode scalar value. *)
Definition scalar (c : N) : Prop := c < 1114112 /\ is_surrogate c = false.

(** ** UTF-8 *)

Definition utf8_bytes (c : N) : list N :=
  if c <? 128 then [c]
  else if c <? 2048 then [192 + c / 64; 128 + c mod 64]
  else if c <? 65536 then [224 + c / 4096; 128 + c / 64 mod 64; 128 + c mod 64]
  else [240 + c / 262144; 128 + c / 4096 mod 64; 128 + c / 64 mod 64; 128 + c mod 64].

(** The state of the decoder: between code points, or with the bits read, the number of
    bytes needed, and the range of the next one. *)
Inductive decoder := Start | Need (cp : N) (missing : nat) (lower upper : N).

Definition in_range (lo hi b : N) : bool := (lo <=? b) && (b <=? hi).

(** A byte between code points: what is put out, and the state. *)
Definition first_byte (b : N) : list N * decoder :=
  if b <? 128 then ([b], Start)
  else if in_range 194 223 b then ([], Need (b - 192) 1 128 191)
  else if in_range 224 239 b
    then ([], Need (b - 224) 2 (if b =? 224 then 160 else 128) (if b =? 237 then 159 else 191))
  else if in_range 240 244 b
    then ([], Need (b - 240) 3 (if b =? 240 then 144 else 128) (if b =? 244 then 143 else 191))
  else ([65533], Start).

Definition next_byte (st : decoder) (b : N) : list N * decoder :=
  match st with
  | Start => first_byte b
  | Need cp missing lower upper =>
      if in_range lower upper b then
        let cp' := cp * 64 + (b - 128) in
        match missing with
        | O | 1%nat => ([cp'], Start)
        | S n => ([], Need cp' n 128 191)
        end
      else let '(out, st') := first_byte b in (65533 :: out, st')
  end.

(** Code points of bytes; errors become U+FFFD. *)
Fixpoint utf8_decode (st : decoder) (bs : list N) : list N :=
  match bs with
  | [] => match st with Start => [] | _ => [65533] end
  | b :: bs => let '(out, st') := next_byte st b in out ++ utf8_decode st' bs
  end.

(** [new TextDecoder().decode(bytes)], which skips a byte order mark. *)
Definition text_decode (bytes : list N) : jsstr :=
  let rest := match bytes with 239 :: 187 :: 191 :: t => t | _ => bytes end in
  utf8_decode Start rest ≫= units_of.

(** The UTF-8 bytes of a string without lone surrogates. *)
Definition utf8_encode (s : jsstr) : list N := code_points s ≫= utf8_bytes.

(** ** [encodeURIComponent] *)

(** Letters, digits and - _ . ! ~ * ' ( ). *)
Definition uri_plain (c : N) : bool :=
  in_range 48 57 c || in_range 65 90 c || in_range 97 122 c ||
  bool_decide (c ∈ [45; 95; 46; 33; 126; 42; 39; 40; 41]).

Definition upper_hex (n : N) : N := if n <? 10 then 48 + n else 55 + n.

Definition percent (b : N) : jsstr := [37; upper_hex (b / 16); upper_hex (b mod 16)].

(** None: a lone surrogate throws a URIError. *)
Definition encode_point (c : N) : option jsstr :=
  if uri_plain c then Some [c]
  else if is_surrogate c then None
  else Some (utf8_bytes c ≫= percent).

Fixpoint encode_points (cs : list N) : option jsstr :=
  match cs with
  | [] => Some []
  | c :: cs => u ← encode_point c; v ← encode_points cs; Some (u ++ v)
  end.

Definition encodeURIComponent (s : jsstr) : option jsstr := encode_points (code_points s).

(** The bytes behind a percent encoding, as its receiver reads them. *)
Fixpoint percent_decode (s : jsstr) : option (list N) :=
  match s with
  | [] => Some []
  | c :: t =>
      if c =? 37 then
        match t with
        | a :: b :: u => h ← hex_value a; l ← hex_value b; r ← percent_decode u; Some (h * 16 + l :: r)
        | _ => None
        end
      else r ← percent_decode t; Some (c :: r)
  end.

(** ** Base64 *)

(** The character of a group of six bits. *)
Definition b64_char (n : N) : N :=
  if n <? 26 then 65 + n else if n <? 52 then 71 + n else if n <? 62 then n - 4
  else if n =? 62 then 43 else 47.

Definition b64_value (c : N) : option N :=
  if in_range 65 90 c then Some (c - 65)
  else if in_range 97 122 c then Some (c - 71)
  else if in_range 48 57 c then Some (c + 4)
  else if c =? 43 then Some 62
  else if c =? 47 then Some 63
  else None.

Fixpoint b64_encode (bytes : list N) : jsstr :=
  match bytes with
  | a :: b :: c :: t =>
      let n := a * 65536 + b * 256 + c in
      b64_char (n / 262144) :: b64_char (n / 4096 mod 64) :: b64_char (n / 64 mod 64) ::
      b64_char (n mod 64) :: b64_encode t
  | [a; b] =>
      let n := a * 1024 + b * 4 in
      [b64_char (n / 4096); b64_char (n / 64 mod 64); b64_char (n mod 64); 61]
  | [a] => let n := a * 16 in [b64_char (n / 64); b64_char (n mod 64); 61; 61]
  | [] => []
  end.

(** [btoa(s)]; None: a code unit above 255 throws an InvalidCharacterError. *)
Definition btoa (s : jsstr) : option jsstr :=
  if forallb (fun c => c <? 256) s then Some (b64_encode s) else None.

Definition ascii_ws (c : N) : bool := bool_decide (c ∈ [9; 10; 12; 13; 32]).

(** The last one or two padding characters, when the length is a multiple of four. *)
Definition drop_padding (s : jsstr) : jsstr :=
  if Nat.eqb (length s mod 4) 0 then
    match reverse s with
    | a :: t =>
        if a =? 61 then
          match t with
          | b :: u => if b =? 61 then reverse u else reverse t
          | [] => []
          end
        else s
    | [] => s
    end
  else s.

(** Groups of six bits to bytes; a rest of one group is an error. *)
Fixpoint b64_bytes (gs : list N) : option (list N) :=
  match gs with
  | a :: b :: c :: d :: t =>
      r ← b64_bytes t;
      let n := a * 262144 + b * 4096 + c * 64 + d in
      Some (n / 65536 :: n / 256 mod 256 :: n mod 256 :: r)
  | [a; b; c] => let n := a * 4096 + b * 64 + c in Some [n / 1024; n / 4 mod 256]
  | [a; b] => Some [(a * 64 + b) / 16]
  | [_] => None
  | [] => Some []
  end.

Fixpoint values_of (s : jsstr) : option (list N) :=
  match s with
  | [] => Some []
  | c :: t => v ← b64_value c; r ← values_of t; Some (v :: r)
  end.

(** [atob(s)] *)
Definition atob (s : jsstr) : option jsstr :=
  let data := drop_padding (filterb (fun c => negb (ascii_ws c)) s) in
  if Nat.eqb (length data mod 4) 1 then None
  else gs ← values_of data; b64_bytes gs.

Example btoa_ex : btoa (js "new-api") = Some (js "bmV3LWFwaQ==").
Proof. vm_compute. reflexivity. Qed.
Example atob_ex : atob (js "bmV3 LWFwaQ") = Some (js "new-api").
Proof. vm_compute. reflexivity. Qed.
Example atob_bad : atob (js "bmV3L") = None /\ atob (js "bm=3") = None.
Proof. split; vm_compute; reflexivity. Qed.
Example text_ex : text_decode (bytes_of "€𝄞"%string) = js "€𝄞".
Proof. vm_compute. reflexivity. Qed.
Example text_bad : text_decode [240; 159; 65; 192] = [65533; 65; 65533].
Proof. vm_compute. reflexivity. Qed.
Example uri_ex : encodeURIComponent (js "a/é") = Some (js "a%2F%C3%A9").
Proof. vm_compute. reflexivity. Qed.

(** ** Base64: round trip *)

Ltac euclid := zify; Z.to_euclidean_division_equations; lia.

Definition byte (b : N) : Prop := b < 256.

(** Lists three elements at a time. *)
Lemma list_ind3 {A} (Q : list A -> Prop) :
  Q [] -> (forall a, Q [a]) -> (forall a b, Q [a; b]) -> (forall a b c t, Q t -> Q (a :: b :: c :: t)) ->
  forall l, Q l.
Proof.
  intros H0 H1 H2 H3. fix IH 1. intros [|a [|b [|c t]]]; [apply H0|apply H1|apply H2|apply H3, IH].
Qed.

(** The groups of six bits of bytes. *)
Fixpoint groups (bytes : list N) : list N :=
  match bytes with
  | a :: b :: c :: t =>
      let n := a * 65536 + b * 256 + c in
      n / 262144 :: n / 4096 mod 64 :: n / 64 mod 64 :: n mod 64 :: groups t
  | [a; b] => let n := a * 1024 + b * 4 in [n / 4096; n / 64 mod 64; n mod 64]
  | [a] => let n := a * 16 in [n / 64; n mod 64]
  | [] => []
  end.

(** The padding that fills the last four characters. *)
Definition padding (bytes : list N) : jsstr :=
  match (length bytes mod 3)%nat with 1%nat => [61; 61] | 2%nat => [61] | _ => [] end.

Lemma b64_encode_groups bytes : b64_encode bytes = (b64_char <$> groups bytes) ++ padding bytes.
Proof.
  induction bytes as [|a|a b|a b c t IH] using list_ind3; [done..|].
  cbn [b64_encode groups]. csimpl. rewrite IH. unfold padding.
  replace (length (a :: b :: c :: t) mod 3)%nat with (length t mod 3)%nat; [done|].
  cbn [length]. replace (S (S (S (length t)))) with (length t + 1 * 3)%nat by lia.
  by rewrite Nat.Div0.mod_add.
Qed.

Lemma groups_small bytes : Forall byte bytes -> Forall (fun g => g < 64) (groups bytes).
Proof.
  unfold byte. induction bytes as [|a|a b|a b c t IH] using list_ind3; intros H; cbn [groups].
  - constructor.
  - apply Forall_cons in H as [Ha _]. repeat constructor; euclid.
  - apply Forall_cons in H as [Ha [Hb _]%Forall_cons]. repeat constructor; euclid.
  - apply Forall_cons in H as [Ha [Hb [Hc Ht]%Forall_cons]%Forall_cons].
    repeat apply Forall_cons_2; [euclid..|by apply IH].
Qed.

Lemma groups_bytes bytes : Forall byte bytes -> b64_bytes (groups bytes) = Some bytes.
Proof.
  unfold byte. induction bytes as [|a|a b|a b c t IH] using list_ind3; intros H; cbn [groups b64_bytes].
  - done.
  - apply Forall_cons in H as [Ha _]. do 2 f_equal. euclid.
  - apply Forall_cons in H as [Ha [Hb _]%Forall_cons]. f_equal. f_equal; [euclid|]. f_equal. euclid.
  - apply Forall_cons in H as [Ha [Hb [Hc Ht]%Forall_cons]%Forall_cons].
    rewrite IH by done. cbn [mbind option_bind].
    assert (E : (a * 65536 + b * 256 + c) / 262144 * 262144
              + (a * 65536 + b * 256 + c) / 4096 mod 64 * 4096
              + (a * 65536 + b * 256 + c) / 64 mod 64 * 64
              + (a * 65536 + b * 256 + c) mod 64 = a * 65536 + b * 256 + c) by euclid.
    rewrite E. f_equal. f_equal; [euclid|]. f_equal; [euclid|]. f_equal. euclid.
Qed.

Lemma b64_char_value g : g < 64 -> b64_value (b64_char g) = Some g.
Proof.
  intros H. destruct g as [|p]; [done|].
  do 6 (destruct p as [p|p|]; try reflexivity); lia.
Qed.

Lemma values_of_chars gs : Forall (fun g => g < 64) gs -> values_of (b64_char <$> gs) = Some gs.
Proof.
  induction 1 as [|g gs Hg _ IH]; [done|]. csimpl. cbn [values_of]. by rewrite b64_char_value, IH.
Qed.

(** The characters of base64 without its padding. *)
Definition b64_plain (c : N) : bool :=
  in_range 65 90 c || in_range 97 122 c || in_range 48 57 c || (c =? 43) || (c =? 47).

Lemma b64_char_plain g : g < 64 -> b64_plain (b64_char g) = true.
Proof.
  intros H. destruct g as [|p]; [done|].
  do 6 (destruct p as [p|p|]; try reflexivity); lia.
Qed.

Lemma groups_length bytes :
  (length (groups bytes) mod 4 = match length bytes mod 3 with 1 => 2 | 2 => 3 | _ => 0 end)%nat.
Proof.
  induction bytes as [|a|a b|a b c t IH] using list_ind3; [done..|]. cbn [groups length].
  replace (S (S (S (S (length (groups t)))))) with (length (groups t) + 1 * 4)%nat by lia.
  replace (S (S (S (length t)))) with (length t + 1 * 3)%nat by lia.
  by rewrite !Nat.Div0.mod_add.
Qed.

Lemma b64_plain_not c : b64_plain c = true -> ascii_ws c = false /\ (c =? 61) = false.
Proof.
  unfold b64_plain, ascii_ws, in_range. intros H. split.
  - apply bool_decide_eq_false_2. intros Hin. set_unfold in Hin. naive_solver.
  - apply N.eqb_neq. by intros ->.
Qed.

Lemma drop_pad cs n :
  Forall (fun c => b64_plain c = true) cs -> (n <= 2)%nat -> ((length cs + n) mod 4 = 0)%nat ->
  drop_padding (cs ++ replicate n 61) = cs.
Proof.
  intros Hcs Hn Hl. unfold drop_padding. rewrite length_app, length_replicate, Hl. cbn [Nat.eqb].
  rewrite reverse_app, reverse_replicate.
  assert (Hhd : forall x t, reverse cs = x :: t -> (x =? 61) = false).
  { intros x t E. apply b64_plain_not. apply (proj1 (Forall_forall _ cs) Hcs).
    apply elem_of_reverse. rewrite E. apply list_elem_of_here. }
  destruct n as [|[|[|n]]]; [| | |lia]; cbn [replicate app].
  - rewrite app_nil_r. destruct (reverse cs) as [|x t] eqn:E; [done|]. by rewrite (Hhd _ _ eq_refl).
  - cbn [N.eqb]. destruct (reverse cs) as [|x t] eqn:E.
    + by rewrite <- (reverse_involutive cs), E.
    + rewrite (Hhd _ _ eq_refl), <- E. apply reverse_involutive.
  - cbn [N.eqb]. apply reverse_involutive.
Qed.

Lemma filter_plain cs n :
  Forall (fun c => b64_plain c = true) cs ->
  filterb (fun c => negb (ascii_ws c)) (cs ++ replicate n 61) = cs ++ replicate n 61.
Proof.
  intros Hcs. apply filterb_all. intros c [Hc|Hc]%elem_of_app.
  - apply (proj1 (Forall_forall _ cs) Hcs) in Hc. by rewrite (proj1 (b64_plain_not c Hc)).
  - by apply elem_of_replicate in Hc as [-> _].
Qed.

(** Groups of bits, padded or not, are decoded. *)
Lemma atob_groups gs n :
  Forall (fun g => g < 64) gs -> (length gs mod 4 <> 1)%nat ->
  (n = 0 \/ (n <= 2 /\ (length gs + n) mod 4 = 0))%nat ->
  atob ((b64_char <$> gs) ++ replicate n 61) = b64_bytes gs.
Proof.
  intros Hg Hl Hn.
  assert (Hcs : Forall (fun c => b64_plain c = true) (b64_char <$> gs)).
  { apply Forall_fmap. eapply Forall_impl; [exact Hg|]. intros g. apply b64_char_plain. }
  unfold atob. rewrite filter_plain by done.
  assert (E : drop_padding ((b64_char <$> gs) ++ replicate n 61) = b64_char <$> gs).
  { destruct (decide ((length gs + n) mod 4 = 0)%nat) as [H0|H0].
    - apply drop_pad; [done|lia|by rewrite length_fmap].
    - destruct Hn as [->|Hn]; [|lia]. rewrite Nat.add_0_r in H0. cbn [replicate]. rewrite app_nil_r.
      unfold drop_padding. rewrite length_fmap. by apply Nat.eqb_neq in H0 as ->. }
  rewrite E, length_fmap. apply Nat.eqb_neq in Hl as ->. by rewrite values_of_chars.
Qed.

Lemma padding_replicate bytes :
  exists n, padding bytes = replicate n 61 /\ (n <= 2 /\ (length (groups bytes) + n) mod 4 = 0)%nat.
Proof.
  pose proof (groups_length bytes) as H. unfold padding.
  pose proof (Nat.mod_upper_bound (length bytes) 3 ltac:(lia)).
  destruct (length bytes mod 3)%nat as [|[|[|m]]]; [exists 0%nat|exists 2%nat|exists 1%nat|lia];
    (split; [done|]); split; try lia; rewrite Nat.Div0.add_mod, H; done.
Qed.

(** [atob(btoa(s))] is [s]. *)
Theorem atob_encode bytes : Forall byte bytes -> atob (b64_encode bytes) = Some bytes.
Proof.
  intros H. destruct (padding_replicate bytes) as (n & E & Hn).
  rewrite b64_encode_groups, E, atob_groups; [by apply groups_bytes|by apply groups_small| |by right].
  rewrite groups_length. pose proof (Nat.mod_upper_bound (length bytes) 3 ltac:(lia)).
  by destruct (length bytes mod 3)%nat as [|[|[|m]]].
Qed.

(** ** UTF-8: round trip *)

Ltac ranges := unfold in_range;
  repeat match goal with
    | |- context [?x <? ?y] => destruct (N.ltb_spec x y); try (exfalso; lia)
    | |- context [?x <=? ?y] => destruct (N.leb_spec x y); try (exfalso; lia)
    | |- context [?x =? ?y] => destruct (N.eqb_spec x y); try (exfalso; lia)
    end; cbn [andb orb negb].

Lemma div_mod_64 c : c = 64 * (c / 64) + c mod 64 /\ c mod 64 < 64.
Proof. split; [apply N.div_mod'|by apply N.mod_lt]. Qed.

Lemma decode_tail cp k lo hi b bs :
  in_range lo hi b = true ->
  utf8_decode (Need cp k lo hi) (b :: bs)
  = match k with
    | O | 1%nat => cp * 64 + (b - 128) :: utf8_decode Start bs
    | S n => utf8_decode (Need (cp * 64 + (b - 128)) n 128 191) bs
    end.
Proof. intros H. cbn [utf8_decode next_byte]. rewrite H. by destruct k as [|[|k]]. Qed.

Lemma decode_first b bs cp k lo hi :
  first_byte b = ([], Need cp k lo hi) -> utf8_decode Start (b :: bs) = utf8_decode (Need cp k lo hi) bs.
Proof. intros H. cbn [utf8_decode next_byte]. by rewrite H. Qed.

Lemma in_range_true lo hi b : lo <= b <= hi -> in_range lo hi b = true.
Proof. intros H. unfold in_range. apply andb_true_iff. by rewrite !N.leb_le. Qed.

(** A scalar value is read back from its bytes. *)
Lemma decode_scalar c bs : scalar c -> utf8_decode Start (utf8_bytes c ++ bs) = c :: utf8_decode Start bs.
Proof.
  intros [Hc Hs]. unfold is_surrogate in Hs. unfold utf8_bytes.
  assert (Hs' : c < 55296 \/ 57343 < c) by (apply andb_false_iff in Hs; rewrite !N.leb_gt in Hs; lia). clear Hs.
  destruct (div_mod_64 c) as [D1 M1]. destruct (div_mod_64 (c / 64)) as [D2 M2].
  destruct (div_mod_64 (c / 64 / 64)) as [D3 M3].
  rewrite !N.Div0.div_div in *. change (64 * 64) with 4096 in *. change (4096 * 64) with 262144 in *.
  set (q3 := c / 262144) in *. set (q2 := c / 4096) in *. set (q1 := c / 64) in *.
  set (r1 := c mod 64) in *. set (r2 := q1 mod 64) in *. set (r3 := q2 mod 64) in *.
  clearbody q3 q2 q1 r1 r2 r3.
  destruct (N.ltb_spec c 128) as [H1|H1].
  { cbn [app utf8_decode next_byte]. unfold first_byte. by rewrite (proj2 (N.ltb_lt c 128)). }
  destruct (N.ltb_spec c 2048) as [H2|H2].
  { assert (E : first_byte (192 + q1) = ([], Need q1 1 128 191)).
    { unfold first_byte. ranges; do 2 f_equal; lia. }
    cbn [app]. rewrite (decode_first _ _ _ _ _ _ E), decode_tail by (apply in_range_true; lia). f_equal. lia. }
  destruct (N.ltb_spec c 65536) as [H3|H3].
  { set (lo := if q2 =? 0 then 160 else 128). set (hi := if q2 =? 13 then 159 else 191).
    assert (E : first_byte (224 + q2) = ([], Need q2 2 lo hi)).
    { unfold first_byte, lo, hi. ranges; do 2 f_equal; lia. }
    assert (R : in_range lo hi (128 + r2) = true).
    { apply in_range_true. unfold lo, hi. destruct (N.eqb_spec q2 0), (N.eqb_spec q2 13); lia. }
    cbn [app]. rewrite (decode_first _ _ _ _ _ _ E), (decode_tail _ _ _ _ _ _ R), decode_tail
      by (apply in_range_true; lia). f_equal. lia. }
  set (lo := if q3 =? 0 then 144 else 128). set (hi := if q3 =? 4 then 143 else 191).
  assert (E : first_byte (240 + q3) = ([], Need q3 3 lo hi)).
  { unfold first_byte, lo, hi. ranges; do 2 f_equal; lia. }
  assert (R : in_range lo hi (128 + r3) = true).
  { apply in_range_true. unfold lo, hi. destruct (N.eqb_spec q3 0), (N.eqb_spec q3 4); lia. }
  cbn [app]. rewrite (decode_first _ _ _ _ _ _ E), (decode_tail _ _ _ _ _ _ R), !decode_tail
    by (apply in_range_true; lia). f_equal. lia.
Qed.

Lemma decode_scalars cs : Forall scalar cs -> utf8_decode Start (cs ≫= utf8_bytes) = cs.
Proof. induction 1 as [|c cs Hc _ IH]; [done|]. csimpl. by rewrite decode_scalar, IH. Qed.

Lemma code_points_cons c t :
  is_high c = false -> code_points (c :: t) = c :: code_points t.
Proof. intros H. cbn [code_points]. destruct t as [|d u]; [done|]. by rewrite H. Qed.

(** Code points give their code units back. *)
Lemma code_points_units s : Forall (fun c => c < 65536) s -> code_points s ≫= units_of = s.
Proof.
  enough (H : forall n s, (length s <= n)%nat -> Forall (fun c => c < 65536) s -> code_points s ≫= units_of = s)
    by (by apply (H (length s))).
  clear s. induction n as [|n IH]; intros s Hn Hs; [by destruct s; [|cbn in Hn; lia]|].
  destruct s as [|c t]; [done|]. apply Forall_cons in Hs as [Hc Ht]. cbn [length] in Hn.
  assert (Hone : (c :: code_points t) ≫= units_of = c :: t).
  { csimpl. rewrite IH by (done || lia). unfold units_of. by rewrite (proj2 (N.ltb_lt c 65536)). }
  cbn [code_points]. destruct t as [|d u]; [done|].
  destruct (is_high c && is_low d) eqn:E; [|done]. apply andb_prop in E as [Eh El].
  apply Forall_cons in Ht as [Hd Hu]. cbn [length] in Hn. csimpl. rewrite IH by (done || lia).
  unfold is_high, is_low in Eh, El. apply andb_prop in Eh as [Eh1 Eh2]. apply andb_prop in El as [El1 El2].
  apply N.leb_le in Eh1, Eh2, El1, El2. unfold units_of.
  assert (F : 65536 + (c - 55296) * 1024 + (d - 56320) <? 65536 = false) by (apply N.ltb_ge; lia). rewrite F.
  replace (65536 + (c - 55296) * 1024 + (d - 56320) - 65536) with (d - 56320 + (c - 55296) * 1024) by lia.
  rewrite N.div_add, N.Div0.mod_add, N.div_small, N.mod_small by lia. cbn [app]. f_equal; [lia|]. f_equal. lia.
Qed.

(** A string of code units without lone surrogates. *)
Definition well_formed (s : jsstr) : Prop :=
  Forall (fun c => c < 65536) s /\ Forall scalar (code_points s).

(** The decoder gives a text back that does not begin with a byte order mark. *)
Theorem text_decode_encode s :
  well_formed s -> head (code_points s) <> Some 65279 -> text_decode (utf8_encode s) = s.
Proof.
  intros [Hs Hc] Hb. unfold text_decode, utf8_encode.
  assert (D := decode_scalars _ Hc). set (bs := code_points s ≫= utf8_bytes) in *.
  assert (E : match bs with 239 :: 187 :: 191 :: t => t | _ => bs end = bs).
  { destruct bs as [|a [|b [|c t]]]; try done; [by repeat case_match|by repeat case_match|].
    destruct (decide (a = 239 /\ b = 187 /\ c = 191)) as [(-> & -> & ->)|Hne].
    - exfalso. apply Hb. rewrite <- D. reflexivity.
    - repeat case_match; try done. exfalso. apply Hne. done. }
  rewrite E, D. by apply code_points_units.
Qed.

(** ** Percent encoding: round trip *)

Lemma upper_hex_value n : n < 16 -> hex_value (upper_hex n) = Some n.
Proof.
  intros H. destruct n as [|p]; [reflexivity|].
  do 4 (destruct p as [p|p|]; try reflexivity); lia.
Qed.

Lemma percent_decode_percent b u :
  byte b -> percent_decode (percent b ++ u) = (r ← percent_decode u; Some (b :: r)).
Proof.
  unfold byte. intros Hb. unfold percent. cbn [app percent_decode]. change (37 =? 37) with true. cbn [negb].
  rewrite !upper_hex_value by euclid. cbn [mbind option_bind].
  replace (b / 16 * 16 + b mod 16) with b by euclid. done.
Qed.

Lemma utf8_bytes_small c : scalar c -> Forall byte (utf8_bytes c).
Proof.
  unfold byte. intros [Hc _]. unfold utf8_bytes.
  repeat case_match; repeat match goal with H : (_ <? _) = _ |- _ => first [apply N.ltb_lt in H|apply N.ltb_ge in H] end;
    repeat constructor; euclid.
Qed.

Lemma percent_decode_bytes bs u :
  Forall byte bs -> percent_decode ((bs ≫= percent) ++ u) = (r ← percent_decode u; Some (bs ++ r)).
Proof.
  induction 1 as [|b bs Hb _ IH]; [csimpl; cbn [app]; by destruct (percent_decode u)|].
  rewrite bind_cons, <- app_assoc, percent_decode_percent, IH by done. by destruct (percent_decode u).
Qed.

Lemma uri_plain_spec c : uri_plain c = true -> c < 128 /\ (c =? 37) = false /\ c <> 123 /\ c <> 125.
Proof.
  unfold uri_plain, in_range. intros H.
  assert (Hc : c < 128).
  { apply orb_prop in H as [H|H]; [|apply bool_decide_eq_true in H; set_unfold in H; lia].
    repeat (apply orb_prop in H as [H|H]); apply andb_prop in H as [_ H]; apply N.leb_le in H; lia. }
  split; [done|]. repeat split; [apply N.eqb_neq| |]; intros ->; done.
Qed.

Lemma utf8_ascii c : c < 128 -> utf8_bytes c = [c].
Proof. intros H. unfold utf8_bytes. by rewrite (proj2 (N.ltb_lt c 128)). Qed.

(** The receiver reads the UTF-8 bytes of the text. *)
Lemma percent_decode_points cs :
  Forall scalar cs ->
  exists u, encode_points cs = Some u /\ percent_decode u = Some (cs ≫= utf8_bytes).
Proof.
  induction 1 as [|c cs Hc _ IH]; [by exists []|]. destruct IH as (u & Hu & Hd). cbn [encode_points].
  unfold encode_point. destruct (uri_plain c) eqn:Ep.
  - exists (c :: u). rewrite Hu. split; [done|]. apply uri_plain_spec in Ep as (H1 & H2 & _).
    cbn [percent_decode]. rewrite H2, Hd. cbn [mbind option_bind]. by rewrite bind_cons, utf8_ascii.
  - destruct Hc as [Hc Hs]. rewrite Hs. cbn [mbind option_bind]. rewrite Hu. cbn [mbind option_bind].
    eexists; split; [done|]. rewrite percent_decode_bytes by (by apply utf8_bytes_small). by rewrite Hd.
Qed.

(** What an encoded text is made of. *)
Definition uri_char (c : N) : bool := uri_plain c || (c =? 37).

Lemma percent_chars b : byte b -> Forall (fun c => uri_char c = true) (percent b).
Proof.
  unfold byte. intros Hb. assert (H : forall n, n < 16 -> uri_char (upper_hex n) = true).
  { intros n Hn. destruct n as [|p]; [done|]. do 4 (destruct p as [p|p|]; try reflexivity); lia. }
  repeat constructor; apply H; euclid.
Qed.

Lemma bind_chars bs : Forall byte bs -> Forall (fun c => uri_char c = true) (bs ≫= percent).
Proof. induction 1 as [|b bs Hb _ IH]; [constructor|]. rewrite bind_cons. apply Forall_app. split; [by apply percent_chars|done]. Qed.

Lemma encode_chars cs u : Forall (fun c => c < 1114112) cs -> encode_points cs = Some u -> Forall (fun c => uri_char c = true) u.
Proof.
  intros Hcs. revert u; induction Hcs as [|c cs Hc _ IH]; intros u; [by intros [= <-]|]. cbn [encode_points].
  unfold encode_point. destruct (uri_plain c) eqn:Ep; [|destruct (is_surrogate c) eqn:Es; [done|]];
    cbn [mbind option_bind]; destruct (encode_points cs) as [v|]; try done; intros [= <-].
  - constructor; [unfold uri_char; by rewrite Ep|by apply IH].
  - apply Forall_app. split; [|by apply IH]. apply bind_chars. by apply utf8_bytes_small.
Qed.

(** ASCII texts are their own code points and bytes. *)
Lemma ascii_points s : Forall (fun c => c < 128) s -> code_points s = s /\ s ≫= utf8_bytes = s /\ Forall scalar s.
Proof.
  induction 1 as [|c s Hc _ (IH1 & IH2 & IH3)]; [done|]. split_and!.
  - rewrite code_points_cons, IH1; [done|]. unfold is_high. apply andb_false_iff. left. apply N.leb_gt. lia.
  - by rewrite bind_cons, utf8_ascii, IH2.
  - constructor; [|done]. split; [lia|]. unfold is_surrogate. apply andb_false_iff. left. apply N.leb_gt. lia.
Qed.
