(* ===== verification/ChatLinks.v ===== *)
(** * Chat links ([features/chat/lib/chat-links.ts])

    The administrator configures links to chat clients; a link is a template whose tokens
    are replaced by the server's address and an API key, or by a base64 configuration that
    holds both. *)

From S2P Require Import Prelude JsString JsNumber JsValue JsJson WebEncoding.

#[local] Open Scope N_scope.

Inductive ChatLinkType := web | custom_protocol | fluent.

Record ChatPreset := { preset_id : jsstr; preset_name : jsstr; preset_url : jsstr; preset_type : ChatLinkType }.

(** ASCII letters in lower case: what a case-insensitive match of the letters of a URL scheme ignores. *)
Definition ascii_lower (s : jsstr) : jsstr := (fun c => if in_range 65 90 c then c + 32 else c) <$> s.

(** [HTTP_REGEX.test(url)]: http:// or https:// at the start, in any case. *)
Definition is_http (url : jsstr) : bool :=
  starts_with (js "http://") (ascii_lower url) || starts_with (js "https://") (ascii_lower url).

Definition detectChatLinkType (url : jsstr) : ChatLinkType :=
  if is_http url then web
  else if starts_with (js "fluent") (to_lower url) then fluent
  else custom_protocol.

Definition chatLinkRequiresApiKey (url : jsstr) : bool :=
  includes (js "{key}") url || includes (js "{cherryConfig}") url ||
  includes (js "{aionuiConfig}") url || includes (js "{deepchatConfig}") url.

(** ** The configured links *)

(** One entry of the configuration: an object with a single text. *)
Definition parse_entry (index : nat) (entry : jsval) : option ChatPreset :=
  match entry with
  | VObj [(name, VStr value)] =>
      let url := trim value in
      if truthy_str url then
        Some {| preset_id := digits_of (N.of_nat index); preset_name := name; preset_url := url;
                preset_type := detectChatLinkType url |}
      else None
  | _ => None
  end.

Definition parse_entries (l : list jsval) : list ChatPreset := omap id (imap parse_entry l).

Definition parseChatConfig (raw : jsval) : list ChatPreset :=
  let parsed := match raw with VStr s => json_parse s | v => Some v end in
  match parsed with Some (VArr l) => parse_entries l | _ => [] end.

(** ** Resolving a link *)

(** [s.split(token)] for a token that is not empty. *)
Fixpoint split_fuel (fuel : nat) (token s : jsstr) : list jsstr :=
  match fuel with
  | O => [s]
  | S fuel =>
      match index_of token s with
      | Some i => take i s :: split_fuel fuel token (drop (i + length token) s)
      | None => [s]
      end
  end.

Definition split_str (token s : jsstr) : list jsstr := split_fuel (S (length s)) token s.

Definition replaceToken (source token value : jsstr) : jsstr := join value (split_str token source).

Definition normalizeApiKey (apiKey : jsstr) : jsstr :=
  let trimmed := trim apiKey in
  if negb (truthy_str trimmed) then []
  else if starts_with (js "sk-") trimmed then trimmed else js "sk-" ++ trimmed.

(** The configuration of a client; [kind] is the property that names it. *)
Definition payload (kind serverAddress apiKey : jsstr) : jsval :=
  VObj [(kind, VStr (js "new-api")); (js "baseUrl", VStr serverAddress); (js "apiKey", VStr apiKey)].

(** [encodeURIComponent(toBase64(JSON.stringify(payload)))]; None when [btoa] throws. *)
Definition encode_config (v : jsval) : option jsstr :=
  s ← stringify v; b ← btoa s; encodeURIComponent b.

Definition resolveChatUrl (template : jsstr) (apiKey : option jsstr) (serverAddress : jsstr) : option jsstr :=
  let safeApiKey := normalizeApiKey (default [] apiKey) in
  if includes (js "{cherryConfig}") template then
    encoded ← encode_config (payload (js "id") serverAddress safeApiKey);
    Some (replaceToken template (js "{cherryConfig}") encoded)
  else if includes (js "{aionuiConfig}") template then
    encoded ← encode_config (payload (js "platform") serverAddress safeApiKey);
    Some (replaceToken template (js "{aionuiConfig}") encoded)
  else if includes (js "{deepchatConfig}") template then
    encoded ← encode_config (payload (js "id") serverAddress safeApiKey);
    Some (replaceToken template (js "{deepchatConfig}") encoded)
  else
    url ← (if truthy_str serverAddress
           then encodedAddress ← encodeURIComponent serverAddress;
                Some (replaceToken template (js "{address}") encodedAddress)
           else Some template);
    Some (if truthy_str safeApiKey then replaceToken url (js "{key}") safeApiKey else url).

(** [API_KEY_STATUS.ENABLED] *)
Definition ENABLED : N := 1.

Definition getFirstActiveKey (keys : list (jsstr * N)) : option (jsstr * N) :=
  snd <$> list_find (fun item => snd item = ENABLED) keys.

Example resolve_ex :
  resolveChatUrl (js "https://chat.example/#/?settings={'key':'{key}','url':'{address}'}") (Some (js "abc"))
    (js "https://api.example")
  = Some (js "https://chat.example/#/?settings={'key':'sk-abc','url':'https%3A%2F%2Fapi.example'}").
Proof. vm_compute. reflexivity. Qed.

Example presets_ex :
  parseChatConfig (VStr (js "[{'A':' HTTPS://a '},{'B':''},{'C':'fluent://c'},3]" ≫= fun c => if c =? 39 then [34] else [c]))
  = [ {| preset_id := js "0"; preset_name := js "A"; preset_url := js "HTTPS://a"; preset_type := web |};
      {| preset_id := js "2"; preset_name := js "C"; preset_url := js "fluent://c"; preset_type := fluent |} ].
Proof. vm_compute. reflexivity. Qed.

(** ** The configured links are well formed *)

Lemma digits_of_inj n m : digits_of n = digits_of m -> n = m.
Proof. intros H. by rewrite <- (digits_val_of n), H, digits_val_of. Qed.

Definition preset_ok (p : ChatPreset) : Prop :=
  preset_url p <> [] /\ trimmed (preset_url p) /\ preset_type p = detectChatLinkType (preset_url p).

Lemma parse_entry_ok i v p :
  parse_entry i v = Some p -> preset_ok p /\ preset_id p = digits_of (N.of_nat i).
Proof.
  unfold parse_entry. intros H. repeat case_match; simplify_eq. split; [|done]. split_and!; cbn.
  - by apply truthy_str_spec.
  - apply trim_trimmed.
  - done.
Qed.

(** The entries from the [k]-th on. *)
Lemma parse_entries_from k l :
  let ps := omap id (imap (fun i => parse_entry (k + i)) l) in
  Forall (fun p => preset_ok p /\ exists i, (k <= i < k + length l)%nat /\ preset_id p = digits_of (N.of_nat i)) ps /\
  NoDup (preset_id <$> ps).
Proof.
  cbv zeta. revert k; induction l as [|v l IH]; intros k; [split; constructor|].
  rewrite imap_cons. csimpl.
  assert (E : imap ((fun i => parse_entry (k + i)) ∘ S) l = imap (fun i => parse_entry (S k + i)) l).
  { apply imap_ext. intros i x _. cbn. f_equal. lia. }
  rewrite E. specialize (IH (S k)) as [IH1 IH2]. set (ps := omap id _) in *. cbn [length].
  assert (IH1' : Forall (fun p => preset_ok p /\ exists i, (k <= i < k + S (length l))%nat /\
                          preset_id p = digits_of (N.of_nat i)) ps).
  { eapply Forall_impl; [exact IH1|]. intros p (Hp & i & Hi & Hid). split; [done|]. exists i. split; [lia|done]. }
  destruct (parse_entry (k + 0) v) as [p|] eqn:Ep; cbn [id]; [|done].
  apply parse_entry_ok in Ep as [Hp Hid]. split.
  - constructor; [|done]. split; [done|]. exists (k + 0)%nat. split; [lia|done].
  - csimpl. constructor; [|done]. rewrite Hid. intros Hin. apply list_elem_of_fmap in Hin as (q & Hq & Hin).
    apply (proj1 (Forall_forall _ _) IH1) in Hin as (_ & i & Hi & Hqi). rewrite Hqi in Hq.
    apply digits_of_inj in Hq. lia.
Qed.

(** C40. Whatever is configured - a JSON text, a value, nonsense - the links are well formed:
    each has a trimmed address that is not empty and the type of that address, their
    identifiers are distinct, and each is the position of an entry of the configuration. *)
Theorem presets_well_formed raw :
  Forall preset_ok (parseChatConfig raw) /\ NoDup (preset_id <$> parseChatConfig raw) /\
  forall p, p ∈ parseChatConfig raw -> exists i, preset_id p = digits_of (N.of_nat i).
Proof.
  unfold parseChatConfig. destruct (match raw with VStr s => json_parse s | v => Some v end) as [[| | | | |l|]|];
    try (split_and!; [constructor|constructor|intros p H; by apply elem_of_nil in H]).
  destruct (parse_entries_from 0 l) as [H1 H2]. unfold parse_entries. cbn [Nat.add] in *. split_and!.
  - eapply Forall_impl; [exact H1|]. by intros p [Hp _].
  - done.
  - intros p Hp. apply (proj1 (Forall_forall _ _) H1) in Hp as (_ & i & _ & Hi). by exists i.
Qed.

(** ** The configuration a client reads *)

Lemma quote_unit_latin c : c < 256 -> Forall byte (quote_unit c).
Proof.
  intros Hc. unfold quote_unit, byte. repeat (case_match; [by repeat constructor|]).
  case_match; [|by repeat constructor]. unfold unicode_escape.
  assert (Hx : forall n, n < 16 -> hex_digit n < 256) by (intros n Hn; unfold hex_digit; case_match; lia).
  repeat constructor; apply Hx; by apply N.mod_lt.
Qed.

Lemma quote_units_latin s : Forall byte s -> Forall byte (quote_units s).
Proof.
  induction 1 as [|c s Hc Hs IH]; [constructor|]. cbn [quote_units].
  assert (H1 : Forall byte (quote_unit c)) by (by apply quote_unit_latin).
  destruct s as [|d s]; [done|].
  assert (E : is_high c && is_low d = false).
  { unfold byte in Hc. unfold is_high. by replace (55296 <=? c) with false by (symmetry; apply N.leb_gt; lia). }
  rewrite E. by apply Forall_app.
Qed.

(** A unit above Latin-1 stays in the text. *)
Lemma quote_units_keeps s c : c ∈ s -> 256 <= c -> is_high c || is_low c = false -> c ∈ quote_units s.
Proof.
  intros Hin Hc Hs. assert (Hu : quote_unit c = [c]).
  { unfold quote_unit. apply orb_false_iff in Hs as [H1 H2]. rewrite H1, H2.
    by repeat (case_match; [match goal with H : (_ =? _) = true |- _ => apply N.eqb_eq in H; lia end|]);
      replace (c <? 32) with false by (symmetry; apply N.ltb_ge; lia). }
  enough (H : forall n s, (length s <= n)%nat -> c ∈ s -> c ∈ quote_units s) by (by apply (H (length s))).
  clear s Hin. induction n as [|n IH]; intros s Hn Hin; [destruct s; [by apply elem_of_nil in Hin|cbn in Hn; lia]|].
  destruct s as [|x s]; [by apply elem_of_nil in Hin|]. cbn [length quote_units] in *.
  assert (Hhead : c = x -> c ∈ quote_unit x) by (intros <-; rewrite Hu; apply list_elem_of_here).
  destruct s as [|d s].
  { apply Hhead. apply elem_of_cons in Hin as [->|Hin]; [done|by apply elem_of_nil in Hin]. }
  destruct (is_high x && is_low d) eqn:E.
  - apply andb_prop in E as [E1 E2]. apply orb_false_iff in Hs as [H1 H2].
    apply elem_of_cons in Hin as [->|Hin]; [by rewrite E1 in H1|].
    apply elem_of_cons in Hin as [->|Hin]; [by rewrite E2 in H2|].
    do 2 apply list_elem_of_further. apply IH; [cbn [length] in Hn; lia|done].
  - apply elem_of_app. apply elem_of_cons in Hin as [Hin|Hin]; [left; by apply Hhead|right].
    apply IH; [lia|done].
Qed.

Lemma quote_latin s : Forall byte s -> Forall byte (quote s).
Proof.
  intros H. unfold quote. constructor; [done|]. apply Forall_app. split; [by apply quote_units_latin|].
  by repeat constructor.
Qed.

(** The text of a configuration. *)
Lemma ser_payload kind a k :
  ser (payload kind a k)
  = js "{" ++ (quote kind ++ js ":" ++ quote (js "new-api")) ++ js "," ++
    (quote (js "baseUrl") ++ js ":" ++ quote a) ++ js "," ++ (quote (js "apiKey") ++ js ":" ++ quote k) ++ js "}".
Proof. unfold payload. cbn [ser List.map omap list_omap id is_undef join]. by rewrite <- !app_assoc. Qed.

Lemma ser_payload_latin kind a k :
  Forall byte kind -> Forall byte a -> Forall byte k -> Forall byte (ser (payload kind a k)).
Proof.
  intros Hkind Ha Hk. rewrite ser_payload.
  assert (Hlit : Forall byte (js "{") /\ Forall byte (js ":") /\ Forall byte (js ",") /\ Forall byte (js "}") /\
                 Forall byte (js "new-api") /\ Forall byte (js "baseUrl") /\ Forall byte (js "apiKey")).
  { unfold byte. by apply (bool_decide_unpack _); vm_compute. }
  destruct Hlit as (? & ? & ? & ? & ? & ? & ?).
  repeat (apply Forall_app; split); try done; by apply quote_latin.
Qed.

Lemma b64_ascii bytes : Forall byte bytes -> Forall (fun c => c < 128) (b64_encode bytes).
Proof.
  intros H. rewrite b64_encode_groups. apply Forall_app. split.
  - apply Forall_fmap. eapply Forall_impl; [by apply groups_small|]. intros g Hg.
    cbn. apply b64_char_plain in Hg. unfold b64_plain, in_range in Hg.
    repeat (apply orb_prop in Hg as [Hg|Hg]); try apply andb_prop in Hg as [_ Hg];
      try apply N.leb_le in Hg; try apply N.eqb_eq in Hg; lia.
  - destruct (padding_replicate bytes) as (n & -> & _). by apply Forall_replicate.
Qed.

(** The receiver of an encoded configuration reads the same values. *)
Lemma encode_config_read kind a k :
  Forall byte kind -> Forall byte a -> Forall byte k ->
  NoDup [kind; js "baseUrl"; js "apiKey"] -> index_key kind = None ->
  exists enc b, encode_config (payload kind a k) = Some enc /\ percent_decode enc = Some b /\
    (text ← atob b; json_parse text) = Some (payload kind a k).
Proof.
  intros Hkind Ha Hk Hnd Hix. set (text := ser (payload kind a k)).
  assert (Ht : Forall byte text) by (by apply ser_payload_latin).
  assert (Hb := b64_ascii text Ht). destruct (ascii_points _ Hb) as (P1 & P2 & P3).
  destruct (percent_decode_points _ P3) as (enc & E1 & E2).
  exists enc, (b64_encode text). split_and!.
  - unfold encode_config, payload, stringify. cbn [mbind option_bind]. fold (payload kind a k). fold text.
    unfold btoa. replace (forallb (fun c => c <? 256) text) with true.
    + cbn [mbind option_bind]. unfold encodeURIComponent. by rewrite P1.
    + symmetry. apply forallb_forall. intros c Hc. apply N.ltb_lt. apply (proj1 (Forall_forall _ _) Ht).
      by apply list_elem_of_In.
  - by rewrite E2, P2.
  - rewrite atob_encode by done. cbn [mbind option_bind]. apply json_parse_ser.
    apply json_ok_obj. split; [|by repeat constructor]. split; [done|].
    unfold okeys, payload. csimpl. repeat constructor; unfold key_before; by rewrite ?Hix.
Qed.

(** Which token of a template holds a configuration, and the name of its first property. *)
Definition config_token (template : jsstr) : option (jsstr * jsstr) :=
  if includes (js "{cherryConfig}") template then Some (js "{cherryConfig}", js "id")
  else if includes (js "{aionuiConfig}") template then Some (js "{aionuiConfig}", js "platform")
  else if includes (js "{deepchatConfig}") template then Some (js "{deepchatConfig}", js "id")
  else None.

Lemma resolve_config template tok kind apiKey a :
  config_token template = Some (tok, kind) ->
  resolveChatUrl template apiKey a
  = (encoded ← encode_config (payload kind a (normalizeApiKey (default [] apiKey)));
     Some (replaceToken template tok encoded)) /\ (kind = js "id" \/ kind = js "platform").
Proof.
  unfold config_token, resolveChatUrl. cbv zeta. intros H. repeat case_match; simplify_eq; auto.
Qed.

Lemma normalize_latin k : Forall byte k -> Forall byte (normalizeApiKey k).
Proof.
  intros H. assert (Ht : Forall byte (trim k)).
  { apply Forall_forall. intros c Hc. apply (proj1 (Forall_forall _ _) H). by apply trim_elem. }
  unfold normalizeApiKey. repeat case_match; [constructor|done|]. apply Forall_app. split; [|done].
  unfold byte. by apply (bool_decide_unpack _); vm_compute.
Qed.

(** C26. A client reads back the configuration of its link: for a template with one of the
    configuration tokens and an address and a key in Latin-1, the link is the template with
    a text in place of the token whose percent decoding, base64 decoding and JSON parsing
    give the server's address and the key, trimmed and with its prefix. *)
Theorem config_delivers template tok kind apiKey serverAddress
    (Htok : config_token template = Some (tok, kind))
    (Ha : Forall byte serverAddress) (Hk : Forall byte (default [] apiKey)) :
  exists enc b text,
    resolveChatUrl template apiKey serverAddress = Some (join enc (split_str tok template)) /\
    percent_decode enc = Some b /\ atob b = Some text /\
    json_parse text = Some (payload kind serverAddress (normalizeApiKey (default [] apiKey))).
Proof.
  destruct (resolve_config _ _ _ apiKey serverAddress Htok) as [-> Hkind].
  assert (Hkk := normalize_latin _ Hk).
  destruct (encode_config_read kind serverAddress (normalizeApiKey (default [] apiKey))) as (enc & b & E1 & E2 & E3); try done.
  - destruct Hkind as [-> | ->]; unfold byte; by apply (bool_decide_unpack _); vm_compute.
  - destruct Hkind as [-> | ->]; by apply (bool_decide_unpack _); vm_compute.
  - by destruct Hkind as [-> | ->].
  - rewrite E1. cbn [mbind option_bind]. destruct (atob b) as [text|] eqn:Eb; [|done].
    by exists enc, b, text.
Qed.

(** The configuration of a client cannot be written for every server: a template with a
    configuration token has no link when the server's address or the key holds a character
    above Latin-1, since [btoa] throws. *)
Theorem wide_address_throws template tok kind apiKey serverAddress c
    (Htok : config_token template = Some (tok, kind))
    (Hc : c ∈ serverAddress \/ c ∈ normalizeApiKey (default [] apiKey))
    (Hw : 256 <= c) (Hs : is_high c || is_low c = false) :
  resolveChatUrl template apiKey serverAddress = None.
Proof.
  destruct (resolve_config _ _ _ apiKey serverAddress Htok) as [-> _].
  set (k := normalizeApiKey (default [] apiKey)) in *.
  assert (Hin : c ∈ ser (payload kind serverAddress k)).
  { assert (Hq : forall s, c ∈ s -> c ∈ quote s).
    { intros s H. unfold quote. apply elem_of_cons. right. apply elem_of_app. left. by apply quote_units_keeps. }
    rewrite ser_payload, !elem_of_app. destruct Hc as [Hc|Hc]; apply Hq in Hc; auto 10. }
  unfold encode_config, payload, stringify. cbn [mbind option_bind]. fold (payload kind serverAddress k).
  unfold btoa. replace (forallb _ _) with false; [done|]. symmetry. apply not_true_iff_false.
  rewrite forallb_forall. intros H. apply list_elem_of_In in Hin. apply H, N.ltb_lt in Hin. lia.
Qed.

(** ** Links without a key *)

(** A token in braces does not arise where a text without braces is put between two texts,
    when that text holds a character the token lacks. *)
Lemma no_token_across m p v r x :
  let tok := 123 :: m ++ [125] in
  includes tok p = false -> includes tok r = false ->
  123 ∉ v -> 125 ∉ v -> x ∈ v -> x ∉ tok -> includes tok (p ++ v ++ r) = false.
Proof.
  cbv zeta. set (tok := 123 :: m ++ [125]). intros Hp Hr H1 H2 Hx Hxt.
  destruct (includes tok (p ++ v ++ r)) eqn:E; [|done]. exfalso.
  assert (Hno : forall s, includes tok s = false -> forall a b, s <> a ++ tok ++ b).
  { intros s Hs a b ->. apply not_true_iff_false in Hs. apply Hs, includes_spec. eauto. }
  apply includes_spec in E as (a & b & E). apply app_eq_inv in E as [(k & -> & E)|(k & -> & E)].
  - (* the token begins in [p] *)
    apply app_eq_inv in E as [(k' & Hk & E)|(k' & -> & E)].
    + destruct (decide (k' = [])) as [->|Hne].
      { rewrite app_nil_r in Hk. apply (Hno _ Hp a []). by rewrite app_nil_r, Hk. }
      assert (H125 : 125 ∈ k').
      { assert (Hl : last (k ++ k') = Some 125).
        { rewrite <- Hk. unfold tok. change (123 :: m ++ [125]) with ((123 :: m) ++ [125]). by rewrite last_snoc. }
        rewrite last_app in Hl. destruct (last k') eqn:El; [|by apply last_None in El].
        simplify_eq. by apply last_Some_elem_of. }
      apply app_eq_inv in E as [(u & -> & _)|(u & -> & _)].
      * apply H2. apply elem_of_app. by left.
      * apply Hxt. rewrite Hk. apply elem_of_app. right. apply elem_of_app. by left.
    + by apply (Hno _ Hp a k').
  - apply app_eq_inv in E as [(k' & -> & E)|(k' & -> & E)].
    + destruct k' as [|c k']; cbn [app] in E.
      * by apply (Hno _ Hr [] b).
      * unfold tok in E. cbn [app] in E. injection E as <- _. apply H1. apply elem_of_app. right. apply list_elem_of_here.
    + by apply (Hno _ Hr k' b).
Qed.

Lemma split_fuel_not_nil n t s : split_fuel n t s <> [].
Proof. destruct n; cbn [split_fuel]; [done|]. by destruct (index_of t s). Qed.

Lemma no_token_replaced m n t s v x :
  let tok := 123 :: m ++ [125] in
  includes tok s = false -> 123 ∉ v -> 125 ∉ v -> x ∈ v -> x ∉ tok ->
  includes tok (join v (split_fuel n t s)) = false.
Proof.
  cbv zeta. intros Hs H1 H2 Hx Hxt. revert s Hs; induction n as [|n IH]; intros s Hs; cbn [split_fuel]; [done|].
  destruct (index_of t s) as [i|] eqn:E; [|done].
  rewrite join_cons by apply split_fuel_not_nil. apply no_token_across with (x := x); try done.
  - apply includes_prefix with (v := drop i s). by rewrite take_drop.
  - apply IH. apply includes_suffix with (u := take (i + length t) s). by rewrite take_drop.
Qed.

Lemma replace_absent s t v : includes t s = false -> replaceToken s t v = s.
Proof.
  unfold includes, replaceToken, split_str. cbn [split_fuel]. by destruct (index_of t s).
Qed.

(** An encoded address. *)
Lemma code_points_keeps s c : c ∈ s -> is_high c || is_low c = false -> c ∈ code_points s.
Proof.
  intros Hin Hs. apply orb_false_iff in Hs as [H1 H2].
  enough (H : forall n s, (length s <= n)%nat -> c ∈ s -> c ∈ code_points s) by (by apply (H (length s))).
  clear s Hin. induction n as [|n IH]; intros s Hn Hin; [destruct s; [by apply elem_of_nil in Hin|cbn in Hn; lia]|].
  destruct s as [|x s]; [by apply elem_of_nil in Hin|]. cbn [length code_points] in *.
  destruct s as [|d s].
  { apply elem_of_cons in Hin as [->|Hin]; [apply list_elem_of_here|by apply elem_of_nil in Hin]. }
  destruct (is_high x && is_low d) eqn:E.
  - apply andb_prop in E as [E1 E2].
    apply elem_of_cons in Hin as [->|Hin]; [by rewrite E1 in H1|].
    apply elem_of_cons in Hin as [->|Hin]; [by rewrite E2 in H2|].
    apply list_elem_of_further. apply IH; [cbn [length] in Hn; lia|done].
  - apply elem_of_cons in Hin as [->|Hin]; [apply list_elem_of_here|].
    apply list_elem_of_further. apply IH; [lia|done].
Qed.

Lemma code_points_bound s : Forall (fun c => c < 65536) s -> Forall (fun c => c < 1114112) (code_points s).
Proof.
  enough (H : forall n s, (length s <= n)%nat -> Forall (fun c => c < 65536) s -> Forall (fun c => c < 1114112) (code_points s))
    by (by apply (H (length s))).
  clear s. induction n as [|n IH]; intros s Hn Hs; [by destruct s; [|cbn in Hn; lia]|].
  destruct s as [|c s]; [constructor|]. apply Forall_cons in Hs as [Hc Hs]. cbn [length code_points] in *.
  destruct s as [|d s]; [repeat constructor; lia|].
  destruct (is_high c && is_low d) eqn:E.
  - apply Forall_cons in Hs as [Hd Hs]. constructor; [|apply IH; [cbn [length] in Hn; lia|done]].
    unfold is_high, is_low in E. bool_hyps.
    repeat match goal with H : (_ <=? _) = true |- _ => apply N.leb_le in H end. lia.
  - constructor; [lia|]. apply IH; [lia|done].
Qed.

Lemma encoded_percent cs u c :
  c ∈ cs -> uri_plain c = false -> c < 128 -> encode_points cs = Some u -> 37 ∈ u.
Proof.
  intros Hin Hc Hs. revert u; induction cs as [|d cs IH]; intros u; [by apply elem_of_nil in Hin|]. cbn [encode_points].
  apply elem_of_cons in Hin as [->|Hin].
  - unfold encode_point. rewrite Hc. destruct (is_surrogate d); [done|]. cbn [mbind option_bind].
    destruct (encode_points cs); [|done]. intros [= <-]. rewrite (utf8_ascii d Hs), bind_cons.
    apply list_elem_of_here.
  - destruct (encode_point d); [|done]. cbn [mbind option_bind]. destruct (encode_points cs) as [v|]; [|done].
    intros [= <-]. apply elem_of_app. right. by apply IH.
Qed.

(** A link that needs no key holds none: for a template without a key or configuration
    token and the address of a server, the link is the same for all keys - no encoded
    address makes a key token arise in it. *)
Theorem no_key_no_leak template serverAddress k1 k2
    (Hno : chatLinkRequiresApiKey template = false)
    (Hu : Forall (fun c => c < 65536) serverAddress) (Ha : 58 ∈ serverAddress) :
  resolveChatUrl template k1 serverAddress = resolveChatUrl template k2 serverAddress.
Proof.
  unfold chatLinkRequiresApiKey in Hno. rewrite !orb_false_iff in Hno. destruct Hno as (((Hk & Hc) & Hi) & Hd).
  unfold resolveChatUrl. cbv zeta. rewrite Hc, Hi, Hd.
  destruct (truthy_str serverAddress) eqn:Et; [|by destruct serverAddress; [apply elem_of_nil in Ha|]].
  destruct (encodeURIComponent serverAddress) as [enc|] eqn:Ee; [|done]. cbn [mbind option_bind].
  set (url := replaceToken template (js "{address}") enc).
  assert (Hurl : includes (js "{key}") url = false).
  { assert (Hch := encode_chars _ _ (code_points_bound _ Hu) Ee).
    assert (Hbrace : forall c, c = 123 \/ c = 125 -> c ∉ enc).
    { intros c Hcc Hin. apply (proj1 (Forall_forall _ _) Hch) in Hin. by destruct Hcc as [-> | ->]. }
    apply (no_token_replaced [107; 101; 121] _ _ _ _ 37); try done.
    - apply Hbrace. by left.
    - apply Hbrace. by right.
    - eapply (encoded_percent _ _ 58); [|done|done|exact Ee]. by apply code_points_keeps.
    - by apply (bool_decide_unpack _); vm_compute. }
  rewrite !(replace_absent url) by done. by repeat case_match.
Qed.

(** ** Concrete links *)

Definition cherry : jsstr := js "cherrystudio://providers/api-keys?v=1&data={cherryConfig}".

Lemma config_delivers_witness :
  exists enc b text,
    resolveChatUrl cherry (Some (js " abc ")) (js "https://api.example")
    = Some (js "cherrystudio://providers/api-keys?v=1&data=" ++ enc) /\
    percent_decode enc = Some b /\ atob b = Some text /\
    json_parse text = Some (payload (js "id") (js "https://api.example") (js "sk-abc")).
Proof.
  destruct (config_delivers cherry (js "{cherryConfig}") (js "id") (Some (js " abc ")) (js "https://api.example"))
    as (enc & b & text & H1 & H2 & H3 & H4);
    [by vm_compute|unfold byte; by apply (bool_decide_unpack _); vm_compute
    |unfold byte; by apply (bool_decide_unpack _); vm_compute|].
  exists enc, b, text. rewrite H1. split; [|split; [exact H2|split; [exact H3|exact H4]]].
  assert (E : split_str (js "{cherryConfig}") cherry = [js "cherrystudio://providers/api-keys?v=1&data="; []])
    by (by vm_compute).
  rewrite E. cbn [join]. by rewrite app_nil_r.
Defined.

Lemma wide_address_throws_witness :
  resolveChatUrl cherry (Some (js "abc")) (js "https://例え.jp") = None.
Proof.
  apply (wide_address_throws cherry (js "{cherryConfig}") (js "id") (Some (js "abc")) (js "https://例え.jp") 20363);
    [by vm_compute|left; by apply (bool_decide_unpack _); vm_compute|lia|reflexivity].
Defined.

Lemma no_key_no_leak_witness :
  resolveChatUrl (js "https://chat.example/?u={address}") (Some (js "abc")) (js "https://api.example")
  = resolveChatUrl (js "https://chat.example/?u={address}") None (js "https://api.example").
Proof.
  apply no_key_no_leak; [by vm_compute|by apply (bool_decide_unpack _); vm_compute
    |by apply (bool_decide_unpack _); vm_compute].
Defined.

(** A template in which the address completes a key token. *)
Example address_completes_token :
  resolveChatUrl (js "https://chat.example/?u={k{address}y}") (Some (js "abc")) (js "e")
  = Some (js "https://chat.example/?u=sk-abc").
Proof. vm_compute. reflexivity. Qed.
