(* ===== verification/Passkey.v ===== *)
(** * Passkeys ([lib/passkey.ts])

    The options of a WebAuthn ceremony arrive as JSON whose binary parts are base64url texts;
    the browser wants buffers, and its answer goes back as base64url.  The credentials
    themselves come from the browser. *)

From S2P Require Import Prelude JsString JsNumber JsValue WebEncoding.

#[local] Open Scope N_scope.

(** ** The codec *)

(** Characters of base64 for those of base64url, and back. *)
Definition from_url (c : N) : N := if c =? 45 then 43 else if c =? 95 then 47 else c.
Definition to_url (c : N) : N := if c =? 43 then 45 else if c =? 47 then 95 else c.

(** [value.length], where a number, boolean or object has none. *)
Definition length_of (value : jsval) : option nat :=
  match value with VStr s => Some (length s) | VArr l => Some (length l) | _ => None end.

(** [base64UrlToArrayBuffer]: the bytes; None when [atob] throws. *)
Definition base64UrlToArrayBuffer (value : jsval) : option (list N) :=
  if negb (truthy value) then Some []
  else
    let padding := match length_of value with
                   | Some n => replicate ((4 - n mod 4) mod 4) 61
                   | None => []   (* [repeat(NaN)] *)
                   end in
    atob (from_url <$> (to_string value ++ padding)).

(** [s.replace(/=+$/g, '')] *)
Fixpoint drop_equals (s : jsstr) : jsstr :=
  match s with c :: t => if c =? 61 then drop_equals t else s | [] => [] end.
Definition strip_equals (s : jsstr) : jsstr := reverse (drop_equals (reverse s)).

(** [arrayBufferToBase64Url]; a missing buffer gives the empty text. *)
Definition arrayBufferToBase64Url (buffer : option (list N)) : jsstr :=
  match buffer with
  | None => []
  | Some bytes => strip_equals (to_url <$> b64_encode bytes)
  end.

(** ** Options of a ceremony *)

(** Values of the browser: those of JSON, buffers, and objects and lists that hold buffers. *)
Inductive value :=
| Json (v : jsval)
| Buffer (bytes : list N)
| Record_ (fields : list (jsstr * value))
| List_ (items : list value).

Abbreviation fields := (list (jsstr * value)).

Fixpoint fget (k : jsstr) (o : fields) : option value :=
  match o with
  | [] => None
  | (j, v) :: t => if bool_decide (j = k) then Some v else fget k t
  end.

(** [o[k] = v], a new name last. *)
Fixpoint fset (k : jsstr) (v : value) (o : fields) : fields :=
  match o with
  | [] => [(k, v)]
  | (j, w) :: t => if bool_decide (j = k) then (k, v) :: t else (j, w) :: fset k v t
  end.

Definition fdel (k : jsstr) (o : fields) : fields := filterb (fun kv => negb (bool_decide (fst kv = k))) o.

(** [{...v}] *)
Definition spread_of (v : jsval) : fields := (fun kv => (fst kv, Json (snd kv))) <$> entries_of v.

(** [payload?.publicKey ?? payload?.PublicKey ?? payload?.response ?? payload?.Response] *)
Definition options_of (payload : jsval) : jsval :=
  vnullish (prop (js "publicKey") payload) (vnullish (prop (js "PublicKey") payload)
    (vnullish (prop (js "response") payload) (prop (js "Response") payload))).

(** [{ ...item, id: base64UrlToArrayBuffer(item.id) }]; reading a property of null or
    undefined throws. *)
Definition with_id (item : jsval) : option value :=
  if nullish item then None
  else id ← base64UrlToArrayBuffer (prop (js "id") item);
       Some (Record_ (fset (js "id") (Buffer id) (spread_of item))).

Fixpoint map_opt {A B} (f : A -> option B) (l : list A) : option (list B) :=
  match l with
  | [] => Some []
  | x :: l => y ← f x; r ← map_opt f l; Some (y :: r)
  end.

(** The credentials under a name, with buffers for their identifiers. *)
Definition with_credentials (name : jsstr) (options : jsval) (publicKey : fields) : option fields :=
  match prop name options with
  | VArr l => items ← map_opt with_id l; Some (fset name (List_ items) publicKey)
  | _ => Some publicKey
  end.

(** None when the payload holds no options, or a text is not base64url. *)
Definition prepareCredentialCreationOptions (payload : jsval) : option fields :=
  let options := options_of payload in
  if negb (truthy options) then None
  else
    challenge ← base64UrlToArrayBuffer (prop (js "challenge") options);
    let user := prop (js "user") options in
    userId ← base64UrlToArrayBuffer (prop (js "id") user);
    let publicKey :=
      fset (js "user") (Record_ (fset (js "id") (Buffer userId) (spread_of user)))
        (fset (js "challenge") (Buffer challenge) (spread_of options)) in
    publicKey ← with_credentials (js "excludeCredentials") options publicKey;
    Some (match prop (js "attestationFormats") options with
          | VArr [] => fdel (js "attestationFormats") publicKey
          | _ => publicKey
          end).

Definition prepareCredentialRequestOptions (payload : jsval) : option fields :=
  let options := options_of payload in
  if negb (truthy options) then None
  else
    challenge ← base64UrlToArrayBuffer (prop (js "challenge") options);
    with_credentials (js "allowCredentials") options
      (fset (js "challenge") (Buffer challenge) (spread_of options)).

(** ** The answers *)

(** A credential as the browser gives it; a registration has transports if the browser
    knows them. *)
Record Credential := {
  cred_id : jsstr; rawId : list N; cred_type : jsstr; authenticatorAttachment : jsval;
  clientDataJSON : list N; extensionResults : option jsval }.

Record Attestation := { attestationObject : list N; transports : option (list jsstr) }.
Record Assertion := { authenticatorData : list N; signature : list N; userHandle : option (list N) }.

(** A buffer is a value that is always truthy, an empty one too. *)
Definition enc (bytes : list N) : jsval := VStr (arrayBufferToBase64Url (Some bytes)).

Definition result_of (c : Credential) (response : obj) : jsval :=
  VObj [(js "id", VStr (cred_id c)); (js "rawId", enc (rawId c)); (js "type", VStr (cred_type c));
        (js "authenticatorAttachment", authenticatorAttachment c); (js "response", VObj response);
        (js "clientExtensionResults",
          match extensionResults c with Some v => vnullish v (VObj []) | None => VObj [] end)].

Definition buildRegistrationResult (credential : option (Credential * Attestation)) : jsval :=
  match credential with
  | None => VNull
  | Some (c, r) =>
      result_of c
        [(js "attestationObject", enc (attestationObject r)); (js "clientDataJSON", enc (clientDataJSON c));
         (js "transports", match transports r with Some l => VArr (VStr <$> l) | None => VUndef end)]
  end.

Definition buildAssertionResult (credential : option (Credential * Assertion)) : jsval :=
  match credential with
  | None => VNull
  | Some (c, r) =>
      result_of c
        [(js "authenticatorData", enc (authenticatorData r)); (js "clientDataJSON", enc (clientDataJSON c));
         (js "signature", enc (signature r));
         (js "userHandle", match userHandle r with Some b => enc b | None => VNull end)]
  end.

(** ** The codec's round trip *)

Lemma drop_equals_plain s : Forall (fun c => (c =? 61) = false) s -> strip_equals s = s.
Proof.
  intros H. unfold strip_equals. destruct (reverse s) as [|c t] eqn:E.
  - by rewrite <- (reverse_involutive s), E.
  - assert (Hc : (c =? 61) = false).
    { apply (proj1 (Forall_forall _ s) H). apply elem_of_reverse. rewrite E. apply list_elem_of_here. }
    cbn [drop_equals]. rewrite Hc, <- E. apply reverse_involutive.
Qed.

Lemma strip_padding s n :
  Forall (fun c => (c =? 61) = false) s -> strip_equals (s ++ replicate n 61) = s.
Proof.
  intros H. rewrite <- (drop_equals_plain s H) at 2. unfold strip_equals. f_equal.
  rewrite reverse_app, reverse_replicate. induction n as [|n IH]; [done|]. exact IH.
Qed.

(** The characters of base64url. *)
Lemma url_char g : g < 64 -> (to_url (b64_char g) =? 61) = false /\ from_url (to_url (b64_char g)) = b64_char g.
Proof.
  intros H. destruct g as [|p]; [done|].
  do 6 (destruct p as [p|p|]; try (split; reflexivity)); lia.
Qed.

Definition url_chars (bytes : list N) : jsstr := to_url <$> (b64_char <$> groups bytes).

Lemma to_base64url bytes : Forall byte bytes -> arrayBufferToBase64Url (Some bytes) = url_chars bytes.
Proof.
  intros H. unfold arrayBufferToBase64Url. rewrite b64_encode_groups, fmap_app.
  destruct (padding_replicate bytes) as (n & -> & _). rewrite fmap_replicate.
  apply strip_padding. unfold url_chars. rewrite Forall_fmap, Forall_fmap.
  eapply Forall_impl; [by apply groups_small|]. intros g Hg. by apply url_char.
Qed.

Lemma pad_length n : (n mod 4 = 0 \/ n mod 4 = 2 \/ n mod 4 = 3)%nat ->
  let p := ((4 - n mod 4) mod 4)%nat in (p <= 2 /\ (n + p) mod 4 = 0)%nat.
Proof.
  cbv zeta. intros H. rewrite Nat.Div0.add_mod. destruct H as [-> | [-> | ->]]; cbn; split; (lia || done).
Qed.

Lemma decode_encode bytes :
  Forall byte bytes -> base64UrlToArrayBuffer (VStr (arrayBufferToBase64Url (Some bytes))) = Some bytes.
Proof.
  intros H. rewrite to_base64url by done. unfold base64UrlToArrayBuffer.
  destruct (truthy (VStr (url_chars bytes))) eqn:E; cbn [negb].
  - cbn [to_string length_of]. rewrite fmap_app, fmap_replicate. change (from_url 61) with 61.
    assert (Hl : length (url_chars bytes) = length (groups bytes)) by (unfold url_chars; by rewrite !length_fmap).
    assert (Hm := groups_length bytes).
    assert (Hcase : (length (groups bytes) mod 4 = 0 \/ length (groups bytes) mod 4 = 2 \/ length (groups bytes) mod 4 = 3)%nat).
    { rewrite Hm. by destruct (length bytes mod 3)%nat as [|[|[|?]]]; auto. }
    assert (Hg := groups_small _ H).
    replace (from_url <$> url_chars bytes) with (b64_char <$> groups bytes).
    + rewrite Hl, atob_groups; [by apply groups_bytes|done|lia|]. right. by apply pad_length.
    + unfold url_chars. clear -Hg. induction Hg as [|g gs Hx _ IH]; [done|]. csimpl. rewrite <- IH.
      by rewrite (proj2 (url_char g Hx)).
  - destruct bytes as [|a [|b [|c t]]]; [done| | |]; exfalso; cbn in E; done.
Qed.

(** ** Fields *)

Lemma fget_fset k j v o : fget k (fset j v o) = if bool_decide (j = k) then Some v else fget k o.
Proof.
  induction o as [|[i w] o IH]; cbn [fset fget]; [by case_bool_decide|].
  destruct (bool_decide_reflect (i = j)) as [->|Hij]; cbn [fget].
  - by case_bool_decide.
  - rewrite IH. repeat case_bool_decide; subst; done.
Qed.

Lemma fget_spread k o : fget k (spread_of (VObj o)) = Json <$> oget k o.
Proof.
  unfold spread_of. cbn [entries_of]. induction o as [|[j v] o IH]; [done|]. csimpl. cbn [fget oget].
  by case_bool_decide.
Qed.

Lemma fget_fdel k j o : k <> j -> fget k (fdel j o) = fget k o.
Proof.
  intros H. unfold fdel. induction o as [|[i w] o IH]; [done|]. cbn [filterb fst fget].
  destruct (bool_decide_reflect (i = j)) as [->|Hij]; cbn [negb fget]; rewrite IH; [|done].
  by rewrite bool_decide_eq_false_2.
Qed.

Lemma fget_credentials name o pk pk' k :
  with_credentials name (VObj o) pk = Some pk' -> k <> name -> fget k pk' = fget k pk.
Proof.
  unfold with_credentials. intros H Hk. destruct (prop name (VObj o)); simplify_eq; try done.
  destruct (map_opt with_id l); [|done]. cbn [mbind option_bind] in H. simplify_eq.
  by rewrite fget_fset, bool_decide_eq_false_2.
Qed.

(** A text of the server for bytes. *)
Definition encoded (bytes : list N) : jsval := VStr (arrayBufferToBase64Url (Some bytes)).

(** A credential as the server lists it: other fields, and the identifier's bytes. *)
Definition described (item : jsval) (id : list N) : Prop :=
  Forall byte id /\ exists o, item = VObj o /\ oget (js "id") o = Some (encoded id).

(** What the browser is given for it. *)
Definition as_buffer (id : list N) (v : value) : Prop :=
  exists fs, v = Record_ fs /\ fget (js "id") fs = Some (Buffer id).

Lemma with_id_described item cid :
  described item cid -> exists v, with_id item = Some v /\ as_buffer cid v.
Proof.
  intros (Hb & o & -> & Ho). unfold with_id. cbn [nullish prop]. rewrite Ho. cbn [default from_option id].
  unfold encoded. rewrite decode_encode by done. cbn [mbind option_bind].
  eexists. split; [done|]. eexists. split; [done|]. by rewrite fget_fset, bool_decide_eq_true_2.
Qed.

Lemma map_described items ids :
  Forall2 described items ids -> exists vs, map_opt with_id items = Some vs /\ Forall2 as_buffer ids vs.
Proof.
  induction 1 as [|item id items ids Hi _ (vs & E & Hvs)]; [by exists []|].
  destruct (with_id_described _ _ Hi) as (v & Ev & Hv). exists (v :: vs). cbn [map_opt]. rewrite Ev, E.
  split; [done|by constructor].
Qed.

Lemma credentials_described name o items ids pk :
  oget name o = Some (VArr items) -> Forall2 described items ids ->
  exists vs, with_credentials name (VObj o) pk = Some (fset name (List_ vs) pk) /\ Forall2 as_buffer ids vs.
Proof.
  intros Ho Hd. destruct (map_described _ _ Hd) as (vs & E & Hvs). exists vs. split; [|done].
  unfold with_credentials. cbn [prop]. rewrite Ho. cbn [default from_option id]. by rewrite E.
Qed.

(** The options of a registration reach the browser with their binary parts as bytes:
    when the server sends the challenge, the user's identifier and those of the excluded
    credentials as base64url of some bytes, the prepared options hold these bytes in their
    places, and every other option as it was sent. *)
Theorem creation_options payload o ch u uid items ids
    (Hopt : options_of payload = VObj o)
    (Hch : oget (js "challenge") o = Some (encoded ch)) (Bch : Forall byte ch)
    (Hu : oget (js "user") o = Some (VObj u)) (Huid : oget (js "id") u = Some (encoded uid)) (Buid : Forall byte uid)
    (Hex : oget (js "excludeCredentials") o = Some (VArr items)) (Hids : Forall2 described items ids) :
  exists pk uf vs, prepareCredentialCreationOptions payload = Some pk /\
    fget (js "challenge") pk = Some (Buffer ch) /\
    fget (js "user") pk = Some (Record_ uf) /\ fget (js "id") uf = Some (Buffer uid) /\
    (forall k, k <> js "id" -> fget k uf = Json <$> oget k u) /\
    fget (js "excludeCredentials") pk = Some (List_ vs) /\ Forall2 as_buffer ids vs /\
    (forall k, k ∉ [js "challenge"; js "user"; js "excludeCredentials"; js "attestationFormats"] ->
       fget k pk = Json <$> oget k o).
Proof.
  unfold prepareCredentialCreationOptions. rewrite Hopt. cbn [truthy negb prop]. cbv zeta.
  rewrite Hch, Hu. cbn [default from_option id prop]. rewrite Huid. cbn [default from_option id].
  change (base64UrlToArrayBuffer (id (encoded ch))) with (base64UrlToArrayBuffer (encoded ch)).
  unfold encoded. rewrite !decode_encode by done. cbn [mbind option_bind].
  set (uf := fset (js "id") (Buffer uid) (spread_of (VObj u))).
  destruct (credentials_described (js "excludeCredentials") o items ids
    (fset (js "user") (Record_ uf) (fset (js "challenge") (Buffer ch) (spread_of (VObj o)))) Hex Hids) as (vs & E & Hvs).
  rewrite E. cbn [mbind option_bind]. set (pk := fset (js "excludeCredentials") _ _).
  set (pk' := match default VUndef (oget (js "attestationFormats") o) with VArr [] => _ | _ => _ end).
  assert (Hpk : forall k, k <> js "attestationFormats" -> fget k pk' = fget k pk).
  { intros k Hk. unfold pk'. repeat case_match; try done. by apply fget_fdel. }
  exists pk', uf, vs. split_and!; try done.
  - rewrite Hpk by done. unfold pk. by rewrite !fget_fset.
  - rewrite Hpk by done. unfold pk. by rewrite !fget_fset.
  - unfold uf. by rewrite fget_fset.
  - intros k Hk. unfold uf. by rewrite fget_fset, bool_decide_eq_false_2, fget_spread.
  - rewrite Hpk by done. unfold pk. by rewrite !fget_fset.
  - intros k Hk. rewrite !not_elem_of_cons in Hk. destruct Hk as (K1 & K2 & K3 & K4 & _).
    rewrite Hpk by done. unfold pk. rewrite !fget_fset, !bool_decide_eq_false_2 by done. apply fget_spread.
Qed.

(** The answer to a login carries the authenticator's bytes: read back with the same
    codec, the parts of the payload are the identifier, the authenticator data, the client
    data and the signature of the credential, and the user's handle when it has one. *)
Theorem assertion_round_trip c r
    (H1 : Forall byte (rawId c)) (H2 : Forall byte (clientDataJSON c))
    (H3 : Forall byte (authenticatorData r)) (H4 : Forall byte (signature r))
    (H5 : Forall byte (default [] (userHandle r))) :
  let v := buildAssertionResult (Some (c, r)) in
  let part k := base64UrlToArrayBuffer (prop k (prop (js "response") v)) in
  base64UrlToArrayBuffer (prop (js "rawId") v) = Some (rawId c) /\
  part (js "authenticatorData") = Some (authenticatorData r) /\
  part (js "clientDataJSON") = Some (clientDataJSON c) /\
  part (js "signature") = Some (signature r) /\
  part (js "userHandle") = Some (default [] (userHandle r)).
Proof.
  cbv zeta. split_and!.
  - exact (decode_encode _ H1).
  - exact (decode_encode _ H3).
  - exact (decode_encode _ H2).
  - exact (decode_encode _ H4).
  - destruct r as [a s [b|]]; [exact (decode_encode _ H5)|reflexivity].
Qed.

(** ** A registration *)

Definition challenge_bytes : list N := [251; 255; 1].
Definition user_bytes : list N := [1; 2].

Definition creation_payload : jsval :=
  VObj [(js "publicKey", VObj
    [(js "challenge", VStr (js "-_8B")); (js "rp", VObj [(js "id", VStr (js "example.com"))]);
     (js "user", VObj [(js "id", VStr (js "AQI")); (js "name", VStr (js "root"))]);
     (js "excludeCredentials", VArr [VObj [(js "type", VStr (js "public-key")); (js "id", VStr (js "Bw"))]]);
     (js "attestationFormats", VArr [])])].

(** No options, no ceremony; a text that is not base64url throws. *)
Example creation_errors :
  prepareCredentialCreationOptions (VObj []) = None /\
  prepareCredentialCreationOptions (VObj [(js "publicKey", VObj [(js "challenge", VStr (js "a!"))])]) = None.
Proof. split; vm_compute; reflexivity. Qed.

(** An empty list of attestation formats is taken out. *)
Example creation_formats :
  (fget (js "attestationFormats") <$> prepareCredentialCreationOptions creation_payload) = Some None.
Proof. vm_compute. reflexivity. Qed.

Lemma creation_options_witness :
  exists pk uf vs, prepareCredentialCreationOptions creation_payload = Some pk /\
    fget (js "challenge") pk = Some (Buffer challenge_bytes) /\
    fget (js "user") pk = Some (Record_ uf) /\ fget (js "id") uf = Some (Buffer user_bytes) /\
    fget (js "excludeCredentials") pk = Some (List_ vs) /\ Forall2 as_buffer [[7]] vs.
Proof.
  destruct (creation_options creation_payload
    (entries_of (options_of creation_payload)) challenge_bytes
    (entries_of (prop (js "user") (options_of creation_payload))) user_bytes
    [VObj [(js "type", VStr (js "public-key")); (js "id", VStr (js "Bw"))]] [[7]])
    as (pk & uf & vs & P1 & P2 & P3 & P4 & _ & P5 & P6 & _);
    [by vm_compute|by vm_compute|unfold byte; by apply (bool_decide_unpack _); vm_compute
    |by vm_compute|by vm_compute|unfold byte; by apply (bool_decide_unpack _); vm_compute|by vm_compute| |].
  - repeat constructor. eexists. split; [reflexivity|by vm_compute].
  - exact (ex_intro _ pk (ex_intro _ uf (ex_intro _ vs (conj P1 (conj P2 (conj P3 (conj P4 (conj P5 P6)))))))).
Defined.

Lemma assertion_round_trip_witness :
  base64UrlToArrayBuffer (prop (js "signature") (prop (js "response")
    (buildAssertionResult (Some
      ({| cred_id := js "Bw"; rawId := [7]; cred_type := js "public-key"; authenticatorAttachment := VNull;
          clientDataJSON := []; extensionResults := None |},
       {| authenticatorData := [9; 8]; signature := [251; 255; 1; 0]; userHandle := None |}))))) = Some [251; 255; 1; 0].
Proof.
  pose proof (assertion_round_trip
    {| cred_id := js "Bw"; rawId := [7]; cred_type := js "public-key"; authenticatorAttachment := VNull;
       clientDataJSON := []; extensionResults := None |}
    {| authenticatorData := [9; 8]; signature := [251; 255; 1; 0]; userHandle := None |}) as H.
  destruct H as (_ & _ & _ & H & _); [repeat constructor..|exact H].
Defined.
