(* ===== verification/UsageLogs.v ===== *)
(** * Usage logs ([features/usage-logs/lib/utils.ts], [features/usage-logs/lib/format.ts],
      [features/usage-logs/components/usage-logs-table.tsx])

    The request a page of logs sends, built from the parameters of the address and the
    column filters of the table, and the prices shown for a log that was billed by a tiered
    expression, which the log carries in base64. *)

From S2P Require Import Prelude JsString JsNumber JsValue BillingVars FloatError.
From S2P Require Import WebEncoding TableUrlState.

#[local] Open Scope Z_scope.

(** ** Requests *)

Section Requests.

(** [now.getTime()], and the same with the hours set to zero. *)
Context (now midnight : num).

Definition hour_ms : num := num_of_Z 3600000.

(** [getDefaultTimeRange], as times. *)
Definition getDefaultTimeRange : num * num := (midnight, nadd now hour_ms).

Definition timestampToSeconds (ms : num) : num := math_floor (ndiv ms (num_of_Z 1000)).

(** [getTimestamp]: the parameter if it is truthy, else the default; undefined without a time. *)
Definition getTimestamp (useMilliseconds : bool) (paramTime : jsval) (defaultTime : option num) : jsval :=
  let time := vor paramTime (match defaultTime with Some t => VNum t | None => VUndef end) in
  if truthy time then
    if useMilliseconds then time else VNum (timestampToSeconds (to_number time))
  else VUndef.

Definition buildTimeRangeParams (searchParams : obj) (useMilliseconds : bool) : obj :=
  let hasTimeParams := vnullish (at_ (js "startTime") searchParams) (at_ (js "endTime") searchParams) in
  let range := if truthy hasTimeParams then None else Some getDefaultTimeRange in
  [(js "start_timestamp", getTimestamp useMilliseconds (at_ (js "startTime") searchParams) (fst <$> range));
   (js "end_timestamp", getTimestamp useMilliseconds (at_ (js "endTime") searchParams) (snd <$> range))].

(** [...(v ? { [k]: w } : {})] *)
Definition when (v : jsval) (k : jsstr) (w : jsval) (params : obj) : obj :=
  if truthy v then oset k w params else params.

Definition buildBaseParams (page pageSize : num) (searchParams : obj) (useMilliseconds : bool) : obj :=
  ospread
    (when (at_ (js "channel") searchParams) (js "channel_id") (VStr (to_string (at_ (js "channel") searchParams)))
       [(js "p", VNum page); (js "page_size", VNum pageSize)])
    (buildTimeRangeParams searchParams useMilliseconds).

(** [parseType] *)
Definition parseType (raw : jsval) : jsval :=
  let type := to_number raw in if is_finite type then VNum type else VUndef.

(** [processType]: a single type. *)
Definition processType (value : jsval) : jsval :=
  match value with
  | VArr [raw] => parseType raw
  | VStr (c :: s) => parseType (VStr (c :: s))
  | _ => VUndef
  end.

(** [Number(v) || 0] *)
Definition number_or_zero (v : jsval) : jsval := VNum (or_zero (to_number v)).

(** The parameters from the address. *)
Definition search_params (page pageSize : num) (searchParams : obj) (isAdmin : bool) : obj :=
  let s k := at_ k searchParams in
  let admin v := if isAdmin then v else VUndef in
  let text k := VStr (to_string (s k)) in
  ospread
    (when (s (js "upstreamRequestId")) (js "upstream_request_id") (text (js "upstreamRequestId"))
    (when (s (js "requestId")) (js "request_id") (text (js "requestId"))
    (when (admin (s (js "username"))) (js "username") (text (js "username"))
    (when (admin (s (js "channel"))) (js "channel") (number_or_zero (s (js "channel")))
    (when (s (js "group")) (js "group") (text (js "group"))
    (when (s (js "token")) (js "token_name") (text (js "token"))
    (when (s (js "model")) (js "model_name") (text (js "model"))
    (when (s (js "type")) (js "type") (processType (s (js "type")))
       [(js "p", VNum page); (js "page_size", VNum pageSize)]))))))))
    (buildTimeRangeParams searchParams false).

(** One column filter. *)
Definition override (isAdmin : bool) (params : obj) (f : jsstr * jsval) : obj :=
  let '(id, value) := f in
  if nullish value || is_str [] value then params
  else if bool_decide (id = js "type") then oset (js "type") (processType value) params
  else if bool_decide (id = js "model_name") then oset (js "model_name") (VStr (to_string value)) params
  else if bool_decide (id = js "token_name") then oset (js "token_name") (VStr (to_string value)) params
  else if bool_decide (id = js "group") then oset (js "group") (VStr (to_string value)) params
  else if bool_decide (id = js "channel") then
    if isAdmin then oset (js "channel") (number_or_zero value) params else params
  else if bool_decide (id = js "username") then
    if isAdmin then oset (js "username") (VStr (to_string value)) params else params
  else params.

Definition buildApiParams (page pageSize : num) (searchParams : obj) (columnFilters : filter_state)
    (isAdmin : bool) : obj :=
  fold_left (override isAdmin) columnFilters (search_params page pageSize searchParams isAdmin).

Inductive LogCategory := common | drawing | task.

(** The endpoint asked: the category, and whether for all users. *)
Definition fetchLogsByCategory (logCategory : LogCategory) (isAdmin : bool) (page pageSize : num)
    (searchParams : obj) (columnFilters : filter_state) : (LogCategory * bool) * obj :=
  match logCategory with
  | common => ((common, isAdmin), buildApiParams page pageSize searchParams columnFilters isAdmin)
  | drawing => ((drawing, isAdmin),
      oset (js "mj_id") (at_ (js "filter") searchParams) (buildBaseParams page pageSize searchParams true))
  | task => ((task, isAdmin),
      oset (js "task_id") (at_ (js "filter") searchParams) (buildBaseParams page pageSize searchParams false))
  end.

End Requests.

(** [LOG_TYPE_ALL_VALUE] *)
Definition LOG_TYPE_ALL_VALUE : jsstr := js "0".

Definition deserializeLogTypeFilter (value : jsval) : jsval :=
  let values := match value with VArr l => l | v => if truthy v then [v] else [] end in
  VArr (filterb (fun item => negb (bool_decide (to_string item = LOG_TYPE_ALL_VALUE))) values).

Definition text_column (id key : jsstr) : ColumnConfig :=
  {| columnId := id; searchKey := key; type := TString; serialize := None; deserialize := None |}.

(** The table's configuration. *)
Definition logs_table (isMobile isAdmin : bool) : Params :=
  params_of (Some {| o_pageKey := None; o_pageSizeKey := None; o_defaultPage := Some (num_of_Z 1);
                     o_defaultPageSize := Some (num_of_Z (if isMobile then 20 else 100)) |})
    (Some {| o_enabled := Some false; o_key := None; o_trim := None |})
    (Some ([ {| columnId := js "created_at"; searchKey := js "type"; type := TArray;
                serialize := None; deserialize := Some deserializeLogTypeFilter |};
             text_column (js "model_name") (js "model"); text_column (js "token_name") (js "token");
             text_column (js "group") (js "group") ]
           ++ (if isAdmin then [text_column (js "channel") (js "channel"); text_column (js "username") (js "username")]
               else []))).

(** ** Tiered billing *)

(** The fields of a log the summary reads. *)
Record LogOtherData := {
  billing_mode : option jsstr; expr_b64 : option jsstr; matched_tier : option jsstr;
  cache_tokens : option num; cache_creation_tokens : option num;
  cache_creation_tokens_5m : option num; cache_creation_tokens_1h : option num }.

(** [decodeBillingExprB64]; text that is not base64 gives the empty text. *)
Definition decodeBillingExprB64 (exprB64 : option jsstr) : jsstr :=
  match exprB64 with
  | None | Some [] => []
  | Some s => match atob s with Some bytes => text_decode bytes | None => [] end
  end.

Definition resolveMatchedTier (tiers : list ParsedTier) (matchedLabel : option jsstr) : option ParsedTier :=
  match matchedLabel with
  | None | Some [] => None
  | Some l =>
      snd <$> list_find (fun tier =>
        let l1 := normalizeTierLabel (Some (pt_label tier)) in
        l1 = normalizeTierLabel (Some l) /\ l1 <> []) tiers
  end.

Definition hasAnyCacheTokens (other : LogOtherData) : bool :=
  let positive n := nltb zero (or_zero (default NaN n)) in
  positive (cache_tokens other) || positive (cache_creation_tokens other) ||
  positive (cache_creation_tokens_5m other) || positive (cache_creation_tokens_1h other).

Record PriceEntry := { pe_field : jsstr; pe_shortLabel : jsstr; pe_price : num }.

(** The entry of a variable, if its price is shown. *)
Definition price_entry (cacheTokensPresent : bool) (tier : ParsedTier) (v : BillingVar) : option PriceEntry :=
  match field v with
  | None | Some [] => None
  | Some f =>
      if bool_decide (group v = Some (js "cache")) && negb cacheTokensPresent then None
      else
        let price := default NaN (assoc f (pt_fields tier)) in
        if is_finite price && nltb zero price
        then Some {| pe_field := f; pe_shortLabel := shortLabel v; pe_price := price |} else None
  end.

Record TieredBillingSummary := {
  sum_tiers : list ParsedTier; sum_tier : ParsedTier; priceEntries : list PriceEntry }.

Definition getTieredBillingSummary (other : option LogOtherData) : option TieredBillingSummary :=
  match other with
  | None => None
  | Some o =>
      if negb (bool_decide (billing_mode o = Some (js "tiered_expr"))) then None
      else
        let exprStr := decodeBillingExprB64 (expr_b64 o) in
        if negb (truthy_str exprStr) then None
        else
          let tiers := parseTiersFromExpr exprStr in
          match resolveMatchedTier tiers (matched_tier o) with
          | None => None
          | Some tier =>
              Some {| sum_tiers := tiers; sum_tier := tier;
                      priceEntries := omap (price_entry (hasAnyCacheTokens o) tier) BILLING_PRICING_VARS |}
          end
  end.

(** ** Requests of users *)

Section RequestTheorems.
Context (now midnight page pageSize : num).

Lemma oget_when v k w params j :
  oget j (when v k w params) = if bool_decide (j = k) && truthy v then Some w else oget j params.
Proof. unfold when. destruct (truthy v); [rewrite oget_oset|]; by case_bool_decide. Qed.

Lemma time_params_NoDup s ms : NoDup (okeys (buildTimeRangeParams now midnight s ms)).
Proof. by apply (bool_decide_unpack _); vm_compute. Qed.

(** The parameters from the address, name by name. *)
Lemma oget_search_params s isAdmin j :
  j <> js "start_timestamp" -> j <> js "end_timestamp" ->
  oget j (search_params now midnight page pageSize s isAdmin)
  = oget j (when (at_ (js "upstreamRequestId") s) (js "upstream_request_id") (VStr (to_string (at_ (js "upstreamRequestId") s)))
    (when (at_ (js "requestId") s) (js "request_id") (VStr (to_string (at_ (js "requestId") s)))
    (when (if isAdmin then at_ (js "username") s else VUndef) (js "username") (VStr (to_string (at_ (js "username") s)))
    (when (if isAdmin then at_ (js "channel") s else VUndef) (js "channel") (number_or_zero (at_ (js "channel") s))
    (when (at_ (js "group") s) (js "group") (VStr (to_string (at_ (js "group") s)))
    (when (at_ (js "token") s) (js "token_name") (VStr (to_string (at_ (js "token") s)))
    (when (at_ (js "model") s) (js "model_name") (VStr (to_string (at_ (js "model") s)))
    (when (at_ (js "type") s) (js "type") (processType (at_ (js "type") s))
       [(js "p", VNum page); (js "page_size", VNum pageSize)])))))))).
Proof.
  intros H1 H2. unfold search_params. rewrite oget_ospread, oget_reverse by apply time_params_NoDup.
  cbn [buildTimeRangeParams oget]. by rewrite !bool_decide_eq_false_2 by congruence.
Qed.

Lemma ohas_override isAdmin params f j :
  (j = js "channel" \/ j = js "username") -> isAdmin = false ->
  ohas j (override isAdmin params f) = ohas j params.
Proof.
  intros Hj ->. destruct f as [i v]. unfold override.
  repeat (case_match; [rewrite ?ohas_oset; by destruct Hj as [-> | ->]|]). by repeat case_match.
Qed.

(** A user's request stays within the user's own logs: without administrator rights, no
    parameters of the address and no column filters put a channel or a user name into the
    request, and it goes to the user's endpoint. *)
Theorem user_request_scoped logCategory s filters :
  let '((_, admin), params) := fetchLogsByCategory now midnight logCategory false page pageSize s filters in
  admin = false /\ ohas (js "channel") params = false /\ ohas (js "username") params = false.
Proof.
  assert (Hbase : forall ms j, (j = js "channel" \/ j = js "username") ->
    ohas j (buildBaseParams now midnight page pageSize s ms) = false).
  { intros ms j Hj. unfold ohas, buildBaseParams. rewrite oget_ospread, oget_reverse by apply time_params_NoDup.
    cbn [buildTimeRangeParams oget]. rewrite oget_when. by destruct Hj as [-> | ->]. }
  destruct logCategory; cbn [fetchLogsByCategory].
  - enough (H : forall j, (j = js "channel" \/ j = js "username") ->
      ohas j (buildApiParams now midnight page pageSize s filters false) = false) by (split_and!; [done|auto..]).
    intros j Hj. unfold buildApiParams.
    apply (fold_invariant (fun params => ohas j params = false)).
    + unfold ohas. rewrite oget_search_params by (by destruct Hj as [-> | ->]). rewrite !oget_when.
      by destruct Hj as [-> | ->]; cbn; repeat case_match.
    + intros params f _ H. by rewrite ohas_override.
  - split_and!; [done|rewrite ohas_oset..]; rewrite Hbase by auto; done.
  - split_and!; [done|rewrite ohas_oset..]; rewrite Hbase by auto; done.
Qed.

(** Writing what is there changes nothing. *)
Lemma oset_same k v o : oget k o = Some v -> oset k v o = o.
Proof.
  intros H. unfold oset. rewrite H. induction o as [|[j w] o IH]; [done|]. cbn [oget oreplace] in *.
  case_bool_decide; subst; [by simplify_eq|]. by rewrite IH.
Qed.

(** The filter a text column reads. *)
Lemma read_text_column s id key i v :
  read_filter s (text_column id key) = Some (i, v) ->
  i = id /\ exists t, v = VStr t /\ at_ key s = VStr t /\ truthy (VStr t) = true.
Proof.
  unfold read_filter. cbn [type text_column searchKey columnId deserialize apply_opt]. intros H.
  destruct (at_ key s) as [| | | |t| |] eqn:E; cbn [vnullish nullish] in H; try done.
  destruct (truthy_str (trim t)) eqn:Et; [|done]. simplify_eq. split; [done|]. exists t.
  split_and!; [done|done|]. destruct t; [by cbn in Et|done].
Qed.

Lemma created_at_ignored isAdmin params v : override isAdmin params (js "created_at", v) = params.
Proof. unfold override. case_match; [done|]. by rewrite !bool_decide_eq_false_2. Qed.

Definition text_columns : list (jsstr * jsstr) :=
  [(js "model_name", js "model"); (js "token_name", js "token"); (js "group", js "group")].
Definition admin_columns : list (jsstr * jsstr) := [(js "channel", js "channel"); (js "username", js "username")].

Ltac same_param Ht Htr :=
  unfold override; cbn [nullish orb];
  repeat (rewrite bool_decide_eq_false_2 by done); rewrite bool_decide_eq_true_2 by done;
  apply oset_same; rewrite oget_search_params by done; rewrite !oget_when, Ht, Htr; reflexivity.

(** A text read from the address is in the parameters already. *)
Lemma override_text (isAdmin : bool) s id key t :
  (id, key) ∈ text_columns ++ (if isAdmin then admin_columns else []) ->
  at_ key s = VStr t -> truthy (VStr t) = true ->
  override isAdmin (search_params now midnight page pageSize s isAdmin) (id, VStr t)
  = search_params now midnight page pageSize s isAdmin.
Proof.
  intros Hin Ht Htr. assert (He : is_str [] (VStr t) = false) by (by destruct t).
  apply elem_of_app in Hin as [Hin|Hin].
  - unfold text_columns in Hin. repeat (apply elem_of_cons in Hin as [[= -> ->]|Hin]);
      [unfold override; rewrite He; same_param Ht Htr..|by apply elem_of_nil in Hin].
  - destruct isAdmin; [|by apply elem_of_nil in Hin]. unfold admin_columns in Hin.
    repeat (apply elem_of_cons in Hin as [[= -> ->]|Hin]);
      [unfold override; rewrite He; same_param Ht Htr..|by apply elem_of_nil in Hin].
Qed.

Lemma override_read isMobile (isAdmin : bool) s f :
  f ∈ initialColumnFilters (logs_table isMobile isAdmin) s ->
  override isAdmin (search_params now midnight page pageSize s isAdmin) f
  = search_params now midnight page pageSize s isAdmin.
Proof.
  intros Hf. unfold initialColumnFilters in Hf. apply list_elem_of_omap in Hf as (cfg & Hin & Hr).
  destruct f as [i v].
  cbn [logs_table params_of columnFiltersCfg default from_option id app] in Hin.
  apply elem_of_cons in Hin as [->|Hin].
  { assert (Hi : i = js "created_at") by (by apply read_filter_id in Hr). subst. apply created_at_ignored. }
  assert (Hcols : exists id key, cfg = text_column id key /\ (id, key) ∈ text_columns ++ (if isAdmin then admin_columns else [])).
  { destruct isAdmin; repeat (apply elem_of_cons in Hin as [->|Hin]; [eexists _, _; split; [done|]; apply (bool_decide_unpack _); vm_compute; done|]);
      by apply elem_of_nil in Hin. }
  destruct Hcols as (id & key & -> & Hcol). apply read_text_column in Hr as (-> & t & -> & Ht & Htr).
  by apply (override_text isAdmin s id key t).
Qed.

(** The logs requested are those of the address: the column filters the table reads from
    the address change nothing in the request, for any parameters, on any page, for users
    and administrators. *)
Theorem logs_request_is_address isMobile isAdmin s :
  buildApiParams now midnight page pageSize s (TableUrlState.columnFilters (mount (logs_table isMobile isAdmin) s)) isAdmin
  = buildApiParams now midnight page pageSize s [] isAdmin.
Proof.
  unfold buildApiParams. cbn [fold_left mount TableUrlState.columnFilters].
  set (fs := initialColumnFilters (logs_table isMobile isAdmin) s).
  assert (H : forall f, f ∈ fs -> override isAdmin (search_params now midnight page pageSize s isAdmin) f
                = search_params now midnight page pageSize s isAdmin) by (apply override_read).
  clearbody fs. induction fs as [|f fs IH]; [done|]. cbn [fold_left].
  rewrite H by apply list_elem_of_here. apply IH. intros g Hg. apply H. by apply list_elem_of_further.
Qed.

End RequestTheorems.

(** ** The prices of a log *)

Lemma utf8_encode_bytes s : Forall scalar (code_points s) -> Forall byte (utf8_encode s).
Proof.
  intros H. unfold utf8_encode. induction H as [|c cs Hc _ IH]; [constructor|].
  rewrite bind_cons. apply Forall_app. split; [by apply utf8_bytes_small|done].
Qed.

Lemma b64_encode_nil bytes : b64_encode bytes = [] -> bytes = [].
Proof. by destruct bytes as [|a [|b [|c t]]]. Qed.

(** The expression a log carries is read back. *)
Lemma decode_billing_expr e :
  well_formed e -> head (code_points e) <> Some 65279%N ->
  decodeBillingExprB64 (Some (b64_encode (utf8_encode e))) = e.
Proof.
  intros He Hb. pose proof (text_decode_encode e He Hb) as Ht. destruct He as [_ Hs].
  pose proof (atob_encode _ (utf8_encode_bytes e Hs)) as Ha.
  unfold decodeBillingExprB64. destruct (b64_encode (utf8_encode e)) as [|c t] eqn:E.
  - apply b64_encode_nil in E. rewrite E in Ht. by rewrite <- Ht.
  - by rewrite Ha.
Qed.

Lemma resolve_tier tiers label :
  match resolveMatchedTier tiers label with
  | Some tier => tier ∈ tiers /\ normalizeTierLabel (Some (pt_label tier)) = normalizeTierLabel label
                 /\ normalizeTierLabel label <> []
  | None => Forall (fun tier => normalizeTierLabel (Some (pt_label tier)) <> normalizeTierLabel label
                     \/ normalizeTierLabel label = []) tiers
  end.
Proof.
  unfold resolveMatchedTier. destruct label as [[|c l]|].
  1,3: apply Forall_forall; intros; by right.
  destruct (list_find _ tiers) as [[i tier]|] eqn:E; cbn [fmap option_fmap option_map snd].
  - apply list_find_Some in E as (Hi & (H1 & H2) & _). split; [by eapply list_elem_of_lookup_2|].
    split; [done|]. by rewrite <- H1.
  - apply list_find_None in E. eapply Forall_impl; [exact E|]. intros tier H.
    destruct (decide (normalizeTierLabel (Some (pt_label tier)) = normalizeTierLabel (Some (c :: l)))) as [Heq|Hne];
      [|by left]. right. destruct (decide (normalizeTierLabel (Some (c :: l)) = [])) as [|Hn]; [done|].
    exfalso. apply H. cbv zeta. split; [done|]. by rewrite Heq.
Qed.

(** The price of a variable in a tier. *)
Definition price_of (tier : ParsedTier) (v : BillingVar) : num :=
  default NaN (assoc (default [] (field v)) (pt_fields tier)).

Definition price_shown (cache : bool) (tier : ParsedTier) (v : BillingVar) : bool :=
  (negb (bool_decide (group v = Some (js "cache"))) || cache)
  && is_finite (price_of tier v) && nltb zero (price_of tier v).

Lemma price_entries cache tier :
  omap (price_entry cache tier) BILLING_PRICING_VARS
  = (fun v => {| pe_field := default [] (field v); pe_shortLabel := shortLabel v; pe_price := price_of tier v |})
      <$> filterb (price_shown cache tier) BILLING_PRICING_VARS.
Proof.
  assert (H : Forall (fun v => exists c f, field v = Some (c :: f)) BILLING_PRICING_VARS).
  { assert (Hb : forallb (fun v => match field v with Some (_ :: _) => true | _ => false end) BILLING_PRICING_VARS = true)
      by (by vm_compute).
    apply Forall_forall. intros v Hv. apply list_elem_of_In in Hv.
    pose proof (proj1 (forallb_forall _ _) Hb v Hv) as H. revert H. cbv beta. destruct (field v) as [[|c f]|]; [done|eauto|done]. }
  induction H as [|v vs (c & f & Hf) _ IH]; [done|]. csimpl. cbn [filterb].
  unfold price_entry at 1, price_shown at 1, price_of. rewrite Hf. cbn [default from_option id].
  set (p := default NaN (assoc (c :: f) (pt_fields tier))).
  destruct (bool_decide (group v = Some (js "cache"))), cache, (is_finite p), (nltb zero p); cbn [andb orb negb];
    rewrite IH; csimpl; unfold price_of; by rewrite ?Hf.
Qed.

(** A log billed by a tiered expression shows the prices of the tier that was matched, or
    none: for a log that carries the base64 of an expression, the summary is of the tiers
    of this very expression and of one whose label is the matched one up to notation, with
    exactly the positive finite prices, those of the cache only if the request used it; an
    unknown label shows no prices rather than another tier's. *)
Theorem tiered_log_summary o e
    (He : well_formed e) (Hb : head (code_points e) <> Some 65279%N) (Hne : e <> [])
    (Hmode : billing_mode o = Some (js "tiered_expr"))
    (Hexpr : expr_b64 o = Some (b64_encode (utf8_encode e))) :
  match getTieredBillingSummary (Some o) with
  | Some r =>
      sum_tiers r = parseTiersFromExpr e /\ sum_tier r ∈ parseTiersFromExpr e /\
      normalizeTierLabel (Some (pt_label (sum_tier r))) = normalizeTierLabel (matched_tier o) /\
      priceEntries r
      = (fun v => {| pe_field := default [] (field v); pe_shortLabel := shortLabel v;
                     pe_price := price_of (sum_tier r) v |})
          <$> filterb (price_shown (hasAnyCacheTokens o) (sum_tier r)) BILLING_PRICING_VARS
  | None =>
      Forall (fun tier => normalizeTierLabel (Some (pt_label tier)) <> normalizeTierLabel (matched_tier o)
               \/ normalizeTierLabel (matched_tier o) = []) (parseTiersFromExpr e)
  end.
Proof.
  unfold getTieredBillingSummary. rewrite Hmode, Hexpr, decode_billing_expr by done.
  rewrite bool_decide_eq_true_2 by done. cbn [negb]. replace (truthy_str e) with true by (by destruct e).
  cbn [negb]. pose proof (resolve_tier (parseTiersFromExpr e) (matched_tier o)) as H.
  destruct (resolveMatchedTier _ _) as [tier|]; [|done]. destruct H as (H1 & H2 & _).
  split_and!; try done. apply price_entries.
Qed.

(** A log of a request in the second of two tiers. *)
Definition log_expr : jsstr :=
  js "p <= 200000 ? tier(" ++ dq ++ js "≤200K" ++ dq ++ js ", p * 3 + c * 15) : tier(" ++ dq ++ js ">200K" ++ dq
  ++ js ", p * 6 + c * 22.5 + cr * 0.6)".

Definition tiered_log : LogOtherData := {|
  billing_mode := Some (js "tiered_expr"); expr_b64 := Some (b64_encode (utf8_encode log_expr));
  matched_tier := Some (js "> 200k"); cache_tokens := None; cache_creation_tokens := None;
  cache_creation_tokens_5m := None; cache_creation_tokens_1h := None |}.

Example tiered_prices :
  (fun r => (fun e => (pe_field e, num_to_string (pe_price e))) <$> priceEntries r) <$> getTieredBillingSummary (Some tiered_log)
  = Some [(js "inputPrice", js "6"); (js "outputPrice", js "22.5")].
Proof. vm_compute. reflexivity. Qed.

Lemma tiered_log_summary_witness :
  match getTieredBillingSummary (Some tiered_log) with
  | Some r => sum_tier r ∈ parseTiersFromExpr log_expr /\
              normalizeTierLabel (Some (pt_label (sum_tier r))) = normalizeTierLabel (Some (js "> 200k"))
  | None => False
  end.
Proof.
  assert (He : well_formed log_expr).
  { split.
    - by apply (bool_decide_unpack _); vm_compute.
    - unfold scalar. by apply (bool_decide_unpack _); vm_compute. }
  pose proof (tiered_log_summary tiered_log log_expr He ltac:(by vm_compute) ltac:(by vm_compute) eq_refl eq_refl) as H.
  destruct (getTieredBillingSummary (Some tiered_log)) as [r|] eqn:E; [|by vm_compute in E].
  exact (conj (proj1 (proj2 H)) (proj1 (proj2 (proj2 H)))).
Defined.
