(* ===== verification/ChannelSubmit.v ===== *)
(** * Saving a channel ([features/channels/components/drawers/channel-mutate-drawer.tsx],
      [features/channels/lib/status-code-risk-guard.ts],
      [features/channels/hooks/use-channel-mutate-form.ts])

    What happens between the save button and the request: the checks of the status code
    mapping and the model mapping, the two questions put to the user, and the payload of the
    form ([ChannelForm]).  The user's answers are functions of what the dialogs show. *)

From S2P Require Import Prelude JsString JsNumber JsValue JsJson JsSort.
From S2P Require Import ModelMapping ChannelForm.

#[local] Open Scope N_scope.
#[local] Open Scope outcome_scope.

(** ** The guard of status codes *)

(** [/^[1-5]\d{2}$/.test(s)] *)
Definition three_digits (s : jsstr) : bool :=
  match s with
  | [a; b; c] => (49 <=? a) && (a <=? 53) && is_digit b && is_digit c
  | _ => false
  end.

Definition code_of (s : jsstr) : num := num_of_Z (Z.of_N (digits_val s)).

Definition parseStatusCodeKey (rawKey : jsstr) : option num :=
  let normalized := trim rawKey in
  if three_digits normalized then Some (code_of normalized) else None.

Definition in_codes (x : num) : bool := nleb (num_of_Z 100) x && nleb x (num_of_Z 599).

Definition parseStatusCodeMappingTarget (rawValue : jsval) : option num :=
  match rawValue with
  | VNum n => if is_integer n then if in_codes n then Some n else None else None
  | VStr s =>
      let normalized := trim s in
      if three_digits normalized
      then let code := code_of normalized in if in_codes code then Some code else None
      else None
  | _ => None
  end.

(** The entries of a mapping; none when it is blank, not JSON or not an object. *)
Definition mapping_entries (statusCodeMappingStr : jsstr) : obj :=
  if truthy_str (trim statusCodeMappingStr) then
    match json_parse statusCodeMappingStr with Some (VObj o) => o | _ => [] end
  else [].

Definition invalid_entry (kv : jsstr * jsval) : bool :=
  match parseStatusCodeKey (fst kv), parseStatusCodeMappingTarget (snd kv) with
  | Some _, Some _ => false
  | _, _ => true
  end.

Definition collectInvalidStatusCodeEntries (statusCodeMappingStr : jsstr) : list jsstr :=
  (fun kv => fst kv ++ js " → " ++ to_string (snd kv))
    <$> filterb invalid_entry (mapping_entries statusCodeMappingStr).

(** [NON_REDIRECTABLE_STATUS_CODES.has(code)] *)
Definition non_redirectable (code : num) : bool := neqb code (num_of_Z 504) || neqb code (num_of_Z 524).

Definition risky_entry (kv : jsstr * jsval) : option jsstr :=
  match parseStatusCodeKey (fst kv), parseStatusCodeMappingTarget (snd kv) with
  | Some fromCode, Some toCode =>
      if negb (non_redirectable fromCode) then None
      else if neqb fromCode toCode then None
      else Some (num_to_string fromCode ++ js " -> " ++ num_to_string toCode)
  | _, _ => None
  end.

Definition collectDisallowedStatusCodeRedirects (statusCodeMappingStr : jsstr) : list jsstr :=
  js_sort units_after (uniq (omap risky_entry (mapping_entries statusCodeMappingStr))).

Definition collectNewDisallowedStatusCodeRedirects (originalStr currentStr : jsstr) : list jsstr :=
  let currentRisky := collectDisallowedStatusCodeRedirects currentStr in
  let originalRiskySet := uniq (collectDisallowedStatusCodeRedirects originalStr) in
  filterb (fun mapping => negb (bool_decide (mapping ∈ originalRiskySet))) currentRisky.

(** ** The save button *)

Inductive MissingModelsAction := cancel | submit | add.

(** The values the form was opened with. *)
Record Initial := { initialModels : list jsstr; initialModelMapping : jsstr; initialStatusCodeMapping : jsstr }.

(** Why a form is not sent, or what is sent. *)
Inductive SubmitResult :=
  | RequiredKey
  | InvalidStatusCodes (entries : list jsstr)
  | RiskDeclined (redirects : list jsstr)
  | InvalidMapping (message : option jsstr)
  | MissingDeclined (models : list jsstr)
  | Mutate (data : obj).

Section Submit.

Context (isEditing : bool) (initial : Initial).

(** The user's answers: to the list of risky redirects, and to that of the missing models. *)
Context (confirmStatusCodeRisk : list jsstr -> bool).
Context (confirmMissingModelMappings : list jsstr -> MissingModelsAction).

(** A text field of the form. *)
Definition text_field (k : jsstr) (data : obj) : jsstr := match at_ k data with VStr s => s | _ => [] end.

(** From the normalisation of the models on. *)
Definition submit_models (data : obj) : SubmitResult :=
  let model_mapping := text_field (js "model_mapping") data in
  let normalizedModels := parseModelsString (text_field (js "models") data) in
  if truthy_str (trim model_mapping) then
    let missingModels := findMissingModelsInMapping model_mapping normalizedModels in
    let shouldPromptMissing :=
      negb (length missingModels =? 0)%nat &&
      hasModelConfigChanged normalizedModels model_mapping (initialModels initial) (initialModelMapping initial) in
    if shouldPromptMissing then
      match confirmMissingModelMappings missingModels with
      | cancel => MissingDeclined missingModels
      | add =>
          let updatedModels := uniq (normalizedModels ++ missingModels) in
          Mutate (oset (js "models") (VStr (formatModelsArray updatedModels)) data)
      | submit => Mutate data
      end
    else Mutate data
  else Mutate data.

(** The check of the model mapping, and what follows. *)
Definition submit_mapping (data : obj) : SubmitResult :=
  let model_mapping := text_field (js "model_mapping") data in
  if truthy_str (trim model_mapping) then
    let validation := validateModelMappingJson model_mapping in
    if negb (valid validation) then InvalidMapping (error validation) else submit_models data
  else submit_models data.

Definition onSubmit (data : obj) : SubmitResult :=
  if negb isEditing && negb (truthy_str (trim (text_field (js "key") data))) then RequiredKey
  else
    let status_code_mapping := text_field (js "status_code_mapping") data in
    if truthy_str (trim status_code_mapping) then
      match collectInvalidStatusCodeEntries status_code_mapping with
      | [] =>
          match collectNewDisallowedStatusCodeRedirects (initialStatusCodeMapping initial) status_code_mapping with
          | [] => submit_mapping data
          | riskyRedirects =>
              if confirmStatusCodeRisk riskyRedirects then submit_mapping data else RiskDeclined riskyRedirects
          end
      | invalidEntries => InvalidStatusCodes invalidEntries
      end
    else submit_mapping data.

End Submit.

(** ** The request ([useChannelMutateForm]) *)

Inductive Request := UpdateChannel (id : num) (payload : obj) | CreateChannel (payload : CreatePayload).

(** [mutationFn] up to the request; [Throw] when the settings of the form do. *)
Definition mutation_request (currentRow : option num) (isMultiKeyChannel : bool) (data : obj) : outcome Request :=
  match currentRow with
  | Some id =>
      let! payload := transformFormDataToUpdatePayload data id in
      Return (UpdateChannel id
        (if isMultiKeyChannel && truthy (at_ (js "key_mode") data)
         then oset (js "key_mode") (at_ (js "key_mode") data) payload else payload))
  | None => let! payload := transformFormDataToCreatePayload data in Return (CreateChannel payload)
  end.

(** The reference values stored when the drawer opens. *)
Definition initial_of (channel : option obj) : Initial :=
  match channel with
  | Some c => {| initialModels := parseModelsString (text_field (js "models") c);
                 initialModelMapping := text_field (js "model_mapping") c;
                 initialStatusCodeMapping := text_field (js "status_code_mapping") c |}
  | None => {| initialModels := []; initialModelMapping := []; initialStatusCodeMapping := [] |}
  end.

Example invalid_ex :
  collectInvalidStatusCodeEntries (js "{'0x1F8': 500, '404': 99, ' 429 ': '500', '504': 504.0}" ≫= fun c => if c =? 39 then [34] else [c])
  = [js "404 → 99"; js "0x1F8 → 500"].
Proof. vm_compute. reflexivity. Qed.

Example risky_ex :
  collectDisallowedStatusCodeRedirects (js "{'524': '500', '504': 5e2, ' 504': 500, '504 ': 504, '404': 500}" ≫= fun c => if c =? 39 then [34] else [c])
  = [js "504 -> 500"; js "524 -> 500"].
Proof. vm_compute. reflexivity. Qed.

(** ** The guard: what it finds *)

(** An entry redirects a code to another. *)
Definition redirects (mapping : jsstr) (from to : num) : Prop :=
  exists kv, kv ∈ mapping_entries mapping /\
    parseStatusCodeKey (fst kv) = Some from /\ parseStatusCodeMappingTarget (snd kv) = Some to.

(** A redirect the guard asks about, as it shows it. *)
Definition risky (mapping w : jsstr) : Prop :=
  exists from to, redirects mapping from to /\ non_redirectable from = true /\ neqb from to = false /\
    w = num_to_string from ++ js " -> " ++ num_to_string to.

Lemma disallowed_risky mapping w : w ∈ collectDisallowedStatusCodeRedirects mapping <-> risky mapping w.
Proof.
  unfold collectDisallowedStatusCodeRedirects. rewrite js_sort_perm, uniq_elem, list_elem_of_omap.
  unfold risky, redirects, risky_entry. split.
  - intros (kv & Hin & H). destruct (parseStatusCodeKey (fst kv)) as [from|] eqn:E1; [|done].
    destruct (parseStatusCodeMappingTarget (snd kv)) as [to|] eqn:E2; [|done].
    destruct (non_redirectable from) eqn:E3; [|done]. destruct (neqb from to) eqn:E4; [done|].
    cbn in H. simplify_eq. exists from, to. split_and!; try done. by exists kv.
  - intros (from & to & (kv & Hin & E1 & E2) & E3 & E4 & ->). exists kv. split; [done|].
    by rewrite E1, E2, E3, E4.
Qed.

Lemma new_disallowed original current w :
  w ∈ collectNewDisallowedStatusCodeRedirects original current <-> risky current w /\ ~ risky original w.
Proof.
  unfold collectNewDisallowedStatusCodeRedirects.
  rewrite elem_of_filterb, negb_true_iff, bool_decide_eq_false, uniq_elem, !disallowed_risky. tauto.
Qed.

Lemma no_invalid mapping :
  collectInvalidStatusCodeEntries mapping = [] ->
  forall kv, kv ∈ mapping_entries mapping ->
    is_Some (parseStatusCodeKey (fst kv)) /\ is_Some (parseStatusCodeMappingTarget (snd kv)).
Proof.
  unfold collectInvalidStatusCodeEntries. intros H%fmap_nil_inv kv Hin.
  assert (Hi : kv ∉ filterb invalid_entry (mapping_entries mapping)) by (rewrite H; apply not_elem_of_nil).
  rewrite elem_of_filterb in Hi. unfold invalid_entry in Hi.
  destruct (parseStatusCodeKey (fst kv)), (parseStatusCodeMappingTarget (snd kv)); try (by exfalso; apply Hi); eauto.
Qed.

(** ** The model list *)

Lemma join_member c l m : m ∈ l -> c ∉ m -> m ∈ split_char c (join [c] l).
Proof.
  intros Hin Hc. induction l as [|w l IH]; [by apply elem_of_nil in Hin|]. destruct l as [|w' l].
  - apply elem_of_cons in Hin as [->|Hin]; [|by apply elem_of_nil in Hin]. cbn [join].
    rewrite split_char_no_sep by done. apply list_elem_of_here.
  - rewrite join_cons by done. change ([c] ++ join [c] (w' :: l)) with (c :: join [c] (w' :: l)).
    rewrite split_char_app, elem_of_app. apply elem_of_cons in Hin as [->|Hin]; [left|right; by apply IH].
    rewrite split_char_no_sep by done. apply list_elem_of_here.
Qed.

(** A clean name of the list is in the field that is written. *)
Lemma parse_format_member l m : m ∈ l -> clean_name m -> m ∈ parseModelsString (formatModelsArray l).
Proof.
  intros Hin (Hne & Ht & Hc). unfold parseModelsString, formatModelsArray. change (js ",") with [44].
  assert (Hm : m ∈ split_char 44 (join [44] (uniq l))) by (apply join_member; [by apply uniq_elem|done]).
  destruct (truthy_str (join [44] (uniq l))) eqn:E.
  - apply elem_of_filter_truthy. split; [done|]. apply list_elem_of_fmap. exists m. split; [by rewrite trim_id|done].
  - exfalso. destruct (join [44] (uniq l)); [|done]. cbn in Hm. by apply elem_of_cons in Hm as [->|Hm%elem_of_nil].
Qed.

Lemma validate_valid mapping :
  valid (validateModelMappingJson mapping) = true ->
  blank mapping = true \/ exists o, json_parse mapping = Some (VObj o) /\ string_values o.
Proof.
  unfold validateModelMappingJson. destruct (blank mapping); [by left|right].
  destruct (json_parse mapping) as [[| | | | | |o]|]; try done.
  destruct (existsb _ _) eqn:E; [done|]. exists o. split; [done|]. intros v Hv.
  destruct v; try (exfalso; apply not_true_iff_false in E; apply E, existsb_elem; eexists; split; [exact Hv|done]). eauto.
Qed.

(** ** What a saved form satisfies *)

Section Saved.
Context (isEditing : bool) (initial : Initial).
Context (askRisk : list jsstr -> bool) (askMissing : list jsstr -> MissingModelsAction).

Abbreviation onSubmit := (onSubmit isEditing initial askRisk askMissing).
Abbreviation submit_mapping := (submit_mapping initial askMissing).
Abbreviation submit_models := (submit_models initial askMissing).

(** The status codes: plain three-digit codes, and no redirect of a timeout that is new and
    was not confirmed. *)
Definition codes_accepted (mapping : jsstr) : Prop :=
  (forall kv, kv ∈ mapping_entries mapping ->
     is_Some (parseStatusCodeKey (fst kv)) /\ is_Some (parseStatusCodeMappingTarget (snd kv))) /\
  ((forall w, risky mapping w -> risky (initialStatusCodeMapping initial) w) \/
   (askRisk (collectNewDisallowedStatusCodeRedirects (initialStatusCodeMapping initial) mapping) = true)).

(** The model mapping: blank or an object of texts. *)
Definition mapping_accepted (mapping : jsstr) : Prop :=
  trim mapping = [] \/ exists o, json_parse mapping = Some (VObj o) /\ string_values o.

(** The models: each name the mapping reads is among those saved, unless the configuration
    was not changed or the user chose to save without it; a name with a comma cannot be. *)
Definition models_accepted (mapping : jsstr) (models models' : list jsstr) : Prop :=
  trim mapping = [] \/
  hasModelConfigChanged models mapping (initialModels initial) (initialModelMapping initial) = false \/
  askMissing (findMissingModelsInMapping mapping models) = submit \/
  forall m, mapping_key mapping m -> 44 ∉ m -> m ∈ models'.

Lemma blank_trim mapping : truthy_str (trim mapping) = true -> blank mapping = false.
Proof.
  intros H. unfold blank. apply orb_false_iff. split.
  - destruct mapping; [done|reflexivity].
  - apply bool_decide_eq_false_2. by intros E; rewrite E in H.
Qed.

Lemma clean_names models m : m ∈ names (parseModelsString models) -> m ∈ parseModelsString models.
Proof.
  unfold names. intros (k & Hk & Hin)%list_elem_of_fmap.
  pose proof (proj1 (Forall_forall _ _) (parseModelsString_clean models) _ Hin) as (_ & Ht & _).
  by rewrite Hk, trim_id.
Qed.

Lemma submit_models_spec data data' :
  submit_models data = Mutate data' ->
  models_accepted (text_field (js "model_mapping") data) (parseModelsString (text_field (js "models") data))
    (parseModelsString (text_field (js "models") data')) /\
  (forall m, m ∈ parseModelsString (text_field (js "models") data) ->
     m ∈ parseModelsString (text_field (js "models") data')) /\
  (forall k, k <> js "models" -> at_ k data' = at_ k data).
Proof.
  unfold ChannelSubmit.submit_models. cbv zeta. set (mapping := text_field (js "model_mapping") data).
  set (models := parseModelsString (text_field (js "models") data)).
  destruct (truthy_str (trim mapping)) eqn:Et.
  2: { intros [= <-]. split_and!; [left|done|done]. by destruct (trim mapping). }
  set (missing := findMissingModelsInMapping mapping models).
  assert (Hkey : forall m, mapping_key mapping m -> m ∉ missing -> m ∈ models).
  { intros m Hm Hn. apply clean_names. destruct (decide (m ∈ names models)) as [|Hnn]; [done|]. exfalso.
    apply Hn, missing_spec. split; [by apply blank_trim|]. by split. }
  destruct (length missing =? 0)%nat eqn:El; cbn [negb andb].
  { apply Nat.eqb_eq, length_zero_iff_nil in El. intros [= <-]. split_and!; [|done|done].
    do 3 right. intros m Hm _. apply Hkey; [done|]. rewrite El. apply not_elem_of_nil. }
  destruct (hasModelConfigChanged _ _ _ _) eqn:Ec.
  2: { intros [= <-]. split_and!; [by right; left|done|done]. }
  destruct (askMissing missing) eqn:Ea; [done|intros [= <-]; split_and!; [by right; right; left|done|done]|].
  intros [= <-].
  assert (Hfield : text_field (js "models") (oset (js "models") (VStr (formatModelsArray (uniq (models ++ missing)))) data)
                   = formatModelsArray (uniq (models ++ missing))).
  { unfold text_field. by rewrite at_oget, oget_oset_eq. }
  rewrite Hfield.
  assert (Hclean : forall m, m ∈ models -> clean_name m).
  { intros m Hm. by apply (proj1 (Forall_forall _ _) (parseModelsString_clean _) _ Hm). }
  assert (Hkept : forall m, m ∈ models -> m ∈ parseModelsString (formatModelsArray (uniq (models ++ missing)))).
  { intros m Hm. apply parse_format_member; [|by apply Hclean]. apply uniq_elem, elem_of_app. by left. }
  split_and!; [|done|].
  - do 3 right. intros m Hm Hcomma. destruct (decide (m ∈ missing)) as [Hin|Hn]; [|by apply Hkept, Hkey].
    apply parse_format_member; [apply uniq_elem, elem_of_app; by right|].
    destruct Hm as (o & k & _ & _ & <- & Hne). split_and!; [done|apply trim_trimmed|done].
  - intros k Hk. by rewrite !at_oget, oget_oset_ne.
Qed.

Lemma submit_mapping_spec data data' :
  submit_mapping data = Mutate data' ->
  mapping_accepted (text_field (js "model_mapping") data) /\ submit_models data = Mutate data'.
Proof.
  unfold ChannelSubmit.submit_mapping. cbv zeta. set (mapping := text_field (js "model_mapping") data).
  destruct (truthy_str (trim mapping)) eqn:Et.
  - destruct (valid (validateModelMappingJson mapping)) eqn:Ev; cbn [negb]; [|done]. intros H. split; [|done].
    right. apply validate_valid in Ev as [Hb|Ho]; [by rewrite (blank_trim _ Et) in Hb|done].
  - intros H. split; [|done]. left. by destruct (trim mapping).
Qed.

Lemma onSubmit_spec data data' :
  onSubmit data = Mutate data' ->
  (isEditing = true \/ trim (text_field (js "key") data) <> []) /\
  codes_accepted (text_field (js "status_code_mapping") data) /\ submit_mapping data = Mutate data'.
Proof.
  unfold ChannelSubmit.onSubmit. cbv zeta. set (codes := text_field (js "status_code_mapping") data).
  destruct (negb isEditing && negb (truthy_str (trim (text_field (js "key") data)))) eqn:Ek; [done|].
  assert (Hk : isEditing = true \/ trim (text_field (js "key") data) <> []).
  { apply andb_false_iff in Ek as [Ek|Ek]; apply negb_false_iff in Ek; [by left|right; by apply truthy_str_spec]. }
  destruct (truthy_str (trim codes)) eqn:Et.
  2: { intros H. split_and!; [done| |done].
       assert (E : mapping_entries codes = []) by (unfold mapping_entries; by rewrite Et). split.
       - intros kv Hin. rewrite E in Hin. by apply elem_of_nil in Hin.
       - left. intros w (from & to & (kv & Hin & _) & _). rewrite E in Hin. by apply elem_of_nil in Hin. }
  destruct (collectInvalidStatusCodeEntries codes) eqn:Ei; [|done]. pose proof (no_invalid _ Ei) as Hvalid.
  destruct (collectNewDisallowedStatusCodeRedirects _ _) as [|w l] eqn:En.
  - intros H. split_and!; [done| |done]. split; [done|]. left. intros w Hw.
    destruct (decide (w ∈ collectDisallowedStatusCodeRedirects (initialStatusCodeMapping initial))) as [Hin|Hn].
    + by apply disallowed_risky.
    + exfalso. assert (Hnew : w ∈ collectNewDisallowedStatusCodeRedirects (initialStatusCodeMapping initial) codes)
        by (apply new_disallowed; split; [done|]; intros Hr; apply Hn; by apply disallowed_risky).
      rewrite En in Hnew. by apply elem_of_nil in Hnew.
  - destruct (askRisk (w :: l)) eqn:Er; [|done]. intros H. split_and!; [done| |done]. split; [done|].
    right. by rewrite En.
Qed.

End Saved.

(** C17. What is sent was checked or confirmed: when the save button leads to a request, a new
    channel has a key, the status code mapping holds plain codes only and no timeout
    redirect that was not there before and not confirmed by the user, the model mapping is
    blank or an object of texts, and every model it reads is among the models sent unless
    nothing was changed or the user said so; only the list of models may differ from the
    form, by the names added. *)
Theorem saved_form_checked isEditing initial askRisk askMissing data data'
    (H : onSubmit isEditing initial askRisk askMissing data = Mutate data') :
  (isEditing = true \/ trim (text_field (js "key") data) <> []) /\
  codes_accepted initial askRisk (text_field (js "status_code_mapping") data') /\
  mapping_accepted (text_field (js "model_mapping") data') /\
  models_accepted initial askMissing (text_field (js "model_mapping") data')
    (parseModelsString (text_field (js "models") data)) (parseModelsString (text_field (js "models") data')) /\
  (forall m, m ∈ parseModelsString (text_field (js "models") data) ->
     m ∈ parseModelsString (text_field (js "models") data')) /\
  (forall k, k <> js "models" -> at_ k data' = at_ k data).
Proof.
  apply onSubmit_spec in H as (Hk & Hc & H). apply submit_mapping_spec in H as (Hm & H).
  apply submit_models_spec in H as (Hmod & Hkept & Hsame).
  assert (Hf : forall k, k <> js "models" -> text_field k data' = text_field k data).
  { intros k Hne. unfold text_field. by rewrite Hsame. }
  rewrite !Hf by done. split_and!; done.
Qed.

(** ** A new channel *)

Definition quoted (s : jsstr) : jsstr := s ≫= fun c => if c =? 39 then dq else [c].

Definition new_channel : obj :=
  [(js "key", VStr (js "sk-1")); (js "models", VStr (js "gpt-4o"));
   (js "model_mapping", VStr (quoted (js "{'gpt-4':'gpt-4o'}")));
   (js "status_code_mapping", VStr (quoted (js "{'504':'500'}")))].

Definition say_yes (shown : list jsstr) : bool := true.
Definition say_add (missing : list jsstr) : MissingModelsAction := add.

Example new_channel_saved :
  onSubmit false (initial_of None) say_yes say_add new_channel
  = Mutate (oset (js "models") (VStr (js "gpt-4o,gpt-4")) new_channel).
Proof. vm_compute. reflexivity. Qed.

Example risk_declined :
  onSubmit false (initial_of None) (fun _ => false) say_add new_channel = RiskDeclined [js "504 -> 500"].
Proof. vm_compute. reflexivity. Qed.

(** A redirect that was there before is not asked about. *)
Example old_redirect_kept :
  onSubmit true (initial_of (Some new_channel)) (fun _ => false) say_add new_channel = Mutate new_channel.
Proof. vm_compute. reflexivity. Qed.

(** A name with a comma is split when it is added, and missing still. *)
Example comma_name_missing :
  let mapping := quoted (js "{'a,b':'gpt-4o'}") in
  let models := parseModelsString (formatModelsArray (uniq ([js "gpt-4o"] ++ findMissingModelsInMapping mapping [js "gpt-4o"]))) in
  models = [js "gpt-4o"; js "a"; js "b"] /\ findMissingModelsInMapping mapping models = [js "a,b"].
Proof. by vm_compute. Qed.

Lemma saved_form_checked_witness :
  let data' := oset (js "models") (VStr (js "gpt-4o,gpt-4")) new_channel in
  codes_accepted (initial_of None) say_yes (text_field (js "status_code_mapping") data') /\
  mapping_accepted (text_field (js "model_mapping") data').
Proof.
  pose proof (saved_form_checked false (initial_of None) say_yes say_add new_channel _ new_channel_saved) as H.
  exact (conj (proj1 (proj2 H)) (proj1 (proj2 (proj2 H)))).
Defined.
