(* ===== verification/ModelPrices.v ===== *)
(** * Prices of the model square ([features/pricing/lib/price.ts],
      [features/pricing/lib/dynamic-price.ts], [features/pricing/types.ts])

    What the public list of models and the page of a model show as prices: per token from
    the ratios of the model and of the groups, per request, or from a billing expression.
    The currency and its formatting are those of [Currency]. *)

From S2P Require Import Prelude JsString JsRegex JsNumber JsValue JsJson JsSort.
From S2P Require Import ModelPricing BillingVars RequestRules Currency FloatError.

#[local] Open Scope Z_scope.
#[local] Open Scope outcome_scope.

(** ** Models *)

(** The fields the code reads; null and undefined numbers are both None. *)
Inductive PricingModel := {
  pm_id : num; model_name : jsstr; description : option jsstr; vendor_name : option jsstr;
  quota_type : num; model_ratio : num; completion_ratio : num; model_price : option num;
  cache_ratio : option num; create_cache_ratio : option num; image_ratio : option num;
  audio_ratio : option num; audio_completion_ratio : option num;
  enable_groups : option (list jsstr); tags : option jsstr;
  supported_endpoint_types : option (list jsstr);
  group_ratio : option (list (jsstr * num));
  billing_mode : option jsstr; request_unit : option jsstr; billing_expr : option jsstr;
  display_name : option jsstr; model_aliases : option (list jsstr);
  pricing_variants : option (list PricingModel) }.

Inductive TokenUnit := M | K.

Inductive PriceType := p_input | p_output | p_cache | p_create_cache | p_image | p_audio_input | p_audio_output.

(** [QUOTA_TYPE_VALUES], [TOKEN_UNIT_DIVISORS] *)
Definition TOKEN : num := num_of_Z 0.
Definition REQUEST : num := num_of_Z 1.
Definition TOKEN_UNIT_DIVISORS (u : TokenUnit) : num := match u with M => num_of_Z 1 | K => num_of_Z 1000 end.

(** ** Comparing prices *)

(** [v ?? null] and [v ?? ''] *)
Definition or_null (v : option num) : jsval := match v with Some n => VNum n | None => VNull end.
Definition or_empty (v : option jsstr) : jsval := VStr (default [] v).

Definition pricing_row (m : PricingModel) : jsval :=
  VArr [ VNum (quota_type m); VNum (model_ratio m); VNum (completion_ratio m); or_null (model_price m);
         or_empty (billing_mode m); or_empty (billing_expr m); or_null (cache_ratio m);
         or_null (create_cache_ratio m); or_null (image_ratio m); or_null (audio_ratio m);
         or_null (audio_completion_ratio m); or_empty (request_unit m) ].

Definition getPricingSignature (m : PricingModel) : jsstr := ser (pricing_row m).

(** ** Texts of prices *)

Definition re_price : regex := Eval vm_compute in re "^([^\d-]*)([-\d,]+\.?\d*)(k?)$".
Definition re_zeros : regex := Eval vm_compute in re "\.?0+$".

Definition stripTrailingZeros (formatted : jsstr) : jsstr :=
  match exec re_price formatted with
  | None => formatted
  | Some c =>
      let symbol := default [] (cap 1 c) in
      let number := default [] (cap 2 c) in
      let suffix := default [] (cap 3 c) in
      let cleanNumber := filterb (fun u => negb (u =? 44)%N) number in
      let parsed := parse_float cleanNumber in
      if is_nan parsed then formatted
      else
        let result := num_to_string parsed in
        let result := if includes (js "e") result then replace_first re_zeros [] (to_fixed 20 parsed) else result in
        symbol ++ result ++ suffix
  end.

(** ** Ratios *)

(** One turn of the loop over the groups. *)
Definition lower_ratio (groupRatio : list (jsstr * num)) (minRatio : num) (group : jsstr) : num :=
  match assoc group groupRatio with
  | Some r => if nltb r minRatio then r else minRatio
  | None => minRatio
  end.

Definition getMinGroupRatio (enableGroups : list jsstr) (groupRatio : list (jsstr * num)) : num :=
  match enableGroups with
  | [] => num_of_Z 1
  | _ =>
      let minRatio := fold_left (lower_ratio groupRatio) enableGroups (S754_infinity false) in
      if neqb minRatio (S754_infinity false) then num_of_Z 1 else minRatio
  end.

Definition hasRatio (value : option num) : bool :=
  match value with Some n => is_finite n | None => false end.

Definition calculateTokenPrice (model : PricingModel) (type : PriceType) (ratio : num) : num :=
  let base := nmul (nmul (model_ratio model) (num_of_Z 2)) ratio in
  let with_ratio r := if hasRatio r then nmul base (default NaN r) else NaN in
  match type with
  | p_input => base
  | p_output => nmul base (completion_ratio model)
  | p_cache => with_ratio (cache_ratio model)
  | p_create_cache => with_ratio (create_cache_ratio model)
  | p_image => with_ratio (image_ratio model)
  | p_audio_input => with_ratio (audio_ratio model)
  | p_audio_output =>
      if hasRatio (audio_ratio model) && hasRatio (audio_completion_ratio model)
      then nmul (nmul base (default NaN (audio_ratio model))) (default NaN (audio_completion_ratio model))
      else NaN
  end.

Definition applyRechargeRate (price : num) (showWithRecharge : bool) (priceRate usdExchangeRate : num) : num :=
  if negb showWithRecharge then price else ndiv (nmul price priceRate) usdExchangeRate.

(** [(model.group_ratio || {})], [Array.isArray(g) ? g : []] *)
Definition ratios_of (m : PricingModel) : list (jsstr * num) := default [] (group_ratio m).
Definition groups_of (m : PricingModel) : list jsstr := default [] (enable_groups m).

Section Format.

Context (intl : option jsstr -> nat -> num -> jsstr) (stored : option StoredCurrency).

Definition fixed_digits (large small : nat) : option CurrencyFormatOptions :=
  Some {| o_digitsLarge := Some large; o_digitsSmall := Some small; o_abbreviate := Some false; o_minimumNonZero := None |}.

(** The recharge display: whether it is on, and its two rates. *)
Context (showWithRecharge : bool) (priceRate usdExchangeRate : num).

(** The price of tokens at a ratio of a group, as shown. *)
Definition token_price_text (model : PricingModel) (type : PriceType) (tokenUnit : TokenUnit) (ratio : num) : jsstr :=
  let priceInUSD := applyRechargeRate (calculateTokenPrice model type ratio) showWithRecharge priceRate usdExchangeRate in
  formatCurrencyFromUSD intl stored (Some (ndiv priceInUSD (TOKEN_UNIT_DIVISORS tokenUnit))) (fixed_digits 4 6).

Definition formatPrice (model : PricingModel) (type : PriceType) (tokenUnit : TokenUnit) : jsstr :=
  if neqb (quota_type model) REQUEST then js "-"
  else token_price_text model type tokenUnit (getMinGroupRatio (groups_of model) (ratios_of model)).

Definition formatGroupPrice (model : PricingModel) (group : jsstr) (type : PriceType) (tokenUnit : TokenUnit)
    (groupRatio : list (jsstr * num)) : jsstr :=
  if neqb (quota_type model) REQUEST then js "-"
  else token_price_text model type tokenUnit (default (num_of_Z 1) (assoc group groupRatio)).

(** ** Prices per request *)

Context (translate : option (jsstr -> jsstr)).

(** A unit that is a text or missing has a label: the reader does not throw. *)
Definition unit_label (t : jsstr -> jsstr) (unitKey : option jsstr) : jsstr :=
  match formatRequestUnitLabel (match unitKey with Some u => VStr u | None => VUndef end) t with
  | Return l => l
  | Throw => []
  end.

Definition appendRequestUnitSuffix (formatted : jsstr) (model : PricingModel) : jsstr :=
  if bool_decide (billing_mode model = Some (js "per_second")) then
    formatted ++ js "/" ++ match translate with Some t => t (js "billingUnit.second") | None => js "s" end
  else
    let unitKey := trim <$> request_unit model in
    let showUnit :=
      bool_decide (billing_mode model = Some (js "per_request")) || truthy_str (default [] unitKey)
      || neqb (quota_type model) REQUEST in
    if negb showUnit then formatted
    else formatted ++ js "/" ++ match translate with
                                | Some t => unit_label t unitKey
                                | None => or_str (default [] unitKey) (js "request")
                                end.

(** The price of a request at a ratio of a group, as shown. *)
Definition request_price_text (model : PricingModel) (ratio : num) : jsstr :=
  let priceInUSD :=
    applyRechargeRate (nmul (or_zero (default NaN (model_price model))) ratio) showWithRecharge priceRate usdExchangeRate in
  appendRequestUnitSuffix (formatCurrencyFromUSD intl stored (Some priceInUSD) (fixed_digits 4 4)) model.

Definition formatFixedPrice (model : PricingModel) (group : jsstr) (groupRatio : list (jsstr * num)) : jsstr :=
  if negb (neqb (quota_type model) REQUEST) then js "-"
  else request_price_text model (default (num_of_Z 1) (assoc group groupRatio)).

Definition formatRequestPrice (model : PricingModel) : jsstr :=
  if negb (neqb (quota_type model) REQUEST) then js "-"
  else request_price_text model (getMinGroupRatio (groups_of model) (ratios_of model)).

Definition formatModelPrimaryPrice (model : PricingModel) (tokenUnit : TokenUnit) : jsstr :=
  if neqb (quota_type model) REQUEST then formatRequestPrice model
  else formatPrice model p_input tokenUnit ++ js " / " ++ formatPrice model p_output tokenUnit ++ js " · "
       ++ match tokenUnit with K => js "1K" | M => js "1M" end.

End Format.

(** ** Dynamic prices *)

Definition isDynamicPricingModel (model : PricingModel) : bool :=
  bool_decide (billing_mode model = Some (js "tiered_expr")) && truthy_str (default [] (billing_expr model)).

Definition getDynamicDisplayGroupRatio (model : PricingModel) : num :=
  match groups_of model with
  | [] => num_of_Z 1
  | groups =>
      let minRatio := fold_left (lower_ratio (ratios_of model)) groups (S754_infinity false) in
      if neqb minRatio (S754_infinity false) then num_of_Z 1 else minRatio
  end.

Record DynamicPriceOptions := {
  tokenUnit : TokenUnit; showRechargePrice : option bool; o_priceRate : option num;
  o_usdExchangeRate : option num; groupRatioMultiplier : option num }.

Record DynamicPriceEntry := {
  e_key : jsstr; e_field : jsstr; e_label : jsstr; e_shortLabel : jsstr; e_value : num;
  e_formatted : jsstr; e_variable : BillingVar }.

Record DynamicPricingSummary := {
  d_tiers : list ParsedTier; d_tier : option ParsedTier; tierCount : nat; d_hasRequestRules : bool;
  isSpecialExpression : bool; rawExpression : jsstr;
  entries : list DynamicPriceEntry; primaryEntries : list DynamicPriceEntry;
  secondaryEntries : list DynamicPriceEntry }.

(** [PRIMARY_DYNAMIC_FIELDS.has(field)] *)
Definition is_primary (e : DynamicPriceEntry) : bool :=
  bool_decide (e_field e ∈ [js "inputPrice"; js "outputPrice"]).

Definition getDynamicPricingTiers (model : PricingModel) : outcome (list ParsedTier) :=
  if negb (isDynamicPricingModel model) then Return []
  else
    let! parts := splitBillingExprAndRequestRules (default [] (billing_expr model)) in
    Return (parseTiersFromExpr (RequestRules.billingExpr parts)).

Definition hasDynamicRequestRules (model : PricingModel) : outcome bool :=
  if negb (isDynamicPricingModel model) then Return false
  else
    let! parts := splitBillingExprAndRequestRules (default [] (billing_expr model)) in
    let! rules := tryParseRequestRuleExpr (RequestRules.requestRuleExpr parts) in
    Return (match rules with Some (_ :: _) => true | _ => false end).

Section DynamicFormat.

Context (intl : option jsstr -> nat -> num -> jsstr) (stored : option StoredCurrency).

Definition formatDynamicUnitPrice (valuePerMillionTokens : num) (options : DynamicPriceOptions) : jsstr :=
  let groupRatio := default (num_of_Z 1) (groupRatioMultiplier options) in
  let priceRate := default (num_of_Z 1) (o_priceRate options) in
  let usdExchangeRate := default (num_of_Z 1) (o_usdExchangeRate options) in
  let priceUSD := ndiv (nmul valuePerMillionTokens groupRatio) (TOKEN_UNIT_DIVISORS (tokenUnit options)) in
  let displayPrice := applyRechargeRate priceUSD (default false (showRechargePrice options)) priceRate usdExchangeRate in
  formatBillingCurrencyFromUSD intl stored (Some displayPrice) (fixed_digits 4 6).

(** The entries of a variable: one, or none without a positive price. *)
Definition dynamic_entry (tier : ParsedTier) (options : DynamicPriceOptions) (variable : BillingVar) : option DynamicPriceEntry :=
  match field variable with
  | None | Some [] => None
  | Some f =>
      let value := default NaN (assoc f (pt_fields tier)) in
      if negb (is_finite value) || nleb value zero then None
      else Some {| e_key := key variable; e_field := f; e_label := label variable; e_shortLabel := shortLabel variable;
                   e_value := value; e_formatted := formatDynamicUnitPrice value options; e_variable := variable |}
  end.

(** Of an entry and another: a later one that is primary comes before. *)
Definition entry_after (a b : DynamicPriceEntry) : bool := negb (is_primary a) && is_primary b.

Definition getDynamicPriceEntries (tier : option ParsedTier) (options : DynamicPriceOptions) : list DynamicPriceEntry :=
  match tier with
  | None => []
  | Some tier => js_sort entry_after (omap (dynamic_entry tier options) BILLING_PRICING_VARS)
  end.

Definition getDynamicPricingSummary (model : PricingModel) (options : DynamicPriceOptions)
    : outcome (option DynamicPricingSummary) :=
  if negb (isDynamicPricingModel model) then Return None
  else
    let! tiers := getDynamicPricingTiers model in
    let tier := head tiers in
    let entries := getDynamicPriceEntries tier options in
    let rawExpression := default [] (billing_expr model) in
    let! rules := hasDynamicRequestRules model in
    Return (Some {|
      d_tiers := tiers; d_tier := tier; tierCount := length tiers; d_hasRequestRules := rules;
      isSpecialExpression := truthy_str (trim rawExpression) && (length tiers =? 0)%nat;
      rawExpression := rawExpression; entries := entries;
      primaryEntries := filterb is_primary entries;
      secondaryEntries := filterb (fun e => negb (is_primary e)) entries |}).

End DynamicFormat.

(** ** The cheapest group *)

Section Cheapest.

Context (ratios : list (jsstr * num)).

(** What the loop holds: infinity, or the ratio of a group seen, below those of all seen. *)
Definition least (groups : list jsstr) (r : num) : Prop :=
  (r = S754_infinity false \/ exists g, g ∈ groups /\ assoc g ratios = Some r) /\
  forall g r', g ∈ groups -> assoc g ratios = Some r' -> nleb r r' = true.

Lemma assoc_in {A} k (v : A) (l : list (jsstr * A)) : assoc k l = Some v -> (k, v) ∈ l.
Proof.
  induction l as [|[j x] l IH]; simpl; [done|]. case_bool_decide as E.
  - intros [= ->]. subst. apply list_elem_of_here.
  - intros H. apply list_elem_of_further. auto.
Qed.

Context (Hfin : Forall (fun kv => is_finite (snd kv) = true) ratios).

Lemma ratio_finite g r : assoc g ratios = Some r -> is_finite r = true.
Proof. intros H%assoc_in. exact (proj1 (Forall_forall _ _) Hfin (g, r) H). Qed.

Lemma finite_not_nan r : is_finite r = true -> is_nan r = false.
Proof. by destruct r. Qed.

Lemma lower_ratio_least groups r g :
  least groups r -> least (groups ++ [g]) (lower_ratio ratios r g).
Proof.
  intros [H1 H2]. unfold lower_ratio. destruct (assoc g ratios) as [x|] eqn:E.
  - pose proof (finite_not_nan _ (ratio_finite _ _ E)) as Nx.
    assert (Nr : is_nan r = false).
    { destruct H1 as [->|(g0 & _ & E0)]; [done|]. by apply finite_not_nan, (ratio_finite g0). }
    rewrite (nltb_negb x r) by done. destruct (nleb r x) eqn:L; simpl; split.
    + destruct H1 as [H1|(g0 & Hg & E0)]; [by left|]. right. exists g0. split; [|done]. set_solver.
    + intros g' r' [Hg|Hg%list_elem_of_singleton]%elem_of_app E'; [by apply (H2 g')|]. subst. congruence.
    + right. exists g. split; [set_solver|done].
    + assert (Lx : nleb x r = true) by (apply nltb_nleb; rewrite nltb_negb, L; done).
      intros g' r' [Hg|Hg%list_elem_of_singleton]%elem_of_app E'.
      * apply (nleb_trans _ r); [done|]. by apply (H2 g').
      * subst. rewrite E in E'. injection E' as <-. by apply nleb_refl.
  - split.
    + destruct H1 as [H1|(g0 & Hg & E0)]; [by left|]. right. exists g0. split; [|done]. set_solver.
    + intros g' r' [Hg|Hg%list_elem_of_singleton]%elem_of_app E'; [by apply (H2 g')|]. subst. congruence.
Qed.

Lemma fold_least seen groups r :
  least seen r -> least (seen ++ groups) (fold_left (lower_ratio ratios) groups r).
Proof.
  revert seen r. induction groups as [|g groups IH]; intros seen r H; simpl; [by rewrite app_nil_r|].
  rewrite cons_middle, app_assoc. by apply IH, lower_ratio_least.
Qed.

(** The least ratio is the one some group is charged, one with an entry if there is any, and
    no group with an entry is charged less. *)
Lemma min_ratio_group groups :
  groups <> [] ->
  exists g, g ∈ groups /\ getMinGroupRatio groups ratios = default (num_of_Z 1) (assoc g ratios) /\
    (assoc g ratios = None -> forall g', g' ∈ groups -> assoc g' ratios = None) /\
    forall g' r', g' ∈ groups -> assoc g' ratios = Some r' ->
      nleb (getMinGroupRatio groups ratios) r' = true.
Proof.
  intros Hne. assert (H0 : least [] (S754_infinity false)) by (split; [by left|by intros ?? ?%not_elem_of_nil]).
  pose proof (fold_least [] groups _ H0) as [H1 H2]. simpl app in *.
  destruct groups as [|g0 groups]; [done|]. unfold getMinGroupRatio.
  destruct H1 as [E|(g & Hg & E)].
  - rewrite E in H2 |- *. exists g0. split; [set_solver|].
    assert (Hnone : forall g' r', g' ∈ g0 :: groups -> assoc g' ratios = Some r' -> False).
    { intros g' r' Hg' Er. pose proof (ratio_finite _ _ Er). specialize (H2 g' r' Hg' Er). by destruct r' as [| | |[]]. }
    destruct (assoc g0 ratios) as [r|] eqn:E0; [by destruct (Hnone g0 r); [set_solver|]|].
    split; [done|]. split; [|intros g' r' Hg' Er; by destruct (Hnone g' r')].
    intros _ g' Hg'. destruct (assoc g' ratios) as [r'|] eqn:Er; [by destruct (Hnone g' r')|done].
  - exists g. rewrite E. pose proof (ratio_finite _ _ E) as F.
    assert (neqb (fold_left (lower_ratio ratios) (g0 :: groups) (S754_infinity false)) (S754_infinity false) = false) as ->
      by (by destruct (fold_left _ _ _) as [| | |[]]).
    split_and!; [exact Hg|done|done|exact H2].
Qed.

End Cheapest.

Section ListPrice.

Context (intl : option jsstr -> nat -> num -> jsstr) (stored : option StoredCurrency).
Context (showWithRecharge : bool) (priceRate usdExchangeRate : num) (translate : option (jsstr -> jsstr)).

(** C35. The price in the list of models is the one of an enabled group with the least ratio
    among those that have an entry for it.  For a model with groups there is one of them for
    which the page of the model shows, for every kind of price and every unit, just what the
    list shows, and dynamic prices use the same ratio; it has an entry if any enabled group
    has one, and none with an entry has a smaller ratio.  An enabled group without an entry
    pays the plain price on the page of the model, and the list passes it over: the list's
    ratio is the least of all exactly when no such group is enabled or the list's ratio is at
    most one. *)
Theorem list_price_is_cheapest_group model
    (Hg : groups_of model <> [])
    (Hfin : Forall (fun kv => is_finite (snd kv) = true) (ratios_of model)) :
  let paid g := default (num_of_Z 1) (assoc g (ratios_of model)) in
  exists g, g ∈ groups_of model /\
    (forall type u,
       formatPrice intl stored showWithRecharge priceRate usdExchangeRate model type u
       = formatGroupPrice intl stored showWithRecharge priceRate usdExchangeRate model g type u (ratios_of model)) /\
    formatRequestPrice intl stored showWithRecharge priceRate usdExchangeRate translate model
    = formatFixedPrice intl stored showWithRecharge priceRate usdExchangeRate translate model g (ratios_of model) /\
    getDynamicDisplayGroupRatio model = paid g /\
    (assoc g (ratios_of model) = None -> forall g', g' ∈ groups_of model -> assoc g' (ratios_of model) = None) /\
    (forall g' r', g' ∈ groups_of model -> assoc g' (ratios_of model) = Some r' -> nleb (paid g) r' = true) /\
    ((forall g', g' ∈ groups_of model -> nleb (paid g) (paid g') = true) <->
     (forall g', g' ∈ groups_of model -> assoc g' (ratios_of model) = None -> nleb (paid g) (num_of_Z 1) = true)).
Proof.
  intros paid. destruct (min_ratio_group (ratios_of model) Hfin (groups_of model) Hg) as (g & Hin & E & Hnone & Hmin).
  fold (paid g) in E. exists g. rewrite E in Hmin. split_and!; [done|..|done|done|].
  - intros type u. unfold formatPrice, formatGroupPrice. by rewrite E.
  - unfold formatRequestPrice, formatFixedPrice. by rewrite E.
  - rewrite <- E. unfold getDynamicDisplayGroupRatio, getMinGroupRatio. by destruct (groups_of model).
  - split.
    + intros H g' Hg' Hn. specialize (H g' Hg'). unfold paid at 2 in H. by rewrite Hn in H.
    + intros H g' Hg'. unfold paid at 2. destruct (assoc g' (ratios_of model)) as [r'|] eqn:Er; cbn [default].
      * by apply (Hmin g').
      * by apply (H g').
Qed.

End ListPrice.

(** ** Signatures *)

(** What two models with the same prices agree in. *)
Definition same_prices (a b : PricingModel) : Prop :=
  quota_type a = quota_type b /\ model_ratio a = model_ratio b /\ completion_ratio a = completion_ratio b /\
  model_price a = model_price b /\ default [] (billing_mode a) = default [] (billing_mode b) /\
  default [] (billing_expr a) = default [] (billing_expr b) /\ cache_ratio a = cache_ratio b /\
  create_cache_ratio a = create_cache_ratio b /\ image_ratio a = image_ratio b /\ audio_ratio a = audio_ratio b /\
  audio_completion_ratio a = audio_completion_ratio b /\ default [] (request_unit a) = default [] (request_unit b).

(** Numbers that came as JSON. *)
Definition stored_prices (m : PricingModel) : Prop := json_ok (pricing_row m).

Lemma or_null_inj a b : or_null a = or_null b -> a = b.
Proof. destruct a, b; simpl; congruence. Qed.

(** The signature of a model tells exactly its prices. *)
Lemma signature_prices a b :
  stored_prices a -> stored_prices b ->
  (getPricingSignature a = getPricingSignature b <-> same_prices a b).
Proof.
  intros Ha Hb. unfold getPricingSignature. split.
  - intros E. apply (f_equal json_parse) in E. rewrite !json_parse_ser in E by done.
    injection E. intros. repeat match goal with H : or_null _ = or_null _ |- _ => apply or_null_inj in H end.
    by repeat split.
  - intros (E1 & E2 & E3 & E4 & E5 & E6 & E7 & E8 & E9 & E10 & E11 & E12).
    unfold pricing_row, or_empty. by rewrite E1, E2, E3, E4, E5, E6, E7, E8, E9, E10, E11, E12.
Qed.

(** ** Summaries of dynamic prices *)

(** The entries of a tier: the positive finite prices, input and output first, else in the
    order of the variables. *)
Lemma entries_exact intl stored tier options :
  let l := omap (dynamic_entry intl stored tier options) BILLING_PRICING_VARS in
  getDynamicPriceEntries intl stored (Some tier) options
  = filterb is_primary l ++ filterb (fun e => negb (is_primary e)) l.
Proof. apply js_sort_first. Qed.

(** The card shows the entries whole: first the primary ones, then the others. *)
Theorem summary_entries intl stored model options s :
  getDynamicPricingSummary intl stored model options = Return (Some s) ->
  entries s = primaryEntries s ++ secondaryEntries s /\ tierCount s = length (d_tiers s) /\
  entries s = getDynamicPriceEntries intl stored (head (d_tiers s)) options.
Proof.
  unfold getDynamicPricingSummary. destruct (negb _); [done|].
  destruct (getDynamicPricingTiers model) as [tiers|]; [|done].
  destruct (hasDynamicRequestRules model) as [rules|]; [|done]. cbn [obind]. intros [= <-]. cbn.
  split_and!; [|done|done]. destruct tiers as [|tier tiers]; [done|]. cbn [head].
  rewrite entries_exact. cbv zeta. rewrite !filterb_app, !filterb_idemp, !filterb_filterb.
  rewrite (filterb_none (fun x => negb (is_primary x) && is_primary x)),
    (filterb_none (fun x => is_primary x && negb (is_primary x))), app_nil_r; [done| |].
  - intros e _. apply andb_negb_r.
  - intros e _. apply andb_negb_l.
Qed.

(** ** A model for three groups *)

Definition three_groups : PricingModel := {|
  pm_id := num_of_Z 1; model_name := js "gpt-5"; description := None; vendor_name := None; quota_type := TOKEN;
  model_ratio := num_of_Z 2; completion_ratio := num_of_Z 4; model_price := None; cache_ratio := None;
  create_cache_ratio := None; image_ratio := None; audio_ratio := None; audio_completion_ratio := None;
  enable_groups := Some [js "default"; js "vip"; js "new"]; tags := None; supported_endpoint_types := None;
  group_ratio := Some [(js "default", num_of_Z 3); (js "vip", num_of_Z 2)];
  billing_mode := None; request_unit := None; billing_expr := None; display_name := None;
  model_aliases := None; pricing_variants := None |}.

(** The list shows the price of "vip", the least of two entries, and passes "new" over, which
    pays less. *)
Lemma list_price_is_cheapest_group_witness :
  let shown := formatGroupPrice (fun _ _ x => num_to_string x) None false (num_of_Z 1) (num_of_Z 1) three_groups in
  exists g, g ∈ [js "default"; js "vip"; js "new"] /\
    formatPrice (fun _ _ x => num_to_string x) None false (num_of_Z 1) (num_of_Z 1) three_groups p_output M
    = shown g p_output M (ratios_of three_groups)
    /\ shown (js "vip") p_output M (ratios_of three_groups) = js "32"
    /\ shown (js "new") p_output M (ratios_of three_groups) = js "16".
Proof.
  intros shown.
  destruct (list_price_is_cheapest_group (fun _ _ x => num_to_string x) None false (num_of_Z 1) (num_of_Z 1) None
              three_groups) as (g & Hg & H & _).
  - done.
  - repeat constructor.
  - exists g. split; [exact Hg|]. split; [apply H|]. split; vm_compute; reflexivity.
Defined.
