(* ===== verification/ModelSquare.v ===== *)
(** * The model square ([features/pricing/lib/model-display-name.ts],
      [features/pricing/lib/filters.ts], [features/pricing/hooks/use-filters.ts])

    The public list of models: names that differ by the prefix of a channel only are one
    row; the rows are searched, filtered and sorted by a state the page keeps.  The order
    of [localeCompare] is a parameter. *)

From S2P Require Import Prelude JsString JsRegex JsNumber JsValue JsJson JsSort JsMap.
From S2P Require Import FloatError Currency ModelPrices.

#[local] Open Scope Z_scope.

(** ** Names *)

Definition MODEL_FAMILY_FIRST_SEGMENTS : list jsstr :=
  [ js "gpt"; js "claude"; js "gemini"; js "gemma"; js "grok"; js "imagen"; js "veo"; js "palm"; js "o1"; js "o2";
    js "o3"; js "o4"; js "omni"; js "sora"; js "dall"; js "dalle"; js "whisper"; js "tts"; js "davinci"; js "babbage";
    js "text"; js "embed"; js "embedding"; js "llama"; js "codellama"; js "mistral"; js "mixtral"; js "codestral";
    js "magistral"; js "pixtral"; js "qwen"; js "qwq"; js "qvq"; js "deepseek"; js "command"; js "cohere"; js "aya";
    js "ernie"; js "wenxin"; js "hunyuan"; js "hunyuanvideo"; js "glm"; js "chatglm"; js "cogview"; js "cogvideo";
    js "kimi"; js "moonshot"; js "abab"; js "minimax"; js "hailuo"; js "doubao"; js "seedance"; js "seedream";
    js "jimeng"; js "kling"; js "wan"; js "pika"; js "runway"; js "luma"; js "flux"; js "ideogram"; js "recraft";
    js "midjourney"; js "niji"; js "sd"; js "sdxl"; js "stable"; js "suno"; js "udio"; js "mureka"; js "meta" ].

Definition PUBLIC_MODEL_PREFIX_FIRST_SEGMENTS : list jsstr := [js "sd5"].

Definition getNameFirstSegment (modelName : jsstr) : option jsstr :=
  let trimmed := trim modelName in
  match index_of (js "-") trimmed with
  | None | Some O => None
  | Some dash => Some (to_lower (take dash trimmed))
  end.

Definition isModelFamilyFirstSegment (segment : jsstr) : bool :=
  let normalized := to_lower segment in
  bool_decide (normalized ∈ MODEL_FAMILY_FIRST_SEGMENTS) || bool_decide (normalized ∈ PUBLIC_MODEL_PREFIX_FIRST_SEGMENTS).

Definition hasChannelRegistrationPrefix (modelName : jsstr) : bool :=
  match getNameFirstSegment modelName with
  | None | Some [] => false
  | Some first => negb (isModelFamilyFirstSegment first)
  end.

Definition stripModelVendorPrefix (modelName : jsstr) : jsstr :=
  let trimmed := trim modelName in
  if negb (hasChannelRegistrationPrefix trimmed) then trimmed
  else match index_of (js "-") trimmed with
       | Some dash => trim (drop (S dash) trimmed)
       | None => trim trimmed
       end.

Definition formatModelDisplayName (modelName : jsstr) : jsstr := stripModelVendorPrefix (trim modelName).

Definition getModelDisplayName (model : PricingModel) : jsstr :=
  or_str (default [] (display_name model)) (formatModelDisplayName (model_name model)).

(** ** Rows *)

Definition mergeEnableGroups (variants : list PricingModel) : list jsstr :=
  uniq (filter_truthy (variants ≫= groups_of)).

Definition variantPricingScore (model : PricingModel) : Z :=
  (if bool_decide (billing_mode model = Some (js "tiered_expr")) && truthy_str (trim (default [] (billing_expr model))) then 4 else 0)
  + (if neqb (quota_type model) TOKEN && nltb zero (model_ratio model) then 3 else 0)
  + (if neqb (quota_type model) REQUEST && nltb zero (default zero (model_price model)) then 3 else 0)
  + (if negb (hasChannelRegistrationPrefix (model_name model)) then 1 else 0).

Section Square.

(** [a.localeCompare(b) > 0] *)
Context (locale_after : jsstr -> jsstr -> bool).

Definition name_after (a b : PricingModel) : bool := locale_after (model_name a) (model_name b).

Definition variant_after (a b : PricingModel) : bool :=
  let scoreDiff := variantPricingScore b - variantPricingScore a in
  if negb (scoreDiff =? 0) then 0 <? scoreDiff else name_after a b.

Definition pickPrimaryVariant (variants : list PricingModel) : option PricingModel :=
  head (js_sort variant_after variants).

(** The models by display name in lower case. *)
Definition display_key (m : PricingModel) : jsstr := to_lower (formatModelDisplayName (model_name m)).

Definition buckets_of (models : list PricingModel) : list (jsstr * list PricingModel) :=
  fold_left (fun groups model => mupdate (display_key model) [] (fun bucket => bucket ++ [model]) groups) models [].

(** The row of a bucket; a bucket is never empty. *)
Definition row_of (variants : list PricingModel) : option PricingModel :=
  let sorted := js_sort name_after variants in
  primary ← pickPrimaryVariant sorted;
  let displayName := formatModelDisplayName (model_name primary) in
  let signatures := uniq (getPricingSignature <$> sorted) in
  let hasVariantPricing := (1 <? length signatures)%nat in
  Some {|
    pm_id := pm_id primary; model_name := model_name primary; description := description primary;
    vendor_name := vendor_name primary; quota_type := quota_type primary; model_ratio := model_ratio primary;
    completion_ratio := completion_ratio primary; model_price := model_price primary;
    cache_ratio := cache_ratio primary; create_cache_ratio := create_cache_ratio primary;
    image_ratio := image_ratio primary; audio_ratio := audio_ratio primary;
    audio_completion_ratio := audio_completion_ratio primary;
    enable_groups := Some (mergeEnableGroups sorted); tags := tags primary;
    supported_endpoint_types := supported_endpoint_types primary; group_ratio := group_ratio primary;
    billing_mode := billing_mode primary; request_unit := request_unit primary; billing_expr := billing_expr primary;
    display_name := Some displayName; model_aliases := Some (model_name <$> sorted);
    pricing_variants := if hasVariantPricing then Some (js_sort name_after sorted) else pricing_variants primary |}.

Definition display_after (a b : PricingModel) : bool := locale_after (getModelDisplayName a) (getModelDisplayName b).

Definition groupPricingModelsByDisplayName (models : list PricingModel) : list PricingModel :=
  js_sort display_after (omap row_of (snd <$> buckets_of models)).

(** ** Filters *)

Definition FILTER_ALL : jsstr := js "all".

Definition lower_includes (q : jsstr) (s : option jsstr) : bool :=
  match s with Some t => includes q (to_lower t) | None => false end.

Definition filterBySearch (models : list PricingModel) (query : jsstr) : list PricingModel :=
  if negb (truthy_str query) then models
  else
    let lowerQuery := to_lower query in
    filterb (fun m =>
      includes lowerQuery (to_lower (getModelDisplayName m)) || lower_includes lowerQuery (Some (model_name m))
      || existsb (fun alias => includes lowerQuery (to_lower alias)) (default [] (model_aliases m))
      || lower_includes lowerQuery (description m) || lower_includes lowerQuery (tags m)
      || lower_includes lowerQuery (vendor_name m)) models.

Definition filterByVendor (models : list PricingModel) (vendor : jsstr) : list PricingModel :=
  if bool_decide (vendor = FILTER_ALL) then models
  else filterb (fun m => bool_decide (vendor_name m = Some vendor)) models.

Definition filterByGroup (models : list PricingModel) (group : jsstr) : list PricingModel :=
  if bool_decide (group = FILTER_ALL) then models
  else filterb (fun m => bool_decide (group ∈ default [] (enable_groups m))) models.

Definition filterByQuotaType (models : list PricingModel) (quotaType : jsstr) : list PricingModel :=
  if bool_decide (quotaType = js "all") then models
  else
    let targetType := if bool_decide (quotaType = js "token") then TOKEN else REQUEST in
    filterb (fun m => neqb (quota_type m) targetType) models.

Definition filterByEndpointType (models : list PricingModel) (endpointType : jsstr) : list PricingModel :=
  if bool_decide (endpointType = js "all") then models
  else filterb (fun m => bool_decide (endpointType ∈ default [] (supported_endpoint_types m))) models.

Definition getModelPrice (model : PricingModel) : num :=
  if neqb (quota_type model) (num_of_Z 0) then model_ratio model else or_zero (default NaN (model_price model)).

(** [SORT_OPTIONS] *)
Definition NAME : jsstr := js "name".
Definition PRICE_LOW : jsstr := js "price-low".
Definition PRICE_HIGH : jsstr := js "price-high".

Definition dearer (a b : PricingModel) : bool := nltb zero (nsub (getModelPrice a) (getModelPrice b)).

Definition sortModels (models : list PricingModel) (sortBy : jsstr) : list PricingModel :=
  if bool_decide (sortBy = NAME) then js_sort display_after models
  else if bool_decide (sortBy = PRICE_LOW) then js_sort dearer models
  else if bool_decide (sortBy = PRICE_HIGH) then js_sort (fun a b => dearer b a) models
  else models.

Definition re_tags : regex := Eval vm_compute in re "[,;|\s]+".

Definition parseTags (tagsString : option jsstr) : list jsstr :=
  match tagsString with
  | None | Some [] => []
  | Some s => filter_truthy (trim <$> split_re re_tags s)
  end.

Definition extractAllTags (models : list PricingModel) : list jsstr :=
  js_sort locale_after (uniq (models ≫= fun model => to_lower <$> parseTags (tags model))).

Definition filterByTag (models : list PricingModel) (tag : jsstr) : list PricingModel :=
  if bool_decide (tag = FILTER_ALL) then models
  else
    let tagLower := to_lower tag in
    filterb (fun m => bool_decide (tagLower ∈ to_lower <$> parseTags (tags m))) models.

Record Filters := {
  f_search : jsstr; f_vendor : jsstr; f_group : jsstr; f_quotaType : jsstr; f_endpointType : jsstr;
  f_tag : jsstr; f_sortBy : jsstr }.

Definition filterAndSortModels (models : list PricingModel) (filters : Filters) : list PricingModel :=
  let result := filterBySearch models (f_search filters) in
  let result := filterByVendor result (f_vendor filters) in
  let result := filterByGroup result (f_group filters) in
  let result := filterByQuotaType result (f_quotaType filters) in
  let result := filterByEndpointType result (f_endpointType filters) in
  let result := filterByTag result (f_tag filters) in
  sortModels result (f_sortBy filters).

(** ** The state of the page *)

Inductive ViewMode := card | table.

(** [filterState]: an object whose fields may be missing. *)
Abbreviation FilterState := obj.

(** The state a page opens with: the parameters of the address. *)
Definition initial_filters (search : obj) : FilterState :=
  obj_of ((fun k => (k, at_ k search)) <$>
    [ js "search"; js "sort"; js "vendor"; js "group"; js "quotaType"; js "endpointType"; js "tag";
      js "tokenUnit"; js "view"; js "rechargePrice" ]).

(** [filterState.k || d] *)
Definition text_or (k d : jsstr) (st : FilterState) : jsstr :=
  match at_ k st with VStr s => or_str s d | _ => d end.

Definition normalizeViewMode (value : jsval) : ViewMode := if is_str (js "table") value then table else card.

Record View := { filters : Filters; v_tokenUnit : TokenUnit; viewMode : ViewMode; showRecharge : bool }.

Definition view_of (st : FilterState) : View := {|
  filters := {| f_search := text_or (js "search") [] st; f_sortBy := text_or (js "sort") NAME st;
                f_vendor := text_or (js "vendor") FILTER_ALL st; f_group := text_or (js "group") FILTER_ALL st;
                f_quotaType := text_or (js "quotaType") (js "all") st;
                f_endpointType := text_or (js "endpointType") (js "all") st;
                f_tag := text_or (js "tag") FILTER_ALL st |};
  v_tokenUnit := if is_str (js "K") (at_ (js "tokenUnit") st) then K else M;
  viewMode := normalizeViewMode (at_ (js "view") st);
  showRecharge := is_true (at_ (js "rechargePrice") st) |}.

Definition updateFilters (updates : obj) (prev : FilterState) : FilterState :=
  filterb (fun kv => negb (nullish (snd kv))) (ospread prev updates).

Inductive action :=
  | SetSearch (v : jsstr) | SetSort (v : jsstr) | SetVendor (v : jsstr) | SetGroup (v : jsstr)
  | SetQuotaType (v : jsstr) | SetEndpointType (v : jsstr) | SetTag (v : jsstr)
  | SetTokenUnit (u : TokenUnit) | SetViewMode (m : ViewMode) | SetRecharge (b : bool)
  | ClearFilters | ClearSearch.

(** [v === d ? undefined : v] *)
Definition unless (d v : jsstr) : jsval := if bool_decide (v = d) then VUndef else VStr v.

Definition updates_of (a : action) : obj :=
  match a with
  | SetSearch v => [(js "search", if truthy_str v then VStr v else VUndef)]
  | SetSort v => [(js "sort", unless NAME v)]
  | SetVendor v => [(js "vendor", unless FILTER_ALL v)]
  | SetGroup v => [(js "group", unless FILTER_ALL v)]
  | SetQuotaType v => [(js "quotaType", unless (js "all") v)]
  | SetEndpointType v => [(js "endpointType", unless (js "all") v)]
  | SetTag v => [(js "tag", unless FILTER_ALL v)]
  | SetTokenUnit u => [(js "tokenUnit", match u with M => VUndef | K => VStr (js "K") end)]
  | SetViewMode m => [(js "view", match m with card => VUndef | table => VStr (js "table") end)]
  | SetRecharge b => [(js "rechargePrice", if b then VBool true else VUndef)]
  | ClearFilters => [(js "vendor", VUndef); (js "group", VUndef); (js "quotaType", VUndef);
                     (js "endpointType", VUndef); (js "tag", VUndef)]
  | ClearSearch => [(js "search", VUndef)]
  end.

Definition act (st : FilterState) (a : action) : FilterState := updateFilters (updates_of a) st.

Definition displayModels (models : list PricingModel) : list PricingModel := groupPricingModelsByDisplayName models.

Definition availableTags (models : list PricingModel) : list jsstr :=
  match displayModels models with [] => [] | rows => extractAllTags rows end.

Definition filteredModels (models : list PricingModel) (st : FilterState) : list PricingModel :=
  match displayModels models with [] => [] | rows => filterAndSortModels rows (filters (view_of st)) end.

(** The five filters that differ from their default. *)
Definition active_filters (st : FilterState) : list bool :=
  let f := filters (view_of st) in
  [ negb (bool_decide (f_vendor f = FILTER_ALL)); negb (bool_decide (f_group f = FILTER_ALL));
    negb (bool_decide (f_quotaType f = js "all")); negb (bool_decide (f_endpointType f = js "all"));
    negb (bool_decide (f_tag f = FILTER_ALL)) ].

Definition hasActiveFilters (st : FilterState) : bool := existsb id (active_filters st).
Definition activeFilterCount (st : FilterState) : nat := length (filterb id (active_filters st)).

End Square.

(** ** Searching, filtering and sorting *)

Section Filtering.

Context (locale_after : jsstr -> jsstr -> bool).

(** Whether the search finds a model, and whether each filter lets it pass. *)
Definition found (q : jsstr) (m : PricingModel) : bool :=
  negb (truthy_str q)
  || existsb (fun s => includes (to_lower q) (to_lower s))
       ([getModelDisplayName m; model_name m] ++ default [] (model_aliases m)
        ++ option_list (description m) ++ option_list (tags m) ++ option_list (vendor_name m)).

Definition passes (f : Filters) (m : PricingModel) : bool :=
  found (f_search f) m
  && (bool_decide (f_vendor f = FILTER_ALL) || bool_decide (vendor_name m = Some (f_vendor f)))
  && (bool_decide (f_group f = FILTER_ALL) || bool_decide (f_group f ∈ groups_of m))
  && (bool_decide (f_quotaType f = js "all")
      || neqb (quota_type m) (if bool_decide (f_quotaType f = js "token") then TOKEN else REQUEST))
  && (bool_decide (f_endpointType f = js "all")
      || bool_decide (f_endpointType f ∈ default [] (supported_endpoint_types m)))
  && (bool_decide (f_tag f = FILTER_ALL) || bool_decide (to_lower (f_tag f) ∈ to_lower <$> parseTags (tags m))).

Lemma filterb_or {A} (b : bool) (p : A -> bool) l :
  (if b then l else filterb p l) = filterb (fun x => b || p x) l.
Proof. destruct b; simpl; [|done]. symmetry. by apply filterb_all. Qed.

Lemma search_found models q : filterBySearch models q = filterb (found q) models.
Proof.
  unfold filterBySearch, found. rewrite filterb_or. apply filterb_ext. intros m. f_equal.
  rewrite !existsb_app. simpl. rewrite orb_false_r, !orb_assoc.
  destruct (description m), (tags m), (vendor_name m); simpl; by rewrite ?orb_false_r, ?orb_assoc.
Qed.

(** What the filters leave, before it is sorted. *)
Lemma filters_pass models f :
  filterAndSortModels locale_after models f = sortModels locale_after (filterb (passes f) models) (f_sortBy f).
Proof.
  unfold filterAndSortModels. f_equal. rewrite search_found.
  unfold filterByVendor, filterByGroup, filterByQuotaType, filterByEndpointType, filterByTag.
  rewrite !filterb_or, !filterb_filterb. apply filterb_ext. intros m. unfold passes.
  by rewrite !andb_assoc.
Qed.

(** The order of the result. *)
Definition in_order (sortBy : jsstr) (a b : PricingModel) : Prop :=
  (sortBy = NAME -> locale_after (getModelDisplayName a) (getModelDisplayName b) = false) /\
  (sortBy = PRICE_LOW -> nleb (getModelPrice a) (getModelPrice b) = true) /\
  (sortBy = PRICE_HIGH -> nleb (getModelPrice b) (getModelPrice a) = true).

Definition priced (m : PricingModel) : Prop := amount (getModelPrice m).

Lemma dearer_le a b : priced a -> priced b -> dearer a b = negb (nleb (getModelPrice a) (getModelPrice b)).
Proof.
  intros Ha Hb. unfold dearer. rewrite nsub_positive by done. apply nltb_negb; by apply amount_not_nan.
Qed.

Lemma dearer_swap a b : priced a -> priced b -> dearer a b = true -> nleb (getModelPrice b) (getModelPrice a) = true.
Proof. intros Ha Hb. unfold dearer. rewrite nsub_positive by done. apply nltb_nleb. Qed.

Lemma dearer_keep a b : priced a -> priced b -> dearer a b = false -> nleb (getModelPrice a) (getModelPrice b) = true.
Proof. intros Ha Hb. rewrite dearer_le by done. by intros ?%negb_false_iff. Qed.

(** [localeCompare] is an order. *)
Context (locale_asym : forall s t, locale_after s t = true -> locale_after t s = false).
Context (locale_trans : forall s t u, locale_after s t = false -> locale_after t u = false -> locale_after s u = false).

Lemma sort_models_sorted models sortBy :
  Forall priced models -> sortBy ∈ [NAME; PRICE_LOW; PRICE_HIGH] ->
  StronglySorted (in_order sortBy) (sortModels locale_after models sortBy).
Proof.
  intros Hp Hin. unfold sortModels, in_order. repeat (apply elem_of_cons in Hin as [->|Hin]); [| | |by apply not_elem_of_nil in Hin].
  - apply (js_sort_sorted _ (fun _ => True)); [| | |by apply Forall_true].
    + intros a b _ _ H. split_and!; [by intros _; apply locale_asym|done..].
    + intros a b _ _ H. split_and!; [done..].
    + intros a b c (H1 & _) (H2 & _). split_and!; [|done..].
      intros _. by apply (locale_trans _ (getModelDisplayName b)); [apply H1|apply H2].
  - apply (js_sort_sorted _ priced); [| | |done].
    + intros a b Ha Hb H. split_and!; [done| |done]. intros _. by apply dearer_swap.
    + intros a b Ha Hb H. split_and!; [done| |done]. intros _. by apply dearer_keep.
    + intros a b c (_ & H1 & _) (_ & H2 & _). split_and!; [done| |done]. intros E.
      by apply (nleb_trans _ (getModelPrice b)); auto.
  - apply (js_sort_sorted _ priced); [| | |done].
    + intros a b Ha Hb H. split_and!; [done..|]. intros _. by apply dearer_swap.
    + intros a b Ha Hb H. split_and!; [done..|]. intros _. by apply dearer_keep.
    + intros a b c (_ & _ & H1) (_ & _ & H2). split_and!; [done..|]. intros E.
      by apply (nleb_trans _ (getModelPrice b)); auto.
Qed.

Lemma sort_models_perm models sortBy : sortModels locale_after models sortBy ≡ₚ models.
Proof. unfold sortModels. repeat case_bool_decide; by rewrite ?js_sort_perm. Qed.

(** The list of models is exact: it holds, each once, the models that the search finds
    and every filter lets pass, and it is in the order asked for - by name in the order of
    the locale, by price upwards or downwards. *)
Theorem filter_sort_exact models f
    (Hp : Forall priced models) (Hs : f_sortBy f ∈ [NAME; PRICE_LOW; PRICE_HIGH]) :
  filterAndSortModels locale_after models f ≡ₚ filterb (passes f) models /\
  StronglySorted (in_order (f_sortBy f)) (filterAndSortModels locale_after models f).
Proof.
  rewrite filters_pass. split; [apply sort_models_perm|]. apply sort_models_sorted; [|done].
  apply Forall_forall. intros m Hm. apply elem_of_filterb in Hm as [_ Hm]. by apply (proj1 (Forall_forall _ _) Hp).
Qed.

(** A tag that is offered selects something, and what can be selected is offered: the
    tags offered for a list of models are in lower case, and a tag selects a model of the
    list exactly when its lower case form is among those offered; only a tag called like the
    entry for all models cannot be chosen. *)
Theorem offered_tags_select models tag (Hall : tag <> FILTER_ALL) :
  (to_lower tag ∈ extractAllTags locale_after models <-> filterByTag models tag <> []) /\
  (tag ∈ extractAllTags locale_after models -> to_lower tag = tag /\ filterByTag models tag <> []).
Proof.
  assert (H : to_lower tag ∈ extractAllTags locale_after models <-> filterByTag models tag <> []).
  { unfold extractAllTags, filterByTag. rewrite js_sort_perm, uniq_elem, list_elem_of_bind, bool_decide_eq_false_2 by done.
    split.
    - intros (m & Hm & Hin). intros E. apply (not_elem_of_nil m). rewrite <- E. apply elem_of_filterb.
      split; [by apply bool_decide_eq_true_2|done].
    - intros Hne. destruct (filterb _ models) as [|m l] eqn:E; [done|].
      assert (Hm : m ∈ m :: l) by apply list_elem_of_here. rewrite <- E in Hm.
      apply elem_of_filterb in Hm as [Hm1 Hm2]. exists m. by apply bool_decide_eq_true in Hm1. }
  split; [done|]. intros Hin. enough (E : to_lower tag = tag) by (split; [done|]; apply H; by rewrite E).
  unfold extractAllTags in Hin. rewrite js_sort_perm, uniq_elem, list_elem_of_bind in Hin.
  destruct Hin as (m & Hm & _). apply list_elem_of_fmap in Hm as (t & -> & _). apply to_lower_idemp.
Qed.

End Filtering.

(** ** The state of the page: a refinement *)

(** What the page shows, with each setter acting on its own part; an empty text is the
    default. *)
Definition with_filters (f : Filters -> Filters) (w : View) : View := {|
  filters := f (filters w); v_tokenUnit := v_tokenUnit w; viewMode := viewMode w; showRecharge := showRecharge w |}.

Definition set_view (w : View) (a : action) : View :=
  let all := js "all" in
  let put (s v g q e t o : jsstr) := with_filters (fun _ =>
    {| f_search := s; f_vendor := v; f_group := g; f_quotaType := q; f_endpointType := e; f_tag := t; f_sortBy := o |}) w in
  let '(Build_Filters s v g q e t o) := filters w in
  match a with
  | SetSearch x => put x v g q e t o
  | SetSort x => put s v g q e t (or_str x NAME)
  | SetVendor x => put s (or_str x all) g q e t o
  | SetGroup x => put s v (or_str x all) q e t o
  | SetQuotaType x => put s v g (or_str x all) e t o
  | SetEndpointType x => put s v g q (or_str x all) t o
  | SetTag x => put s v g q e (or_str x all) o
  | SetTokenUnit u => {| filters := filters w; v_tokenUnit := u; viewMode := viewMode w; showRecharge := showRecharge w |}
  | SetViewMode m => {| filters := filters w; v_tokenUnit := v_tokenUnit w; viewMode := m; showRecharge := showRecharge w |}
  | SetRecharge b => {| filters := filters w; v_tokenUnit := v_tokenUnit w; viewMode := viewMode w; showRecharge := b |}
  | ClearFilters => put s all all all all all o
  | ClearSearch => put [] v g q e t o
  end.

Lemma oget_filterb (p : jsval -> bool) k o :
  NoDup (okeys o) ->
  oget k (filterb (fun kv => p (snd kv)) o) = match oget k o with Some v => if p v then Some v else None | None => None end.
Proof.
  induction o as [|[j v] o IH]; csimpl; intros H; [done|]. apply NoDup_cons in H as [Hj H].
  destruct (decide (k = j)) as [->|Hk].
  - rewrite bool_decide_eq_true_2 by done. destruct (p v) eqn:E; csimpl; [by rewrite bool_decide_eq_true_2|].
    rewrite IH by done. enough (oget j o = None) as -> by done. by apply oget_None_okeys.
  - rewrite bool_decide_eq_false_2 by done. destruct (p v); csimpl; [rewrite bool_decide_eq_false_2 by done|]; by apply IH.
Qed.

Lemma canonical_update u st : canonical st -> canonical (updateFilters u st).
Proof.
  intros H. pose proof (canonical_ospread st u H) as [H1 H2].
  assert (Hs : okeys (updateFilters u st) `sublist_of` okeys (ospread st u)) by apply (sublist_map fst), filterb_sublist.
  split; [by apply (sublist_no_dup _ _ Hs)|]. by apply (StronglySorted_sublist _ _ _ Hs).
Qed.

(** Reading a field after an update. *)
Lemma at_update k u st :
  canonical st -> NoDup (okeys u) ->
  at_ k (updateFilters u st)
  = let v := default (at_ k st) (oget k u) in if nullish v then VUndef else v.
Proof.
  intros Hst Hu. pose proof (canonical_ospread st u Hst) as [Hn _].
  unfold at_, updateFilters. rewrite (oget_filterb (fun v => negb (nullish v)) k _ Hn).
  rewrite oget_ospread, oget_reverse by done. destruct (oget k u) as [v|]; simpl.
  - by destruct (nullish v).
  - destruct (oget k st) as [v|]; simpl; [|done]. by destruct (nullish v).
Qed.

Lemma text_or_update k d u st :
  canonical st -> NoDup (okeys u) ->
  text_or k d (updateFilters u st)
  = match oget k u with Some (VStr s) => or_str s d | Some _ => d | None => text_or k d st end.
Proof.
  intros Hst Hu. unfold text_or. rewrite at_update by done. destruct (oget k u) as [[]|]; try done.
  simpl. by destruct (at_ k st).
Qed.

Lemma is_str_defined x v : is_str x (if nullish v then VUndef else v) = is_str x v.
Proof. by destruct v. Qed.

Lemma is_true_defined v : is_true (if nullish v then VUndef else v) = is_true v.
Proof. by destruct v. Qed.

Lemma unless_or d v : match unless d v with VStr s => or_str s d | _ => d end = or_str v d.
Proof. unfold unless. case_bool_decide as E; [|done]. subst. by destruct d. Qed.

(** Compare the names of two fields. *)
Ltac decide_names :=
  repeat match goal with
    | |- context [bool_decide (js ?a = js ?b)] =>
        let x := eval vm_compute in (bool_decide (js a = js b)) in
        change (bool_decide (js a = js b)) with x
    end.

Lemma view_act st a : canonical st -> view_of (act st a) = set_view (view_of st) a.
Proof.
  intros Hst. assert (Hu : NoDup (okeys (updates_of a))).
  { destruct a; apply (bool_decide_unpack _); vm_compute; exact I. }
  unfold act, view_of. rewrite !text_or_update, !at_update by done. unfold normalizeViewMode.
  destruct a; cbn [updates_of oget]; decide_names; cbn -[js or_str text_or is_str is_true nullish unless];
    rewrite ?is_str_defined, ?is_true_defined, ?unless_or; try done.
  - by destruct v.
  - by destruct u.
  - by destruct m.
  - by destruct b.
Qed.

(** The page shows what was chosen last: after any setters the search text, the filters,
    the order, the unit and the layout are those of a page whose parts are set one by one,
    an empty choice being the default; filters are called active exactly when their count is
    not zero, and clearing them keeps the search, the order and the rest. *)
Theorem page_state_refines search l :
  let st := fold_left act l (initial_filters search) in
  view_of st = fold_left set_view l (view_of (initial_filters search)) /\
  (hasActiveFilters st = true <-> (0 < activeFilterCount st)%nat) /\
  hasActiveFilters (act st ClearFilters) = false.
Proof.
  intros st. assert (Hst : canonical st).
  { subst st. apply (fold_invariant canonical); [apply canonical_obj_of|]. intros. by apply canonical_update. }
  split_and!.
  - subst st. assert (Hi : canonical (initial_filters search)) by apply canonical_obj_of.
    revert Hi. generalize (initial_filters search). clear.
    induction l as [|a l IH]; intros st Hst; simpl; [done|].
    rewrite IH, view_act by (done || by apply canonical_update). done.
  - unfold hasActiveFilters, activeFilterCount. induction (active_filters st) as [|[] bs IH]; simpl; [lia| |done]. split; [lia|done].
  - unfold hasActiveFilters, active_filters. rewrite view_act by done. unfold set_view.
    by destruct (filters (view_of st)).
Qed.

(** ** Rows *)

Section Rows.

Context (locale_after : jsstr -> jsstr -> bool).

(** The buckets partition the models by their key. *)
Record partition (models : list PricingModel) (b : list (jsstr * list PricingModel)) : Prop := {
  part_keys : NoDup (fst <$> b);
  part_all : concat (snd <$> b) ≡ₚ models;
  part_key : Forall (fun kl => snd kl <> [] /\ Forall (fun m => display_key m = fst kl) (snd kl)) b }.

Lemma push_perm k m (b : list (jsstr * list PricingModel)) :
  concat (snd <$> mupdate k [] (fun l => l ++ [m]) b) ≡ₚ concat (snd <$> b) ++ [m].
Proof.
  unfold mupdate. induction b as [|[j l] b IH]; csimpl; [done|].
  destruct (decide (k = j)) as [->|Hk].
  - rewrite !bool_decide_eq_true_2 by done. csimpl. rewrite <- !app_assoc. f_equiv. apply Permutation_app_comm.
  - rewrite !bool_decide_eq_false_2 by done. csimpl. by rewrite IH, app_assoc.
Qed.

Lemma push_keyed (f : PricingModel -> jsstr) k m (b : list (jsstr * list PricingModel)) :
  f m = k ->
  Forall (fun kl => snd kl <> [] /\ Forall (fun m => f m = fst kl) (snd kl)) b ->
  Forall (fun kl => snd kl <> [] /\ Forall (fun m => f m = fst kl) (snd kl)) (mupdate k [] (fun l => l ++ [m]) b).
Proof.
  unfold mupdate. intros Hm. induction 1 as [|[j l] b [H1 H2] Hb IH]; csimpl.
  { constructor; [|constructor]. split; [done|]. by apply Forall_singleton. }
  destruct (decide (k = j)) as [<-|Hk].
  - rewrite !bool_decide_eq_true_2 by done. constructor; [|done]. simpl. split; [by destruct l|].
    apply Forall_app. split; [done|]. by apply Forall_singleton.
  - rewrite !bool_decide_eq_false_2 by done. by constructor.
Qed.

Lemma buckets_partition models : partition models (buckets_of models).
Proof.
  unfold buckets_of. induction models as [|m models IH] using rev_ind; [by repeat constructor|].
  rewrite fold_left_app. cbn [fold_left]. destruct IH as [H1 H2 H3]. split.
  - by apply mset_keys_NoDup.
  - by rewrite push_perm, H2.
  - by apply (push_keyed display_key).
Qed.

(** Of two variants that are not swapped the first has at least the score of the second. *)
Lemma primary_best variants p :
  pickPrimaryVariant locale_after variants = Some p ->
  p ∈ variants /\ Forall (fun v => variantPricingScore v <= variantPricingScore p) variants.
Proof.
  unfold pickPrimaryVariant. intros H.
  assert (S : StronglySorted (fun a b => variantPricingScore b <= variantPricingScore a)
                (js_sort (variant_after locale_after) variants)).
  { apply (js_sort_sorted _ (fun _ => True)); [| |lia|by apply Forall_true].
    - intros x y _ _. unfold variant_after. case_match eqn:E; bool_hyps; lia.
    - intros x y _ _. unfold variant_after. case_match eqn:E; intros; bool_hyps; lia. }
  pose proof (js_sort_perm (variant_after locale_after) variants) as Hp.
  destruct (js_sort _ variants) as [|q t]; [done|]. injection H as ->.
  apply StronglySorted_inv in S as [_ S]. split; [rewrite <- Hp; apply list_elem_of_here|].
  rewrite <- Hp. constructor; [done|done].
Qed.

(** What the row of some models shows. *)
Record row_matches (variants : list PricingModel) (row : PricingModel) : Prop := {
  row_aliases : default [] (model_aliases row) ≡ₚ model_name <$> variants;
  row_primary : exists p, p ∈ variants /\ model_name row = model_name p /\
    getPricingSignature row = getPricingSignature p /\
    display_name row = Some (formatModelDisplayName (model_name p)) /\
    Forall (fun v => variantPricingScore v <= variantPricingScore p) variants;
  row_groups : forall g, g ∈ groups_of row <-> g <> [] /\ exists v, v ∈ variants /\ g ∈ groups_of v;
  row_variants : Forall (fun v => pricing_variants v = None) variants ->
    match pricing_variants row with
    | Some l => l ≡ₚ variants
    | None => forall v, v ∈ variants -> getPricingSignature v = getPricingSignature row
    end }.

Lemma short_uniq (l : list jsstr) x y : (1 <? length (uniq l))%nat = false -> x ∈ l -> y ∈ l -> x = y.
Proof.
  intros H Hx Hy. apply Nat.ltb_ge in H. apply uniq_elem in Hx, Hy.
  destruct (uniq l) as [|a [|b t]]; simpl in H; [by apply not_elem_of_nil in Hx| |lia].
  apply list_elem_of_singleton in Hx, Hy. congruence.
Qed.

Lemma row_of_matches variants :
  variants <> [] -> exists row, row_of locale_after variants = Some row /\ row_matches variants row.
Proof.
  intros Hne. unfold row_of. set (sorted := js_sort (name_after locale_after) variants).
  assert (Hs : sorted ≡ₚ variants) by apply js_sort_perm.
  destruct (pickPrimaryVariant locale_after sorted) as [p|] eqn:E.
  2:{ unfold pickPrimaryVariant in E. pose proof (js_sort_perm (variant_after locale_after) sorted) as Hp.
      destruct (js_sort _ sorted); [|done]. rewrite Hs in Hp. by apply Permutation_nil in Hp. }
  apply primary_best in E as [Hin Hbest]. csimpl. eexists. split; [done|]. split; csimpl.
  - by rewrite Hs.
  - exists p. rewrite <- Hs. done.
  - intros g. unfold groups_of at 1. csimpl. unfold mergeEnableGroups, filter_truthy.
    rewrite uniq_elem, elem_of_filterb, truthy_str_spec, list_elem_of_bind.
    setoid_rewrite <- Hs. naive_solver.
  - intros Hv. assert (Hpv : pricing_variants p = None) by (apply (proj1 (Forall_forall _ _) Hv); by rewrite <- Hs).
    rewrite Hpv. destruct (1 <? _)%nat eqn:L; [by rewrite js_sort_perm|]. intros v Hvin.
    rewrite <- Hs in Hvin. change (getPricingSignature v = getPricingSignature p).
    apply (short_uniq _ _ _ L); by apply list_elem_of_fmap_2.
Qed.

(** The rows, before they are sorted: one for each bucket, in the order of the buckets. *)
Lemma rows_match models :
  exists rows, groupPricingModelsByDisplayName locale_after models ≡ₚ rows /\
    Forall2 (fun kl row => row_matches (snd kl) row) (buckets_of models) rows.
Proof.
  destruct (buckets_partition models) as [_ _ H]. unfold groupPricingModelsByDisplayName.
  setoid_rewrite js_sort_perm. induction (buckets_of models) as [|[k l] b IH]; [by exists []; split|].
  apply Forall_cons in H as [[H1 _] H2]. destruct (IH H2) as (rows & E & F).
  destruct (row_of_matches l H1) as (row & Er & Hm). exists (row :: rows). csimpl. rewrite Er.
  split; [by rewrite E|]. by constructor.
Qed.

(** A bucket holds the models with its key. *)
Lemma bucket_elem (b : list (jsstr * list PricingModel)) i k l m :
  NoDup (fst <$> b) ->
  Forall (fun kl => snd kl <> [] /\ Forall (fun m => display_key m = fst kl) (snd kl)) b ->
  b !! i = Some (k, l) -> (m ∈ l <-> m ∈ concat (snd <$> b) /\ display_key m = k).
Proof.
  intros H1 H3 Hb. rewrite (list_elem_of_In (concat _) m), in_concat. setoid_rewrite <- list_elem_of_In. split.
  - intros Hm. pose proof (Forall_lookup_1 _ _ _ _ H3 Hb) as [_ Hl]. split.
    + exists l. split; [|done]. apply list_elem_of_fmap. exists (k, l). split; [done|].
      by apply list_elem_of_lookup_2 in Hb.
    + exact (proj1 (Forall_forall _ _) Hl m Hm).
  - intros [(l' & Hl' & Hm) Hk]. apply list_elem_of_fmap in Hl' as ([k' l''] & -> & Hin).
    pose proof (proj1 (Forall_forall _ _) H3 _ Hin) as [_ Hl]. pose proof (proj1 (Forall_forall _ _) Hl m Hm) as Hk'.
    simpl in *. assert (k' = k) as -> by congruence. apply list_elem_of_lookup in Hin as [j Hj].
    assert (i = j) as <-; [|congruence].
    apply (NoDup_lookup _ _ _ k H1); by rewrite list_lookup_fmap, ?Hb, ?Hj.
Qed.

(** C29. The rows of the model square partition the models: the rows list every model of the
    server exactly once among their names, two rows never show the same name up to case, and
    each row shows the prices of one of its models, of which none has a better score, for
    the groups of all of them; a row that offers no variants stands for models with equal
    prices only, and one that does offers all its models. *)
Theorem rows_partition_models models :
  let rows := groupPricingModelsByDisplayName locale_after models in
  concat ((fun row => default [] (model_aliases row)) <$> rows) ≡ₚ model_name <$> models /\
  NoDup ((fun row => to_lower (default [] (display_name row))) <$> rows) /\
  forall row, row ∈ rows -> exists variants,
    row_matches variants row /\
    forall m, m ∈ variants <-> m ∈ models /\ display_key m = to_lower (default [] (display_name row)).
Proof.
  intros rows. subst rows. destruct (rows_match models) as (rows & E & F).
  destruct (buckets_partition models) as [H1 H2 H3].
  assert (Hkeys : (fun row => to_lower (default [] (display_name row))) <$> rows = fst <$> buckets_of models).
  { clear E H1 H2. induction F as [|[k l] row b rows Hm F IH]; [done|]. apply Forall_cons in H3 as [[_ H3] H4].
    csimpl. rewrite (IH H4). f_equal. destruct (row_primary _ _ Hm) as (p & Hp & _ & _ & -> & _). simpl.
    exact (proj1 (Forall_forall _ _) H3 p Hp). }
  split_and!.
  - rewrite E, <- H2. clear E H1 H2 H3 Hkeys. induction F as [|[k l] row b rows Hm F IH]; [done|].
    csimpl. by rewrite fmap_app, (row_aliases _ _ Hm), IH.
  - by rewrite E, Hkeys.
  - intros row Hrow. rewrite E in Hrow. apply list_elem_of_lookup in Hrow as [i Hi].
    destruct (Forall2_lookup_r _ _ _ _ _ F Hi) as ([k l] & Hb & Hm). exists l. split; [done|].
    assert (Hk : to_lower (default [] (display_name row)) = k).
    { apply (f_equal (fun x => x !! i)) in Hkeys. rewrite !list_lookup_fmap, Hi, Hb in Hkeys. by injection Hkeys. }
    intros m. rewrite Hk, <- H2, (bucket_elem _ _ _ _ m H1 H3 Hb). done.
Qed.

(** Searching finds every model: whatever part of its full name, in any case, is typed,
    a row that stands for the model is among the rows found. *)
Theorem every_model_found models m q
    (Hm : m ∈ models) (Hq : includes (to_lower q) (to_lower (model_name m)) = true) :
  exists row, row ∈ filterBySearch (groupPricingModelsByDisplayName locale_after models) q /\
    model_name m ∈ default [] (model_aliases row).
Proof.
  destruct (rows_match models) as (rows & E & F). destruct (buckets_partition models) as [_ H2 _].
  rewrite <- H2 in Hm. apply list_elem_of_In, in_concat in Hm as (l & Hl & Hin).
  apply list_elem_of_In, list_elem_of_fmap in Hl as ([k l'] & -> & Hb). apply list_elem_of_In in Hin.
  apply list_elem_of_lookup in Hb as [i Hi]. destruct (Forall2_lookup_l _ _ _ _ _ F Hi) as (row & Hrow & Hmatch).
  assert (Ha : model_name m ∈ default [] (model_aliases row)).
  { rewrite (row_aliases _ _ Hmatch). by apply list_elem_of_fmap_2. }
  exists row. split; [|done]. rewrite search_found. apply elem_of_filterb. split.
  - unfold found. apply orb_true_iff. right. apply existsb_exists. exists (model_name m). split; [|done].
    apply list_elem_of_In. rewrite !elem_of_app. right. by left.
  - rewrite E. by apply list_elem_of_lookup_2 in Hrow.
Qed.

End Rows.

(** ** Two channels with one model *)

Definition plain_model (name : jsstr) (r : num) (groups : list jsstr) (tag : jsstr) : PricingModel := {|
  pm_id := num_of_Z 1; model_name := name; description := None; vendor_name := None; quota_type := TOKEN;
  model_ratio := r; completion_ratio := num_of_Z 1; model_price := None; cache_ratio := None;
  create_cache_ratio := None; image_ratio := None; audio_ratio := None; audio_completion_ratio := None;
  enable_groups := Some groups; tags := Some tag; supported_endpoint_types := None;
  group_ratio := Some [(js "cheap", num_of_Z 1); (js "vip", num_of_Z 10)];
  billing_mode := None; request_unit := None; billing_expr := None; display_name := Some name;
  model_aliases := None; pricing_variants := None |}.

(** A cheap model for a dear group, a dear one for a cheap group, and another model. *)
Definition two_channels : list PricingModel :=
  [ plain_model (js "a-gpt-5") (num_of_Z 1) [js "vip"] (js "Chat, new");
    plain_model (js "b-gpt-5") (num_of_Z 20) [js "cheap"] (js "Chat");
    plain_model (js "claude-4") (num_of_Z 3) [js "cheap"] (js "chat") ].

Definition square : list PricingModel := groupPricingModelsByDisplayName units_after two_channels.

(** The number that is formatted, for prices in dollars. *)
Definition plain_intl (code : option jsstr) (digits : nat) (x : num) : jsstr := num_to_string x.

(** The price of a row may be one that nobody pays: the row takes the ratios of one of
    its models and the groups of all of them.  Of two channels with one model, the first at
    2 dollars for a group that pays ten times as much, the second at 40 dollars for a group
    that pays the base price, the row shows 2, while its models show 20 and 40. *)
Theorem merged_price_unpaid :
  (fun row => (default [] (display_name row),
               formatPrice plain_intl None false (num_of_Z 1) (num_of_Z 1) row p_input M)) <$> square
  = [(js "claude-4", js "6"); (js "gpt-5", js "2")] /\
  (fun m => formatPrice plain_intl None false (num_of_Z 1) (num_of_Z 1) m p_input M) <$> two_channels
  = [js "20"; js "40"; js "6"].
Proof. split; vm_compute; reflexivity. Qed.

Lemma two_channels_priced : Forall priced two_channels.
Proof.
  assert (H : forall u, 0 < u < 2 ^ 53 -> amount (num_of_Z u)) by (intros u Hu; right; by apply num_of_Z_exact).
  repeat (apply Forall_cons; split); try apply Forall_nil; try done; by apply H.
Qed.

Definition cheapest_first : Filters := {|
  f_search := js "4"; f_vendor := FILTER_ALL; f_group := js "cheap"; f_quotaType := js "token";
  f_endpointType := js "all"; f_tag := js "CHAT"; f_sortBy := PRICE_LOW |}.

Lemma filter_sort_exact_witness :
  exists m, filterAndSortModels units_after two_channels cheapest_first = [m] /\ model_name m = js "claude-4" /\
  StronglySorted (in_order units_after PRICE_LOW) (filterAndSortModels units_after two_channels cheapest_first).
Proof.
  destruct (filter_sort_exact units_after units_after_asym units_after_trans two_channels cheapest_first) as [_ S].
  - exact two_channels_priced.
  - apply list_elem_of_further, list_elem_of_here.
  - eexists. split; [vm_compute; reflexivity|]. split; [vm_compute; reflexivity|]. exact S.
Defined.

Lemma offered_tags_select_witness :
  extractAllTags units_after two_channels = [js "chat"; js "new"] /\
  filterByTag two_channels (js "NEW") <> [].
Proof.
  split; [vm_compute; reflexivity|].
  apply (proj1 (offered_tags_select units_after two_channels (js "NEW") ltac:(done))).
  apply (bool_decide_eq_true_1 (_ ∈ _)). vm_compute. reflexivity.
Defined.

Lemma every_model_found_witness :
  exists row, row ∈ filterBySearch square (js "B-GPT") /\ js "b-gpt-5" ∈ default [] (model_aliases row).
Proof.
  apply (every_model_found units_after two_channels (plain_model (js "b-gpt-5") (num_of_Z 20) [js "cheap"] (js "Chat"))).
  - apply list_elem_of_further, list_elem_of_here.
  - vm_compute. reflexivity.
Defined.
