(* ===== verification/TieredEditor.v ===== *)
(** * The tiered price editor ([features/system-settings/models/tiered-pricing-editor.tsx])

    The editor of a model whose price is an expression: the tiers as cards or the text
    itself, and the request rules as groups.  The panel ([PricingEditor]) keeps the two texts
    the editor is given as [billingExpr] and [requestRuleExpr]; the editor writes them in
    effects.  A render runs the effects on the values of that render ([commit]), and React
    renders again until nothing has changed ([renders]).  [TieredEditorProofs] holds the
    theorems. *)

From S2P Require Import Prelude JsString JsRegex JsNumber JsValue BillingVars RequestRules.
From S2P Require Import TierExpr ModelPricing PricingEditor.

#[local] Open Scope outcome_scope.

(** ** Number inputs *)

Section TokenHint.
(** [Number.prototype.toLocaleString] *)
Variable to_locale_string : num -> jsstr.

Definition formatTokenHint (n : jsval) : jsstr :=
  if nullish n || is_str [] n || is_nan (to_number n) then []
  else
    let v := to_number n in
    if neqb v zero then js "= 0"
    else if nleb (num_of_Z 1000000) v
         then js "= " ++ to_locale_string (ndiv v (num_of_Z 1000000)) ++ js "M tokens"
    else if nleb (num_of_Z 1000) v
         then js "= " ++ to_locale_string (ndiv v (num_of_Z 1000)) ++ js "K tokens"
    else js "= " ++ to_locale_string v ++ js " tokens".
End TokenHint.

Definition unitCostToPrice (uc : jsval) : num := num_or_zero uc.

Definition priceToUnitCost (price : jsval) : num := num_or_zero price.

Definition formatNumberDraft (v : jsval) : jsstr :=
  match v with
  | VNum x => if is_finite x then num_to_string x else js "0"
  | VStr s => s
  | _ => []
  end.

Definition parseNumberDraft (s : jsstr) : num :=
  if negb (truthy_str (trim s)) then zero
  else let next := to_number (VStr s) in if is_finite next then next else zero.

Definition isZeroDraft (s : jsstr) : bool := truthy_str (trim s) && neqb (parseNumberDraft s) zero.

(** [DraftNumberInput]: [shown] is the property the field has been given. *)
Record DraftInput := { draft : jsstr; focused : bool; shown : jsval }.

Definition draft_mount (v : jsval) : DraftInput :=
  {| draft := formatNumberDraft v; focused := false; shown := v |}.

(** The effect on [focused] and [value], which a change of either sets off. *)
Definition draft_effect (d : DraftInput) : DraftInput :=
  if focused d then d
  else {| draft := formatNumberDraft (shown d); focused := false; shown := shown d |}.

Definition draft_given (v : jsval) (d : DraftInput) : DraftInput :=
  draft_effect {| draft := draft d; focused := focused d; shown := v |}.

(** The handlers, with the number reported to the parent. *)
Definition draft_change (t : jsstr) (d : DraftInput) : DraftInput * num :=
  ({| draft := t; focused := focused d; shown := shown d |}, parseNumberDraft t).

(** With whether the text is also selected; [handleMouseUp] selects it by the same test. *)
Definition draft_focus (selectZeroOnFocus : bool) (d : DraftInput) : DraftInput * bool :=
  ({| draft := draft d; focused := true; shown := shown d |},
   selectZeroOnFocus && isZeroDraft (draft d)).

Definition draft_blur (d : DraftInput) : DraftInput * num :=
  let normalized := parseNumberDraft (draft d) in
  ({| draft := num_to_string normalized; focused := false; shown := shown d |}, normalized).

(** ** The card of a tier *)

(** [{ ...o, [k]: v }] *)
Definition with_prop (k : jsstr) (v : jsval) (o : obj) : obj := oset k v (ospread [] o).

Definition tier_conditions (tier : obj) : list jsval := items (at_ (js "conditions") tier).

Definition with_conditions (l : list jsval) (tier : obj) : obj :=
  with_prop (js "conditions") (VArr l) tier.

(** The row of a condition: its three inputs. *)
Inductive row_change := RowVar (v : jsstr) | RowOp (op : jsstr) | RowValue (n : num).

Definition change_row (r : row_change) (condition : jsval) : jsval :=
  VObj (match r with
        | RowVar v => with_prop (js "var") (VStr v) (entries_of condition)
        | RowOp op => with_prop (js "op") (VStr op) (entries_of condition)
        | RowValue n => with_prop (js "value") (VNum n) (entries_of condition)
        end).

Inductive card_action :=
  | CardLabel (s : jsstr)
  | CardCondition (i : nat) (next : jsval)
  | CardRemoveCondition (i : nat)
  | CardPrice (field : jsstr) (v : num)
  | CardCacheMode (mode : jsstr).

(** A row's index is one of the list shown. *)
Definition handleConditionChange (i : nat) (next : jsval) (tier : obj) : obj :=
  with_conditions (<[i := next]> (tier_conditions tier)) tier.

Definition handleConditionRemove (i : nat) (tier : obj) : obj :=
  with_conditions (delete i (tier_conditions tier)) tier.

Definition handlePriceChange (field : jsstr) (v : num) (tier : obj) : obj :=
  with_prop field (VNum v) tier.

Definition handleCacheModeChange (mode : jsstr) (tier : obj) : obj :=
  with_prop (js "cache_create_1h_unit_cost")
    (if bool_decide (mode = CACHE_MODE_TIMED)
     then vnullish (at_ (js "cache_create_1h_unit_cost") tier) (VNum zero) else VNum zero)
    (with_prop (js "cache_mode") (VStr mode) tier).

Definition act_card (a : card_action) (tier : obj) : obj :=
  match a with
  | CardLabel s => with_prop (js "label") (VStr s) tier
  | CardCondition i next => handleConditionChange i next tier
  | CardRemoveCondition i => handleConditionRemove i tier
  | CardPrice field v => handlePriceChange field (priceToUnitCost (VNum v)) tier
  | CardCacheMode mode => handleCacheModeChange mode tier
  end.

Definition vars_of_group (g : jsstr) : list BillingVar :=
  filterb (fun v => bool_decide (group v = Some g)) BILLING_EXTRA_VARS.

Definition CACHE_PRICE_VARS : list BillingVar := vars_of_group (js "cache").
Definition MEDIA_PRICE_VARS : list BillingVar := vars_of_group (js "media").

(** The cost a price field of the card shows. *)
Definition shown_price (tier : obj) (v : BillingVar) : num :=
  unitCostToPrice (vnullish (at_ (default [] (tierField v)) tier) (VNum zero)).

Definition hasMediaPricing (tier : obj) : bool :=
  existsb (fun v => nltb zero (shown_price tier v)) MEDIA_PRICE_VARS.

(** The cache prices shown: that of one hour only in the timed mode. *)
Definition shown_cache_vars (tier : obj) : list BillingVar :=
  filterb (fun v => negb (bool_decide (key v = js "cc1h")
                          && negb (bool_decide (getTierCacheMode tier = CACHE_MODE_TIMED))))
    CACHE_PRICE_VARS.

(** ** The list of tiers *)

(** [{ var: v, op: '<', value: 200000 }] *)
Definition default_condition (v : jsstr) : jsval :=
  VObj (obj_of [ (js "var", VStr v); (js "op", VStr (js "<")); (js "value", VNum (num_of_Z 200000)) ]).

Definition handleTierChange (i : nat) (next : obj) (config : VisualConfig) : VisualConfig :=
  {| tiers := <[i := normalizeVisualTier next]> (tiers config) |}.

(** The last tier gets a condition before another is added after it. *)
Definition bound_last (ts : list obj) : list obj :=
  match last ts with
  | Some tier =>
      if (length (tier_conditions tier) =? 0)%nat
      then <[length ts - 1 := normalizeVisualTier
                                (with_conditions [default_condition (js "len")] tier)]> ts
      else ts
  | None => ts
  end.

Definition new_tier (n : nat) : obj :=
  normalizeVisualTier
    (obj_of [ (js "label", VStr (js "tier_" ++ digits_of (N.of_nat (n + 1))));
              (js "conditions", VArr []);
              (js "input_unit_cost", VNum zero); (js "output_unit_cost", VNum zero) ]).

Definition handleAddTier (config : VisualConfig) : VisualConfig :=
  {| tiers := bound_last (tiers config) ++ [new_tier (length (tiers config))] |}.

Definition handleRemoveTier (i : nat) (config : VisualConfig) : VisualConfig :=
  match delete i (tiers config) with
  | [] => config
  | ts => {| tiers := ts |}
  end.

Definition next_var (conditions : list jsval) : jsstr :=
  if existsb (fun c => is_str (js "len") (prop (js "var") c)) conditions then js "c" else js "len".

(** None where the handler changes nothing. *)
Definition handleAddCondition (i : nat) (config : VisualConfig) : option VisualConfig :=
  match tiers config !! i with
  | Some tier =>
      let cs := tier_conditions tier in
      if (2 <=? length cs)%nat then None
      else Some {| tiers := <[i := with_conditions (cs ++ [default_condition (next_var cs)]) tier]>
                              (tiers config) |}
  | None => None
  end.

Inductive tier_action :=
  | OnCard (i : nat) (a : card_action)
  | AddTier
  | RemoveTier (i : nat)
  | AddCondition (i : nat).

(** What the list of tiers hands to [handleVisualChange], given the configuration held. *)
Definition edit_tiers (a : tier_action) (visualConfig : option VisualConfig) : option VisualConfig :=
  let config := normalizeVisualConfig visualConfig in
  match a with
  | OnCard i a =>
      match tiers config !! i with
      | Some tier => Some (handleTierChange i (act_card a tier) config)
      | None => None
      end
  | AddTier => Some (handleAddTier config)
  | RemoveTier i => Some (handleRemoveTier i config)
  | AddCondition i => handleAddCondition i config
  end.

(** ** Request rules *)

(** The inputs of a condition's row, of either kind. *)
Inductive rule_row :=
  | RowSource (source : jsstr)
  | RowMode (mode : jsstr)
  | RowTimeFunc (f : TimeFunc)
  | RowTimezone (tz : jsstr)
  | RowRangeStart (n : num)
  | RowRangeEnd (n : num)
  | RowTimeValue (n : num)
  | RowPath (s : jsstr)
  | RowText (s : jsstr).

Definition sourced (s : PHSource) : RequestCondition :=
  CPH {| ph_source := s; path := path createEmptyCondition; ph_mode := ph_mode createEmptyCondition;
         ph_value := ph_value createEmptyCondition |}.

Definition handleSourceChange (source : jsstr) (c : RequestCondition) : RequestCondition :=
  if bool_decide (source = js "time") then CTime createEmptyTimeCondition
  else if bool_decide (source = js "header") || bool_decide (source = js "param")
       then sourced (source_of source) else c.

Definition change_time (r : rule_row) (c : TimeCondition) : TimeCondition :=
  let mk f tz m v s e := {| timeFunc := f; timezone := tz; t_mode := m; t_value := v;
                            rangeStart := s; rangeEnd := e |} in
  let '(Build_TimeCondition f tz m v s e) := c in
  match r with
  | RowMode m' => mk f tz m' v s e
  | RowTimeFunc f' => mk f' tz m v s e
  | RowTimezone tz' => mk f tz' m v s e
  | RowRangeStart n => mk f tz m v (num_to_string n) e
  | RowRangeEnd n => mk f tz m v s (num_to_string n)
  | RowTimeValue n => mk f tz m (num_to_string n) s e
  | _ => c
  end.

Definition change_ph (r : rule_row) (c : ParamHeaderCondition) : ParamHeaderCondition :=
  match r with
  | RowMode m => {| ph_source := ph_source c; path := path c; ph_mode := m; ph_value := ph_value c |}
  | RowPath p => {| ph_source := ph_source c; path := p; ph_mode := ph_mode c; ph_value := ph_value c |}
  | RowText v => {| ph_source := ph_source c; path := path c; ph_mode := ph_mode c; ph_value := v |}
  | _ => c
  end.

Definition change_rule_row (r : rule_row) (c : RequestCondition) : RequestCondition :=
  match r, c with
  | RowSource s, _ => handleSourceChange s c
  | _, CTime t => CTime (change_time r t)
  | _, CPH p => CPH (change_ph r p)
  end.

Inductive group_action :=
  | RuleRow (i : nat) (r : rule_row)
  | RemoveRule (i : nat)
  | AddRule (timeMode : bool)
  | Multiply (n : num).

Definition act_group (a : group_action) (g : RequestRuleGroup) : RequestRuleGroup :=
  let cs := RequestRules.conditions g in
  match a with
  | RuleRow i r =>
      {| RequestRules.conditions := alter (change_rule_row r) i cs; multiplier := multiplier g |}
  | RemoveRule i => {| RequestRules.conditions := delete i cs; multiplier := multiplier g |}
  | AddRule timeMode =>
      {| RequestRules.conditions :=
           cs ++ [if timeMode then CTime createEmptyTimeCondition else CPH createEmptyCondition];
         multiplier := multiplier g |}
  | Multiply n => {| RequestRules.conditions := cs; multiplier := num_to_string n |}
  end.

Inductive rules_action :=
  | OnGroup (i : nat) (a : group_action)
  | RemoveGroup (i : nat)
  | AddGroup.

Definition edit_groups (a : rules_action) (gs : list RequestRuleGroup) : list RequestRuleGroup :=
  match a with
  | OnGroup i a => alter (act_group a) i gs
  | RemoveGroup i => delete i gs
  | AddGroup => gs ++ [createEmptyRuleGroup]
  end.

(** ** Presets *)

Record Preset := { preset_key : jsstr; expr : jsstr; requestRules : list RequestRuleGroup }.

(** [tier("label", body)] *)
Definition tier_of (label body : String.string) : jsstr :=
  js "tier(" ++ dq ++ js label ++ dq ++ js ", " ++ js body ++ js ")".

Definition header_rule (p v m : String.string) : RequestRuleGroup :=
  {| RequestRules.conditions := [ph header (js p) MATCH_CONTAINS (js v)]; multiplier := js m |}.

Definition param_rule (p v m : String.string) : RequestRuleGroup :=
  {| RequestRules.conditions := [ph param (js p) MATCH_EQ (js v)]; multiplier := js m |}.

Definition time_rule (f : TimeFunc) (mode v s e m : String.string) : RequestRuleGroup :=
  {| RequestRules.conditions :=
       [CTime {| timeFunc := f; timezone := js "Asia/Shanghai"; t_mode := js mode; t_value := js v;
                 rangeStart := js s; rangeEnd := js e |}];
     multiplier := js m |}.

Definition preset (k : String.string) (e : jsstr) (rules : list RequestRuleGroup) : Preset :=
  {| preset_key := js k; expr := e; requestRules := rules |}.

Arguments tier_of (label body)%_string_scope.
Arguments header_rule (p v m)%_string_scope.
Arguments param_rule (p v m)%_string_scope.
Arguments time_rule f (mode v s e m)%_string_scope.
Arguments preset k%_string_scope e rules.

Definition PRESET_GROUPS : list (jsstr * list Preset) :=
  let opus := tier_of "base" "p * 5 + c * 25 + cr * 0.5 + cc * 6.25 + cc1h * 10" in
  let gpt := js "len <= 272000 ? " ++ tier_of "standard" "p * 2.5 + c * 15 + cr * 0.25"
             ++ js " : " ++ tier_of "long_context" "p * 5 + c * 22.5 + cr * 0.5" in
  [ (js "Fixed price",
     [ preset "flat" (tier_of "base" "p * 2 + c * 4") [];
       preset "claude-opus" opus [];
       preset "gpt-5.4" gpt [] ]);
    (js "Tiered",
     [ preset "claude-sonnet"
         (js "len <= 200000 ? "
          ++ tier_of "standard" "p * 3 + c * 15 + cr * 0.3 + cc * 3.75 + cc1h * 6"
          ++ js " : " ++ tier_of "long_context" "p * 6 + c * 22.5 + cr * 0.6 + cc * 7.5 + cc1h * 12") [];
       preset "qwen3-max"
         (js "len <= 32000 ? " ++ tier_of "short" "p * 1.2 + c * 6 + cr * 0.24 + cc * 1.5"
          ++ js " : len <= 128000 ? " ++ tier_of "mid" "p * 2.4 + c * 12 + cr * 0.48 + cc * 3"
          ++ js " : " ++ tier_of "long" "p * 3 + c * 15 + cr * 0.6 + cc * 3.75") [];
       preset "glm-4.5-air"
         (js "len < 32000 && c < 200 ? " ++ tier_of "short_output" "p * 0.8 + c * 2 + cr * 0.16"
          ++ js " : len < 32000 && c >= 200 ? " ++ tier_of "long_output" "p * 0.8 + c * 6 + cr * 0.16"
          ++ js " : " ++ tier_of "mid_context" "p * 1.2 + c * 8 + cr * 0.24") [];
       preset "doubao-seed-1.8"
         (js "len <= 32000 && c <= 200 ? "
          ++ tier_of "discount" "p * 0.8 + c * 2 + cr * 0.16 + cc * 0.17"
          ++ js " : len <= 32000 ? " ++ tier_of "short" "p * 0.8 + c * 8 + cr * 0.16 + cc * 0.17"
          ++ js " : len <= 128000 ? " ++ tier_of "mid" "p * 1.2 + c * 16 + cr * 0.16 + cc * 0.17"
          ++ js " : " ++ tier_of "long" "p * 2.4 + c * 24 + cr * 0.16 + cc * 0.17") [] ]);
    (js "Multimodal",
     [ preset "gpt-image-1-mini" (tier_of "base" "p * 2 + c * 8 + img * 2.5") [];
       preset "gemini-2.5-flash" (tier_of "base" "p * 0.3 + c * 2.5 + cr * 0.03 + ai * 1.0") [];
       preset "gemini-3-pro-image" (tier_of "base" "p * 2 + c * 12 + img_o * 120") [];
       preset "qwen3-omni-flash"
         (tier_of "base" "p * 0.43 + c * 3.06 + img * 0.78 + ai * 3.81 + ao * 15.11") [] ]);
    (js "Request rule",
     [ preset "claude-opus-fast" opus [header_rule "anthropic-beta" "fast-mode-2026-02-01" "6"];
       preset "gpt-5.4-tiers" gpt
         [param_rule "service_tier" "priority" "2"; param_rule "service_tier" "flex" "0.5"] ]);
    (js "Time-based",
     [ preset "night-discount" (tier_of "base" "p * 3 + c * 15")
         [time_rule hour "range" "" "21" "6" "0.5"];
       preset "weekend-discount" (tier_of "base" "p * 3 + c * 15")
         [time_rule weekday "eq" "0" "" "" "0.8"; time_rule weekday "eq" "6" "" "" "0.8"] ]) ].

Definition presets : list Preset := PRESET_GROUPS ≫= snd.

(** The groups of presets shown. *)
Definition visible_presets (expanded : bool) : list (jsstr * list Preset) :=
  if expanded then PRESET_GROUPS else take 2 PRESET_GROUPS.

(** ** The editor *)

Inductive EditorMode := visual | raw.

#[export] Instance EditorMode_eq_dec : EqDecision EditorMode.
Proof. solve_decision. Defined.

(** The four states of the editor, and the properties it is given. *)
Record Local := {
  editorMode : EditorMode;
  visualConfig : option VisualConfig;
  rawExpr : jsstr;
  requestRuleGroups : list RequestRuleGroup }.

Record Props := { modelName : jsstr; currentExpr : jsstr; currentRequestRuleExpr : jsstr }.

(** [seen] and [seen_name] are the dependencies the first two effects ran with last, None
    before the first render. *)
Record Editor := {
  local : Local;
  props : Props;
  initRef : bool;
  seen : option (jsstr * jsstr);
  seen_name : option jsstr }.

(** [tryParseRequestRuleExpr(rules) || []] *)
Definition read_groups (rules : jsstr) : outcome (list RequestRuleGroup) :=
  let! parsed := tryParseRequestRuleExpr rules in Return (default [] parsed).

(** The states the first render starts from. *)
Definition initial_local (p : Props) : outcome Local :=
  let! gs := read_groups (currentRequestRuleExpr p) in
  Return {| editorMode := visual; visualConfig := tryParseVisualConfig (Some (currentExpr p));
            rawExpr := combineBillingExpr (currentExpr p) (currentRequestRuleExpr p);
            requestRuleGroups := gs |}.

Definition mount (p : Props) : outcome Editor :=
  let! l := initial_local p in
  Return {| local := l; props := p; initRef := false; seen := None; seen_name := None |}.

Definition canUseVisualRules (rules : jsstr) : outcome bool :=
  if negb (truthy_str rules) then Return true
  else let! parsed := tryParseRequestRuleExpr rules in
       Return (match parsed with Some _ => true | None => false end).

Definition effectiveExpr (l : Local) : outcome jsstr :=
  match editorMode l with
  | visual => Return (generateExprFromVisualConfig (visualConfig l))
  | raw => let! s := splitBillingExprAndRequestRules (rawExpr l) in Return (RequestRules.billingExpr s)
  end.

(** *** Effects *)

(** The configuration and mode the first effect sets. *)
Definition init_mode (cur : jsstr) (mode : EditorMode) : option VisualConfig * EditorMode :=
  match tryParseVisualConfig (Some cur) with
  | Some cfg => (Some cfg, visual)
  | None => if truthy_str cur then (None, raw) else (Some createDefaultVisualConfig, mode)
  end.

(** What the first effect sets the states to, from the properties. *)
Definition init_local (p : Props) (l : Local) : outcome Local :=
  let! gs := read_groups (currentRequestRuleExpr p) in
  let cm := init_mode (currentExpr p) (editorMode l) in
  Return {| editorMode := snd cm; visualConfig := fst cm;
            rawExpr := combineBillingExpr (currentExpr p) (currentRequestRuleExpr p);
            requestRuleGroups := gs |}.

Definition deps (p : Props) : jsstr * jsstr := (currentExpr p, currentRequestRuleExpr p).

(** Whether the first effect runs, and does not return at [initRef]. *)
Definition init_due (e : Editor) : bool :=
  negb (bool_decide (seen e = Some (deps (props e)))) && negb (initRef e).

(** The rules the editor asks the panel to keep: the fourth effect. *)
Definition rules_out (l : Local) (rules : jsstr) : jsstr :=
  match editorMode l with visual => buildRequestRuleExpr (requestRuleGroups l) | raw => rules end.

(** One render with its effects, in order: the first sets the states, the second the
    reference, the last two call back where the texts differ.  All of them see the values of
    the render, the reference excepted.  The last two run on every render here: when their
    dependencies have not changed they have nothing to write, since what they compare was
    made equal when they ran. *)
Definition commit (e : Editor) : outcome Editor :=
  let! effective := effectiveExpr (local e) in
  let! _ := canUseVisualRules (currentRequestRuleExpr (props e)) in
  let! l := (if init_due e then init_local (props e) (local e) else Return (local e)) in
  let name_changed := negb (bool_decide (seen_name e = Some (modelName (props e)))) in
  let p := props e in
  let rules := rules_out (local e) (currentRequestRuleExpr p) in
  Return {| local := l;
            props := {| modelName := modelName p;
                        currentExpr := if bool_decide (effective = currentExpr p)
                                       then currentExpr p else effective;
                        currentRequestRuleExpr := if bool_decide (rules = currentRequestRuleExpr p)
                                                  then currentRequestRuleExpr p else rules |};
            initRef := if name_changed then false else initRef e || init_due e;
            seen := Some (deps p); seen_name := Some (modelName p) |}.

(** Renders, one after the other; one that changes nothing is the last. *)
Fixpoint renders (n : nat) (e : Editor) : outcome Editor :=
  match n with
  | O => Return e
  | S n => let! e' := commit e in renders n e'
  end.

Definition quiet (e : Editor) : Prop := commit e = Return e.

(** *** Handlers *)

Definition with_local (l : Local) (e : Editor) : Editor :=
  {| local := l; props := props e; initRef := initRef e; seen := seen e; seen_name := seen_name e |}.

Definition given (p : Props) (e : Editor) : Editor :=
  {| local := local e; props := p; initRef := initRef e; seen := seen e; seen_name := seen_name e |}.

(** [onRequestRuleExprChange] *)
Definition put_rules (rules : jsstr) (p : Props) : Props :=
  {| modelName := modelName p; currentExpr := currentExpr p; currentRequestRuleExpr := rules |}.

Definition handleVisualChange (next : VisualConfig) (l : Local) : Local :=
  {| editorMode := editorMode l; visualConfig := Some next; rawExpr := rawExpr l;
     requestRuleGroups := requestRuleGroups l |}.

Definition handleRuleGroupsChange (next : list RequestRuleGroup) (l : Local) : Local :=
  {| editorMode := editorMode l; visualConfig := visualConfig l; rawExpr := rawExpr l;
     requestRuleGroups := next |}.

(** A handler that calls back returns the states and the rules to keep. *)
Definition handleRawChange (value : jsstr) (l : Local) : outcome (Local * jsstr) :=
  let! s := splitBillingExprAndRequestRules value in
  Return ({| editorMode := editorMode l; visualConfig := visualConfig l; rawExpr := value;
             requestRuleGroups := requestRuleGroups l |}, RequestRules.requestRuleExpr s).

Definition switch_visual (l : Local) : outcome (Local * jsstr) :=
  let! s := splitBillingExprAndRequestRules (rawExpr l) in
  let parsed := tryParseVisualConfig (Some (RequestRules.billingExpr s)) in
  let! gs := read_groups (RequestRules.requestRuleExpr s) in
  Return ({| editorMode := visual; visualConfig := Some (default createDefaultVisualConfig parsed);
             rawExpr := rawExpr l; requestRuleGroups := gs |}, RequestRules.requestRuleExpr s).

Definition switch_raw (l : Local) : Local :=
  let e := generateExprFromVisualConfig (visualConfig l) in
  let ruleExpr := buildRequestRuleExpr (requestRuleGroups l) in
  {| editorMode := raw; visualConfig := visualConfig l;
     rawExpr := or_str (combineBillingExpr e ruleExpr) e; requestRuleGroups := requestRuleGroups l |}.

Definition applyPreset (preset : Preset) (l : Local) : Local * jsstr :=
  let presetGroups := requestRules preset in
  let ruleExpr := buildRequestRuleExpr presetGroups in
  let parsed := tryParseVisualConfig (Some (expr preset)) in
  ({| editorMode := match parsed with Some _ => visual | None => raw end; visualConfig := parsed;
      rawExpr := or_str (combineBillingExpr (expr preset) ruleExpr) (expr preset);
      requestRuleGroups := presetGroups |}, ruleExpr).

(** What the user does. *)
Inductive edit :=
  | Tiers (a : tier_action)
  | Rules (a : rules_action)
  | TypeRaw (value : jsstr)
  | Mode (next : EditorMode)
  | ApplyPreset (p : Preset).

(** The states after an edit, with the rules a handler calls back with. *)
Definition handle (a : edit) (l : Local) : outcome (Local * option jsstr) :=
  match a with
  | Tiers a =>
      Return (match edit_tiers a (visualConfig l) with
              | Some next => handleVisualChange next l
              | None => l
              end, None)
  | Rules a => Return (handleRuleGroupsChange (edit_groups a (requestRuleGroups l)) l, None)
  | TypeRaw value => omapr (fun r => (fst r, Some (snd r))) (handleRawChange value l)
  | Mode visual => omapr (fun r => (fst r, Some (snd r))) (switch_visual l)
  | Mode raw => Return (switch_raw l, None)
  | ApplyPreset p => let r := applyPreset p l in Return (fst r, Some (snd r))
  end.

Definition act (a : edit) (e : Editor) : outcome Editor :=
  let! r := handle a (local e) in
  Return (given (match snd r with
                 | Some rules => put_rules rules (props e)
                 | None => props e
                 end) (with_local (fst r) e)).

(** An edit, with the renders it sets off; five are enough ([TieredEditorProofs.editor_effects_settle]). *)
Definition step (a : edit) (e : Editor) : outcome Editor :=
  let! e' := act a e in renders 5 e'.

(** The panel gives the editor another model, or the same under another name. *)
Definition reopen (p : Props) (e : Editor) : outcome Editor := renders 5 (given p e).

(** The editor appears: the tab of tiered prices is shown. *)
Definition open (p : Props) : outcome Editor :=
  let! e := mount p in renders 5 e.

(** *** In the panel *)

(** What the panel gives the editor, and the panel with what the editor made of it. *)
Definition props_of (p : Panel) : Props :=
  {| modelName := p_name p; currentExpr := p_expr p; currentRequestRuleExpr := p_rules p |}.

Definition edited (e : Editor) (p : Panel) : Panel :=
  set_other (p_name p) (pricingMode p) (currentExpr (props e)) (currentRequestRuleExpr (props e))
    (p_unit p) p.

(** *** The estimator *)

(** The state key of an extra variable: [variable.field.replace('Price', 'Tokens')]. *)
Definition replace_once (pat rep s : jsstr) : jsstr :=
  match index_of pat s with
  | Some i => take i s ++ rep ++ drop (i + length pat) s
  | None => s
  end.

Definition estimator_key (v : BillingVar) : option jsstr :=
  replace_once (js "Price") (js "Tokens") <$> field v.

(** [setExtras]: one of the token counts. *)
Definition set_extra (k : jsstr) (n : num) (extras : obj) : obj := with_prop k (VNum n) extras.
