(* ===== verification/TieredEditorProofs.v ===== *)
(** * Theorems about the tiered price editor ([TieredEditor])

    The effects settle.  From every state it reaches the editor behaves like a machine
    without effects but for one reading: the reference that stops the reading from being
    repeated is cleared by the second effect as the editor appears, so the first change of a
    text is read back.  For the same reason opening an expression the cards cannot show
    replaces it, and a model opened after another gets the other's price. *)

From S2P Require Import Prelude JsString JsRegex JsNumber JsValue BillingVars RequestRules.
From S2P Require Import RequestRulesProofs TierExpr ModelPricing PricingSnapshots PricingEditor.
From S2P Require Import TieredEditor.

#[local] Open Scope outcome_scope.

(** ** One render *)

Definition expr_of (e : Editor) : jsstr := currentExpr (props e).
Definition rules_of (e : Editor) : jsstr := currentRequestRuleExpr (props e).

Definition named (e : Editor) : bool := bool_decide (seen_name e = Some (modelName (props e))).

(** The effects have read the properties, and the name is the one they saw. *)
Definition armed (e : Editor) : Prop := initRef e = true /\ named e = true.

Lemma same_or {A} `{EqDecision A} (x y : A) : (if bool_decide (x = y) then y else x) = x.
Proof. by case_bool_decide. Qed.

(** A render that does not fail, by its parts. *)
Lemma commit_equation e eff b l :
  effectiveExpr (local e) = Return eff -> canUseVisualRules (rules_of e) = Return b ->
  (if init_due e then init_local (props e) (local e) else Return (local e)) = Return l ->
  commit e = Return
    {| local := l;
       props := {| modelName := modelName (props e); currentExpr := eff;
                   currentRequestRuleExpr := rules_out (local e) (rules_of e) |};
       initRef := if named e then initRef e || init_due e else false;
       seen := Some (deps (props e)); seen_name := Some (modelName (props e)) |}.
Proof.
  intros He Hb Hl. unfold commit. fold (rules_of e). rewrite He, Hb. cbn [obind]. rewrite Hl. cbn [obind].
  unfold named, expr_of. rewrite !same_or. by case_bool_decide.
Qed.

Lemma commit_inv e e' :
  commit e = Return e' ->
  exists b, effectiveExpr (local e) = Return (expr_of e')
  /\ canUseVisualRules (rules_of e) = Return b
  /\ (if init_due e then init_local (props e) (local e) else Return (local e)) = Return (local e')
  /\ rules_of e' = rules_out (local e) (rules_of e)
  /\ modelName (props e') = modelName (props e)
  /\ initRef e' = (if named e then initRef e || init_due e else false)
  /\ seen e' = Some (deps (props e)) /\ seen_name e' = Some (modelName (props e)).
Proof.
  intros H. unfold commit in H. fold (rules_of e) in H.
  destruct (effectiveExpr (local e)) as [eff|] eqn:He; [|done]. cbn [obind] in H.
  destruct (canUseVisualRules (rules_of e)) as [b|] eqn:Hb; [|done]. cbn [obind] in H.
  destruct (if init_due e then _ else _) as [l|] eqn:Hl; [|done]. cbn [obind] in H.
  injection H as <-. exists b. unfold expr_of, rules_of, named in *. cbn.
  rewrite !same_or. repeat split; try done. by case_bool_decide.
Qed.

Lemma rules_out_idemp l r : rules_out l (rules_out l r) = rules_out l r.
Proof. unfold rules_out. by destruct (editorMode l). Qed.

Lemma armed_due e : armed e -> init_due e = false.
Proof. intros [H _]. unfold init_due. by rewrite H, andb_false_r. Qed.

Lemma deps_eq p q : deps p = deps q -> modelName p = modelName q -> p = q.
Proof. destruct p, q. unfold deps. cbn. congruence. Qed.

(** ** Settling *)

Lemma armed_commit e e' :
  armed e -> commit e = Return e' ->
  armed e' /\ local e' = local e /\ rules_of e' = rules_out (local e) (rules_of e)
  /\ effectiveExpr (local e) = Return (expr_of e') /\ seen e' = Some (deps (props e))
  /\ modelName (props e') = modelName (props e).
Proof.
  intros Ha H. destruct (commit_inv _ _ H) as (b & He & Hb & Hl & Hr & Hn & Hi & Hs & Hsn).
  rewrite (armed_due e Ha) in Hl, Hi. destruct Ha as [Hi0 Hn0]. injection Hl as Hl.
  rewrite Hn0, Hi0 in Hi. repeat split; try done. unfold named. rewrite Hsn, Hn.
  by apply bool_decide_eq_true.
Qed.

(** A render whose effects have nothing left to do. *)
Lemma quiet_intro e b :
  effectiveExpr (local e) = Return (expr_of e) -> canUseVisualRules (rules_of e) = Return b ->
  rules_out (local e) (rules_of e) = rules_of e -> seen e = Some (deps (props e)) ->
  named e = true -> quiet e.
Proof.
  intros He Hb Hr Hs Hn. unfold quiet.
  assert (Hd : init_due e = false).
  { unfold init_due. by rewrite Hs, bool_decide_eq_true_2. }
  rewrite (commit_equation e _ b (local e) He Hb) by by rewrite Hd.
  unfold named in Hn. apply bool_decide_eq_true in Hn. unfold named.
  rewrite Hr, Hd, Hn, bool_decide_eq_true_2, orb_false_r by done.
  destruct e as [l p i s sn]. cbn in *. subst. by destruct p.
Qed.

Lemma quiet_inv e :
  quiet e -> effectiveExpr (local e) = Return (expr_of e)
  /\ (exists b, canUseVisualRules (rules_of e) = Return b)
  /\ rules_out (local e) (rules_of e) = rules_of e /\ seen e = Some (deps (props e)) /\ named e = true.
Proof.
  intros H. destruct (commit_inv _ _ H) as (b & He & Hb & _ & Hr & _ & _ & Hs & Hsn).
  repeat split; try done; [by exists b|]. unfold named. rewrite Hsn. by apply bool_decide_eq_true.
Qed.

(** Nothing changes in a quiet state but what the user does. *)
Lemma quiet_renders n e : quiet e -> renders n e = Return e.
Proof. intros H. induction n as [|n IH]; [done|]. cbn [renders]. rewrite H. exact IH. Qed.

Lemma renders_add n m e : renders (n + m) e = obind (renders n e) (renders m).
Proof.
  revert e; induction n as [|n IH]; intros e; [done|]. cbn [renders Nat.add].
  destruct (commit e) as [e'|]; [apply IH|done].
Qed.

Lemma armed_settles e e1 e2 :
  armed e -> commit e = Return e1 -> commit e1 = Return e2 -> quiet e2.
Proof.
  intros Ha H1 H2. destruct (armed_commit _ _ Ha H1) as (Ha1 & L1 & R1 & E1 & S1 & N1).
  destruct (armed_commit _ _ Ha1 H2) as (Ha2 & L2 & R2 & E2 & S2 & N2).
  destruct (commit_inv _ _ H2) as (b & _ & Hb & _).
  assert (HR : rules_of e2 = rules_of e1) by by rewrite R2, L1, R1, rules_out_idemp.
  assert (HE : expr_of e2 = expr_of e1) by (rewrite L1 in E2; congruence).
  apply (quiet_intro _ b).
  - by rewrite L2.
  - by rewrite HR.
  - by rewrite HR, L2, L1, R1, rules_out_idemp.
  - rewrite S2. f_equal. unfold deps. fold (expr_of e1) (rules_of e1) (expr_of e2) (rules_of e2). congruence.
  - by destruct Ha2.
Qed.

(** A render that reads no properties and follows one with the same texts is quiet or arms. *)
Lemma commit_named e e' : commit e = Return e' -> named e' = true.
Proof.
  intros H. destruct (commit_inv _ _ H) as (b & _ & _ & _ & _ & Hn & _ & _ & Hsn).
  unfold named. rewrite Hsn, Hn. by apply bool_decide_eq_true.
Qed.

Lemma commit_armed e e' :
  named e = true -> commit e = Return e' -> initRef e || init_due e = true -> armed e'.
Proof.
  intros Hn H Hi. split; [|by apply (commit_named e)].
  destruct (commit_inv _ _ H) as (b & _ & _ & _ & _ & _ & Hi' & _). by rewrite Hi', Hn.
Qed.

(** Where nothing is due the states stay, and the texts are those the states print. *)
Lemma commit_idle e e' :
  commit e = Return e' -> init_due e = false ->
  local e' = local e /\ effectiveExpr (local e') = Return (expr_of e')
  /\ rules_out (local e') (rules_of e') = rules_of e' /\ seen e' = Some (deps (props e)).
Proof.
  intros H Hd. destruct (commit_inv _ _ H) as (b & He & _ & Hl & Hr & _ & _ & Hs & _).
  rewrite Hd in Hl. injection Hl as Hl. rewrite <- Hl. repeat split; try done.
  by rewrite Hr, rules_out_idemp.
Qed.

(** Not due although unread: the texts are the ones seen. *)
Lemma not_due_seen e : init_due e = false -> initRef e = false -> seen e = Some (deps (props e)).
Proof.
  unfold init_due. intros H Hi. rewrite Hi, andb_true_r in H. apply negb_false_iff in H.
  by apply bool_decide_eq_true in H.
Qed.

Lemma five_renders e e' : renders 5 e = Return e' -> quiet e'.
Proof.
  cbn [renders]. intros H.
  destruct (commit e) as [e1|] eqn:H1; [|done]. cbn [obind] in H.
  destruct (commit e1) as [e2|] eqn:H2; [|done]. cbn [obind] in H.
  destruct (commit e2) as [e3|] eqn:H3; [|done]. cbn [obind] in H.
  destruct (commit e3) as [e4|] eqn:H4; [|done]. cbn [obind] in H.
  destruct (commit e4) as [e5|] eqn:H5; [|done]. injection H as <-.
  pose proof (commit_named _ _ H1) as N1. pose proof (commit_named _ _ H2) as N2.
  destruct (initRef e1 || init_due e1) eqn:D1.
  { assert (A2 : armed e2) by by apply (commit_armed e1).
    assert (Q : quiet e4) by by apply (armed_settles e2 e3).
    rewrite Q in H5. by injection H5 as <-. }
  apply orb_false_iff in D1 as [I1 D1]. destruct (commit_idle _ _ H2 D1) as (L2 & E2 & R2 & S2).
  destruct (initRef e2 || init_due e2) eqn:D2.
  { assert (A3 : armed e3) by by apply (commit_armed e2). by apply (armed_settles e3 e4). }
  apply orb_false_iff in D2 as [I2 D2].
  destruct (commit_inv _ _ H3) as (b & _ & Hb & _).
  assert (Q : quiet e2) by (apply (quiet_intro _ b); auto using not_due_seen).
  rewrite Q in H3. injection H3 as <-. rewrite Q in H4. injection H4 as <-.
  rewrite Q in H5. by injection H5 as <-.
Qed.

(** A run of renders has come to an end: a further one changes nothing, or one has thrown. *)
Definition settled (o : outcome Editor) : Prop :=
  match o with Return e => quiet e | Throw => True end.

(** C37. The effects of the editor settle: whatever state it is in and whatever properties it is
    given, five renders in a row, or more, end in a state that a further render does not
    change, unless one of them throws.  No sequence of call-backs between the editor and its
    panel goes on for ever. *)
Theorem editor_effects_settle e n : settled (renders (5 + n) e).
Proof.
  rewrite renders_add. destruct (renders 5 e) as [e'|] eqn:E; [|done]. cbn [obind].
  apply five_renders in E. by rewrite (quiet_renders n e' E).
Qed.

(** ** A machine without effects *)

(** The states an editor can be in: opened on a model, edited, or given another one. *)
Inductive reached : Editor -> Prop :=
  | reached_open p e : open p = Return e -> reached e
  | reached_step a e e' : reached e -> step a e = Return e' -> reached e'
  | reached_reopen p e e' : reached e -> reopen p e = Return e' -> reached e'.

Lemma reached_quiet e : reached e -> quiet e.
Proof.
  destruct 1 as [p e H|a e e' _ H|p e e' _ H].
  - unfold open in H. destruct (mount p) as [e0|]; [|done]. by apply five_renders in H.
  - unfold step in H. destruct (act a e) as [e0|]; [|done]. by apply five_renders in H.
  - unfold reopen in H. by apply five_renders in H.
Qed.

(** What a user sees of the editor, what the panel holds, and whether the first effect has
    nothing more to read. *)
Record View := { v_local : Local; v_expr : jsstr; v_rules : jsstr; v_read : bool }.

Definition observe (e : Editor) : View :=
  {| v_local := local e; v_expr := expr_of e; v_rules := rules_of e; v_read := initRef e |}.

(** The texts the states print: of the cards and the groups, or of the text typed, where the
    rules are those the panel has. *)
Definition printed (l : Local) : outcome jsstr :=
  match editorMode l with
  | visual => Return (generateExprFromVisualConfig (visualConfig l))
  | raw => omapr RequestRules.billingExpr (splitBillingExprAndRequestRules (rawExpr l))
  end.

Definition printed_rules (l : Local) (rules : jsstr) : jsstr :=
  if bool_decide (editorMode l = visual) then buildRequestRuleExpr (requestRuleGroups l) else rules.

(** Rules that can be parsed, or are refused without an exception. *)
Definition check_rules (rules : jsstr) : outcome unit :=
  if truthy_str rules then omapr (fun _ => tt) (tryParseRequestRuleExpr rules) else Return tt.

(** The panel's texts become the ones the states print.  Rules that make the parser throw,
    before or after, make a render throw. *)
Definition settle (l : Local) (rules : jsstr) : outcome View :=
  let! x := printed l in
  let! _ := check_rules rules in
  let! _ := check_rules (printed_rules l rules) in
  Return {| v_local := l; v_expr := x; v_rules := printed_rules l rules; v_read := true |}.

(** The states are read from the two texts: cards where the expression parses, the text where
    it does not, a first card where there is none. *)
Definition read_back (x rules : jsstr) (l : Local) : outcome Local :=
  let! _ := check_rules rules in
  let! gs := tryParseRequestRuleExpr rules in
  let parsed := tryParseVisualConfig (Some x) in
  Return {| editorMode := match parsed with
                          | Some _ => visual
                          | None => if truthy_str x then raw else editorMode l
                          end;
            visualConfig := match parsed with
                            | Some cfg => Some cfg
                            | None => if truthy_str x then None else Some createDefaultVisualConfig
                            end;
            rawExpr := combineBillingExpr x rules;
            requestRuleGroups := default [] gs |}.

Lemma printed_effective l : printed l = effectiveExpr l.
Proof. unfold printed, effectiveExpr. destruct (editorMode l); [done|]. by destruct (splitBillingExprAndRequestRules _). Qed.

Lemma printed_rules_out l rules : printed_rules l rules = rules_out l rules.
Proof. unfold printed_rules, rules_out. by destruct (editorMode l). Qed.

Lemma check_can_use rules : check_rules rules = omapr (fun _ => tt) (canUseVisualRules rules).
Proof.
  unfold check_rules, canUseVisualRules. destruct (truthy_str rules); [|done]. cbn [negb].
  by destruct (tryParseRequestRuleExpr rules).
Qed.

(** The specification.  An edit changes the states as its handler says, and the panel gets the
    texts the states print.  No effect takes part but one: the first edit that changes a text
    is read back.  Where the handler hands the rules to the panel itself, what is read is the
    expression from before the edit with the new rules, else both texts as the states print
    them; an edit that changes no text leaves the reading to a later one. *)
Definition spec_step (a : edit) (v : View) : outcome View :=
  let! h := handle a (v_local v) in
  let l := fst h in
  let rules := default (v_rules v) (snd h) in
  if v_read v then settle l rules
  else
    let! x := printed l in
    let rules' := printed_rules l rules in
    if bool_decide (rules = v_rules v) then
      if bool_decide ((x, rules') = (v_expr v, v_rules v))
      then Return {| v_local := l; v_expr := x; v_rules := rules; v_read := false |}
      else let! l' := read_back x rules' l in settle l' rules'
    else let! l' := read_back (v_expr v) rules l in settle l' rules'.

Definition run (acts : list edit) (e : Editor) : outcome Editor := ofold (fun e a => step a e) acts e.

Definition spec_run (acts : list edit) (v : View) : outcome View :=
  ofold (fun v a => spec_step a v) acts v.

(** Two renders settle an editor that has nothing to read. *)
Lemma armed_renders n e :
  armed e -> omapr observe (renders (2 + n) e) = settle (local e) (rules_of e).
Proof.
  intros Ha. change (renders (2 + n) e) with (obind (commit e) (renders (1 + n))). unfold settle.
  rewrite printed_effective, printed_rules_out, !check_can_use. destruct (effectiveExpr (local e)) as [x|] eqn:He.
  2: { unfold commit. by rewrite He. }
  destruct (canUseVisualRules (rules_of e)) as [b|] eqn:Hb.
  2: { unfold commit. fold (rules_of e). by rewrite He, Hb. }
  cbn [omapr obind].
  rewrite (commit_equation e x b (local e)) by (try done; by rewrite (armed_due e Ha)).
  cbn [obind]. set (e1 := {| local := local e |}).
  assert (H1 : commit e = Return e1).
  { by apply (commit_equation _ _ b); [| |rewrite (armed_due e Ha)]. }
  clearbody e1. change (renders (1 + n) e1) with (obind (commit e1) (renders n)).
  destruct (armed_commit _ _ Ha H1) as (Ha1 & L1 & R1 & E1 & _ & _). rewrite He in E1.
  rewrite <- R1. destruct (canUseVisualRules (rules_of e1)) as [b1|] eqn:Hb1; cbn [omapr obind].
  2: { unfold commit. fold (rules_of e1). by rewrite L1, He, Hb1. }
  destruct (commit e1) as [e2|] eqn:H2.
  2: { by rewrite (commit_equation e1 x b1 (local e1)) in H2
         by (rewrite ?L1, ?(armed_due e1 Ha1); done). }
  cbn [obind]. rewrite quiet_renders by by apply (armed_settles e e1 e2).
  destruct (armed_commit _ _ Ha1 H2) as ([Hi2 _] & L2 & R2 & E2 & _ & _). rewrite L1, He in E2.
  cbn [omapr]. unfold observe. rewrite Hi2, L2, L1, R2, L1, R1, rules_out_idemp. congruence.
Qed.

(** Reading is what the first effect does, in a render whose rules do not throw. *)
Lemma read_back_init x rules l n :
  read_back x rules l
  = (let! _ := canUseVisualRules rules in
     init_local {| modelName := n; currentExpr := x; currentRequestRuleExpr := rules |} l).
Proof.
  unfold read_back, init_local, read_groups, init_mode. rewrite check_can_use. cbn [currentExpr currentRequestRuleExpr].
  destruct (canUseVisualRules rules); [|done]. cbn [omapr obind].
  destruct (tryParseRequestRuleExpr rules); [|done]. cbn [obind].
  destruct (tryParseVisualConfig (Some x)); [done|]. by destruct (truthy_str x).
Qed.

(** A render that reads the properties arms the editor. *)
Lemma reading_render n e x :
  named e = true -> init_due e = true -> effectiveExpr (local e) = Return x ->
  omapr observe (renders (3 + n) e)
  = (let! l' := read_back (expr_of e) (rules_of e) (local e) in settle l' (rules_out (local e) (rules_of e))).
Proof.
  intros Hn Hd He. change (renders (3 + n) e) with (obind (commit e) (renders (2 + n))).
  rewrite (read_back_init _ _ _ (modelName (props e))).
  assert (Hp : props e = Build_Props (modelName (props e)) (expr_of e) (rules_of e)) by by destruct e as [? [] ? ? ?].
  rewrite <- Hp. clear Hp.
  destruct (canUseVisualRules (rules_of e)) as [b|] eqn:Hb.
  2: { unfold commit. fold (rules_of e). by rewrite He, Hb. }
  cbn [obind].
  destruct (init_local (props e) (local e)) as [l|] eqn:Hl.
  2: { unfold commit. fold (rules_of e). by rewrite He, Hb, Hd, Hl. }
  assert (Hl' : (if init_due e then init_local (props e) (local e) else Return (local e)) = Return l)
    by by rewrite Hd.
  pose proof (commit_equation e x b l He Hb Hl') as H. rewrite H. cbn [obind].
  rewrite armed_renders; [done|]. apply (commit_armed e _ Hn H). by rewrite Hd, orb_true_r.
Qed.

Lemma given_seen e r :
  quiet e -> let e' := given r e in
  modelName r = modelName (props e) -> named e' = true
  /\ init_due e' = negb (bool_decide (deps r = deps (props e))) && negb (initRef e).
Proof.
  intros Q e' Hr. destruct (quiet_inv _ Q) as (_ & _ & _ & Hs & Hn). unfold named, init_due in *.
  subst e'. cbn [given props seen seen_name initRef]. rewrite Hr, Hs. split; [exact Hn|].
  f_equal. f_equal. apply bool_decide_ext. split; congruence.
Qed.

(** One edit. *)
Lemma step_refines a e : quiet e -> omapr observe (step a e) = spec_step a (observe e).
Proof.
  intros Q. unfold step, act, spec_step. cbn [v_local v_rules v_expr v_read observe].
  destruct (handle a (local e)) as [[l r]|]; [|done]. cbn [obind fst snd].
  set (p := match r with Some rules => put_rules rules (props e) | None => props e end).
  set (r0 := default (rules_of e) r).
  assert (Hp : p = {| modelName := modelName (props e); currentExpr := expr_of e; currentRequestRuleExpr := r0 |}).
  { unfold p, r0. destruct r; [done|]. by destruct e as [? [] ? ? ?]. }
  assert (Ql : forall q, given q (with_local l e) = with_local l (given q e)) by done.
  assert (Hx : named (given p (with_local l e)) = true
    /\ init_due (given p (with_local l e)) = negb (bool_decide (r0 = rules_of e)) && negb (initRef e)).
  { rewrite Ql. destruct (given_seen e p Q) as [H1 H2]; [by rewrite Hp|]. split; [exact H1|].
    etrans; [exact H2|]. f_equal. f_equal. apply bool_decide_ext. rewrite Hp. unfold deps. cbn.
    fold (expr_of e) (rules_of e). split; congruence. }
  clearbody p. subst p. destruct Hx as [Hn Hd]. set (e0 := given _ _) in *.
  destruct (initRef e) eqn:Hi.
  { apply (armed_renders 3 e0). by split. }
  cbn [negb] in Hd. rewrite andb_true_r in Hd.
  rewrite printed_effective, printed_rules_out. destruct (effectiveExpr l) as [x|] eqn:Hx.
  2: { change (renders 5 e0) with (obind (commit e0) (renders 4)). unfold commit.
       change (local e0) with l. by rewrite Hx. }
  cbn [obind]. case_bool_decide as Er; [|by apply (reading_render 2 e0 x)].
  clearbody r0. subst r0. cbn [negb] in Hd.
  destruct (quiet_inv _ Q) as (_ & (b & Hb) & _ & Hs & _).
  pose proof (commit_equation e0 x b l Hx Hb) as H1. rewrite Hd in H1. specialize (H1 eq_refl).
  change (renders 5 e0) with (obind (commit e0) (renders 4)). rewrite H1. cbn [obind].
  rewrite Hn. change (initRef e0) with (initRef e). rewrite Hi. cbn [orb]. change (local e0) with l.
  change (rules_of e0) with (rules_of e). set (e1 := {| local := l |}).
  assert (Hn1 : named e1 = true) by by apply bool_decide_eq_true.
  assert (Hd1 : init_due e1 = negb (bool_decide ((x, rules_out l (rules_of e)) = (expr_of e, rules_of e)))).
  { unfold init_due, e1. cbn [seen initRef negb props]. rewrite andb_true_r. f_equal. apply bool_decide_ext.
    unfold deps. cbn. fold (expr_of e) (rules_of e). split; congruence. }
  case_bool_decide as Et; cbn [negb] in Hd1.
  - injection Et as Ex Et. rewrite (quiet_renders 4).
    { change (omapr observe (Return e1))
        with (Return {| v_local := l; v_expr := x; v_rules := rules_out l (rules_of e); v_read := false |}).
      by rewrite Et. }
    apply (quiet_intro _ b); [exact Hx| | | |exact Hn1].
    + change (rules_of e1) with (rules_out l (rules_of e)). by rewrite Et.
    + apply rules_out_idemp.
    + change (Some (expr_of e, rules_of e) = Some (x, rules_out l (rules_of e))). by rewrite Ex, Et.
  - etrans; [exact (reading_render 1 e1 x Hn1 Hd1 Hx)|]. change (rules_of e1) with (rules_out l (rules_of e)).
    change (local e1) with l. by rewrite rules_out_idemp.
Qed.

(** C13. The editor refines a machine without effects.  From every state it can reach, by
    opening a model, editing it and opening others, and for any sequence of edits, throwing
    ones included: the states, the expression and the rules the panel ends up with are those
    of the specification.  So the panel always holds the texts the states print, edits act as
    their handlers say, and the four effects amount to one thing: as long as the reference is
    clear, the first edit that changes a text is read back into the states, with the
    expression from before the edit when the handler hands over new rules itself. *)
Theorem editor_refines_machine acts e :
  reached e -> omapr observe (run acts e) = spec_run acts (observe e).
Proof.
  revert e; induction acts as [|a acts IH]; intros e Hr; [done|].
  unfold run, spec_run in *. cbn [ofold]. pose proof (step_refines a e (reached_quiet e Hr)) as E.
  destruct (step a e) as [e'|] eqn:Es; cbn [omapr] in E; rewrite <- E; cbn [obind]; [|done].
  apply IH. by eapply reached_step.
Qed.

(** ** Opening *)

(** Two texts the cards can show, and print as they are. *)
Record reads_as (x r : jsstr) (cfg : VisualConfig) (gs : list RequestRuleGroup) : Prop := {
  ra_config : tryParseVisualConfig (Some x) = Some cfg;
  ra_expr : generateExprFromVisualConfig (Some cfg) = x;
  ra_groups : tryParseRequestRuleExpr r = Return (Some gs);
  ra_rules : buildRequestRuleExpr gs = r }.

Definition readable (x r : jsstr) : Prop := exists cfg gs, reads_as x r cfg gs.

(** The states read from them. *)
Definition local_of (x r : jsstr) (cfg : VisualConfig) (gs : list RequestRuleGroup) : Local :=
  {| editorMode := visual; visualConfig := Some cfg; rawExpr := combineBillingExpr x r;
     requestRuleGroups := gs |}.

(** States of the cards that print these texts. *)
Definition prints (l : Local) (x r : jsstr) : Prop :=
  editorMode l = visual /\ generateExprFromVisualConfig (visualConfig l) = x
  /\ buildRequestRuleExpr (requestRuleGroups l) = r.

Definition props_for (n x r : jsstr) : Props :=
  {| modelName := n; currentExpr := x; currentRequestRuleExpr := r |}.

Definition editor (l : Local) (p : Props) (i : bool) (s : jsstr * jsstr) (n : jsstr) : Editor :=
  {| local := l; props := p; initRef := i; seen := Some s; seen_name := Some n |}.

Lemma prints_effective l x r : prints l x r -> effectiveExpr l = Return x.
Proof. intros (Hm & Hx & _). unfold effectiveExpr. by rewrite Hm, Hx. Qed.

Lemma prints_rules l x r r' : prints l x r -> rules_out l r' = r.
Proof. intros (Hm & _ & Hr). unfold rules_out. by rewrite Hm. Qed.

Lemma local_of_prints x r cfg gs : reads_as x r cfg gs -> prints (local_of x r cfg gs) x r.
Proof. intros [_ Hx _ Hr]. by split. Qed.

Lemma read_can_use r gs : tryParseRequestRuleExpr r = Return (Some gs) -> canUseVisualRules r = Return true.
Proof. intros H. unfold canUseVisualRules. rewrite H. by destruct (negb _). Qed.

Lemma read_init n x r cfg gs l :
  reads_as x r cfg gs -> init_local (props_for n x r) l = Return (local_of x r cfg gs).
Proof.
  intros [Hc _ Hg _]. unfold init_local, read_groups. cbn [currentRequestRuleExpr currentExpr props_for].
  rewrite Hg. cbn [obind]. unfold init_mode. by rewrite Hc.
Qed.

(** States that print [x], and [r] where the panel holds [r']. *)
Lemma quiet_editor_of l n x r i :
  effectiveExpr l = Return x -> rules_out l r = r -> canUseVisualRules r = Return true ->
  quiet (editor l (props_for n x r) i (x, r) n).
Proof. intros Hx Hr Hu. apply (quiet_intro _ true); try done. by apply bool_decide_eq_true. Qed.

Lemma quiet_editor l n x r i :
  prints l x r -> canUseVisualRules r = Return true ->
  quiet (editor l (props_for n x r) i (x, r) n).
Proof.
  intros Hp Hr. apply quiet_editor_of; [exact (prints_effective _ _ _ Hp)|exact (prints_rules _ _ _ r Hp)|done].
Qed.

(** The render of states that print [x] and [r], whatever the panel holds. *)
Lemma commit_of l l' n x r px pr i s sn :
  effectiveExpr l = Return x -> rules_out l pr = r -> canUseVisualRules pr = Return true ->
  (if negb (bool_decide (s = Some (px, pr))) && negb i
   then init_local (props_for n px pr) l else Return l) = Return l' ->
  commit {| local := l; props := props_for n px pr; initRef := i; seen := s; seen_name := sn |}
  = Return (editor l' (props_for n x r)
              (bool_decide (sn = Some n)
               && (i || negb (bool_decide (s = Some (px, pr))) && negb i)) (px, pr) n).
Proof.
  intros Hx Hr Hu Hl. rewrite (commit_equation _ x true l') by done.
  unfold rules_of, named, init_due, editor, props_for, deps. cbn. by rewrite Hr.
Qed.

Lemma commit_prints l l' n x r px pr i s sn :
  prints l x r -> canUseVisualRules pr = Return true ->
  (if negb (bool_decide (s = Some (px, pr))) && negb i
   then init_local (props_for n px pr) l else Return l) = Return l' ->
  commit {| local := l; props := props_for n px pr; initRef := i; seen := s; seen_name := sn |}
  = Return (editor l' (props_for n x r)
              (bool_decide (sn = Some n)
               && (i || negb (bool_decide (s = Some (px, pr))) && negb i)) (px, pr) n).
Proof.
  intros Hp. apply commit_of; [exact (prints_effective _ _ _ Hp)|exact (prints_rules _ _ _ pr Hp)].
Qed.

Lemma renders_S n e e' : commit e = Return e' -> renders (S n) e = renders n e'.
Proof. intros H. cbn [renders]. by rewrite H. Qed.

(** The two renders after the properties have been read. *)
Lemma read_renders l n x r px k :
  effectiveExpr l = Return x -> rules_out l r = r -> canUseVisualRules r = Return true ->
  forall s, renders (S (S k)) (editor l (props_for n px r) true s n)
            = Return (editor l (props_for n x r) true (x, r) n).
Proof.
  intros Hx Hr Hu s.
  erewrite renders_S; [|apply (commit_of l l n x r px r true (Some s) (Some n)); [done..|]; by rewrite andb_false_r].
  rewrite bool_decide_eq_true_2 by done. cbn [andb orb].
  erewrite renders_S; [|apply (commit_of l l n x r x r true (Some (px, r)) (Some n)); [done..|]; by rewrite andb_false_r].
  rewrite bool_decide_eq_true_2 by done. cbn [andb orb].
  apply quiet_renders. by apply quiet_editor_of.
Qed.

(** Opening a model whose two texts the cards can show and print as they are leaves the
    panel's texts as they were, shows the cards, and ends quiet; but the reference that is to
    keep the texts from being read again is off. *)
Theorem open_readable n x r cfg gs :
  reads_as x r cfg gs ->
  open (props_for n x r) = Return (editor (local_of x r cfg gs) (props_for n x r) false (x, r) n)
  /\ quiet (editor (local_of x r cfg gs) (props_for n x r) false (x, r) n).
Proof.
  intros H. pose proof (local_of_prints _ _ _ _ H) as Hp.
  pose proof (read_can_use _ _ (ra_groups _ _ _ _ H)) as Hr.
  assert (Q : quiet (editor (local_of x r cfg gs) (props_for n x r) false (x, r) n)).
  { by apply quiet_editor. }
  split; [|exact Q]. unfold open, mount, initial_local, read_groups. cbn [currentExpr currentRequestRuleExpr props_for].
  rewrite (ra_groups _ _ _ _ H). cbn [obind]. rewrite (ra_config _ _ _ _ H).
  change (Build_Local visual (Some cfg) _ _) with (local_of x r cfg gs). fold (props_for n x r).
  erewrite renders_S; [|apply (commit_prints _ (local_of x r cfg gs) _ x r); [done..|]; by apply read_init].
  cbn [bool_decide]. exact (quiet_renders 4 _ Q).
Qed.

(** *** Another model *)

(** A model opened while another one is shown gets the other's price.  The panel keeps one
    editor: whether or not the first model has been edited, where both have texts the cards can
    show, the expression and the rules of the first are what the panel holds under the name of
    the second once the effects have settled. *)
Theorem next_model_gets_last_price e n x r :
  quiet e -> editorMode (local e) = visual -> readable (expr_of e) (rules_of e) ->
  n <> modelName (props e) -> readable x r ->
  exists e', reopen (props_for n x r) e = Return e' /\ quiet e'
  /\ props e' = props_for n (expr_of e) (rules_of e).
Proof.
  intros Q Hv (cfg1 & gs1 & H1) Hn (cfg2 & gs2 & H2).
  destruct (quiet_inv _ Q) as (He & _ & Hr & Hs & Hnm).
  set (x1 := expr_of e) in *. set (r1 := rules_of e) in *.
  assert (Hp : prints (local e) x1 r1).
  { unfold effectiveExpr, rules_out in *. rewrite Hv in He, Hr. by injection He as He. }
  pose proof (local_of_prints _ _ _ _ H1) as P1. pose proof (local_of_prints _ _ _ _ H2) as P2.
  pose proof (read_can_use _ _ (ra_groups _ _ _ _ H1)) as U1.
  pose proof (read_can_use _ _ (ra_groups _ _ _ _ H2)) as U2.
  assert (Hsn : seen_name e = Some (modelName (props e))) by by apply bool_decide_eq_true in Hnm.
  unfold reopen, given. rewrite Hs, Hsn. change (deps (props e)) with (x1, r1).
  destruct (negb (bool_decide (Some (x1, r1) = Some (x, r))) && negb (initRef e)) eqn:D.
  - apply andb_true_iff in D as [D I]. apply negb_true_iff in I.
    apply negb_true_iff, bool_decide_eq_false in D.
    assert (D' : Some (x, r) <> Some (x1, r1)) by congruence. rewrite I.
    erewrite renders_S; [|apply (commit_prints _ (local_of x r cfg2 gs2) _ x1 r1); [done..|];
                          rewrite bool_decide_eq_false_2 by done; by apply read_init].
    rewrite bool_decide_eq_false_2 by congruence. cbn [andb].
    erewrite renders_S; [|apply (commit_prints _ (local_of x1 r1 cfg1 gs1) _ x r); [done..|];
                          rewrite bool_decide_eq_false_2 by done; by apply read_init].
    rewrite bool_decide_eq_true_2, bool_decide_eq_false_2 by done. cbn [andb orb negb].
    erewrite renders_S; [|apply (commit_prints _ (local_of x1 r1 cfg1 gs1) _ x1 r1); [done..|];
                          by rewrite andb_false_r].
    rewrite bool_decide_eq_true_2 by done. cbn [andb orb].
    erewrite renders_S; [|apply (commit_prints _ (local_of x1 r1 cfg1 gs1) _ x1 r1); [done..|];
                          by rewrite andb_false_r].
    eexists. rewrite (quiet_renders 1) by by apply quiet_editor. split; [done|].
    split; [by apply quiet_editor|done].
  - erewrite renders_S; [|apply (commit_prints _ (local e) _ x1 r1); [done..|]; by rewrite D].
    rewrite bool_decide_eq_false_2 by congruence. cbn [andb].
    destruct (decide ((x, r) = (x1, r1))) as [[= -> ->]|Hne].
    + eexists. rewrite (quiet_renders 4) by by apply quiet_editor. split; [done|].
      split; [by apply quiet_editor|done].
    + erewrite renders_S; [|apply (commit_prints _ (local_of x1 r1 cfg1 gs1) _ x1 r1); [done..|];
                            rewrite bool_decide_eq_false_2 by congruence; by apply read_init].
      eexists. rewrite (quiet_renders 3) by by apply quiet_editor. split; [done|].
      split; [by apply quiet_editor|done].
Qed.

(** *** An expression the cards cannot show *)

Definition FREE_EXPR : jsstr := js "p * 0 + c * 0".

Lemma free_not_visual : tryParseVisualConfig (Some FREE_EXPR) = None.
Proof. by vm_compute. Qed.

(** The free price and rules separate again. *)
Lemma split_free gs :
  Forall group_ok gs ->
  splitBillingExprAndRequestRules (combineBillingExpr FREE_EXPR (buildRequestRuleExpr gs))
  = Return {| RequestRules.billingExpr := FREE_EXPR;
              RequestRules.requestRuleExpr := buildRequestRuleExpr gs |}.
Proof.
  intros H. destruct gs as [|g gs]; [by vm_compute|].
  rewrite combine_split; [|by vm_compute|done|by vm_compute|by vm_compute|done|done].
  by replace (unwrapOuterParens FREE_EXPR) with FREE_EXPR by by vm_compute.
Qed.

Definition raw_local (x r : jsstr) (gs : list RequestRuleGroup) : Local :=
  {| editorMode := raw; visualConfig := None; rawExpr := combineBillingExpr x r; requestRuleGroups := gs |}.

Lemma raw_init n x gs l :
  Forall group_ok gs -> x <> [] -> tryParseVisualConfig (Some x) = None ->
  init_local (props_for n x (buildRequestRuleExpr gs)) l
  = Return (raw_local x (buildRequestRuleExpr gs) gs).
Proof.
  intros Hg Hx Hc. unfold init_local, read_groups, init_mode.
  cbn [currentRequestRuleExpr currentExpr props_for]. rewrite (rules_read gs Hg). cbn [obind default].
  by rewrite Hc, (proj2 (truthy_str_spec _)).
Qed.

Lemma open_unreadable n x gs s :
  let r := buildRequestRuleExpr gs in
  Forall group_ok gs -> x <> [] -> tryParseVisualConfig (Some x) = None ->
  splitBillingExprAndRequestRules (combineBillingExpr x r) = Return s ->
  exists e, open (props_for n x r) = Return e /\ quiet e
  /\ props e = props_for n FREE_EXPR r /\ editorMode (local e) = raw.
Proof.
  intros r Hg Hx Hc Hs. pose proof (read_can_use r gs (rules_read gs Hg)) as Hu.
  set (l0 := Build_Local visual None (combineBillingExpr x r) gs).
  assert (P0 : prints l0 FREE_EXPR r) by done.
  assert (Hfree : effectiveExpr (raw_local FREE_EXPR r gs) = Return FREE_EXPR).
  { unfold effectiveExpr. cbn [editorMode raw_local rawExpr]. unfold r. by rewrite split_free. }
  unfold open, mount, initial_local, read_groups. cbn [currentExpr currentRequestRuleExpr props_for].
  unfold r at 1. rewrite (rules_read gs Hg), Hc. cbn [obind default]. fold l0 (props_for n x r).
  erewrite renders_S; [|apply (commit_prints l0 (raw_local x r gs) _ FREE_EXPR r); [done..|]; by apply raw_init].
  cbn [bool_decide].
  destruct (decide (x = FREE_EXPR)) as [->|Hne].
  { eexists. rewrite (quiet_renders 4) by by apply quiet_editor_of. split; [done|].
    split; [by apply quiet_editor_of|done]. }
  assert (Hx' : effectiveExpr (raw_local x r gs) = Return (RequestRules.billingExpr s)).
  { unfold effectiveExpr. cbn [editorMode raw_local rawExpr]. by rewrite Hs. }
  erewrite renders_S; [|apply (commit_of (raw_local x r gs) (raw_local FREE_EXPR r gs) _
                                 (RequestRules.billingExpr s) r); [done..|];
                        rewrite bool_decide_eq_false_2 by congruence; by apply raw_init].
  rewrite bool_decide_eq_true_2, !bool_decide_eq_false_2 by congruence. cbn [andb orb negb].
  erewrite (read_renders _ _ FREE_EXPR) by done. eexists. split; [done|].
  split; [by apply quiet_editor_of|done].
Qed.

(** C19. Opening a model whose expression the cards cannot show makes it free: the first render
    prints the missing configuration as [p * 0 + c * 0], which is read back before the text is
    shown, and this is what the panel submits.  The rules stay. *)
Theorem opening_makes_free p gs s :
  pricingMode p = tiered_expr -> p_rules p = buildRequestRuleExpr gs -> Forall group_ok gs ->
  p_expr p <> [] -> tryParseVisualConfig (Some (p_expr p)) = None ->
  splitBillingExprAndRequestRules (combineBillingExpr (p_expr p) (p_rules p)) = Return s ->
  exists e, open (props_of p) = Return e /\ quiet e
  /\ ModelPricing.billingExpr (buildSubmitData (edited e p)) = Some FREE_EXPR
  /\ ModelPricing.requestRuleExpr (buildSubmitData (edited e p)) = Some (p_rules p).
Proof.
  intros Hm Hr Hg Hx Hc Hs. rewrite Hr in Hs.
  destruct (open_unreadable (p_name p) (p_expr p) gs s Hg Hx Hc Hs) as (e & E & Q & Hp & _).
  exists e. unfold props_of. rewrite Hr. split; [exact E|]. split; [exact Q|].
  unfold buildSubmitData, edited, set_other. cbn. by rewrite Hm, Hp.
Qed.

(** ** The first change *)

Lemma presets_readable pr :
  pr ∈ presets ->
  Forall group_ok (requestRules pr)
  /\ exists cfg, tryParseVisualConfig (Some (expr pr)) = Some cfg.
Proof.
  assert (H : forallb (fun pr => bool_decide (Forall group_ok (requestRules pr))
                        && match tryParseVisualConfig (Some (expr pr)) with
                           | Some _ => true | None => false end) presets = true) by by vm_compute.
  rewrite forallb_elem in H. intros Hp. specialize (H pr Hp). apply andb_true_iff in H as [Hg Hc].
  apply bool_decide_eq_true in Hg. split; [done|].
  destruct (tryParseVisualConfig (Some (expr pr))) as [cfg|]; [by exists cfg|done].
Qed.

(** A preset with request rules, applied to a model as it was opened, keeps the rules and
    loses the price: the rules are handed to the panel at once, the expression only in an
    effect, and the texts are read again in between. *)
Theorem first_preset_loses_price n x r cfg gs pr :
  reads_as x r cfg gs -> pr ∈ presets -> buildRequestRuleExpr (requestRules pr) <> r ->
  exists e e', open (props_for n x r) = Return e /\ step (ApplyPreset pr) e = Return e'
  /\ quiet e' /\ props e' = props_for n x (buildRequestRuleExpr (requestRules pr)).
Proof.
  intros H Hpr Hne. destruct (presets_readable pr Hpr) as [Hg [c Hc]].
  set (r' := buildRequestRuleExpr (requestRules pr)) in *.
  pose proof (rules_read _ Hg) as Hr'. fold r' in Hr'.
  assert (H' : reads_as x r' cfg (requestRules pr)) by (destruct H; by split).
  pose proof (local_of_prints _ _ _ _ H') as P'. pose proof (read_can_use _ _ Hr') as U'.
  destruct (open_readable n x r cfg gs H) as [Ho _].
  eexists _, _. split; [exact Ho|].
  unfold step, act, handle, applyPreset. cbn [obind fst snd]. fold r'. rewrite Hc.
  set (l := Build_Local visual (Some c) _ _).
  assert (P : prints l (generateExprFromVisualConfig (Some c)) r') by done.
  unfold given, with_local, put_rules, editor. cbn [local props initRef seen seen_name props_for modelName currentExpr].
  fold (props_for n x r').
  erewrite renders_S; [|apply (commit_prints l (local_of x r' cfg (requestRules pr)) _
                                 (generateExprFromVisualConfig (Some c)) r'); [done..|];
                        rewrite bool_decide_eq_false_2 by congruence; by apply read_init].
  rewrite bool_decide_eq_true_2, bool_decide_eq_false_2 by congruence. cbn [andb orb negb].
  rewrite (read_renders _ n x r') by first [done|exact (prints_effective _ _ _ P')|exact (prints_rules _ _ _ r' P')].
  split; [done|]. split; [by apply quiet_editor|done].
Qed.

(** The first text typed into the expression of a model as it was opened leaves the text
    editor, when the cards can show what was typed. *)
Theorem first_keystroke_leaves_text e v s :
  quiet e -> editorMode (local e) = raw -> initRef e = false ->
  splitBillingExprAndRequestRules v = Return s -> RequestRules.requestRuleExpr s = rules_of e ->
  RequestRules.billingExpr s <> expr_of e -> readable (RequestRules.billingExpr s) (rules_of e) ->
  exists e', step (TypeRaw v) e = Return e' /\ quiet e'
  /\ editorMode (local e') = visual /\ expr_of e' = RequestRules.billingExpr s.
Proof.
  intros Q Hm Hi Hv Hr Hx (cfg & gs & H). destruct (quiet_inv _ Q) as (_ & _ & _ & Hs & Hn).
  pose proof (local_of_prints _ _ _ _ H) as P. pose proof (read_can_use _ _ (ra_groups _ _ _ _ H)) as U.
  set (x := RequestRules.billingExpr s) in *. set (r := rules_of e) in *.
  unfold step, act, handle, handleRawChange. rewrite Hv. cbn [obind omapr fst snd]. rewrite Hr.
  unfold given, with_local, put_rules. cbn [local props initRef seen seen_name]. rewrite Hi, Hs.
  fold (expr_of e). fold (props_for (modelName (props e)) (expr_of e) r).
  change (deps (props e)) with (expr_of e, r).
  unfold named in Hn. apply bool_decide_eq_true in Hn. rewrite Hn.
  set (l := Build_Local _ _ v _).
  assert (Hl : effectiveExpr l = Return x) by (unfold effectiveExpr; cbn; by rewrite Hm, Hv).
  assert (Hlr : rules_out l r = r) by (unfold rules_out; cbn; by rewrite Hm).
  erewrite renders_S; [|apply (commit_of l l _ x r); [done..|]; by rewrite bool_decide_eq_true_2].
  rewrite !bool_decide_eq_true_2 by done. cbn [andb orb negb].
  erewrite renders_S; [|apply (commit_of l (local_of x r cfg gs) _ x r); [done..|];
                        rewrite bool_decide_eq_false_2 by congruence; by apply read_init].
  rewrite bool_decide_eq_true_2, !bool_decide_eq_false_2 by congruence. cbn [andb orb negb].
  eexists. rewrite (quiet_renders 3) by by apply quiet_editor. split; [done|].
  split; [by apply quiet_editor|done].
Qed.

(** A change of the rules typed into the expression of a model as it was opened is the only
    one that stays: the expression is read back from the panel. *)
Theorem first_rule_keystroke_loses_price e v s :
  quiet e -> editorMode (local e) = raw -> initRef e = false ->
  splitBillingExprAndRequestRules v = Return s -> RequestRules.requestRuleExpr s <> rules_of e ->
  readable (expr_of e) (RequestRules.requestRuleExpr s) ->
  exists e', step (TypeRaw v) e = Return e' /\ quiet e'
  /\ editorMode (local e') = visual /\ expr_of e' = expr_of e
  /\ rules_of e' = RequestRules.requestRuleExpr s.
Proof.
  intros Q Hm Hi Hv Hr (cfg & gs & H). destruct (quiet_inv _ Q) as (_ & _ & _ & Hs & Hn).
  pose proof (local_of_prints _ _ _ _ H) as P. pose proof (read_can_use _ _ (ra_groups _ _ _ _ H)) as U.
  set (x := RequestRules.billingExpr s). set (r := RequestRules.requestRuleExpr s) in *.
  unfold step, act, handle, handleRawChange. rewrite Hv. cbn [obind omapr fst snd]. fold r.
  unfold given, with_local, put_rules. cbn [local props initRef seen seen_name]. rewrite Hi, Hs.
  fold (expr_of e). fold (props_for (modelName (props e)) (expr_of e) r).
  change (deps (props e)) with (expr_of e, rules_of e).
  unfold named in Hn. apply bool_decide_eq_true in Hn. rewrite Hn.
  set (l := Build_Local _ _ v _).
  assert (Hl : effectiveExpr l = Return x) by (unfold effectiveExpr; cbn; by rewrite Hm, Hv).
  assert (Hlr : rules_out l r = r) by (unfold rules_out; cbn; by rewrite Hm).
  erewrite renders_S; [|apply (commit_of l (local_of (expr_of e) r cfg gs) _ x r); [done..|];
                        rewrite bool_decide_eq_false_2 by congruence; by apply read_init].
  rewrite bool_decide_eq_true_2, !bool_decide_eq_false_2 by congruence. cbn [andb orb negb].
  eexists. rewrite (read_renders _ _ (expr_of e) r)
    by first [done|exact (prints_effective _ _ _ P)|exact (prints_rules _ _ _ r P)].
  split; [done|]. split; [by apply quiet_editor|done].
Qed.

(** ** The tiers *)

Definition price_fields : list jsstr :=
  [js "input_unit_cost"; js "output_unit_cost"] ++ extra_cost_fields.

(** A tier as the cards keep it: its prices are numbers and it has at most [k] conditions. *)
Record tier_ok (k : nat) (t : obj) : Prop := {
  to_canonical : canonical t;
  to_conditions : exists cs, oget (js "conditions") t = Some (VArr cs) /\ (length cs <= k)%nat;
  to_prices : forall f, f ∈ price_fields -> exists x, oget f t = Some (VNum x) }.

Definition config_ok (k : nat) (c : VisualConfig) : Prop := tiers c <> [] /\ Forall (tier_ok k) (tiers c).

(** The prices the fields of a card change are prices. *)
Definition card_typed (a : tier_action) : Prop :=
  match a with OnCard _ (CardPrice f _) => f ∈ price_fields | _ => True end.

Lemma oget_with_prop k j v o :
  canonical o -> oget k (with_prop j v o) = if bool_decide (k = j) then Some v else oget k o.
Proof.
  intros H. unfold with_prop. change (ospread [] o) with (obj_of o). rewrite obj_of_canonical by done.
  case_bool_decide as E; [subst; apply oget_oset_eq|by apply oget_oset_ne].
Qed.

Lemma canonical_with_prop j v o : canonical (with_prop j v o).
Proof. apply canonical_oset, canonical_ospread, canonical_nil. Qed.

Lemma conditions_not_price : js "conditions" ∉ price_fields.
Proof. by apply (bool_decide_unpack (_ ∉ _)). Qed.

Lemma conditions_not_extra : js "conditions" ∉ extra_cost_fields.
Proof. intros H. by apply conditions_not_price, elem_of_app; right. Qed.

(** The card of a tier whose other properties change. *)
Lemma tier_ok_with k j v t :
  j <> js "conditions" -> (j ∈ price_fields -> exists x, v = VNum x) ->
  tier_ok k t -> tier_ok k (with_prop j v t).
Proof.
  intros Hj Hv [Hc (cs & Hcs & Hlen) Hp]. split; [apply canonical_with_prop| |].
  - exists cs. rewrite oget_with_prop, bool_decide_eq_false_2 by auto. done.
  - intros f Hf. rewrite oget_with_prop by done. case_bool_decide as E; [|by apply Hp].
    subst. destruct (Hv Hf) as [x ->]. by exists x.
Qed.

Lemma tier_ok_conditions k t cs :
  (length cs <= k)%nat -> tier_ok k t -> tier_ok k (with_conditions cs t).
Proof.
  intros Hlen [Hc _ Hp]. split; [apply canonical_with_prop| |].
  - exists cs. unfold with_conditions. by rewrite oget_with_prop, bool_decide_eq_true_2.
  - intros f Hf. unfold with_conditions. rewrite oget_with_prop, bool_decide_eq_false_2; [by apply Hp| |done].
    intros ->. by apply conditions_not_price.
Qed.

Lemma normalize_tier_ok k t cs :
  canonical t -> oget (js "conditions") t = Some (VArr cs) -> (length cs <= k)%nat ->
  (forall f, f ∈ [js "input_unit_cost"; js "output_unit_cost"] -> exists x, oget f t = Some (VNum x)) ->
  tier_ok k (normalizeVisualTier t).
Proof.
  intros Hc Hcs Hlen Hp. split; [by apply canonical_normalize| |].
  - exists cs. rewrite normalize_field, bool_decide_eq_false_2, Hcs by auto using conditions_not_extra. done.
  - intros f Hf. rewrite normalize_field by done. case_bool_decide as E; [eauto|].
    destruct (Hp f) as [x ->]; [|by exists x]. by apply elem_of_app in Hf as [?|?].
Qed.

Lemma tier_ok_normalize k t : tier_ok k t -> tier_ok k (normalizeVisualTier t).
Proof.
  intros [Hc (cs & Hcs & Hlen) Hp]. apply (normalize_tier_ok k t cs); try done.
  intros f Hf. apply Hp, elem_of_app. by left.
Qed.

Lemma tier_conditions_of t cs : oget (js "conditions") t = Some (VArr cs) -> tier_conditions t = cs.
Proof. intros H. unfold tier_conditions. by rewrite at_oget, H. Qed.

Lemma tier_conditions_length k t : tier_ok k t -> (length (tier_conditions t) <= k)%nat.
Proof. intros [_ (cs & Hcs & Hlen) _]. by rewrite (tier_conditions_of _ _ Hcs). Qed.

Lemma tier_ok_card k a i t : card_typed (OnCard i a) -> tier_ok k t -> tier_ok k (act_card a t).
Proof.
  intros Ha Ht. pose proof (tier_conditions_length _ _ Ht) as Hlen.
  destruct a as [s|j next|j|f v|m]; cbn [act_card].
  - apply tier_ok_with; [done| |done]. intros H. by apply (bool_decide_unpack (_ ∉ _)) in H.
  - apply tier_ok_conditions; [by rewrite length_insert|done].
  - apply tier_ok_conditions; [|done]. pose proof (sublist_length _ _ (sublist_delete (tier_conditions t) j)). lia.
  - cbn in Ha. apply tier_ok_with; [|by eexists|done]. intros ->. by apply conditions_not_price.
  - unfold handleCacheModeChange.
    assert (H1 : tier_ok k (with_prop (js "cache_mode") (VStr m) t)).
    { apply tier_ok_with; [done| |done]. intros H. by apply (bool_decide_unpack (_ ∉ _)) in H. }
    apply tier_ok_with; [done| |done]. intros _. case_bool_decide; [|by eexists].
    destruct (to_prices _ _ Ht (js "cache_create_1h_unit_cost")) as [x Hx];
      [by apply (bool_decide_unpack (_ ∈ _))|].
    rewrite at_oget, Hx. by exists x.
Qed.

Lemma two_costs (t : obj) :
  is_number (at_ (js "input_unit_cost") t) && is_number (at_ (js "output_unit_cost") t) = true ->
  forall f, f ∈ [js "input_unit_cost"; js "output_unit_cost"] -> exists x, oget f t = Some (VNum x).
Proof.
  rewrite !at_oget. intros H f Hf. apply andb_true_iff in H as [H1 H2].
  assert (Hn : forall k, is_number (default VUndef (oget k t)) = true -> exists x, oget k t = Some (VNum x)).
  { intros k Hk. destruct (oget k t) as [[]|]; try done. by eexists. }
  apply elem_of_cons in Hf as [->|Hf]; [by apply Hn|]. apply list_elem_of_singleton in Hf as ->. by apply Hn.
Qed.

Lemma new_tier_ok k n : tier_ok k (new_tier n).
Proof.
  unfold new_tier. apply (normalize_tier_ok k _ []); [apply canonical_obj_of|reflexivity|apply Nat.le_0_l|].
  by apply two_costs.
Qed.

Lemma default_config_ok k : config_ok k createDefaultVisualConfig.
Proof.
  split; [done|]. apply Forall_singleton, (normalize_tier_ok k _ []);
    [apply canonical_obj_of|reflexivity|apply Nat.le_0_l|]. by apply two_costs.
Qed.

Lemma normalize_config_ok k c :
  match c with Some c => config_ok k c | None => True end -> config_ok k (normalizeVisualConfig c).
Proof.
  destruct c as [[[|t ts]]|]; intros H; [apply default_config_ok| |apply default_config_ok].
  destruct H as [_ H]. split; [done|]. cbn [tiers normalizeVisualConfig] in *.
  apply Forall_fmap. eapply Forall_impl; [exact H|]. intros t' Ht. by apply tier_ok_normalize.
Qed.

Lemma bound_last_ok k ts : (1 <= k)%nat -> Forall (tier_ok k) ts -> Forall (tier_ok k) (bound_last ts).
Proof.
  intros Hk H. unfold bound_last. destruct (last ts) as [t|] eqn:E; [|done].
  destruct (length (tier_conditions t) =? 0)%nat; [|done]. apply Forall_insert; [done|].
  apply tier_ok_normalize, tier_ok_conditions; [done|]. apply last_Some in E as [ts' ->].
  rewrite Forall_app, Forall_singleton in H. by destruct H.
Qed.

(** What the cards make of a configuration is one they can show: there is always a tier,
    every tier has its nine prices as numbers and a list of conditions, and no edit takes a
    tier over the limit of two conditions, or over the number a stored expression gave it. *)
Theorem tier_edits_keep_shape k a cfg next :
  (2 <= k)%nat -> card_typed a ->
  match cfg with Some c => config_ok k c | None => True end ->
  edit_tiers a cfg = Some next -> config_ok k next.
Proof.
  intros Hk Ha Hc E. apply normalize_config_ok in Hc. unfold edit_tiers in E.
  destruct Hc as [Hne Hf]. set (c := normalizeVisualConfig cfg) in *.
  assert (Hat : forall i t, tiers c !! i = Some t -> tier_ok k t).
  { intros i t Ht. by apply (Forall_lookup_1 _ _ _ _ Hf Ht). }
  destruct a as [i a| |i|i].
  - destruct (tiers c !! i) as [t|] eqn:Ei; [|done]. injection E as <-. unfold handleTierChange. split.
    + cbn. intros H%(f_equal length). rewrite length_insert in H. by destruct (tiers c).
    + apply Forall_insert; [done|]. eapply tier_ok_normalize, tier_ok_card; eauto.
  - injection E as <-. unfold handleAddTier. split; [by destruct (bound_last (tiers c))|].
    apply Forall_app. split; [apply bound_last_ok; [lia|done]|]. apply Forall_singleton, new_tier_ok.
  - injection E as <-. unfold handleRemoveTier. destruct (delete i (tiers c)) as [|t ts] eqn:Ed; [done|].
    split; [done|]. cbn [tiers]. rewrite <- Ed. by apply Forall_delete.
  - unfold handleAddCondition in E. destruct (tiers c !! i) as [t|] eqn:Ei; [|done].
    destruct (2 <=? length (tier_conditions t))%nat eqn:El; [done|]. apply Nat.leb_gt in El.
    injection E as <-. split.
    + cbn. intros H%(f_equal length). rewrite length_insert in H. by destruct (tiers c).
    + apply Forall_insert; [done|]. apply tier_ok_conditions; [rewrite length_app; cbn; lia|]. by eapply Hat.
Qed.

Lemma tier_parts_app i n ts us :
  tier_parts i n (ts ++ us) = tier_parts i n ts ++ tier_parts (i + length ts) n us.
Proof.
  revert i; induction ts as [|t ts IH]; intros i; [by rewrite Nat.add_0_r|].
  cbn [app tier_parts length]. by rewrite IH, Nat.add_succ_comm.
Qed.

Lemma generate_several ts :
  (2 <= length ts)%nat ->
  generateExprFromVisualConfig (Some {| tiers := ts |}) = join (js " : ") (tier_parts 0 (length ts) ts).
Proof. destruct ts as [|t [|u ts]]; cbn [length]; intros H; [lia|lia|done]. Qed.

Lemma body_conditions cs t : canonical t -> buildTierBodyExpr (with_conditions cs t) = buildTierBodyExpr t.
Proof.
  intros Hc.
  assert (Hat : forall k, k <> js "conditions" -> at_ k (with_conditions cs t) = at_ k t).
  { intros k Hk. unfold with_conditions. by rewrite !at_oget, oget_with_prop, bool_decide_eq_false_2. }
  unfold buildTierBodyExpr. rewrite !Hat by done. do 3 f_equal. apply list_omap_ext, Forall_Forall2_diag.
  assert (H : Forall (fun cv => cv_field cv <> js "conditions") BILLING_CACHE_VAR_MAP).
  { by apply (bool_decide_unpack (Forall _ _)). }
  eapply Forall_impl; [exact H|]. intros cv Hcv. unfold extra_part. by rewrite Hat.
Qed.

(** The conditions of the last of several tiers are not printed: what the cards show there
    has no effect on the price, and is gone when the text is read again. *)
Theorem last_conditions_unprinted ts t cs :
  ts <> [] -> canonical t ->
  generateExprFromVisualConfig (Some {| tiers := ts ++ [with_conditions cs t] |})
  = generateExprFromVisualConfig (Some {| tiers := ts ++ [t] |}).
Proof.
  intros Hne Hc. assert (Hlen : (1 <= length ts)%nat) by (destruct ts; cbn; [done|lia]).
  rewrite !generate_several by (rewrite length_app; cbn; lia). rewrite !length_app, !tier_parts_app.
  cbn [length tier_parts Nat.add]. rewrite (proj2 (Nat.ltb_ge _ _)) by lia. cbn [andb].
  unfold tier_call. rewrite body_conditions by done. do 3 f_equal. unfold with_conditions.
  by rewrite !at_oget, oget_with_prop, bool_decide_eq_false_2.
Qed.

(** Removing the condition of a tier that is not the last leaves a text that is no expression,
    two calls with a colon between them; the cards take it for a configuration all the same. *)
Theorem unconditional_tier_is_no_expression :
  let cfg := edit_tiers AddTier None in
  let cfg' := edit_tiers (OnCard 0 (CardRemoveCondition 0)) cfg in
  let free l := js "tier(" ++ dq ++ l ++ dq ++ js ", p * 0 + c * 0)" in
  generateExprFromVisualConfig cfg = js "len < 200000 ? " ++ free (js "base") ++ js " : " ++ free (js "tier_2")
  /\ generateExprFromVisualConfig cfg' = free (js "base") ++ js " : " ++ free (js "tier_2")
  /\ tryParseVisualConfig (Some (generateExprFromVisualConfig cfg')) <> None.
Proof. split; [by vm_compute|]. split; [by vm_compute|]. intros H. by vm_compute in H. Qed.

(** ** Number fields *)

(** A number field keeps what is typed while it has the focus, whatever number its parent
    makes of it; on leaving, it shows the number it reports, which is finite, and keeps showing
    it when the parent gives that number back, as a number or as its text. *)
Theorem draft_follows_number d v :
  let d' := fst (draft_blur d) in
  let n := snd (draft_blur d) in
  is_finite n = true /\ draft d' = num_to_string n
  /\ draft (draft_given (VNum n) d') = num_to_string n
  /\ draft (draft_given (VStr (num_to_string n)) d') = num_to_string n
  /\ draft (draft_given v (fst (draft_focus true d))) = draft d.
Proof.
  cbn [draft_blur fst snd draft]. set (n := parseNumberDraft (draft d)).
  assert (Hn : is_finite n = true).
  { unfold n, parseNumberDraft. destruct (negb _); [done|]. by destruct (is_finite (to_number _)) eqn:E. }
  split; [done|]. split; [done|]. unfold draft_given, draft_effect. cbn [focused draft shown formatNumberDraft].
  by rewrite Hn.
Qed.

(** Emptying a field reports zero: a multiplier that is deleted makes its requests free. *)
Theorem emptied_multiplier_is_free g d :
  let n := snd (draft_change [] d) in
  n = zero /\ multiplier (act_group (Multiply n) g) = js "0"
  /\ RequestRules.conditions (act_group (Multiply n) g) = RequestRules.conditions g.
Proof. split; [done|]. by split. Qed.

(** The estimator's inputs write the counts the estimate reads. *)
Theorem estimator_keys_agree v :
  v ∈ BILLING_EXTRA_VARS ->
  exists f, f ∈ ESTIMATOR_VARS /\ ev_var f = key v /\ estimator_key v = Some (stateKey f).
Proof.
  assert (H : forallb (fun v => existsb (fun f => bool_decide (ev_var f = key v)
                && bool_decide (estimator_key v = Some (stateKey f))) ESTIMATOR_VARS)
              BILLING_EXTRA_VARS = true) by by vm_compute.
  rewrite forallb_elem in H. intros Hv. specialize (H v Hv). apply existsb_elem in H as (f & Hf & E).
  apply andb_true_iff in E as [E1 E2]. apply bool_decide_eq_true in E1, E2. by exists f.
Qed.

(** ** Witnesses *)

Definition model_a : Props := props_for (js "a") (tier_of "base" "p * 2 + c * 4") [].
Definition model_b : Props :=
  props_for (js "b") (tier_of "base" "p * 9 + c * 9") (buildRequestRuleExpr sample_groups).

Lemma model_a_reads : readable (currentExpr model_a) (currentRequestRuleExpr model_a).
Proof.
  destruct (tryParseVisualConfig (Some (currentExpr model_a))) as [cfg|] eqn:E; [|by vm_compute in E].
  exists cfg, []. split; [done| |done|done]. vm_compute in E. injection E as <-. by vm_compute.
Qed.

Lemma model_b_reads : readable (currentExpr model_b) (currentRequestRuleExpr model_b).
Proof.
  destruct (tryParseVisualConfig (Some (currentExpr model_b))) as [cfg|] eqn:E; [|by vm_compute in E].
  exists cfg, sample_groups. split; [done| | |done].
  - vm_compute in E. injection E as <-. by vm_compute.
  - apply rules_read. by apply (bool_decide_unpack (Forall group_ok sample_groups)).
Qed.

Definition sample_edits : list edit :=
  [Tiers AddTier; Tiers (OnCard 0 (CardPrice (js "input_unit_cost") (num_of_Z 3))); Rules AddGroup;
   Rules (OnGroup 0 (RuleRow 0 (RowPath (js "user")))); Mode raw;
   TypeRaw (js "max(p, c) * 3"); ApplyPreset (preset "flat" (tier_of "base" "p * 2 + c * 4") [])].

(** The edits of a model as it was opened: the second is read back, and the preset at the end,
    whose rules differ, is not. *)
Lemma editor_refines_machine_witness :
  exists e, open model_a = Return e /\ initRef e = false
  /\ omapr v_expr (spec_run sample_edits (observe e)) = Return (tier_of "base" "p * 2 + c * 4")
  /\ omapr observe (run sample_edits e) = spec_run sample_edits (observe e).
Proof.
  destruct (open model_a) as [e|] eqn:E; [|by vm_compute in E].
  exists e. split; [done|]. pose proof E as E'. vm_compute in E'. injection E' as E'.
  split; [by rewrite <- E'|]. split; [rewrite <- E'; by vm_compute|].
  exact (editor_refines_machine sample_edits e (reached_open model_a e E)).
Defined.

Lemma next_model_gets_last_price_witness :
  exists e e', open model_a = Return e /\ reopen model_b e = Return e' /\ quiet e'
  /\ props e' = props_for (js "b") (tier_of "base" "p * 2 + c * 4") [].
Proof.
  destruct model_a_reads as (cfg & gs & H). destruct (open_readable (js "a") _ _ cfg gs H) as [Ho Q].
  destruct (next_model_gets_last_price _ (js "b") (currentExpr model_b) (currentRequestRuleExpr model_b)
              Q eq_refl model_a_reads ltac:(done) model_b_reads) as (e' & E & Q' & P).
  eexists _, e'. split; [exact Ho|]. split; [exact E|]. by split.
Defined.

Definition panel_c : Panel :=
  set_other (js "c") tiered_expr (js "max(p, c) * 3") (buildRequestRuleExpr sample_groups)
    (VStr (js "request")) (open_panel None).

Lemma opening_makes_free_witness :
  exists e, open (props_of panel_c) = Return e /\ quiet e
  /\ ModelPricing.billingExpr (buildSubmitData (edited e panel_c)) = Some FREE_EXPR
  /\ ModelPricing.requestRuleExpr (buildSubmitData (edited e panel_c)) = Some (p_rules panel_c).
Proof.
  destruct (splitBillingExprAndRequestRules (combineBillingExpr (p_expr panel_c) (p_rules panel_c)))
    as [s|] eqn:E; [|by vm_compute in E].
  apply (opening_makes_free panel_c sample_groups s);
    [done|done|by apply (bool_decide_unpack (Forall group_ok sample_groups))|done|by vm_compute|exact E].
Defined.

Lemma first_preset_loses_price_witness :
  exists e e' pr, pr ∈ presets /\ preset_key pr = js "claude-opus-fast" /\ open model_a = Return e
  /\ step (ApplyPreset pr) e = Return e' /\ quiet e' /\ expr_of e' = tier_of "base" "p * 2 + c * 4".
Proof.
  destruct model_a_reads as (cfg & gs & H).
  destruct (presets !! 11%nat) as [pr|] eqn:E; [|by vm_compute in E].
  assert (Hk : preset_key pr = js "claude-opus-fast") by (vm_compute in E; injection E as <-; by vm_compute).
  assert (Hr : buildRequestRuleExpr (requestRules pr) <> []).
  { vm_compute in E. injection E as <-. intros H'. by vm_compute in H'. }
  apply list_elem_of_lookup_2 in E.
  destruct (first_preset_loses_price (js "a") _ _ cfg gs pr H E Hr) as (e & e' & Ho & Hs & Q & P).
  exists e, e', pr. do 4 (split; [assumption|]). split; [exact Q|]. unfold expr_of. by rewrite P.
Defined.

Lemma tier_edits_keep_shape_witness :
  exists next, edit_tiers (AddCondition 0) None = Some next /\ config_ok 2 next.
Proof.
  destruct (edit_tiers (AddCondition 0) None) as [next|] eqn:E; [|by vm_compute in E].
  exists next. split; [done|]. exact (tier_edits_keep_shape 2 (AddCondition 0) None next ltac:(lia) I I E).
Defined.
