(* ===== verification/PricingPanel.v ===== *)
(** * The price panel with its tiered editor

    [features/system-settings/models/model-pricing-sheet.tsx] shows the tiered editor
    ([TieredEditor]) in its tab for prices by expression.  The editor's effects run as it
    appears and may rewrite the two texts the panel holds, before anything is typed: [opened]
    is the panel after them.  Saving a row that was only opened then leaves it as it was when
    the cards show its texts as they stand; [TieredEditorProofs.opening_makes_free] is about
    the expressions they cannot show. *)

From S2P Require Import Prelude JsString JsNumber JsValue JsJson RequestRules TierExpr ModelPricing.
From S2P Require Import PricingSnapshots PricingEditor TieredEditor TieredEditorProofs.

#[local] Open Scope outcome_scope.

(** The panel as it appears on a row: its own effect, and in the tiered mode the effects of the
    editor it then shows. *)
Definition opened (editData : option ModelRatioData) : outcome Panel :=
  let p := open_panel editData in
  if bool_decide (pricingMode p = tiered_expr)
  then let! e := open (props_of p) in Return (edited e p)
  else Return p.

(** Two texts the cards show, and print as they are. *)
Definition shown_as_is (r : ModelPricingSnapshot) : Prop :=
  s_mode r = tiered_expr -> readable (or_empty (s_expr r)) (or_empty (s_rules r)).

Lemma mode_tiered r : pricingMode (open_panel (Some (edit_data r))) = tiered_expr -> s_mode r = tiered_expr.
Proof.
  cbn [open_panel pricingMode]. unfold edit_data, resolvePricingModeFromData.
  cbn [ModelPricing.billingMode field_of ostr]. destruct (s_mode r); try done.
  by destruct (truthy_str (or_empty (s_field r price))).
Qed.

(** The effects of the editor change nothing of texts the cards show. *)
Lemma edited_same e p : props e = props_of p -> edited e p = p.
Proof. intros E. unfold edited. rewrite E. by destruct p. Qed.

Lemma opened_as_is r :
  shown_as_is r -> opened (Some (edit_data r)) = Return (open_panel (Some (edit_data r))).
Proof.
  intros Hr. unfold opened. case_bool_decide as Hm; [|done]. apply mode_tiered in Hm.
  destruct (Hr Hm) as (cfg & gs & H). destruct (open_readable (s_name r) _ _ cfg gs H) as [Ho _].
  change (props_of (open_panel (Some (edit_data r))))
    with (props_for (s_name r) (or_empty (s_expr r)) (or_empty (s_rules r))).
  rewrite Ho. cbn [obind]. by rewrite edited_same.
Qed.

(** C16. Opening a stored row in the panel and saving it without a change leaves the row as it
    was, by the signature that marks changed rows, and every other row too, whatever the mode
    of the model: the numbers are read and printed back exactly.  A row priced by an
    expression is taken with the effects of the tiered editor that appears on it, and must be
    one the cards show and print as it stands; every row must keep something that can be
    saved. *)
Theorem resave_unchanged t n r :
  typed_texts t -> stored_row t n = Return (Some r) -> trim n = n -> resavable r -> shown_as_is r ->
  exists p, opened (Some (edit_data r)) = Return p
  /\ forall data, commitDraft p = Some data ->
     exists t' r',
       commitOpenEditor t p = Some (Return (t', data))
       /\ stored_row t' n = Return (Some r')
       /\ getSnapshotSignature (Some r') = getSnapshotSignature (Some r)
       /\ (forall k, k <> n -> stored_row t' k ≡ stored_row t k).
Proof.
  intros Ht Hrow Htrim Hkeep Hshown. eexists. split; [by apply opened_as_is|].
  intros data. by apply recommit_unchanged.
Qed.

(** ** Witness *)

(** A model priced by an expression with one tier. *)
Definition tiered_texts : texts := fun f =>
  match f with
  | Modes => ser (VObj [(js "t", VStr (js "tiered_expr"))])
  | Exprs => ser (VObj [(js "t", VStr (tier_of "base" "p * 2 + c * 4"))])
  | _ => js "{}"
  end.

Definition row_t : ModelPricingSnapshot :=
  {| s_name := js "t";
     s_field := fun f => Some (text_of (own (js "t") (read_maps tiered_texts (Prices f))));
     s_mode := tiered_expr; s_expr := Some (tier_of "base" "p * 2 + c * 4"); s_rules := Some [];
     s_unit := VUndef; hasConflict := false |}.

Lemma row_t_stored : typed_texts tiered_texts /\ stored_row tiered_texts (js "t") = Return (Some row_t).
Proof.
  assert (Ht : typed_texts tiered_texts) by (by apply typed_texts_intro). split; [exact Ht|].
  apply stored_row_intro; [exact Ht|exists Modes; by vm_compute|].
  assert (HM : own (js "t") (read_maps tiered_texts Modes) = VStr (js "tiered_expr")) by by vm_compute.
  assert (HE : own (js "t") (read_maps tiered_texts Exprs) = VStr (tier_of "base" "p * 2 + c * 4"))
    by by vm_compute.
  assert (HS : split_value (vor (VStr (tier_of "base" "p * 2 + c * 4")) (VStr []))
               = Return {| RequestRules.billingExpr := tier_of "base" "p * 2 + c * 4";
                           RequestRules.requestRuleExpr := [] |}) by by vm_compute.
  unfold snapshot_of. rewrite HM, HE. change (fromBackendBillingMode _) with (Some tiered_expr). cbv iota.
  rewrite HS. reflexivity.
Qed.

Lemma resave_unchanged_witness :
  exists p t' r', opened (Some (edit_data row_t)) = Return p
  /\ commitOpenEditor tiered_texts p = Some (Return (t', buildSubmitData p))
  /\ stored_row t' (js "t") = Return (Some r')
  /\ getSnapshotSignature (Some r') = getSnapshotSignature (Some row_t).
Proof.
  destruct row_t_stored as [Ht Hrow].
  destruct (resave_unchanged tiered_texts (js "t") row_t Ht Hrow) as (p & E & H).
  - by vm_compute.
  - split; by vm_compute.
  - intros _. exact model_a_reads.
  - assert (Hp : p = open_panel (Some (edit_data row_t))).
    { rewrite opened_as_is in E by (intros _; exact model_a_reads). by injection E as <-. }
    destruct (H (buildSubmitData p)) as (t' & r' & Hc & Hr & Hs & _).
    + rewrite Hp. apply commit_intro. by vm_compute.
    + exists p, t', r'. split; [exact E|]. split; [exact Hc|]. by split.
Defined.
