(* ===== verification/SecureVerification.v ===== *)
(** * Verification of sensitive actions ([features/auth/secure-verification],
      [lib/secure-verification.ts])

    A call the server refuses until the user has verified himself is kept by a hook, which
    opens a dialog, runs a verification by an authenticator code or by a passkey, and then the
    call.  Every [await] of the code is a point where the user, the browser or the server may
    do something else: a system is the hook's states with the suspended functions
    ([procs]), and a step is an event that one of them, or the user, takes part in. *)

From S2P Require Import Prelude JsString JsNumber JsValue Passkey.

(** ** Methods *)

Inductive Method := two_fa | passkey.

#[export] Instance Method_eq_dec : EqDecision Method.
Proof. solve_decision. Defined.

Record Methods := { has2FA : bool; hasPasskey : bool; passkeySupported : bool }.

Definition defaultMethods : Methods :=
  {| has2FA := false; hasPasskey := false; passkeySupported := false |}.

(** [response?.success] and [response?.data?.enabled] *)
Definition enabled (response : jsval) : bool :=
  truthy (prop (js "success") response) && truthy (prop (js "enabled") (prop (js "data") response)).

(** [checkVerificationMethods], from its three requests. *)
Definition checkVerificationMethods (twoFA passkey : outcome jsval) (supported : outcome bool) : Methods :=
  match twoFA, passkey, supported with
  | Return t, Return p, Return s =>
      {| has2FA := enabled t; hasPasskey := enabled p; passkeySupported := s |}
  | _, _, _ => defaultMethods
  end.

Definition passkey_usable (m : Methods) : bool := hasPasskey m && passkeySupported m.

Definition canUseMethod (m : Methods) (md : Method) : bool :=
  match md with two_fa => has2FA m | passkey => passkey_usable m end.

Definition recommendedMethod (m : Methods) : option Method :=
  if passkey_usable m then Some passkey else if has2FA m then Some two_fa else None.

(** ** Errors *)

(** What a promise is rejected with: an error, with its name where it is a [DOMException] and
    the response where it is one of the network library's, or another value. *)
Inductive error :=
  | Err (dom_name : option jsstr) (message : jsstr) (response : jsval)
  | Thrown (v : jsval).

Definition error_ (message : jsstr) : error := Err None message VUndef.

Definition response_of (e : error) : jsval :=
  match e with Err _ _ r => r | Thrown v => prop (js "response") v end.

Definition verificationCodes : list jsstr :=
  [js "VERIFICATION_REQUIRED"; js "VERIFICATION_EXPIRED"; js "VERIFICATION_INVALID"].

Definition is_403 (v : jsval) : bool := match v with VNum n => neqb n (num_of_Z 403) | _ => false end.

Definition isVerificationRequiredError (e : error) : bool :=
  let r := response_of e in
  is_403 (prop (js "status") r)
  && match prop (js "code") (prop (js "data") r) with
     | VStr s => bool_decide (s ∈ verificationCodes)
     | _ => false
     end.

(** The message of [extractVerificationInfo]. *)
Definition extract_message (e : error) : jsval :=
  vnullish (prop (js "message") (prop (js "data") (response_of e)))
    (VStr (js "Secure verification is required")).

(** The [catch] of [verifyPasskey]. *)
Definition passkey_error (e : error) : error :=
  match e with
  | Err (Some name) _ _ =>
      if bool_decide (name = js "NotAllowedError")
      then error_ (js "Passkey verification was cancelled or timed out")
      else if bool_decide (name = js "InvalidStateError")
      then error_ (js "Passkey verification is not available in the current state")
      else e
  | _ => e
  end.

(** [response.message || text], as the message of an error. *)
Definition refusal (response : jsval) (text : jsstr) : error :=
  error_ (to_string (vor (prop (js "message") response) (VStr text))).

Definition success (response : jsval) : bool := truthy (prop (js "success") response).

(** ** The hook *)

Section Hook.

Context {call : Type}.

(** [autoReset] and [successMessage]; whether the browser has [navigator.credentials]; the
    message of what [prepareCredentialRequestOptions] throws. *)
Context (autoReset : bool) (successMessage : jsstr).
Context (has_credentials : bool) (prepare_message : jsval -> jsstr).

Record Config := { preferredMethod : option Method; c_title : option jsstr; c_description : option jsstr }.

Record Hook := {
  methods : Methods;
  method : option Method;
  loading : bool;
  code : jsstr;
  title : option jsstr;
  description : option jsstr;
  apiCall : option call;
  is_open : bool }.

(** [initialState], [open] and [defaultMethods] *)
Definition initial_hook : Hook :=
  {| methods := defaultMethods; method := None; loading := false; code := []; title := None;
     description := None; apiCall := None; is_open := false |}.

Definition setMethods (m : Methods) (h : Hook) : Hook :=
  {| methods := m; method := method h; loading := loading h; code := code h; title := title h;
     description := description h; apiCall := apiCall h; is_open := is_open h |}.

Definition setLoading (b : bool) (h : Hook) : Hook :=
  {| methods := methods h; method := method h; loading := b; code := code h; title := title h;
     description := description h; apiCall := apiCall h; is_open := is_open h |}.

Definition setOpen (b : bool) (h : Hook) : Hook :=
  {| methods := methods h; method := method h; loading := loading h; code := code h; title := title h;
     description := description h; apiCall := apiCall h; is_open := b |}.

(** [setCode], and [switchMethod], which clears the code *)
Definition set_code (c : jsstr) (h : Hook) : Hook :=
  {| methods := methods h; method := method h; loading := loading h; code := c; title := title h;
     description := description h; apiCall := apiCall h; is_open := is_open h |}.

Definition switchMethod (m : Method) (h : Hook) : Hook :=
  {| methods := methods h; method := Some m; loading := loading h; code := []; title := title h;
     description := description h; apiCall := apiCall h; is_open := is_open h |}.

Definition reset (h : Hook) : Hook :=
  {| methods := methods h; method := None; loading := false; code := []; title := None;
     description := None; apiCall := None; is_open := false |}.

(** The states [startVerification] sets. *)
Definition begin_dialog (c : call) (cfg : Config) (m : option Method) (h : Hook) : Hook :=
  {| methods := methods h; method := m; loading := loading h; code := code h; title := c_title cfg;
     description := c_description cfg; apiCall := Some c; is_open := true |}.

(** ** Suspended functions *)

(** Where a function waits: for the methods, with what is started then; for the call tried
    without verification; in the steps of a verification; for the call after it. *)
Inductive stage :=
  | WaitMethods (start : option (call * Config))
  | TryCall (c : call) (cfg : Config)
  | Code (c : call)
  | Begin (c : call)
  | Ceremony (c : call)
  | Finish (c : call)
  | Complete (c : call)
  | Protected (m : Method) (c : call).

(** The answers: a body, a credential, the end of a call, a rejection, the methods. *)
Inductive answer :=
  | Body (r : jsval)
  | GotCredential (c : option (Credential * Assertion))
  | CallEnds
  | Rejected (e : error)
  | GotMethods (m : Methods).

(** What is seen outside: the answers a function receives, as they arrive, and what the code
    does: requests, ceremonies, calls, messages. *)
Inductive effect :=
  | Received (a : answer)
  | AskMethods
  | Submit (m : Method) (c : call)
  | PostCode (code : jsstr)
  | PostBegin
  | GetCredential (publicKey : fields)
  | PostFinish (payload : jsval)
  | PostPasskey
  | Called (verified : bool) (c : call)
  | ToastError (m : jsstr)
  | ToastSuccess (m : jsstr)
  | ToastInfo (m : jsval)
  | OnSuccess (m : Method)
  | OnError (e : error)
  | Rethrown (e : error).

(** A function that goes on: the states, what it does, and where it waits next, or None. *)
Definition result : Type := Hook * list effect * option stage.

Definition error_message (e : error) : jsstr :=
  match e with Err _ m _ => m | Thrown _ => js "Verification failed" end.

(** The [catch] and [finally] of [executeVerification]. *)
Definition fail (e : error) (h : Hook) : result :=
  (setLoading false h, [ToastError (error_message e); OnError e; Rethrown e], None).

(** [await state.apiCall()] *)
Definition run_call (m : Method) (c : call) (h : Hook) : result :=
  (h, [Called true c], Some (Protected m c)).

(** The start of [verify], up to its first [await]. *)
Definition verify (m : Method) (code : jsstr) (c : call) (h : Hook) : result :=
  match m with
  | two_fa =>
      let trimmed := trim code in
      if negb (truthy_str trimmed)
      then fail (error_ (js "Please enter the verification code or backup code")) h
      else (h, [PostCode trimmed], Some (Code c))
  | passkey =>
      if negb has_credentials
      then fail (error_ (js "Passkey verification is not supported in this environment")) h
      else (h, [PostBegin], Some (Begin c))
  end.

Definition NOT_CONFIGURED : jsstr := js "Verification is not configured properly".
Definition SELECT_METHOD : jsstr := js "Select a verification method first".

Definition executeVerification (m : option Method) (code_ : option jsstr) (h : Hook) : result :=
  match apiCall h with
  | None => (h, [ToastError NOT_CONFIGURED], None)
  | Some c =>
      match (match m with Some _ => m | None => method h end) with
      | None => (h, [ToastError SELECT_METHOD], None)
      | Some actual =>
          let '(h', effs, next) := verify actual (default (code h) code_) c (setLoading true h) in
          (h', Submit actual c :: effs, next)
      end
  end.

(** After the call: [onSuccess], [reset], and the [finally]. *)
Definition succeed (m : Method) (h : Hook) : result :=
  (setLoading false (if autoReset then reset h else h),
   (if truthy_str successMessage then [ToastSuccess successMessage] else []) ++ [OnSuccess m], None).

Definition NO_METHODS : jsstr :=
  js "Please enable Two-factor Authentication or Passkey before proceeding".
Definition NO_METHODS_ERROR : error :=
  error_ (js "No verification methods available. Enable 2FA or Passkey to continue.").

(** [startVerification], once the methods are known. *)
Definition start_with (c : call) (cfg : Config) (m : Methods) (h : Hook) : result :=
  if negb (has2FA m) && negb (hasPasskey m)
  then (h, [ToastError NO_METHODS; OnError NO_METHODS_ERROR], None)
  else
    let md := match preferredMethod cfg with
              | Some p => Some p
              | None => recommendedMethod m
              end in
    (begin_dialog c cfg md h, [], None).

(** A suspended function gets its answer; None for an answer it does not wait for. *)
Definition resume (st : stage) (a : answer) (h : Hook) : option result :=
  match st, a with
  | WaitMethods start, GotMethods m =>
      let h' := setMethods m h in
      Some (match start with Some (c, cfg) => start_with c cfg m h' | None => (h', [], None) end)
  | TryCall c cfg, CallEnds => Some (h, [], None)
  | TryCall c cfg, Rejected e =>
      Some (if isVerificationRequiredError e
            then (h, [ToastInfo (extract_message e); AskMethods], Some (WaitMethods (Some (c, cfg))))
            else (h, [Rethrown e], None))
  | Code c, Body r =>
      Some (if success r then run_call two_fa c h else fail (refusal r (js "Verification failed")) h)
  | Code c, Rejected e => Some (fail e h)
  | Begin c, Body r =>
      Some (if negb (success r) then fail (refusal r (js "Failed to start verification")) h
            else
              let data := prop (js "data") r in
              let payload := vnullish (prop (js "options") data) data in
              match prepareCredentialRequestOptions payload with
              | Some pk => (h, [GetCredential pk], Some (Ceremony c))
              | None => fail (error_ (prepare_message payload)) h
              end)
  | Ceremony c, GotCredential cr =>
      Some (match cr with
            | None => fail (error_ (js "Passkey verification was cancelled")) h
            | Some _ =>
                let assertion := buildAssertionResult cr in
                if negb (truthy assertion)
                then fail (error_ (js "Unable to build Passkey assertion")) h
                else (h, [PostFinish assertion], Some (Finish c))
            end)
  | Finish c, Body r =>
      Some (if negb (success r) then fail (refusal r (js "Passkey verification failed")) h
            else (h, [PostPasskey], Some (Complete c)))
  | Complete c, Body r =>
      Some (if success r then run_call passkey c h
            else fail (refusal r (js "Failed to complete verification")) h)
  | (Begin _ | Ceremony _ | Finish _ | Complete _), Rejected e => Some (fail (passkey_error e) h)
  | Protected m c, CallEnds => Some (succeed m h)
  | Protected m c, Rejected e => Some (fail e h)
  | _, _ => None
  end.

(** ** The system *)

(** Suspended functions have numbers of their own; [log] holds what was done, oldest first. *)
Record Sys := { hook : Hook; procs : list (nat * stage); next : nat; log : list (nat * effect) }.

Definition initial : Sys := {| hook := initial_hook; procs := []; next := 0; log := [] |}.

(** [Fetch] is the effect of the mount, and the pages' own calls of
    [fetchVerificationMethods]; [Answer] resumes a function. *)
Inductive event :=
  | Fetch
  | Start (c : call) (cfg : Config)
  | With (c : call) (cfg : Config)
  | Execute (m : option Method) (code : option jsstr)
  | SetCode (c : jsstr)
  | Switch (m : Method)
  | Cancel
  | SetOpen (b : bool)
  | Answer (pid : nat) (a : answer).

(** A new function, run to its first [await]. *)
Definition spawn (r : result) (s : Sys) : Sys :=
  let '(h, effs, st) := r in
  {| hook := h; procs := match st with Some st => procs s ++ [(next s, st)] | None => procs s end;
     next := S (next s); log := log s ++ ((fun e => (next s, e)) <$> effs) |}.

Definition with_hook (f : Hook -> Hook) (s : Sys) : Sys :=
  {| hook := f (hook s); procs := procs s; next := next s; log := log s |}.

Definition find_proc (pid : nat) (ps : list (nat * stage)) : option stage :=
  snd <$> find (fun p => bool_decide (fst p = pid)) ps.

Definition drop_proc (pid : nat) (ps : list (nat * stage)) : list (nat * stage) :=
  filterb (fun p => negb (bool_decide (fst p = pid))) ps.

(** A function resumed: it takes the place of the one that waited. *)
Definition resumed (pid : nat) (r : result) (s : Sys) : Sys :=
  let '(h, effs, st) := r in
  {| hook := h;
     procs := match st with
              | Some st => drop_proc pid (procs s) ++ [(pid, st)]
              | None => drop_proc pid (procs s)
              end;
     next := next s; log := log s ++ ((fun e => (pid, e)) <$> effs) |}.

(** Every answer that reaches a function is recorded before what the function does with it. *)
Definition receive (a : answer) (r : result) : result :=
  let '(h, effs, st) := r in (h, Received a :: effs, st).

Definition step (s : Sys) (ev : event) : option Sys :=
  match ev with
  | Fetch => Some (spawn (hook s, [AskMethods], Some (WaitMethods None)) s)
  | Start c cfg => Some (spawn (hook s, [AskMethods], Some (WaitMethods (Some (c, cfg)))) s)
  | With c cfg => Some (spawn (hook s, [Called false c], Some (TryCall c cfg)) s)
  | Execute m code => Some (spawn (executeVerification m code (hook s)) s)
  | SetCode c => Some (with_hook (set_code c) s)
  | Switch m => Some (with_hook (switchMethod m) s)
  | Cancel => Some (with_hook reset s)
  | SetOpen b => Some (with_hook (setOpen b) s)
  | Answer pid a =>
      st ← find_proc pid (procs s); r ← resume st a (hook s); Some (resumed pid (receive a r) s)
  end.

Fixpoint run (s : Sys) (evs : list event) : option Sys :=
  match evs with
  | [] => Some s
  | ev :: evs => s' ← step s ev; run s' evs
  end.

Inductive reachable : Sys -> Prop :=
  | reach_initial : reachable initial
  | reach_step s ev s' : reachable s -> step s ev = Some s' -> reachable s'.

(** ** The dialog *)

Definition availableTabs (m : Methods) : list Method :=
  (if has2FA m then [two_fa] else []) ++ (if passkey_usable m then [passkey] else []).

Definition activeMethod (h : Hook) : option Method :=
  match method h with Some m => Some m | None => head (availableTabs (methods h)) end.

Definition verifyDisabled (h : Hook) : bool :=
  loading h
  || bool_decide (activeMethod h = Some two_fa)
     && (negb (truthy_str (trim (code h))) || (length (code h) <? 6)%nat).

(** The button is enabled. *)
Definition can_verify (h : Hook) : bool :=
  negb (bool_decide (availableTabs (methods h) = [])) && negb (verifyDisabled h).

(** [handleVerify]: the event it causes. *)
Definition handleVerify (h : Hook) : option event :=
  match activeMethod h with
  | None => None
  | Some m => Some (Execute (Some m) (if bool_decide (m = two_fa) then Some (code h) else None))
  end.

(** ** What a function has done *)

(** The effects of one function. *)
Definition trace (pid : nat) (l : list (nat * effect)) : list effect :=
  snd <$> filterb (fun p => bool_decide (fst p = pid)) l.

(** Not a call made after a verification. *)
Definition harmless (e : effect) : bool :=
  match e with Called true _ => false | _ => true end.

Definition all_harmless (h : list effect) : Prop := Forall (fun e => harmless e = true) h.

(** The steps of a verification by passkey, each with the answer that lets the next one
    begin: the server's options, the credential for those options, its check. *)
Inductive passkey_begun (c : call) : list effect -> Prop :=
  | pk_begun : passkey_begun c [Submit passkey c; PostBegin].

(** The options of the server's answer. *)
Definition options_of (r : jsval) : jsval :=
  let data := prop (js "data") r in vnullish (prop (js "options") data) data.

Inductive passkey_asked (c : call) : list effect -> Prop :=
  | pk_asked h r pk :
      passkey_begun c h -> success r = true -> prepareCredentialRequestOptions (options_of r) = Some pk ->
      passkey_asked c (h ++ [Received (Body r); GetCredential pk]).

Inductive passkey_signed (c : call) : list effect -> Prop :=
  | pk_signed h cr :
      passkey_asked c h -> truthy (buildAssertionResult (Some cr)) = true ->
      passkey_signed c (h ++ [Received (GotCredential (Some cr));
                              PostFinish (buildAssertionResult (Some cr))]).

Inductive passkey_finished (c : call) : list effect -> Prop :=
  | pk_finished h r :
      passkey_signed c h -> success r = true ->
      passkey_finished c (h ++ [Received (Body r); PostPasskey]).

Inductive code_sent (c : call) : list effect -> Prop :=
  | a_code_sent code : code <> [] -> code_sent c [Submit two_fa c; PostCode code].

(** A verification the server accepted: all its requests, the answer to the last of them
    being a success. *)
Inductive verified (c : call) : Method -> list effect -> Prop :=
  | by_code h r : code_sent c h -> success r = true -> verified c two_fa (h ++ [Received (Body r)])
  | by_passkey h r :
      passkey_finished c h -> success r = true -> verified c passkey (h ++ [Received (Body r)]).

Definition stage_trace (st : stage) (h : list effect) : Prop :=
  match st with
  | WaitMethods _ | TryCall _ _ => all_harmless h
  | Code c => code_sent c h
  | Begin c => passkey_begun c h
  | Ceremony c => passkey_asked c h
  | Finish c => passkey_signed c h
  | Complete c => passkey_finished c h
  | Protected m c => exists v, verified c m v /\ h = v ++ [Called true c]
  end.

Definition done_trace (h : list effect) : Prop :=
  all_harmless h
  \/ exists m c v rest, verified c m v /\ h = v ++ Called true c :: rest /\ all_harmless rest.

Definition after (st : option stage) (h : list effect) : Prop :=
  match st with Some st => stage_trace st h | None => done_trace h end.

Lemma harmless_app h k : all_harmless h -> all_harmless k -> all_harmless (h ++ k).
Proof. intros. by apply Forall_app. Qed.

Lemma harmless_one e h : harmless e = true -> all_harmless h -> all_harmless (e :: h).
Proof. by constructor. Qed.

Lemma harmless_none : all_harmless [].
Proof. constructor. Qed.

#[local] Hint Resolve harmless_app harmless_one harmless_none : harmless.
#[local] Hint Constructors code_sent passkey_begun passkey_asked passkey_signed passkey_finished verified
  : harmless.

Lemma code_sent_harmless c h : code_sent c h -> all_harmless h.
Proof. destruct 1; auto with harmless. Qed.

Lemma passkey_harmless c h :
  passkey_begun c h \/ passkey_asked c h \/ passkey_signed c h \/ passkey_finished c h -> all_harmless h.
Proof.
  assert (H1 : forall h, passkey_begun c h -> all_harmless h) by (destruct 1; auto with harmless).
  assert (H2 : forall h, passkey_asked c h -> all_harmless h) by (destruct 1; auto with harmless).
  assert (H3 : forall h, passkey_signed c h -> all_harmless h) by (destruct 1; auto with harmless).
  intros [|[|[|[]]]]; auto 6 with harmless.
Qed.

Lemma verified_harmless m c h : verified c m h -> all_harmless h.
Proof. destruct 1; eauto 7 using code_sent_harmless, passkey_harmless with harmless. Qed.

(** What a waiting function has done so far is harmless, but for the call itself. *)
Lemma waiting_harmless st h :
  stage_trace st h -> match st with Protected _ _ => True | _ => all_harmless h end.
Proof. destruct st; cbn; eauto 6 using code_sent_harmless, passkey_harmless. Qed.

(** A verification that fails leaves nothing behind. *)
Lemma fail_trace h a e hk :
  all_harmless h -> let '(_, effs, st) := fail e hk in after st (h ++ Received a :: effs).
Proof. intros H. left. cbn. auto 8 with harmless. Qed.

Lemma resume_trace st a h hk hk' effs st' :
  stage_trace st h -> resume st a hk = Some (hk', effs, st') -> after st' (h ++ Received a :: effs).
Proof.
  intros Ht E. pose proof (waiting_harmless _ _ Ht) as Hh.
  assert (Hf : forall e, Some (fail e hk) = Some (hk', effs, st') -> all_harmless h ->
            after st' (h ++ Received a :: effs)).
  { intros e [= <- <- <-] H. apply (fail_trace h a e hk H). }
  assert (Hp : forall m c rest, (exists v, verified c m v /\ h = v ++ [Called true c]) -> all_harmless rest ->
            done_trace (h ++ Received a :: rest)).
  { intros m c rest (v & Hv & ->) Hr. right. exists m, c, v, (Received a :: rest).
    rewrite <- app_assoc. auto with harmless. }
  destruct st as [start|c cfg|c|c|c|c|c|m c]; destruct a as [r|cr| |e|m']; cbn [resume] in E; try done;
    try (by eapply Hf).
  - destruct start as [[c cfg]|]; [unfold start_with in E; case_match|]; injection E as <- <- <-; left;
      auto 7 with harmless.
  - injection E as <- <- <-. left. auto with harmless.
  - case_match; injection E as <- <- <-; [cbn|left]; auto 7 with harmless.
  - case_match; [|by eapply Hf]. injection E as <- <- <-. exists (h ++ [Received (Body r)]).
    rewrite <- app_assoc. auto with harmless.
  - case_match eqn:Er; [by eapply Hf|]. case_match eqn:Eo; [|by eapply Hf]. injection E as <- <- <-.
    apply negb_false_iff in Er. cbn. eauto with harmless.
  - case_match; [|by eapply Hf]. case_match eqn:Et; [by eapply Hf|]. injection E as <- <- <-.
    apply negb_false_iff in Et. cbn. eauto with harmless.
  - case_match eqn:Er; [by eapply Hf|]. injection E as <- <- <-. apply negb_false_iff in Er. cbn.
    eauto with harmless.
  - case_match; [|by eapply Hf]. injection E as <- <- <-. exists (h ++ [Received (Body r)]).
    rewrite <- app_assoc. auto with harmless.
  - injection E as <- <- <-. eapply Hp; [done|]. destruct (truthy_str successMessage); auto with harmless.
  - injection E as <- <- <-. eapply Hp; [done|]. auto 6 with harmless.
Qed.

Lemma execute_trace m code_ hk :
  let '(_, effs, st) := executeVerification m code_ hk in after st effs.
Proof.
  unfold executeVerification. destruct (apiCall hk) as [c|]; [|by left; repeat constructor].
  destruct (match m with Some _ => m | None => method hk end) as [actual|]; [|by left; repeat constructor].
  unfold verify. destruct actual.
  - destruct (truthy_str _) eqn:Et; cbn [negb fail after]; [|by left; repeat constructor].
    constructor. by apply truthy_str_spec.
  - destruct has_credentials; cbn [negb fail after]; [constructor|by left; repeat constructor].
Qed.
Lemma trace_app pid l q effs :
  trace pid (l ++ ((fun e => (q, e)) <$> effs)) = trace pid l ++ (if bool_decide (q = pid) then effs else []).
Proof.
  unfold trace. rewrite filterb_app, fmap_app. f_equal. case_bool_decide as E.
  - subst. induction effs as [|e effs IH]; [done|]. cbn. rewrite bool_decide_eq_true_2 by done. cbn. by rewrite IH.
  - induction effs as [|e effs IH]; [done|]. cbn. by rewrite bool_decide_eq_false_2 by done.
Qed.

Lemma find_proc_elem pid ps st : find_proc pid ps = Some st -> (pid, st) ∈ ps.
Proof.
  unfold find_proc. destruct (find _ ps) as [[q st']|] eqn:E; [|done]. cbn. intros [= ->].
  apply find_some in E as [Hin Hq]. apply bool_decide_eq_true in Hq. cbn in Hq. subst.
  by apply list_elem_of_In.
Qed.

Lemma elem_of_drop p st pid ps : (p, st) ∈ drop_proc pid ps <-> (p, st) ∈ ps /\ p <> pid.
Proof.
  unfold drop_proc. rewrite elem_of_filterb. cbn. rewrite negb_true_iff, bool_decide_eq_false. tauto.
Qed.

(** Every function has done what its stage says, and a finished one a whole verification or
    none. *)
Record good (s : Sys) : Prop := {
  g_waits : forall p st, (p, st) ∈ procs s -> (p < next s)%nat /\ stage_trace st (trace p (log s));
  g_done : forall p, (forall st, (p, st) ∉ procs s) -> done_trace (trace p (log s));
  g_fresh : forall p, (next s <= p)%nat -> trace p (log s) = [] }.

Lemma good_spawn s r :
  good s -> (let '(_, effs, st) := r in after st effs) -> good (spawn r s).
Proof.
  destruct r as [[h effs] st]. intros [Gw Gd Gf] Ha. split; cbn [procs next log spawn].
  - intros p st' Hin. rewrite trace_app.
    assert (Hor : (p, st') ∈ procs s \/ (p = next s /\ st = Some st')).
    { destruct st as [st|]; [|by left]. apply elem_of_app in Hin as [?|Hin%list_elem_of_singleton]; [by left|].
      right. by injection Hin as -> ->. }
    destruct Hor as [Hin'|[-> ->]].
    + destruct (Gw p st' Hin') as [Hlt Ht]. rewrite bool_decide_eq_false_2, app_nil_r by lia. split; [lia|done].
    + rewrite bool_decide_eq_true_2, (Gf (next s)) by done. split; [lia|done].
  - intros p Hnot. rewrite trace_app. case_bool_decide as E.
    + subst. rewrite Gf by done. destruct st as [st|]; [|done].
      exfalso. apply (Hnot st), elem_of_app. right. by apply list_elem_of_singleton.
    + rewrite app_nil_r. apply Gd. intros st' Hin. apply (Hnot st'). destruct st as [st|]; [|done].
      apply elem_of_app. by left.
  - intros p Hp. rewrite trace_app, bool_decide_eq_false_2, app_nil_r by lia. apply Gf. lia.
Qed.

Lemma good_resumed s pid st r :
  good s -> (pid, st) ∈ procs s ->
  (let '(_, effs, st') := r in after st' (trace pid (log s) ++ effs)) -> good (resumed pid r s).
Proof.
  destruct r as [[h effs] st']. intros [Gw Gd Gf] Hpid Ha. destruct (Gw pid st Hpid) as [Hlt _].
  split; cbn [procs next log resumed].
  - intros p st2 Hin. rewrite trace_app.
    assert (Hor : ((p, st2) ∈ procs s /\ p <> pid) \/ (p = pid /\ st' = Some st2)).
    { destruct st' as [st'|]; [|left; by apply elem_of_drop].
      apply elem_of_app in Hin as [?%elem_of_drop|Hin%list_elem_of_singleton]; [by left|].
      right. by injection Hin as -> ->. }
    destruct Hor as [[Hin' Hne]|[-> ->]].
    + rewrite bool_decide_eq_false_2, app_nil_r by congruence. by apply Gw.
    + rewrite bool_decide_eq_true_2 by done. split; [done|exact Ha].
  - intros p Hnot. rewrite trace_app. case_bool_decide as E.
    + subst. destruct st' as [st'|]; [|done].
      exfalso. apply (Hnot st'), elem_of_app. right. by apply list_elem_of_singleton.
    + rewrite app_nil_r. apply Gd. intros st2 Hin.
      assert (Hd : (p, st2) ∈ drop_proc pid (procs s)) by (apply elem_of_drop; by split).
      apply (Hnot st2). destruct st' as [st'|]; [|done]. apply elem_of_app. by left.
  - intros p Hp. rewrite trace_app, bool_decide_eq_false_2, app_nil_r by lia. by apply Gf.
Qed.

Lemma good_step s ev s' : good s -> step s ev = Some s' -> good s'.
Proof.
  intros G E. destruct ev as [|c cfg|c cfg|m code_|c|m| |b|pid a]; cbn [step] in E;
    try (injection E as <-; by destruct G).
  1-3: apply (inj Some) in E; subst s'; apply good_spawn; [done|]; by repeat constructor.
  - apply (inj Some) in E. subst s'. apply good_spawn; [done|]. apply execute_trace.
  - destruct (find_proc pid (procs s)) as [st|] eqn:Ef; [|done]. cbn in E.
    destruct (resume st a (hook s)) as [r|] eqn:Er; [|done]. cbn in E.
    apply (inj Some) in E. subst s'. apply find_proc_elem in Ef. apply (good_resumed s pid st); [done|done|].
    destruct r as [[h effs] st']. cbn [receive]. eapply resume_trace; [|exact Er]. by apply (g_waits s G).
Qed.

Lemma reachable_good s : reachable s -> good s.
Proof.
  induction 1 as [|s ev s' _ IH E]; [|by eapply good_step].
  split; cbn; [intros p st Hin; by apply elem_of_nil in Hin| |done]. intros. left. constructor.
Qed.

Lemma trace_elem pid e l : (pid, e) ∈ l -> e ∈ trace pid l.
Proof.
  intros H. apply list_elem_of_fmap. exists (pid, e). split; [done|]. apply elem_of_filterb.
  split; [by apply bool_decide_eq_true|done].
Qed.

Lemma harmless_no_call c h : all_harmless h -> Called true c ∉ h.
Proof. intros H Hin. unfold all_harmless in H. rewrite Forall_forall in H. by specialize (H _ Hin). Qed.

(** C4. The protected call is made once, and only after a verification of its own that the
    server accepted: in every reachable state, a function that has made it has first done all
    the requests of the verification of its method, for this call and in their order.  With a
    code, the answer to the check of the code was a success; with a passkey, so were the three
    answers of the server (the options, the check of the credential, the completion), and the
    credential sent is the one the browser gave for the options received.  The call follows the
    last of these answers at once, and the function makes no other.  Answers are recorded as
    they arrive, refusals too.  This holds of any interleaving of several dialogs, and of
    cancelled ones. *)
Theorem protected_call_verified s pid c :
  reachable s -> (pid, Called true c) ∈ log s ->
  exists m v rest, verified c m v /\ all_harmless rest
  /\ trace pid (log s) = v ++ Called true c :: rest.
Proof.
  intros Hr Hin. pose proof (reachable_good s Hr) as G. apply trace_elem in Hin.
  assert (Hshape : done_trace (trace pid (log s))).
  { destruct (find_proc pid (procs s)) as [st|] eqn:Ef.
    - apply find_proc_elem in Ef. destruct (g_waits s G pid st Ef) as [_ Ht].
      pose proof (waiting_harmless _ _ Ht) as Hh. destruct st as [| | | | | | |m c']; try by left.
      destruct Ht as (v & Hv & E). right. exists m, c', v, []. by repeat constructor.
    - apply (g_done s G). intros st Hst. unfold find_proc in Ef.
      destruct (find _ (procs s)) as [?|] eqn:E; [done|].
      pose proof (find_none _ _ E (pid, st)) as Hn. rewrite <- list_elem_of_In in Hn.
      specialize (Hn Hst). apply bool_decide_eq_false in Hn. by cbn in Hn. }
  destruct Hshape as [Hh|(m & c' & v & rest & Hv & E & Hrest)]; [by apply (harmless_no_call c) in Hh|].
  exists m, v, rest. rewrite E in Hin. rewrite elem_of_app, !elem_of_cons in Hin.
  destruct Hin as [Hin|[[= ->]|Hin]]; [|by repeat split|].
  - by apply (harmless_no_call c) in Hin; [|eapply verified_harmless].
  - by apply (harmless_no_call c) in Hin.
Qed.
(** ** The dialog's state *)

(** A function inside [executeVerification]. *)
Definition executing (st : stage) : bool :=
  match st with WaitMethods _ | TryCall _ _ => false | _ => true end.

Definition running (ps : list (nat * stage)) : list (nat * stage) := filterb (fun p => executing (snd p)) ps.

(** What the dialog lets the user do: its buttons are disabled while it is loading. *)
Definition by_dialog (s : Sys) (ev : event) : Prop :=
  match ev with Execute _ _ | Cancel => loading (hook s) = false | _ => True end.

Inductive dialog_reachable : Sys -> Prop :=
  | dialog_initial : dialog_reachable initial
  | dialog_step s ev s' :
      dialog_reachable s -> by_dialog s ev -> step s ev = Some s' -> dialog_reachable s'.

(** [loading] says whether a verification runs, and there is one at most. *)
Definition exact (s : Sys) : Prop :=
  NoDup (fst <$> procs s) /\ Forall (fun p => (fst p < next s)%nat) (procs s)
  /\ ((loading (hook s) = false /\ running (procs s) = [])
      \/ (loading (hook s) = true /\ exists p, running (procs s) = [p])).

Lemma drop_unique pid st ps :
  NoDup (fst <$> ps) -> (pid, st) ∈ ps ->
  running (drop_proc pid ps) = if executing st then filterb (fun p => negb (bool_decide (fst p = pid))) (running ps)
                               else running ps.
Proof.
  intros Hnd Hin. unfold running, drop_proc. rewrite !filterb_filterb.
  destruct (executing st) eqn:Ex.
  - apply filterb_ext. intros p. apply andb_comm.
  - apply filterb_ext_in. intros [q st'] Hq. cbn. case_bool_decide as E; [|done]. cbn. subst.
    apply list_elem_of_split in Hin as (l1 & l2 & ->).
    rewrite fmap_app, fmap_cons in Hnd. apply NoDup_app in Hnd as (Hd1 & Hd & Hd2).
    apply NoDup_cons in Hd2 as [Hd2 _].
    rewrite elem_of_app, elem_of_cons in Hq. destruct Hq as [Hq|[[= ->]|Hq]]; [|by rewrite Ex|].
    + destruct (Hd pid); [by apply (list_elem_of_fmap_2' fst _ (pid, st'))|]. cbn. apply list_elem_of_here.
    + destruct Hd2. by apply (list_elem_of_fmap_2' fst _ (pid, st')).
Qed.
Lemma fail_inv e h h' effs st :
  Some (fail e h) = Some (h', effs, st) ->
  h' = setLoading false h /\ effs = [ToastError (error_message e); OnError e; Rethrown e] /\ st = None.
Proof. by intros [= <- <- <-]. Qed.

Lemma resume_loading st a h h' effs st' :
  resume st a h = Some (h', effs, st') ->
  if executing st
  then match st' with Some st2 => executing st2 = true /\ loading h' = loading h | None => loading h' = false end
  else loading h' = loading h /\ match st' with Some st2 => executing st2 = false | None => True end.
Proof.
  intros E.
  assert (Hf : forall e, Some (fail e h) = Some (h', effs, st') -> st' = None /\ loading h' = false).
  { intros e H. by apply fail_inv in H as (-> & _ & ->). }
  assert (Hn : st' = None /\ loading h' = false -> match st' with
                 | Some st2 => executing st2 = true /\ loading h' = loading h
                 | None => loading h' = false end) by by intros [-> ?].
  destruct st as [start|c cfg|c|c|c|c|c|m c]; destruct a as [r|cr| |e|m']; cbn [resume executing] in *;
    try done; try (by apply Hn, (Hf _ E)); try (injection E as <- <- <-; done).
  - destruct start as [[c cfg]|]; [unfold start_with in E; destruct (negb _ && negb _)|];
      injection E as <- _ <-; done.
  - destruct (isVerificationRequiredError e); injection E as <- _ <-; done.
  - destruct (success r); [injection E as <- _ <-; done|by apply Hn, (Hf _ E)].
  - destruct (success r); cbn [negb] in E; [|by apply Hn, (Hf _ E)].
    destruct (prepareCredentialRequestOptions _); [injection E as <- _ <-; done|by apply Hn, (Hf _ E)].
  - destruct cr as [cr|]; [|by apply Hn, (Hf _ E)].
    destruct (truthy _); cbn [negb] in E; [injection E as <- _ <-; done|by apply Hn, (Hf _ E)].
  - destruct (success r); cbn [negb] in E; [injection E as <- _ <-; done|by apply Hn, (Hf _ E)].
  - destruct (success r); [injection E as <- _ <-; done|by apply Hn, (Hf _ E)].
Qed.

Lemma execute_loading m code_ h h' effs st :
  loading h = false -> executeVerification m code_ h = (h', effs, st) ->
  match st with Some st => executing st = true /\ loading h' = true | None => loading h' = false end.
Proof.
  intros Hl. unfold executeVerification. destruct (apiCall h); [|by intros [= <- <- <-]].
  destruct (match m with Some _ => m | None => method h end) as [m'|]; [|by intros [= <- <- <-]].
  destruct (verify m' _ _ _) as [[h1 effs1] st1] eqn:Ev. intros [= <- _ <-]. revert Ev.
  unfold verify. destruct m'; [destruct (truthy_str _)|destruct has_credentials]; cbn [negb]; intros Ev;
    [by injection Ev as <- _ <-|by apply (f_equal Some), fail_inv in Ev as (-> & _ & ->)
    |by injection Ev as <- _ <-|by apply (f_equal Some), fail_inv in Ev as (-> & _ & ->)].
Qed.

Lemma running_snoc ps p : running (ps ++ [p]) = running ps ++ (if executing (snd p) then [p] else []).
Proof. unfold running. rewrite filterb_app. cbn. by destruct (executing _). Qed.

Lemma drop_NoDup pid ps : NoDup (fst <$> ps) -> NoDup (fst <$> drop_proc pid ps).
Proof. intros H. eapply sublist_NoDup; [exact H|]. apply fmap_sublist, filterb_sublist. Qed.

Lemma exact_spawn s r :
  exact s ->
  (let '(h, _, st) := r in
   match st with
   | Some st => if executing st then loading (hook s) = false /\ loading h = true
                else loading h = loading (hook s)
   | None => loading h = loading (hook s)
   end) -> exact (spawn r s).
Proof.
  destruct r as [[h effs] st]. intros (Hnd & Hlt & Hor) Hl. unfold exact. cbn [procs hook next spawn].
  assert (Hlt' : Forall (fun p => (fst p < S (next s))%nat) (procs s)).
  { eapply Forall_impl; [exact Hlt|]. cbn. lia. }
  destruct st as [st|]; [|by rewrite Hl]. rewrite running_snoc. cbn [snd]. split; [|split].
  - rewrite fmap_app. apply NoDup_app. split; [done|]. split; [|apply NoDup_singleton].
    intros p Hp Hp'%list_elem_of_singleton. cbn in Hp'. subst. apply list_elem_of_fmap in Hp as (q & E & Hq).
    rewrite Forall_forall in Hlt. specialize (Hlt q Hq). lia.
  - apply Forall_app. split; [done|]. apply Forall_singleton. cbn. lia.
  - destruct (executing st).
    + destruct Hl as [Hl Hh]. destruct Hor as [[_ ->]|[Hl' _]]; [|congruence]. right. split; [done|].
      by eexists.
    + rewrite app_nil_r. by rewrite Hl.
Qed.

Lemma exact_resumed s pid st a r :
  exact s -> (pid, st) ∈ procs s -> resume st a (hook s) = Some r -> exact (resumed pid (receive a r) s).
Proof.
  destruct r as [[h effs] st']. intros (Hnd & Hlt & Hor) Hin E. apply resume_loading in E.
  unfold exact. cbn [procs hook next resumed receive].
  assert (Hp : (pid < next s)%nat) by (rewrite Forall_forall in Hlt; by apply (Hlt (pid, st))).
  assert (Hlt' : Forall (fun p => (fst p < next s)%nat) (drop_proc pid (procs s))).
  { apply Forall_forall. intros p Hq. apply elem_of_filterb in Hq as [_ Hq].
    rewrite Forall_forall in Hlt. by apply Hlt. }
  assert (Hdrop := drop_unique pid st (procs s) Hnd Hin).
  assert (Hgone : executing st = true -> loading (hook s) = true /\ running (drop_proc pid (procs s)) = []).
  { intros Ex. rewrite Ex in Hdrop. rewrite Hdrop.
    assert (Hr : (pid, st) ∈ running (procs s)) by by apply elem_of_filterb.
    destruct Hor as [[_ Hr']|[Hl [p Hr']]]; rewrite Hr' in Hr; [by apply elem_of_nil in Hr|].
    apply list_elem_of_singleton in Hr. subst. split; [done|]. rewrite Hr'. cbn. by rewrite bool_decide_eq_true_2. }
  split; [|split].
  - destruct st' as [st'|]; [|by apply drop_NoDup]. rewrite fmap_app. apply NoDup_app.
    split; [by apply drop_NoDup|]. split; [|apply NoDup_singleton].
    intros p Hq Hp'%list_elem_of_singleton. cbn in Hp'. subst.
    apply list_elem_of_fmap in Hq as ([q st2] & -> & Hq). by apply elem_of_drop in Hq as [_ ?].
  - destruct st' as [st'|]; [|done]. apply Forall_app. split; [done|]. by apply Forall_singleton.
  - destruct (executing st) eqn:Ex.
    + destruct (Hgone eq_refl) as [Hl Hr]. destruct st' as [st'|]; [|by left].
      destruct E as [E1 E2]. rewrite running_snoc, Hr. cbn [snd]. rewrite E1. right.
      split; [congruence|]. by eexists.
    + destruct E as [E1 E2]. rewrite E1.
      destruct st' as [st'|]; [rewrite running_snoc; cbn [snd]; rewrite E2, app_nil_r|]; by rewrite Hdrop.
Qed.

(** The dialog shows that it is loading exactly while a verification runs, and no two run
    at once, however the user's actions, the answers of server and browser, and other dialogs
    interleave, as long as the user acts through its buttons. *)
Theorem loading_is_exact s : dialog_reachable s -> exact s.
Proof.
  induction 1 as [|s ev s' _ IH Hd E].
  - split; [constructor|]. split; [constructor|]. by left.
  - destruct ev as [|c cfg|c cfg|m code_|c|m| |b|pid a]; cbn [step] in E.
    1-3: apply (inj Some) in E; subst s'; by apply exact_spawn.
    + apply (inj Some) in E. subst s'. apply exact_spawn; [done|].
      destruct (executeVerification m code_ (hook s)) as [[h effs] st] eqn:Ex.
      apply execute_loading in Ex; [|exact Hd]. cbn in Hd. destruct st as [st|]; [|congruence].
      destruct Ex as [-> Ex]. by split.
    + by apply (inj Some) in E; subst s'.
    + by apply (inj Some) in E; subst s'.
    + apply (inj Some) in E; subst s'. cbn in Hd. destruct IH as (H1 & H2 & [[_ H3]|[H3 _]]); [|congruence].
      split; [done|]. split; [done|]. by left.
    + by apply (inj Some) in E; subst s'.
    + destruct (find_proc pid (procs s)) as [st|] eqn:Ef; [|done]. cbn in E.
      destruct (resume st a (hook s)) as [r|] eqn:Er; [|done]. cbn in E.
      apply (inj Some) in E. subst s'. apply find_proc_elem in Ef. by eapply exact_resumed.
Qed.
(** ** Ends and errors *)

(** How many more answers a function can wait for. *)
Definition rank (st : stage) : nat :=
  match st with
  | TryCall _ _ => 2 | WaitMethods _ => 1
  | Begin _ => 5 | Ceremony _ => 4 | Finish _ => 3 | Complete _ => 2 | Code _ => 2
  | Protected _ _ => 1
  end.

(** Every answer brings a suspended function nearer to its end: none waits more than five
    times. *)
Theorem answers_end_functions st a h h' effs st' :
  resume st a h = Some (h', effs, Some st') -> (rank st' < rank st)%nat /\ (rank st <= 5)%nat.
Proof.
  intros E. assert (Hf : forall e, Some (fail e h) <> Some (h', effs, Some st')).
  { intros e H. by apply fail_inv in H as (_ & _ & ?). }
  destruct st as [start|c cfg|c|c|c|c|c|m c]; destruct a as [r|cr| |e|m']; cbn [resume] in E;
    try done; try (by destruct (Hf _ E)); unfold start_with, succeed in E.
  - destruct start as [[c cfg]|]; [destruct (negb _ && negb _)|]; done.
  - destruct (isVerificationRequiredError e); [|done]. injection E as _ _ <-. cbn. lia.
  - destruct (success r); [|by destruct (Hf _ E)]. injection E as _ _ <-. cbn. lia.
  - destruct (success r); cbn [negb] in E; [|by destruct (Hf _ E)].
    destruct (prepareCredentialRequestOptions _); [|by destruct (Hf _ E)]. injection E as _ _ <-. cbn. lia.
  - destruct cr as [cr|]; [|by destruct (Hf _ E)].
    destruct (truthy _); cbn [negb] in E; [|by destruct (Hf _ E)]. injection E as _ _ <-. cbn. lia.
  - destruct (success r); cbn [negb] in E; [|by destruct (Hf _ E)]. injection E as _ _ <-. cbn. lia.
  - destruct (success r); [|by destruct (Hf _ E)]. injection E as _ _ <-. cbn. lia.
Qed.

(** A verification that ends without success reports one error, as a message and to
    [onError], and leaves the dialog as it is, to be tried again: the call it is for, its
    method and its code are kept. *)
Theorem failure_keeps_dialog st a h h' effs :
  executing st = true -> resume st a h = Some (h', effs, None) -> (forall m, OnSuccess m ∉ effs) ->
  h' = setLoading false h
  /\ exists e, effs = [ToastError (error_message e); OnError e; Rethrown e].
Proof.
  intros Hx E Hno.
  assert (Hf : forall e, Some (fail e h) = Some (h', effs, None) ->
            h' = setLoading false h /\ exists e, effs = [ToastError (error_message e); OnError e; Rethrown e]).
  { intros e H. apply fail_inv in H as (-> & -> & _). split; [done|by exists e]. }
  destruct st as [start|c cfg|c|c|c|c|c|m c]; destruct a as [r|cr| |e|m']; cbn [resume executing] in *;
    try done; try exact (Hf _ E).
  - destruct (success r); [done|exact (Hf _ E)].
  - destruct (success r); cbn [negb] in E; [|exact (Hf _ E)].
    destruct (prepareCredentialRequestOptions _); [done|exact (Hf _ E)].
  - destruct cr as [cr|]; [|exact (Hf _ E)]. destruct (truthy _); cbn [negb] in E; [done|exact (Hf _ E)].
  - destruct (success r); cbn [negb] in E; [done|exact (Hf _ E)].
  - destruct (success r); [done|exact (Hf _ E)].
  - exfalso. injection E as _ <-. apply (Hno m), elem_of_app. right. apply list_elem_of_here.
Qed.

(** ** What cancelling does not do *)

(** Closing the dialog while the code is being checked does not stop the call: when the server
    accepts the code the call is made, though the hook no longer holds it. *)
Theorem cancelled_call_is_made s pid c r :
  find_proc pid (procs s) = Some (Code c) -> success r = true ->
  exists s', run s [Cancel; Answer pid (Body r)] = Some s'
  /\ (pid, Called true c) ∈ log s' /\ apiCall (hook s') = None /\ is_open (hook s') = false.
Proof.
  intros Hf Hr. cbn [run step]. cbn [with_hook procs mbind option_bind hook]. rewrite Hf. cbn [mbind option_bind resume].
  rewrite Hr. cbn [mbind option_bind]. eexists. split; [done|]. split; [|done].
  cbn. apply elem_of_app. right. apply list_elem_of_further, list_elem_of_here.
Qed.

(** A dialog opened for another call while one is running is closed when that one succeeds,
    and its call is forgotten. *)
Theorem success_drops_next_call s pid m c :
  autoReset = true -> find_proc pid (procs s) = Some (Protected m c) ->
  exists s', step s (Answer pid CallEnds) = Some s'
  /\ apiCall (hook s') = None /\ is_open (hook s') = false /\ loading (hook s') = false.
Proof.
  intros Ha Hf. cbn [step]. rewrite Hf. eexists. split; [done|]. cbn. by rewrite Ha.
Qed.

(** ** The method offered *)

(** Without a preference the method offered is one the user has; and there is one unless the
    only method is a passkey this browser does not support, when the dialog opens on nothing. *)
Theorem default_method_usable c cfg m h :
  preferredMethod cfg = None ->
  let '(h', effs, st) := start_with c cfg m (setMethods m h) in
  st = None
  /\ (effs = [] -> is_open h' = true /\ apiCall h' = Some c
      /\ (forall md, method h' = Some md -> canUseMethod m md = true)
      /\ (method h' = None -> availableTabs (methods h') = [] /\ can_verify h' = false))
  /\ (effs <> [] -> h' = setMethods m h /\ has2FA m = false /\ hasPasskey m = false).
Proof.
  intros Hp. unfold start_with. destruct (negb (has2FA m) && negb (hasPasskey m)) eqn:En; bool_hyps.
  - by repeat split.
  - rewrite Hp. split; [done|]. split; [|done]. intros _. cbn [begin_dialog is_open apiCall method methods setMethods].
    split; [done|]. split; [done|]. unfold recommendedMethod, can_verify, availableTabs, canUseMethod.
    cbn [methods begin_dialog setMethods]. split.
    + intros md Hm. destruct (passkey_usable m) eqn:Ep; [by injection Hm as <-|].
      destruct (has2FA m) eqn:E2; [by injection Hm as <-|done].
    + intros Hm. destruct (passkey_usable m); [done|]. by destruct (has2FA m).
Qed.

(** A preference is not compared with the methods there are.  For a user with a code and no
    passkey, as the channel page asks for a passkey, the dialog opens on a passkey although its
    only tab is the code, and its button starts a passkey ceremony. *)
Theorem preference_unchecked c cfg m h :
  preferredMethod cfg = Some passkey -> has2FA m = true -> hasPasskey m = false ->
  loading h = false -> has_credentials = true ->
  let '(h', effs, st) := start_with c cfg m (setMethods m h) in
  effs = [] /\ st = None /\ availableTabs (methods h') = [two_fa] /\ can_verify h' = true
  /\ handleVerify h' = Some (Execute (Some passkey) None)
  /\ executeVerification (Some passkey) None h'
     = (setLoading true h', [Submit passkey c; PostBegin], Some (Begin c)).
Proof.
  intros Hp H2 Hk Hl Hc. unfold start_with. rewrite H2, Hp. cbn [negb andb].
  unfold availableTabs, can_verify, verifyDisabled, handleVerify, activeMethod, passkey_usable.
  cbn [methods begin_dialog setMethods loading method]. unfold availableTabs, passkey_usable. rewrite H2, Hk, Hl.
  repeat split. unfold executeVerification, verify. cbn [apiCall begin_dialog]. by rewrite Hc.
Qed.

End Hook.

(** ** Witnesses *)

Definition ok_body : jsval := VObj (obj_of [(js "success", VBool true)]).

Definition sample_events : list (event (call:=nat)) :=
  [ With 7%nat {| preferredMethod := None; c_title := None; c_description := None |};
    Answer 0 (Rejected (Err None (js "Forbidden")
      (VObj (obj_of [(js "status", VNum (num_of_Z 403));
                     (js "data", VObj (obj_of [(js "code", VStr (js "VERIFICATION_REQUIRED"))]))]))));
    Answer 0 (GotMethods {| has2FA := true; hasPasskey := false; passkeySupported := false |});
    SetCode (js "123456"); Execute (Some two_fa) (Some (js "123456")); Answer 1 (Body ok_body) ].

Definition sample_run : option (Sys (call:=nat)) :=
  run true [] true (fun _ => []) initial sample_events.

Lemma run_reachable {call} ar sm hc pm (s s' : Sys (call:=call)) evs :
  reachable ar sm hc pm s -> run ar sm hc pm s evs = Some s' -> reachable ar sm hc pm s'.
Proof.
  revert s; induction evs as [|ev evs IH]; intros s Hr E; [by injection E as <-|].
  cbn in E. destruct (step ar sm hc pm s ev) as [s1|] eqn:E1; [|done]. by eapply IH; [eapply reach_step|].
Qed.

Lemma protected_call_verified_witness :
  exists s m v rest, sample_run = Some s
  /\ verified 7%nat m v /\ all_harmless rest
  /\ trace 1 (log s) = v ++ Called true 7%nat :: rest.
Proof.
  destruct sample_run as [s|] eqn:E; [|by vm_compute in E].
  assert (Hr : reachable true [] true (fun _ => []) s).
  { eapply run_reachable; [apply reach_initial|exact E]. }
  destruct (protected_call_verified true [] true (fun _ => []) s 1 7%nat Hr) as (m & v & rest & H).
  - assert (H : (fun s => bool_decide ((1%nat, true) ∈ (fun p => (fst p,
        match snd p with Called true 7%nat => true | _ => false end)) <$> log s)) <$> sample_run = Some true)
      by by vm_compute.
    rewrite E in H. cbn in H. injection H as H. apply bool_decide_eq_true in H.
    apply list_elem_of_fmap in H as ([q e] & Eq & Hin). cbn in Eq.
    destruct e as [| | | | | | | |[] [|[|[|[|[|[|[|[|n]]]]]]]]| | | | | |]; try done. by injection Eq as <-.
  - by exists s, m, v, rest.
Defined.

Lemma loading_is_exact_witness :
  exists s, dialog_reachable (call:=nat) true [] true (fun _ => []) s
  /\ loading (hook s) = true /\ exact s.
Proof.
  set (cfg := {| preferredMethod := None; c_title := None; c_description := None |}).
  set (m := {| has2FA := true; hasPasskey := false; passkeySupported := false |}).
  destruct (run (call:=nat) true [] true (fun _ => []) initial [Start 7%nat cfg; Answer 0 (GotMethods m)])
    as [s|] eqn:E; [|by vm_compute in E].
  destruct (step true [] true (fun _ => []) s (Execute (Some two_fa) (Some (js "123456")))) as [s'|] eqn:E'; [|done].
  assert (Hl : loading (hook s) = false) by (vm_compute in E; by injection E as <-).
  assert (Hr : dialog_reachable (call:=nat) true [] true (fun _ => []) s').
  { apply (dialog_step true [] true (fun _ => []) s (Execute (Some two_fa) (Some (js "123456"))) s'); [|exact Hl|exact E'].
    eapply (dialog_step true [] true (fun _ => []) _ (Answer 0 (GotMethods m)) s); [|done|].
    - apply (dialog_step true [] true (fun _ => []) initial (Start 7%nat cfg) _
               (dialog_initial _ _ _ _) I eq_refl).
    - exact E. }
  exists s'. split; [done|]. split; [|exact (loading_is_exact true [] true (fun _ => []) s' Hr)].
  vm_compute in E. injection E as <-. vm_compute in E'. by injection E' as <-.
Defined.
