(* ===== verification/ChannelRows.v ===== *)
(** * Rows of the channel table ([features/channels/lib/channel-utils.ts])

    What the table of channels shows: channels gathered under their tags, keys hidden or
    counted, and the channels that need attention. *)

From S2P Require Import Prelude JsString JsNumber JsValue JsJson JsSort Currency.

#[local] Open Scope N_scope.

(** ** Channels *)

Record ChannelInfo := {
  is_multi_key : bool; multi_key_size : num; multi_key_status_list : option obj }.

(** The fields the code reads, and the rest of the object.  A priority or a weight may be a
    number, null or undefined. *)
Record Channel := {
  tag : option jsstr; used_quota : num; response_time : num; priority : jsval; weight : jsval;
  c_group : jsstr; status : num; balance : num; channel_info : option ChannelInfo; rest : obj }.

Definition one : num := num_of_Z 1.

Definition isChannelEnabled (ch : Channel) : bool := neqb (status ch) one.

Definition isMultiKeyChannel (ch : Channel) : bool :=
  match channel_info ch with Some i => is_multi_key i | None => false end.

(** [===] on numbers, texts, null and undefined. *)
Definition strict_eq (a b : jsval) : bool :=
  match a, b with
  | VNum x, VNum y => neqb x y
  | VStr s, VStr t => bool_decide (s = t)
  | VNull, VNull | VUndef, VUndef => true
  | _, _ => false
  end.

(** ** Gathering under tags *)

(** A row of a tag: the channel it was made from, whose other fields it keeps, and the fields
    it has of its own; its key, id and name are the tag, its balance and times 0, its models
    and type empty. *)
Record TagRow := {
  made_from : Channel; row_tag : jsstr; row_used : num; row_time : num; row_priority : jsval;
  row_weight : jsval; row_group : jsstr; row_status : option num; children : list Channel }.

Definition tag_of (ch : Channel) : jsstr := default [] (tag ch).

Definition unset : jsval := VNum (num_of_Z (-1)).

Definition new_row (ch : Channel) : TagRow :=
  {| made_from := ch; row_tag := tag_of ch; row_used := zero; row_time := zero; row_priority := unset;
     row_weight := unset; row_group := []; row_status := None; children := [] |}.

(** The priority and the weight: the common value, or null. *)
Definition merge_value (current v : jsval) : jsval :=
  if strict_eq current unset then v else if negb (strict_eq current v) then VNull else current.

(** [s.split(',').filter(Boolean)] *)
Definition names (s : jsstr) : list jsstr := filter_truthy (split_char 44 s).

Definition merge_group (current g : jsstr) : jsstr :=
  if bool_decide (current = []) then g
  else
    let existingGroups := names current in
    fold_left (fun acc n => if bool_decide (n ∈ existingGroups) then acc else acc ++ [44] ++ n)
      (names g) current.

Definition merge_status (current : option num) (ch : Channel) : option num :=
  if isChannelEnabled ch then Some one
  else match current with None => Some (status ch) | Some _ => current end.

(** The body of the loop, on the row of the channel's tag. *)
Definition absorb (r : TagRow) (ch : Channel) : TagRow :=
  let kids := children r ++ [ch] in
  let childCount := num_of_Z (Z.of_nat (length kids)) in
  {| made_from := made_from r; row_tag := row_tag r;
     row_used := nadd (row_used r) (used_quota ch);
     row_time := ndiv (nadd (nmul (row_time r) (nsub childCount one)) (response_time ch)) childCount;
     row_priority := merge_value (row_priority r) (priority ch);
     row_weight := merge_value (row_weight r) (weight ch);
     row_group := merge_group (row_group r) (c_group ch);
     row_status := merge_status (row_status r) ch;
     children := kids |}.

(** The map from tags to rows and the list of rows hold the same objects. *)
Definition gather (rows : list TagRow) (ch : Channel) : list TagRow :=
  let t := tag_of ch in
  let has r := bool_decide (row_tag r = t) in
  if existsb has rows then (fun r => if has r then absorb r ch else r) <$> rows
  else rows ++ [absorb (new_row ch) ch].

Definition aggregateChannelsByTag (channels : list Channel) : list TagRow :=
  fold_left gather channels [].

(** ** Keys *)

Definition nonblank (s : jsstr) : bool := truthy_str (trim s).

Definition countKeys (key : jsstr) : nat :=
  if negb (truthy_str key) then 0%nat else length (filterb nonblank (split_char 10 key)).

(** [s.slice(-n)] *)
Definition slice_end (n : nat) (s : jsstr) : jsstr := drop (length s - n) s.

Definition dots : jsstr := js "...".

Definition formatChannelKey (key : jsstr) (isMultiKey : bool) : jsstr :=
  if negb (truthy_str key) then []
  else if isMultiKey
       then digits_of (N.of_nat (length (filterb nonblank (split_char 10 key)))) ++ js " keys"
  else if (length key <=? 16)%nat then take 4 key ++ dots ++ slice_end 4 key
  else take 8 key ++ dots ++ slice_end 8 key.

Definition formatKeyPreview (key : jsstr) (maxLength : nat) : jsstr :=
  if negb (truthy_str key) then []
  else if (length key <=? maxLength)%nat then key else take maxLength key ++ dots.

Record Deduplicated := {
  deduplicatedText : jsstr; beforeCount : nat; afterCount : nat; removedCount : nat }.

(** The set and the list of the loop hold the same lines, in the same order. *)
Definition deduplicateKeys (keysText : jsstr) : Deduplicated :=
  if negb (truthy_str keysText) || negb (nonblank keysText)
  then {| deduplicatedText := []; beforeCount := 0; afterCount := 0; removedCount := 0 |}
  else
    let keyLines := split_char 10 keysText in
    let deduplicatedKeys := uniq (filter_truthy (trim <$> keyLines)) in
    {| deduplicatedText := join [10] deduplicatedKeys;
       beforeCount := length keyLines; afterCount := length deduplicatedKeys;
       removedCount := length keyLines - length deduplicatedKeys |}.

(** The button of the channel form: the new text and the message. *)
Inductive dedupe_message := NoKeys | NoDuplicates | Removed (removed before after : nat).

Definition handleDeduplicateKeys (currentKey : jsstr) : jsstr * dedupe_message :=
  if negb (truthy_str currentKey) || negb (nonblank currentKey) then (currentKey, NoKeys)
  else
    let result := deduplicateKeys currentKey in
    if (removedCount result =? 0)%nat then (currentKey, NoDuplicates)
    else (deduplicatedText result,
          Removed (removedCount result) (beforeCount result) (afterCount result)).

(** ** Lists in a text *)

Definition parseModelsList (models : jsstr) : list jsstr :=
  if negb (truthy_str models) then []
  else filterb (fun m => (0 <? length m)%nat) (trim <$> split_char 44 models).

Section Locale.
(** Whether [a.localeCompare(b) > 0] *)
Variable locale_after : jsstr -> jsstr -> bool.

(** [default] first, then by the locale. *)
Definition group_after (a b : jsstr) : bool :=
  if bool_decide (a = js "default") then false
  else if bool_decide (b = js "default") then true
  else locale_after a b.

Definition parseGroupsList (groups : jsstr) : list jsstr :=
  if negb (truthy_str groups) then []
  else js_sort group_after (filterb (fun g => (0 <? length g)%nat) (trim <$> split_char 44 groups)).

Definition validateGroups (groups : jsstr) : bool := (0 <? length (parseGroupsList groups))%nat.
End Locale.

Definition validateModels (models : jsstr) : bool := (0 <? length (parseModelsList models))%nat.

Definition formatModelsString (models : list jsstr) : jsstr := join [44] models.

(** ** Settings kept as text *)

(** [parseChannelSettings]: what is cast to settings is any JSON value. *)
Definition parseChannelSettings (settingStr : option jsstr) : jsval :=
  match settingStr with
  | None | Some [] => VObj []
  | Some s => default (VObj []) (json_parse s)
  end.

Definition parseChannelOtherSettings (settingsStr : option jsstr) : jsval :=
  match settingsStr with
  | None | Some [] => VObj []
  | Some s => if bool_decide (s = js "{}") then VObj [] else default (VObj []) (json_parse s)
  end.

Definition validateChannelSettings (settings : jsstr) : bool :=
  if negb (truthy_str settings) || bool_decide (trim settings = []) then true
  else match json_parse settings with Some _ => true | None => false end.

(** ** Balances and times *)

(** The options of a balance and of a quota. *)
Definition balance_options (abbreviate : bool) : CurrencyFormatOptions :=
  {| o_digitsLarge := Some 2%nat; o_digitsSmall := Some 4%nat; o_abbreviate := Some abbreviate;
     o_minimumNonZero := None |}.


Section Amounts.
Context (intl : option jsstr -> nat -> num -> jsstr) (stored : option StoredCurrency).

Definition formatBalance (b : option num) : jsstr :=
  match b with
  | None => js "-"
  | Some x => if is_nan x then js "-"
              else formatCurrencyFromUSD intl stored b (Some (balance_options false))
  end.

Definition formatQuota (quota : num) : jsstr :=
  formatQuotaWithCurrency intl stored (Some quota) (Some (balance_options true)).
End Amounts.

Inductive BalanceVariant := neutral | danger | warning | success.

Definition getBalanceVariant (b : num) : BalanceVariant :=
  if neqb b zero then neutral
  else if nltb b one then danger
  else if nltb b (num_of_Z 10) then warning else success.

Definition formatResponseTime (timeMs : num) : jsstr :=
  if neqb timeMs zero then js "Not tested"
  else if nltb timeMs (num_of_Z 1000) then num_to_string timeMs ++ js "ms"
  else to_fixed 2 (ndiv timeMs (num_of_Z 1000)) ++ js "s".

Inductive Rating := UNKNOWN | EXCELLENT | GOOD | FAIR | POOR.

Definition getResponseTimeConfig (timeMs : num) : Rating :=
  if neqb timeMs zero then UNKNOWN
  else if nleb timeMs (num_of_Z 500) then EXCELLENT
  else if nleb timeMs (num_of_Z 1000) then GOOD
  else if nleb timeMs (num_of_Z 2000) then FAIR
  else POOR.

Definition getPriorityDisplay (priority : jsval) : jsstr :=
  if nullish priority then js "0" else to_string priority.

(** ** Channels that need attention *)

Definition low_balance (ch : Channel) : bool := nltb zero (balance ch) && nltb (balance ch) one.

(** Every key of the channel has an entry among the statuses. *)
Definition all_keys_listed (ch : Channel) : bool :=
  match channel_info ch with
  | Some i =>
      is_multi_key i
      && match multi_key_status_list i with
         | Some l => nleb (multi_key_size i) (num_of_Z (Z.of_nat (length (okeys l))))
         | None => false
         end
  | None => false
  end.

Definition channelNeedsAttention (ch : Channel) : bool :=
  if neqb (status ch) (num_of_Z 3) then true
  else if low_balance ch then true
  else if all_keys_listed ch then true else false.

Definition getAttentionReason (ch : Channel) : option jsstr :=
  if neqb (status ch) (num_of_Z 3) then Some (js "Auto-disabled")
  else if low_balance ch then Some (js "Low balance")
  else if all_keys_listed ch then Some (js "All keys disabled")
  else None.

(** ** Theorems: rows *)

Definition own (t : jsstr) (l : list Channel) : list Channel :=
  filterb (fun ch => bool_decide (tag_of ch = t)) l.

(** The row of one tag, from its channels. *)
Definition row_of (l : list Channel) : option TagRow :=
  match l with [] => None | ch :: _ => Some (fold_left absorb l (new_row ch)) end.

Lemma absorb_tag l r : row_tag (fold_left absorb l r) = row_tag r.
Proof. revert r; induction l as [|ch l IH]; intros r; [done|]. cbn. by rewrite IH. Qed.

Lemma row_of_tag t l r : row_of (own t l) = Some r -> row_tag r = t.
Proof.
  unfold row_of. destruct (own t l) as [|ch k] eqn:E; [done|]. intros [= <-].
  change (fold_left absorb k (absorb (new_row ch) ch)) with (fold_left absorb (ch :: k) (new_row ch)).
  rewrite absorb_tag. assert (H : ch ∈ own t l) by (rewrite E; apply list_elem_of_here).
  apply elem_of_filterb in H as [H _]. by apply bool_decide_eq_true in H.
Qed.

Lemma own_snoc t l ch : own t (l ++ [ch]) = own t l ++ (if bool_decide (tag_of ch = t) then [ch] else []).
Proof. unfold own. rewrite filterb_app. cbn. by case_bool_decide. Qed.

Lemma own_nil t l : t ∉ tag_of <$> l -> own t l = [].
Proof.
  intros H. unfold own. destruct (filterb _ l) as [|ch k] eqn:E; [done|]. destruct H.
  assert (Hin : ch ∈ own t l) by (unfold own; rewrite E; apply list_elem_of_here).
  apply elem_of_filterb in Hin as [Ht Hin]. apply bool_decide_eq_true in Ht as <-.
  by apply list_elem_of_fmap_2.
Qed.

Lemma row_of_snoc l ch :
  l <> [] -> row_of (l ++ [ch]) = (fun r => absorb r ch) <$> row_of l.
Proof. destruct l as [|c l]; [done|]. intros _. cbn. by rewrite fold_left_app. Qed.

Lemma uniq_snoc {A} `{EqDecision A} (l : list A) x :
  uniq (l ++ [x]) = uniq l ++ (if bool_decide (x ∈ l) then [] else [x]).
Proof.
  unfold uniq. rewrite uniq_acc_app, app_nil_r. f_equal. cbn.
  assert (Hiff : x ∈ reverse (uniq_acc [] l) <-> x ∈ l).
  { rewrite elem_of_reverse. apply (uniq_elem l). }
  by rewrite (bool_decide_ext _ _ Hiff).
Qed.

Lemma omap_ext_in {A B} (f g : A -> option B) (l : list A) : (forall x, x ∈ l -> f x = g x) -> omap f l = omap g l.
Proof.
  induction l as [|x l IH]; intros H; [done|]. cbn. rewrite (H x) by apply list_elem_of_here.
  rewrite IH; [done|]. intros y Hy. apply H. by apply list_elem_of_further.
Qed.

(** The tags, in the order of their first channels. *)
Definition tags (l : list Channel) : list jsstr := uniq (tag_of <$> l).

Definition grouped (l : list Channel) : list TagRow := omap (fun t => row_of (own t l)) (tags l).

Lemma grouped_tags l : row_tag <$> grouped l = tags l.
Proof.
  unfold grouped. assert (H : forall t, t ∈ tags l -> exists r, row_of (own t l) = Some r).
  { intros t Ht. apply uniq_elem, list_elem_of_fmap in Ht as (ch & -> & Hin).
    unfold row_of. destruct (own (tag_of ch) l) as [|c k] eqn:E; [|by eexists].
    assert (Hc : ch ∈ own (tag_of ch) l) by by apply elem_of_filterb; rewrite bool_decide_eq_true_2.
    rewrite E in Hc. by apply elem_of_nil in Hc. }
  induction (tags l) as [|t ts IH]; [done|]. cbn. destruct (H t (list_elem_of_here _ _)) as [r Hr].
  rewrite Hr. cbn. rewrite (row_of_tag _ _ _ Hr). f_equal. apply IH. intros u Hu. apply H.
  by apply list_elem_of_further.
Qed.

Lemma grouped_snoc l ch : grouped (l ++ [ch]) = gather (grouped l) ch.
Proof.
  unfold gather. set (t := tag_of ch).
  assert (Hex : existsb (fun r => bool_decide (row_tag r = t)) (grouped l) = bool_decide (t ∈ tag_of <$> l)).
  { apply eq_true_iff_eq. rewrite existsb_elem, bool_decide_eq_true. rewrite <- (uniq_elem (tag_of <$> l) t).
    change (uniq (tag_of <$> l)) with (tags l). rewrite <- grouped_tags, list_elem_of_fmap.
    split; intros (r & H1 & H2); exists r; split; try done.
    - symmetry. by apply bool_decide_eq_true in H2.
    - by apply bool_decide_eq_true. }
  rewrite Hex. unfold grouped at 1, tags. rewrite fmap_app. cbn [fmap list_fmap]. rewrite uniq_snoc.
  fold t. case_bool_decide as Hin.
  - rewrite app_nil_r. unfold grouped. change (uniq (tag_of <$> l)) with (tags l).
    assert (Hsub : forall u, u ∈ tags l -> u ∈ tag_of <$> l) by (intros u; apply uniq_elem).
    induction (tags l) as [|u ts IH]; [done|]. cbn [omap list_omap].
    assert (Hu : row_of (own u (l ++ [ch]))
                 = (fun r => if bool_decide (row_tag r = t) then absorb r ch else r) <$> row_of (own u l)).
    { rewrite own_snoc. fold t. case_bool_decide as E.
      - subst u. rewrite row_of_snoc.
        + destruct (row_of (own t l)) as [r|] eqn:Er; [|done]. cbn.
          by rewrite (bool_decide_eq_true_2 _ (row_of_tag _ _ _ Er)).
        + intros E. apply list_elem_of_fmap in Hin as (c & Ec & Hc).
          assert (H : c ∈ own t l) by (apply elem_of_filterb; by rewrite bool_decide_eq_true_2).
          rewrite E in H. by apply elem_of_nil in H.
      - rewrite app_nil_r. destruct (row_of (own u l)) as [r|] eqn:Er; [|done]. cbn.
        rewrite bool_decide_eq_false_2; [done|]. rewrite (row_of_tag _ _ _ Er). congruence. }
    rewrite Hu, IH by (intros v Hv; apply Hsub; by apply list_elem_of_further).
    by destruct (row_of (own u l)).
  - rewrite omap_app. f_equal.
    + apply omap_ext_in. intros u Hu. apply (uniq_elem (tag_of <$> l)) in Hu. rewrite own_snoc. fold t.
      case_bool_decide as E; [|by rewrite app_nil_r]. destruct Hin. by rewrite E.
    + cbn [omap list_omap]. rewrite own_snoc, own_nil by done. fold t.
      by rewrite bool_decide_eq_true_2.
Qed.

(** C34. Gathering channels under their tags is grouping: there is one row per tag, in the order
    in which the tags first occur, and it is made of exactly the channels of its tag, one after
    the other in their order; so every channel is the child of one row, and no row depends on
    the channels of another tag or on how the two are interleaved. *)
Theorem aggregate_is_grouping l :
  aggregateChannelsByTag l = grouped l /\ row_tag <$> aggregateChannelsByTag l = tags l.
Proof.
  assert (H : aggregateChannelsByTag l = grouped l).
  { unfold aggregateChannelsByTag. induction l as [|ch l IH] using rev_ind; [done|].
    rewrite fold_left_app. cbn [fold_left]. by rewrite IH, grouped_snoc. }
  split; [exact H|]. by rewrite H, grouped_tags.
Qed.

(** *** The fields of a row *)

Definition common (vs : list jsval) : jsval :=
  match vs with
  | [] => unset
  | v :: rest => if forallb (strict_eq v) rest then v else VNull
  end.

Lemma merge_null vs : fold_left merge_value vs VNull = VNull.
Proof. induction vs as [|v vs IH]; [done|]. cbn. by destruct v. Qed.

Lemma merge_set v vs :
  strict_eq v unset = false ->
  fold_left merge_value vs v = if forallb (strict_eq v) vs then v else VNull.
Proof.
  intros Hv. induction vs as [|w vs IH]; [done|]. cbn [fold_left forallb]. unfold merge_value at 2.
  rewrite Hv. destruct (strict_eq v w); cbn [negb andb]; [exact IH|apply merge_null].
Qed.

Lemma merge_common vs :
  match vs with v :: _ => strict_eq v unset = false | [] => True end ->
  fold_left merge_value vs unset = common vs.
Proof.
  destruct vs as [|v vs]; [done|]. intros Hv. cbn [fold_left common].
  replace (merge_value unset v) with v by done. by apply merge_set.
Qed.

Lemma names_cons s n : n ∈ names s -> 44 ∉ n /\ n <> [].
Proof.
  unfold names, filter_truthy. intros [Hn Hin]%elem_of_filterb. split; [by eapply split_char_elem|].
  by apply truthy_str_spec.
Qed.

Lemma names_snoc s n : 44 ∉ n -> n <> [] -> names (s ++ [44] ++ n) = names s ++ [n].
Proof.
  intros Hc Hn. unfold names, filter_truthy. cbn [app]. rewrite split_char_app, filterb_app. f_equal.
  rewrite split_char_no_sep by done. cbn. by rewrite (proj2 (truthy_str_spec n)).
Qed.

(** A list of groups takes in the names it does not hold; it does not compare those with each
    other. *)
Lemma merge_group_names current g :
  names (merge_group current g) = names current ++ filterb (fun n => bool_decide (n ∉ names current)) (names g).
Proof.
  unfold merge_group. case_bool_decide as E.
  { subst. cbn [names split_char]. symmetry. apply filterb_all. intros n _. apply bool_decide_eq_true.
    apply not_elem_of_nil. }
  assert (H : forall l acc, Forall (fun n => 44 ∉ n /\ n <> []) l ->
    names (fold_left (fun acc n => if bool_decide (n ∈ names current) then acc else acc ++ [44] ++ n) l acc)
    = names acc ++ filterb (fun n => bool_decide (n ∉ names current)) l).
  { induction l as [|n l IH]; intros acc Hl; [by rewrite app_nil_r|]. apply Forall_cons in Hl as [[Hc Hn] Hl].
    cbn [fold_left filterb]. case_bool_decide as Ein.
    - rewrite bool_decide_eq_false_2 by (intros H; by apply H). by apply IH.
    - rewrite bool_decide_eq_true_2 by done. rewrite IH, names_snoc by done. by rewrite <- app_assoc. }
  apply H, Forall_forall. intros n. apply names_cons.
Qed.

Lemma merge_groups_elem gs acc n :
  n ∈ names (fold_left merge_group gs acc) <-> n ∈ names acc \/ exists g, g ∈ gs /\ n ∈ names g.
Proof.
  revert acc; induction gs as [|g gs IH]; intros acc.
  { split; [by left|]. intros [H|(g & H & _)]; [done|by apply elem_of_nil in H]. }
  cbn [fold_left]. rewrite IH, merge_group_names, elem_of_app, elem_of_filterb, bool_decide_eq_true.
  setoid_rewrite elem_of_cons. destruct (decide (n ∈ names acc)); naive_solver.
Qed.

Lemma merge_statuses l acc :
  fold_left merge_status l acc
  = if existsb isChannelEnabled l then Some one
    else match acc with Some s => Some s | None => status <$> head l end.
Proof.
  revert acc; induction l as [|ch l IH]; intros acc; [by destruct acc|]. cbn [fold_left existsb head].
  rewrite IH. unfold merge_status. destruct (isChannelEnabled ch); cbn [orb]; [by case_match|].
  destruct (existsb _ l); [done|]. by destruct acc.
Qed.

(** The fold of the whole row, field by field. *)
Lemma absorb_all l r :
  children (fold_left absorb l r) = children r ++ l
  /\ row_status (fold_left absorb l r) = fold_left merge_status l (row_status r)
  /\ row_priority (fold_left absorb l r) = fold_left merge_value (priority <$> l) (row_priority r)
  /\ row_weight (fold_left absorb l r) = fold_left merge_value (weight <$> l) (row_weight r)
  /\ row_group (fold_left absorb l r) = fold_left merge_group (c_group <$> l) (row_group r)
  /\ row_used (fold_left absorb l r) = fold_left nadd (used_quota <$> l) (row_used r).
Proof.
  revert r; induction l as [|ch l IH]; intros r; [by rewrite app_nil_r|]. cbn [fold_left fmap list_fmap].
  destruct (IH (absorb r ch)) as (H1 & H2 & H3 & H4 & H5 & H6).
  split; [|by repeat split]. rewrite H1. cbn. by rewrite <- app_assoc.
Qed.

(** The row of a tag says of its channels what holds of them.  Its children are all of them;
    it counts as enabled exactly when one is, and otherwise has the status of the first; its
    quota is the sum; its groups are those of all of them; and its priority and weight are the
    common value, or null where they differ, unless those of the first channel are -1, the mark
    for a field not set. *)
Theorem row_describes_channels l r :
  row_of l = Some r ->
  children r = l
  /\ row_status r = (if existsb isChannelEnabled l then Some one else status <$> head l)
  /\ row_used r = fold_left nadd (used_quota <$> l) zero
  /\ (forall n, n ∈ names (row_group r) <-> exists ch, ch ∈ l /\ n ∈ names (c_group ch))
  /\ (match l with ch :: _ => strict_eq (priority ch) unset = false | [] => True end ->
      row_priority r = common (priority <$> l))
  /\ (match l with ch :: _ => strict_eq (weight ch) unset = false | [] => True end ->
      row_weight r = common (weight <$> l)).
Proof.
  unfold row_of. destruct l as [|c k]; [done|]. set (l := c :: k). intros [= <-].
  change (fold_left absorb k (absorb (new_row c) c)) with (fold_left absorb l (new_row c)).
  destruct (absorb_all l (new_row c)) as (H1 & H2 & H3 & H4 & H5 & H6).
  rewrite H1, H2, H3, H4, H5, H6. cbn [new_row children row_status row_priority row_weight row_group row_used].
  split; [done|]. split; [by rewrite merge_statuses|]. split; [done|]. split; [|split].
  - intros n. rewrite merge_groups_elem. split.
    + intros [H|(g & Hg & Hn)]; [by apply elem_of_nil in H|].
      apply list_elem_of_fmap in Hg as (ch & -> & Hch). by exists ch.
    + intros (ch & Hch & Hn). right. exists (c_group ch). split; [by apply list_elem_of_fmap_2|done].
  - intros Hv. by apply merge_common.
  - intros Hv. by apply merge_common.
Qed.

Definition with_priority (p : Z) (g : String.string) : Channel :=
  {| tag := Some (js "t"); used_quota := one; response_time := one; priority := VNum (num_of_Z p);
     weight := VUndef; c_group := js g; status := num_of_Z 2; balance := zero; channel_info := None;
     rest := [] |}.
Arguments with_priority p g%_string_scope.

Lemma row_describes_channels_witness :
  exists r, row_of [with_priority 5%Z "a,b"; with_priority 5%Z "b,c"] = Some r
  /\ children r = [with_priority 5%Z "a,b"; with_priority 5%Z "b,c"]
  /\ row_priority r = VNum (num_of_Z 5) /\ js "c" ∈ names (row_group r).
Proof.
  destruct (row_of _) as [r|] eqn:E; [|done]. exists r. split; [done|].
  destruct (row_describes_channels _ r E) as (H1 & _ & _ & H4 & H5 & _). split; [exact H1|]. split.
  - by rewrite H5.
  - apply H4. exists (with_priority 5%Z "b,c"). split; [by apply list_elem_of_further, list_elem_of_here|].
    by apply (bool_decide_unpack (_ ∈ _)).
Defined.

(** With a priority of -1 the row depends on the order of its channels. *)
Theorem minus_one_depends_on_order :
  let a := with_priority (-1)%Z "a" in
  let b := with_priority 5%Z "a" in
  row_priority <$> aggregateChannelsByTag [a; b] = [VNum (num_of_Z 5)]
  /\ row_priority <$> aggregateChannelsByTag [b; a] = [VNull].
Proof. by split. Qed.

(** A name that a channel lists twice is listed twice by the row, when it is new to it. *)
Theorem groups_repeat :
  row_group <$> aggregateChannelsByTag [with_priority 1%Z "a"; with_priority 1%Z "b,b"] = [js "a,b,b"].
Proof. done. Qed.

(** ** Theorems: keys *)

Lemma nonblank_spec s : nonblank s = true <-> exists c, c ∈ s /\ is_ws c = false.
Proof.
  unfold nonblank. rewrite truthy_str_spec. split.
  - intros H. destruct (trim s) as [|c t] eqn:E; [done|]. exists c. split.
    + apply trim_elem. rewrite E. apply list_elem_of_here.
    + destruct (trim_trimmed s) as [Hh _]. by apply (Hh c t).
  - intros (c & Hc & Hw) E. apply trim_nil in E. rewrite Forall_forall in E. by rewrite E in Hw.
Qed.

Lemma join_covers sep l (w : jsstr) c : w ∈ l -> c ∈ w -> c ∈ join sep l.
Proof.
  intros Hw Hc. induction l as [|u l IH]; [by apply elem_of_nil in Hw|].
  destruct l as [|v l]; [by apply list_elem_of_singleton in Hw as ->|].
  change (join sep (u :: v :: l)) with (u ++ sep ++ join sep (v :: l)). rewrite !elem_of_app.
  apply elem_of_cons in Hw as [->|Hw]; [by left|]. right; right. by apply IH.
Qed.

(** The keys of a text: the lines that are not blank, trimmed, each once. *)
Definition keys_of (text : jsstr) : list jsstr := uniq (filter_truthy (trim <$> split_char 10 text)).

Lemma keys_line text k : k ∈ keys_of text -> k <> [] /\ trim k = k /\ 10 ∉ k.
Proof.
  unfold keys_of. rewrite uniq_elem. unfold filter_truthy. intros [Hk Hin]%elem_of_filterb.
  apply list_elem_of_fmap in Hin as (w & -> & Hw). split; [by apply truthy_str_spec|].
  split; [apply trim_idemp|]. intros H%trim_elem. by apply split_char_elem in Hw.
Qed.

Lemma keys_exist text : nonblank text = true -> keys_of text <> [].
Proof.
  rewrite nonblank_spec. intros (c & Hc & Hw).
  destruct (split_char_covers 10 text c Hc) as (w & Hin & Hcw); [by intros ->|].
  assert (Hn : truthy_str (trim w) = true) by (apply nonblank_spec; by exists c).
  intros E. assert (H : trim w ∈ keys_of text).
  { apply uniq_elem, elem_of_filterb. split; [done|]. by apply list_elem_of_fmap_2. }
  rewrite E in H. by apply elem_of_nil in H.
Qed.

Lemma keys_split text : nonblank text = true -> split_char 10 (join [10] (keys_of text)) = keys_of text.
Proof.
  intros H. apply split_join; [by apply keys_exist|]. apply Forall_forall. intros k Hk.
  by destruct (keys_line _ _ Hk) as (_ & _ & ?).
Qed.

Lemma nonblank_truthy s : nonblank s = true -> truthy_str s = true.
Proof. by destruct s. Qed.

Lemma deduplicate_text text :
  nonblank text = true ->
  deduplicateKeys text
  = {| deduplicatedText := join [10] (keys_of text); beforeCount := length (split_char 10 text);
       afterCount := length (keys_of text);
       removedCount := length (split_char 10 text) - length (keys_of text) |}.
Proof. intros H. unfold deduplicateKeys. by rewrite H, (nonblank_truthy _ H). Qed.

Lemma keys_nonblank text : nonblank text = true -> nonblank (join [10] (keys_of text)) = true.
Proof.
  intros H. destruct (keys_of text) as [|k l] eqn:E; [by apply keys_exist in E|].
  assert (Hk : k ∈ keys_of text) by (rewrite E; apply list_elem_of_here).
  destruct (keys_line _ _ Hk) as (Hne & Ht & _). rewrite <- Ht in Hne. apply truthy_str_spec in Hne.
  apply nonblank_spec in Hne as (c & Hc & Hw). apply nonblank_spec. exists c. split; [|done].
  rewrite <- E. by eapply join_covers.
Qed.

(** Removing duplicate keys loses no key and invents none: the lines of the new text are
    the lines of the old one without white space around them, the first of each, in their
    order; the counts add up; and doing it again finds nothing to remove. *)
Theorem deduplicate_keeps_keys text :
  nonblank text = true ->
  let r := deduplicateKeys text in
  split_char 10 (deduplicatedText r) = keys_of text
  /\ (forall k, k ∈ keys_of text <-> k <> [] /\ exists w, w ∈ split_char 10 text /\ trim w = k)
  /\ NoDup (keys_of text) /\ (afterCount r + removedCount r = beforeCount r)%nat
  /\ handleDeduplicateKeys (deduplicatedText r) = (deduplicatedText r, NoDuplicates).
Proof.
  intros H r. unfold r. rewrite deduplicate_text by done. cbn [deduplicatedText afterCount removedCount beforeCount].
  rewrite keys_split by done. split; [done|]. split; [|split; [apply uniq_NoDup|split]].
  - intros k. unfold keys_of. rewrite uniq_elem. unfold filter_truthy. rewrite elem_of_filterb, truthy_str_spec.
    rewrite list_elem_of_fmap. naive_solver.
  - assert (Hle : (length (keys_of text) <= length (split_char 10 text))%nat); [|lia].
    unfold keys_of. etrans; [apply sublist_length, uniq_sublist|].
    etrans; [apply sublist_length, filterb_sublist|]. by rewrite length_fmap.
  - pose proof (keys_nonblank text H) as Hj. unfold handleDeduplicateKeys.
    rewrite (nonblank_truthy _ Hj), Hj, deduplicate_text by done. cbn [negb orb removedCount].
    assert (Hk : keys_of (join [10] (keys_of text)) = keys_of text).
    { unfold keys_of at 1. rewrite keys_split by done. rewrite fmap_trim_id, filter_truthy_id, uniq_id; [done| | |].
      - apply uniq_NoDup.
      - apply Forall_forall. intros k Hk. by destruct (keys_line _ _ Hk).
      - apply Forall_forall. intros k Hk. by destruct (keys_line _ _ Hk) as (_ & ? & _). }
    by rewrite keys_split, Hk, Nat.sub_diag.
Qed.

Lemma deduplicate_keeps_keys_witness :
  let text := js " a" ++ [10] ++ js "b" ++ [10; 10] ++ js "a " in
  split_char 10 (deduplicatedText (deduplicateKeys text)) = [js "a"; js "b"]
  /\ removedCount (deduplicateKeys text) = 2%nat.
Proof.
  intros text. destruct (deduplicate_keeps_keys text eq_refl) as (H & _). split; [exact H|done].
Defined.

(** The blank lines among the keys are counted as duplicates. *)
Theorem blank_lines_count_as_duplicates :
  handleDeduplicateKeys (js "a" ++ [10; 10] ++ js "b") = (js "a" ++ [10] ++ js "b", Removed 1 3 2).
Proof. done. Qed.

(** A key of at most eight units is not hidden: its two ends are the whole of it. *)
Theorem short_key_is_shown key :
  key <> [] -> (length key <= 8)%nat ->
  exists a b c, key = a ++ b ++ c /\ formatChannelKey key false = (a ++ b) ++ dots ++ (b ++ c).
Proof.
  intros Hne Hlen. unfold formatChannelKey. rewrite (proj2 (truthy_str_spec _)) by done. cbn [negb].
  rewrite (proj2 (Nat.leb_le _ _)) by lia. unfold slice_end.
  set (i := (length key - 4)%nat). exists (take i key), (drop i (take 4 key)), (drop 4 key).
  assert (Hi : (i <= 4)%nat) by (unfold i; lia).
  assert (H1 : take i key ++ drop i (take 4 key) = take 4 key).
  { rewrite <- (take_drop i (take 4 key)) at 2. f_equal. rewrite take_take. f_equal. lia. }
  assert (H2 : drop i (take 4 key) ++ drop 4 key = drop i key).
  { rewrite <- (take_drop 4 key) at 3. rewrite drop_app_le; [done|]. rewrite length_take. lia. }
  split; [|by rewrite H1, H2]. by rewrite app_assoc, H1, take_drop.
Qed.

(** A longer key is shown by its two ends only: keys that agree there are shown alike. *)
Theorem long_key_is_hidden a b c b' :
  length a = 8%nat -> length c = 8%nat -> b <> [] -> b' <> [] ->
  formatChannelKey (a ++ b ++ c) false = a ++ dots ++ c
  /\ formatChannelKey (a ++ b' ++ c) false = formatChannelKey (a ++ b ++ c) false.
Proof.
  intros Ha Hc. assert (H : forall b, b <> [] -> formatChannelKey (a ++ b ++ c) false = a ++ dots ++ c).
  { intros d Hd. unfold formatChannelKey.
    assert (Hlen : (17 <= length (a ++ d ++ c))%nat).
    { rewrite !length_app. destruct d; [done|]. cbn. lia. }
    rewrite (proj2 (truthy_str_spec _)) by (intros E; rewrite E in Hlen; cbn in Hlen; lia). cbn [negb].
    rewrite (proj2 (Nat.leb_gt _ _)) by lia. unfold slice_end.
    rewrite take_app_length' by done. do 2 f_equal.
    replace (length (a ++ d ++ c) - 8)%nat with (length (a ++ d)) by (rewrite !length_app; lia).
    by rewrite app_assoc, drop_app_length. }
  intros Hb Hb'. by rewrite !H.
Qed.

(** ** Theorems: lists and attention *)

(** The groups of a channel are listed with [default] first, the others in the order of the
    locale, and none is lost or invented. *)
Theorem groups_default_first locale_after groups g gs :
  parseGroupsList locale_after groups = g :: gs -> js "default" ∈ g :: gs ->
  (forall a b, locale_after a b = true -> locale_after b a = false) ->
  g = js "default" /\ (g :: gs) ≡ₚ filterb (fun g => (0 <? length g)%nat) (trim <$> split_char 44 groups).
Proof.
  unfold parseGroupsList. destruct (truthy_str groups); [|done]. cbn [negb].
  set (l := filterb _ _). intros E Hin Has. split; [|by rewrite <- E, js_sort_perm].
  set (R x y := y = js "default" -> x = js "default").
  assert (Hs : StronglySorted R (js_sort (group_after locale_after) l)).
  { apply (js_sort_sorted (group_after locale_after) (fun _ => True) R).
    - intros x y _ _ H Hx. unfold group_after in H. by rewrite bool_decide_eq_true_2 in H.
    - intros x y _ _ H Hy. unfold group_after in H. destruct (decide (x = js "default")) as [|Hx]; [done|].
      rewrite bool_decide_eq_false_2, bool_decide_eq_true_2 in H by done. done.
    - intros x y z Hxy Hyz Hz. auto.
    - by apply Forall_true. }
  rewrite E in Hs. apply StronglySorted_inv in Hs as [_ Hg]. rewrite Forall_forall in Hg.
  apply elem_of_cons in Hin as [<-|Hin]; [done|]. by apply (Hg (js "default")).
Qed.

(** A channel is marked exactly when there is a reason to show. *)
Theorem attention_has_reason ch :
  channelNeedsAttention ch = true <-> getAttentionReason ch <> None.
Proof. unfold channelNeedsAttention, getAttentionReason. by repeat case_match. Qed.

