(* ===== verification/ApiClient.v ===== *)
(** * The network client ([lib/api.ts], and the requests of [features/channels/api.ts])

    Every request of the console goes through one client.  Reads that are asked for while the
    same read is under way share its answer; an interceptor reports what went wrong.  A
    promise is a number, the index of its request: [Sent] until the interceptor has seen the
    answer, [Settled] until the client has forgotten the request, then [Done].  The network
    library, which sends requests and picks their answers, is the environment: any sequence
    of events is an execution. *)

From S2P Require Import Prelude JsString JsNumber JsValue JsJson JsMap WebStorage.

(** ** Requests *)

(** [ApiRequestConfig]: the client's own three options, and [params]. *)
Record ApiRequestConfig := {
  skipBusinessError : bool; skipErrorHandler : bool; disableDuplicate : bool; params : jsval }.

Definition no_config : ApiRequestConfig :=
  {| skipBusinessError := false; skipErrorHandler := false; disableDuplicate := false; params := VUndef |}.

Definition with_params (p : jsval) (c : ApiRequestConfig) : ApiRequestConfig :=
  {| skipBusinessError := skipBusinessError c; skipErrorHandler := skipErrorHandler c;
     disableDuplicate := disableDuplicate c; params := p |}.

Inductive verb := GET | POST | PUT | DELETE.

#[export] Instance verb_eq_dec : EqDecision verb.
Proof. solve_decision. Defined.

(** [user] is the header the request interceptor adds. *)
Record Request := {
  method : verb; url : jsstr; body : jsval; config : ApiRequestConfig; user : option jsstr }.

(** [getUserId], from the storage, which may be unreadable. *)
Definition getUserId (local : option storage) : option jsstr :=
  match local with Some s => getItem s (js "uid") | None => None end.

(** The header [New-Api-User], absent without a user. *)
Definition user_header (local : option storage) : option jsstr :=
  match getUserId local with Some uid => if truthy_str uid then Some uid else None | None => None end.

Definition getCommonHeaders (local : option storage) : list (jsstr * jsstr) :=
  (js "Content-Type", js "application/json")
  :: match user_header local with Some uid => [(js "New-Api-User", uid)] | None => [] end.

(** ** Answers *)

(** An answer, by its body, or an error with its message and the response it carries. *)
Inductive reply :=
  | Answer (data : jsval)
  | Failure (response : option (num * jsval)) (message : jsstr).

Inductive effect := ToastError (message : jsval) | AuthReset.

(** [response.data], and what [await] throws. *)
Definition data_of (r : reply) : outcome jsval :=
  match r with Answer data => Return data | Failure _ _ => Throw end.

Definition on_response (c : ApiRequestConfig) (data : jsval) : list effect :=
  if negb (skipBusinessError c) && truthy data && is_boolean (prop (js "success") data)
     && negb (truthy (prop (js "success") data))
  then [ToastError (vor (prop (js "message") data) (VStr (js "Request failed")))]
  else [].

Definition status_of (response : option (num * jsval)) : jsval :=
  match response with Some (s, _) => VNum s | None => VUndef end.

Definition is_401 (v : jsval) : bool := match v with VNum s => neqb s (num_of_Z 401) | _ => false end.

Definition on_error (c : ApiRequestConfig) (response : option (num * jsval)) (message : jsstr) : list effect :=
  if is_401 (status_of response)
  then AuthReset :: (if negb (skipErrorHandler c) then [ToastError (VStr (js "Session expired!"))] else [])
  else if negb (skipErrorHandler c)
  then [ToastError (vor (match response with Some (_, d) => prop (js "message") d | None => VUndef end)
                        (vor (VStr message) (VStr (js "Request failed"))))]
  else [].

Definition intercept (c : ApiRequestConfig) (r : reply) : list effect :=
  match r with Answer data => on_response c data | Failure response message => on_error c response message end.

(** ** The client *)

Inductive phase := Sent | Settled (r : reply) | Done (r : reply).

(** [shown] holds what the interceptor did, oldest first. *)
Record Client := {
  requests : list (Request * phase); inFlightGet : list (jsstr * nat); shown : list effect }.

Definition fresh_client : Client := {| requests := []; inFlightGet := []; shown := [] |}.

(** The key of a read: its address and the text of its parameters. *)
Definition params_text (p : jsval) : jsstr :=
  if truthy p then default (js "undefined") (stringify p) else js "{}".

Definition get_key (u : jsstr) (c : ApiRequestConfig) : jsstr := u ++ js "?" ++ params_text (params c).

(** A request given to the network library; its promise. *)
Definition send (r : Request) (st : Client) : nat * Client :=
  (length (requests st),
   {| requests := requests st ++ [(r, Sent)]; inFlightGet := inFlightGet st; shown := shown st |}).

(** [api.get] *)
Definition get (u : jsstr) (c : ApiRequestConfig) (local : option storage) (st : Client) : nat * Client :=
  let r := {| method := GET; url := u; body := VUndef; config := c; user := user_header local |} in
  if disableDuplicate c then send r st
  else
    let key := get_key u c in
    match mget key (inFlightGet st) with
    | Some p => (p, st)
    | None =>
        let '(p, st') := send r st in
        (p, {| requests := requests st'; inFlightGet := mset key p (inFlightGet st'); shown := shown st' |})
    end.

(** [api.post] and the like *)
Definition post (m : verb) (u : jsstr) (b : jsval) (c : ApiRequestConfig) (local : option storage)
    (st : Client) : nat * Client :=
  send {| method := m; url := u; body := b; config := c; user := user_header local |} st.

(** Whether the request is one [api.get] keeps in its map. *)
Definition shared (r : Request) : bool :=
  bool_decide (method r = GET) && negb (disableDuplicate (config r)).

Definition set_phase (p : nat) (ph : phase) (st : Client) : list (Request * phase) :=
  alter (fun rp => (fst rp, ph)) p (requests st).

(** The answer arrives: the interceptors run. *)
Definition settle (p : nat) (a : reply) (st : Client) : option Client :=
  match requests st !! p with
  | Some (r, Sent) =>
      Some {| requests := set_phase p (Settled a) st; inFlightGet := inFlightGet st;
              shown := shown st ++ intercept (config r) a |}
  | _ => None
  end.

(** [inFlightGet.delete(key)] *)
Definition forget (key : jsstr) (m : list (jsstr * nat)) : list (jsstr * nat) :=
  filterb (fun kp => negb (bool_decide (fst kp = key))) m.

(** The [finally] of a read, some time after its answer. *)
Definition cleanup (p : nat) (st : Client) : option Client :=
  match requests st !! p with
  | Some (r, Settled a) =>
      if shared r
      then Some {| requests := set_phase p (Done a) st;
                   inFlightGet := forget (get_key (url r) (config r)) (inFlightGet st); shown := shown st |}
      else None
  | _ => None
  end.

Inductive event :=
  | Get (u : jsstr) (c : ApiRequestConfig) (local : option storage)
  | Post (m : verb) (u : jsstr) (b : jsval) (c : ApiRequestConfig) (local : option storage)
  | Arrives (p : nat) (a : reply)
  | Forgets (p : nat).

Definition step (st : Client) (e : event) : option Client :=
  match e with
  | Get u c local => Some (snd (get u c local st))
  | Post m u b c local => if bool_decide (m = GET) then None else Some (snd (post m u b c local st))
  | Arrives p a => settle p a st
  | Forgets p => cleanup p st
  end.

(** The addresses the console asks for hold no opening brace after a question mark, and
    parameters are objects: the text of the parameters begins where it seems to. *)
Definition admissible (u : jsstr) (c : ApiRequestConfig) : Prop :=
  includes (js "?{") u = false /\ (truthy (params c) = true -> exists o, params c = VObj o).

Inductive reachable : Client -> Prop :=
  | reach_fresh : reachable fresh_client
  | reach_step st e st' :
      reachable st -> match e with Get u c _ => admissible u c | _ => True end ->
      step st e = Some st' -> reachable st'.

(** ** Theorems: one request for the same read *)

Definition live (ph : phase) : bool := match ph with Done _ => false | _ => true end.

Definition reply_of (ph : phase) : option reply :=
  match ph with Sent => None | Settled a | Done a => Some a end.

(** The question mark and the brace cut a key where the address ends. *)
Lemma cut_key (u v s t : jsstr) :
  includes (js "?{") u = false -> includes (js "?{") v = false ->
  u ++ 63%N :: 123%N :: s = v ++ 63%N :: 123%N :: t -> u = v /\ s = t.
Proof.
  assert (Hhead : forall w, includes (js "?{") (63%N :: 123%N :: w) = true).
  { intros w. apply includes_spec. exists [], w. done. }
  assert (Htail : forall x w, includes (js "?{") (x :: w) = false -> includes (js "?{") w = false).
  { intros x w. apply (includes_suffix _ [x]). }
  revert v; induction u as [|x u IH]; intros [|y v] Hu Hv E; cbn [app] in E.
  - by injection E.
  - injection E as <- E. destruct v as [|z v]; [done|]. injection E as <- _. by rewrite Hhead in Hv.
  - injection E as -> E. destruct u as [|z u]; [done|]. injection E as -> _. by rewrite Hhead in Hu.
  - injection E as -> E. destruct (IH v) as [-> ->]; eauto.
Qed.

Lemma params_text_brace u c : admissible u c -> exists t, params_text (params c) = 123%N :: t.
Proof.
  intros [_ H]. unfold params_text. destruct (truthy (params c)) eqn:E; [|by eexists].
  destruct (H eq_refl) as [o ->]. cbn [stringify default ser]. by eexists.
Qed.

Lemma get_key_inj u c v d :
  admissible u c -> admissible v d -> get_key u c = get_key v d ->
  u = v /\ params_text (params c) = params_text (params d).
Proof.
  intros Hc Hd. destruct (params_text_brace u c Hc) as [s Hs]. destruct (params_text_brace v d Hd) as [t Ht].
  unfold get_key. rewrite Hs, Ht. intros E. destruct Hc as [Hu _], Hd as [Hv _].
  by destruct (cut_key u v s t Hu Hv E) as [-> ->].
Qed.

(** The map holds the shared reads that are not done, each under its key. *)
Definition in_flight (st : Client) (k : jsstr) (p : nat) : Prop :=
  exists r ph, requests st !! p = Some (r, ph) /\ shared r = true /\ live ph = true
               /\ get_key (url r) (config r) = k.

Record inv (st : Client) : Prop := {
  i_entry : forall k p, mget k (inFlightGet st) = Some p <-> in_flight st k p;
  i_admissible : forall p r ph, requests st !! p = Some (r, ph) -> shared r = true ->
                                admissible (url r) (config r) }.

Lemma lookup_sent (l : list (Request * phase)) r p x :
  (l ++ [(r, Sent)]) !! p = Some x <-> l !! p = Some x \/ (p = length l /\ x = (r, Sent)).
Proof.
  rewrite lookup_app_Some. split.
  - intros [?|[Hl H]]; [by left|]. apply list_lookup_singleton_Some in H as [H <-]. right. split; [lia|done].
  - intros [?|[-> ->]]; [by left|]. right. split; [done|]. by rewrite Nat.sub_diag.
Qed.

Lemma mget_forget k j (m : list (jsstr * nat)) :
  mget k (forget j m) = if bool_decide (k = j) then None else mget k m.
Proof.
  unfold forget in *. induction m as [|[i q] m IH]; cbn; [by case_bool_decide|].
  destruct (decide (i = j)) as [->|Hij].
  - rewrite (bool_decide_eq_true_2 (j = j)) by done. cbn. rewrite IH. by case_bool_decide.
  - rewrite (bool_decide_eq_false_2 (i = j)) by done. cbn. rewrite IH.
    destruct (decide (k = i)) as [->|]; [by rewrite bool_decide_eq_true_2, bool_decide_eq_false_2 by done|].
    by rewrite (bool_decide_eq_false_2 (k = i)).
Qed.

(** A request that is not shared changes nothing of the map. *)
Lemma inv_send r st : inv st -> shared r = false -> inv (snd (send r st)).
Proof.
  intros [He Ha] Hr. split; cbn [send snd requests inFlightGet].
  - intros k p. rewrite He. unfold in_flight. cbn [requests]. split; intros (r' & ph & H & Hs & Hk).
    + exists r', ph. by rewrite lookup_sent; auto.
    + apply lookup_sent in H as [H|[-> [= -> ->]]]; [by exists r', ph|congruence].
  - intros p r' ph [H|[-> [= -> ->]]]%lookup_sent; [by eauto|congruence].
Qed.

Lemma inv_get u c local st : inv st -> admissible u c -> inv (snd (get u c local st)).
Proof.
  intros Hi Hadm. unfold get. set (r := {| method := GET |}).
  destruct (disableDuplicate c) eqn:Ed.
  { apply inv_send; [done|]. unfold shared. cbn. by rewrite Ed. }
  destruct (mget (get_key u c) (inFlightGet st)) as [q|] eqn:Eq; [done|]. destruct Hi as [He Ha].
  assert (Hr : shared r = true) by (unfold shared; cbn; by rewrite Ed).
  split; cbn [send snd requests inFlightGet].
  - intros k p. rewrite mget_mset. unfold in_flight. cbn [requests]. case_bool_decide as Ek.
    + subst k. split.
      * intros [= <-]. exists r, Sent. by rewrite lookup_sent; auto.
      * intros (r' & ph & [H|[-> _]]%lookup_sent & Hs & Hk); [|done].
        assert (Hq : mget (get_key u c) (inFlightGet st) = Some p) by (apply He; by exists r', ph).
        congruence.
    + rewrite He. split; intros (r' & ph & H & Hs & Hl & Hk).
      * exists r', ph. by rewrite lookup_sent; auto.
      * apply lookup_sent in H as [H|[-> [= -> ->]]]; [by exists r', ph|by destruct Ek].
  - intros p r' ph [H|[-> [= -> ->]]]%lookup_sent; [by eauto|done].
Qed.

Lemma lookup_set_phase st p q r a ph :
  requests st !! p = Some (r, a) ->
  set_phase p ph st !! q = if bool_decide (q = p) then Some (r, ph) else requests st !! q.
Proof.
  intros H. unfold set_phase. case_bool_decide as E.
  - subst. by rewrite list_lookup_alter_eq, H.
  - by rewrite list_lookup_alter_ne by done.
Qed.

(** A request that gets another phase stays in the map while it is live. *)
Lemma inv_phase st p r a ph m l :
  inv st -> requests st !! p = Some (r, a) ->
  (forall k q, mget k m = Some q <->
     mget k (inFlightGet st) = Some q /\ (q = p -> live ph = true)) -> live a = true ->
  inv {| requests := set_phase p ph st; inFlightGet := m; shown := l |}.
Proof.
  intros [He Ha] Hp Hm Hl. split; cbn [requests inFlightGet].
  - intros k q. rewrite Hm, He. unfold in_flight. cbn [requests].
    pose proof (lookup_set_phase st p q r a ph Hp) as Hq. case_bool_decide as E.
    + subst q. split.
      * intros [(r' & ph' & H & Hs & _ & Hk) Hlive]. rewrite Hp in H. injection H as <- <-. exists r, ph. by auto.
      * intros (r' & ph' & H & Hs & Hlive & Hk). rewrite Hq in H. injection H as <- <-.
        split; [|done]. by exists r, a.
    + split; [intros [(r' & ph' & H) _]|intros (r' & ph' & H)].
      * exists r', ph'. by rewrite Hq.
      * rewrite Hq in H. split; [by exists r', ph'|done].
  - intros q r' ph'. cbn [requests]. rewrite (lookup_set_phase st p q r a ph Hp). case_bool_decide; [|by eauto].
    intros [= <- <-]. by eauto.
Qed.

Lemma reachable_inv st : reachable st -> inv st.
Proof.
  induction 1 as [|st e st' _ IH Hadm E].
  - split; [|done]. intros k p. split; [done|]. by intros (r & ph & H & _).
  - destruct e as [u c local|m u b c local|p a|p]; cbn [step] in E.
    + apply (inj Some) in E as <-. by apply inv_get.
    + case_bool_decide as Em; [done|]. apply (inj Some) in E as <-. apply inv_send; [done|].
      unfold shared. cbn. by rewrite bool_decide_eq_false_2.
    + unfold settle in E. destruct (requests st !! p) as [[r [| |]]|] eqn:Ep; try done.
      apply (inj Some) in E as <-. by apply (inv_phase st p r Sent); [| |naive_solver|].
    + unfold cleanup in E. destruct (requests st !! p) as [[r [|a|]]|] eqn:Ep; try done.
      destruct (shared r) eqn:Es; [|done]. apply (inj Some) in E as <-.
      apply (inv_phase st p r (Settled a)); [done|done| |done].
      intros k q. rewrite mget_forget. case_bool_decide as Ek.
      * split; [done|]. intros [Hq Hne]. exfalso. subst k.
        assert (Hpq : mget (get_key (url r) (config r)) (inFlightGet st) = Some p)
          by (apply (i_entry st IH); by exists r, (Settled a)).
        rewrite Hq in Hpq. by injection Hpq as ->; specialize (Hne eq_refl).
      * split; [|by intros []]. intros Hq. split; [done|]. intros ->.
        apply (i_entry st IH) in Hq as (r' & ph & Hr & _ & _ & Hk). rewrite Ep in Hr. by injection Hr as <- _.
Qed.

(** What happens after a state. *)
Definition later : relation Client := rtc (fun st st' => exists e, step st e = Some st').

(** A request keeps its place, and its answer once it has one. *)
Lemma step_keeps st e st' p r ph :
  step st e = Some st' -> requests st !! p = Some (r, ph) ->
  exists ph', requests st' !! p = Some (r, ph')
              /\ (forall a, reply_of ph = Some a -> reply_of ph' = Some a).
Proof.
  intros E Hp.
  assert (Hsend : forall r', requests (snd (send r' st)) !! p = Some (r, ph)).
  { intros r'. cbn. by apply lookup_app_l_Some. }
  destruct e as [u c local|m u b c local|q a|q]; cbn [step] in E.
  - apply (inj Some) in E as <-. exists ph. split; [|done]. unfold get. case_match; [apply Hsend|].
    case_match; [done|]. exact (Hsend {| method := GET |}).
  - case_bool_decide; [done|]. apply (inj Some) in E as <-. exists ph. split; [apply Hsend|done].
  - unfold settle in E. destruct (requests st !! q) as [[r' [| |]]|] eqn:Eq; try done.
    apply (inj Some) in E as <-. cbn [requests]. rewrite (lookup_set_phase st q p r' Sent _ Eq).
    case_bool_decide as Epq; [|by exists ph]. subst. rewrite Eq in Hp. injection Hp as <- <-. by eexists.
  - unfold cleanup in E. destruct (requests st !! q) as [[r' [|a|]]|] eqn:Eq; try done.
    destruct (shared r'); [|done]. apply (inj Some) in E as <-. cbn [requests].
    rewrite (lookup_set_phase st q p r' (Settled a) _ Eq).
    case_bool_decide as Epq; [|by exists ph]. subst. rewrite Eq in Hp. injection Hp as <- <-. by eexists.
Qed.

Lemma later_keeps st st' p r ph :
  later st st' -> requests st !! p = Some (r, ph) ->
  exists ph', requests st' !! p = Some (r, ph')
              /\ (forall a, reply_of ph = Some a -> reply_of ph' = Some a).
Proof.
  intros H. revert ph. induction H as [st|st st1 st2 [e E] _ IH]; intros ph Hp; [by exists ph|].
  destruct (step_keeps st e st1 p r ph E Hp) as (ph1 & H1 & K1).
  destruct (IH ph1 H1) as (ph2 & H2 & K2). exists ph2. split; [done|]. auto.
Qed.

(** C3. Reads share answers safely.  In every reachable state, the promise a read gets is that of
    a request for the same address with the same parameters, which the client has not
    forgotten; it is the only one, so that never two such requests are under way; and
    whatever happens afterwards, the promise stays that request's, with one answer. *)
Theorem reads_share_own_answer st st' u c local p :
  reachable st -> admissible u c -> disableDuplicate c = false -> get u c local st = (p, st') ->
  exists r ph, requests st' !! p = Some (r, ph) /\ live ph = true
  /\ method r = GET /\ url r = u /\ params_text (params (config r)) = params_text (params c)
  /\ (forall q r' ph', requests st' !! q = Some (r', ph') -> shared r' = true -> live ph' = true ->
        url r' = u -> params_text (params (config r')) = params_text (params c) -> q = p)
  /\ (forall st'', later st' st'' -> exists ph'', requests st'' !! p = Some (r, ph'')
        /\ (forall a, reply_of ph = Some a -> reply_of ph'' = Some a)).
Proof.
  intros Hr Hadm Hd E. pose proof (reachable_inv st Hr) as Hi.
  assert (Hi' : inv st') by (pose proof (inv_get u c local st Hi Hadm) as H; by rewrite E in H).
  assert (Hp : mget (get_key u c) (inFlightGet st') = Some p).
  { unfold get in E. rewrite Hd in E. destruct (mget _ _) as [q|] eqn:Eq; injection E as <- <-; [done|].
    cbn [inFlightGet]. by rewrite mget_mset, bool_decide_eq_true_2. }
  pose proof (proj1 (i_entry st' Hi' _ _) Hp) as (r & ph & H & Hs & Hl & Hk).
  destruct (get_key_inj _ _ _ _ (i_admissible st' Hi' _ _ _ H Hs) Hadm Hk) as [Hu Ht].
  exists r, ph. split; [done|]. split; [done|]. split.
  { unfold shared in Hs. apply andb_true_iff in Hs as [Hm _]. by apply bool_decide_eq_true in Hm. }
  split; [done|]. split; [done|]. split.
  - intros q r' ph' H' Hs' Hl' Hu' Ht'.
    assert (Hq : mget (get_key u c) (inFlightGet st') = Some q).
    { apply (i_entry st' Hi'). exists r', ph'. split; [done|]. split; [done|]. split; [done|].
      unfold get_key. by rewrite Hu', Ht'. }
    congruence.
  - intros st'' Hlater. by apply (later_keeps st').
Qed.

(** Nothing is cached: a read asked for when no such read is under way is sent. *)
Theorem answered_read_is_sent_again st u c local :
  reachable st -> admissible u c ->
  (forall q r ph, requests st !! q = Some (r, ph) -> shared r = true ->
     url r = u -> params_text (params (config r)) = params_text (params c) -> live ph = false) ->
  exists r st', get u c local st = (length (requests st), st')
  /\ requests st' = requests st ++ [(r, Sent)] /\ url r = u /\ config r = c /\ user r = user_header local.
Proof.
  intros Hr Hadm Hno. pose proof (reachable_inv st Hr) as Hi. unfold get.
  destruct (disableDuplicate c); [by eexists _, _|].
  destruct (mget (get_key u c) (inFlightGet st)) as [q|] eqn:Eq; [|by eexists _, _]. exfalso.
  apply (i_entry st Hi) in Eq as (r & ph & H & Hs & Hl & Hk).
  destruct (get_key_inj _ _ _ _ (i_admissible st Hi _ _ _ H Hs) Hadm Hk) as [Hu Ht].
  specialize (Hno q r ph H Hs Hu Ht). congruence.
Qed.

(** Parameters that JSON can carry are the same where their texts are. *)
Lemma params_text_inj o o' :
  json_ok (VObj o) -> json_ok (VObj o') -> params_text (VObj o) = params_text (VObj o') -> o = o'.
Proof.
  intros Ho Ho' E. change (ser (VObj o) = ser (VObj o')) in E.
  pose proof (json_parse_ser _ Ho) as H. pose proof (json_parse_ser _ Ho') as H'.
  rewrite E, H' in H. by injection H.
Qed.

(** The key knows neither the user nor the options: a read joined by another user, or with
    other options, gets the answer of the first, and is reported by the options of the
    first. *)
Theorem join_ignores_user_and_options st u c c' local local' :
  disableDuplicate c = false -> disableDuplicate c' = false -> params c' = params c ->
  let '(p, st') := get u c local st in get u c' local' st' = (p, st').
Proof.
  intros Hd Hd' Hp. destruct (get u c local st) as [p st'] eqn:E. unfold get in *.
  rewrite Hd in E. rewrite Hd'. assert (Hk : get_key u c' = get_key u c) by (unfold get_key; by rewrite Hp).
  rewrite Hk. destruct (mget (get_key u c) (inFlightGet st)) as [q|] eqn:Eq; injection E as <- <-.
  - by rewrite Eq.
  - cbn [inFlightGet]. by rewrite mget_mset, bool_decide_eq_true_2.
Qed.

(** ** Theorems: reports *)

(** Without options every error is reported once, and what was not refused is not. *)
Theorem default_reports c r :
  skipBusinessError c = false -> skipErrorHandler c = false ->
  match r with
  | Failure _ _ => exists m, filterb (fun e => match e with ToastError _ => true | _ => false end) (intercept c r)
                             = [ToastError m]
  | Answer data =>
      intercept c r = [] \/ is_false (prop (js "success") data) = true /\ exists m, intercept c r = [ToastError m]
  end.
Proof.
  intros Hb He. destruct r as [data|response message]; cbn [intercept].
  - unfold on_response. rewrite Hb. destruct (truthy data); [|by left].
    destruct (prop (js "success") data) as [| |[]| | | |]; try (by left). right. split; [done|]. by eexists.
  - unfold on_error. rewrite He. destruct (is_401 _); by eexists.
Qed.

(** The session ends with the answer 401, whoever asked and with which options. *)
Theorem session_ends_at_401 c r :
  AuthReset ∈ intercept c r <-> exists s d m, r = Failure (Some (s, d)) m /\ neqb s (num_of_Z 401) = true.
Proof.
  assert (Hno : forall b m, AuthReset ∈ (if b : bool then [ToastError m] else []) -> False).
  { intros [] m Hin; [by apply list_elem_of_singleton in Hin|by apply elem_of_nil in Hin]. }
  destruct r as [data|response message]; cbn [intercept].
  - unfold on_response. split; [by intros ?%Hno|]. by intros (s & d & m & E & _).
  - unfold on_error. destruct response as [[s d]|]; cbn [status_of is_401].
    + destruct (neqb s (num_of_Z 401)) eqn:Es.
      * split; [intros _; by exists s, d, message|intros _; apply list_elem_of_here].
      * split; [by intros ?%Hno|]. intros (s' & d' & m' & E & Es'). injection E as <- <- <-. congruence.
    + split; [by intros ?%Hno|]. by intros (s' & d' & m' & E & _).
Qed.

(** ** Witnesses *)

Definition list_params : ApiRequestConfig :=
  with_params (VObj (obj_of [(js "p", VNum (num_of_Z 1))])) no_config.

Lemma list_params_admissible : admissible (js "/api/channel/") list_params.
Proof. split; [by vm_compute|]. intros _. by eexists. Qed.

(** A second read of a list while the first is under way. *)
Lemma reads_share_own_answer_witness :
  exists st p, get (js "/api/channel/") list_params None fresh_client = (p, st)
  /\ get (js "/api/channel/") list_params None st = (0%nat, st)
  /\ exists r ph, requests st !! 0%nat = Some (r, ph) /\ url r = js "/api/channel/".
Proof.
  destruct (get (js "/api/channel/") list_params None fresh_client) as [p st] eqn:E.
  exists st, p. split; [done|].
  assert (Hr : reachable st).
  { apply (reach_step fresh_client (Get (js "/api/channel/") list_params None)); [constructor| |by cbn [step]; rewrite E].
    apply list_params_admissible. }
  assert (E' : get (js "/api/channel/") list_params None st = (0%nat, st)).
  { pose proof (join_ignores_user_and_options fresh_client (js "/api/channel/") list_params list_params None None
      eq_refl eq_refl eq_refl) as H. rewrite E in H. rewrite H. f_equal. unfold get in E. cbn in E. by injection E. }
  split; [exact E'|].
  destruct (reads_share_own_answer st st (js "/api/channel/") list_params None 0 Hr list_params_admissible
              eq_refl E') as (r & ph & H & _ & _ & Hu & _).
  by exists r, ph.
Defined.

Lemma answered_read_is_sent_again_witness :
  exists r st, get (js "/api/channel/") list_params None fresh_client = (0%nat, st) /\ user r = None.
Proof.
  destruct (answered_read_is_sent_again fresh_client (js "/api/channel/") list_params None) as (r & st & E & _ & _ & _ & H);
    [constructor|apply list_params_admissible|done|].
  by exists r, st.
Defined.
