(* ===== verification/ChannelActions.v ===== *)
(** * Actions of the channel table ([features/channels/lib/channel-actions.ts])

    Each action sends requests of [features/channels/api.ts] and reports what came of them.
    A handler is a computation that logs what it does and may throw ([act]); the answer of
    the server to each request is its argument, any body or error the network client
    ([ApiClient]) may deliver. *)

From S2P Require Import Prelude JsString JsNumber JsValue WebStorage Currency ApiClient ChannelRows.

(** ** Handlers *)

(** What [await] throws: an error of the network client, or one of the engine. *)
Inductive error :=
  | Network (response : option (num * jsval)) (message : jsstr)
  | TypeError (message : jsstr).

Definition message_of (e : error) : jsstr :=
  match e with Network _ m => m | TypeError m => m end.

(** [err?.response?.data?.message] *)
Definition server_message (e : error) : jsval :=
  match e with Network (Some (_, data)) _ => prop (js "message") data | _ => VUndef end.

(** A call of the API: the verb, the address, the body and the parameters. *)
Record api_call := { c_verb : verb; c_url : jsstr; c_body : jsval; c_params : jsval }.

(** A text of the translations with its values, or a text of the server. *)
Inductive message := T (key : jsstr) (values : list (jsstr * jsval)) | Server (v : jsval).

(** What [onTestComplete] is called with: the success, the time, the error and its code. *)
Record TestOutcome := { o_success : bool; o_time : jsval; o_error : jsval; o_code : jsval }.

(** What a handler does: a request, a message, the refresh of the table, the callbacks. *)
Inductive did :=
  | Asked (c : api_call)
  | Toast (ok : bool) (m : message)
  | Invalidated
  | Told (v : jsval)
  | Completed (o : TestOutcome).

Definition act (A : Type) : Type := list did * (error + A).

#[export] Instance act_ret : MRet act := fun A a => ([], inr a).

#[export] Instance act_bind : MBind act := fun A B f m =>
  match snd m with
  | inl e => (fst m, inl e)
  | inr a => (fst m ++ fst (f a), snd (f a))
  end.

Definition tell (d : did) : act unit := ([d], inr tt).

Definition throw {A} (e : error) : act A := ([], inl e).

Definition try_catch {A} (m : act A) (h : error -> act A) : act A :=
  match snd m with
  | inl e => (fst m ++ fst (h e), snd (h e))
  | inr a => m
  end.

Definition t (key : String.string) : message := T (js key) [].
Arguments t key%_string_scope.

(** [toast.error(response.message || i18next.t(key))] *)
Definition server_or (response : jsval) (key : message) : message :=
  let m := prop (js "message") response in if truthy m then Server m else key.

Definition channels (path : jsstr) : jsstr := js "/api/channel" ++ path.

Definition call_of (v : verb) (u : jsstr) (b p : jsval) : api_call :=
  {| c_verb := v; c_url := u; c_body := b; c_params := p |}.

(** *** The requests, all with [channelActionConfig] *)

Definition channelActionConfig (c : ApiRequestConfig) : ApiRequestConfig :=
  {| skipBusinessError := true; skipErrorHandler := true; disableDuplicate := disableDuplicate c;
     params := params c |}.

(** The call as a request of the network client. *)
Definition request_of (c : api_call) (local : option storage) : Request :=
  {| method := c_verb c; url := c_url c; body := c_body c;
     config := channelActionConfig (with_params (c_params c) no_config); user := user_header local |}.

Definition updateChannel (id : num) (data : obj) : api_call :=
  call_of PUT (channels (js "/")) (VObj (ospread (obj_of [(js "id", VNum id)]) data)) VUndef.

Definition deleteChannel (id : num) : api_call :=
  call_of DELETE (channels (js "/" ++ num_to_string id)) VUndef VUndef.

Definition batchDeleteChannels (ids : list num) : api_call :=
  call_of POST (channels (js "/batch")) (VObj (obj_of [(js "ids", VArr (VNum <$> ids))])) VUndef.

Definition batchSetChannelTag (ids : list num) (tag : jsval) : api_call :=
  call_of POST (channels (js "/batch/tag"))
    (VObj (obj_of [(js "ids", VArr (VNum <$> ids)); (js "tag", tag)])) VUndef.

Definition testChannel (id : num) (params : jsval) : api_call :=
  call_of GET (channels (js "/test/" ++ num_to_string id)) VUndef params.

Definition updateChannelBalance (id : num) : api_call :=
  call_of GET (channels (js "/update_balance/" ++ num_to_string id)) VUndef VUndef.

Definition copyChannel (id : num) (params : jsval) : api_call :=
  call_of POST (channels (js "/copy/" ++ num_to_string id)) VNull params.

Definition fixChannelAbilities : api_call := call_of POST (channels (js "/fix")) VUndef VUndef.

Definition deleteDisabledChannels : api_call := call_of DELETE (channels (js "/disabled")) VUndef VUndef.

Definition tag_call (path : String.string) (tag : jsstr) : api_call :=
  call_of POST (channels (js "/tag/" ++ js path)) (VObj (obj_of [(js "tag", VStr tag)])) VUndef.
Arguments tag_call path%_string_scope tag.

Definition enableTagChannels (tag : jsstr) : api_call := tag_call "enabled" tag.
Definition disableTagChannels (tag : jsstr) : api_call := tag_call "disabled" tag.

Definition editTagChannels (params : obj) : api_call := call_of PUT (channels (js "/tag")) (VObj params) VUndef.

Definition testAllChannels : api_call := call_of GET (channels (js "/test")) VUndef VUndef.
Definition updateAllChannelsBalance : api_call := call_of GET (channels (js "/update_balance")) VUndef VUndef.

Section Actions.

(** Whether a query client is given; the text of the engine for a property of null; the
    formatter and the stored configuration of amounts. *)
Context (queryClient : bool) (null_message : jsstr).
Context (intl : option jsstr -> nat -> num -> jsstr) (stored : option StoredCurrency).

(** [await call], given the server's answer. *)
Definition ask (c : api_call) (r : reply) : act jsval :=
  ([Asked c], match r with Answer data => inr data | Failure response m => inl (Network response m) end).

(** [v.key] *)
Definition field (k : String.string) (v : jsval) : act jsval :=
  if nullish v then throw (TypeError null_message) else mret (prop (js k) v).
Arguments field k%_string_scope v.

Definition toast_success (m : message) : act unit := tell (Toast true m).
Definition toast_error (m : message) : act unit := tell (Toast false m).

Definition invalidate : act unit := if queryClient then tell Invalidated else mret tt.

(** [onSuccess?.(v)] *)
Definition notify (onSuccess : option (jsval -> act unit)) (v : jsval) : act unit :=
  match onSuccess with Some f => _ ← tell (Told v); f v | None => mret tt end.

(** The shape of the actions: the request; [good] says whether the answer is a success,
    [said] what is shown for it and [value] what the callback gets. *)
Definition action (c : api_call) (good : jsval -> act bool) (said : jsval -> message) (value : jsval -> jsval)
    (refused : message) (failed : error -> message) (onSuccess : option (jsval -> act unit)) (r : reply)
  : act unit :=
  try_catch
    (response ← ask c r;
     ok ← good response;
     if (ok : bool)
     then _ ← toast_success (said response); _ ← invalidate; notify onSuccess (value response)
     else toast_error (server_or response refused))
    (fun e => toast_error (failed e)).

(** [response.success] *)
Definition success (response : jsval) : act bool :=
  ok ← field "success" response; mret (truthy ok).

Definition plain (c : api_call) (said : String.string) (refused failed : String.string)
    (onSuccess : option (jsval -> act unit)) (r : reply) : act unit :=
  action c success (fun _ => t said) (fun _ => VUndef) (t refused) (fun _ => t failed) onSuccess r.
Arguments plain c (said refused failed)%_string_scope onSuccess r.

(** [{ status: n }] *)
Definition with_status (n : Z) : obj := obj_of [(js "status", VNum (num_of_Z n))].

Definition handleEnableChannel (id : num) (onSuccess : option (jsval -> act unit)) : reply -> act unit :=
  plain (updateChannel id (with_status 1)) "Channel enabled successfully" "Failed to update channel"
    "Failed to update channel" onSuccess.

Definition handleDisableChannel (id : num) (onSuccess : option (jsval -> act unit)) : reply -> act unit :=
  plain (updateChannel id (with_status 2)) "Channel disabled successfully" "Failed to update channel"
    "Failed to update channel" onSuccess.

Definition handleToggleChannelStatus (id currentStatus : num) (onSuccess : option (jsval -> act unit))
  : reply -> act unit :=
  if neqb currentStatus (num_of_Z 1) then handleDisableChannel id onSuccess
  else handleEnableChannel id onSuccess.

Definition handleDeleteChannel (id : num) (onSuccess : option (jsval -> act unit)) : reply -> act unit :=
  plain (deleteChannel id) "Channel deleted successfully" "Failed to delete channel"
    "Failed to delete channel" onSuccess.

(** The two fields the pages change, with their labels. *)
Inductive channel_field := Priority | Weight.

Definition field_name (f : channel_field) : jsstr :=
  match f with Priority => js "priority" | Weight => js "weight" end.
Definition field_label (f : channel_field) : jsstr :=
  match f with Priority => js "Priority" | Weight => js "Weight" end.

Definition handleUpdateChannelField (id : num) (f : channel_field) (value : num)
    (onSuccess : option (jsval -> act unit)) : reply -> act unit :=
  action (updateChannel id (obj_of [(field_name f, VNum value)])) success
    (fun _ => T (js "{{field}} updated to {{value}}") [(js "field", VStr (field_label f)); (js "value", VNum value)])
    (fun _ => VUndef) (t "Failed to update channel") (fun _ => t "Failed to update channel") onSuccess.

Definition handleUpdateTagField (tag : jsstr) (f : channel_field) (value : num)
    (onSuccess : option (jsval -> act unit)) : reply -> act unit :=
  action (editTagChannels (obj_of [(js "tag", VStr tag); (field_name f, VNum value)])) success
    (fun _ => T (js "{{field}} updated to {{value}} for tag: {{tag}}")
                [(js "field", VStr (field_label f)); (js "value", VNum value); (js "tag", VStr tag)])
    (fun _ => VUndef) (t "Failed to update channel") (fun _ => t "Failed to update channel") onSuccess.

Definition handleCopyChannel (id : num) (params : jsval) (onSuccess : option (jsval -> act unit))
  : reply -> act unit :=
  action (copyChannel id params) success (fun _ => t "Channel copied successfully")
    (fun response => vnullish (prop (js "id") (prop (js "data") response)) (VNum zero))
    (t "Failed to copy channel") (fun _ => t "Failed to copy channel") onSuccess.

Definition shown_balance (b : jsval) : jsstr :=
  formatCurrencyFromUSD intl stored (match b with VNum x => Some x | _ => None end)
    (Some (balance_options false)).

Definition handleUpdateChannelBalance (id : num) (onSuccess : option (jsval -> act unit)) : reply -> act unit :=
  action (updateChannelBalance id)
    (fun response => ok ← success response; mret (ok && negb (is_undef (prop (js "balance") response))))
    (fun response => T (js "Balance updated: {{balance}}")
                       [(js "balance", VStr (shown_balance (prop (js "balance") response)))])
    (prop (js "balance")) (t "Failed to update balance") (fun e => Server (VStr (message_of e))) onSuccess.

(** *** Several channels *)

Definition none_selected : act unit := toast_error (t "No channels selected").

Definition handleBatchDelete (ids : list num) (onSuccess : option (jsval -> act unit)) (r : reply) : act unit :=
  if (length ids =? 0)%nat then none_selected
  else
    let count response := vor (prop (js "data") response) (VNum (num_of_Z (Z.of_nat (length ids)))) in
    action (batchDeleteChannels ids) success
      (fun response => T (js "{{count}} channel(s) deleted") [(js "count", count response)]) count
      (t "Failed to delete channel") (fun _ => t "Failed to delete channel") onSuccess r.

Definition handleBatchSetTag (ids : list num) (tag : jsval) (onSuccess : option (jsval -> act unit)) (r : reply)
  : act unit :=
  if (length ids =? 0)%nat then none_selected
  else plain (batchSetChannelTag ids tag) "Tag set successfully" "Failed to set tag" "Failed to set tag" onSuccess r.

(** [results.filter((r) => r.status === 'fulfilled' && r.value.success).length] *)
Fixpoint count_successes (results : list reply) : act nat :=
  match results with
  | [] => mret 0%nat
  | Failure _ _ :: rest => count_successes rest
  | Answer data :: rest =>
      ok ← success data;
      n ← count_successes rest;
      mret (if (ok : bool) then S n else n)
  end.

Definition count_message (key : String.string) (n : nat) : message :=
  T (js key) [(js "count", VNum (num_of_Z (Z.of_nat n)))].
Arguments count_message key%_string_scope n.

(** One request per channel, all at once; [results] are their answers. *)
Definition batch_status (n : Z) (done failed broken : String.string) (ids : list num)
    (onSuccess : option (jsval -> act unit)) (results : list reply) : act unit :=
  if (length ids =? 0)%nat then none_selected
  else
    try_catch
      (_ ← ((fun id => Asked (updateChannel id (with_status n))) <$> ids, inr tt) : act unit;
       successCount ← count_successes results;
       let failCount := (length results - successCount)%nat in
       _ ← (if (0 <? successCount)%nat
            then _ ← toast_success (count_message done successCount);
                 _ ← invalidate; notify onSuccess VUndef
            else mret tt);
       if (0 <? failCount)%nat then toast_error (count_message failed failCount) else mret tt)
      (fun _ => toast_error (t broken)).
Arguments batch_status n%_Z_scope (done failed broken)%_string_scope.

Definition handleBatchEnable : list num -> option (jsval -> act unit) -> list reply -> act unit :=
  batch_status 1 "{{count}} channel(s) enabled" "{{count}} channel(s) failed to enable" "Failed to enable channels".

Definition handleBatchDisable : list num -> option (jsval -> act unit) -> list reply -> act unit :=
  batch_status 2 "{{count}} channel(s) disabled" "{{count}} channel(s) failed to disable"
    "Failed to disable channels".

(** *** Tags and all channels *)

Definition handleEnableTagChannels (tag : jsstr) (onSuccess : option (jsval -> act unit)) : reply -> act unit :=
  action (enableTagChannels tag) success
    (fun _ => T (js "Enabled all channels with tag: {{tag}}") [(js "tag", VStr tag)]) (fun _ => VUndef)
    (t "Failed to enable tag channels") (fun _ => t "Failed to enable tag channels") onSuccess.

Definition handleDisableTagChannels (tag : jsstr) (onSuccess : option (jsval -> act unit)) : reply -> act unit :=
  action (disableTagChannels tag) success
    (fun _ => T (js "Disabled all channels with tag: {{tag}}") [(js "tag", VStr tag)]) (fun _ => VUndef)
    (t "Failed to disable tag channels") (fun _ => t "Failed to disable tag channels") onSuccess.

Definition handleDeleteAllDisabled (onSuccess : option (jsval -> act unit)) : reply -> act unit :=
  let count response := vor (prop (js "data") response) (VNum zero) in
  action deleteDisabledChannels success
    (fun response => T (js "{{count}} disabled channel(s) deleted") [(js "count", count response)]) count
    (t "Failed to delete disabled channels") (fun _ => t "Failed to delete disabled channels") onSuccess.

Definition handleFixAbilities (onSuccess : option (jsval -> act unit)) : reply -> act unit :=
  let data := prop (js "data") in
  action fixChannelAbilities
    (fun response => ok ← success response; mret (ok && truthy (data response)))
    (fun response => T (js "Fixed abilities: {{success}} succeeded, {{fails}} failed")
                       [(js "success", prop (js "success") (data response));
                        (js "fails", prop (js "fails") (data response))]) data
    (t "Failed to fix abilities") (fun _ => t "Failed to fix abilities") onSuccess.

Definition handleTestAllChannels (onSuccess : option (jsval -> act unit)) : reply -> act unit :=
  plain testAllChannels "Testing all enabled channels started. Please refresh to see results."
    "Failed to start testing all channels" "Failed to test all channels" onSuccess.

Definition handleUpdateAllBalances (onSuccess : option (jsval -> act unit)) : reply -> act unit :=
  plain updateAllChannelsBalance
    "Updating all channel balances. This may take a while. Please refresh to see results."
    "Failed to update all balances" "Failed to update all balances" onSuccess.

(** *** The test of a channel *)

(** The options given to [handleTestChannel]. *)
Record TestOptions := { testModel : jsstr; endpointType : jsstr; stream : bool; silent : bool }.

Definition test_payload (options : option TestOptions) : jsval :=
  match options with
  | Some o =>
      if truthy_str (testModel o) || truthy_str (endpointType o) || stream o
      then VObj (obj_of
             ((if truthy_str (testModel o) then [(js "model", VStr (testModel o))] else [])
              ++ (if truthy_str (endpointType o) then [(js "endpoint_type", VStr (endpointType o))] else [])
              ++ (if stream o then [(js "stream", VBool true)] else [])))
      else VUndef
  | None => VUndef
  end.

Definition is_silent (options : option TestOptions) : bool :=
  match options with Some o => silent o | None => false end.

Definition handleTestChannel (id : num) (options : option TestOptions)
    (onTestComplete : TestOutcome -> act unit) (r : reply) : act unit :=
  let loud (d : act unit) := if negb (is_silent options) then d else mret tt in
  try_catch
    (response ← ask (testChannel id (test_payload options)) r;
     ok ← success response;
     if (ok : bool)
     then _ ← loud (toast_success (t "Channel test completed"));
          onTestComplete {| o_success := true; o_time := prop (js "response_time") (prop (js "data") response);
                            o_error := VUndef; o_code := VUndef |}
     else _ ← loud (toast_error (server_or response (t "Failed to test channel")));
          onTestComplete {| o_success := false; o_time := VUndef; o_error := prop (js "message") response;
                            o_code := prop (js "error_code") response |})
    (fun e =>
       let errorMsg := vor (server_message e) (VStr (js "Failed to test channel")) in
       _ ← loud (toast_error (Server errorMsg));
       onTestComplete {| o_success := false; o_time := VUndef; o_error := errorMsg; o_code := VUndef |}).

End Actions.

Arguments count_message key%_string_scope n.

(** ** Theorems: one request, one report *)

Section Reports.
Context (queryClient : bool) (null_message : jsstr).
Context (intl : option jsstr -> nat -> num -> jsstr) (stored : option StoredCurrency).

(** The actions that send one request. *)
Inductive single :=
  | Enable (id : num) | Disable (id : num) | Toggle (id currentStatus : num) | Delete (id : num)
  | SetField (id : num) (f : channel_field) (value : num)
  | SetTagField (tag : jsstr) (f : channel_field) (value : num)
  | Copy (id : num) (params : jsval) | QueryBalance (id : num)
  | DeleteMany (ids : list num) | TagMany (ids : list num) (tag : jsval)
  | EnableTag (tag : jsstr) | DisableTag (tag : jsstr)
  | DeleteDisabled | FixAbilities | TestAll | UpdateBalances.

Definition run_single (a : single) : option (jsval -> act unit) -> reply -> act unit :=
  let q := queryClient in let n := null_message in
  match a with
  | Enable id => handleEnableChannel q n id
  | Disable id => handleDisableChannel q n id
  | Toggle id s => handleToggleChannelStatus q n id s
  | Delete id => handleDeleteChannel q n id
  | SetField id f v => handleUpdateChannelField q n id f v
  | SetTagField tag f v => handleUpdateTagField q n tag f v
  | Copy id p => handleCopyChannel q n id p
  | QueryBalance id => handleUpdateChannelBalance q n intl stored id
  | DeleteMany ids => handleBatchDelete q n ids
  | TagMany ids tag => handleBatchSetTag q n ids tag
  | EnableTag tag => handleEnableTagChannels q n tag
  | DisableTag tag => handleDisableTagChannels q n tag
  | DeleteDisabled => handleDeleteAllDisabled q n
  | FixAbilities => handleFixAbilities q n
  | TestAll => handleTestAllChannels q n
  | UpdateBalances => handleUpdateAllBalances q n
  end.

(** What makes an answer a success: the server says so, and sends what was asked for. *)
Definition answers_with (more : jsval -> bool) (r : reply) : bool :=
  match r with
  | Answer data => truthy (prop (js "success") data) && more data
  | Failure _ _ => false
  end.

Definition succeeds (a : single) : reply -> bool :=
  answers_with (fun data =>
    match a with
    | QueryBalance _ => negb (is_undef (prop (js "balance") data))
    | FixAbilities => truthy (prop (js "data") data)
    | _ => true
    end).

(** Nothing to do without a selected channel. *)
Definition nothing_selected (a : single) : bool :=
  match a with DeleteMany [] | TagMany [] _ => true | _ => false end.

(** *** What each action promises

    The contract of the actions, written from what their buttons say: the one request, the
    message for each outcome, and what the callback is told. *)

Definition wants (v : verb) (url : jsstr) (b : jsval) : api_call :=
  {| c_verb := v; c_url := url; c_body := b; c_params := VUndef |}.

Definition sets (id : num) (key : jsstr) (v : jsval) : api_call :=
  wants PUT (js "/api/channel/") (VObj [(js "id", VNum id); (key, v)]).

Definition status_is (n : Z) : jsval := VNum (num_of_Z n).

Definition ids_of (ids : list num) : jsval := VArr (VNum <$> ids).

(** The request of each action: 1 is the status of an enabled channel, 2 of one switched off
    by hand. *)
Definition asks (a : single) : api_call :=
  match a with
  | Enable id => sets id (js "status") (status_is 1)
  | Disable id => sets id (js "status") (status_is 2)
  | Toggle id s => sets id (js "status") (if neqb s (num_of_Z 1) then status_is 2 else status_is 1)
  | Delete id => wants DELETE (js "/api/channel/" ++ num_to_string id) VUndef
  | SetField id Priority v => sets id (js "priority") (VNum v)
  | SetField id Weight v => sets id (js "weight") (VNum v)
  | SetTagField tag Priority v =>
      wants PUT (js "/api/channel/tag") (VObj [(js "tag", VStr tag); (js "priority", VNum v)])
  | SetTagField tag Weight v =>
      wants PUT (js "/api/channel/tag") (VObj [(js "tag", VStr tag); (js "weight", VNum v)])
  | Copy id p =>
      {| c_verb := POST; c_url := js "/api/channel/copy/" ++ num_to_string id; c_body := VNull; c_params := p |}
  | QueryBalance id => wants GET (js "/api/channel/update_balance/" ++ num_to_string id) VUndef
  | DeleteMany ids => wants POST (js "/api/channel/batch") (VObj [(js "ids", ids_of ids)])
  | TagMany ids tag =>
      wants POST (js "/api/channel/batch/tag") (VObj [(js "ids", ids_of ids); (js "tag", tag)])
  | EnableTag tag => wants POST (js "/api/channel/tag/enabled") (VObj [(js "tag", VStr tag)])
  | DisableTag tag => wants POST (js "/api/channel/tag/disabled") (VObj [(js "tag", VStr tag)])
  | DeleteDisabled => wants DELETE (js "/api/channel/disabled") VUndef
  | FixAbilities => wants POST (js "/api/channel/fix") VUndef
  | TestAll => wants GET (js "/api/channel/test") VUndef
  | UpdateBalances => wants GET (js "/api/channel/update_balance") VUndef
  end.

(** What the callback is told of a success: the new channel, the balance, the channels
    deleted, the abilities counted. *)
Definition tells (a : single) (data : jsval) : jsval :=
  match a with
  | Copy _ _ => let id := prop (js "id") (prop (js "data") data) in if nullish id then VNum zero else id
  | QueryBalance _ => prop (js "balance") data
  | DeleteMany ids =>
      let n := prop (js "data") data in if truthy n then n else VNum (num_of_Z (Z.of_nat (length ids)))
  | DeleteDisabled => let n := prop (js "data") data in if truthy n then n else VNum zero
  | FixAbilities => prop (js "data") data
  | _ => VUndef
  end.

Definition named (f : channel_field) : jsval :=
  VStr (match f with Priority => js "Priority" | Weight => js "Weight" end).

Definition success_text (a : single) (data : jsval) : message :=
  match a with
  | Enable _ => t "Channel enabled successfully"
  | Disable _ => t "Channel disabled successfully"
  | Toggle _ s =>
      if neqb s (num_of_Z 1) then t "Channel disabled successfully" else t "Channel enabled successfully"
  | Delete _ => t "Channel deleted successfully"
  | SetField _ f v =>
      T (js "{{field}} updated to {{value}}") [(js "field", named f); (js "value", VNum v)]
  | SetTagField tag f v =>
      T (js "{{field}} updated to {{value}} for tag: {{tag}}")
        [(js "field", named f); (js "value", VNum v); (js "tag", VStr tag)]
  | Copy _ _ => t "Channel copied successfully"
  | QueryBalance _ =>
      T (js "Balance updated: {{balance}}") [(js "balance", VStr (shown_balance intl stored (tells a data)))]
  | DeleteMany _ => T (js "{{count}} channel(s) deleted") [(js "count", tells a data)]
  | TagMany _ _ => t "Tag set successfully"
  | EnableTag tag => T (js "Enabled all channels with tag: {{tag}}") [(js "tag", VStr tag)]
  | DisableTag tag => T (js "Disabled all channels with tag: {{tag}}") [(js "tag", VStr tag)]
  | DeleteDisabled => T (js "{{count}} disabled channel(s) deleted") [(js "count", tells a data)]
  | FixAbilities =>
      T (js "Fixed abilities: {{success}} succeeded, {{fails}} failed")
        [(js "success", prop (js "success") (tells a data)); (js "fails", prop (js "fails") (tells a data))]
  | TestAll => t "Testing all enabled channels started. Please refresh to see results."
  | UpdateBalances =>
      t "Updating all channel balances. This may take a while. Please refresh to see results."
  end.

(** The text for a refusal the server gives no reason for. *)
Definition refusal_text (a : single) : message :=
  match a with
  | Enable _ | Disable _ | Toggle _ _ | SetField _ _ _ | SetTagField _ _ _ => t "Failed to update channel"
  | Delete _ | DeleteMany _ => t "Failed to delete channel"
  | Copy _ _ => t "Failed to copy channel"
  | QueryBalance _ => t "Failed to update balance"
  | TagMany _ _ => t "Failed to set tag"
  | EnableTag _ => t "Failed to enable tag channels"
  | DisableTag _ => t "Failed to disable tag channels"
  | DeleteDisabled => t "Failed to delete disabled channels"
  | FixAbilities => t "Failed to fix abilities"
  | TestAll => t "Failed to start testing all channels"
  | UpdateBalances => t "Failed to update all balances"
  end.

(** The text for an exception: the same, but for the balance, which shows the exception's, and
    for the test of all channels, which has another. *)
Definition exception_text (a : single) (e : error) : message :=
  match a with
  | QueryBalance _ => Server (VStr (message_of e))
  | TestAll => t "Failed to test all channels"
  | _ => refusal_text a
  end.

(** The one message: of success, the server's reason or the text for its refusal, or the text
    for an exception, thrown by the network client or by the reading of an empty body. *)
Definition says (a : single) (r : reply) : message :=
  match r with
  | Answer data =>
      if nullish data then exception_text a (TypeError null_message)
      else if succeeds a r then success_text a data
      else let reason := prop (js "message") data in if truthy reason then Server reason else refusal_text a
  | Failure response m => exception_text a (Network response m)
  end.

Definition told_of (a : single) (r : reply) : jsval :=
  match r with Answer data => tells a data | Failure _ _ => VUndef end.

(** The whole of what an action does: the request, the message, and after a success the
    refresh of the table and the callback, with all that does. *)
Definition report (c : api_call) (ok : bool) (m : message) (v : jsval) (onSuccess : option (jsval -> act unit))
  : list did :=
  Asked c :: Toast ok m
  :: (if ok then (if queryClient then [Invalidated] else [])
                 ++ (match onSuccess with Some f => Told v :: fst (f v) | None => [] end)
      else []).

(** A callback that does its work and returns. *)
Definition returns (onSuccess : option (jsval -> act unit)) : Prop :=
  match onSuccess with Some f => forall v, snd (f v) = inr tt | None => True end.

Lemma success_spec data :
  success null_message data
  = if nullish data then ([], inl (TypeError null_message)) else ([], inr (truthy (prop (js "success") data))).
Proof. unfold success, field, throw. by destruct (nullish data). Qed.

(** An action keeps the contract of [a] when its request and its texts are those of [a]. *)
Lemma action_reports a c good more said value refused failed onSuccess r :
  returns onSuccess ->
  (forall data, good data = if nullish data then ([], inl (TypeError null_message))
                            else ([], inr (truthy (prop (js "success") data) && more data))) ->
  (forall r, succeeds a r = answers_with more r) -> c = asks a ->
  (forall data, said data = success_text a data) -> (forall data, value data = tells a data) ->
  refused = refusal_text a -> (forall e, failed e = exception_text a e) ->
  action queryClient c good said value refused failed onSuccess r
  = (report (asks a) (succeeds a r) (says a r) (told_of a r) onSuccess, inr tt).
Proof.
  intros Hf Hg Hm -> Hs Hv -> Hx. unfold action, try_catch. rewrite Hm.
  destruct r as [data|response e]; [|by cbn; rewrite Hx].
  unfold says. rewrite Hm. cbn [answers_with told_of]. unfold ask, mbind, act_bind. cbn [fst snd]. rewrite Hg.
  destruct (nullish data) eqn:En; cbn [fst snd].
  { rewrite Hx. by destruct data. }
  destruct (truthy (prop (js "success") data) && more data); cbn [fst snd]; [|done].
  rewrite Hs, Hv. unfold report, invalidate, notify.
  destruct onSuccess as [f|]; [|by destruct queryClient].
  unfold mbind, act_bind. cbn. rewrite Hf. by destruct queryClient.
Qed.

Lemma plain_success data :
  success null_message data
  = if nullish data then ([], inl (TypeError null_message))
    else ([], inr (truthy (prop (js "success") data) && true)).
Proof. rewrite success_spec. by rewrite andb_true_r. Qed.

Lemma and_success data more :
  (ok ← success null_message data; mret (ok && more data))
  = if nullish data then ([], inl (TypeError null_message))
    else ([], inr (truthy (prop (js "success") data) && more data)).
Proof. unfold mbind, act_bind. rewrite success_spec. by destruct (nullish data). Qed.

(** The client shows nothing of its own for these requests. *)
Lemma channel_requests_silent c local r m : ToastError m ∉ intercept (config (request_of c local)) r.
Proof.
  destruct r as [data|response e]; cbn [intercept].
  - unfold on_response. cbn. intros H. by apply elem_of_nil in H.
  - unfold on_error. cbn. intros H. case_match; [by apply list_elem_of_singleton in H|by apply elem_of_nil in H].
Qed.

(** The conditions of [action_reports], for a toggle under the status of the channel. *)
Ltac keeps_contract extra :=
  apply action_reports with (more := extra);
  [ assumption | first [apply plain_success | intros; apply (and_success _ extra)] | reflexivity
  | unfold asks; repeat match goal with H : neqb _ _ = _ |- _ => rewrite H end; reflexivity
  | intros; unfold success_text; repeat match goal with H : neqb _ _ = _ |- _ => rewrite H end; reflexivity
  | reflexivity | reflexivity | reflexivity ].


(** A callback that throws makes the action report a failure after it has reported the
    success. *)
Theorem throwing_callback_reports_failure id f e data :
  nullish data = false -> truthy (prop (js "success") data) = true -> (forall v, f v = ([], inl e)) ->
  exists log, handleDeleteChannel queryClient null_message id (Some f) (Answer data)
    = (log ++ [Toast false (t "Failed to delete channel")], inr tt)
  /\ Toast true (t "Channel deleted successfully") ∈ log.
Proof.
  intros Hn Hs Hf.
  exists (Asked (deleteChannel id) :: Toast true (t "Channel deleted successfully")
          :: (if queryClient then [Invalidated] else []) ++ [Told VUndef]).
  split; [|right; left].
  unfold handleDeleteChannel, plain, action, try_catch, ask, mbind, act_bind. cbn [fst snd].
  rewrite success_spec, Hn, Hs. unfold notify, mbind, act_bind, invalidate.
  destruct queryClient; cbn; by rewrite Hf.
Qed.

(** *** Several requests *)

Definition succeeded : reply -> bool := answers_with (fun _ => true).

(** A body that is not null, or no answer at all. *)
Definition proper (r : reply) : Prop :=
  match r with Answer data => nullish data = false | Failure _ _ => True end.

Lemma count_spec results :
  Forall proper results ->
  count_successes null_message results = ([], inr (length (filterb succeeded results))).
Proof.
  induction 1 as [|r results Hr _ IH]; [done|]. cbn [count_successes filterb].
  destruct r as [data|response e]; [|exact IH]. unfold mbind, act_bind. rewrite success_spec, Hr. cbn [fst snd].
  rewrite IH. cbn [fst snd succeeded answers_with]. rewrite andb_true_r. by destruct (truthy _).
Qed.

Lemma filterb_length {A} (f : A -> bool) l : (length (filterb f l) <= length l)%nat.
Proof. apply sublist_length, filterb_sublist. Qed.

(** The messages of a batch of which [k] succeeded. *)
Definition batch_report (done failed : message) (k rest : nat) (onSuccess : option (jsval -> act unit)) : list did :=
  (if (0 <? k)%nat
   then Toast true done :: (if queryClient then [Invalidated] else [])
        ++ (match onSuccess with Some f => Told VUndef :: fst (f VUndef) | None => [] end)
   else [])
  ++ (if (0 <? rest)%nat then [Toast false failed] else []).

Lemma batch_status_report n done failed broken ids onSuccess results k :
  ids <> [] -> length results = length ids -> returns onSuccess ->
  count_successes null_message results = ([], inr k) ->
  batch_status queryClient null_message n done failed broken ids onSuccess results
  = (((fun id => Asked (updateChannel id (with_status n))) <$> ids)
     ++ batch_report (count_message done k) (count_message failed (length ids - k)) k (length ids - k) onSuccess,
     inr tt).
Proof.
  intros Hne Hl Hf Hk. unfold batch_status, batch_report. rewrite Hl.
  rewrite (proj2 (Nat.eqb_neq (length ids) 0)) by (by destruct ids).
  unfold try_catch, mbind, act_bind. cbn [fst snd]. rewrite Hk. cbn [fst snd].
  unfold notify, invalidate, mbind, act_bind, toast_success, toast_error, tell, mret, act_ret.
  destruct (0 <? k)%nat; destruct (0 <? length ids - k)%nat; destruct onSuccess as [f|]; destruct queryClient;
    cbn [fst snd app]; rewrite ?Hf; cbn [fst snd app]; by rewrite ?app_nil_r.
Qed.

(** What switching several channels on or off does: all are asked; one message counts those
    the server switched, with a refresh and the callback, and one those it did not; each is
    shown only when it counts something, and the two counts add up to the channels selected. *)
Theorem batch_counts_exact ids onSuccess results :
  ids <> [] -> length results = length ids -> Forall proper results -> returns onSuccess ->
  exists k rest, k = length (filterb succeeded results) /\ (k + rest)%nat = length ids
  /\ handleBatchEnable queryClient null_message ids onSuccess results
     = (((fun id => Asked (updateChannel id (with_status 1))) <$> ids)
        ++ batch_report (count_message "{{count}} channel(s) enabled" k)
             (count_message "{{count}} channel(s) failed to enable" rest) k rest onSuccess, inr tt)
  /\ handleBatchDisable queryClient null_message ids onSuccess results
     = (((fun id => Asked (updateChannel id (with_status 2))) <$> ids)
        ++ batch_report (count_message "{{count}} channel(s) disabled" k)
             (count_message "{{count}} channel(s) failed to disable" rest) k rest onSuccess, inr tt).
Proof.
  intros Hne Hl Hp Hf. exists (length (filterb succeeded results)), (length ids - length (filterb succeeded results))%nat.
  pose proof (filterb_length succeeded results) as Hk. pose proof (count_spec results Hp) as Hc.
  split; [done|]. split; [lia|].
  unfold handleBatchEnable, handleBatchDisable. split; apply batch_status_report; assumption || reflexivity.
Qed.

(** A null body among the answers hides what the others did: the counts are lost, the table
    is not refreshed. *)
Theorem null_body_hides_batch ids onSuccess r1 r2 data :
  ids <> [] -> Forall proper r1 -> nullish data = true ->
  handleBatchEnable queryClient null_message ids onSuccess (r1 ++ Answer data :: r2)
  = (((fun id => Asked (updateChannel id (with_status 1))) <$> ids)
     ++ [Toast false (t "Failed to enable channels")], inr tt).
Proof.
  intros Hne Hp Hd.
  assert (H : count_successes null_message (r1 ++ Answer data :: r2) = ([], inl (TypeError null_message))).
  { clear Hne. induction Hp as [|r r1 Hr _ IH]; cbn [app count_successes].
    - unfold mbind, act_bind. by rewrite success_spec, Hd.
    - destruct r as [d|response e]; [|exact IH]. unfold mbind, act_bind. rewrite success_spec, Hr. cbn [fst snd].
      by rewrite IH. }
  unfold handleBatchEnable, batch_status. rewrite (proj2 (Nat.eqb_neq (length ids) 0)) by (by destruct ids).
  unfold try_catch, mbind, act_bind. cbn [fst snd]. rewrite H. cbn. by rewrite app_nil_r.
Qed.
End Reports.

(** ** Theorems: the test of a channel *)

Section Test.
Context (null_message : jsstr).

(** What the callback of a test is called with, by the answer. *)
Definition test_outcome (r : reply) : TestOutcome :=
  let threw (message : jsval) :=
    {| o_success := false; o_time := VUndef; o_error := vor message (VStr (js "Failed to test channel"));
       o_code := VUndef |} in
  match r with
  | Answer data =>
      if nullish data then threw VUndef
      else if truthy (prop (js "success") data)
      then {| o_success := true; o_time := prop (js "response_time") (prop (js "data") data);
              o_error := VUndef; o_code := VUndef |}
      else {| o_success := false; o_time := VUndef; o_error := prop (js "message") data;
              o_code := prop (js "error_code") data |}
  | Failure response _ =>
      threw (match response with Some (_, data) => prop (js "message") data | None => VUndef end)
  end.

(** A test ends with one call of its callback, if that does not throw, after one message
    where it is not silent. *)
Lemma test_completes_once id options f r :
  (forall o, snd (f o) = inr tt) ->
  exists m, handleTestChannel null_message id options f r
  = (Asked (testChannel id (test_payload options))
     :: (if is_silent options then [] else [Toast (o_success (test_outcome r)) m])
     ++ fst (f (test_outcome r)), inr tt).
Proof.
  intros Hf.
  assert (Hs : forall o, f o = (fst (f o), inr tt)).
  { intros o. rewrite <- (Hf o). by destruct (f o). }
  unfold handleTestChannel, try_catch, ask, mbind, act_bind, toast_success, toast_error, tell, mret, act_ret.
  destruct r as [data|response e]; cbn [fst snd test_outcome].
  - rewrite success_spec. destruct (nullish data) eqn:En; cbn [fst snd].
    + eexists. cbn [server_message]. destruct (is_silent options); cbn [negb fst snd app]; by rewrite Hs.
    + destruct (truthy (prop (js "success") data)); cbn [fst snd]; eexists;
        destruct (is_silent options); cbn [negb fst snd app]; by rewrite Hs.
  - destruct response as [[s data]|]; cbn [server_message]; eexists;
      destruct (is_silent options); cbn [negb fst snd app]; by rewrite Hs.
Qed.

(** The server's answer to a successful test: [time] is the time it took in seconds. *)
Definition test_answer (time : num) : jsval :=
  VObj (obj_of [(js "success", VBool true); (js "message", VStr []); (js "time", VNum time)]).

(** The time of a test is never shown: it is read from a field the server does not send, so
    that whatever time the test took, the callback is told of none. *)
Theorem test_time_is_lost id options time :
  exists log, handleTestChannel null_message id options (fun o => tell (Completed o)) (Answer (test_answer time))
    = (log ++ [Completed {| o_success := true; o_time := VUndef; o_error := VUndef; o_code := VUndef |}], inr tt).
Proof.
  destruct (test_completes_once id options (fun o => tell (Completed o)) (Answer (test_answer time)))
    as [m E]; [done|].
  rewrite E. exists (Asked (testChannel id (test_payload options))
                     :: (if is_silent options then [] else [Toast true m])).
  by destruct (is_silent options).
Qed.
End Test.

(** ** Witnesses *)

Definition ok_data : jsval := VObj (obj_of [(js "success", VBool true)]).


(** Of three channels, two are switched. *)
Lemma batch_counts_exact_witness :
  exists k rest log, k = 2%nat /\ rest = 1%nat
  /\ handleBatchEnable true [] (num_of_Z <$> [1; 2; 3]%Z) None [Answer ok_data; Failure None []; Answer ok_data]
     = (log ++ batch_report true (count_message "{{count}} channel(s) enabled" k)
                 (count_message "{{count}} channel(s) failed to enable" rest) k rest None, inr tt).
Proof.
  destruct (batch_counts_exact true [] (num_of_Z <$> [1; 2; 3]%Z) None
              [Answer ok_data; Failure None []; Answer ok_data]) as (k & rest & Hk & Hr & E & _);
    [done|done|by repeat constructor|done|].
  assert (Hk2 : k = 2%nat) by (rewrite Hk; by vm_compute).
  exists k, rest. eexists. split; [exact Hk2|]. split; [rewrite Hk2 in Hr; cbn in Hr; lia|exact E].
Defined.
