(* ===== verification/ChannelTest.v ===== *)
(** * The test dialog of a channel ([features/channels/components/dialogs/channel-test-dialog.tsx])

    The dialog tests the models of a channel, one at a time or several at once.  A test is a
    function that waits for the answer of its request ([ChannelActions.handleTestChannel]);
    any number of tests may wait, and their answers arrive in any order, also after the
    dialog was closed.  The table library gives rows their positions as names. *)

From stdpp Require Import gmap.
From S2P Require Import Prelude JsString JsRegex JsNumber JsValue JsJson JsMap WebStorage ApiClient ChannelRows ChannelActions.

(** ** How a failure is shown *)

Definition MODEL_PRICE_ERROR_CODE : jsstr := js "model_price_error".
Definition FAILURE_SUMMARY_MAX_LENGTH : nat := 96.

Definition normalizeInlineError (errorText : jsstr) : jsstr :=
  trim (replace_all (re "\s+") (js " ") errorText).

(** A carriage return before the end of a line is white space, which [trim] removes. *)
Definition getFirstErrorLine (errorText : jsstr) : option jsstr :=
  find truthy_str (trim <$> split_char 10 errorText).

Definition truncateFailureSummary (summary : jsstr) : jsstr :=
  if (length summary <=? FAILURE_SUMMARY_MAX_LENGTH)%nat then summary
  else trim_end (take FAILURE_SUMMARY_MAX_LENGTH summary) ++ js "...".

Record FailureStatusDisplay := { summary : jsstr; details : option jsstr }.

Definition getFailureStatusDisplay (errorText : option jsstr) (fallbackSummary : jsstr)
    (isModelPriceError : bool) (modelPriceSummary : jsstr) : FailureStatusDisplay :=
  let rawError := trim (default [] errorText) in
  if negb (truthy_str rawError) then {| summary := fallbackSummary; details := None |}
  else if isModelPriceError
  then {| summary := modelPriceSummary;
          details := if bool_decide (rawError = modelPriceSummary) then None else Some rawError |}
  else
    let firstLine := default rawError (getFirstErrorLine rawError) in
    let s := truncateFailureSummary (normalizeInlineError firstLine) in
    {| summary := s;
       details := if bool_decide (s = normalizeInlineError rawError) then None else Some rawError |}.

(** ** The state of the dialog *)

Inductive TestStatus := Idle | Testing | Success | Error.

#[export] Instance TestStatus_eq_dec : EqDecision TestStatus.
Proof. solve_decision. Defined.

Record TestResult := { status : TestStatus; responseTime : jsval; error_ : jsval; errorCode : jsval }.

Definition testing : TestResult :=
  {| status := Testing; responseTime := VUndef; error_ := VUndef; errorCode := VUndef |}.

Definition result_of (o : TestOutcome) : TestResult :=
  {| status := if o_success o then Success else Error; responseTime := o_time o; error_ := o_error o;
     errorCode := o_code o |}.

(** The sheet with the details of a failure. *)
Record FailureDetails := { f_model : jsstr; f_summary : jsstr; f_details : jsstr }.

Record Dialog := {
  endpointType : jsstr;
  isStreamTest : bool;
  searchTerm : jsstr;
  testResults : gmap jsstr TestResult;
  rowSelection : gset nat;
  testingModels : gset jsstr;
  isBatchTesting : bool;
  failureDetails : option FailureDetails;
  pageIndex : nat;
  pageSize : nat }.

(** [resetState], which also gives the first state *)
Definition resetState : Dialog :=
  {| endpointType := js "auto"; isStreamTest := false; searchTerm := []; testResults := ∅; rowSelection := ∅;
     testingModels := ∅; isBatchTesting := false; failureDetails := None; pageIndex := 0; pageSize := 10 |}.

Definition set_endpoint (v : jsstr) (d : Dialog) : Dialog :=
  {| endpointType := v; isStreamTest := isStreamTest d; searchTerm := searchTerm d; testResults := testResults d;
     rowSelection := rowSelection d; testingModels := testingModels d; isBatchTesting := isBatchTesting d;
     failureDetails := failureDetails d; pageIndex := pageIndex d; pageSize := pageSize d |}.

Definition set_stream (b : bool) (d : Dialog) : Dialog :=
  {| endpointType := endpointType d; isStreamTest := b; searchTerm := searchTerm d; testResults := testResults d;
     rowSelection := rowSelection d; testingModels := testingModels d; isBatchTesting := isBatchTesting d;
     failureDetails := failureDetails d; pageIndex := pageIndex d; pageSize := pageSize d |}.

(** A new search text, with the effect that goes back to the first page. *)
Definition set_search (s : jsstr) (d : Dialog) : Dialog :=
  {| endpointType := endpointType d; isStreamTest := isStreamTest d; searchTerm := s; testResults := testResults d;
     rowSelection := rowSelection d; testingModels := testingModels d; isBatchTesting := isBatchTesting d;
     failureDetails := failureDetails d;
     pageIndex := if bool_decide (s = searchTerm d) then pageIndex d else 0; pageSize := pageSize d |}.

Definition set_page (i n : nat) (d : Dialog) : Dialog :=
  {| endpointType := endpointType d; isStreamTest := isStreamTest d; searchTerm := searchTerm d;
     testResults := testResults d; rowSelection := rowSelection d; testingModels := testingModels d;
     isBatchTesting := isBatchTesting d; failureDetails := failureDetails d; pageIndex := i; pageSize := n |}.

Definition select (sel : gset nat) (d : Dialog) : Dialog :=
  {| endpointType := endpointType d; isStreamTest := isStreamTest d; searchTerm := searchTerm d;
     testResults := testResults d; rowSelection := sel; testingModels := testingModels d;
     isBatchTesting := isBatchTesting d; failureDetails := failureDetails d; pageIndex := pageIndex d;
     pageSize := pageSize d |}.

Definition set_batch (b : bool) (d : Dialog) : Dialog :=
  {| endpointType := endpointType d; isStreamTest := isStreamTest d; searchTerm := searchTerm d;
     testResults := testResults d; rowSelection := rowSelection d; testingModels := testingModels d;
     isBatchTesting := b; failureDetails := failureDetails d; pageIndex := pageIndex d; pageSize := pageSize d |}.

Definition set_details (f : option FailureDetails) (d : Dialog) : Dialog :=
  {| endpointType := endpointType d; isStreamTest := isStreamTest d; searchTerm := searchTerm d;
     testResults := testResults d; rowSelection := rowSelection d; testingModels := testingModels d;
     isBatchTesting := isBatchTesting d; failureDetails := f; pageIndex := pageIndex d; pageSize := pageSize d |}.

Definition markModelTesting (key : jsstr) (isTesting : bool) (d : Dialog) : Dialog :=
  {| endpointType := endpointType d; isStreamTest := isStreamTest d; searchTerm := searchTerm d;
     testResults := testResults d; rowSelection := rowSelection d;
     testingModels := if isTesting then {[ key ]} ∪ testingModels d else testingModels d ∖ {[ key ]};
     isBatchTesting := isBatchTesting d; failureDetails := failureDetails d; pageIndex := pageIndex d;
     pageSize := pageSize d |}.

Definition updateTestResult (key : jsstr) (r : TestResult) (d : Dialog) : Dialog :=
  {| endpointType := endpointType d; isStreamTest := isStreamTest d; searchTerm := searchTerm d;
     testResults := <[ key := r ]> (testResults d); rowSelection := rowSelection d;
     testingModels := testingModels d; isBatchTesting := isBatchTesting d;
     failureDetails := match failureDetails d with
                       | Some f => if bool_decide (f_model f = key) then None else Some f
                       | None => None
                       end;
     pageIndex := pageIndex d; pageSize := pageSize d |}.

(** ** What is shown *)

Definition STREAM_INCOMPATIBLE_ENDPOINTS : list jsstr :=
  [js "embeddings"; js "image-generation"; js "jina-rerank"; js "openai-response-compact"].

Definition streamDisabled (d : Dialog) : bool := bool_decide (endpointType d ∈ STREAM_INCOMPATIBLE_ENDPOINTS).

(** The effect on [streamDisabled]. *)
Definition stream_effect (d : Dialog) : Dialog := if streamDisabled d then set_stream false d else d.

(** The channel the dialog is for. *)
Record Row := { row_id : num; row_models : jsstr }.

Definition models (r : Row) : list jsstr :=
  if negb (truthy_str (row_models r)) then [] else filter_truthy (trim <$> split_char 44 (row_models r)).

Definition filteredModels (r : Row) (d : Dialog) : list jsstr :=
  if negb (truthy_str (searchTerm d)) then models r
  else filterb (fun m => includes (to_lower (searchTerm d)) (to_lower m)) (models r).

(** The models of the selected rows. *)
Definition selectedModels (r : Row) (d : Dialog) : list jsstr :=
  snd <$> filterb (fun im => bool_decide (fst im ∈ rowSelection d)) (imap pair (filteredModels r d)).

Definition isAnyTesting (d : Dialog) : bool :=
  negb (bool_decide (testingModels d = ∅)) || isBatchTesting d.

(** *** The cell with the status of a model *)

Inductive Cell :=
  | NotTested
  | BeingTested
  | Succeeded (time : option jsstr)
  | Failed (summary : jsstr) (to_settings : bool) (details : option FailureDetails).

(** [t] of the two fixed texts; [result.error?.trim()] throws where the server's message is
    neither a text nor absent. *)
Definition FailureStatusContent (tr : jsstr -> jsstr) (result : TestResult) (model : jsstr) : outcome Cell :=
  let cell (errorText : option jsstr) :=
    let isModelPriceError := match errorCode result with
                             | VStr c => bool_decide (c = MODEL_PRICE_ERROR_CODE)
                             | _ => false
                             end in
    let d := getFailureStatusDisplay errorText (tr (js "Test failed")) isModelPriceError
               (tr (js "Model price is not configured. Please complete model pricing in settings.")) in
    Failed (summary d) isModelPriceError
      ((fun x => {| f_model := model; f_summary := summary d; f_details := x |}) <$> details d) in
  match error_ result with
  | VStr s => Return (cell (Some (trim s)))
  | v => if nullish v then Return (cell None) else Throw
  end.

Definition TestStatusCell (tr : jsstr -> jsstr) (result : option TestResult)
    (model : jsstr) : outcome Cell :=
  match result with
  | None => Return NotTested
  | Some r =>
      match status r with
      | Idle => Return NotTested
      | Testing => Return BeingTested
      | Success => Return (Succeeded (match responseTime r with VNum n => Some (formatResponseTime n) | _ => None end))
      | Error => FailureStatusContent tr r model
      end
  end.

(** ** Tests *)

(** A test that waits for its answer: the channel and model, the options of its request, and
    the batch it belongs to. *)
Record Test := { t_channel : num; t_model : jsstr; t_options : TestOptions; t_batch : option nat }.

(** A batch: the number of its tests, and the results of those that ended. *)
Record Batch := { b_size : nat; b_results : list TestResult }.

Definition test_options (model : jsstr) (is_silent : bool) (d : Dialog) : TestOptions :=
  {| testModel := model;
     ChannelActions.endpointType := if bool_decide (endpointType d = js "auto") then [] else endpointType d;
     stream := isStreamTest d; silent := is_silent |}.

(** The dialog with all that waits; [said] holds the messages, oldest first. *)
Record Sys := {
  dialog : Dialog; is_open : bool; row : option Row; tests : list (nat * Test);
  batches : list (nat * Batch); next : nat; said : list (bool * message) }.

Definition initial : Sys :=
  {| dialog := resetState; is_open := false; row := None; tests := []; batches := []; next := 0; said := [] |}.

Definition with_dialog (d : Dialog) (s : Sys) : Sys :=
  {| dialog := d; is_open := is_open s; row := row s; tests := tests s; batches := batches s; next := next s;
     said := said s |}.

(** [testSingleModel], up to its request. *)
Definition start_test (r : Row) (is_silent : bool) (batch : option nat) (s : Sys) (model : jsstr) : Sys :=
  let d := dialog s in
  {| dialog := updateTestResult model testing (markModelTesting model true d); is_open := is_open s;
     row := row s;
     tests := tests s ++ [(next s, {| t_channel := row_id r; t_model := model;
                                      t_options := test_options model is_silent d; t_batch := batch |})];
     batches := batches s; next := S (next s); said := said s |}.

(** [handleBatchTest], up to [Promise.allSettled]. *)
Definition start_batch (r : Row) (ms : list jsstr) (s : Sys) : Sys :=
  let b := next s in
  let s' := {| dialog := set_batch true (dialog s); is_open := is_open s; row := row s; tests := tests s;
               batches := batches s ++ [(b, {| b_size := length ms; b_results := [] |})];
               next := S b; said := said s |} in
  fold_left (start_test r true (Some b)) ms s'.

Section Run.
Context (null_message : jsstr).

(** What the log of [handleTestChannel] holds: results for the dialog, and messages. *)
Definition deliver (model : jsstr) (d : Dialog) (e : did) : Dialog :=
  match e with Completed o => updateTestResult model (result_of o) d | _ => d end.

Definition outcomes (log : list did) : list TestResult :=
  omap (fun e => match e with Completed o => Some (result_of o) | _ => None end) log.

Definition messages (log : list did) : list (bool * message) :=
  omap (fun e => match e with Toast ok m => Some (ok, m) | _ => None end) log.

(** The rest of [testSingleModel] once the answer is there: the state, the messages, and
    [finalResult]. *)
Definition finish_test (t : Test) (a : reply) (d : Dialog) : Dialog * list (bool * message) * option TestResult :=
  let '(log, out) := handleTestChannel null_message (t_channel t) (Some (t_options t))
                       (fun o => tell (Completed o)) a in
  let d1 := fold_left (deliver (t_model t)) log d in
  let '(d2, final) :=
    match out with
    | inr _ => (d1, last (outcomes log))
    | inl e =>
        let r := {| status := Error; responseTime := VUndef; error_ := VStr (message_of e); errorCode := VUndef |} in
        (updateTestResult (t_model t) r d1, Some r)
    end in
  (markModelTesting (t_model t) false d2, messages log, final).

Definition add_result (r : option TestResult) (b : Batch) : Batch :=
  {| b_size := b_size b; b_results := b_results b ++ match r with Some r => [r] | None => [] end |}.

Definition find_test (pid : nat) (s : Sys) : option Test :=
  snd <$> find (fun p => bool_decide (fst p = pid)) (tests s).

Definition answer (pid : nat) (a : reply) (s : Sys) : option Sys :=
  t ← find_test pid s;
  let '(d, ms, final) := finish_test t a (dialog s) in
  Some {| dialog := d; is_open := is_open s; row := row s;
          tests := filterb (fun p => negb (bool_decide (fst p = pid))) (tests s);
          batches := match t_batch t with
                     | Some b => (fun p => if bool_decide (fst p = b) then (b, add_result final (snd p)) else p)
                                 <$> batches s
                     | None => batches s
                     end;
          next := next s; said := said s ++ ms |}.

(** The message of a batch that has ended. *)
Definition batch_message (modelsToTest : nat) (results : list TestResult) : bool * message :=
  let successCount := length (filterb (fun r => bool_decide (status r = Success)) results) in
  let failedCount := (modelsToTest - successCount)%nat in
  let n k := VNum (num_of_Z (Z.of_nat k)) in
  if (0 <? failedCount)%nat
  then (false, T (js "Batch test completed: {{success}} succeeded, {{failed}} failed")
                 [(js "success", n successCount); (js "failed", n failedCount)])
  else (true, T (js "Batch test completed: {{count}} succeeded") [(js "count", n successCount)]).

(** The rest of [handleBatchTest], when none of its tests waits any more. *)
Definition finish_batch (b : nat) (s : Sys) : option Sys :=
  p ← find (fun p => bool_decide (fst p = b)) (batches s);
  if existsb (fun p => bool_decide (t_batch (snd p) = Some b)) (tests s) then None
  else Some {| dialog := select ∅ (set_batch false (dialog s)); is_open := is_open s; row := row s;
               tests := tests s; batches := filterb (fun p => negb (bool_decide (fst p = b))) (batches s);
               next := next s; said := said s ++ [batch_message (b_size (snd p)) (b_results (snd p))] |}.

(** *** Events *)

(** A row's menu opens the dialog; a control that is disabled or not shown does nothing.
    [Select] gives the positions the table library makes of a click on a checkbox. *)
Inductive event :=
  | Open (r : Row)
  | Close
  | Endpoint (v : jsstr)
  | Stream (b : bool)
  | Search (v : jsstr)
  | Page (i n : nat)
  | Select (sel : gset nat)
  | TestOne (m : jsstr)
  | TestSelected
  | Answered (pid : nat) (a : reply)
  | BatchEnds (b : nat)
  | Details (f : option FailureDetails).

(** [resetState] runs when the dialog opens, or shows another channel; other models of the
    same channel go back to the first page. *)
Definition open_for (r : Row) (s : Sys) : Sys :=
  let d := dialog s in
  let same r' := is_open s && neqb (row_id r') (row_id r) in
  {| dialog := match row s with
               | Some r' =>
                   if same r'
                   then if bool_decide (row_models r' = row_models r) then d else set_page 0 (pageSize d) d
                   else resetState
               | None => resetState
               end;
     is_open := true; row := Some r; tests := tests s; batches := batches s; next := next s; said := said s |}.

Definition close (s : Sys) : Sys :=
  {| dialog := resetState; is_open := false; row := row s; tests := tests s; batches := batches s;
     next := next s; said := said s |}.

Definition step (s : Sys) (e : event) : option Sys :=
  let d := dialog s in
  let shown (f : Row -> option Sys) := if is_open s then row s ≫= f else None in
  match e with
  | Open r => Some (open_for r s)
  | Close => shown (fun _ => Some (close s))
  | Endpoint v => shown (fun _ => Some (with_dialog (stream_effect (set_endpoint v d)) s))
  | Stream b => shown (fun _ => if streamDisabled d then None else Some (with_dialog (set_stream b d) s))
  | Search v => shown (fun _ => Some (with_dialog (set_search v d) s))
  | Page i n => shown (fun _ => Some (with_dialog (set_page i n d) s))
  | Select sel => shown (fun _ => Some (with_dialog (select sel d) s))
  | TestOne m =>
      shown (fun r => if bool_decide (m ∈ filteredModels r d) && negb (bool_decide (m ∈ testingModels d))
                         && negb (isBatchTesting d)
                      then Some (start_test r false None s m) else None)
  | TestSelected =>
      shown (fun r => if negb (isAnyTesting d) && negb (bool_decide (selectedModels r d = []))
                      then Some (start_batch r (selectedModels r d) s) else None)
  | Answered pid a => answer pid a s
  | BatchEnds b => finish_batch b s
  | Details f => shown (fun _ => Some (with_dialog (set_details f d) s))
  end.

Fixpoint run (s : Sys) (es : list event) : option Sys :=
  match es with
  | [] => Some s
  | e :: es => s' ← step s e; run s' es
  end.

End Run.

(** *** A batch and the network client *)

(** The request of a test, as [api.get] is called with it. *)
Definition test_read (t : Test) : jsstr * ApiRequestConfig :=
  let c := testChannel (t_channel t) (test_payload (Some (t_options t))) in
  (c_url c, channelActionConfig (with_params (c_params c) no_config)).

Definition test_key (t : Test) : jsstr := get_key (fst (test_read t)) (snd (test_read t)).

(** The requests of tests started one after the other. *)
Fixpoint send_tests (local : option storage) (ts : list Test) (st : Client) : list nat * Client :=
  match ts with
  | [] => ([], st)
  | t :: ts =>
      let '(p, st1) := get (fst (test_read t)) (snd (test_read t)) local st in
      let '(ps, st2) := send_tests local ts st1 in
      (p :: ps, st2)
  end.

Definition test_sent (local : option storage) (t : Test) : Request * phase :=
  ({| method := GET; url := fst (test_read t); body := VUndef; config := snd (test_read t);
      user := user_header local |}, Sent).

(** ** Theorems: failures *)

Lemma trim_end_length s : (length (trim_end s) <= length s)%nat.
Proof. unfold trim_end. rewrite length_reverse. etrans; [apply drop_ws_length|]. by rewrite length_reverse. Qed.

(** The summary of a failure is short, and nothing of the error is lost: at most 96 units and
    three dots are shown in the table, and where this is not the whole text on one line, the
    whole text is in the details. *)
Theorem failure_summary_short errorText fallbackSummary modelPriceSummary :
  let rawError := trim (default [] errorText) in
  let d := getFailureStatusDisplay errorText fallbackSummary false modelPriceSummary in
  rawError <> [] ->
  (length (summary d) <= 99)%nat
  /\ (details d = None /\ summary d = normalizeInlineError rawError
      \/ details d = Some rawError /\ summary d <> normalizeInlineError rawError).
Proof.
  intros rawError d H. unfold d, getFailureStatusDisplay. fold rawError.
  rewrite (proj2 (truthy_str_spec rawError) H). cbn [negb summary details].
  set (n := normalizeInlineError (default rawError _)). split.
  - unfold truncateFailureSummary, FAILURE_SUMMARY_MAX_LENGTH. destruct (length n <=? 96)%nat eqn:E.
    + apply Nat.leb_le in E. lia.
    + rewrite length_app. pose proof (trim_end_length (take 96 n)) as Ht. rewrite length_take in Ht.
      assert (Hd : length (js "...") = 3%nat) by by vm_compute. rewrite Hd. lia.
  - case_bool_decide as E; [by left|by right].
Qed.

(** The details a failure offers hold the model and the whole text of the error. *)
Lemma failed_cell_details tr r model s b f :
  FailureStatusContent tr r model = Return (Failed s b (Some f)) ->
  f_model f = model /\ f_summary f = s /\ exists e, error_ r = VStr e /\ f_details f = trim e.
Proof.
  unfold FailureStatusContent. destruct (error_ r) as [| | | |e| |]; cbn [nullish]; try done.
  set (mp := match errorCode r with VStr _ => _ | _ => _ end).
  set (d := getFailureStatusDisplay _ _ _ _). intros E. injection E as Es Eb Ed.
  destruct (details d) as [x|] eqn:Ex; [|done]. cbn in Ed. injection Ed as <-. split; [done|]. split; [done|].
  exists e. split; [done|]. cbn [f_details]. unfold d, getFailureStatusDisplay in Ex. cbv zeta in Ex.
  change (default [] (Some (trim e))) with (trim e) in Ex.
  rewrite trim_idemp in Ex.
  destruct (negb _); [done|]. destruct mp; cbn [details] in Ex; case_bool_decide; by inversion Ex.
Qed.

(** ** Theorems: tests *)

Section Tests.
Context (null_message : jsstr).

Definition silent_of (t : Test) : bool := silent (t_options t).

(** A test ends by showing the result of its answer and taking its mark away. *)
Lemma finish_test_spec t a d :
  exists m, finish_test null_message t a d
  = (markModelTesting (t_model t) false (updateTestResult (t_model t) (result_of (test_outcome a)) d),
     (if silent_of t then [] else [(o_success (test_outcome a), m)]),
     Some (result_of (test_outcome a))).
Proof.
  destruct (test_completes_once null_message (t_channel t) (Some (t_options t)) (fun o => tell (Completed o)) a)
    as [m E]; [done|].
  exists m. unfold finish_test. rewrite E. unfold silent_of. cbn [is_silent].
  by destruct (silent (t_options t)).
Qed.

Lemma find_by_name {A} (l : list (nat * A)) p x :
  NoDup (fst <$> l) -> (p, x) ∈ l -> find (fun q => bool_decide (fst q = p)) l = Some (p, x).
Proof.
  induction l as [|[q y] l IH]; intros Hn Hin; [by apply elem_of_nil in Hin|].
  apply NoDup_cons in Hn as [Hq Hn]. cbn. apply elem_of_cons in Hin as [[= <- <-]|Hin].
  - by rewrite bool_decide_eq_true_2.
  - rewrite bool_decide_eq_false_2; [by apply IH|]. intros ->. apply Hq, list_elem_of_fmap. by exists (p, x).
Qed.

Lemma remove_by_name {A} (l : list (nat * A)) p x :
  NoDup (fst <$> l) -> (p, x) ∈ l ->
  l ≡ₚ (p, x) :: filterb (fun q => negb (bool_decide (fst q = p))) l.
Proof.
  induction l as [|[q y] l IH]; intros Hn Hin; [by apply elem_of_nil in Hin|].
  apply NoDup_cons in Hn as [Hq Hn]. cbn. apply elem_of_cons in Hin as [[= <- <-]|Hin].
  - rewrite bool_decide_eq_true_2 by done. cbn. rewrite filterb_all; [done|].
    intros [r z] Hr. apply negb_true_iff, bool_decide_eq_false. cbn. intros ->. apply Hq, list_elem_of_fmap.
    by exists (p, z).
  - rewrite bool_decide_eq_false_2; [cbn|by intros ->; apply Hq, list_elem_of_fmap; exists (p, x)].
    rewrite (IH Hn Hin) at 1. apply Permutation_swap.
Qed.

Lemma find_named {A} (l : list (nat * A)) p x :
  snd <$> find (fun q => bool_decide (fst q = p)) l = Some x -> (p, x) ∈ l.
Proof.
  destruct (find _ l) as [[q y]|] eqn:E; [|done]. intros [= ->]. apply find_some in E as [Hin Hq].
  apply bool_decide_eq_true in Hq. cbn in Hq. subst. by apply list_elem_of_In.
Qed.

(** The models whose tests wait. *)
Definition running (s : Sys) : list jsstr := (fun p => t_model (snd p)) <$> tests s.

(** The dialog of [r] while nobody closes it.  [todo] counts the tests a starting batch has
    not started yet. *)
Record consistent (r : Row) (todo : nat) (s : Sys) : Prop := {
  o_shown : is_open s = true /\ row s = Some r;
  o_names : NoDup (fst <$> tests s) /\ Forall (fun p => (fst p < next s)%nat) (tests s);
  o_models : NoDup (running s);
  o_marks : forall m, m ∈ testingModels (dialog s) <-> m ∈ running s;
  o_results : forall m, status <$> testResults (dialog s) !! m = Some Testing <-> m ∈ running s;
  o_batch : match batches s with
            | [] => isBatchTesting (dialog s) = false /\ todo = 0%nat
                    /\ Forall (fun p => t_batch (snd p) = None) (tests s)
            | [(b, B)] => isBatchTesting (dialog s) = true
                    /\ Forall (fun p => t_batch (snd p) = Some b /\ silent_of (snd p) = true) (tests s)
                    /\ (length (b_results B) + length (tests s) + todo)%nat = b_size B
            | _ => False
            end }.

Lemma start_consistent r todo b s m silent' :
  consistent r todo s -> m ∉ running s ->
  match batches s with
  | [] => b = None
  | (b', _) :: _ => b = Some b' /\ silent' = true /\ todo <> 0%nat
  end ->
  consistent r (pred todo) (start_test r silent' b s m)
  /\ running (start_test r silent' b s m) = running s ++ [m].
Proof.
  intros [Hs [Hn Hlt] Hm Hk Hr Hb] Hnot Hmode.
  assert (Hrun : running (start_test r silent' b s m) = running s ++ [m]).
  { unfold running. cbn [start_test tests]. by rewrite fmap_app. }
  split; [|done]. split; rewrite ?Hrun; cbn [start_test dialog is_open row tests batches next].
  - done.
  - split.
    + rewrite fmap_app. apply NoDup_app. split_and!; [done| |apply NoDup_singleton].
      intros p Hp Hq. apply list_elem_of_singleton in Hq. cbn in Hq. subst. apply list_elem_of_fmap in Hp as ([q t] & Hq & Hin).
      rewrite Forall_forall in Hlt. apply Hlt in Hin. cbn in *. lia.
    + apply Forall_app. split; [|apply Forall_singleton; cbn; lia]. eapply Forall_impl; [done|]. cbn. lia.
  - apply NoDup_app. split_and!; [done| |apply NoDup_singleton]. intros x Hx ->%list_elem_of_singleton. done.
  - intros x. cbn [updateTestResult markModelTesting testingModels].
    rewrite elem_of_union, elem_of_singleton, Hk, elem_of_app, list_elem_of_singleton. tauto.
  - intros x. cbn [updateTestResult markModelTesting testResults]. rewrite elem_of_app, list_elem_of_singleton.
    destruct (decide (m = x)) as [->|Hne].
    + rewrite lookup_insert_eq. cbn. tauto.
    + rewrite lookup_insert_ne by done. rewrite Hr. naive_solver.
  - cbn [updateTestResult markModelTesting isBatchTesting].
    destruct (batches s) as [|[b' B] [|]]; [| |done].
    + subst b. destruct Hb as (H1 & -> & H2). split; [done|]. split; [done|]. apply Forall_app. split; [done|].
      by apply Forall_singleton.
    + destruct Hmode as (-> & -> & Ht). destruct Hb as (H1 & H2 & H3). split; [done|]. split.
      * apply Forall_app. split; [done|]. by apply Forall_singleton.
      * rewrite length_app. cbn. lia.
Qed.

Lemma start_many r b ms todo s :
  consistent r (length ms + todo) s -> NoDup ms -> (forall m, m ∈ ms -> m ∉ running s) ->
  match batches s with [] => False | (b', _) :: _ => b = b' end ->
  consistent r todo (fold_left (start_test r true (Some b)) ms s).
Proof.
  revert s; induction ms as [|m ms IH]; intros s Hs Hn Hd Hb; [exact Hs|].
  apply NoDup_cons in Hn as [Hm Hn]. cbn [fold_left].
  destruct (start_consistent r (S (length ms + todo)) (Some b) s m true) as [Hs' Hrun]; [exact Hs|apply Hd; by left| |].
  { destruct (batches s) as [|[b' B] bs]; [done|]. by subst. }
  apply IH; [exact Hs'|done| |done].
  intros x Hx. rewrite Hrun, elem_of_app, list_elem_of_singleton. intros [H| ->]; [|done].
  by apply (Hd x); [right|].
Qed.

Lemma answer_consistent r pid a s s' :
  consistent r 0 s -> answer null_message pid a s = Some s' -> consistent r 0 s'.
Proof.
  intros [Hs [Hn Hlt] Hm Hk Hr Hb] E. unfold answer in E.
  destruct (find_test pid s) as [t|] eqn:Ef; [|done]. apply find_named in Ef. cbn [mbind option_bind] in E.
  destruct (finish_test_spec t a (dialog s)) as [msg Et]. rewrite Et in E. apply (inj Some) in E as <-.
  pose proof (remove_by_name _ _ _ Hn Ef) as Hp. set (rest := filterb _ (tests s)) in *.
  assert (Hrun : running s ≡ₚ t_model t :: ((fun p => t_model (snd p)) <$> rest)).
  { unfold running. by rewrite Hp at 1. }
  assert (Hnot : t_model t ∉ (fun p => t_model (snd p)) <$> rest).
  { rewrite Hrun in Hm. by apply NoDup_cons in Hm as [? _]. }
  split; unfold running; cbn [dialog is_open row tests batches next].
  - done.
  - split.
    + rewrite Hp in Hn. cbn in Hn. by apply NoDup_cons in Hn as [_ ?].
    + rewrite Hp in Hlt. by apply Forall_cons in Hlt as [_ ?].
  - rewrite Hrun in Hm. by apply NoDup_cons in Hm as [_ ?].
  - intros x. cbn [updateTestResult markModelTesting testingModels].
    rewrite elem_of_difference, not_elem_of_singleton, Hk, Hrun, elem_of_cons. naive_solver.
  - intros x. cbn [updateTestResult markModelTesting testResults]. destruct (decide (t_model t = x)) as [<-|Hne].
    + rewrite lookup_insert_eq. cbn. destruct (o_success _); naive_solver.
    + rewrite lookup_insert_ne by done. rewrite Hr, Hrun, elem_of_cons. naive_solver.
  - cbn [updateTestResult markModelTesting isBatchTesting].
    destruct (batches s) as [|[b B] [|]]; [| |done].
    + destruct Hb as (H1 & H2 & H3). rewrite Hp in H3. apply Forall_cons in H3 as [H3 H4]. cbn in H3. rewrite H3. done.
    + destruct Hb as (H1 & H2 & H3). rewrite Hp in H2, H3. apply Forall_cons in H2 as [[H2 _] H4]. cbn in H2.
      rewrite H2. cbn. rewrite bool_decide_eq_true_2 by done. split; [done|]. split; [done|].
      cbn [add_result b_results b_size]. rewrite length_app. cbn in *. lia.
Qed.

Lemma finish_batch_spec r b s s' :
  consistent r 0 s -> finish_batch b s = Some s' ->
  consistent r 0 s' /\ tests s' = [] /\ batches s' = []
  /\ exists B, batches s = [(b, B)] /\ length (b_results B) = b_size B
     /\ said s' = said s ++ [batch_message (b_size B) (b_results B)].
Proof.
  intros [Hs [Hn Hlt] Hm Hk Hr Hb] E. unfold finish_batch in E.
  destruct (batches s) as [|[b' B] [|]] eqn:Eb; [done| |done]. cbn [find fst] in E.
  case_bool_decide as Ebb; [|done]. subst b'. cbn [mbind option_bind snd] in E.
  destruct Hb as (H1 & H2 & H3).
  assert (Ht : tests s = []).
  { destruct (tests s) as [|[p t] ts]; [done|]. cbn in E. apply Forall_cons in H2 as [[H2 _] _]. cbn in H2.
    by rewrite bool_decide_eq_true_2 in E. }
  rewrite Ht in *. cbn [existsb] in E. apply (inj Some) in E as <-. unfold running in *. rewrite Ht in *.
  split; [|by split; [|split; [|exists B; rewrite Nat.add_0_r in H3; cbn in H3; split; [|split; [lia|]]]];
           cbn; rewrite ?bool_decide_eq_true_2].
  split; unfold running; cbn [dialog is_open row tests batches next select set_batch testingModels testResults isBatchTesting];
    rewrite ?Ht; try done.
  cbn. rewrite bool_decide_eq_true_2 by done. done.
Qed.

(** A change of the dialog that leaves tests and results alone. *)
Lemma dialog_consistent r todo s d :
  consistent r todo s -> testingModels d = testingModels (dialog s) -> testResults d = testResults (dialog s) ->
  isBatchTesting d = isBatchTesting (dialog s) -> consistent r todo (with_dialog d s).
Proof.
  intros [H1 H2 H3 H4 H5 H6] Hm Hr Hb.
  split; cbn [with_dialog dialog is_open row tests batches next]; unfold running in *;
    cbn [with_dialog tests]; rewrite ?Hm, ?Hr, ?Hb; done.
Qed.

Lemma snd_imap_pair {A} (f : nat -> nat) (l : list A) : snd <$> imap (fun i x => (f i, x)) l = l.
Proof.
  revert f; induction l as [|x l IH]; intros f; [done|]. cbn. f_equal. apply (IH (f ∘ S)).
Qed.

Lemma selected_sublist r d : selectedModels r d `sublist_of` filteredModels r d.
Proof.
  unfold selectedModels. trans (snd <$> imap pair (filteredModels r d)).
  - apply sublist_map, filterb_sublist.
  - by rewrite (snd_imap_pair id).
Qed.

Lemma selected_no_dup r d : NoDup (models r) -> NoDup (selectedModels r d).
Proof.
  intros H. apply (sublist_no_dup _ (filteredModels r d)); [apply selected_sublist|].
  unfold filteredModels. destruct (negb _); [done|].
  by apply (sublist_no_dup _ (models r)); [apply filterb_sublist|].
Qed.

Lemma not_testing r s :
  consistent r 0 s -> isAnyTesting (dialog s) = false -> tests s = [] /\ batches s = [].
Proof.
  intros [Hs Hn Hm Hk Hr Hb] E. unfold isAnyTesting in E. apply orb_false_iff in E as [E1 E2].
  apply negb_false_iff, bool_decide_eq_true in E1. split.
  - destruct (tests s) as [|[p t] ts] eqn:Et; [done|].
    assert (Hin : t_model t ∈ testingModels (dialog s)) by (apply Hk; unfold running; rewrite Et; by left).
    rewrite E1 in Hin. by apply not_elem_of_empty in Hin.
  - destruct (batches s) as [|[b B] [|]]; [done| |done]. destruct Hb. congruence.
Qed.

Lemma start_batch_consistent r s ms :
  consistent r 0 s -> tests s = [] -> batches s = [] -> NoDup ms -> consistent r 0 (start_batch r ms s).
Proof.
  intros [Hs Hn Hm Hk Hr Hb] Ht Eb Hms. unfold start_batch.
  apply start_many; [| done | |].
  - unfold running in *. rewrite Ht, Eb in *.
    split; unfold running; cbn [dialog is_open row tests batches next set_batch testingModels testResults isBatchTesting];
      rewrite ?Ht, ?Eb; [done|by split; constructor|done|done|done|].
    cbn. split; [done|]. split; [done|]. lia.
  - intros m _. unfold running. cbn [tests]. rewrite Ht. apply not_elem_of_nil.
  - cbn [batches]. by rewrite Eb.
Qed.

(** The dialog of [r], from an opening with nothing waiting, as long as it is not closed. *)
Inductive shown_dialog (r : Row) : Sys -> Prop :=
  | shown_open s : tests s = [] -> batches s = [] -> is_open s = false -> shown_dialog r (open_for r s)
  | shown_step s e s' :
      shown_dialog r s -> match e with Open _ | Close => False | _ => True end ->
      step null_message s e = Some s' -> shown_dialog r s'.

Lemma shown_consistent r s : NoDup (models r) -> shown_dialog r s -> consistent r 0 s.
Proof.
  intros Hd. induction 1 as [s Ht Eb Ho|s e s' _ IH He E].
  - assert (Hd0 : dialog (open_for r s) = resetState).
    { unfold open_for. cbn [dialog]. rewrite Ho. by destruct (row s). }
    split; rewrite ?Hd0; unfold running; cbn [open_for is_open row tests batches next]; rewrite ?Ht, ?Eb.
    + done.
    + by split; constructor.
    + constructor.
    + intros m. cbn. rewrite elem_of_empty, elem_of_nil. done.
    + intros m. cbn. rewrite lookup_empty, elem_of_nil. done.
    + by split_and!; [| |constructor].
  - destruct (o_shown _ _ _ IH) as [Ho Hrow].
    destruct e as [r'| |v|b|v|i n|sel|m| |pid a|b|f]; try done; cbn [step] in E; rewrite ?Ho, ?Hrow in E;
      cbn [mbind option_bind] in E.
    + apply (inj Some) in E as <-. apply dialog_consistent; [done|..]; unfold stream_effect; by case_match.
    + case_match; [done|]. apply (inj Some) in E as <-. by apply dialog_consistent.
    + apply (inj Some) in E as <-. by apply dialog_consistent.
    + apply (inj Some) in E as <-. by apply dialog_consistent.
    + apply (inj Some) in E as <-. by apply dialog_consistent.
    + destruct (_ && _) eqn:Hc; [|done]. apply (inj Some) in E as <-. apply andb_true_iff in Hc as [Hc Hbt].
      apply andb_true_iff in Hc as [_ Hm]. apply negb_true_iff in Hm, Hbt. apply bool_decide_eq_false in Hm.
      rewrite (o_marks _ _ _ IH) in Hm. apply (start_consistent r 0); [done|done|].
      pose proof (o_batch _ _ _ IH) as Hb. destruct (batches s) as [|[b B] [|]]; [done| |done].
      destruct Hb. congruence.
    + destruct (_ && _) eqn:Hc; [|done]. apply (inj Some) in E as <-. apply andb_true_iff in Hc as [Hc _].
      apply negb_true_iff in Hc. destruct (not_testing r s IH Hc) as [Ht Eb].
      apply start_batch_consistent; [done|done|done|by apply selected_no_dup].
    + by eapply answer_consistent.
    + by apply (finish_batch_spec r b s).
    + apply (inj Some) in E as <-. by apply dialog_consistent.
Qed.

(** C9. What the dialog shows as being tested is what is being tested.  In a dialog opened on a
    channel whose list names no model twice, while no test waited, and neither closed nor
    opened again since, however tests, batches, answers and the other controls follow each
    other: each model is tested once at a time; its button is off and its row says so exactly
    while its test waits for an answer; and the dialog is testing several exactly while a batch
    has not ended, all of whose tests are those that wait or have left a result.  (A dialog
    closed during a test and opened again does not show that test.) *)
Theorem testing_is_exact r s :
  NoDup (models r) -> shown_dialog r s ->
  NoDup (running s)
  /\ (forall m, m ∈ testingModels (dialog s) <-> m ∈ running s)
  /\ (forall m, status <$> testResults (dialog s) !! m = Some Testing <-> m ∈ running s)
  /\ (isBatchTesting (dialog s) = true <->
      exists b B, batches s = [(b, B)] /\ (length (b_results B) + length (tests s))%nat = b_size B).
Proof.
  intros Hd H. destruct (shown_consistent r s Hd H) as [_ _ Hm Hk Hr Hb].
  split; [done|]. split; [done|]. split; [done|].
  destruct (batches s) as [|[b B] [|]]; [| |done].
  - destruct Hb as [-> _]. split; [done|]. by intros (b & B & E & _).
  - destruct Hb as (-> & _ & Hl). split; [|done]. intros _. exists b, B. split; [done|lia].
Qed.

(** *** A batch *)

(** A test of a batch. *)
Definition batch_test (r : Row) (b : nat) (d : Dialog) (m : jsstr) : Test :=
  {| t_channel := row_id r; t_model := m; t_options := test_options m true d; t_batch := Some b |}.

Lemma start_many_tests r b ms s :
  let s' := fold_left (start_test r true (Some b)) ms s in
  tests s' = tests s ++ zip (seq (next s) (length ms)) (batch_test r b (dialog s) <$> ms)
  /\ batches s' = batches s /\ said s' = said s
  /\ rowSelection (dialog s') = rowSelection (dialog s)
  /\ (forall m, m ∉ ms -> testResults (dialog s') !! m = testResults (dialog s) !! m).
Proof.
  revert s; induction ms as [|m ms IH]; intros s; cbn [fold_left].
  - cbn. by rewrite app_nil_r.
  - destruct (IH (start_test r true (Some b) s m)) as (Ht & Hb & Hsaid & Hsel & Hres).
    cbn zeta. rewrite Ht, Hb, Hsaid, Hsel. split_and!; try done.
    + cbn [start_test tests next length seq zip_with fmap list_fmap]. by rewrite <- app_assoc.
    + intros x [Hx Hn]%not_elem_of_cons. rewrite Hres by done. cbn. by rewrite lookup_insert_ne.
Qed.

(** The answers of the tests that wait, in any order. *)
Lemma answers_in_turn r b B d todo s :
  consistent r 0 s -> batches s = [(b, B)] ->
  tests s ≡ₚ (fun t => (t.1, batch_test r b d t.2.1)) <$> todo ->
  exists s', run null_message s ((fun t => Answered t.1 t.2.2) <$> todo) = Some s'
    /\ consistent r 0 s' /\ tests s' = [] /\ said s' = said s
    /\ batches s' = [(b, {| b_size := b_size B;
                            b_results := b_results B ++ ((fun t => result_of (test_outcome t.2.2)) <$> todo) |})]
    /\ (forall m, m ∉ (fun t => t.2.1) <$> todo -> testResults (dialog s') !! m = testResults (dialog s) !! m)
    /\ (forall t, t ∈ todo -> testResults (dialog s') !! t.2.1 = Some (result_of (test_outcome t.2.2))).
Proof.
  revert s B; induction todo as [|[p [m a]] todo IH]; intros s B Hs Hb Ht.
  - exists s. cbn in *. rewrite app_nil_r. apply Permutation_nil_r in Ht. destruct B. split_and!; try done.
    intros t Hin. by apply elem_of_nil in Hin.
  - destruct (o_names _ _ _ Hs) as [Hn _].
    assert (Hin : (p, batch_test r b d m) ∈ tests s) by (rewrite Ht; by left).
    assert (Hd : NoDup ((fun t : nat * (jsstr * reply) => t.2.1) <$> ((p, (m, a)) :: todo))).
    { pose proof (o_models _ _ _ Hs) as Hm. unfold running in Hm. rewrite Ht, <- list_fmap_compose in Hm. exact Hm. }
    cbn in Hd. apply NoDup_cons in Hd as [Hm Hd].
    assert (E : exists s1, answer null_message p a s = Some s1
      /\ dialog s1 = markModelTesting m false (updateTestResult m (result_of (test_outcome a)) (dialog s))
      /\ tests s1 = filterb (fun q => negb (bool_decide (fst q = p))) (tests s)
      /\ batches s1 = [(b, add_result (Some (result_of (test_outcome a))) B)] /\ said s1 = said s).
    { unfold answer, find_test. rewrite (find_by_name _ _ _ Hn Hin). cbn [snd fmap option_fmap option_map mbind option_bind].
      destruct (finish_test_spec (batch_test r b d m) a (dialog s)) as [msg ->]. eexists. split; [done|].
      cbn [dialog tests batches said t_batch batch_test]. rewrite Hb. cbn. rewrite bool_decide_eq_true_2 by done.
      rewrite app_nil_r. done. }
    destruct E as (s1 & E & Hd1 & Ht1 & Hb1 & Hsaid1).
    assert (Hp1 : tests s1 ≡ₚ (fun t => (t.1, batch_test r b d t.2.1)) <$> todo).
    { apply (Permutation_cons_inv (a := (p, batch_test r b d m))). rewrite Ht1, <- (remove_by_name _ _ _ Hn Hin). done. }
    destruct (IH s1 _ (answer_consistent _ _ _ _ _ Hs E) Hb1 Hp1) as (s' & Hrun & Hs' & H1 & H2 & H3 & H4 & H5).
    exists s'. split_and!; [|done|done|congruence| | |].
    + cbn [fmap list_fmap run step fst snd]. rewrite E. exact Hrun.
    + rewrite H3. cbn [add_result b_size b_results fmap list_fmap]. by rewrite <- app_assoc.
    + intros x [Hx Hnot]%not_elem_of_cons. rewrite H4, Hd1 by done. cbn. by rewrite lookup_insert_ne.
    + intros t [->|Hin']%elem_of_cons; [|by apply H5]. cbn [fst snd]. rewrite H4, Hd1 by done. cbn.
      by rewrite lookup_insert_eq.
Qed.

Lemma batch_message_perm n rs rs' : rs ≡ₚ rs' -> batch_message n rs = batch_message n rs'.
Proof.
  intros H. unfold batch_message.
  assert (E : length (filterb (fun r => bool_decide (status r = Success)) rs)
              = length (filterb (fun r => bool_decide (status r = Success)) rs')); [|by rewrite E].
  induction H; cbn; repeat case_match; cbn in *; congruence.
Qed.

(** The answers of a batch, matched with its tests. *)
Lemma match_answers (ps : list nat) (ms : list jsstr) (answers : list reply) order :
  length ps = length ms -> length answers = length ms -> order ≡ₚ zip ps answers ->
  exists todo, zip ps (zip ms answers) ≡ₚ todo /\ order = (fun t => (t.1, t.2.2)) <$> todo.
Proof.
  intros Hp Ha Ho.
  assert (E : zip ps answers = (fun t => (t.1, t.2.2)) <$> zip ps (zip ms answers)).
  { clear Ho. revert ms answers Hp Ha; induction ps as [|p ps IH]; intros [|m ms] [|a answers] [=] [=]; try done.
    cbn. f_equal. by apply IH. }
  rewrite E in Ho. destruct (Permutation_map_inv _ _ Ho) as (todo & -> & H). by exists todo.
Qed.

Lemma zip_tests {B} (f : jsstr -> B) (ps : list nat) (ms : list jsstr) (answers : list reply) :
  length ps = length ms -> length answers = length ms ->
  zip ps (f <$> ms) = (fun t => (t.1, f t.2.1)) <$> zip ps (zip ms answers).
Proof.
  revert ms answers; induction ps as [|p ps IH]; intros [|m ms] [|a answers] [=] [=]; try done.
  cbn. f_equal. by apply IH.
Qed.

Lemma zip_answers {B} (f : reply -> B) (ps : list nat) (ms : list jsstr) (answers : list reply) :
  length ps = length ms -> length answers = length ms ->
  (fun t => f t.2.2) <$> zip ps (zip ms answers) = f <$> answers.
Proof.
  revert ms answers; induction ps as [|p ps IH]; intros [|m ms] [|a answers] [=] [=]; try done.
  cbn. f_equal. by apply (IH ms).
Qed.

Lemma run_app s es es' :
  run null_message s (es ++ es') = run null_message s es ≫= fun s' => run null_message s' es'.
Proof.
  revert s; induction es as [|e es IH]; intros s; cbn [app run]; [done|].
  destruct (step null_message s e); [apply IH|done].
Qed.

(** The start of a batch. *)
Lemma batch_starts r s :
  let ms := selectedModels r (dialog s) in
  let s1 := start_batch r ms s in
  NoDup (models r) -> consistent r 0 s -> isAnyTesting (dialog s) = false -> ms <> [] ->
  step null_message s TestSelected = Some s1 /\ consistent r 0 s1
  /\ tests s1 = zip (seq (S (next s)) (length ms)) (batch_test r (next s) (set_batch true (dialog s)) <$> ms)
  /\ batches s1 = [(next s, {| b_size := length ms; b_results := [] |})] /\ said s1 = said s
  /\ (forall m, m ∉ ms -> testResults (dialog s1) !! m = testResults (dialog s) !! m).
Proof.
  intros ms s1 Hd Hs Hfree Hms. destruct (not_testing r s Hs Hfree) as [Ht Eb].
  destruct (o_shown _ _ _ Hs) as [Ho Hrow]. split.
  { cbn [step]. rewrite Ho, Hrow. cbn [mbind option_bind]. fold ms. rewrite Hfree.
    by rewrite bool_decide_eq_false_2. }
  split; [apply start_batch_consistent; [done..|by apply selected_no_dup]|].
  destruct (start_many_tests r (next s) ms
              {| dialog := set_batch true (dialog s); is_open := is_open s; row := row s; tests := tests s;
                 batches := batches s ++ [(next s, {| b_size := length ms; b_results := [] |})];
                 next := S (next s); said := said s |}) as (Ht1 & Eb1 & Hsaid1 & _ & Hres1).
  cbn [dialog tests batches said next] in Ht1, Eb1, Hsaid1, Hres1.
  fold (start_batch r ms s) in Ht1, Eb1, Hsaid1, Hres1. fold s1 in Ht1, Eb1, Hsaid1, Hres1.
  rewrite Ht in Ht1. rewrite Eb in Eb1. cbn [app] in Ht1, Eb1.
  split; [exact Ht1|]. split; [exact Eb1|]. split; [exact Hsaid1|exact Hres1].
Qed.

(** The end of a batch whose answers are there. *)
Lemma batch_ends r s b B :
  consistent r 0 s -> tests s = [] -> batches s = [(b, B)] ->
  exists s', finish_batch b s = Some s' /\ dialog s' = select ∅ (set_batch false (dialog s)) /\ tests s' = []
  /\ isAnyTesting (dialog s') = false /\ said s' = said s ++ [batch_message (b_size B) (b_results B)].
Proof.
  intros Hs Ht Eb. unfold finish_batch. rewrite Eb, Ht. cbn. rewrite bool_decide_eq_true_2 by done. cbn.
  eexists. split; [reflexivity|]. split; [done|]. split; [done|]. split; [|done].
  unfold isAnyTesting. cbn. rewrite orb_false_r. apply negb_false_iff, bool_decide_eq_true.
  apply set_eq. intros m. rewrite (o_marks _ _ _ Hs). unfold running. rewrite Ht. cbn. rewrite elem_of_nil.
  set_solver.
Qed.

(** C8. A batch ends the same in whatever order its answers come.  From any state of the dialog
    where nothing is being tested: the batch starts with the selected models, takes its answers
    in any order, and ends; then each selected model shows the result of its own answer, all
    others show what they showed, nothing is being tested or selected any more, and one message
    has been added, with the numbers of tests that succeeded and failed. *)
Theorem batch_any_order r s answers order :
  let ms := selectedModels r (dialog s) in
  NoDup (models r) -> shown_dialog r s -> isAnyTesting (dialog s) = false -> ms <> [] ->
  length answers = length ms -> order ≡ₚ zip (seq (S (next s)) (length ms)) answers ->
  exists s',
    run null_message s (TestSelected :: ((fun p => Answered p.1 p.2) <$> order) ++ [BatchEnds (next s)]) = Some s'
    /\ isAnyTesting (dialog s') = false /\ tests s' = [] /\ rowSelection (dialog s') = ∅
    /\ (forall i m a, ms !! i = Some m -> answers !! i = Some a ->
        testResults (dialog s') !! m = Some (result_of (test_outcome a)))
    /\ (forall m, m ∉ ms -> testResults (dialog s') !! m = testResults (dialog s) !! m)
    /\ said s' = said s ++ [batch_message (length ms) ((fun a => result_of (test_outcome a)) <$> answers)].
Proof.
  intros ms Hd H Hfree Hms Hlen Hord. pose proof (shown_consistent r s Hd H) as Hs.
  destruct (batch_starts r s Hd Hs Hfree Hms) as (E1 & Hs1 & Ht1 & Eb1 & Hsaid1 & Hres1). fold ms in E1, Hs1, Ht1, Eb1, Hsaid1, Hres1.
  set (s1 := start_batch r ms s) in *.
  assert (Hps : length (seq (S (next s)) (length ms)) = length ms) by apply length_seq.
  destruct (match_answers _ ms answers order Hps Hlen Hord) as (todo & Htodo & ->).
  rewrite (zip_tests _ _ ms answers Hps Hlen) in Ht1.
  destruct (answers_in_turn r (next s) _ (set_batch true (dialog s)) todo s1 Hs1 Eb1)
    as (s2 & Hrun2 & Hs2 & Ht2 & Hsaid2 & Eb2 & Hother & Hown); [by rewrite Ht1, Htodo|].
  destruct (batch_ends r s2 _ _ Hs2 Ht2 Eb2) as (s3 & E3 & Hd3 & Ht3 & Hfree3 & Hsaid3).
  assert (Hin : forall m, m ∈ (fun t : nat * (jsstr * reply) => t.2.1) <$> todo -> m ∈ ms).
  { intros m ([p [m' a]] & -> & Hin)%list_elem_of_fmap. rewrite <- Htodo in Hin.
    by apply elem_of_zip_r, elem_of_zip_l in Hin. }
  exists s3. split_and!; [|done|done|by rewrite Hd3|..].
  - rewrite <- list_fmap_compose. cbn [run]. rewrite E1. cbn [mbind option_bind]. rewrite run_app.
    unfold compose. cbn [fst snd]. rewrite Hrun2. cbn [mbind option_bind run step]. by rewrite E3.
  - intros i m a Hm Ha. rewrite Hd3. cbn. apply (Hown (S (next s) + i, (m, a))%nat). rewrite <- Htodo.
    apply (list_elem_of_lookup_2 _ i). rewrite lookup_zip_with, lookup_seq_lt by (rewrite <- Hlen; by eapply lookup_lt_Some).
    cbn. rewrite lookup_zip_with, Hm. cbn. by rewrite Ha.
  - intros m Hm. rewrite Hd3. cbn. rewrite Hother by (intros Hx; by apply Hm, Hin). by apply Hres1.
  - rewrite Hsaid3, Hsaid2, Hsaid1. f_equal. f_equal. cbn [b_size b_results app]. apply batch_message_perm.
    rewrite <- Htodo. by rewrite (zip_answers (fun a => result_of (test_outcome a)) _ ms answers Hps Hlen).
Qed.

(** *** The requests of a batch *)

(** The text of the parameters tells the model of a test. *)
Lemma test_key_model t t' :
  t_channel t = t_channel t' -> testModel (t_options t) <> [] -> testModel (t_options t') <> [] ->
  test_key t = test_key t' -> testModel (t_options t) = testModel (t_options t').
Proof.
  intros Hc Hm Hm' E. unfold test_key, test_read, get_key in E. rewrite Hc in E. apply app_inv_head in E.
  cbn [snd channelActionConfig with_params params testChannel c_params call_of] in E.
  apply (app_inv_head (js "?")) in E.
  assert (Hp : forall u : Test, testModel (t_options u) <> [] -> exists o,
             test_payload (Some (t_options u)) = VObj o /\ json_ok (VObj o)
             /\ oget (js "model") o = Some (VStr (testModel (t_options u)))).
  { intros u Hu. unfold test_payload. apply truthy_str_spec in Hu. rewrite Hu. cbn [orb]. eexists.
    split; [reflexivity|]. split.
    - apply json_ok_obj_of. destruct (truthy_str (ChannelActions.endpointType (t_options u))), (stream (t_options u)); cbn [app];
        repeat (apply List.Forall_cons; [exact I|]); apply List.Forall_nil.
    - by destruct (truthy_str (ChannelActions.endpointType (t_options u))), (stream (t_options u)). }
  destruct (Hp t Hm) as (o & Eo & Ho & Hg). destruct (Hp t' Hm') as (o' & Eo' & Ho' & Hg').
  rewrite Eo, Eo' in E. apply (params_text_inj o o' Ho Ho') in E. subst o'. rewrite Hg in Hg'. by injection Hg'.
Qed.

Lemma send_tests_distinct local ts st :
  NoDup (test_key <$> ts) -> (forall t, t ∈ ts -> mget (test_key t) (inFlightGet st) = None) ->
  let '(ps, st') := send_tests local ts st in
  ps = seq (length (requests st)) (length ts) /\ requests st' = requests st ++ (test_sent local <$> ts).
Proof.
  revert st; induction ts as [|t ts IH]; intros st Hn Hno; cbn [send_tests]; [by rewrite app_nil_r|].
  cbn [fmap list_fmap] in Hn. apply NoDup_cons in Hn as [Ht Hn].
  assert (E : get (fst (test_read t)) (snd (test_read t)) local st
    = (length (requests st), {| requests := requests st ++ [test_sent local t];
                                inFlightGet := mset (test_key t) (length (requests st)) (inFlightGet st);
                                shown := shown st |})).
  { unfold get. fold (test_key t). rewrite (Hno t) by by left. done. }
  rewrite E. specialize (IH {| requests := requests st ++ [test_sent local t];
                               inFlightGet := mset (test_key t) (length (requests st)) (inFlightGet st);
                               shown := shown st |} Hn).
  destruct (send_tests local ts _) as [ps st']. destruct IH as [-> ->].
  - intros u Hu. cbn [inFlightGet]. rewrite mget_mset, bool_decide_eq_false_2; [apply Hno; by right|].
    intros Hk. apply Ht. rewrite <- Hk. apply list_elem_of_fmap. by exists u.
  - cbn [requests length seq fmap list_fmap]. rewrite length_app, <- app_assoc. cbn [length app].
    by rewrite Nat.add_1_r.
Qed.

Lemma selected_truthy r d m : m ∈ selectedModels r d -> m <> [].
Proof.
  intros H. assert (Hm : m ∈ models r).
  { apply (fun H => elem_of_submseteq _ _ _ H (sublist_submseteq _ _ (selected_sublist r d))) in H. unfold filteredModels in H.
    destruct (negb _); [done|]. by apply elem_of_filterb in H as [_ H]. }
  unfold models in Hm. destruct (negb _); [by apply elem_of_nil in Hm|]. by apply elem_of_filter_truthy in Hm as [? _].
Qed.

(** C10. A batch asks the server once for each selected model.  Its tests start one after the
    other before any answer can come, and the network client lets reads of the same address
    and parameters share an answer; but the parameters name the model, so that, unless a test
    of the same model was left under way, each test sends its own request and waits for the
    answer to it. *)
Theorem batch_sends_each_test r s s' st local :
  let ts := snd <$> tests s' in
  NoDup (models r) -> shown_dialog r s -> step null_message s TestSelected = Some s' ->
  (forall t, t ∈ ts -> mget (test_key t) (inFlightGet st) = None) ->
  t_model <$> ts = selectedModels r (dialog s)
  /\ let '(ps, st') := send_tests local ts st in
     ps = seq (length (requests st)) (length ts) /\ requests st' = requests st ++ (test_sent local <$> ts).
Proof.
  intros ts Hd H E Hno. pose proof (shown_consistent r s Hd H) as Hs.
  destruct (o_shown _ _ _ Hs) as [Ho Hrow]. cbn [step] in E. rewrite Ho, Hrow in E. cbn [mbind option_bind] in E.
  destruct (negb (isAnyTesting (dialog s))) eqn:Hfree; [|done]. apply negb_true_iff in Hfree.
  destruct (not_testing r s Hs Hfree) as [Ht _].
  destruct (negb (bool_decide _)); [|done]. cbn [andb] in E. apply (inj Some) in E.
  set (ms := selectedModels r (dialog s)) in *. pose proof (selected_no_dup r (dialog s) Hd) as Hnd. fold ms in Hnd.
  assert (Ets : ts = batch_test r (next s) (set_batch true (dialog s)) <$> ms).
  { unfold ts. rewrite <- E. unfold start_batch. cbn zeta.
    match goal with |- context [fold_left _ _ ?x] =>
      destruct (start_many_tests r (next s) ms x) as [-> _] end.
    cbn [tests next dialog]. rewrite Ht. cbn [app]. apply snd_zip. by rewrite length_fmap, length_seq. }
  split; [by rewrite Ets, <- list_fmap_compose, (list_fmap_ext _ id), list_fmap_id|].
  apply send_tests_distinct; [|done]. rewrite Ets, <- list_fmap_compose. apply NoDup_fmap_2_strong; [|done].
  intros m m' Hm Hm' Hk.
  apply (test_key_model (batch_test r (next s) (set_batch true (dialog s)) m)
                        (batch_test r (next s) (set_batch true (dialog s)) m')); [done| | |exact Hk].
  - by apply (selected_truthy r (dialog s)).
  - by apply (selected_truthy r (dialog s)).
Qed.

(** *** The limits of the dialog *)

(** The row of a model whose test succeeded never shows the time, whatever the server
    measured. *)
Lemma success_shows_no_time tr time model :
  TestStatusCell tr (Some (result_of (test_outcome (Answer (test_answer time))))) model = Return (Succeeded None).
Proof. done. Qed.


(** An answer that comes after the dialog was closed is shown by the dialog of the channel
    that is open by then: the tests that wait are not given up, and a result does not name
    its channel. *)
Theorem late_answer_shows_for_other_channel r r' m a :
  m ∈ models r -> exists s,
  run null_message initial [Open r; TestOne m; Close; Open r'; Answered 0 a] = Some s
  /\ row s = Some r' /\ testResults (dialog s) !! m = Some (result_of (test_outcome a)).
Proof.
  intros Hm. set (s1 := open_for r initial). set (s2 := start_test r false None s1 m).
  set (s3 := open_for r' (close s2)).
  assert (E1 : step null_message s1 (TestOne m) = Some s2).
  { unfold step. replace (dialog s1) with resetState by done. cbn [s1 open_for is_open row mbind option_bind].
    unfold filteredModels. cbn [resetState searchTerm testingModels isBatchTesting truthy_str negb].
    rewrite bool_decide_eq_true_2 by done. by rewrite bool_decide_eq_false_2 by set_solver. }
  assert (E2 : find_test 0 s3 = Some {| t_channel := row_id r; t_model := m;
                                        t_options := test_options m false resetState; t_batch := None |}) by done.
  assert (E : exists s, answer null_message 0 a s3 = Some s /\ row s = Some r'
                        /\ testResults (dialog s) !! m = Some (result_of (test_outcome a))).
  { unfold answer. rewrite E2. cbn [mbind option_bind].
    match goal with |- context [finish_test null_message ?t a ?d] => destruct (finish_test_spec t a d) as [msg ->] end.
    eexists. split; [reflexivity|]. split; [reflexivity|]. cbn. by rewrite lookup_insert_eq. }
  destruct E as (s & E & H). exists s. split; [|exact H]. cbn [run].
  change (step null_message initial (Open r)) with (Some s1). cbn [mbind option_bind]. rewrite E1.
  cbn [mbind option_bind]. change (step null_message s2 Close) with (Some (close s2)). cbn [mbind option_bind].
  change (step null_message (close s2) (Open r')) with (Some s3). cbn [mbind option_bind].
  change (step null_message s3 (Answered 0 a)) with (answer null_message 0 a s3). by rewrite E.
Qed.

Lemma shown_run r s es s' :
  shown_dialog r s -> Forall (fun e => match e with Open _ | Close => False | _ => True end) es ->
  run null_message s es = Some s' -> shown_dialog r s'.
Proof.
  intros H Hes. revert s H; induction Hes as [|e es He _ IH]; intros s H; cbn [run].
  - by intros [= <-].
  - destruct (step null_message s e) as [s1|] eqn:E; [|done]. apply IH. by apply (shown_step _ s e).
Qed.
End Tests.

(** ** Examples and witnesses *)

Definition two_models : Row := {| row_id := num_of_Z 7; row_models := js "gpt-4o, gpt-4o-mini" |}.

(** The rows are named by their positions, also in a selection: with the first model
    selected, a search selects another model. *)
Example selection_follows_positions :
  let d := select {[ 0%nat ]} resetState in
  selectedModels two_models d = [js "gpt-4o"]
  /\ selectedModels two_models (set_search (js "mini") d) = [js "gpt-4o-mini"].
Proof. by vm_compute. Qed.

Lemma two_models_no_dup : NoDup (models two_models).
Proof. apply (bool_decide_unpack _). by vm_compute. Qed.

(** The dialog with both models selected. *)
Definition both_selected : Sys :=
  with_dialog (select {[ 0%nat; 1%nat ]} resetState) (open_for two_models initial).

Lemma both_selected_shown : shown_dialog [] two_models both_selected.
Proof.
  apply (shown_step _ _ (open_for two_models initial) (Select {[ 0%nat; 1%nat ]})); [by apply shown_open|done|].
  by vm_compute.
Qed.

Definition no_channel : jsstr := js "status 500: no channel".

Lemma failure_summary_short_witness :
  trim (default [] (Some no_channel)) <> []
  /\ (length (summary (getFailureStatusDisplay (Some no_channel) (js "Failed") false (js "Price"))) <= 99)%nat.
Proof.
  assert (H : trim (default [] (Some no_channel)) <> []) by by vm_compute.
  split; [exact H|]. exact (proj1 (failure_summary_short (Some no_channel) (js "Failed") (js "Price") H)).
Defined.

(** While one of the two tests waits. *)
Lemma testing_is_exact_witness :
  exists s, run [] both_selected [TestSelected; Answered 2 (Failure None [])] = Some s
  /\ (isBatchTesting (dialog s) = true <->
      exists b B, batches s = [(b, B)] /\ (length (b_results B) + length (tests s))%nat = b_size B)
  /\ running s = [js "gpt-4o"].
Proof.
  destruct (run [] both_selected [TestSelected; Answered 2 (Failure None [])]) as [s|] eqn:E.
  - exists s. split; [reflexivity|]. split.
    + assert (H : shown_dialog [] two_models s)
        by (eapply shown_run; [exact both_selected_shown| |exact E]; by repeat constructor).
      exact (proj2 (proj2 (proj2 (testing_is_exact [] two_models s two_models_no_dup H)))).
    + assert (H : running <$> run [] both_selected [TestSelected; Answered 2 (Failure None [])]
                  = Some [js "gpt-4o"]) by by vm_compute.
      rewrite E in H. by apply (inj Some) in H.
  - assert (H : is_Some (run [] both_selected [TestSelected; Answered 2 (Failure None [])]))
      by (vm_compute; by eexists).
    rewrite E in H. by destruct H.
Defined.

Lemma batch_any_order_witness :
  exists s', run [] both_selected [TestSelected; Answered 2 (Failure None []); Answered 1 (Answer ok_data); BatchEnds 0]
             = Some s' /\ isAnyTesting (dialog s') = false.
Proof.
  destruct (batch_any_order [] two_models both_selected [Answer ok_data; Failure None []]
              [(2%nat, Failure None []); (1%nat, Answer ok_data)] two_models_no_dup both_selected_shown)
    as (s' & E & H & _); [by vm_compute|by vm_compute|by vm_compute| |exists s'; by split].
  apply Permutation_swap.
Defined.

Lemma late_answer_shows_for_other_channel_witness :
  exists s, row s = Some {| row_id := num_of_Z 8; row_models := js "gpt-4o" |}
            /\ testResults (dialog s) !! js "gpt-4o" = Some (result_of (test_outcome (Answer ok_data))).
Proof.
  destruct (late_answer_shows_for_other_channel [] two_models {| row_id := num_of_Z 8; row_models := js "gpt-4o" |}
              (js "gpt-4o") (Answer ok_data)) as (s & _ & H1 & H2).
  - apply (bool_decide_unpack _). by vm_compute.
  - exists s. split; [exact H1|exact H2].
Defined.

Lemma batch_sends_each_test_witness :
  exists s', step [] both_selected TestSelected = Some s'
  /\ t_model <$> (snd <$> tests s') = [js "gpt-4o"; js "gpt-4o-mini"].
Proof.
  destruct (step [] both_selected TestSelected) as [s'|] eqn:E.
  - exists s'. split; [reflexivity|].
    destruct (batch_sends_each_test [] two_models both_selected s' fresh_client None two_models_no_dup
                both_selected_shown E) as [H _]; [reflexivity|].
    rewrite H. by vm_compute.
  - assert (H : is_Some (step [] both_selected TestSelected)) by (vm_compute; by eexists).
    rewrite E in H. by destruct H.
Defined.
