(* ===== verification/RatioSync.v ===== *)
(** * Prices taken over from other instances
      ([features/system-settings/models/upstream-ratio-sync.tsx], [-helpers.ts], [-table.tsx])

    The page compares the prices of this instance with those of others, lets an administrator
    choose values source by source, and writes the chosen ones into ten options.  What was
    compared and what is chosen are objects of the language, since the order of their
    properties is the order of the code's loops. *)

From S2P Require Import Prelude JsString JsNumber JsValue JsJson JsMap ModelPricing PricingSnapshots.
From S2P Require Import ApiClient ChannelRows ChannelActions.

(** ** Fields *)

Definition RATIO_SYNC_FIELDS : list jsstr :=
  js <$> ["model_ratio"; "completion_ratio"; "cache_ratio"; "create_cache_ratio"; "image_ratio"; "audio_ratio";
          "audio_completion_ratio"]%string.

Definition model_price : jsstr := js "model_price".
Definition billing_mode : jsstr := js "billing_mode".
Definition billing_expr : jsstr := js "billing_expr".

Definition SYNC_FIELD_ORDER : list jsstr := RATIO_SYNC_FIELDS ++ [model_price; billing_mode; billing_expr].

Definition NUMERIC_SYNC_FIELDS : list jsstr := RATIO_SYNC_FIELDS ++ [model_price].

Definition ALL : jsstr := js "__all__".

Definition getOrderedRatioTypes (ratioTypes : obj) (filter : jsstr) : list jsstr :=
  let keys := okeys ratioTypes in
  let ordered := filterb (fun f => bool_decide (f ∈ keys)) SYNC_FIELD_ORDER
                 ++ filterb (fun f => negb (bool_decide (f ∈ SYNC_FIELD_ORDER))) keys in
  if negb (truthy_str filter) || bool_decide (filter = ALL) then ordered
  else filterb (fun f => bool_decide (f = filter)) ordered.

(** [ratioTypes.rt?.upstreams?.[sourceName]], also where [ratioTypes] is undefined. *)
Definition upstream_value (ratioTypes : jsval) (rt sourceName : jsstr) : jsval :=
  prop sourceName (prop (js "upstreams") (prop rt ratioTypes)).

Definition isSelectableUpstreamValue (v : jsval) : bool := negb (nullish v) && negb (is_str (js "same") v).

Definition getPreferredSyncField (ratioTypes : jsval) (ratioType sourceName : jsstr) : jsstr :=
  if negb (bool_decide (ratioType = billing_expr))
     && isSelectableUpstreamValue (upstream_value ratioTypes billing_expr sourceName)
  then billing_expr else ratioType.

Inductive category := price | ratio | tiered.

#[export] Instance category_eq_dec : EqDecision category.
Proof. solve_decision. Defined.

Definition getBillingCategory (ratioType : jsstr) : category :=
  if bool_decide (ratioType = model_price) then price
  else if bool_decide (ratioType = billing_mode) || bool_decide (ratioType = billing_expr) then tiered
  else ratio.

(** [word.charAt(0).toUpperCase() + word.slice(1)], for the words of the fields, which begin with
    a letter from a to z. *)
Definition capitalized (word : jsstr) : jsstr :=
  match word with
  | c :: rest => (if (97 <=? c)%N && (c <=? 122)%N then (c - 32)%N else c) :: rest
  | [] => []
  end.

Definition optionKeyBySyncField (ratioType : jsstr) : jsstr :=
  if bool_decide (ratioType = billing_mode) then js "billing_setting.billing_mode"
  else if bool_decide (ratioType = billing_expr) then js "billing_setting.billing_expr"
  else mjoin (capitalized <$> split_char 95 ratioType).

Definition parseJsonRecord (raw : jsstr) : jsval :=
  default (VObj []) (json_parse (if truthy_str raw then raw else js "{}")).

(** ** Sources *)

Definition DEFAULT_ENDPOINT : jsstr := js "/api/pricing".
Definition OFFICIAL_CHANNEL_ID : num := num_of_Z (-100).
Definition OFFICIAL_CHANNEL_ENDPOINT : jsstr := js "/llm-metadata/api/newapi/ratio_config-v1-base.json".
Definition MODELS_DEV_PRESET_ID : num := num_of_Z (-101).
Definition MODELS_DEV_PRESET_ENDPOINT : jsstr := js "https://models.dev/api.json".
Definition OPENROUTER_ENDPOINT : jsstr := js "openrouter".
Definition OPENROUTER_CHANNEL_TYPE : num := num_of_Z 20.

Record UpstreamChannel := { id_ : num; name : jsstr; base_url : jsstr; status : num; type_ : option num }.

Record UpstreamConfig := { u_id : num; u_name : jsstr; u_base_url : jsstr; u_endpoint : jsstr }.

Definition getDefaultEndpointForChannel (channel : UpstreamChannel) : jsstr :=
  if neqb (id_ channel) MODELS_DEV_PRESET_ID then MODELS_DEV_PRESET_ENDPOINT
  else if neqb (id_ channel) OFFICIAL_CHANNEL_ID then OFFICIAL_CHANNEL_ENDPOINT
  else if match type_ channel with Some n => neqb n OPENROUTER_CHANNEL_TYPE | None => false end
  then OPENROUTER_ENDPOINT
  else DEFAULT_ENDPOINT.

(** [channelEndpoints[id]]: the endpoints by the texts of the identifiers. *)
Definition endpoint_of (endpoints : list (jsstr * jsstr)) (channel : UpstreamChannel) : jsstr :=
  default [] (mget (num_to_string (id_ channel)) endpoints).

(** The effect on the list of sources. *)
Definition add_endpoints (channels : list UpstreamChannel) (prev : list (jsstr * jsstr)) : list (jsstr * jsstr) :=
  fold_left (fun next channel =>
      if truthy_str (endpoint_of next channel) then next
      else mset (num_to_string (id_ channel)) (getDefaultEndpointForChannel channel) next)
    channels prev.

(** The sources asked, or nothing where a warning is shown. *)
Definition handleConfirmChannelSelection (channels : list UpstreamChannel) (channelEndpoints : list (jsstr * jsstr))
    (selectedIds : list num) : option (list UpstreamConfig) :=
  match filterb (fun ch => existsb (neqb (id_ ch)) selectedIds) channels with
  | [] => None
  | selectedChannels =>
      Some ((fun ch => {| u_id := id_ ch; u_name := name ch; u_base_url := base_url ch;
                          u_endpoint := let e := endpoint_of channelEndpoints ch in
                                        if truthy_str e then e else DEFAULT_ENDPOINT |}) <$> selectedChannels)
  end.

(** ** Choosing values

    [resolutions] maps a model to the fields chosen for it with their values. *)

(** [res[model] || {}], of which the code makes a copy *)
Definition chosen (res : obj) (model : jsstr) : obj := entries_of (at_ model res).

(** [Object.keys(o).length === 0] *)
Definition is_empty (o : obj) : bool := match o with [] => true | _ => false end.

Definition deleteResolutionField (res : obj) (model ratioType : jsstr) : obj :=
  if negb (truthy (at_ model res)) then res
  else
    let newModelRes := odel ratioType (chosen res model) in
    let newModelRes := if bool_decide (ratioType = billing_expr) then odel billing_mode newModelRes else newModelRes in
    let newModelRes := if bool_decide (ratioType = billing_mode) then odel billing_expr newModelRes else newModelRes in
    if is_empty newModelRes then odel model res else oset model (VObj newModelRes) res.

(** Whether choosing a field of category [c] takes the field [rt] back. *)
Definition conflicts_with (c : category) (rt : jsstr) : bool :=
  negb (bool_decide (c = tiered)) && negb (bool_decide (getBillingCategory rt = tiered))
  && negb (bool_decide (getBillingCategory rt = c)).

Definition clear_conflicting (c : category) (o : obj) : obj :=
  fold_left (fun o rt => if conflicts_with c rt then odel rt o else o) (okeys o) o.

(** The fields of an expression that come with a field of the same source. *)
Definition add_tiered (modelDiffs : jsval) (finalType sourceName : jsstr) (o : obj) : obj :=
  let modeVal := upstream_value modelDiffs billing_mode sourceName in
  let exprVal := upstream_value modelDiffs billing_expr sourceName in
  let o := if isSelectableUpstreamValue modeVal then oset billing_mode modeVal o
           else if bool_decide (finalType = billing_expr) then oset billing_mode (VStr (js "tiered_expr")) o
           else o in
  if isSelectableUpstreamValue exprVal then oset billing_expr exprVal o else o.

Definition handleSelectValue (differences : obj) (model ratioType : jsstr) (value : jsval) (sourceName : jsstr)
    (prev : obj) : obj :=
  let modelDiffs := at_ model differences in
  let finalType := if truthy_str sourceName then getPreferredSyncField modelDiffs ratioType sourceName
                   else ratioType in
  let finalValue := if bool_decide (finalType = ratioType) then value
                    else vnullish (upstream_value modelDiffs finalType sourceName) value in
  let category := getBillingCategory finalType in
  let newModelRes := oset finalType finalValue (clear_conflicting category (chosen prev model)) in
  let newModelRes :=
    if bool_decide (category = tiered) && truthy_str sourceName && truthy modelDiffs
    then add_tiered modelDiffs finalType sourceName newModelRes else newModelRes in
  oset model (VObj newModelRes) prev.

Definition handleUnselectValue (model ratioType : jsstr) (prev : obj) : obj :=
  deleteResolutionField prev model ratioType.

(** *** The table *)

(** A row: a model and its differences. *)
Definition dataSource (differences : obj) : list (jsstr * jsval) := differences.

Definition billingConflict (ratioTypes : obj) : bool :=
  ohas model_price ratioTypes && existsb (fun rt => ohas rt ratioTypes) RATIO_SYNC_FIELDS.

Definition filteredData (search ratioTypeFilter : jsstr) (differences : obj) : list (jsstr * jsval) :=
  let data := dataSource differences in
  let data := if truthy_str (trim search)
              then filterb (fun row => includes (to_lower search) (to_lower (fst row))) data else data in
  if truthy_str ratioTypeFilter && negb (bool_decide (ratioTypeFilter = ALL))
  then filterb (fun row => ohas ratioTypeFilter (entries_of (snd row))) data else data.

(** The checkbox in the head of a source's column: whether a field is offered for choice. *)
Definition offered (ratioTypes : jsval) (upstream ratioType : jsstr) : bool :=
  bool_decide (getPreferredSyncField ratioTypes ratioType upstream = ratioType)
  && isSelectableUpstreamValue (upstream_value ratioTypes ratioType upstream).

Definition bulk_fields (ratioTypeFilter upstream : jsstr) (row : jsstr * jsval) : list jsstr :=
  filterb (offered (snd row) upstream) (getOrderedRatioTypes (entries_of (snd row)) ratioTypeFilter).

Definition handleBulkSelect (differences : obj) (ratioTypeFilter upstream : jsstr) (rows : list (jsstr * jsval))
    (prev : obj) : obj :=
  fold_left (fun res row =>
    fold_left (fun res rt =>
        handleSelectValue differences (fst row) rt (upstream_value (snd row) rt upstream) upstream res)
      (bulk_fields ratioTypeFilter upstream row) res) rows prev.

(** [v !== undefined] *)
Definition is_set (v : jsval) : bool := match v with VUndef => false | _ => true end.

Definition handleBulkUnselect (ratioTypeFilter upstream : jsstr) (rows : list (jsstr * jsval)) (prev : obj) : obj :=
  fold_left (fun res row =>
    fold_left (fun res rt => handleUnselectValue (fst row) rt res)
      (filterb (fun rt => is_set (upstream_value (snd row) rt upstream))
         (getOrderedRatioTypes (entries_of (snd row)) ratioTypeFilter)) res) rows prev.

(** ** Writing what is chosen *)

(** The options, by [modelRatios] and as [performSync] builds them. *)
Definition RATIO_KEYS : list jsstr :=
  js <$> ["ModelRatio"; "CompletionRatio"; "CacheRatio"; "CreateCacheRatio"; "ImageRatio"; "AudioRatio";
          "AudioCompletionRatio"]%string.
Definition PRICE_KEY : jsstr := js "ModelPrice".
Definition OPTION_KEYS : list jsstr :=
  RATIO_KEYS ++ [PRICE_KEY; js "billing_setting.billing_mode"; js "billing_setting.billing_expr"].

Definition Ratios : Type := list (jsstr * obj).

Definition at_option (key : jsstr) (f : Ratios) : obj := default [] (mget key f).

(** [{ ...currentRatios[key] }] for each option *)
Definition finalRatios (currentRatios : jsstr -> jsval) : Ratios :=
  (fun key => (key, entries_of (currentRatios key))) <$> OPTION_KEYS.

(** [delete finalRatios[key][model]] *)
Definition delete_in (model key : jsstr) (f : Ratios) : Ratios := mset key (odel model (at_option key f)) f.

Definition hasPrice (ratios : obj) : bool := bool_decide (model_price ∈ okeys ratios).
Definition hasRatio (ratios : obj) : bool := existsb (fun rt => bool_decide (rt ∈ RATIO_SYNC_FIELDS)) (okeys ratios).

Definition written (ratioType : jsstr) (value : jsval) : jsval :=
  if bool_decide (ratioType ∈ NUMERIC_SYNC_FIELDS) then VNum (to_number value) else value.

(** [finalRatios[optionKey][model] = value], which throws for an option that is not there *)
Definition write_field (model : jsstr) (f : Ratios) (field : jsstr * jsval) : outcome Ratios :=
  let key := optionKeyBySyncField (fst field) in
  match mget key f with
  | Some m => Return (mset key (oset model (written (fst field) (snd field)) m) f)
  | None => Throw
  end.

Definition apply_model (f : Ratios) (entry : jsstr * jsval) : outcome Ratios :=
  let model := fst entry in
  let ratios := entries_of (snd entry) in
  let f := if hasPrice ratios then fold_left (fun f key => delete_in model key f) RATIO_KEYS f else f in
  let f := if hasRatio ratios then delete_in model PRICE_KEY f else f in
  ofold (write_field model) ratios f.

(** The maps [performSync] writes, and its updates. *)
Definition synced (currentRatios : jsstr -> jsval) (resolutions : obj) : outcome Ratios :=
  ofold apply_model resolutions (finalRatios currentRatios).

Definition updates (f : Ratios) : list (jsstr * jsstr) := (fun kv => (fst kv, pretty (VObj (snd kv)))) <$> f.

(** *** Conflicts *)

Record ConflictItem := { channel : jsstr; model : jsstr; current : jsstr; newVal : jsstr }.

(** [v[key]], which throws where [v] is null. *)
Definition read_key (v : jsval) (key : jsstr) : outcome jsval :=
  if nullish v then Throw else Return (at_ key (entries_of v)).

(** [a[0] !== undefined || a[1] !== undefined || ...] *)
Fixpoint any_set (currentRatios : jsstr -> jsval) (model : jsstr) (keys : list jsstr) : outcome bool :=
  match keys with
  | [] => Return false
  | key :: keys =>
      obind (read_key (currentRatios key) model)
        (fun v => if is_set v then Return true else any_set currentRatios model keys)
  end.

Definition getLocalBillingCategory (model : jsstr) (currentRatios : jsstr -> jsval) : outcome (option category) :=
  obind (read_key (currentRatios PRICE_KEY) model)
    (fun v => if is_set v then Return (Some price)
              else omapr (fun b : bool => if b then Some ratio else None) (any_set currentRatios model RATIO_KEYS)).

Definition new_category (ratios : obj) : category :=
  if ohas model_price ratios then price
  else if existsb (fun rt => bool_decide (rt ∈ okeys ratios)) RATIO_SYNC_FIELDS then ratio
  else tiered.

Definition findSourceChannel (differences : obj) (model ratioType : jsstr) (value : jsval) : jsstr :=
  let upMap := prop (js "upstreams") (prop ratioType (at_ model differences)) in
  if negb (truthy upMap) then js "Unknown"
  else match find (fun kv => strict_eq (snd kv) value) (entries_of upMap) with
       | Some kv => fst kv
       | None => js "Unknown"
       end.

Section Page.
Context (tr : jsstr -> jsstr).

(** The description of a price, and of the two main ratios. *)
Definition price_text (v : jsval) : jsstr := tr (js "Fixed price") ++ js ": " ++ to_string v.

Definition ratio_text (model_ratio completion_ratio : jsval) : jsstr :=
  tr (js "Model ratio") ++ js ": " ++ to_string (vnullish model_ratio (VStr (js "-"))) ++ [10%N]
  ++ tr (js "Completion ratio") ++ js ": " ++ to_string (vnullish completion_ratio (VStr (js "-"))).

Definition current_text (currentRatios : jsstr -> jsval) (model : jsstr) (localCat : category) : outcome jsstr :=
  if bool_decide (localCat = price) then omapr price_text (read_key (currentRatios PRICE_KEY) model)
  else obind (read_key (currentRatios (js "ModelRatio")) model) (fun m =>
         omapr (ratio_text m) (read_key (currentRatios (js "CompletionRatio")) model)).

Definition new_text (ratios : obj) (newCat : category) : jsstr :=
  if bool_decide (newCat = price) then price_text (at_ model_price ratios)
  else ratio_text (at_ (js "model_ratio") ratios) (at_ (js "completion_ratio") ratios).

Definition channel_names (differences : obj) (model : jsstr) (ratios : obj) : jsstr :=
  join (js ", ") (uniq ((fun kv => findSourceChannel differences model (fst kv) (snd kv)) <$> ratios)).

(** The body of the loop of [handleApplySync]. *)
Definition add_conflict (differences : obj) (currentRatios : jsstr -> jsval) (conflicts : list ConflictItem)
    (entry : jsstr * jsval) : outcome (list ConflictItem) :=
  let '(model, v) := entry in
  let ratios := entries_of v in
  let newCat := new_category ratios in
  obind (getLocalBillingCategory model currentRatios) (fun localCat =>
    match localCat with
    | Some c =>
        if negb (bool_decide (newCat = tiered)) && negb (bool_decide (c = newCat))
        then omapr (fun text => conflicts ++ [{| channel := channel_names differences model ratios; model := model;
                                                 current := text; newVal := new_text ratios newCat |}])
                   (current_text currentRatios model c)
        else Return conflicts
    | None => Return conflicts
    end).

Definition conflicts_of (differences : obj) (currentRatios : jsstr -> jsval) (resolutions : obj)
  : outcome (list ConflictItem) :=
  ofold (add_conflict differences currentRatios) resolutions [].

(** ** The page *)

Inductive note := Info (m : message) | Success (m : message) | Warning (m : message) | Failed (m : message).

(** [sending] holds the updates not answered yet, the first of which is under way. *)
Record Page := {
  differences : obj; resolutions : obj; modelRatios : jsstr -> jsstr;
  conflictItems : list ConflictItem; conflictDialogOpen : bool; confirmLoading : bool;
  fetching : bool; sending : option (list (jsstr * jsstr)); sent : list (jsstr * jsstr); said : list note }.

Definition parsedRatios (p : Page) : jsstr -> jsval := fun key => parseJsonRecord (modelRatios p key).

Definition is_sending (p : Page) : bool := match sending p with Some _ => true | None => false end.

Definition isLoading (p : Page) : bool := fetching p || is_sending p || confirmLoading p.

Definition set_resolutions (res : obj) (p : Page) : Page :=
  {| differences := differences p; resolutions := res; modelRatios := modelRatios p;
     conflictItems := conflictItems p; conflictDialogOpen := conflictDialogOpen p;
     confirmLoading := confirmLoading p; fetching := fetching p; sending := sending p; sent := sent p;
     said := said p |}.

Definition say (n : note) (p : Page) : Page :=
  {| differences := differences p; resolutions := resolutions p; modelRatios := modelRatios p;
     conflictItems := conflictItems p; conflictDialogOpen := conflictDialogOpen p;
     confirmLoading := confirmLoading p; fetching := fetching p; sending := sending p; sent := sent p;
     said := said p ++ [n] |}.

Definition set_dialog (open loading : bool) (p : Page) : Page :=
  {| differences := differences p; resolutions := resolutions p; modelRatios := modelRatios p;
     conflictItems := conflictItems p; conflictDialogOpen := open; confirmLoading := loading;
     fetching := fetching p; sending := sending p; sent := sent p; said := said p |}.

Definition set_fetching (b : bool) (p : Page) : Page :=
  {| differences := differences p; resolutions := resolutions p; modelRatios := modelRatios p;
     conflictItems := conflictItems p; conflictDialogOpen := conflictDialogOpen p;
     confirmLoading := confirmLoading p; fetching := b; sending := sending p; sent := sent p; said := said p |}.

Definition set_sending (us : option (list (jsstr * jsstr))) (p : Page) : Page :=
  {| differences := differences p; resolutions := resolutions p; modelRatios := modelRatios p;
     conflictItems := conflictItems p; conflictDialogOpen := conflictDialogOpen p;
     confirmLoading := confirmLoading p; fetching := fetching p; sending := us;
     sent := sent p ++ match us with Some (u :: _) => [u] | _ => [] end; said := said p |}.

(** *** Comparing *)

(** The answer of the comparison: the differences, and the sources that failed with their
    errors; or a refusal, or an error. *)
Inductive comparison :=
  | Compared (diffs : obj) (failed : list (jsstr * jsstr))
  | Refused (message : jsstr)
  | Broken (message : jsstr).

Definition or_text (m : jsstr) (key : String.string) : message := if truthy_str m then Server (VStr m) else t key.
Arguments or_text m key%_string_scope.

Definition finish_fetch (c : comparison) (p : Page) : Page :=
  let p := set_fetching false p in
  match c with
  | Compared diffs failed =>
      let p := match failed with
               | [] => p
               | _ => say (Warning (T (js "Some channels failed: {{errorMsg}}")
                             [(js "errorMsg", VStr (join (js ", ") ((fun r => fst r ++ js ": " ++ snd r) <$> failed)))])) p
               end in
      let p := {| differences := diffs; resolutions := []; modelRatios := modelRatios p;
                  conflictItems := conflictItems p; conflictDialogOpen := conflictDialogOpen p;
                  confirmLoading := confirmLoading p; fetching := fetching p; sending := sending p;
                  sent := sent p; said := said p |} in
      say (Success (t (if is_empty diffs then "No price differences found"
                       else "Upstream prices fetched successfully"))) p
  | Refused m => say (Failed (or_text m "Failed to fetch upstream prices")) p
  | Broken m => say (Failed (or_text m "Failed to fetch upstream prices")) p
  end.

(** *** Saving *)

(** The loop over the fields saved for a model.  The code deletes from the objects of the old
    state, which nothing reads any more. *)
Definition drop_field (model : jsstr) (diffs : obj) (ratioType : jsstr) : obj :=
  let modelDiffs := at_ model diffs in
  if truthy (prop ratioType modelDiffs) then
    let rest := odel ratioType (entries_of modelDiffs) in
    if is_empty rest then odel model diffs else oset model (VObj rest) diffs
  else diffs.

Definition drop_resolved (resolutions diffs : obj) : obj :=
  fold_left (fun diffs entry => fold_left (drop_field (fst entry)) (okeys (entries_of (snd entry))) diffs)
    resolutions diffs.

(** [performSync], up to its first request; an exception is a rejected promise nobody waits
    for, but for the [finally] of [handleConfirmConflict]. *)
Definition performSync (p : Page) : outcome Page :=
  omapr (fun f => set_sending (Some (updates f)) p) (synced (parsedRatios p) (resolutions p)).

Definition handleApplySync (p : Page) : Page :=
  match conflicts_of (differences p) (parsedRatios p) (resolutions p) with
  | Throw => p
  | Return [] =>
      let p := say (Info (t "Syncing prices, please wait...")) p in catch (performSync p) p
  | Return items =>
      {| differences := differences p; resolutions := resolutions p; modelRatios := modelRatios p;
         conflictItems := items; conflictDialogOpen := true; confirmLoading := confirmLoading p;
         fetching := fetching p; sending := sending p; sent := sent p; said := said p |}
  end.

Definition handleConfirmConflict (p : Page) : Page :=
  let p := set_dialog (conflictDialogOpen p) true p in
  catch (performSync p) (set_dialog (conflictDialogOpen p) false p).

(** All updates were answered. *)
Definition sync_done (p : Page) : Page :=
  let p := say (Success (t "Prices synced successfully")) p in
  {| differences := drop_resolved (resolutions p) (differences p); resolutions := [];
     modelRatios := modelRatios p; conflictItems := conflictItems p;
     conflictDialogOpen := if confirmLoading p then false else conflictDialogOpen p; confirmLoading := false;
     fetching := fetching p; sending := None; sent := sent p; said := said p |}.

(** The answer to the update under way.  [updateSystemOption] returns the body, which is not
    looked at; it throws where the network client does. *)
Definition answered (r : reply) (p : Page) : option Page :=
  match sending p with
  | Some (_ :: rest) =>
      match r with
      | Failure _ m =>
          Some (say (Failed (or_text m "Failed to sync prices"))
                  (set_dialog (conflictDialogOpen p) false (set_sending None p)))
      | Answer _ =>
          match rest with
          | [] => Some (sync_done p)
          | _ => Some (set_sending (Some rest) p)
          end
      end
  | _ => None
  end.

(** *** Events *)

(** A checkbox is shown for the offered values of a row; every control is off while the page
    is loading, and behind the dialog of conflicts. *)
Inductive event :=
  | Fetch
  | Fetched (c : comparison)
  | Options (ratios : jsstr -> jsstr)
  | Select (model ratioType source : jsstr)
  | Unselect (model ratioType : jsstr)
  | BulkSelect (source search filter : jsstr)
  | BulkUnselect (source search filter : jsstr)
  | ApplySync
  | CloseConflict
  | ConfirmConflict
  | Answered (r : reply).

Definition step (p : Page) (e : event) : option Page :=
  let idle (q : Page) := if isLoading p || conflictDialogOpen p then None else Some q in
  match e with
  | Fetch => idle (set_fetching true p)
  | Fetched c => if fetching p then Some (finish_fetch c p) else None
  | Options ratios =>
      Some {| differences := differences p; resolutions := resolutions p; modelRatios := ratios;
              conflictItems := conflictItems p; conflictDialogOpen := conflictDialogOpen p;
              confirmLoading := confirmLoading p; fetching := fetching p; sending := sending p;
              sent := sent p; said := said p |}
  | Select m rt source =>
      let v := upstream_value (at_ m (differences p)) rt source in
      if offered (at_ m (differences p)) source rt
      then idle (set_resolutions (handleSelectValue (differences p) m rt v source (resolutions p)) p) else None
  | Unselect m rt => idle (set_resolutions (handleUnselectValue m rt (resolutions p)) p)
  | BulkSelect source search filter =>
      idle (set_resolutions (handleBulkSelect (differences p) filter source
                               (filteredData search filter (differences p)) (resolutions p)) p)
  | BulkUnselect source search filter =>
      idle (set_resolutions (handleBulkUnselect filter source
                               (filteredData search filter (differences p)) (resolutions p)) p)
  | ApplySync => if is_empty (resolutions p) then None else idle (handleApplySync p)
  | CloseConflict => if conflictDialogOpen p then Some (set_dialog false (confirmLoading p) p) else None
  | ConfirmConflict => if conflictDialogOpen p && negb (confirmLoading p) then Some (handleConfirmConflict p) else None
  | Answered r => answered r p
  end.

Fixpoint run (p : Page) (es : list event) : option Page :=
  match es with
  | [] => Some p
  | e :: es => match step p e with Some p => run p es | None => None end
  end.
End Page.

(** ** Theorems: sources *)

Lemma default_endpoint_set ch : truthy_str (getDefaultEndpointForChannel ch) = true.
Proof. unfold getDefaultEndpointForChannel. by repeat case_match. Qed.

(** Once the sources are there, each has an endpoint; one that was typed is kept. *)
Lemma endpoints_complete channels prev ch :
  (ch ∈ channels -> truthy_str (endpoint_of (add_endpoints channels prev) ch) = true)
  /\ (truthy_str (endpoint_of prev ch) = true -> endpoint_of (add_endpoints channels prev) ch = endpoint_of prev ch).
Proof.
  assert (Hkeep : forall cs p, truthy_str (endpoint_of p ch) = true -> endpoint_of (add_endpoints cs p) ch = endpoint_of p ch).
  { induction cs as [|c cs IH]; intros p H; [done|]. cbn [add_endpoints fold_left].
    destruct (truthy_str (endpoint_of p c)) eqn:Ec; [by apply IH|].
    assert (E : endpoint_of (mset (num_to_string (id_ c)) (getDefaultEndpointForChannel c) p) ch = endpoint_of p ch).
    { unfold endpoint_of in *. rewrite mget_mset. case_bool_decide as Ek; [|done]. rewrite Ek in H. congruence. }
    unfold add_endpoints in IH. rewrite <- E in H. by rewrite (IH _ H), E. }
  split; [|apply Hkeep]. revert prev; induction channels as [|c cs IH]; intros p Hin; [by apply not_elem_of_nil in Hin|].
  apply elem_of_cons in Hin as [<-|Hin]; [|by apply IH]. cbn [add_endpoints fold_left].
  destruct (truthy_str (endpoint_of p ch)) eqn:Ec; [fold (add_endpoints cs p); by rewrite Hkeep|].
  set (p' := mset _ _ p). fold (add_endpoints cs p').
  assert (E : truthy_str (endpoint_of p' ch) = true).
  { unfold endpoint_of, p'. rewrite mget_mset, bool_decide_eq_true_2 by done. apply default_endpoint_set. }
  by rewrite Hkeep.
Qed.

(** ** Theorems: what is chosen *)

(** What is chosen for a model: known fields; a price or ratios, not both; an expression with
    its mode. *)
Record exclusive (o : obj) : Prop := {
  x_canonical : canonical o;
  x_known : forall k, ohas k o = true -> k ∈ SYNC_FIELD_ORDER;
  x_one : ohas model_price o = true -> forall rt, rt ∈ RATIO_SYNC_FIELDS -> ohas rt o = false }.

Definition with_mode (o : obj) : Prop := ohas billing_expr o = true -> ohas billing_mode o = true.

Definition choice_ok (o : obj) : Prop := exclusive o /\ with_mode o.

Definition res_ok (res : obj) : Prop :=
  canonical res /\ forall m v, oget m res = Some v -> exists o, v = VObj o /\ o <> [] /\ choice_ok o.

(** What is compared: known fields, and every source has a name. *)
Definition diffs_ok (diffs : obj) : Prop :=
  canonical diffs /\ forall m v, oget m diffs = Some v ->
  exists o, v = VObj o /\ canonical o /\ (forall k, ohas k o = true -> k ∈ SYNC_FIELD_ORDER)
            /\ forall rt, upstream_value v rt [] = VUndef.

Lemma exclusive_nil : exclusive [].
Proof. split; [apply canonical_nil|done|done]. Qed.

Lemma choice_ok_chosen res m : res_ok res -> choice_ok (chosen res m).
Proof.
  intros [_ H]. unfold chosen, at_. destruct (oget m res) as [v|] eqn:E.
  - by destruct (H m v E) as (o & -> & _ & Ho).
  - split; [apply exclusive_nil|done].
Qed.

Lemma ohas_fold_del (f : jsstr -> bool) ks o k :
  ohas k (fold_left (fun o rt => if f rt then odel rt o else o) ks o)
  = ohas k o && negb (f k && bool_decide (k ∈ ks)).
Proof.
  revert o; induction ks as [|r ks IH]; intros o; cbn [fold_left].
  - rewrite bool_decide_eq_false_2 by apply not_elem_of_nil. by rewrite andb_false_r, andb_true_r.
  - rewrite IH. destruct (decide (k = r)) as [->|Hne].
    + rewrite (bool_decide_eq_true_2 (r ∈ r :: ks)) by by left.
      destruct (f r) eqn:Ef; [rewrite ohas_odel, bool_decide_eq_true_2 by done|].
      * cbn. by rewrite andb_false_r.
      * done.
    + assert (E : bool_decide (k ∈ r :: ks) = bool_decide (k ∈ ks)).
      { apply bool_decide_ext. rewrite elem_of_cons. naive_solver. }
      rewrite E. destruct (f r); [|done]. by rewrite ohas_odel, bool_decide_eq_false_2.
Qed.

Lemma canonical_fold_del (f : jsstr -> bool) ks o :
  canonical o -> canonical (fold_left (fun o rt => if f rt then odel rt o else o) ks o).
Proof. revert o; induction ks as [|r ks IH]; intros o H; [done|]. apply IH. destruct (f r); auto with js. Qed.

Lemma ohas_clear c o k : ohas k (clear_conflicting c o) = ohas k o && negb (conflicts_with c k).
Proof.
  unfold clear_conflicting. rewrite ohas_fold_del. destruct (ohas k o) eqn:E; [cbn [andb]|done].
  rewrite bool_decide_eq_true_2 by by apply ohas_okeys. by rewrite andb_true_r.
Qed.

(** The fields by their categories. *)
Lemma category_ratio rt : rt ∈ RATIO_SYNC_FIELDS -> getBillingCategory rt = ratio.
Proof.
  assert (H : Forall (fun rt => getBillingCategory rt = ratio) RATIO_SYNC_FIELDS)
    by (repeat constructor; by vm_compute).
  rewrite Forall_forall in H. apply H.
Qed.

Lemma field_cases rt :
  rt ∈ SYNC_FIELD_ORDER -> rt ∈ RATIO_SYNC_FIELDS \/ rt = model_price \/ rt = billing_mode \/ rt = billing_expr.
Proof.
  unfold SYNC_FIELD_ORDER. rewrite elem_of_app, !elem_of_cons. intros [H|[H|[H|[H|H]]]]; auto.
  by apply not_elem_of_nil in H.
Qed.

Lemma category_fields :
  getBillingCategory model_price = price /\ getBillingCategory billing_mode = tiered
  /\ getBillingCategory billing_expr = tiered.
Proof. by vm_compute. Qed.

Lemma not_ratio rt : getBillingCategory rt <> ratio -> rt ∉ RATIO_SYNC_FIELDS.
Proof. intros H Hrt. by apply H, category_ratio. Qed.

Lemma exclusive_odel k o : exclusive o -> exclusive (odel k o).
Proof.
  intros [H1 H2 H3]. split.
  - auto with js.
  - intros j. rewrite ohas_odel. intros [_ Hj]%andb_true_iff. by apply H2.
  - rewrite ohas_odel. intros [_ Hp]%andb_true_iff rt Hrt. by rewrite ohas_odel, (H3 Hp rt Hrt), andb_false_r.
Qed.

(** A field of an expression does not meet the others. *)
Lemma exclusive_tiered k v o : k = billing_mode \/ k = billing_expr -> exclusive o -> exclusive (oset k v o).
Proof.
  intros Hk [H1 H2 H3]. destruct category_fields as (Hcp & Hcm & Hce).
  assert (Hc : getBillingCategory k = tiered) by by destruct Hk as [->| ->].
  split.
  - auto with js.
  - intros j. rewrite ohas_oset. intros [Hj|Hj]%orb_true_iff; [|by apply H2].
    apply bool_decide_eq_true in Hj as ->. destruct Hk as [->| ->];
      apply elem_of_app; right; rewrite !elem_of_cons; auto.
  - rewrite ohas_oset, bool_decide_eq_false_2 by (intros E; rewrite <- E, Hcp in Hc; done). cbn [orb].
    intros Hp rt Hrt. rewrite ohas_oset, (H3 Hp rt Hrt), bool_decide_eq_false_2; [done|].
    intros ->. rewrite category_ratio in Hc; done.
Qed.

(** Choosing a price or a ratio takes the other back. *)
Lemma exclusive_select rt v o :
  rt ∈ SYNC_FIELD_ORDER -> exclusive o -> exclusive (oset rt v (clear_conflicting (getBillingCategory rt) o)).
Proof.
  intros Hrt Ho. destruct category_fields as (Hcp & Hcm & Hce).
  assert (Hclear : exclusive (clear_conflicting (getBillingCategory rt) o)).
  { destruct Ho as [H1 H2 H3]. split.
    - by apply canonical_fold_del.
    - intros k. rewrite ohas_clear. intros [Hk _]%andb_true_iff. by apply H2.
    - rewrite ohas_clear. intros [Hp _]%andb_true_iff k Hk. by rewrite ohas_clear, (H3 Hp k Hk). }
  destruct (decide (getBillingCategory rt = tiered)) as [Ht|Ht].
  { apply exclusive_tiered; [|done]. destruct (field_cases rt Hrt) as [H|[->|H]]; [|congruence|done].
    by rewrite category_ratio in Ht. }
  destruct Hclear as [H1 H2 _]. split.
  - auto with js.
  - intros k. rewrite ohas_oset. intros [Hk|Hk]%orb_true_iff; [|by apply H2].
    by apply bool_decide_eq_true in Hk as ->.
  - rewrite ohas_oset, ohas_clear. unfold conflicts_with. rewrite Hcp.
    rewrite (bool_decide_eq_false_2 (_ = tiered)) by done.
    intros Hp k Hk. rewrite ohas_oset, ohas_clear. unfold conflicts_with. rewrite (category_ratio k Hk).
    rewrite (bool_decide_eq_false_2 (_ = tiered)) by done.
    destruct (field_cases rt Hrt) as [H|[->|H]]; [| |by destruct H as [->| ->]].
    + rewrite (category_ratio rt H) in Hp. apply orb_true_iff in Hp as [Hp|Hp].
      * apply bool_decide_eq_true in Hp. subst rt. by apply category_ratio in H.
      * cbn in Hp. by rewrite andb_false_r in Hp.
    + rewrite Hcp. rewrite (bool_decide_eq_false_2 (k = model_price)); [by rewrite andb_false_r|].
      intros ->. by rewrite category_ratio in Hcp.
Qed.

Lemma expr_not_mode : billing_expr <> billing_mode.
Proof. intros H. vm_compute in H. discriminate. Qed.

Lemma truthy_src (src : jsstr) : src <> [] -> truthy_str src = true.
Proof. apply truthy_str_spec. Qed.

(** An expression that is chosen comes with its mode. *)
Lemma add_tiered_ok d rt src o :
  rt = billing_mode \/ rt = billing_expr -> exclusive o -> ohas rt o = true -> choice_ok (add_tiered d rt src o).
Proof.
  intros Hrt Ho Hh. unfold add_tiered.
  set (m := upstream_value d billing_mode src). set (e := upstream_value d billing_expr src).
  set (o1 := if isSelectableUpstreamValue m then _ else _).
  assert (H1 : exclusive o1 /\ ohas billing_mode o1 = true).
  { unfold o1. destruct (isSelectableUpstreamValue m).
    - split; [by apply exclusive_tiered; [left|]|]. by rewrite ohas_oset, bool_decide_eq_true_2.
    - case_bool_decide as E.
      + split; [by apply exclusive_tiered; [left|]|]. by rewrite ohas_oset, bool_decide_eq_true_2.
      + split; [done|]. by destruct Hrt as [<-| ->]. }
  destruct H1 as [H1 H2]. destruct (isSelectableUpstreamValue e).
  - split; [by apply exclusive_tiered; [right|]|]. intros _. by rewrite ohas_oset, H2, orb_true_r.
  - split; [done|]. by intros _.
Qed.

Lemma res_ok_set m o res : res_ok res -> o <> [] -> choice_ok o -> res_ok (oset m (VObj o) res).
Proof.
  intros [Hc H] Hne Ho. split; [auto with js|]. intros k v. rewrite oget_oset. case_bool_decide; [|apply H].
  intros [= <-]. by exists o.
Qed.

Lemma res_ok_del m res : res_ok res -> res_ok (odel m res).
Proof.
  intros [Hc H]. split; [auto with js|]. intros k v. rewrite oget_odel. case_bool_decide; [done|apply H].
Qed.

Lemma ohas_not_nil k o : ohas k o = true -> o <> [].
Proof. by intros H ->. Qed.

Lemma ohas_add_tiered d rt src o k : ohas k o = true -> ohas k (add_tiered d rt src o) = true.
Proof.
  intros H. unfold add_tiered.
  assert (E : forall o v j, ohas k o = true -> ohas k (oset j v o) = true).
  { intros o' v j Ho. by rewrite ohas_oset, Ho, orb_true_r. }
  repeat (case_match; auto).
Qed.

Lemma select_ok diffs m rt v src res :
  res_ok res -> rt ∈ SYNC_FIELD_ORDER -> src <> [] -> truthy (at_ m diffs) = true ->
  getPreferredSyncField (at_ m diffs) rt src = rt ->
  res_ok (handleSelectValue diffs m rt v src res).
Proof.
  intros Hres Hrt Hsrc Hd Hp. unfold handleSelectValue. rewrite (truthy_src src Hsrc), Hp, Hd.
  rewrite (bool_decide_eq_true_2 (rt = rt)) by done. rewrite !andb_true_r.
  destruct (choice_ok_chosen res m Hres) as [Hx Hm]. set (o := chosen res m) in *.
  set (o1 := oset rt v _).
  assert (H1 : exclusive o1) by by apply exclusive_select.
  assert (Hh : ohas rt o1 = true) by (unfold o1; by rewrite ohas_oset, bool_decide_eq_true_2).
  case_bool_decide as Ht.
  - assert (Hk : rt = billing_mode \/ rt = billing_expr).
    { destruct (field_cases rt Hrt) as [H|[->|H]]; [|by destruct category_fields; congruence|done].
      by rewrite category_ratio in Ht. }
    apply res_ok_set; [done| |by apply add_tiered_ok]. by apply (ohas_not_nil rt), ohas_add_tiered.
  - apply res_ok_set; [done|by apply (ohas_not_nil rt)|]. split; [done|]. unfold with_mode, o1.
    destruct category_fields as (Hcp & Hcm & Hce). rewrite !ohas_oset, !ohas_clear. unfold conflicts_with.
    rewrite Hcm, Hce. rewrite (bool_decide_eq_true_2 (tiered = tiered)) by done. cbn [negb].
    rewrite !andb_false_r. cbn [andb negb]. rewrite !andb_true_r.
    intros [H|H]%orb_true_iff.
    + apply bool_decide_eq_true in H. subst rt. by rewrite Hce in Ht.
    + by rewrite (Hm H), orb_true_r.
Qed.

Lemma delete_ok m rt res : res_ok res -> res_ok (deleteResolutionField res m rt).
Proof.
  intros Hres. unfold deleteResolutionField. destruct (negb _); [done|].
  destruct (choice_ok_chosen res m Hres) as [Hx Hm]. set (o := chosen res m) in *.
  set (o1 := if bool_decide (rt = billing_expr) then _ else _).
  set (o2 := if bool_decide (rt = billing_mode) then _ else _).
  assert (H2 : exclusive o2).
  { unfold o2, o1. repeat case_bool_decide; auto using exclusive_odel. }
  assert (Hm2 : with_mode o2).
  { unfold with_mode, o2, o1. destruct (decide (rt = billing_expr)) as [->|He].
    - rewrite (bool_decide_eq_true_2 (billing_expr = billing_expr)) by done.
      rewrite (bool_decide_eq_false_2 _ expr_not_mode), !ohas_odel.
      rewrite (bool_decide_eq_true_2 (billing_expr = billing_expr)) by done. by rewrite andb_false_r.
    - rewrite (bool_decide_eq_false_2 _ He). destruct (decide (rt = billing_mode)) as [->|Hb].
      + rewrite (bool_decide_eq_true_2 (billing_mode = billing_mode)) by done. rewrite !ohas_odel.
        by rewrite (bool_decide_eq_true_2 (billing_expr = billing_expr)).
      + rewrite (bool_decide_eq_false_2 _ Hb), !ohas_odel. intros [_ H]%andb_true_iff.
        rewrite (Hm H), bool_decide_eq_false_2; [done|]. by intros <-. }
  destruct (is_empty o2) eqn:E; [by apply res_ok_del|]. apply res_ok_set; [done| |by split]. by destruct o2.
Qed.

Lemma diffs_object diffs m : diffs_ok diffs -> at_ m diffs = VUndef \/
  exists o, at_ m diffs = VObj o /\ canonical o /\ (forall k, ohas k o = true -> k ∈ SYNC_FIELD_ORDER)
            /\ forall rt, upstream_value (VObj o) rt [] = VUndef.
Proof.
  intros [_ H]. unfold at_. destruct (oget m diffs) as [v|] eqn:E; [right|by left].
  destruct (H m v E) as (o & -> & Ho). by exists o.
Qed.

Lemma offered_known diffs m rt src :
  diffs_ok diffs -> offered (at_ m diffs) src rt = true ->
  src <> [] /\ rt ∈ SYNC_FIELD_ORDER /\ truthy (at_ m diffs) = true
  /\ getPreferredSyncField (at_ m diffs) rt src = rt.
Proof.
  intros Hd [Hp Hs]%andb_true_iff. apply bool_decide_eq_true in Hp.
  destruct (diffs_object diffs m Hd) as [E|(o & E & _ & Hk & Hn)]; rewrite E in *; [done|].
  split; [intros ->; by rewrite Hn in Hs|]. split; [|done]. apply Hk. unfold ohas.
  unfold upstream_value in Hs. cbn [prop] in Hs. by destruct (oget rt o).
Qed.

Lemma offered_select_ok diffs m rt src res :
  diffs_ok diffs -> res_ok res -> offered (at_ m diffs) src rt = true ->
  forall v, res_ok (handleSelectValue diffs m rt v src res).
Proof. intros Hd Hres Ho v. destruct (offered_known diffs m rt src Hd Ho) as (? & ? & ? & ?). by apply select_ok. Qed.

Lemma fold_left_keeps {A S} (P : S -> Prop) (f : S -> A -> S) l s :
  P s -> (forall s x, P s -> x ∈ l -> P (f s x)) -> P (fold_left f l s).
Proof.
  revert s; induction l as [|x l IH]; intros s Hs H; [done|]. cbn [fold_left].
  apply IH; [apply H; [done|by left]|]. intros s' y Hs' Hy. apply H; [done|by right].
Qed.

Lemma filteredData_row search filter diffs row : row ∈ filteredData search filter diffs -> row ∈ diffs.
Proof.
  unfold filteredData, dataSource.
  assert (H : forall f : jsstr * jsval -> bool, row ∈ filterb f diffs -> row ∈ diffs)
    by (intros f [_ ?]%elem_of_filterb; done).
  destruct (truthy_str (trim search)), (_ && _); intros E; try by eapply H.
  - apply elem_of_filterb in E as [_ E]. by eapply H.
  - done.
Qed.

Lemma bulk_select_ok diffs filter up rows res :
  diffs_ok diffs -> res_ok res -> (forall row, row ∈ rows -> row ∈ diffs) ->
  res_ok (handleBulkSelect diffs filter up rows res).
Proof.
  intros Hd Hres Hrows. unfold handleBulkSelect. apply fold_left_keeps; [done|].
  intros r [m v] Hr Hin. cbn [fst snd]. apply fold_left_keeps; [done|]. intros r' rt Hr' Hrt.
  apply elem_of_filterb in Hrt as [Ho _]. apply offered_select_ok with (src := up); [done|done|].
  specialize (Hrows _ Hin). destruct Hd as [[Hnd _] _]. unfold at_. by rewrite (oget_elem m v diffs Hnd Hrows).
Qed.

Lemma bulk_unselect_ok filter up rows res : res_ok res -> res_ok (handleBulkUnselect filter up rows res).
Proof.
  intros H. unfold handleBulkUnselect. apply fold_left_keeps; [done|]. intros r row Hr _.
  apply fold_left_keeps; [done|]. intros r' rt Hr' _. by apply delete_ok.
Qed.

Lemma drop_field_ok m diffs rt : diffs_ok diffs -> diffs_ok (drop_field m diffs rt).
Proof.
  intros Hd. unfold drop_field. destruct (truthy _) eqn:Et; [|done].
  destruct (diffs_object diffs m Hd) as [E|(o & E & Hc & Hk & Hn)]; rewrite E in *; [done|]. cbn [entries_of].
  destruct Hd as [Hcd Hd]. destruct (is_empty _).
  - split; [auto with js|]. intros k v. rewrite oget_odel. case_bool_decide; [done|apply Hd].
  - split; [auto with js|]. intros k v. rewrite oget_oset. case_bool_decide; [|apply Hd]. intros [= <-].
    eexists. split; [reflexivity|]. split; [auto with js|]. split.
    + intros j. rewrite ohas_odel. intros [_ Hj]%andb_true_iff. by apply Hk.
    + intros j. specialize (Hn j). unfold upstream_value in *. cbn [prop] in *. rewrite oget_odel.
      by case_bool_decide.
Qed.

Lemma drop_resolved_ok res diffs : diffs_ok diffs -> diffs_ok (drop_resolved res diffs).
Proof.
  intros H. unfold drop_resolved. apply fold_left_keeps; [done|]. intros d e Hd _.
  apply fold_left_keeps; [done|]. intros d' rt Hd' _. by apply drop_field_ok.
Qed.

Lemma res_ok_nil : res_ok [].
Proof. by split; [apply canonical_nil|]. Qed.

(** ** Theorems: what is left of the comparison *)

Lemma chosen_oset k m o d : chosen (oset m (VObj o) d) k = if bool_decide (k = m) then o else chosen d k.
Proof. unfold chosen, at_. rewrite oget_oset. by case_bool_decide. Qed.

Lemma chosen_odel k m d : chosen (odel m d) k = if bool_decide (k = m) then [] else chosen d k.
Proof. unfold chosen, at_. rewrite oget_odel. by case_bool_decide. Qed.

(** Taking a field off the comparison takes nothing else off. *)
Lemma drop_field_spec m d rt k j :
  diffs_ok d ->
  oget j (chosen (drop_field m d rt) k)
  = if bool_decide (k = m) && bool_decide (j = rt) && truthy (at_ rt (chosen d m)) then None else oget j (chosen d k).
Proof.
  intros Hd. unfold drop_field.
  assert (E : prop rt (at_ m d) = at_ rt (chosen d m)).
  { unfold chosen. destruct (diffs_object d m Hd) as [->|(o & -> & _)]; done. }
  rewrite E. destruct (truthy _) eqn:Et; [|by rewrite andb_false_r]. fold (chosen d m). rewrite andb_true_r.
  assert (H : oget j (odel rt (chosen d m)) = if bool_decide (j = rt) then None else oget j (chosen d m)) by apply oget_odel.
  destruct (is_empty (odel rt (chosen d m))) eqn:Ee.
  - rewrite chosen_odel. destruct (decide (k = m)) as [->|Hne]; [|by rewrite !(bool_decide_eq_false_2 (k = m))].
    rewrite !(bool_decide_eq_true_2 (m = m)) by done. destruct (odel rt (chosen d m)); [exact H|done].
  - rewrite chosen_oset. destruct (decide (k = m)) as [->|Hne]; [|by rewrite !(bool_decide_eq_false_2 (k = m))].
    by rewrite !(bool_decide_eq_true_2 (m = m)).
Qed.

Lemma drop_fields_spec m rts d k j :
  diffs_ok d ->
  oget j (chosen (fold_left (drop_field m) rts d) k)
  = if bool_decide (k = m) && bool_decide (j ∈ rts) && truthy (at_ j (chosen d m)) then None else oget j (chosen d k).
Proof.
  revert d; induction rts as [|rt rts IH]; intros d Hd; cbn [fold_left].
  - by rewrite (bool_decide_eq_false_2 (j ∈ [])), andb_false_r by apply not_elem_of_nil.
  - rewrite (IH _ (drop_field_ok m d rt Hd)). unfold at_ at 1. rewrite !(drop_field_spec m d rt) by done.
    rewrite (bool_decide_eq_true_2 (m = m)) by done. cbn [andb].
    destruct (decide (k = m)) as [->|Hk]; [|by rewrite !(bool_decide_eq_false_2 (k = m))].
    rewrite !(bool_decide_eq_true_2 (m = m)) by done. cbn [andb]. fold (at_ j (chosen d m)).
    destruct (decide (j = rt)) as [->|Hj].
    + rewrite (bool_decide_eq_true_2 (rt = rt)), (bool_decide_eq_true_2 (rt ∈ rt :: rts)) by (done || by left).
      cbn [andb]. destruct (truthy (at_ rt (chosen d m))) eqn:Et; [by destruct (bool_decide (rt ∈ rts))|].
      fold (at_ rt (chosen d m)). by rewrite Et, andb_false_r.
    + rewrite (bool_decide_eq_false_2 (j = rt)) by done. cbn [andb]. fold (at_ j (chosen d m)).
      assert (Eb : bool_decide (j ∈ rt :: rts) = bool_decide (j ∈ rts))
        by (apply bool_decide_ext; rewrite elem_of_cons; naive_solver).
      by rewrite Eb.
Qed.

Lemma drop_fields_ok m rts d : diffs_ok d -> diffs_ok (fold_left (drop_field m) rts d).
Proof. intros H. apply fold_left_keeps; [done|]. intros d' rt Hd' _. by apply drop_field_ok. Qed.

Lemma chosen_cons m v res k :
  chosen ((m, v) :: res) k = if bool_decide (m = k) then entries_of v else chosen res k.
Proof. unfold chosen, at_. cbn [oget]. by case_bool_decide. Qed.

Lemma drop_resolved_spec res d k j :
  NoDup (okeys res) -> diffs_ok d ->
  oget j (chosen (drop_resolved res d) k)
  = if ohas j (chosen res k) && truthy (at_ j (chosen d k)) then None else oget j (chosen d k).
Proof.
  unfold drop_resolved. revert d; induction res as [|[m v] res IH]; intros d Hn Hd; [done|].
  apply NoDup_cons in Hn as [Hm Hn]. cbn [fold_left fst snd].
  rewrite (IH _ Hn (drop_fields_ok _ _ _ Hd)). unfold at_ at 1. rewrite !(drop_fields_spec m) by done.
  rewrite chosen_cons. destruct (decide (m = k)) as [->|Hne].
  - assert (Enone : chosen res k = []).
    { unfold chosen, at_. assert (E : oget k res = None) by by apply oget_None_okeys. by rewrite E. }
    assert (Eo : bool_decide (j ∈ okeys (entries_of v)) = ohas j (entries_of v))
      by (apply eq_true_iff_eq; by rewrite bool_decide_eq_true, ohas_okeys).
    rewrite Enone, Eo. by rewrite !(bool_decide_eq_true_2 (k = k)).
  - rewrite !(bool_decide_eq_false_2 (k = m)), (bool_decide_eq_false_2 (m = k)) by done. done.
Qed.

(** ** Theorems: what is written *)

(** The options of the fields: each its own. *)
Lemma field_options rt rt' :
  rt ∈ SYNC_FIELD_ORDER -> rt' ∈ SYNC_FIELD_ORDER ->
  optionKeyBySyncField rt ∈ OPTION_KEYS
  /\ (optionKeyBySyncField rt = optionKeyBySyncField rt' -> rt = rt')
  /\ bool_decide (optionKeyBySyncField rt ∈ RATIO_KEYS) = bool_decide (rt ∈ RATIO_SYNC_FIELDS)
  /\ bool_decide (optionKeyBySyncField rt = PRICE_KEY) = bool_decide (rt = model_price).
Proof.
  assert (T : forallb (fun a => bool_decide (optionKeyBySyncField a ∈ OPTION_KEYS)
      && forallb (fun b => negb (bool_decide (optionKeyBySyncField a = optionKeyBySyncField b)) || bool_decide (a = b))
           SYNC_FIELD_ORDER
      && Bool.eqb (bool_decide (optionKeyBySyncField a ∈ RATIO_KEYS)) (bool_decide (a ∈ RATIO_SYNC_FIELDS))
      && Bool.eqb (bool_decide (optionKeyBySyncField a = PRICE_KEY)) (bool_decide (a = model_price)))
      SYNC_FIELD_ORDER = true) by by vm_compute.
  intros H H'. rewrite forallb_elem in T. specialize (T rt H).
  apply andb_true_iff in T as [T T4]. apply andb_true_iff in T as [T T3]. apply andb_true_iff in T as [T1 T2].
  rewrite forallb_elem in T2. specialize (T2 rt' H').
  split; [by apply bool_decide_eq_true in T1|]. split; [|by split; apply Bool.eqb_prop].
  intros E. rewrite bool_decide_eq_true_2 in T2 by done. by apply bool_decide_eq_true in T2.
Qed.

Lemma at_option_mset k j a f : at_option k (mset j a f) = if bool_decide (k = j) then a else at_option k f.
Proof. unfold at_option. rewrite mget_mset. by case_bool_decide. Qed.

Lemma at_final key cur : key ∈ OPTION_KEYS -> at_option key (finalRatios cur) = entries_of (cur key).
Proof.
  unfold at_option, finalRatios. generalize OPTION_KEYS. induction l as [|k l IH]; intros H.
  - by apply not_elem_of_nil in H.
  - cbn. case_bool_decide as E; [by subst|]. apply elem_of_cons in H as [?|H]; [done|by apply IH].
Qed.

Definition keys_ok (f : Ratios) : Prop := fst <$> f = OPTION_KEYS.

Lemma keys_ok_final cur : keys_ok (finalRatios cur).
Proof. unfold keys_ok, finalRatios. rewrite <- list_fmap_compose. by rewrite (list_fmap_ext _ id), list_fmap_id. Qed.

Lemma keys_ok_mset key a f : key ∈ OPTION_KEYS -> keys_ok f -> keys_ok (mset key a f).
Proof. intros H Hf. unfold keys_ok. rewrite mset_keys, Hf. by rewrite bool_decide_eq_true_2. Qed.

Lemma keys_ok_get key f : key ∈ OPTION_KEYS -> keys_ok f -> mget key f = Some (at_option key f).
Proof.
  intros H Hf. unfold at_option. rewrite <- Hf in H. apply mget_elem in H as [a E]. by rewrite E.
Qed.

Lemma oget_delete_in x m k j f :
  oget x (at_option k (delete_in m j f))
  = if bool_decide (k = j) && bool_decide (x = m) then None else oget x (at_option k f).
Proof.
  unfold delete_in. rewrite at_option_mset. case_bool_decide as E; [|done]. subst.
  rewrite oget_odel. by case_bool_decide.
Qed.

Lemma oget_delete_all x m k keys f :
  oget x (at_option k (fold_left (fun f key => delete_in m key f) keys f))
  = if bool_decide (k ∈ keys) && bool_decide (x = m) then None else oget x (at_option k f).
Proof.
  revert f; induction keys as [|j keys IH]; intros f; cbn [fold_left].
  - by rewrite bool_decide_eq_false_2 by apply not_elem_of_nil.
  - rewrite IH, oget_delete_in. destruct (decide (k = j)) as [->|H].
    + rewrite (bool_decide_eq_true_2 (j = j)), (bool_decide_eq_true_2 (j ∈ j :: keys)) by (done || by left).
      cbn [andb]. by destruct (bool_decide (x = m)), (bool_decide (j ∈ keys)).
    + rewrite (bool_decide_eq_false_2 (k = j)) by done. cbn [andb].
      assert (E : bool_decide (k ∈ j :: keys) = bool_decide (k ∈ keys))
        by (apply bool_decide_ext; rewrite elem_of_cons; naive_solver).
      by rewrite E.
Qed.

Lemma keys_ok_delete m keys f :
  (forall k, k ∈ keys -> k ∈ OPTION_KEYS) -> keys_ok f -> keys_ok (fold_left (fun f key => delete_in m key f) keys f).
Proof. intros Hk Hf. apply fold_left_keeps; [done|]. intros f' k Hf' Hin. apply keys_ok_mset; auto. Qed.

(** The fields of a model, written one after the other. *)
Lemma write_fields m ratios f :
  NoDup (okeys ratios) -> (forall k, ohas k ratios = true -> k ∈ SYNC_FIELD_ORDER) -> keys_ok f ->
  exists f', ofold (write_field m) ratios f = Return f' /\ keys_ok f'
  /\ forall rt x, rt ∈ SYNC_FIELD_ORDER ->
     oget x (at_option (optionKeyBySyncField rt) f')
     = match (if bool_decide (x = m) then oget rt ratios else None) with
       | Some v => Some (written rt v)
       | None => oget x (at_option (optionKeyBySyncField rt) f)
       end.
Proof.
  revert f; induction ratios as [|[j v] ratios IH]; intros f Hn Hk Hf.
  - exists f. split_and!; [done|done|]. intros rt x _. cbn [oget]. by destruct (bool_decide (x = m)).
  - apply NoDup_cons in Hn as [Hj Hn].
    assert (Hkj : j ∈ SYNC_FIELD_ORDER) by (apply Hk, ohas_okeys; by left).
    destruct (field_options j j Hkj Hkj) as [Ho _].
    set (f1 := mset (optionKeyBySyncField j) (oset m (written j v) (at_option (optionKeyBySyncField j) f)) f).
    destruct (IH f1) as (f' & E & Hf' & Hr); [done| |by apply keys_ok_mset|].
    { intros k H. apply Hk, ohas_okeys. right. by apply ohas_okeys. }
    exists f'. split_and!; [|done|].
    + cbn [ofold]. unfold write_field at 1. cbn [fst snd]. rewrite (keys_ok_get _ f Ho Hf). exact E.
    + intros rt x Hrt. rewrite (Hr rt x Hrt). unfold f1. rewrite at_option_mset. cbn [oget].
      destruct (field_options rt j Hrt Hkj) as (_ & Hinj & _).
      destruct (decide (j = rt)) as [->|Hne].
      * rewrite (bool_decide_eq_true_2 (rt = rt)), (bool_decide_eq_true_2 (optionKeyBySyncField rt = _)) by done.
        assert (Hnone : oget rt ratios = None) by by apply oget_None_okeys. rewrite Hnone.
        case_bool_decide as Ex; [subst x; by rewrite oget_oset_eq|]. by rewrite oget_oset_ne.
      * rewrite (bool_decide_eq_false_2 (j = rt)) by done.
        rewrite (bool_decide_eq_false_2 (optionKeyBySyncField rt = _)); [done|]. intros E'. by apply Hne, eq_sym, Hinj.
Qed.

(** Whether writing the choice [o] deletes what the option of the field [rt] held. *)
Definition replaced (o : obj) (rt : jsstr) : bool :=
  hasPrice o && bool_decide (rt ∈ RATIO_SYNC_FIELDS) || hasRatio o && bool_decide (rt = model_price).

(** What the option of [rt] holds for a model after the choice [o], where it held [old]. *)
Definition after_choice (o : obj) (rt : jsstr) (old : option jsval) : option jsval :=
  match oget rt o with
  | Some v => Some (written rt v)
  | None => if replaced o rt then None else old
  end.

Lemma apply_model_spec m o f :
  exclusive o -> keys_ok f ->
  exists f', apply_model f (m, VObj o) = Return f' /\ keys_ok f'
  /\ forall rt x, rt ∈ SYNC_FIELD_ORDER ->
     oget x (at_option (optionKeyBySyncField rt) f')
     = if bool_decide (x = m) then after_choice o rt (oget x (at_option (optionKeyBySyncField rt) f))
       else oget x (at_option (optionKeyBySyncField rt) f).
Proof.
  intros [[Hn _] Hk _] Hf. unfold apply_model. cbn [fst snd entries_of].
  set (f1 := if hasPrice o then _ else _). set (f2 := if hasRatio o then _ else _).
  assert (Hsub : forall k, k ∈ RATIO_KEYS -> k ∈ OPTION_KEYS) by (intros k H; apply elem_of_app; by left).
  assert (Hp : PRICE_KEY ∈ OPTION_KEYS) by (apply elem_of_app; right; by left).
  assert (H1 : keys_ok f1) by (unfold f1; destruct (hasPrice o); [by apply keys_ok_delete|done]).
  assert (H2 : keys_ok f2) by (unfold f2; destruct (hasRatio o); [by apply keys_ok_mset|done]).
  destruct (write_fields m o f2 Hn Hk H2) as (f' & E & Hf' & Hr). exists f'. split; [done|]. split; [done|].
  intros rt x Hrt. rewrite (Hr rt x Hrt). destruct (field_options rt rt Hrt Hrt) as (_ & _ & E1 & E2).
  assert (H : oget x (at_option (optionKeyBySyncField rt) f2)
              = if replaced o rt && bool_decide (x = m) then None
                else oget x (at_option (optionKeyBySyncField rt) f)).
  { unfold f2, f1, replaced. destruct (hasRatio o), (hasPrice o); rewrite ?oget_delete_in, ?oget_delete_all, ?E1, ?E2;
      by destruct (bool_decide (rt ∈ RATIO_SYNC_FIELDS)), (bool_decide (rt = model_price)), (bool_decide (x = m)). }
  rewrite H. unfold after_choice. destruct (bool_decide (x = m)); [by rewrite andb_true_r|by rewrite andb_false_r].
Qed.

Lemma apply_resolutions res f :
  NoDup (okeys res) -> (forall m v, (m, v) ∈ res -> exists o, v = VObj o /\ exclusive o) -> keys_ok f ->
  exists f', ofold apply_model res f = Return f' /\ keys_ok f'
  /\ forall rt x, rt ∈ SYNC_FIELD_ORDER ->
     oget x (at_option (optionKeyBySyncField rt) f')
     = match oget x res with
       | Some v => after_choice (entries_of v) rt (oget x (at_option (optionKeyBySyncField rt) f))
       | None => oget x (at_option (optionKeyBySyncField rt) f)
       end.
Proof.
  revert f; induction res as [|[m v] res IH]; intros f Hn Hv Hf.
  - by exists f.
  - apply NoDup_cons in Hn as [Hm Hn]. destruct (Hv m v) as (o & -> & Ho); [by left|].
    destruct (apply_model_spec m o f Ho Hf) as (f1 & E1 & Hf1 & Hr1).
    destruct (IH f1 Hn) as (f' & E & Hf' & Hr); [intros k w Hkw; apply (Hv k); by right|done|].
    exists f'. split; [cbn [ofold]; by rewrite E1|]. split; [done|]. intros rt x Hrt.
    rewrite (Hr rt x Hrt), (Hr1 rt x Hrt). cbn [oget]. destruct (decide (m = x)) as [->|Hne].
    + rewrite !(bool_decide_eq_true_2 (x = x)) by done.
      assert (E' : oget x res = None) by by apply oget_None_okeys. by rewrite E'.
    + by rewrite (bool_decide_eq_false_2 (m = x)), (bool_decide_eq_false_2 (x = m)) by done.
Qed.

Lemma synced_spec cur res :
  res_ok res -> exists f, synced cur res = Return f /\ keys_ok f
  /\ forall rt m, rt ∈ SYNC_FIELD_ORDER ->
     oget m (at_option (optionKeyBySyncField rt) f)
     = after_choice (chosen res m) rt (oget m (entries_of (cur (optionKeyBySyncField rt)))).
Proof.
  intros [[Hn Hs] Hres].
  destruct (apply_resolutions res (finalRatios cur) Hn) as (f & E & Hf & Hr).
  - intros m v Hin. apply (oget_elem m v res Hn) in Hin. destruct (Hres m v Hin) as (o & -> & _ & [Ho _]). by exists o.
  - apply keys_ok_final.
  - exists f. split; [done|]. split; [done|]. intros rt m Hrt. rewrite (Hr rt m Hrt).
    rewrite at_final by by destruct (field_options rt rt Hrt Hrt). unfold chosen, at_.
    by destruct (oget m res).
Qed.

Section Runs.
Context (tr : jsstr -> jsstr).

(** A page from its first render on; the server names known fields and every source. *)
Definition first_page (ratios : jsstr -> jsstr) : Page :=
  {| differences := []; resolutions := []; modelRatios := ratios; conflictItems := [];
     conflictDialogOpen := false; confirmLoading := false; fetching := false; sending := None; sent := [];
     said := [] |}.

Inductive reachable : Page -> Prop :=
  | reach_first ratios : reachable (first_page ratios)
  | reach_step p e p' :
      reachable p -> match e with Fetched (Compared diffs _) => diffs_ok diffs | _ => True end ->
      step tr p e = Some p' -> reachable p'.

Lemma idle_some (p q : Page) (b : bool) : (if b then None else Some q) = Some p -> p = q /\ b = false.
Proof. destruct b; [done|]. by intros [= ->]. Qed.

Record page_ok (p : Page) : Prop := {
  p_diffs : diffs_ok (differences p);
  p_res : res_ok (resolutions p);
  p_sending : sending p <> Some [] }.

Lemma performSync_ok p p' : page_ok p -> performSync p = Return p' -> page_ok p'.
Proof.
  intros [H1 H2 H3]. unfold performSync.
  destruct (synced_spec (parsedRatios p) (resolutions p) H2) as (f & -> & Hf & _).
  intros [= <-]. split; [done|done|]. cbn [sending set_sending]. intros [= Hu].
  apply (f_equal length) in Hu. apply (f_equal length) in Hf. unfold updates in Hu. rewrite !length_fmap in *.
  rewrite Hu in Hf. by vm_compute in Hf.
Qed.

Lemma catch_ok p p' : page_ok p -> page_ok p' -> page_ok (catch (performSync p) p').
Proof. intros H H'. destruct (performSync p) eqn:E; [exact (performSync_ok p _ H E)|done]. Qed.

(** Changes that leave the comparison, the choice and the requests alone. *)
Lemma page_ok_same p p' :
  differences p' = differences p -> resolutions p' = resolutions p -> sending p' = sending p -> page_ok p -> page_ok p'.
Proof. intros Ed Er Es [H1 H2 H3]. split; by rewrite ?Ed, ?Er, ?Es. Qed.

Lemma page_ok_res p res : page_ok p -> res_ok res -> page_ok (set_resolutions res p).
Proof. intros [H1 H2 H3] H. by split. Qed.

Lemma answered_ok r p p' : page_ok p -> answered r p = Some p' -> page_ok p'.
Proof.
  intros Hp. pose proof Hp as [H1 H2 H3]. unfold answered. destruct (sending p) as [[|u rest]|]; [done| |done].
  destruct r as [data|resp m]; [destruct rest as [|u' rest]|]; intros [= <-].
  - split; [by apply drop_resolved_ok|apply res_ok_nil|done].
  - by split.
  - by split.
Qed.

Lemma reachable_ok p : reachable p -> page_ok p.
Proof.
  induction 1 as [ratios|p e p' _ IH He E].
  - split; [by split; [apply canonical_nil|]|apply res_ok_nil|done].
  - pose proof IH as [H1 H2 H3].
    destruct e as [|c|ratios|m rt src|m rt|up search fl|up search fl| | | |r]; cbn [step] in E.
    + apply idle_some in E as [-> _]. by apply (page_ok_same p).
    + destruct (fetching p); [|done]. apply (inj Some) in E as <-. destruct c as [diffs failed|m|m].
      * split; [by destruct failed|by destruct failed; apply res_ok_nil|by destruct failed].
      * by apply (page_ok_same p).
      * by apply (page_ok_same p).
    + apply (inj Some) in E as <-. by apply (page_ok_same p).
    + destruct (offered _ _ _) eqn:Ho; [|done]. apply idle_some in E as [-> _].
      apply page_ok_res; [done|]. by apply (offered_select_ok _ _ _ src).
    + apply idle_some in E as [-> _]. apply page_ok_res; [done|by apply delete_ok].
    + apply idle_some in E as [-> _]. apply page_ok_res; [done|]. apply bulk_select_ok; [done|done|].
      intros row. apply filteredData_row.
    + apply idle_some in E as [-> _]. apply page_ok_res; [done|by apply bulk_unselect_ok].
    + destruct (is_empty (resolutions p)); [done|]. apply idle_some in E as [-> _]. unfold handleApplySync.
      destruct (conflicts_of _ _ _ _) as [[|i items]|]; [|by apply (page_ok_same p)|done].
      apply catch_ok; by apply (page_ok_same p).
    + destruct (conflictDialogOpen p); [|done]. apply (inj Some) in E as <-. by apply (page_ok_same p).
    + destruct (_ && _); [|done]. apply (inj Some) in E as <-. unfold handleConfirmConflict.
      apply catch_ok; by apply (page_ok_same p).
    + by eapply answered_ok.
Qed.

(** What is chosen stays consistent.  After any comparisons, choices, bulk choices, retractions
    and saves, the fields chosen for a model are a fixed price or ratios, never both; an
    expression is never chosen without a billing mode; and a model is listed as long as
    something is chosen for it. *)
Theorem choices_exclusive p m :
  reachable p ->
  let o := chosen (resolutions p) m in
  (ohas model_price o = true -> forall rt, rt ∈ RATIO_SYNC_FIELDS -> ohas rt o = false)
  /\ (ohas billing_expr o = true -> ohas billing_mode o = true)
  /\ (ohas m (resolutions p) = true <-> o <> []).
Proof.
  intros H o. pose proof (p_res p (reachable_ok p H)) as Hr. destruct (choice_ok_chosen _ m Hr) as [Hx Hm].
  split; [apply (x_one _ Hx)|]. split; [exact Hm|]. destruct Hr as [_ Hr]. unfold o, chosen, at_, ohas.
  destruct (oget m (resolutions p)) as [v|] eqn:E; [|done]. by destruct (Hr m v E) as (w & -> & Hw & _).
Qed.

Lemma oget_has k o v : oget k o = Some v -> ohas k o = true.
Proof. unfold ohas. by intros ->. Qed.

Lemma hasRatio_spec o : hasRatio o = true <-> exists rt, rt ∈ RATIO_SYNC_FIELDS /\ ohas rt o = true.
Proof.
  unfold hasRatio. rewrite existsb_elem. split.
  - intros (rt & H & H2%bool_decide_eq_true). exists rt. split; [done|by apply ohas_okeys].
  - intros (rt & H & H2%ohas_okeys). exists rt. split; [done|by apply bool_decide_eq_true].
Qed.

Lemma hasPrice_spec o : hasPrice o = ohas model_price o.
Proof. unfold hasPrice. apply eq_true_iff_eq. by rewrite bool_decide_eq_true, ohas_okeys. Qed.

Lemma price_field : model_price ∈ SYNC_FIELD_ORDER.
Proof. apply elem_of_app. right. by left. Qed.

Lemma price_option : optionKeyBySyncField model_price = PRICE_KEY.
Proof. by vm_compute. Qed.

(** C5. A save writes what was chosen, and nothing else changes.  It sends each of the ten options
    once; in each, a model for which its field was chosen has the chosen value, a model for
    which a price replaces ratios, or ratios a price, has lost the replaced ones, and every
    other entry is what it was.  So a model saved with a price has no ratio, and one saved
    with a ratio no price. *)
Theorem sync_writes_exact p :
  reachable p ->
  exists f p', performSync p = Return p' /\ sending p' = Some (updates f) /\ fst <$> f = OPTION_KEYS
  /\ forall m, let o := chosen (resolutions p) m in
     (forall rt, rt ∈ SYNC_FIELD_ORDER ->
        oget m (at_option (optionKeyBySyncField rt) f)
        = match oget rt o with
          | Some v => Some (written rt v)
          | None => if replaced o rt then None else oget m (entries_of (parsedRatios p (optionKeyBySyncField rt)))
          end)
     /\ (ohas model_price o = true -> forall rt, rt ∈ RATIO_SYNC_FIELDS ->
           oget m (at_option (optionKeyBySyncField rt) f) = None)
     /\ (forall rt, rt ∈ RATIO_SYNC_FIELDS -> ohas rt o = true -> oget m (at_option PRICE_KEY f) = None).
Proof.
  intros H. pose proof (p_res p (reachable_ok p H)) as Hres.
  destruct (synced_spec (parsedRatios p) (resolutions p) Hres) as (f & E & Hf & Hr).
  exists f. eexists. split; [unfold performSync; by rewrite E|]. split; [done|]. split; [exact Hf|].
  intros m o. destruct (choice_ok_chosen _ m Hres) as [Hx _]. fold o in Hx.
  assert (Hin : forall rt, rt ∈ RATIO_SYNC_FIELDS -> rt ∈ SYNC_FIELD_ORDER)
    by (intros rt Hrt; apply elem_of_app; by left).
  split; [|split].
  - intros rt Hrt. by rewrite (Hr rt m Hrt).
  - intros Hp rt Hrt. rewrite (Hr rt m (Hin rt Hrt)). fold o. unfold after_choice.
    pose proof (x_one _ Hx Hp rt Hrt) as Hnone. unfold ohas in Hnone. destruct (oget rt o); [done|].
    unfold replaced. by rewrite hasPrice_spec, Hp, bool_decide_eq_true_2.
  - intros rt Hrt Ho. rewrite <- price_option, (Hr _ m price_field). fold o. unfold after_choice.
    destruct (oget model_price o) as [v|] eqn:Ep.
    + apply oget_has in Ep. by rewrite (x_one _ Hx Ep rt Hrt) in Ho.
    + unfold replaced. rewrite (proj2 (hasRatio_spec o)) by by exists rt.
      by rewrite (bool_decide_eq_true_2 (model_price = model_price)), orb_true_r.
Qed.

(** *** Conflicts *)

Lemma conflicts_extend diffs cur l acc r :
  ofold (add_conflict tr diffs cur) l acc = Return r ->
  exists s, r = acc ++ s /\ (s = [] -> forall m v c, (m, v) ∈ l -> getLocalBillingCategory m cur = Return (Some c) ->
    new_category (entries_of v) = tiered \/ new_category (entries_of v) = c).
Proof.
  revert acc; induction l as [|[m v] l IH]; intros acc E; cbn [ofold] in E.
  - injection E as <-. exists []. split; [by rewrite app_nil_r|]. intros _ m v c Hin. by apply not_elem_of_nil in Hin.
  - destruct (add_conflict tr diffs cur acc (m, v)) as [acc1|] eqn:E1; [|done]. cbn [obind] in E.
    destruct (IH acc1 E) as (s & -> & Hs). unfold add_conflict in E1.
    destruct (getLocalBillingCategory m cur) as [[c|]|] eqn:El; [| |done]; cbn [obind] in E1.
    + destruct (negb (bool_decide (_ = tiered)) && _) eqn:Ec.
      * destruct (current_text tr cur m c) as [text|]; [|done]. cbn [omapr] in E1. injection E1 as <-.
        eexists. split; [by rewrite <- app_assoc|]. done.
      * injection E1 as <-. exists s. split; [done|]. intros Hn k w d [[= -> ->]|Hin]%elem_of_cons Hd; [|by eapply Hs].
        rewrite El in Hd. injection Hd as <-. apply andb_false_iff in Ec as [Ec|Ec]; bool_hyps; [by left|by right].
    + injection E1 as <-. exists s. split; [done|]. intros Hn k w d [[= -> ->]|Hin]%elem_of_cons Hd; [congruence|by eapply Hs].
Qed.

Lemma new_category_spec o :
  match new_category o with
  | price => ohas model_price o = true
  | ratio => ohas model_price o = false /\ hasRatio o = true
  | tiered => ohas model_price o = false /\ hasRatio o = false
  end.
Proof.
  unfold new_category. destruct (ohas model_price o); [done|].
  assert (E : existsb (fun rt => bool_decide (rt ∈ okeys o)) RATIO_SYNC_FIELDS = hasRatio o).
  { apply eq_true_iff_eq. rewrite hasRatio_spec, existsb_elem. split; intros (rt & Hrt & Ho); exists rt;
      (split; [done|]); [apply bool_decide_eq_true in Ho; by apply ohas_okeys|apply ohas_okeys in Ho; by apply bool_decide_eq_true]. }
  rewrite E. by destruct (hasRatio o).
Qed.

(** C6. A save that asks nothing changes no model from a fixed price to ratios or back.  When
    applying finds no conflict, a model that had a fixed price has one afterwards, and a model
    that had ratios alone has no fixed price afterwards, as the code reads both. *)
Theorem unasked_sync_keeps_kind p f m c :
  reachable p -> conflicts_of tr (differences p) (parsedRatios p) (resolutions p) = Return [] ->
  synced (parsedRatios p) (resolutions p) = Return f ->
  getLocalBillingCategory m (parsedRatios p) = Return (Some c) ->
  is_set (at_ m (at_option PRICE_KEY f)) = bool_decide (c = price).
Proof.
  intros H Hc Hf Hl. pose proof (p_res p (reachable_ok p H)) as Hres.
  destruct (synced_spec (parsedRatios p) (resolutions p) Hres) as (f' & E & _ & Hr).
  rewrite Hf in E. injection E as <-. specialize (Hr _ m price_field). rewrite price_option in Hr.
  destruct (conflicts_extend _ _ _ _ _ Hc) as (s & Es & Hn). cbn [app] in Es. subst s.
  set (o := chosen (resolutions p) m) in *.
  assert (Hk : new_category o = tiered \/ new_category o = c).
  { unfold o, chosen, at_. destruct (oget m (resolutions p)) as [v|] eqn:Ev; [|by left].
    apply (Hn eq_refl m v c); [by apply oget_Some_elem|done]. }
  assert (Hold : is_set (at_ m (entries_of (parsedRatios p PRICE_KEY))) = bool_decide (c = price)).
  { unfold getLocalBillingCategory, read_key in Hl. destruct (nullish _); [done|]. cbn [obind] in Hl.
    destruct (is_set _); [by injection Hl as <-|].
    destruct (any_set _ _ _) as [[]|]; try done. by injection Hl as <-. }
  unfold at_ in *. rewrite Hr. unfold after_choice. pose proof (new_category_spec o) as Hs.
  destruct (oget model_price o) as [v|] eqn:Ep.
  - apply oget_has in Ep. destruct (new_category o); [|by destruct Hs; congruence..].
    destruct Hk as [Hk|<-]; [done|]. unfold written. by rewrite bool_decide_eq_true_2 by (apply elem_of_app; right; by left).
  - assert (Hp : ohas model_price o = false) by (unfold ohas; by rewrite Ep).
    unfold replaced. rewrite hasPrice_spec, Hp. cbn [andb orb].
    rewrite (bool_decide_eq_true_2 (model_price = model_price)) by done. rewrite andb_true_r.
    destruct (hasRatio o) eqn:Eh; [|exact Hold].
    destruct (new_category o); [congruence| |by destruct Hs; congruence]. by destruct Hk as [Hk|<-].
Qed.

(** *** The end of a save *)

(** C21. Every update that is answered is taken as saved, whatever the answer says: after ten
    answers, of which any may refuse the option, the page reports that the prices were
    synced, forgets what was chosen, and takes exactly the fields it was chosen for off the
    comparison. *)
Theorem answered_sync_is_done p us ds :
  reachable p -> sending p = Some us -> length ds = length us ->
  exists p', run tr p ((fun d => Answered (Answer d)) <$> ds) = Some p'
  /\ sending p' = None /\ sent p' = sent p ++ tail us /\ resolutions p' = [] /\ confirmLoading p' = false
  /\ last (said p') = Some (Success (t "Prices synced successfully"))
  /\ forall m rt, oget rt (chosen (differences p') m)
     = if ohas rt (chosen (resolutions p) m) && truthy (at_ rt (chosen (differences p) m)) then None
       else oget rt (chosen (differences p) m).
Proof.
  intros H. pose proof (reachable_ok p H) as Hok. clear H. revert us p Hok.
  induction ds as [|d ds IH]; intros us p Hok Hs Hl.
  - destruct us; [|done]. by destruct (p_sending p Hok).
  - destruct us as [|u us]; [done|]. injection Hl as Hl. cbn [fmap list_fmap run step].
    destruct us as [|u' us].
    + assert (E : answered (Answer d) p = Some (sync_done p)) by (unfold answered; by rewrite Hs).
      rewrite E. destruct ds; [|done]. exists (sync_done p). split; [done|]. split; [done|].
      split; [by rewrite app_nil_r|]. split; [done|]. split; [done|].
      split; [cbn [sync_done said say]; apply last_snoc|].
      intros m rt. destruct (p_res p Hok) as [[Hn _] _]. apply drop_resolved_spec; [done|apply (p_diffs p Hok)].
    + assert (E : answered (Answer d) p = Some (set_sending (Some (u' :: us)) p)) by (unfold answered; by rewrite Hs).
      rewrite E. destruct (IH (u' :: us) (set_sending (Some (u' :: us)) p)) as (p' & E' & H1 & H2 & H3); [|done|done|].
      * exact (answered_ok _ _ _ Hok E).
      * exists p'. split; [exact E'|]. split; [exact H1|]. split; [|exact H3]. rewrite H2.
        cbn [set_sending sent tail]. by rewrite <- app_assoc.
Qed.

Lemma reachable_run p es p' :
  reachable p -> Forall (fun e => match e with Fetched (Compared diffs _) => diffs_ok diffs | _ => True end) es ->
  run tr p es = Some p' -> reachable p'.
Proof.
  intros H Hes. revert p H; induction Hes as [|e es He _ IH]; intros p H; cbn [run]; [by intros [= <-]|].
  destruct (step tr p e) as [q|] eqn:E; [|done]. apply IH. by eapply reach_step.
Qed.

Lemma sync_has_maps p : reachable p -> exists f, synced (parsedRatios p) (resolutions p) = Return f.
Proof.
  intros H. destruct (synced_spec (parsedRatios p) (resolutions p) (p_res p (reachable_ok p H))) as (f & E & _).
  by exists f.
Qed.
End Runs.

(** ** Examples and witnesses *)

Definition entry (current : jsval) (source : String.string) (v : Z) : jsval :=
  VObj (obj_of [(js "current", current); (js "upstreams", VObj (obj_of [(js source, VNum (num_of_Z v))]))]).
Arguments entry current source%_string_scope v.

(** One model with a ratio offered by one source and a price by another. *)
Definition some_diffs : obj :=
  obj_of [(js "gpt-4o", VObj (obj_of [(js "model_ratio", entry (VNum (num_of_Z 1)) "east(1)" 2%Z);
                                      (model_price, entry VNull "west(2)" 3%Z)]))].

(** The stored ratio of the model. *)
Definition some_ratios (key : jsstr) : jsstr :=
  if bool_decide (key = js "ModelRatio") then pretty (VObj (obj_of [(js "gpt-4o", VNum (num_of_Z 1))])) else [].

Definition choose_ratio : list event :=
  [Fetch; Fetched (Compared some_diffs []); Select (js "gpt-4o") (js "model_ratio") (js "east(1)")].

Definition choose_price : list event := choose_ratio ++ [Select (js "gpt-4o") model_price (js "west(2)")].

Lemma some_diffs_ok : diffs_ok some_diffs.
Proof.
  split; [apply canonical_obj_of|]. intros m v E. apply oget_Some_elem in E.
  apply list_elem_of_singleton in E as [= -> ->].
  eexists. split; [reflexivity|]. split; [apply canonical_obj_of|]. split.
  - intros k [Hk|[Hk|Hk%not_elem_of_nil]%elem_of_cons]%ohas_okeys%elem_of_cons; [| |done]; subst k;
      apply (bool_decide_unpack _); by vm_compute.
  - intros rt. unfold upstream_value. cbn [prop].
    destruct (oget rt _) as [w|] eqn:E; [|done]. apply oget_Some_elem in E.
    apply elem_of_cons in E as [[= _ ->]|[[= _ ->]|E%not_elem_of_nil]%elem_of_cons]; done.
Qed.

(** Choosing the price takes the chosen ratio back. *)
Example price_replaces_ratio :
  (fun p => okeys (chosen (resolutions p) (js "gpt-4o"))) <$> run id (first_page some_ratios) choose_price
  = Some [model_price].
Proof. by vm_compute. Qed.

(** A model with a stored ratio is a conflict when a price is chosen. *)
Example price_asks :
  (fun p => length (conflictItems p)) <$> run id (first_page some_ratios) (choose_price ++ [ApplySync]) = Some 1%nat.
Proof. by vm_compute. Qed.

Lemma reachable_by es :
  Forall (fun e => match e with Fetched (Compared diffs _) => diffs_ok diffs | _ => True end) es ->
  is_Some (run id (first_page some_ratios) es) ->
  exists p, run id (first_page some_ratios) es = Some p /\ reachable id p.
Proof.
  intros H [p E]. exists p. split; [exact E|]. by apply (reachable_run id (first_page some_ratios) es); [constructor| |].
Qed.

Lemma choose_ratio_ok :
  Forall (fun e => match e with Fetched (Compared diffs _) => diffs_ok diffs | _ => True end) choose_ratio.
Proof.
  apply List.Forall_cons; [exact I|]. apply List.Forall_cons; [apply some_diffs_ok|].
  apply List.Forall_cons; [exact I|apply List.Forall_nil].
Qed.

Lemma choices_exclusive_witness :
  exists p, run id (first_page some_ratios) choose_price = Some p
  /\ (ohas model_price (chosen (resolutions p) (js "gpt-4o")) = true ->
      forall rt, rt ∈ RATIO_SYNC_FIELDS -> ohas rt (chosen (resolutions p) (js "gpt-4o")) = false).
Proof.
  destruct (reachable_by choose_price) as (p & E & H).
  - apply Forall_app. split; [apply choose_ratio_ok|by repeat constructor].
  - vm_compute. by eexists.
  - exists p. split; [exact E|]. exact (proj1 (choices_exclusive id p (js "gpt-4o") H)).
Defined.

Lemma sync_writes_exact_witness :
  exists p f, run id (first_page some_ratios) choose_ratio = Some p /\ fst <$> f = OPTION_KEYS
  /\ oget (js "gpt-4o") (at_option PRICE_KEY f) = None.
Proof.
  destruct (reachable_by choose_ratio choose_ratio_ok) as (p & E & H); [vm_compute; by eexists|].
  destruct (sync_writes_exact id p H) as (f & p' & _ & _ & Hk & Hm). destruct (Hm (js "gpt-4o")) as (_ & _ & Hr).
  exists p, f. split; [exact E|]. split; [exact Hk|]. apply (Hr (js "model_ratio")); [by left|].
  assert (Ho : (fun p => ohas (js "model_ratio") (chosen (resolutions p) (js "gpt-4o")))
               <$> run id (first_page some_ratios) choose_ratio = Some true) by by vm_compute.
  rewrite E in Ho. by injection Ho.
Defined.

(** The page once the ratio was applied, without a question. *)
Definition apply_ratio : list event := choose_ratio ++ [ApplySync].

Lemma answered_sync_is_done_witness :
  exists p us p', run id (first_page some_ratios) apply_ratio = Some p /\ sending p = Some us
  /\ run id p ((fun d => Answered (Answer d)) <$> replicate 10 VNull) = Some p' /\ resolutions p' = [].
Proof.
  destruct (reachable_by apply_ratio) as (p & E & H).
  - apply Forall_app. split; [apply choose_ratio_ok|by repeat constructor].
  - vm_compute. by eexists.
  - assert (Hs : (fun p => length <$> sending p) <$> run id (first_page some_ratios) apply_ratio = Some (Some 10%nat))
      by by vm_compute.
    rewrite E in Hs. cbn in Hs. destruct (sending p) as [us|] eqn:Es; [|done]. cbn in Hs. injection Hs as Hl.
    destruct (answered_sync_is_done id p us (replicate 10 VNull) H Es) as (p' & Ep & _ & _ & Hr & _); [by rewrite Hl|].
    exists p, us, p'. split; [exact E|]. split; [exact Es|]. split; [exact Ep|exact Hr].
Defined.

Lemma unasked_sync_keeps_kind_witness :
  exists p f, run id (first_page some_ratios) choose_ratio = Some p
  /\ is_set (at_ (js "gpt-4o") (at_option PRICE_KEY f)) = false.
Proof.
  destruct (reachable_by choose_ratio choose_ratio_ok) as (p & E & H); [vm_compute; by eexists|].
  assert (Hc : (fun p => conflicts_of id (differences p) (parsedRatios p) (resolutions p))
               <$> run id (first_page some_ratios) choose_ratio = Some (Return [])) by by vm_compute.
  assert (Hl : (fun p => getLocalBillingCategory (js "gpt-4o") (parsedRatios p))
               <$> run id (first_page some_ratios) choose_ratio = Some (Return (Some ratio))) by by vm_compute.
  rewrite E in Hc, Hl. injection Hc as Hc. injection Hl as Hl.
  destruct (sync_has_maps id p H) as [f Hf].
  exists p, f. split; [exact E|]. exact (unasked_sync_keeps_kind id p f (js "gpt-4o") ratio H Hc Hf Hl).
Defined.

(** *** The table of prices after a save *)

(** A model billed by an expression. *)
Definition tiered_ratios (key : jsstr) : jsstr :=
  if bool_decide (key = js "billing_setting.billing_mode")
  then pretty (VObj (obj_of [(js "gpt-4o", VStr (js "tiered_expr"))]))
  else if bool_decide (key = js "billing_setting.billing_expr")
  then pretty (VObj (obj_of [(js "gpt-4o", VStr (js "tier(base, p * 1)"))])) else [].

(** The settings [PricingSnapshots] reads, once the updates are stored. *)
Definition texts_after (us : list (jsstr * jsstr)) : texts := fun f => default [] (mget (option_key f) us).

(** Taking over a ratio for this model stores the ratio, without a question, and the model
    goes on being billed by its expression. *)
Example expression_outlives_ratio :
  (fun p => (fun us => omapr (fun row => (s_mode row, s_field row ModelPricing.ratio))
                         (snapshot_of (read_maps (texts_after us)) (js "gpt-4o"))) <$> sending p)
  <$> run id (first_page tiered_ratios) apply_ratio
  = Some (Some (Return (tiered_expr, Some (js "2")))).
Proof. by vm_compute. Qed.
