(* ===== verification/MultiKeys.v ===== *)
(** * The keys of a channel
      ([features/channels/components/dialogs/multi-key-manage-dialog.tsx], [lib/multi-key-utils.ts])

    A channel may have many keys, which the server lists by pages and names by their
    positions.  The dialog shows a page, asks for others, and changes keys after a
    confirmation.  Every request waits for its answer while the dialog goes on: a state holds
    the lists and the changes that wait, and any of them may be answered next. *)

From S2P Require Import Prelude JsString JsNumber JsValue ApiClient ChannelActions.

(** ** Actions *)

Inductive ActionType := enable | disable | delete | enable_all | disable_all | delete_disabled.

#[export] Instance ActionType_eq_dec : EqDecision ActionType.
Proof. solve_decision. Defined.

Record MultiKeyConfirmAction := { type : ActionType; keyIndex : jsval }.

(** A field that is [undefined] is not sent. *)
Definition manageMultiKeys (channelId : num) (action : String.string) (more : obj) : api_call :=
  call_of POST (js "/api/channel/multi_key/manage")
    (VObj (obj_of ([(js "channel_id", VNum channelId); (js "action", VStr (js action))] ++ more))) VUndef.
Arguments manageMultiKeys channelId action%_string_scope more.

Definition getMultiKeyStatus (channelId : num) (page pageSize : jsval) (status : option num) : api_call :=
  manageMultiKeys channelId "get_key_status"
    ([(js "page", page); (js "page_size", pageSize)]
     ++ match status with Some n => [(js "status", VNum n)] | None => [] end).

Definition enableMultiKey (channelId : num) (keyIndex : jsval) : api_call :=
  manageMultiKeys channelId "enable_key" [(js "key_index", keyIndex)].
Definition disableMultiKey (channelId : num) (keyIndex : jsval) : api_call :=
  manageMultiKeys channelId "disable_key" [(js "key_index", keyIndex)].
Definition deleteMultiKey (channelId : num) (keyIndex : jsval) : api_call :=
  manageMultiKeys channelId "delete_key" [(js "key_index", keyIndex)].
Definition enableAllMultiKeys (channelId : num) : api_call := manageMultiKeys channelId "enable_all_keys" [].
Definition disableAllMultiKeys (channelId : num) : api_call := manageMultiKeys channelId "disable_all_keys" [].
Definition deleteDisabledMultiKeys (channelId : num) : api_call :=
  manageMultiKeys channelId "delete_disabled_keys" [].

(** The request of an action; an action on a key needs its position. *)
Definition action_request (channelId : num) (a : MultiKeyConfirmAction) : option api_call :=
  let indexed (f : num -> jsval -> api_call) :=
    match keyIndex a with VUndef => None | i => Some (f channelId i) end in
  match type a with
  | enable => indexed enableMultiKey
  | disable => indexed disableMultiKey
  | delete => indexed deleteMultiKey
  | enable_all => Some (enableAllMultiKeys channelId)
  | disable_all => Some (disableAllMultiKeys channelId)
  | delete_disabled => Some (deleteDisabledMultiKeys channelId)
  end.

(** [type.includes('all') || type === 'delete-disabled'] *)
Definition isBulkAction (t : ActionType) : bool :=
  match t with enable_all | disable_all | delete_disabled => true | _ => false end.

Definition getMultiKeyConfirmMessage (action : option MultiKeyConfirmAction) : jsstr :=
  match action with
  | None => []
  | Some a =>
      match type a with
      | delete => js "Are you sure you want to delete this key? This action cannot be undone."
      | enable => js "Enable this key?"
      | disable => js "Disable this key?"
      | enable_all => js "Are you sure you want to enable all keys?"
      | disable_all => js "Are you sure you want to disable all enabled keys?"
      | delete_disabled =>
          js "Are you sure you want to delete all auto-disabled keys? This action cannot be undone."
      end
  end.

Definition isDestructiveAction (action : option MultiKeyConfirmAction) : bool :=
  match action with
  | None => false
  | Some a => match type a with delete | delete_disabled | disable_all => true | _ => false end
  end.

(** ** The state *)

(** What an answer to a list sets, but for the page. *)
Record Shown := {
  keys : jsval; total : jsval; totalPages : jsval; enabledCount : jsval; manualDisabledCount : jsval;
  autoDisabledCount : jsval }.

(** A list that waits for its answer: what it was asked for. *)
Record Load := { l_channel : num; l_page : jsval; l_size : jsval; l_status : option num }.

(** A change that waits: the action, and what the handler remembers of the dialog. *)
Record Act := { a_action : MultiKeyConfirmAction; a_load : Load }.

Record Dialog := {
  is_open : bool; currentRow : option num; shown : Shown; currentPage : jsval; pageSize : jsval;
  statusFilter : option num; confirmAction : option MultiKeyConfirmAction; isPerformingAction : bool;
  isLoading : bool; loads : list (nat * Load); acts : list (nat * Act); next : nat; asked : list api_call;
  said : list (bool * message) }.

Definition one_ : jsval := VNum (num_of_Z 1).

Definition nothing_shown : Shown :=
  {| keys := VArr []; total := VNum zero; totalPages := VNum zero; enabledCount := VNum zero;
     manualDisabledCount := VNum zero; autoDisabledCount := VNum zero |}.

Definition initial : Dialog :=
  {| is_open := false; currentRow := None; shown := nothing_shown; currentPage := one_;
     pageSize := VNum (num_of_Z 10); statusFilter := None; confirmAction := None; isPerformingAction := false;
     isLoading := false; loads := []; acts := []; next := 0; asked := []; said := [] |}.

Definition set_view (page : jsval) (filter : option num) (s : Dialog) : Dialog :=
  {| is_open := is_open s; currentRow := currentRow s; shown := shown s; currentPage := page;
     pageSize := pageSize s; statusFilter := filter; confirmAction := confirmAction s;
     isPerformingAction := isPerformingAction s; isLoading := isLoading s; loads := loads s; acts := acts s;
     next := next s; asked := asked s; said := said s |}.

Definition set_open (b : bool) (c : option num) (s : Dialog) : Dialog :=
  {| is_open := b; currentRow := c; shown := shown s; currentPage := currentPage s;
     pageSize := pageSize s; statusFilter := statusFilter s; confirmAction := confirmAction s;
     isPerformingAction := isPerformingAction s; isLoading := isLoading s; loads := loads s; acts := acts s;
     next := next s; asked := asked s; said := said s |}.

Definition set_confirm (a : option MultiKeyConfirmAction) (performing : bool) (s : Dialog) : Dialog :=
  {| is_open := is_open s; currentRow := currentRow s; shown := shown s; currentPage := currentPage s;
     pageSize := pageSize s; statusFilter := statusFilter s; confirmAction := a;
     isPerformingAction := performing; isLoading := isLoading s; loads := loads s; acts := acts s;
     next := next s; asked := asked s; said := said s |}.

Definition say (ok : bool) (m : message) (s : Dialog) : Dialog :=
  {| is_open := is_open s; currentRow := currentRow s; shown := shown s; currentPage := currentPage s;
     pageSize := pageSize s; statusFilter := statusFilter s; confirmAction := confirmAction s;
     isPerformingAction := isPerformingAction s; isLoading := isLoading s; loads := loads s; acts := acts s;
     next := next s; asked := asked s; said := said s ++ [(ok, m)] |}.

(** [loadKeyStatus], up to its request. *)
Definition loadKeyStatus (l : Load) (s : Dialog) : Dialog :=
  {| is_open := is_open s; currentRow := currentRow s; shown := shown s; currentPage := currentPage s;
     pageSize := pageSize s; statusFilter := statusFilter s; confirmAction := confirmAction s;
     isPerformingAction := isPerformingAction s; isLoading := true; loads := loads s ++ [(next s, l)];
     acts := acts s; next := S (next s);
     asked := asked s ++ [getMultiKeyStatus (l_channel l) (l_page l) (l_size l) (l_status l)]; said := said s |}.

Definition set_list (sh : Shown) (page size : jsval) (s : Dialog) : Dialog :=
  {| is_open := is_open s; currentRow := currentRow s; shown := sh; currentPage := page;
     pageSize := size; statusFilter := statusFilter s; confirmAction := confirmAction s;
     isPerformingAction := isPerformingAction s; isLoading := isLoading s; loads := loads s; acts := acts s;
     next := next s; asked := asked s; said := said s |}.

Definition shown_of (data : jsval) : Shown :=
  let n k := vor (prop (js k) data) (VNum zero) in
  {| keys := vor (prop (js "keys") data) (VArr []); total := n "total"%string; totalPages := n "total_pages"%string;
     enabledCount := n "enabled_count"%string; manualDisabledCount := n "manual_disabled_count"%string;
     autoDisabledCount := n "auto_disabled_count"%string |}.

Section Run.
Context (null_message : jsstr).

(** The answer of a list, if it is one: [response.success && response.data]. *)
Definition list_data (r : reply) : option jsval :=
  match r with
  | Answer data =>
      if truthy (prop (js "success") data) && truthy (prop (js "data") data) then Some (prop (js "data") data) else None
  | Failure _ _ => None
  end.

(** The [try] and [catch] of [loadKeyStatus], once the answer is there. *)
Definition finish_load (r : reply) (s : Dialog) : Dialog :=
  match list_data r with
  | Some data =>
      set_list (shown_of data) (vor (prop (js "page") data) one_)
        (vor (prop (js "page_size") data) (VNum (num_of_Z 10))) s
  | None =>
      say false
        match r with
        | Failure _ m => Server (VStr m)
        | Answer data => if nullish data then Server (VStr null_message)
                         else server_or data (t "Failed to load key status")
        end s
  end.

(** The answer of a list, with the [finally]. *)
Definition loaded (pid : nat) (r : reply) (s : Dialog) : option Dialog :=
  match find (fun p => bool_decide (fst p = pid)) (loads s) with
  | Some _ =>
      let s := finish_load r s in
      Some {| is_open := is_open s; currentRow := currentRow s; shown := shown s; currentPage := currentPage s;
              pageSize := pageSize s; statusFilter := statusFilter s; confirmAction := confirmAction s;
              isPerformingAction := isPerformingAction s; isLoading := false;
              loads := filterb (fun p => negb (bool_decide (fst p = pid))) (loads s); acts := acts s;
              next := next s; asked := asked s; said := said s |}
  | None => None
  end.

Definition handleStatusFilterChange (newFilter : option num) (c : num) (s : Dialog) : Dialog :=
  loadKeyStatus {| l_channel := c; l_page := one_; l_size := pageSize s; l_status := newFilter |}
    (set_view one_ newFilter s).

Definition handlePageChange (newPage : jsval) (c : num) (s : Dialog) : Dialog :=
  loadKeyStatus {| l_channel := c; l_page := newPage; l_size := pageSize s; l_status := statusFilter s |}
    (set_view newPage (statusFilter s) s).

(** [performAction], up to its request. *)
Definition performAction (s : Dialog) : option Dialog :=
  match confirmAction s, currentRow s with
  | Some a, Some c =>
      match action_request c a with
      | Some call =>
          Some {| is_open := is_open s; currentRow := currentRow s; shown := shown s;
                  currentPage := currentPage s; pageSize := pageSize s; statusFilter := statusFilter s;
                  confirmAction := confirmAction s; isPerformingAction := true; isLoading := isLoading s;
                  loads := loads s;
                  acts := acts s ++ [(next s, {| a_action := a;
                            a_load := {| l_channel := c; l_page := currentPage s; l_size := pageSize s;
                                         l_status := statusFilter s |} |})];
                  next := S (next s); asked := asked s ++ [call]; said := said s |}
      | None => Some (set_confirm None false (say false (t "Operation failed") s))
      end
  | _, _ => None
  end.

(** The rest of [performAction]: the message, the list asked for again, and the end. *)
Definition finish_act (a : Act) (r : reply) (s : Dialog) : Dialog :=
  let s :=
    match r with
    | Failure _ m => say false (Server (VStr m)) s
    | Answer data =>
        if truthy (prop (js "success") data) then
          let s := say true (server_or data (t "Operation successful")) s in
          let l := a_load a in
          if isBulkAction (type (a_action a))
          then loadKeyStatus {| l_channel := l_channel l; l_page := one_; l_size := l_size l; l_status := l_status l |}
                 (set_view one_ (statusFilter s) s)
          else loadKeyStatus l s
        else say false (server_or data (t "Operation failed")) s
    end in
  set_confirm None false s.

Definition acted (pid : nat) (r : reply) (s : Dialog) : option Dialog :=
  match find (fun p => bool_decide (fst p = pid)) (acts s) with
  | Some (_, a) =>
      let s := finish_act a r s in
      Some {| is_open := is_open s; currentRow := currentRow s; shown := shown s; currentPage := currentPage s;
              pageSize := pageSize s; statusFilter := statusFilter s; confirmAction := confirmAction s;
              isPerformingAction := isPerformingAction s; isLoading := isLoading s; loads := loads s;
              acts := filterb (fun p => negb (bool_decide (fst p = pid))) (acts s);
              next := next s; asked := asked s; said := said s |}
  | None => None
  end.

(** *** Events *)

Inductive event :=
  | Open (c : num)
  | Close
  | Filter (f : option num)
  | Refresh
  | Previous
  | Next
  | RowAction (i : nat) (t : ActionType)
  | Bulk (t : ActionType)
  | Cancel
  | Confirm
  | Loaded (pid : nat) (r : reply)
  | Acted (pid : nat) (r : reply).

Definition rows (s : Dialog) : list jsval := match keys (shown s) with VArr l => l | _ => [] end.

Definition is_one (v : jsval) : bool := match v with VNum n => neqb n (num_of_Z 1) | _ => false end.

(** [a >= b], [totalPages > 1] and [n > 0] *)
Definition at_least (a b : jsval) : bool := nleb (to_number b) (to_number a).
Definition more_pages (s : Dialog) : bool := nltb (num_of_Z 1) (to_number (totalPages (shown s))).
Definition positive (n : num) : bool := nltb zero n.

(** The buttons of a row, by the status of its key. *)
Definition row_offers (key : jsval) (t : ActionType) : bool :=
  match t with
  | disable => is_one (prop (js "status") key)
  | enable => negb (is_one (prop (js "status") key))
  | delete => true
  | _ => false
  end.

Definition bulk_offers (s : Dialog) (t : ActionType) : bool :=
  let n f := to_number (f (shown s)) in
  match t with
  | enable_all => positive (nadd (n manualDisabledCount) (n autoDisabledCount))
  | disable_all => positive (n enabledCount)
  | delete_disabled => positive (n autoDisabledCount)
  | _ => false
  end.

(** Whether the confirmation is shown. *)
Definition asks (s : Dialog) : bool := match confirmAction s with Some _ => true | None => false end.

(** The effect of an opening. *)
Definition open_for (c : num) (s : Dialog) : Dialog :=
  if is_open s && match currentRow s with Some c' => neqb c' c | None => false end then s
  else loadKeyStatus {| l_channel := c; l_page := one_; l_size := pageSize s; l_status := None |}
         (set_view one_ None (set_open true (Some c) s)).

(** A row is named by its place in the table; the confirmation is a dialog over the dialog. *)
Definition step (s : Dialog) (e : event) : option Dialog :=
  let free (f : num -> option Dialog) :=
    if is_open s && negb (asks s)
    then match currentRow s with Some c => f c | None => None end else None in
  let button (ok : bool) (q : Dialog) := if ok then Some q else None in
  match e with
  | Open c => if asks s then None else Some (open_for c s)
  | Close => free (fun c => Some (set_open false (currentRow s) s))
  | Filter f => free (fun c => Some (handleStatusFilterChange f c s))
  | Refresh =>
      free (fun c => button (negb (isLoading s))
        (loadKeyStatus {| l_channel := c; l_page := currentPage s; l_size := pageSize s;
                          l_status := statusFilter s |} s))
  | Previous =>
      free (fun c => button (more_pages s && negb (is_one (currentPage s))
                             && negb (isLoading s))
        (handlePageChange (VNum (nsub (to_number (currentPage s)) (num_of_Z 1))) c s))
  | Next =>
      free (fun c => button (more_pages s
                             && negb (at_least (currentPage s) (totalPages (shown s))) && negb (isLoading s))
        (handlePageChange (VNum (nadd (to_number (currentPage s)) (num_of_Z 1))) c s))
  | RowAction i t =>
      free (fun _ => match rows s !! i with
                     | Some key => button (row_offers key t && negb (isLoading s))
                         (set_confirm (Some {| type := t; keyIndex := prop (js "index") key |}) (isPerformingAction s) s)
                     | None => None
                     end)
  | Bulk t =>
      free (fun _ => button (bulk_offers s t)
        (set_confirm (Some {| type := t; keyIndex := VUndef |}) (isPerformingAction s) s))
  | Cancel => button (asks s) (set_confirm None (isPerformingAction s) s)
  | Confirm => if isPerformingAction s then None else performAction s
  | Loaded pid r => loaded pid r s
  | Acted pid r => acted pid r s
  end.

Fixpoint run (s : Dialog) (es : list event) : option Dialog :=
  match es with
  | [] => Some s
  | e :: es => match step s e with Some s' => run s' es | None => None end
  end.
End Run.

(** ** Theorems *)

Section Theorems.
Context (null_message : jsstr).

(** The last list that was answered, by the step that answers it. *)
Definition after (last : option (Load * jsval)) (s : Dialog) (e : event) : option (Load * jsval) :=
  match e with
  | Loaded pid r =>
      match find (fun p => bool_decide (fst p = pid)) (loads s) with
      | Some p => (fun d => (snd p, d)) <$> list_data r
      | None => last
      end
  | _ => last
  end.

(** Executions in which no list is asked for while another waits, and no confirmation is
    cancelled while its change waits. *)
Inductive serial : option (Load * jsval) -> Dialog -> Prop :=
  | serial_first : serial None initial
  | serial_step last s e s' :
      serial last s -> step null_message s e = Some s' -> (length (loads s') <= 1)%nat ->
      (e = Cancel -> isPerformingAction s = false) ->
      serial (after last s e) s'.

(** The list [l] was asked for what the dialog shows. *)
Definition current (l : Load) (s : Dialog) : Prop := currentRow s = Some (l_channel l) /\ statusFilter s = l_status l.

Record fresh (last : option (Load * jsval)) (s : Dialog) : Prop := {
  f_loading : if isLoading s then exists pid l, loads s = [(pid, l)] /\ current l s else loads s = [];
  f_last : isLoading s = false -> forall l d, last = Some (l, d) ->
           current l s /\ shown s = shown_of d /\ currentPage s = vor (prop (js "page") d) one_;
  f_acts : if isPerformingAction s
           then asks s = true /\ exists pid a, acts s = [(pid, a)] /\ current (a_load a) s
           else acts s = [] }.

(** A list asked for alone. *)
Lemma fresh_load last l s :
  (length (loads (loadKeyStatus l s)) <= 1)%nat -> current l s ->
  (if isPerformingAction s then asks s = true /\ exists pid a, acts s = [(pid, a)] /\ current (a_load a) s
   else acts s = []) ->
  fresh last (loadKeyStatus l s).
Proof.
  intros Hl Hc Ha. split; cbn [loadKeyStatus isLoading loads isPerformingAction acts].
  - exists (next s), l. cbn [loadKeyStatus loads] in Hl. rewrite length_app in Hl. cbn in Hl.
    destruct (loads s); [by split|cbn in Hl; lia].
  - done.
  - exact Ha.
Qed.

(** A step that touches neither lists nor view. *)
Lemma fresh_confirm last a b s :
  fresh last s -> (b = isPerformingAction s) -> (b = true -> a <> None) -> fresh last (set_confirm a b s).
Proof.
  intros [H1 H2 H3] -> Hb. split; [exact H1|exact H2|]. cbn [set_confirm isPerformingAction].
  destruct (isPerformingAction s); [|exact H3]. destruct H3 as [_ H3]. split; [|exact H3].
  unfold asks. cbn. destruct a; [done|]. by destruct Hb.
Qed.

Lemma not_performing last s : fresh last s -> asks s = false -> isPerformingAction s = false /\ acts s = [].
Proof. intros [_ _ H] Ha. destruct (isPerformingAction s); [by destruct H; congruence|done]. Qed.

Lemma idle_load last l s s0 :
  fresh last s -> asks s = false -> (length (loads (loadKeyStatus l s0)) <= 1)%nat -> current l s0 ->
  isPerformingAction s0 = isPerformingAction s -> acts s0 = acts s -> forall last', fresh last' (loadKeyStatus l s0).
Proof.
  intros Hf Ha Hl Hc Ep Ea last'. destruct (not_performing _ _ Hf Ha) as [Hp Hacts].
  apply fresh_load; [done|done|]. by rewrite Ep, Hp, Ea.
Qed.

(** The answer to the one list that waits. *)
Lemma fresh_loaded last pid r s s' :
  fresh last s -> loaded null_message pid r s = Some s' -> fresh (after last s (Loaded pid r)) s'.
Proof.
  intros [H1 H2 H3] E. unfold loaded, after in *. destruct (find _ (loads s)) as [[q l]|] eqn:Ef; [|done].
  injection E as <-. apply find_some in Ef as [Hin Hq]. apply list_elem_of_In in Hin.
  destruct (isLoading s) eqn:El; [|rewrite H1 in Hin; by apply not_elem_of_nil in Hin].
  destruct H1 as (p & l' & Hl & Hc). rewrite Hl in Hin. apply list_elem_of_singleton in Hin as [= -> ->].
  assert (E : forall r, loads (finish_load null_message r s) = loads s /\ currentRow (finish_load null_message r s) = currentRow s
    /\ statusFilter (finish_load null_message r s) = statusFilter s
    /\ confirmAction (finish_load null_message r s) = confirmAction s
    /\ isPerformingAction (finish_load null_message r s) = isPerformingAction s
    /\ acts (finish_load null_message r s) = acts s).
  { intros r'. unfold finish_load. by destruct (list_data r'). }
  destruct (E r) as (E1 & E2 & E3 & E4 & E5 & E6). split; cbn [isLoading loads isPerformingAction acts].
  - rewrite E1, Hl. cbn in Hq |- *. by rewrite Hq.
  - intros _ l1 d Hlast. unfold finish_load in *. cbn [snd] in Hlast. destruct (list_data r) as [data|]; [|done].
    injection Hlast as <- <-. split; [exact Hc|]. by split.
  - rewrite E5, E6. destruct (isPerformingAction s); [|exact H3]. destruct H3 as (Ha & p' & a & Hacts & Hc').
    split; [unfold asks in *; cbn; by rewrite E4|]. exists p', a. split; [done|].
    unfold current in *. cbn [currentRow statusFilter]. by rewrite E2, E3.
Qed.

Lemma fresh_acted last pid r s s' :
  fresh last s -> (length (loads s') <= 1)%nat -> acted pid r s = Some s' -> fresh last s'.
Proof.
  intros [H1 H2 H3] Hl E. unfold acted in E. destruct (find _ (acts s)) as [[q a]|] eqn:Ef; [|done].
  injection E as <-. apply find_some in Ef as [Hin Hq]. apply list_elem_of_In in Hin.
  destruct (isPerformingAction s) eqn:Ep; [|rewrite H3 in Hin; by apply not_elem_of_nil in Hin].
  destruct H3 as (Ha & p & a' & Hacts & Hc). rewrite Hacts in Hin. apply list_elem_of_singleton in Hin as [= -> ->].
  cbn in Hq. unfold finish_act in *. cbn [set_confirm acts isPerformingAction loads isLoading] in Hl.
  assert (Hno : forall m b, fresh last
    (let s := set_confirm None false (say b m s) in
     {| is_open := is_open s; currentRow := currentRow s; shown := shown s; currentPage := currentPage s;
        pageSize := pageSize s; statusFilter := statusFilter s; confirmAction := confirmAction s;
        isPerformingAction := isPerformingAction s; isLoading := isLoading s; loads := loads s;
        acts := filterb (fun p0 => negb (bool_decide (fst p0 = pid))) (acts s);
        next := next s; asked := asked s; said := said s |})).
  { intros m b. split; [exact H1|exact H2|]. cbn. rewrite Hacts. cbn. by rewrite Hq. }
  destruct r as [data|response m]; [|apply Hno]. destruct (truthy (prop (js "success") data)); [|apply Hno].
  destruct (isBulkAction _); cbn [loadKeyStatus loads] in Hl; rewrite length_app in Hl; cbn in Hl;
    (split; cbn; [exists (next s); eexists; split; [destruct (loads s); [done|cbn in Hl; lia]|]; by destruct Hc
                 |done|rewrite Hacts; cbn; by rewrite Hq]).
Qed.
Lemma serial_fresh last s : serial last s -> fresh last s.
Proof.
  induction 1 as [|last s e s' _ IH E Hl Hc]; [by split|].
  assert (Hfree : forall f : num -> option Dialog,
    (if is_open s && negb (asks s) then match currentRow s with Some c => f c | None => None end else None) = Some s' ->
    exists c, asks s = false /\ currentRow s = Some c /\ f c = Some s').
  { intros f H. destruct (is_open s); [|done]. destruct (asks s); [done|]. destruct (currentRow s) as [c|]; [|done].
    by exists c. }
  destruct e as [c| |f| | | |i t|t| | |pid r|pid r]; cbn [step] in E; cbn [after].
  - destruct (asks s) eqn:Ha; [done|]. injection E as <-. unfold open_for in *. destruct (_ && _); [done|].
    by eapply idle_load.
  - apply Hfree in E as (c & Ha & Hr & E). injection E as <-. destruct IH as [H1 H2 H3]. by split.
  - apply Hfree in E as (c & Ha & Hr & E). injection E as <-. by eapply idle_load.
  - apply Hfree in E as (c & Ha & Hr & E). destruct (negb (isLoading s)); [|done]. injection E as <-. by eapply idle_load.
  - apply Hfree in E as (c & Ha & Hr & E). destruct (_ && _); [|done]. injection E as <-. by eapply idle_load.
  - apply Hfree in E as (c & Ha & Hr & E). destruct (_ && _); [|done]. injection E as <-. by eapply idle_load.
  - apply Hfree in E as (c & Ha & Hr & E). destruct (rows s !! i) as [key|]; [|done]. destruct (_ && _); [|done].
    injection E as <-. by apply fresh_confirm.
  - apply Hfree in E as (c & Ha & Hr & E). destruct (bulk_offers s t); [|done]. injection E as <-. by apply fresh_confirm.
  - destruct (asks s); [|done]. injection E as <-. apply fresh_confirm; [done|done|]. rewrite Hc; done.
  - destruct (isPerformingAction s) eqn:Ep; [done|]. unfold performAction in E.
    destruct (confirmAction s) as [a|] eqn:Ea; [|done]. destruct (currentRow s) as [c|] eqn:Er; [|done].
    pose proof IH as [H1 H2 H3]. rewrite Ep in H3. destruct (action_request c a); injection E as <-.
    + unfold current in *. rewrite Er in H1, H2. split; [exact H1|exact H2|]. cbn.
      split; [done|]. rewrite H3. by eexists _, _.
    + split; [exact H1|exact H2|exact H3].
  - by eapply fresh_loaded.
  - by eapply fresh_acted.
Qed.

(** C11. What the dialog shows is what was asked for.  As long as each list is awaited before the
    next is asked for, and no confirmation is cancelled while its change is being made: the
    table is hidden exactly while a list waits; and otherwise, when the last answer brought a
    list, the rows, the counts and the page shown are those of it, and it is the list for the
    channel and the filter shown. *)
Theorem serial_dialog_is_fresh last s :
  serial last s ->
  (isLoading s = true <-> loads s <> [])
  /\ forall l d, isLoading s = false -> last = Some (l, d) ->
     shown s = shown_of d /\ currentPage s = vor (prop (js "page") d) one_
     /\ currentRow s = Some (l_channel l) /\ statusFilter s = l_status l.
Proof.
  intros H. destruct (serial_fresh last s H) as [H1 H2 _]. split.
  - destruct (isLoading s); [destruct H1 as (p & l & -> & _)|rewrite H1]; done.
  - intros l d Hn Hlast. by destruct (H2 Hn l d Hlast) as ([? ?] & ? & ?).
Qed.

(** *** The limits of the dialog *)

(** A change that succeeded, followed by a list that failed: the table offers the rows it
    showed before, under their old positions, although the server's positions may have moved. *)
Theorem failed_reload_keeps_rows s pid a data response m :
  acts s = [(pid, a)] -> loads s = [] -> truthy (prop (js "success") data) = true ->
  exists s', run null_message s [Acted pid (Answer data); Loaded (next s) (Failure response m)] = Some s'
  /\ rows s' = rows s /\ isLoading s' = false /\ asks s' = false /\ currentRow s' = currentRow s.
Proof.
  intros Ha Hl Hs. cbn [run step]. unfold acted. rewrite Ha. cbn [find fst]. rewrite bool_decide_eq_true_2 by done.
  unfold finish_act. rewrite Hs. unfold loaded.
  destruct (isBulkAction _); cbn; rewrite Hl; cbn; rewrite bool_decide_eq_true_2 by done; by eexists.
Qed.

(** Two filters chosen in a row, whose answers overtake each other: the dialog shows the rows
    of the first under the second. *)
Theorem overtaken_filter_is_shown s c f1 f2 d1 d2 :
  is_open s = true -> asks s = false -> currentRow s = Some c -> loads s = [] ->
  truthy d1 = true -> truthy d2 = true ->
  let answer d := Answer (VObj (obj_of [(js "success", VBool true); (js "data", d)])) in
  exists s', run null_message s [Filter f1; Filter f2; Loaded (S (next s)) (answer d2); Loaded (next s) (answer d1)] = Some s'
  /\ statusFilter s' = f2 /\ shown s' = shown_of d1 /\ isLoading s' = false.
Proof.
  intros Ho Ha Hr Hl H1 H2 answer. cbn [run step]. rewrite Ho, Ha, Hr. cbn [andb negb].
  assert (Hd : forall d, truthy d = true -> list_data (answer d) = Some d).
  { intros d Hd. unfold list_data, answer. set (o := VObj _).
    assert (E1 : prop (js "success") o = VBool true) by done. assert (E2 : prop (js "data") o = d) by done.
    by rewrite E1, E2, Hd. }
  unfold handleStatusFilterChange, asks in *. cbn [is_open currentRow confirmAction loadKeyStatus set_view].
  rewrite Ho, Hr. destruct (confirmAction s); [done|]. cbn [andb negb]. unfold loaded.
  cbn [loads loadKeyStatus set_view next]. rewrite Hl. cbn [app find fst].
  rewrite (bool_decide_eq_false_2 (next s = S (next s))), (bool_decide_eq_true_2 (S (next s) = S (next s))) by lia.
  unfold finish_load. rewrite (Hd d2 H2). cbn [set_list loads loadKeyStatus set_view next filterb fst].
  rewrite Hl. cbn [app filterb fst].
  rewrite (bool_decide_eq_false_2 (next s = S (next s))), (bool_decide_eq_true_2 (S (next s) = S (next s))) by lia.
  cbn [negb find fst]. rewrite (bool_decide_eq_true_2 (next s = next s)) by done. rewrite (Hd d1 H1). by eexists.
Qed.

(** C20. A list of one channel that comes after another channel was opened is shown as the list of
    that channel, and deleting one of its rows asks for the key of the other channel at this
    position. *)
Theorem list_of_other_channel s c c' pid l d ks i key :
  is_open s = true -> asks s = false -> isPerformingAction s = false -> currentRow s = Some c ->
  loads s = [(pid, l)] -> pid <> next s -> neqb c c' = false ->
  truthy d = true -> prop (js "keys") d = VArr ks -> ks !! i = Some key -> prop (js "index") key <> VUndef ->
  let answer d := Answer (VObj (obj_of [(js "success", VBool true); (js "data", d)])) in
  forall r, exists s',
  run null_message s [Close; Open c'; Loaded (next s) r; Loaded pid (answer d); RowAction i delete; Confirm] = Some s'
  /\ currentRow s' = Some c' /\ rows s' = ks
  /\ last (asked s') = Some (deleteMultiKey c' (prop (js "index") key)).
Proof.
  intros Ho Ha Hp Hr Hl Hpid Hc Hd Hk Hi Hidx answer r. unfold asks in Ha.
  destruct (confirmAction s) eqn:Ec; [done|].
  assert (Hans : list_data (answer d) = Some d).
  { unfold list_data, answer. set (o := VObj _).
    assert (E1 : prop (js "success") o = VBool true) by done. assert (E2 : prop (js "data") o = d) by done.
    by rewrite E1, E2, Hd. }
  assert (Hrows : vor (prop (js "keys") d) (VArr []) = VArr ks) by by rewrite Hk.
  cbn [run step]. unfold asks. rewrite Ho, Ec, Hr. cbn [andb negb].
  unfold open_for. cbn [set_open is_open confirmAction currentRow andb]. rewrite Ec.
  unfold loaded. cbn [loads loadKeyStatus set_view set_open next]. rewrite Hl. cbn [app find fst].
  rewrite (bool_decide_eq_false_2 (pid = next s)), (bool_decide_eq_true_2 (next s = next s)) by done.
  assert (E : forall s0, loads (finish_load null_message r s0) = loads s0 /\ is_open (finish_load null_message r s0) = is_open s0
    /\ currentRow (finish_load null_message r s0) = currentRow s0
    /\ confirmAction (finish_load null_message r s0) = confirmAction s0
    /\ isPerformingAction (finish_load null_message r s0) = isPerformingAction s0).
  { intros s0. unfold finish_load. by destruct (list_data r). }
  match goal with |- context [finish_load null_message r ?x] => destruct (E x) as (E1 & E2 & E3 & E4 & E5); set (s2 := finish_load null_message r x) in * end.
  cbn [loads is_open currentRow confirmAction isPerformingAction loadKeyStatus set_view set_open] in E1, E2, E3, E4, E5.
  rewrite E1, Hl. cbn [app filterb fst].
  rewrite (bool_decide_eq_false_2 (pid = next s)), (bool_decide_eq_true_2 (next s = next s)) by done.
  cbn [negb loads find fst]. rewrite (bool_decide_eq_true_2 (pid = pid)) by done.
  unfold finish_load. rewrite Hans. cbn [set_list is_open confirmAction currentRow isLoading rows shown keys shown_of].
  rewrite E2, E4, Ec, E3. cbn [andb negb].
  unfold rows. cbn [shown keys shown_of]. rewrite Hrows, Hi. cbn [row_offers negb andb].
  cbn [set_confirm isPerformingAction]. rewrite E5, Hp. unfold performAction.
  cbn [set_confirm set_list isPerformingAction confirmAction currentRow]. unfold action_request. cbn [type keyIndex].
  destruct (prop (js "index") key) eqn:Ek; try done;
    (eexists; split; [reflexivity|]; split; [reflexivity|]; split;
     [change (match vor (prop (js "keys") d) (VArr []) with VArr l0 => l0 | _ => [] end = ks); by rewrite Hrows|];
     cbn [asked]; apply last_snoc).
Qed.
End Theorems.

(** ** Witnesses *)

Definition a_key : jsval := VObj (obj_of [(js "index", VNum zero); (js "status", VNum (num_of_Z 1))]).
Definition a_list : jsval := VObj (obj_of [(js "keys", VArr [a_key]); (js "page", VNum (num_of_Z 1))]).
Definition list_answer : reply := Answer (VObj (obj_of [(js "success", VBool true); (js "data", a_list)])).
Definition done_answer : jsval := VObj (obj_of [(js "success", VBool true)]).
Definition seven : num := num_of_Z 7.
Definition eight : num := num_of_Z 8.

(** The dialog with its first list. *)
Definition opened : Dialog := loadKeyStatus {| l_channel := seven; l_page := one_; l_size := VNum (num_of_Z 10); l_status := None |}
                                (set_view one_ None (set_open true (Some seven) initial)).

Lemma serial_dialog_is_fresh_witness :
  exists s l d, loaded [] 0 list_answer opened = Some s /\ isLoading s = false
  /\ shown s = shown_of d /\ currentRow s = Some (l_channel l).
Proof.
  assert (H0 : serial [] None opened).
  { change (None (A := Load * jsval)) with (after None initial (Open seven)).
    apply (serial_step [] None initial (Open seven)); [apply serial_first|done|cbn; lia|done]. }
  destruct (loaded [] 0 list_answer opened) as [s|] eqn:E; [|by vm_compute in E].
  assert (H1 : serial [] (after None opened (Loaded 0 list_answer)) s).
  { apply (serial_step [] None opened (Loaded 0 list_answer)); [exact H0|exact E| |done].
    vm_compute in E. injection E as <-. cbn. lia. }
  assert (Hl : isLoading s = false) by (vm_compute in E; by injection E as <-).
  exists s, {| l_channel := seven; l_page := one_; l_size := VNum (num_of_Z 10); l_status := None |}, a_list.
  split; [reflexivity|]. split; [exact Hl|].
  destruct (proj2 (serial_dialog_is_fresh [] _ s H1) _ a_list Hl eq_refl) as (Hs & _ & Hr & _).
  split; [exact Hs|exact Hr].
Defined.

(** The dialog while a deletion waits. *)
Definition deleting : Dialog :=
  default initial (run [] initial [Open seven; Loaded 0 list_answer; RowAction 0 delete; Confirm]).

Lemma failed_reload_keeps_rows_witness :
  exists s', run [] deleting [Acted 1 (Answer done_answer); Loaded 2 (Failure None [])] = Some s'
  /\ rows s' = rows deleting /\ isLoading s' = false.
Proof.
  assert (Ha : exists a, acts deleting = [(1%nat, a)]) by (eexists; vm_compute; reflexivity).
  destruct Ha as [a Ha].
  destruct (failed_reload_keeps_rows [] deleting 1 a done_answer None [] Ha) as (s' & E & Hr & Hl & _);
    [by vm_compute|by vm_compute|].
  exists s'. split; [exact E|]. split; [exact Hr|exact Hl].
Defined.

Lemma overtaken_filter_is_shown_witness :
  exists s', statusFilter s' = Some (num_of_Z 2) /\ shown s' = shown_of a_list.
Proof.
  destruct (overtaken_filter_is_shown [] (default initial (loaded [] 0 list_answer opened)) seven
              (Some (num_of_Z 1)) (Some (num_of_Z 2)) a_list (VObj []))
    as (s' & _ & H1 & H2 & _); [by vm_compute..|].
  exists s'. split; [exact H1|exact H2].
Defined.

Lemma list_of_other_channel_witness :
  exists s', currentRow s' = Some eight /\ rows s' = [a_key] /\ last (asked s') = Some (deleteMultiKey eight (VNum zero)).
Proof.
  destruct (list_of_other_channel [] opened seven eight 0
              {| l_channel := seven; l_page := one_; l_size := VNum (num_of_Z 10); l_status := None |}
              a_list [a_key] 0 a_key) with (r := Failure None (@nil N)) as (s' & _ & H1 & H2 & H3);
    [reflexivity|reflexivity|reflexivity|reflexivity|reflexivity|done|by vm_compute|reflexivity|by vm_compute|reflexivity|done|].
  exists s'. split; [exact H1|]. split; [exact H2|exact H3].
Defined.
